(* ===== verification/_CoqProject ===== *)
-Q . S2P
Prelude.v
Serial.v
Codec.v
PktType.v
Wai.v
Slidwin.v
Scnx.v
Interval.v
Bitfield.v
GenId.v
Omap.v
PktFrag.v
Text.v
Time.v
Timeout.v
Dvar.v
Bencode.v
InetAddr.v
Aview.v
ItemArr.v
Cookie.v
KadAddr.v
Kbucket.v
KbucketRep.v
KbucketNear.v
KadRec.v
KadDb.v
KadEvent.v
Nsearch.v
KadSearch.v
KadCmd.v
KadCmdThm.v
KadRpc.v
KadRpcThm.v
Rdgram.v
Ordgram.v
OrdNet.v
Stream.v
Int24.v
Rtmp.v
Amf0.v
Flv.v
FileRange.v
BtMfile.v
BtCmd.v
BtSendq.v
