(* ===== verification/Prelude.v ===== *)
(** * neoip: a verification of its data and protocol core

    neoip is a set of peer-to-peer programs (virtual ethernet, bittorrent
    streaming, NAT traversal) over one library, src/src/neoip_*.  A node is a
    stack of layers that exchange [pkt_t] packets, driven by timers and socket
    events of a single-threaded event loop.  This development models the part
    of the library every program runs on: the byte buffer and the codecs all
    messages go through, the sequence numbers, windows and timers of the
    protocols, the datagram layers (secure packets, fragmentation, reliable
    and ordered datagrams) as whole state machines, the dynamic values and
    their bencode format, the addresses, and of Kademlia the
    routing table, the records and their database, the node search, the
    commands, and the requests and replies between peers; and of the video
    streams the chunks of RTMP, their values and the tags of FLV.

    ** Files, in dependency order

    - Prelude.v: outcomes, fixed-width arithmetic, shared lemmas and tactics.
    - Serial.v: [serial_t] (neoip_base/memory/serial/), a growable buffer with
      free room on both sides.  A zone of cells, the offset of [used_ptr] and
      the used length; every operation with its assertions.  Specification: a
      deque of bytes ([spec_run]).
    - Codec.v: the [<<]/[>>] operators of the basic types, strings and
      [datum_t], with neoip_byte_order (neoip_base/memory/datum/, serial/).
      The class [CodecLaws] is the contract of the message layers.
    - PktType.v: [pkttype_t] (neoip_base/tools/pkttype/), the numbers of the types of
      the packets of a protocol, and their wire form.
    - Wai.v: [wai_t] (neoip_netutils/wai/), wrapped sequence numbers; the class
      [SeqIndex]/[SeqIndexLaws] is the index parameter of the templates.
    - Slidwin.v: [slidwin_t] (neoip_netutils/slidwin/), a rotating window,
      proved once for every [SeqIndex].
    - Scnx.v: the data path of the secure connection
      (neoip_proto/scnx/full/, neoip_crypto/skey/): padding, encryption,
      authentication, anti-replay.  Class [CryptoLib]: libgcrypt.
    - Interval.v: [interval_t] (neoip_base/tools/interval/), sets of integers.
    - Bitfield.v: [bitfield_t] (neoip_base/tools/bitfield/).
    - GenId.v: [gen_id_t] (neoip_netutils/gen_id/), fixed-size identifiers.
    - Omap.v: [std::map], as used by the next files.
    - PktFrag.v: [pktfrag_t], [pending_dgram_t] (neoip_proto/pktfrag/).
    - Text.v: decimal numbers and [std::istringstream], as the
      parsers below use them.
    - Time.v: [delay_t] and the timer policies (neoip_base/time/).
    - Timeout.v: [timeout_t] (neoip_eloop/timeout/levt/), iterative timers.
    - Dvar.v: [dvar_t] (neoip_base/tools/dvar/), a tagged dynamic value, with
      its order and its typed accesses.
    - Bencode.v: [bencode_t] (neoip_netutils/bencode/), dvars to and from text.
    - InetAddr.v: [ip_addr_t], [ip_port_t], [ip_netaddr_t], [inet_addr_t]
      (neoip_inet/base/address/): classes, text forms, network prefixes and their cursor.
    - Aview.v: [ipport_aview_t] (neoip_inet/base/address/ipport_aview/), the local and
      public view of a listening address, and what a peer is told.
    - ItemArr.v: [item_arr_t] (neoip_base/tools/item_arr/) and its codec.
    - Cookie.v: [cookie_db_t] (neoip_netutils/cookie/), proofs that a client receives at
      its address.  Class [HmacLib]: libgcrypt.
    - KadAddr.v: [kad_addr_t] and the identifiers (neoip_kad/base/), identifiers under
      the xor metric, their order and the reply filters.
    - Kbucket.v: [kad_kbucket_t] with its lists and nodes (neoip_kad/service/kbucket/),
      the routing table as a state machine over its events.
      KbucketRep.v: its representation invariant and the refinement of a
      specification on lists of nodes.  KbucketNear.v: its queries.
    - KadRec.v: [kad_rec_t], [kad_recdups_t] (neoip_kad/base/record/), records and
      sets of records with one key, with their wire forms.
    - KadDb.v: [kad_db_t] and its [rec_t] (neoip_kad/service/db/), the database
      of records with their republication and expiry timers.
    - KadEvent.v: [kad_event_t] (neoip_kad/base/event/), what the parts of Kademlia
      notify, and the tests each receiver asserts.
    - Nsearch.v: [kad_nsearch_t] with its list and its nodes (neoip_kad/cmd/base/nsearch/),
      the iterative search of the nodes closest to a target, its invariant and
      what each step does.  KadSearch.v: its theorems, over any routing table
      that satisfies the class [NearTable], which Kbucket.v implements.
    - KadCmd.v: [kad_store_t], [kad_delete_t], [kad_query_t] and the two commands
      that forward a search (neoip_kad/cmd/), as one state with the kind of the
      command; KadCmdThm.v: their theorems.
    - KadRpc.v: the messages of Kademlia (neoip_kad/base/rpc_common/), the six client
      rpcs (neoip_kad/client_rpc/) and [kad_peer_t::rpc_server_t]
      (neoip_kad/peer/rpc_server/); KadRpcThm.v: their theorems.
    - Rdgram.v: [rdgram_t] (neoip_proto/rdgram/), retransmission and
      acknowledgement.
    - Ordgram.v: [ordgram_t] (neoip_proto/ordgram/), delivery in order.
    - OrdNet.v: two [ordgram_t] over a bad network, as one system.
    - Stream.v: parsers that get their data in pieces and run on a zerotimer; the
      classes [StepLaws] and [TimedLaws] are what a turn and a parser promise.
    - Int24.v: the 24-bit fields of the next files.
    - Rtmp.v: the chunk stream of RTMP (neoip_rtmp/), its headers, builder and
      parser, which implements both classes.
    - Amf0.v: dvars to and from AMF0 (neoip_flv_amf0/).
    - Flv.v: the headers of FLV, its parser, which implements both classes, and the
      search of key frames (neoip_flv/).

    A packet sent by a program goes through [ordgram_t] (which numbers it and
    keeps it until it is acknowledged, in its [rdgram_t]), then [scnx_t]
    (padding, cipher, MAC, sequence number), then [pktfrag_t] (cut to the MTU);
    a received one goes the other way.  The layers only share the packet
    format, so each is a state with one function per entry point
    ([pkt_from_upper], [pkt_from_lower], timer expirations), and OrdNet.v
    composes them with a network.

    A Kademlia command ([cmd_start]) starts a search with the nearest nodes of the
    routing table ([post_start]); the search sends one request per node it
    learns, a few at a time ([launch_queries]), until the closest have
    answered ([nsearch_is_completed]), and gives them to the command
    ([cmd_closestnode_cb]), which sends each the request of its own and gathers
    the answers ([cmd_rpc_cb]).  Both are steps on their events ([ns_step],
    [cmd_step]), and a command holds its search.

    Each request is a client rpc ([client_rpc_start], [client_clicnx_cb]) and reaches
    the server of another peer ([handle_request_pkt]), which answers from its
    routing table (Kbucket.v), its record database (KadDb.v) and its cookies
    (Cookie.v); both ends give the source address of what they receive to their
    routing table ([srckaddr_parse]).

    ** What the theorems show

    - Refinement: each stateful component implements a small specification:
      the buffer a deque (any sequence of operations that returns; and
      appends and releases always return), the rotating window an unbounded
      one, the send buffer a finite map over unbounded positions, reassembly
      the set of the fragments received, the routing table lists of nodes
      updated by the rules of the Kademlia paper ([kbucket_refines]), the record
      database a map with limits and expiry dates ([kad_db_refines]).
    - Searches and commands: [nsearch_safe], [cmd_safe]: no assertion fails and
      only what the caller accepts is notified, whatever the events;
      [nsearch_result]: the caller gets the closest nodes that are not
      offline; [nsearch_never_stalls], [nsearch_terminates]; [cmd_outcome]: each
      node found is asked and the caller told once, of the longest lived of the
      records for a query; [store_local_overwrites].
    - Between peers: [rpc_exchange]: what a client rpc tells its caller is the answer
      of the abstract peer that serves it; [server_safe]: whatever bytes arrive, a
      peer keeps its invariant, with the two exceptions [server_aborts]
      shows; [db_needs_cookie], [cookie_accepted_once]; [findallval_pages]: paging
      through the records of a key ends with all of them.
    - Invariants: the indices of the routing table and of the record database
      stay consistent ([kbucket_invariant], [kad_db_invariant]), parsed values are well formed
      ([bencode_parse_well_formed]).
    - End to end: over a network that loses, duplicates and reorders,
      [reliable_ordered_delivery]: payloads are delivered once, in order,
      without gap, and all of them once everything is acknowledged;
      [reassembly_refines]: a datagram is delivered exactly when its last
      missing fragment arrives; [no_replay_accepted]: no sequence number is
      accepted twice.
    - Queries: [nclosest_correct] and [nclosest_misses_closer] say which of the
      closest nodes a routing table returns, and which it misses;
      [kad_db_queries] which records of a key; [new_node_gets_closer] which
      records a node newly seen is sent; [recdups_update_correct] which of the
      records with one identifier is kept.
    - Streams: [rtmp_pieces]: what a parser tells its caller does not depend on how its
      data is cut; [rtmp_delivers]: interleaved packets with compressed headers
      are delivered whole, once each; [rtmp_build_parse];
      [flv_delivers], [flv_kframes]: the tags of a file with their offsets, and where its
      key frames are.
    - Round trips: basic types, datums, intervals, bitfields, identifiers,
      delays, dvars in bencode and in AMF0 ([amf0_roundtrip]), packet types, inet addresses, secure packets, fragments.
    - Algebra: intervals are sets, bitfields boolean vectors, identifiers
      big-endian numbers, wrapped sequence numbers unbounded ones, network
      addresses sets of addresses with a prefix.
    - Errors: malformed input, from an attacker or the wire, is refused
      ([rdgram_errors]); where it is not, or where the code does not do what
      it means to, a theorem states what happens instead
      ([recvbuf_leak_deadlocks], [empty_fragment_hangs],
      [bencode_hostile_input], [nclosest_misses_closer],
      [republish_renews_ttl], [nsearch_stuck_at_start],
      [nsearch_hostile_reply], [query_more_aborts], [query_followup_lost],
      [server_aborts], [rtmp_failures], [amf0_hostile],
      [flv_failures]).

    ** How the code is read

    - Builds have assertions enabled: [DBG_ASSERT c] is [assert! c in ..], which
      gives [AssertFail].  A C++ exception of the serialization layer is
      [Throw].  [Fault] is an access outside the allocated zone, a
      pointer to a deleted object, a variable read before it is set, or a loop
      that never ends.  Theorems say which of them cannot happen.
    - Integers are [Z] with [wrap w] where the code computes in [w] bits;
      [size_t] has 64 bits and the host is little endian (the byte swaps of
      neoip_byte_order are modelled, not assumed).  Lengths of lists are [nat];
      a length that goes into a fixed-width field is converted by [wrap].
    - [pkt_t] and [datum_t] are buffers.  Serial.v models the buffer itself;
      the layers above use the byte list it holds, which [buf_op]s and
      [CodecLaws] justify.
    - [std::map] is an ordered association list, [std::vector] and
      [std::list] are lists; iterators are positions in them.
    - A callback is an event in the returned list; the user's answer to it
      ("still alive") is an argument [cb].  A callback that calls
      the object again before it returns is not modelled.
    - Times, random numbers and cryptography are arguments.

    ** Fuel

    Loops that are not structural take fuel; the operation gives an amount that
    is proved enough wherever the loop ends: [frag_loop] the length of the
    packet (each turn takes a byte), [is_complete_loop] the total length (each
    turn advances by a non-empty fragment; with an empty one the loop of the
    code never ends, [empty_fragment_hangs]), [stop_loop] and [deliver_loop]
    the size of the map they empty, [clear_loop] the size of the window,
    [reallocate_fuel] one level of the mutual recursion with [tail_add] (after
    the reallocation there is room), [delay_read] the length of the string,
    [to_dvar_iss] and its loops twice the length of the input plus one (each
    call consumes a character or passes to a smaller loop, [fuel_enough]),
    [dvar_compare_fuel] the depth of the value, [split_loop] the length of the
    string, [listen_port_loop] the number of ports, [nclosest_loop] the number
    of buckets plus one ([nclosest_loop_spec]), [launch_one] the number of nodes
    known plus one (each turn starts a request or removes a node), [llist_dtor]
    the number of nodes it deletes, [build_loop] the length of the body plus one,
    [parse_loop] and [flv_parse_loop] the length of the buffer plus one (a turn that
    goes on takes a header, [step_takes]; where it does not, the loop of the code
    never ends, [flv_failures]), [parser] twice the length of the data plus one
    ([parser_parsed]).
    The other loops recurse on their data.

    ** Assumptions on the environment

    They are hypotheses of the theorems, each with a concrete instance in a
    witness: for times, [ordinary] dates and delays (below 2^59 milliseconds); lengths below 2^63; fewer than 2^31 packets in flight and network
    packets that are not delayed by more than 2^30 ([event_ok]); fragments of
    one datagram of one size; for the cipher, that deciphering inverts
    enciphering and lengths are kept ([CryptoLaws]); that a keyed hash has 20 bytes ([HmacLaws]).

    ** Not modelled

    Sockets, the event loop, files and threads (input and output only);
    third-party libraries; the programs themselves and their packaging.  Parts
    with logic of their own which later work covers, in this order: the
    rekeying state machine of [scnx_t], rate limits and scheduling (rate_limit,
    rate_sched, rate_estim), [negorange], base64, dates, piece selection of the bittorrent
    engine, http headers, ntudp, packet compression, the
    router. *)

(** This file: the outcome monad of the modelled C++ code (a value, a thrown
    [serial_except_t], a failed [DBG_ASSERT], or an access outside an allocated
    zone), fixed-width unsigned arithmetic on [Z], big-endian byte strings, and
    the list lemmas and tactics the component files share. *)
From stdpp Require Export base list list_numbers numbers option decidable sorting strings.
From Stdlib Require Export ZArith Lia.
From stdpp Require Import tactics.

#[export] Set Default Goal Selector "!".
Open Scope Z_scope.

#[global] Arguments Z.add : simpl never.
#[global] Arguments Z.sub : simpl never.
#[global] Arguments Z.mul : simpl never.
#[global] Arguments Z.opp : simpl never.
#[global] Arguments Z.div : simpl never.
#[global] Arguments Z.modulo : simpl never.
#[global] Arguments Z.pow : simpl never.
#[global] Arguments Z.of_nat : simpl never.
#[global] Arguments Z.to_nat : simpl never.
#[global] Arguments Nat.div : simpl never.
#[global] Arguments Nat.modulo : simpl never.

(* ------------------------------------------------------------------ *)
(** * Outcomes *)
(* ------------------------------------------------------------------ *)

(** What a call of the modelled code ends with.
    [Throw] is a C++ exception of the serialization layer;
    [AssertFail] is [DBG_ASSERT] reached with a false condition (the default
    build aborts there); [Fault] is undefined behaviour (an access
    outside an allocated zone, the use of a variable never initialised, a
    signed overflow) or a loop that never ends. *)
Inductive outcome (A : Type) : Type :=
| Ok (a : A)
| Throw (reason : string)
| AssertFail
| Fault.
Arguments Ok {A} a.
Arguments Throw {A} reason.
Arguments AssertFail {A}.
Arguments Fault {A}.

#[export] Instance outcome_ret : MRet outcome := fun A a => Ok a.
#[export] Instance outcome_bind : MBind outcome := fun A B f m =>
  match m with
  | Ok a => f a
  | Throw e => Throw e
  | AssertFail => AssertFail
  | Fault => Fault
  end.

(** [DBG_ASSERT( c )] followed by [k]. *)
Definition dbg_assert {A} (c : bool) (k : outcome A) : outcome A :=
  if c then k else AssertFail.

Declare Scope neoip_scope.
Delimit Scope neoip_scope with neoip.
Notation "'let*' x ':=' m 'in' k" := (mbind (M:=outcome) (fun x => k) m)
  (at level 10, x pattern, m at level 100, k at level 200,
   format "'let*'  x  ':='  m  'in' '//' k") : neoip_scope.
Notation "'assert!' c 'in' k" := (dbg_assert c k)
  (at level 10, c at level 100, k at level 200,
   format "'assert!'  c  'in' '//' k") : neoip_scope.
Open Scope neoip_scope.

Definition is_ok {A} (m : outcome A) : Prop := exists a, m = Ok a.

(* ------------------------------------------------------------------ *)
(** * Fixed-width unsigned integers, as [Z] reduced modulo [2^w] *)
(* ------------------------------------------------------------------ *)

Definition wrap (w z : Z) : Z := z mod 2 ^ w.
Definition in_range (w z : Z) : Prop := 0 <= z < 2 ^ w.
Definition max_unsigned (w : Z) : Z := 2 ^ w - 1.
(** Conversion of an unsigned [w]-bit value to the signed type of that width. *)
Definition to_signed (w z : Z) : Z :=
  if decide (wrap w z < 2 ^ (w - 1)) then wrap w z else wrap w z - 2 ^ w.

Definition is_byte (b : Z) : Prop := in_range 8 b.
Definition bytes_ok (l : list Z) : Prop := Forall is_byte l.

(* ------------------------------------------------------------------ *)
(** * Big-endian byte strings *)
(* ------------------------------------------------------------------ *)

(** The [n] low-order bytes of [z], most significant first. *)
Fixpoint be_bytes (n : nat) (z : Z) : list Z :=
  match n with
  | O => []
  | S n' => be_bytes n' (z / 256) ++ [z mod 256]
  end.

(** The value of a byte string read most significant byte first. *)
Definition be_value (l : list Z) : Z := fold_left (fun acc b => acc * 256 + b) l 0.

(* ------------------------------------------------------------------ *)
(** * Tactics *)
(* ------------------------------------------------------------------ *)

(** Turn boolean comparisons in the context and the goal into propositions. *)
Ltac bool_to_prop :=
  repeat match goal with
  | H : bool_decide _ = true |- _ => apply bool_decide_eq_true in H
  | H : bool_decide _ = false |- _ => apply bool_decide_eq_false in H
  | H : (_ && _) = true |- _ => apply andb_true_iff in H as [? ?]
  | H : (_ || _) = false |- _ => apply orb_false_iff in H as [? ?]
  | H : negb _ = true |- _ => apply negb_true_iff in H
  | H : negb _ = false |- _ => apply negb_false_iff in H
  | H : (_ =? _) = true |- _ => apply Z.eqb_eq in H
  | H : (_ =? _) = false |- _ => apply Z.eqb_neq in H
  | H : (_ <? _) = true |- _ => apply Z.ltb_lt in H
  | H : (_ <? _) = false |- _ => apply Z.ltb_ge in H
  | H : (_ <=? _) = true |- _ => apply Z.leb_le in H
  | H : (_ <=? _) = false |- _ => apply Z.leb_gt in H
  end.

(** Split on the first [if] or [match] on a boolean in the goal. *)
Ltac split_if :=
  match goal with
  | |- context [if ?c then _ else _] => let E := fresh "E" in destruct c eqn:E
  end; bool_to_prop.

(** Discharge a passing [assert!] in the goal. *)
Ltac pass_assert tac :=
  match goal with
  | |- context [dbg_assert ?c _] =>
      replace c with true by (symmetry; tac); cbn [dbg_assert]
  end.

(* ------------------------------------------------------------------ *)
(** * Lemmas on words *)
(* ------------------------------------------------------------------ *)

Lemma wrap_range w z : 0 <= w -> in_range w (wrap w z).
Proof. intros Hw. apply Z.mod_pos_bound. by apply Z.pow_pos_nonneg. Qed.

Lemma wrap_small w z : in_range w z -> wrap w z = z.
Proof. apply Z.mod_small. Qed.

Lemma wrap_add_wrap w a b : wrap w (wrap w a + b) = wrap w (a + b).
Proof. apply Zplus_mod_idemp_l. Qed.

Lemma wrap_sub_wrap w a b : wrap w (wrap w a - wrap w b) = wrap w (a - b).
Proof. unfold wrap. by rewrite Zminus_mod_idemp_l, Zminus_mod_idemp_r. Qed.

Lemma pow2_split w : 0 < w -> 2 ^ w = 2 * 2 ^ (w - 1).
Proof. intros. rewrite <- Z.pow_succ_r by lia. f_equal. lia. Qed.

Lemma in_range_pow2 w z : in_range w z -> 0 <= w.
Proof.
  unfold in_range. intros H. destruct (decide (0 <= w)) as [|Hn]; [done|].
  rewrite Z.pow_neg_r in H by lia. lia.
Qed.

(** The signed reading of a difference small enough to be represented. *)
Lemma to_signed_small w z :
  0 < w -> - 2 ^ (w - 1) <= z < 2 ^ (w - 1) -> to_signed w z = z.
Proof.
  intros Hw Hz. unfold to_signed, wrap. pose proof (pow2_split w Hw) as Hp.
  destruct (decide (0 <= z)) as [Hs|Hs].
  - rewrite Z.mod_small by lia. case_decide; lia.
  - replace (z mod 2 ^ w) with (z + 2 ^ w).
    + case_decide; lia.
    + apply Z.mod_unique with (-1); lia.
Qed.

Lemma to_signed_wrap w z : to_signed w (wrap w z) = to_signed w z.
Proof. unfold to_signed, wrap. by rewrite !Zmod_mod. Qed.

(* ------------------------------------------------------------------ *)
(** * Lemmas on byte strings *)
(* ------------------------------------------------------------------ *)

Lemma be_bytes_length n z : length (be_bytes n z) = n.
Proof. revert z; induction n as [|n IH]; intros z; simpl; [done|]. rewrite length_app, IH. simpl. lia. Qed.

Lemma be_bytes_ok n z : bytes_ok (be_bytes n z).
Proof.
  revert z; induction n as [|n IH]; intros z; simpl; [constructor|].
  apply Forall_app; split; [apply IH|]. constructor; [|constructor].
  unfold is_byte, in_range. pose proof (Z.mod_pos_bound z 256). lia.
Qed.

Lemma be_value_snoc l b : be_value (l ++ [b]) = be_value l * 256 + b.
Proof. unfold be_value. by rewrite fold_left_app. Qed.

Lemma be_value_bytes n z : be_value (be_bytes n z) = z mod 2 ^ (8 * Z.of_nat n).
Proof.
  revert z; induction n as [|n IH]; intros z; simpl be_bytes.
  - simpl. by rewrite Z.mod_1_r.
  - rewrite be_value_snoc, IH.
    replace (8 * Z.of_nat (S n)) with (8 + 8 * Z.of_nat n) by lia.
    rewrite Z.pow_add_r by lia. change (2 ^ 8) with 256.
    rewrite Z.rem_mul_r by lia. lia.
Qed.

Lemma be_value_bytes_small n z :
  in_range (8 * Z.of_nat n) z -> be_value (be_bytes n z) = z.
Proof. intros H. rewrite be_value_bytes. by apply Z.mod_small. Qed.

Lemma fold_be_shift l acc :
  fold_left (fun a b => a * 256 + b) l acc = acc * 256 ^ Z.of_nat (length l) + be_value l.
Proof.
  revert acc. induction l as [|b l IH]; intros acc; unfold be_value; cbn [fold_left length].
  - change (Z.of_nat 0) with 0. lia.
  - rewrite IH, (IH (0 * 256 + b)). replace (Z.of_nat (S (length l))) with (1 + Z.of_nat (length l)) by lia.
    rewrite Z.pow_add_r by lia. lia.
Qed.

Lemma be_value_cons b l : be_value (b :: l) = b * 256 ^ Z.of_nat (length l) + be_value l.
Proof. unfold be_value at 1. simpl. apply fold_be_shift. Qed.

Lemma be_value_app l1 l2 :
  be_value (l1 ++ l2) = be_value l1 * 256 ^ Z.of_nat (length l2) + be_value l2.
Proof. unfold be_value at 1. rewrite fold_left_app. by rewrite fold_be_shift. Qed.

Lemma be_value_bound l : bytes_ok l -> 0 <= be_value l < 256 ^ Z.of_nat (length l).
Proof.
  induction 1 as [|b l Hb Hl IH]; [done|].
  rewrite be_value_cons. unfold is_byte, in_range in Hb. change (2 ^ 8) with 256 in Hb.
  simpl length. replace (Z.of_nat (S (length l))) with (1 + Z.of_nat (length l)) by lia.
  rewrite Z.pow_add_r by lia. nia.
Qed.

Lemma be_bytes_value l : bytes_ok l -> be_bytes (length l) (be_value l) = l.
Proof.
  induction l as [|b l IH] using rev_ind; intros Hl; [done|].
  apply Forall_app in Hl as [Hl Hb]. inversion Hb as [|? ? Hb' _]; subst.
  unfold is_byte, in_range in Hb'. change (2 ^ 8) with 256 in Hb'.
  rewrite length_app, Nat.add_comm. simpl. rewrite be_value_snoc.
  rewrite Z.div_add_l, Z.div_small, Z.add_0_r by lia. rewrite IH by done.
  rewrite Z.add_comm, Z.mod_add, Z.mod_small by lia. done.
Qed.

(* ------------------------------------------------------------------ *)
(** * Lemmas on lists *)
(* ------------------------------------------------------------------ *)

Lemma take_drop_app_exact {A} (l1 l2 : list A) n :
  length l1 = n -> take n (l1 ++ l2) = l1 /\ drop n (l1 ++ l2) = l2.
Proof. intros <-. split; [apply take_app_length|apply drop_app_length]. Qed.

Lemma sum_list_app_nat (l1 l2 : list nat) : sum_list (l1 ++ l2) = (sum_list l1 + sum_list l2)%nat.
Proof. induction l1 as [|x l1 IH]; simpl; lia. Qed.

Create HintDb neoip.
Create Rewrite HintDb neoip_len.
#[export] Hint Resolve be_bytes_length be_bytes_ok wrap_range : neoip.
#[export] Hint Rewrite @length_app @length_take @length_drop @length_fmap @length_replicate
  be_bytes_length : neoip_len.
