(* ===== verification/Serial.v ===== *)
(** Model of [serial_t] (src/src/neoip_base/memory/serial/): a growable byte
    buffer with free room at its head and tail, and the codecs of the basic
    types over it.

    A [serial_t] is a zone [full_data] whose cells may still be uninitialised
    ([None]), the offset of [used_ptr] in it, and the used length.  The used
    zone is [contents].  Every [DBG_ASSERT] of the code is an [assert!], every
    [memcpy]/[memmove]/read is bounds-checked ([Fault] outside the zone).  The
    offset is a [Z] because [head_alloc] computes it by a subtraction whose
    result the code only checks afterwards. *)
From S2P Require Import Prelude.

(* ------------------------------------------------------------------ *)
(** * Data *)
(* ------------------------------------------------------------------ *)

Abbreviation cell := (option Z).

Record serial_t := Serial {
  full_data : list cell;     (* the allocated zone *)
  used_off : Z;              (* used_ptr - full_data.char_ptr() *)
  used_len : nat;
  grow_length : nat
}.

Definition INIT_LENGTH_DFL : nat := 256.
Definition HEAD_LENGTH_DFL : nat := 0.
Definition GROW_LENGTH_DFL : nat := 256.

(* ------------------------------------------------------------------ *)
(** * Zones of memory *)
(* ------------------------------------------------------------------ *)

(** The [len] cells from offset [off]. *)
Definition zone (mem : list cell) (off : Z) (len : nat) : list cell :=
  take len (drop (Z.to_nat off) mem).

Definition mem_read (mem : list cell) (off : Z) (len : nat) : outcome (list cell) :=
  if bool_decide (0 <= off /\ off + Z.of_nat len <= Z.of_nat (length mem))
  then Ok (zone mem off len) else Fault.

Definition mem_write (mem : list cell) (off : Z) (data : list cell) : outcome (list cell) :=
  if bool_decide (0 <= off /\ off + Z.of_nat (length data) <= Z.of_nat (length mem))
  then Ok (take (Z.to_nat off) mem ++ data ++ drop (Z.to_nat off + length data) mem)
  else Fault.

(** The bytes of initialised cells; reading an indeterminate one is a fault. *)
Definition init_bytes (l : list cell) : outcome (list Z) :=
  match mapM id l with Some bs => Ok bs | None => Fault end.

(* ------------------------------------------------------------------ *)
(** * Queries *)
(* ------------------------------------------------------------------ *)

Definition full_length (s : serial_t) : nat := length (full_data s).
Definition used_length (s : serial_t) : nat := used_len s.
Definition head_freelen (s : serial_t) : Z := used_off s.
Definition tail_freelen (s : serial_t) : Z :=
  Z.of_nat (full_length s) - head_freelen s - Z.of_nat (used_length s).
Definition is_empty (s : serial_t) : bool := bool_decide (used_length s = 0%nat).

(** The bytes between [used_ptr] and [used_ptr + used_len]. *)
Definition contents (s : serial_t) : list cell :=
  zone (full_data s) (used_off s) (used_len s).

Definition is_sane (s : serial_t) : bool :=
  (if bool_decide (full_length s = 0%nat) then bool_decide (used_off s = 0) else true) &&
  (if bool_decide (full_length s = 0%nat) then bool_decide (used_len s = 0%nat) else true) &&
  bool_decide (0 <= used_off s) &&
  bool_decide (used_off s + Z.of_nat (used_len s) <= Z.of_nat (full_length s)) &&
  bool_decide (used_len s <= full_length s)%nat &&
  bool_decide (Z.of_nat (used_len s) <= Z.of_nat (full_length s) - used_off s) &&
  bool_decide (head_freelen s + Z.of_nat (used_length s) + tail_freelen s
               = Z.of_nat (full_length s)).

(* ------------------------------------------------------------------ *)
(** * Construction *)
(* ------------------------------------------------------------------ *)

(** The default constructor: the null object. *)
Definition serial_null : serial_t := Serial [] 0 0 GROW_LENGTH_DFL.

Definition allocate_ctor (new_init_length : nat) (new_head_length : Z)
    (new_grow_length : nat) : outcome serial_t :=
  assert! bool_decide (0 < new_init_length)%nat in
  assert! bool_decide (new_head_length <= Z.of_nat new_init_length) in
  assert! bool_decide (0 < new_grow_length)%nat in
  let s := Serial (replicate new_init_length None) new_head_length 0 new_grow_length in
  assert! is_sane s in
  Ok s.

(** [serial_t(new_init_length, new_head_length, new_grow_length)]. *)
Definition serial_prealloc (init head grow : nat) : outcome serial_t :=
  let* s := allocate_ctor init (Z.of_nat head) grow in
  assert! is_sane s in
  Ok s.

Definition work_on_data_nocopy (data : list Z) : outcome serial_t :=
  let s := Serial (Some <$> data) 0 (length data) GROW_LENGTH_DFL in
  assert! is_sane s in
  Ok s.

(* ------------------------------------------------------------------ *)
(** * Allocation at the head and at the tail *)
(* ------------------------------------------------------------------ *)

Definition ceil_div (num div : nat) : nat := ((num + (div - 1)) / div)%nat.

(** [tail_alloc], with the reallocation it may call as an argument: the code's
    [reallocate] and [tail_alloc] are mutually recursive.  Returns the object
    and the offset of the allocated zone. *)
Definition tail_alloc_with (realloc : nat -> nat -> serial_t -> outcome serial_t)
    (req_len : nat) (s : serial_t) : outcome (serial_t * Z) :=
  let* s1 :=
    if bool_decide (tail_freelen s < Z.of_nat req_len) then
      if bool_decide (head_freelen s + tail_freelen s < Z.of_nat req_len)
      then realloc 0%nat req_len s
      else
        assert! negb (bool_decide (full_length s = 0%nat)) in
        let* d := mem_read (full_data s) (used_off s) (used_len s) in
        let* m := mem_write (full_data s) 0 d in
        Ok (Serial m 0 (used_len s) (grow_length s))
    else Ok s in
  let s2 := Serial (full_data s1) (used_off s1) (used_len s1 + req_len) (grow_length s1) in
  assert! is_sane s2 in
  Ok (s2, used_off s2 + Z.of_nat (used_len s2) - Z.of_nat req_len).

Definition tail_add_with (realloc : nat -> nat -> serial_t -> outcome serial_t)
    (data : list cell) (s : serial_t) : outcome serial_t :=
  let* (s1, ptr) := tail_alloc_with realloc (length data) s in
  let* m := mem_write (full_data s1) ptr data in
  let s2 := Serial m (used_off s1) (used_len s1) (grow_length s1) in
  assert! is_sane s2 in
  Ok s2.

(** [reallocate], by recursion on the number of nested reallocations allowed.
    The nested [tail_add] always finds the room (lemma [reallocate_spec]), so
    one is enough: running out is an [AssertFail], which is never reached. *)
Fixpoint reallocate_fuel (fuel : nat) (head_inclen tail_inclen : nat)
    (s : serial_t) : outcome serial_t :=
  match fuel with
  | O => AssertFail
  | S fuel' =>
    let new_used_length := (used_length s + head_inclen + tail_inclen)%nat in
    let new_full_length :=
      if bool_decide (new_used_length <= INIT_LENGTH_DFL)%nat then INIT_LENGTH_DFL
      else (grow_length s * ceil_div new_used_length (grow_length s))%nat in
    let old_used_data := contents s in
    let new_free_length := (new_full_length - new_used_length)%nat in
    let* s1 := allocate_ctor new_full_length
                 (Z.of_nat (new_free_length / 2 + head_inclen)) (grow_length s) in
    let* s2 := tail_add_with (reallocate_fuel fuel') old_used_data s1 in
    assert! is_sane s2 in
    Ok s2
  end.

Definition reallocate : nat -> nat -> serial_t -> outcome serial_t := reallocate_fuel 1.

Definition tail_alloc (req_len : nat) (s : serial_t) : outcome (serial_t * Z) :=
  tail_alloc_with reallocate req_len s.

Definition head_alloc (req_len : nat) (s : serial_t) : outcome (serial_t * Z) :=
  let* s1 :=
    if bool_decide (head_freelen s < Z.of_nat req_len) then
      if bool_decide (tail_freelen s + head_freelen s < Z.of_nat req_len)
      then reallocate req_len 0%nat s
      else
        let new_free_len := head_freelen s + tail_freelen s - Z.of_nat req_len in
        let new_used_ptr := 2 * new_free_len / 3 in
        assert! negb (bool_decide (full_length s = 0%nat)) in
        let* d := mem_read (full_data s) (used_off s) (used_len s) in
        let* m := mem_write (full_data s) new_used_ptr d in
        Ok (Serial m new_used_ptr (used_len s) (grow_length s))
    else Ok s in
  let s2 := Serial (full_data s1) (used_off s1 - Z.of_nat req_len)
                   (used_len s1 + req_len) (grow_length s1) in
  assert! is_sane s2 in
  Ok (s2, used_off s2).

(* ------------------------------------------------------------------ *)
(** * Release at the head and at the tail *)
(* ------------------------------------------------------------------ *)

Definition head_free (nbyte : nat) (s : serial_t) : outcome serial_t :=
  assert! bool_decide (nbyte <= used_length s)%nat in
  assert! is_sane s in
  let s1 := Serial (full_data s) (used_off s + Z.of_nat nbyte) (used_len s - nbyte)
                   (grow_length s) in
  assert! is_sane s1 in
  Ok s1.

Definition tail_free (nbyte : nat) (s : serial_t) : outcome serial_t :=
  assert! bool_decide (nbyte <= used_length s)%nat in
  let s1 := Serial (full_data s) (used_off s) (used_len s - nbyte) (grow_length s) in
  assert! is_sane s1 in
  Ok s1.

(* ------------------------------------------------------------------ *)
(** * Adding data, copying *)
(* ------------------------------------------------------------------ *)

Definition tail_add_cells (data : list cell) (s : serial_t) : outcome serial_t :=
  tail_add_with reallocate data s.

Definition tail_add (data : list Z) (s : serial_t) : outcome serial_t :=
  tail_add_cells (Some <$> data) s.

Definition head_add (data : list Z) (s : serial_t) : outcome serial_t :=
  let* (s1, ptr) := head_alloc (length data) s in
  let* m := mem_write (full_data s1) ptr (Some <$> data) in
  let s2 := Serial m (used_off s1) (used_len s1) (grow_length s1) in
  assert! is_sane s2 in
  Ok s2.

(** The constructors from a buffer (a [datum_t], a string, a pointer and a length). *)
Definition internal_ctor_docopy (data : list Z) : outcome serial_t :=
  if bool_decide (length data = 0%nat) then
    assert! is_sane serial_null in
    Ok serial_null
  else
    let* s := allocate_ctor (length data) 0 GROW_LENGTH_DFL in
    let* s1 := tail_add data s in
    assert! is_sane s1 in
    Ok s1.

(** The copy constructor. *)
Definition serial_copy (other : serial_t) : outcome serial_t :=
  if is_empty other then
    assert! is_sane serial_null in
    Ok serial_null
  else
    let* s := allocate_ctor (full_length other) (head_freelen other) (grow_length other) in
    let* s1 := tail_add_cells (contents other) s in
    assert! is_sane s1 in
    Ok s1.

(** [operator=] on two distinct objects: the special case of an empty [other]
    is compiled out ([#if 0]). *)
Definition serial_assign (other : serial_t) : outcome serial_t :=
  let* s := allocate_ctor (full_length other) (head_freelen other) (grow_length other) in
  let* s1 := tail_add_cells (contents other) s in
  assert! is_sane s1 in
  Ok s1.

(* ------------------------------------------------------------------ *)
(** * Extraction *)
(* ------------------------------------------------------------------ *)

Definition SIZE_T_BITS : Z := 64.

(** [range(offset, len)] on [size_t] arguments: the check adds them modulo the
    width of [size_t], and so does the pointer addition [used_ptr + offset]. *)
Definition range (offset len : Z) (s : serial_t) : outcome (list cell) :=
  if bool_decide (Z.of_nat (used_length s) < wrap SIZE_T_BITS (offset + len))
  then Throw "ByteArray too short."
  else mem_read (full_data s) (used_off s + to_signed SIZE_T_BITS offset) (Z.to_nat len).

(** [DBGNET_ASSERT], which [NO_DBG_ASSERT] builds compile to a no-op. *)
Definition dbgnet_assert {A} (enabled : bool) (c : bool) (k : outcome A) : outcome A :=
  if enabled then dbg_assert c k else k.

Definition head_peek (dbg : bool) (len : Z) (s : serial_t) : outcome (list cell) :=
  dbgnet_assert dbg (bool_decide (len <= Z.of_nat (used_length s))) (range 0 len s).

Definition tail_peek (dbg : bool) (len : Z) (s : serial_t) : outcome (list cell) :=
  dbgnet_assert dbg (bool_decide (len <= Z.of_nat (used_length s)))
    (range (wrap SIZE_T_BITS (Z.of_nat (used_length s) - len)) len s).

Definition head_consume (dbg : bool) (len : nat) (s : serial_t)
    : outcome (list cell * serial_t) :=
  let* d := head_peek dbg (Z.of_nat len) s in
  let* s1 := head_free len s in
  Ok (d, s1).

Definition tail_consume (dbg : bool) (len : nat) (s : serial_t)
    : outcome (list cell * serial_t) :=
  let* d := tail_peek dbg (Z.of_nat len) s in
  let* s1 := tail_free len s in
  Ok (d, s1).

(** [unserial_peek]: run a reader, then re-allocate at the head what it freed. *)
Definition unserial_peek {A} (reader : serial_t -> outcome (A * serial_t)) (s : serial_t)
    : outcome (A * serial_t) :=
  let old_len := used_length s in
  let* (v, s1) := reader s in
  let* (s2, _) := head_alloc (old_len - used_length s1) s1 in
  assert! bool_decide (used_length s2 = old_len) in
  Ok (v, s2).

(* ------------------------------------------------------------------ *)
(** * Abstract specification: a double-ended byte queue *)
(* ------------------------------------------------------------------ *)

Inductive buf_op :=
| OpTailAdd (data : list Z)
| OpHeadAdd (data : list Z)
| OpHeadFree (n : nat)
| OpTailFree (n : nat).

Definition op_is_head_add (o : buf_op) : bool :=
  match o with OpHeadAdd _ => true | _ => false end.

Definition serial_op (o : buf_op) (s : serial_t) : outcome serial_t :=
  match o with
  | OpTailAdd d => tail_add d s
  | OpHeadAdd d => head_add d s
  | OpHeadFree n => head_free n s
  | OpTailFree n => tail_free n s
  end.

(** What each operation promises, on the sequence of used bytes. *)
Definition deque_op (o : buf_op) (q : list cell) : option (list cell) :=
  match o with
  | OpTailAdd d => Some (q ++ (Some <$> d))
  | OpHeadAdd d => Some ((Some <$> d) ++ q)
  | OpHeadFree n => if bool_decide (n <= length q)%nat then Some (drop n q) else None
  | OpTailFree n =>
      if bool_decide (n <= length q)%nat then Some (take (length q - n) q) else None
  end.

Fixpoint serial_run (ops : list buf_op) (s : serial_t) : outcome serial_t :=
  match ops with
  | [] => Ok s
  | o :: ops' => let* s1 := serial_op o s in serial_run ops' s1
  end.

Fixpoint deque_run (ops : list buf_op) (q : list cell) : option (list cell) :=
  match ops with
  | [] => Some q
  | o :: ops' => match deque_op o q with Some q1 => deque_run ops' q1 | None => None end
  end.

(** Well-formedness: [is_sane] and a usable growth step. *)
Definition wf (s : serial_t) : Prop := is_sane s = true /\ (0 < grow_length s)%nat.

#[global] Arguments is_sane : simpl never.
#[global] Arguments mem_read : simpl never.
#[global] Arguments mem_write : simpl never.

(** The case in which [head_alloc] shifts the data but leaves too little room
    in front of it. *)
Definition head_shift_short (req : nat) (s : serial_t) : bool :=
  bool_decide (head_freelen s < Z.of_nat req) &&
  bool_decide (Z.of_nat req <= tail_freelen s + head_freelen s) &&
  bool_decide (2 * (head_freelen s + tail_freelen s - Z.of_nat req) / 3 < Z.of_nat req).

(* ------------------------------------------------------------------ *)
(** * Lemmas on zones *)
(* ------------------------------------------------------------------ *)

Section zones.
Implicit Types (mem d : list cell).

Lemma zone_length mem off len :
  0 <= off -> off + Z.of_nat len <= Z.of_nat (length mem) -> length (zone mem off len) = len.
Proof. intros. unfold zone. rewrite length_take, length_drop. lia. Qed.

Lemma mem_read_ok mem off len :
  0 <= off -> off + Z.of_nat len <= Z.of_nat (length mem) ->
  mem_read mem off len = Ok (zone mem off len).
Proof. intros. unfold mem_read. by rewrite bool_decide_eq_true_2 by lia. Qed.

Lemma mem_write_ok mem off d :
  0 <= off -> off + Z.of_nat (length d) <= Z.of_nat (length mem) ->
  exists m, mem_write mem off d = Ok m /\ length m = length mem /\
    (forall o l, (o + Z.of_nat l = off) -> 0 <= o ->
       zone m o (l + length d) = zone mem o l ++ d) /\
    (forall l, off + Z.of_nat (length d) + Z.of_nat l <= Z.of_nat (length mem) ->
       zone m off (length d + l) = d ++ zone mem (off + Z.of_nat (length d)) l).
Proof.
  intros Ho Hl. unfold mem_write. rewrite bool_decide_eq_true_2 by lia.
  eexists; split; [done|]. split; [|split].
  - rewrite !length_app, length_take, length_drop. lia.
  - intros o l Hol Ho'. unfold zone.
    rewrite drop_app_le by (rewrite length_take; lia).
    rewrite app_assoc, take_app_le by (rewrite length_app, length_drop, length_take; lia).
    rewrite take_ge by (rewrite length_app, length_drop, length_take; lia).
    f_equal. replace (Z.to_nat off) with (Z.to_nat o + l)%nat by lia.
    by rewrite take_drop_commute.
  - intros l Hl'. unfold zone.
    rewrite drop_app_ge by (rewrite length_take; lia).
    rewrite length_take. replace (_ - _ `min` _)%nat with 0%nat by lia. rewrite drop_0.
    rewrite take_app_add. do 3 f_equal. lia.
Qed.

Lemma zone_full_split mem off l1 l2 :
  0 <= off -> zone mem off (l1 + l2) = zone mem off l1 ++ zone mem (off + Z.of_nat l1) l2.
Proof.
  intros. unfold zone. replace (Z.to_nat (off + Z.of_nat l1)) with (Z.to_nat off + l1)%nat by lia.
  rewrite <- drop_drop. symmetry. apply take_take_drop.
Qed.

Lemma zone_sub mem off len m n :
  0 <= off -> (m + n <= len)%nat ->
  take n (drop m (zone mem off len)) = zone mem (off + Z.of_nat m) n.
Proof.
  intros. unfold zone. rewrite skipn_firstn_comm, drop_drop, take_take.
  f_equal; [lia|]. f_equal. lia.
Qed.
End zones.

(* ------------------------------------------------------------------ *)
(** * Well-formedness *)
(* ------------------------------------------------------------------ *)

Lemma is_sane_iff s :
  is_sane s = true <->
  0 <= used_off s /\ used_off s + Z.of_nat (used_len s) <= Z.of_nat (full_length s).
Proof.
  unfold is_sane, tail_freelen, head_freelen, used_length.
  rewrite !andb_true_iff, !bool_decide_eq_true.
  split; [intuition lia|]. intros [H1 H2].
  repeat split; try lia; case_bool_decide; try done; apply bool_decide_eq_true_2; lia.
Qed.

Lemma wf_iff s :
  wf s <-> 0 <= used_off s /\
    used_off s + Z.of_nat (used_len s) <= Z.of_nat (full_length s) /\ (0 < grow_length s)%nat.
Proof. unfold wf. rewrite is_sane_iff. tauto. Qed.

Lemma contents_length s : wf s -> length (contents s) = used_len s.
Proof. intros (H1 & H2 & _)%wf_iff. by apply zone_length. Qed.

(** Solves the [is_sane] checks and the arithmetic of [wf]. *)
Ltac serial_arith :=
  unfold tail_freelen, head_freelen, used_length, full_length in *;
  cbn [full_data used_off used_len grow_length fst snd] in *;
  autorewrite with neoip_len in *; lia.

(** Splits a conjunction of facts on buffers and solves the arithmetic ones. *)
Ltac serial_split :=
  rewrite ?wf_iff; cbn [full_data used_off used_len grow_length];
  split_and?; try (intros; split_and?; first [done | serial_arith]).

(** Provides the buffer the computation ends with. *)
Ltac give_buffer :=
  match goal with
  | |- exists s', Ok (?x, _) = _ /\ _ => exists x; split; [reflexivity|]
  end.

Ltac pass_sane := pass_assert ltac:(apply is_sane_iff; serial_arith).

Lemma allocate_ctor_ok n h g :
  (0 < n)%nat -> 0 <= h <= Z.of_nat n -> (0 < g)%nat ->
  allocate_ctor n h g = Ok (Serial (replicate n None) h 0 g).
Proof.
  intros. unfold allocate_ctor.
  do 3 (pass_assert ltac:(apply bool_decide_eq_true_2; lia)).
  by pass_sane.
Qed.

(** What [tail_alloc] guarantees when its reallocation does its job. *)
Definition alloc_tail_post (req : nat) (s s' : serial_t) (ptr : Z) : Prop :=
  wf s' /\ used_len s' = (used_len s + req)%nat /\ grow_length s' = grow_length s /\
  ptr = used_off s' + Z.of_nat (used_len s) /\
  zone (full_data s') (used_off s') (used_len s) = contents s /\
  (Z.of_nat req <= tail_freelen s ->
   used_off s' = used_off s /\ full_length s' = full_length s).

Definition realloc_post (h t : nat) (s s' : serial_t) : Prop :=
  wf s' /\ used_len s' = used_len s /\ grow_length s' = grow_length s /\
  contents s' = contents s /\ Z.of_nat h <= head_freelen s' /\ Z.of_nat t <= tail_freelen s'.

Lemma tail_alloc_with_spec realloc req s :
  wf s ->
  (tail_freelen s < Z.of_nat req -> head_freelen s + tail_freelen s < Z.of_nat req ->
   exists s1, realloc 0%nat req s = Ok s1 /\ realloc_post 0 req s s1) ->
  exists s' ptr, tail_alloc_with realloc req s = Ok (s', ptr) /\ alloc_tail_post req s s' ptr.
Proof.
  intros Hwf Hre. pose proof Hwf as (H1 & H2 & H3)%wf_iff.
  unfold tail_alloc_with. case_bool_decide as Ht; [case_bool_decide as Hh|].
  - destruct (Hre Ht Hh) as (s1 & -> & (Hwf1 & Hu & Hg & Hc & _ & Htl)). simpl.
    apply wf_iff in Hwf1 as (? & ? & ?). pass_sane.
    do 2 eexists; split; [done|]. unfold alloc_tail_post. serial_split. rewrite <- Hc. unfold contents. by rewrite Hu.
  - pass_assert ltac:(apply negb_true_iff, bool_decide_eq_false_2; serial_arith).
    rewrite mem_read_ok by serial_arith. simpl.
    destruct (mem_write_ok (full_data s) 0 (contents s)) as (m & Hm & Hlm & _ & Hz);
      [lia|rewrite contents_length by done; serial_arith|].
    change (zone (full_data s) (used_off s) (used_len s)) with (contents s).
    rewrite Hm. simpl. pass_sane.
    do 2 eexists; split; [done|]. unfold alloc_tail_post. serial_split.
    specialize (Hz 0%nat). rewrite contents_length, Nat.add_0_r in Hz by done.
    rewrite Hz by serial_arith. apply app_nil_r.
  - simpl. pass_sane. do 2 eexists; split; [done|].
    unfold alloc_tail_post. serial_split.
Qed.

Lemma tail_add_with_spec realloc data s :
  wf s ->
  (tail_freelen s < Z.of_nat (length data) ->
   head_freelen s + tail_freelen s < Z.of_nat (length data) ->
   exists s1, realloc 0%nat (length data) s = Ok s1 /\ realloc_post 0 (length data) s s1) ->
  exists s', tail_add_with realloc data s = Ok s' /\ wf s' /\
    contents s' = contents s ++ data /\ grow_length s' = grow_length s /\
    (Z.of_nat (length data) <= tail_freelen s ->
     used_off s' = used_off s /\ full_length s' = full_length s).
Proof.
  intros Hwf Hre. unfold tail_add_with.
  destruct (tail_alloc_with_spec realloc (length data) s Hwf Hre)
    as (s1 & ptr & -> & (Hwf1 & Hu & Hg & -> & Hc & Hroom)).
  simpl. pose proof Hwf1 as (? & ? & ?)%wf_iff.
  destruct (mem_write_ok (full_data s1) (used_off s1 + Z.of_nat (used_len s)) data)
    as (m & -> & Hlm & Hz & _); [lia|serial_arith|].
  simpl. pass_sane. eexists; split; [done|]. serial_split.
  unfold contents at 1. simpl. rewrite Hu, Hz by lia. by rewrite Hc.
Qed.

Lemma ceil_div_mul num div : (0 < div)%nat -> (num <= div * ceil_div num div)%nat.
Proof.
  intros H. unfold ceil_div. pose proof (Nat.div_mod_eq (num + (div - 1)) div) as E.
  pose proof (Nat.mod_upper_bound (num + (div - 1)) div). lia.
Qed.

(** [reallocate] keeps the data, makes the requested room on both sides, and
    never needs the nested reallocation. *)
Lemma reallocate_spec h t s :
  wf s -> exists s', reallocate h t s = Ok s' /\ realloc_post h t s s'.
Proof.
  intros Hwf. pose proof Hwf as (H1 & H2 & H3)%wf_iff.
  unfold reallocate, reallocate_fuel.
  set (used := (used_length s + h + t)%nat).
  set (full := if bool_decide (used <= INIT_LENGTH_DFL)%nat then INIT_LENGTH_DFL
               else (grow_length s * ceil_div used (grow_length s))%nat).
  assert (used <= full /\ 0 < full)%nat as [Hfull Hpos].
  { unfold full, INIT_LENGTH_DFL. case_bool_decide; [lia|].
    pose proof (ceil_div_mul used (grow_length s) H3). lia. }
  assert ((full - used) / 2 <= full - used)%nat by (apply Nat.Div0.div_le_upper_bound; lia).
  assert (used = used_len s + h + t)%nat as Hused by done.
  clearbody full. clearbody used.
  rewrite allocate_ctor_ok by lia. simpl.
  set (s1 := Serial _ _ _ _).
  destruct (tail_add_with_spec (fun _ _ _ => AssertFail) (contents s) s1)
    as (s2 & Hs2 & Hwf2 & Hc & Hg & Hroom).
  - apply wf_iff. unfold s1. serial_arith.
  - rewrite contents_length by done. unfold s1. serial_arith.
  - rewrite Hs2. simpl. rewrite (proj1 Hwf2). simpl. eexists; split; [done|].
    destruct Hroom as [Ho Hl].
    { rewrite contents_length by done. unfold s1. serial_arith. }
    change (contents s1) with (@nil cell) in Hc. simpl in Hc.
    pose proof (contents_length s2 Hwf2) as Hlen.
    rewrite Hc, contents_length in Hlen by done.
    unfold s1 in *. repeat split; try done; try apply Hwf2; serial_arith.
Qed.

Lemma tail_add_cells_spec data s :
  wf s -> exists s', tail_add_cells data s = Ok s' /\ wf s' /\
    contents s' = contents s ++ data /\ grow_length s' = grow_length s.
Proof.
  intros Hwf. destruct (tail_add_with_spec reallocate data s Hwf) as (s' & ? & ? & ? & ? & _).
  - intros _ _. by apply reallocate_spec.
  - eauto.
Qed.

Lemma tail_add_spec data s :
  wf s -> exists s', tail_add data s = Ok s' /\ wf s' /\
    contents s' = contents s ++ (Some <$> data) /\ grow_length s' = grow_length s.
Proof. apply tail_add_cells_spec. Qed.

(** [head_alloc] either fails on the assertion that follows its shift, or
    prepends [req] indeterminate bytes; without a shift the bytes already in
    front of the data are exposed. *)
Lemma head_alloc_spec req s :
  wf s ->
  if head_shift_short req s then head_alloc req s = AssertFail
  else exists s', head_alloc req s = Ok (s', used_off s') /\ wf s' /\
    used_len s' = (used_len s + req)%nat /\ grow_length s' = grow_length s /\
    zone (full_data s') (used_off s' + Z.of_nat req) (used_len s) = contents s /\
    (Z.of_nat req <= head_freelen s ->
     used_off s' = used_off s - Z.of_nat req /\ full_data s' = full_data s).
Proof.
  intros Hwf. pose proof Hwf as (H1 & H2 & H3)%wf_iff.
  unfold head_alloc, head_shift_short.
  destruct (bool_decide_reflect (head_freelen s < Z.of_nat req)) as [Hh|Hh]; simpl; cycle 1.
  { simpl. pass_sane. give_buffer; serial_split. unfold contents. f_equal. lia. }
  destruct (bool_decide_reflect (Z.of_nat req <= tail_freelen s + head_freelen s)) as [Ht|Ht];
    simpl; cycle 1.
  { rewrite bool_decide_eq_true_2 by lia.
    destruct (reallocate_spec req 0 s Hwf) as (s1 & -> & (Hwf1 & Hu & Hg & Hc & Hhl & _)).
    simpl. apply wf_iff in Hwf1 as (? & ? & ?). pass_sane.
    give_buffer; serial_split.
    rewrite <- Hc. unfold contents. rewrite Hu. f_equal. lia. }
  rewrite (bool_decide_eq_false_2 (tail_freelen s + head_freelen s < Z.of_nat req)) by lia.
  pass_assert ltac:(apply negb_true_iff, bool_decide_eq_false_2; serial_arith).
  rewrite mem_read_ok by serial_arith. simpl.
  change (zone (full_data s) (used_off s) (used_len s)) with (contents s).
  set (q := 2 * _ / 3).
  assert (0 <= q /\ q <= head_freelen s + tail_freelen s - Z.of_nat req) as [Hq1 Hq2].
  { unfold q. split; [apply Z.div_pos|apply Z.div_le_upper_bound]; lia. }
  destruct (mem_write_ok (full_data s) q (contents s)) as (m & -> & Hlm & _ & Hz);
    [lia|rewrite contents_length by done; serial_arith|].
  simpl. destruct (bool_decide_reflect (q < Z.of_nat req)) as [Hs|Hs].
  { destruct (is_sane _) eqn:E; [|done]. apply is_sane_iff in E. serial_arith. }
  pass_sane. give_buffer; serial_split.
  specialize (Hz 0%nat). rewrite contents_length, Nat.add_0_r in Hz by done.
  replace (q - Z.of_nat req + Z.of_nat req) with q by lia.
  rewrite Hz by serial_arith. apply app_nil_r.
Qed.

(** Writing in the room [head_alloc] returns prepends the data. *)
Lemma head_add_spec data s :
  wf s ->
  if head_shift_short (length data) s then head_add data s = AssertFail
  else exists s', head_add data s = Ok s' /\ wf s' /\
    contents s' = (Some <$> data) ++ contents s /\ grow_length s' = grow_length s.
Proof.
  intros Hwf. pose proof (head_alloc_spec (length data) s Hwf) as Hsp.
  unfold head_add. destruct (head_shift_short (length data) s); [by rewrite Hsp|].
  destruct Hsp as (s1 & -> & Hwf1 & Hu & Hg & Hc & _). simpl.
  pose proof Hwf1 as (? & ? & ?)%wf_iff.
  destruct (mem_write_ok (full_data s1) (used_off s1) (Some <$> data))
    as (m & -> & Hlm & _ & Hz); [lia|serial_arith|].
  simpl. pass_sane. eexists; split; [done|]. serial_split.
  unfold contents at 1; simpl. specialize (Hz (used_len s)). autorewrite with neoip_len in Hz.
  rewrite Hu, (Nat.add_comm (used_len s)), Hz by serial_arith. by rewrite Hc.
Qed.

Lemma head_free_spec n s :
  wf s ->
  if bool_decide (n <= used_len s)%nat then
    exists s', head_free n s = Ok s' /\ wf s' /\ contents s' = drop n (contents s) /\
      grow_length s' = grow_length s /\ full_data s' = full_data s /\
      used_off s' = used_off s + Z.of_nat n /\ used_len s' = (used_len s - n)%nat
  else head_free n s = AssertFail.
Proof.
  intros Hwf. pose proof Hwf as (? & ? & ?)%wf_iff. unfold head_free, used_length.
  case_bool_decide; simpl; [|done]. rewrite (proj1 Hwf). simpl. pass_sane.
  eexists; split; [done|]. serial_split. unfold contents, zone; simpl.
  rewrite skipn_firstn_comm, drop_drop. do 2 f_equal. lia.
Qed.

Lemma tail_free_spec n s :
  wf s ->
  if bool_decide (n <= used_len s)%nat then
    exists s', tail_free n s = Ok s' /\ wf s' /\
      contents s' = take (used_len s - n) (contents s) /\ grow_length s' = grow_length s
  else tail_free n s = AssertFail.
Proof.
  intros Hwf. pose proof Hwf as (? & ? & ?)%wf_iff. unfold tail_free, used_length.
  case_bool_decide; simpl; [|done]. pass_sane.
  eexists; split; [done|]. serial_split. unfold contents, zone; simpl.
  rewrite take_take. f_equal. lia.
Qed.

(** One operation against its specification: a result is the specified one,
    the only failure is a failed assertion, and only a refused [deque_op] or
    the short shift of a [head_add] can cause it. *)
Lemma serial_op_spec o s :
  wf s ->
  match serial_op o s with
  | Ok s' => wf s' /\ deque_op o (contents s) = Some (contents s')
  | AssertFail =>
      deque_op o (contents s) = None \/
      exists d, o = OpHeadAdd d /\ head_shift_short (length d) s = true
  | Throw _ | Fault => False
  end.
Proof.
  intros Hwf. destruct o as [d|d|n|n]; simpl.
  - destruct (tail_add_spec d s Hwf) as (s' & -> & ? & -> & _). done.
  - pose proof (head_add_spec d s Hwf) as Hsp. destruct (head_shift_short _ _) eqn:E.
    + rewrite Hsp. eauto.
    + destruct Hsp as (s' & -> & ? & -> & _). done.
  - pose proof (head_free_spec n s Hwf) as Hsp. rewrite contents_length by done.
    case_bool_decide.
    + destruct Hsp as (s' & -> & ? & -> & _). done.
    + rewrite Hsp. by left.
  - pose proof (tail_free_spec n s Hwf) as Hsp. rewrite contents_length by done.
    case_bool_decide.
    + destruct Hsp as (s' & -> & ? & -> & _). done.
    + rewrite Hsp. by left.
Qed.

Lemma range_ok off len s :
  wf s -> 0 <= off -> 0 <= len -> off + len <= Z.of_nat (used_len s) ->
  Z.of_nat (full_length s) < 2 ^ (SIZE_T_BITS - 1) ->
  range off len s = Ok (take (Z.to_nat len) (drop (Z.to_nat off) (contents s))).
Proof.
  intros (? & ? & ?)%wf_iff ????. unfold range, used_length.
  rewrite wrap_small by (unfold in_range; rewrite (pow2_split SIZE_T_BITS) by done; lia).
  rewrite bool_decide_eq_false_2 by lia.
  rewrite to_signed_small by (unfold SIZE_T_BITS in *; lia).
  rewrite mem_read_ok by serial_arith. unfold contents.
  rewrite zone_sub by lia. do 2 f_equal; lia.
Qed.

Lemma head_consume_spec dbg n s :
  wf s -> (n <= used_len s)%nat -> Z.of_nat (full_length s) < 2 ^ (SIZE_T_BITS - 1) ->
  exists s', head_consume dbg n s = Ok (take n (contents s), s') /\ wf s' /\
    contents s' = drop n (contents s).
Proof.
  intros Hwf Hn Hsz. unfold head_consume, head_peek.
  rewrite range_ok by (done || lia).
  assert (forall k : outcome (list cell), dbgnet_assert dbg
    (bool_decide (Z.of_nat n <= Z.of_nat (used_length s))) k = k) as ->.
  { intros k. unfold dbgnet_assert, used_length. rewrite bool_decide_eq_true_2 by lia. by destruct dbg. }
  simpl. pose proof (head_free_spec n s Hwf) as Hsp. rewrite bool_decide_eq_true_2 in Hsp by done.
  destruct Hsp as (s' & -> & ? & ? & _). simpl. change (Z.to_nat 0) with 0%nat. rewrite drop_0, Nat2Z.id. eauto.
Qed.

Lemma internal_ctor_docopy_spec data :
  exists s, internal_ctor_docopy data = Ok s /\ wf s /\ contents s = Some <$> data /\
    full_length s = length data.
Proof.
  unfold internal_ctor_docopy. case_bool_decide as He.
  - apply nil_length_inv in He as ->. exists serial_null. split; [done|].
    split; [|done]. apply wf_iff. cbn. unfold GROW_LENGTH_DFL. lia.
  - unfold GROW_LENGTH_DFL. rewrite allocate_ctor_ok by lia. simpl. unfold tail_add, tail_add_cells.
    destruct (tail_add_with_spec reallocate (Some <$> data)
      (Serial (replicate (length data) None) 0 0 256)) as (s' & -> & Hwf & Hc & _ & Hroom).
    + apply wf_iff. serial_arith.
    + serial_arith.
    + simpl. rewrite (proj1 Hwf). simpl. exists s'. split; [done|]. split; [done|].
      rewrite Hc. split; [done|]. destruct Hroom as [_ Hf]; [serial_arith|]. rewrite Hf. serial_arith.
Qed.

Lemma tail_peek_spec n s :
  wf s -> (n <= used_len s)%nat -> Z.of_nat (full_length s) < 2 ^ (SIZE_T_BITS - 1) ->
  tail_peek true (Z.of_nat n) s = Ok (drop (used_len s - n) (contents s)).
Proof.
  intros Hwf Hn Hsz. unfold tail_peek, dbgnet_assert, used_length.
  rewrite bool_decide_eq_true_2 by lia. simpl. pose proof (contents_length s Hwf) as Hl.
  pose proof Hwf as (? & ? & _)%wf_iff.
  rewrite wrap_small.
  - rewrite range_ok by (done || lia). f_equal. rewrite take_ge by (rewrite length_drop; lia).
    f_equal. lia.
  - unfold in_range. rewrite (pow2_split SIZE_T_BITS) by done. lia.
Qed.

(* ------------------------------------------------------------------ *)
(** * Properties *)
(* ------------------------------------------------------------------ *)

(** C4. Refinement: over any sequence of appends, prepends and releases at
    either end, the buffer behaves as the byte deque.  A run that returns
    leaves a well-formed buffer holding exactly the deque the specification
    computes, whatever reallocations and shifts happened; no run accesses
    memory outside the zone or throws. *)
Theorem serial_run_refines_deque (ops : list buf_op) (s : serial_t) (Hwf : wf s) :
  match serial_run ops s with
  | Ok s' => wf s' /\ deque_run ops (contents s) = Some (contents s')
  | AssertFail => True
  | Throw _ | Fault => False
  end.
Proof.
  revert s Hwf. induction ops as [|o ops IH]; intros s Hwf; simpl; [done|].
  pose proof (serial_op_spec o s Hwf) as Hsp.
  destruct (serial_op o s) as [s1| | |] eqn:E; simpl; try done.
  destruct Hsp as [Hwf1 ->]. by apply IH.
Qed.

(** Appending and releasing never fail on a legal sequence: without
    prepends the buffer returns exactly when the deque specification accepts
    the sequence, so no growth, shift or reallocation breaks an assertion. *)
Theorem serial_run_complete (ops : list buf_op) (s : serial_t) (Hwf : wf s)
    (Hops : forallb (fun o => negb (op_is_head_add o)) ops = true) :
  match deque_run ops (contents s) with
  | Some q => exists s', serial_run ops s = Ok s' /\ contents s' = q
  | None => serial_run ops s = AssertFail
  end.
Proof.
  revert s Hwf. induction ops as [|o ops IH]; intros s Hwf; simpl; [eauto|].
  simpl in Hops. apply andb_true_iff in Hops as [Ho Hops].
  pose proof (serial_op_spec o s Hwf) as Hsp.
  destruct (serial_op o s) as [s1| | |]; simpl; try done.
  - destruct Hsp as [Hwf1 ->]. by apply IH.
  - destruct Hsp as [->|(d & -> & _)]; done.
Qed.

(** [head_alloc] fails exactly in the shift case whose result is too close
    to the head; otherwise it grows the used zone at the head by [req] bytes
    and keeps the previous data after them. *)
Theorem head_alloc_fails_iff (req : nat) (s : serial_t) (Hwf : wf s) :
  (head_alloc req s = AssertFail <-> head_shift_short req s = true) /\
  (head_shift_short req s = false ->
   exists s', head_alloc req s = Ok (s', used_off s') /\ wf s' /\
     used_length s' = (used_length s + req)%nat /\ drop req (contents s') = contents s).
Proof.
  pose proof (head_alloc_spec req s Hwf) as Hsp. destruct (head_shift_short req s).
  { done. }
  destruct Hsp as (s' & -> & Hwf' & Hu & _ & Hz & _). split; [done|]. intros _.
  exists s'. split; [done|]. split; [done|]. split; [done|].
  apply wf_iff in Hwf' as (? & ? & _). rewrite <- Hz. unfold contents.
  rewrite Hu, Nat.add_comm, zone_full_split by done.
  apply drop_app_length'. rewrite zone_length by serial_arith. done.
Qed.

(** [unserial_peek] leaves the buffer as it found it: for a reader that
    consumes [n] bytes from the head, the value is the reader's and the used
    bytes, the zone and the offset are those of before the call. *)
Theorem unserial_peek_restores {A} (reader : serial_t -> outcome (A * serial_t)) (v : A)
    (n : nat) (s : serial_t) (Hwf : wf s) (Hn : (n <= used_length s)%nat)
    (Hrd : (let* s1 := head_free n s in Ok (v, s1)) = reader s) :
  unserial_peek reader s = Ok (v, s).
Proof.
  unfold unserial_peek. rewrite <- Hrd.
  pose proof (head_free_spec n s Hwf) as Hsp. rewrite bool_decide_eq_true_2 in Hsp by done.
  destruct Hsp as (s1 & -> & Hwf1 & _ & Hg & Hf & Ho & Hu). simpl.
  unfold used_length in *.
  replace (used_len s - used_len s1)%nat with n by lia.
  pose proof (head_alloc_spec n s1 Hwf1) as Hal.
  pose proof Hwf as (? & ? & ?)%wf_iff.
  assert (Hroom : Z.of_nat n <= head_freelen s1) by (unfold head_freelen; lia).
  unfold head_shift_short in Hal. rewrite bool_decide_eq_false_2 in Hal by lia. simpl in Hal.
  destruct Hal as (s2 & -> & _ & Hu2 & Hg2 & _ & Hsame). simpl.
  destruct (Hsame Hroom) as [Ho2 Hf2].
  rewrite bool_decide_eq_true_2 by lia. simpl. do 2 f_equal.
  destruct s, s2; simpl in *. f_equal; try congruence; lia.
Qed.

(** Copying: the copy constructor yields a well-formed object with the
    same used bytes for every source, while [operator=], whose empty case is
    compiled out, does the same only when the source owns a zone: assigning
    from the null object fails the assertion of [allocate_ctor]. *)
Theorem serial_copy_assign (s : serial_t) (Hwf : wf s) :
  (exists s', serial_copy s = Ok s' /\ wf s' /\ contents s' = contents s) /\
  (if bool_decide (full_length s = 0%nat) then serial_assign s = AssertFail
   else exists s', serial_assign s = Ok s' /\ wf s' /\ contents s' = contents s).
Proof.
  pose proof Hwf as (H1 & H2 & H3)%wf_iff.
  assert (Hgen : full_length s <> 0%nat -> exists s', serial_assign s = Ok s' /\ wf s' /\ contents s' = contents s).
  { intros Hnz. unfold serial_assign, head_freelen. rewrite allocate_ctor_ok by lia.
    simpl. destruct (tail_add_cells_spec (contents s)
      (Serial (replicate (full_length s) None) (used_off s) 0 (grow_length s)))
      as (s' & -> & Hwf' & Hc & _); [apply wf_iff; serial_arith|].
    simpl. rewrite (proj1 Hwf'). simpl. eauto. }
  split.
  - unfold serial_copy, is_empty, used_length. case_bool_decide as He.
    + exists serial_null. split; [done|]. split; [by vm_compute; auto with arith|].
      unfold contents, zone. by rewrite He.
    + apply Hgen. lia.
  - case_bool_decide as He; [|by apply Hgen].
    unfold serial_assign, allocate_ctor. by rewrite He.
Qed.

(** [tail_peek] of more bytes than the buffer holds: with assertions on it
    stops at [DBGNET_ASSERT]; with assertions compiled out the offset wraps
    below zero modulo the width of [size_t], the length check of [range] adds
    [len] back and passes, and the call returns the bytes that lie in front of
    the used zone, or reads before the allocation, instead of throwing. *)
Theorem tail_peek_underflow (len : Z) (s : serial_t) (Hwf : wf s)
    (Hlen : Z.of_nat (used_length s) < len < 2 ^ (SIZE_T_BITS - 1))
    (Hfull : Z.of_nat (full_length s) < 2 ^ (SIZE_T_BITS - 1)) :
  tail_peek true len s = AssertFail /\
  tail_peek false len s =
    if bool_decide (len - Z.of_nat (used_length s) <= head_freelen s)
    then Ok (zone (full_data s) (head_freelen s - (len - Z.of_nat (used_length s)))
               (Z.to_nat len))
    else Fault.
Proof.
  pose proof Hwf as (H1 & H2 & H3)%wf_iff. unfold used_length, head_freelen in *.
  split; unfold tail_peek, dbgnet_assert, used_length.
  { by rewrite bool_decide_eq_false_2 by lia. }
  unfold range, used_length. rewrite wrap_add_wrap, to_signed_wrap.
  rewrite to_signed_small by (unfold SIZE_T_BITS in *; lia).
  rewrite wrap_small.
  - rewrite bool_decide_eq_false_2 by lia. unfold mem_read, full_length in *.
    replace (used_off s + (Z.of_nat (used_len s) - len))
      with (used_off s - (len - Z.of_nat (used_len s))) by lia.
    rewrite (bool_decide_ext _ (len - Z.of_nat (used_len s) <= used_off s)) by lia. done.
  - unfold in_range. rewrite (pow2_split SIZE_T_BITS) by done. lia.
Qed.

(* ------------------------------------------------------------------ *)
(** * The properties at concrete inputs *)
(* ------------------------------------------------------------------ *)

Lemma wf_null : wf serial_null.
Proof. split; [done|]. vm_compute. lia. Qed.

(** A zone of eight cells with the bytes 7 and 9 at offset 3. *)
Lemma wf_sample : wf (Serial [None; None; Some 5; Some 7; Some 9; None; None; None] 3 2 4).
Proof. split; [done|]. simpl. lia. Qed.

Lemma serial_run_refines_deque_witness :
  let ops := [OpTailAdd [1; 2; 3]; OpHeadFree 1%nat; OpHeadAdd [8]; OpTailFree 1%nat] in
  match serial_run ops serial_null with
  | Ok s' => wf s' /\ deque_run ops (contents serial_null) = Some (contents s')
  | AssertFail => True
  | Throw _ | Fault => False
  end /\ deque_run ops [] = Some [Some 8; Some 2].
Proof.
  intros ops. split; [apply (serial_run_refines_deque ops serial_null wf_null)|reflexivity].
Defined.

Lemma serial_run_complete_witness :
  exists s', serial_run [OpTailAdd [1; 2; 3]; OpHeadFree 1%nat; OpTailFree 1%nat] serial_null = Ok s'
    /\ contents s' = [Some 2].
Proof.
  pose proof (serial_run_complete [OpTailAdd [1; 2; 3]; OpHeadFree 1%nat; OpTailFree 1%nat]
    serial_null wf_null eq_refl) as H.
  exact H.
Defined.

Lemma head_alloc_fails_iff_witness :
  let s := Serial [None; None; Some 5; Some 7; Some 9; None; None; None] 3 2 4 in
  head_shift_short 4 s = true /\ head_alloc 4 s = AssertFail.
Proof. split; [reflexivity|]. apply (proj1 (head_alloc_fails_iff 4 _ wf_sample)). reflexivity. Defined.

Lemma unserial_peek_restores_witness :
  let s := Serial [None; None; Some 5; Some 7; Some 9; None; None; None] 3 2 4 in
  unserial_peek (fun s => let* s1 := head_free 1 s in Ok (Some 7, s1)) s = Ok (Some 7, s).
Proof. apply unserial_peek_restores with (n := 1%nat); [exact wf_sample|vm_compute; lia|reflexivity]. Defined.

Lemma serial_copy_assign_witness :
  (exists s', serial_copy serial_null = Ok s' /\ wf s' /\ contents s' = contents serial_null) /\
  serial_assign serial_null = AssertFail.
Proof.
  destruct (serial_copy_assign serial_null wf_null) as [H1 H2].
  split; [exact H1|]. vm_compute in H2 |- *. exact H2.
Defined.

Lemma tail_peek_underflow_witness :
  let s := Serial [None; None; Some 5; Some 7; Some 9; None; None; None] 3 2 4 in
  tail_peek true 3 s = AssertFail /\ tail_peek false 3 s = Ok [Some 5; Some 7; Some 9].
Proof.
  destruct (tail_peek_underflow 3 _ wf_sample) as [H1 H2]; [by vm_compute|by vm_compute|].
  split; [exact H1|]. rewrite H2. vm_compute. reflexivity.
Defined.
