(* ===== verification/Codec.v ===== *)
(** Codecs: what [operator <<] and [operator >>] of a type promise over a
    [serial_t], and those of the basic types, [std::string] and [datum_t].

    A [codec] pairs the operators on the real buffer ([put]/[get]) with their
    effect on the abstract byte sequence ([wire_put]/[wire_get]).  [CodecLaws]
    is the contract the message layers rely on: decoding an encoded value
    followed by anything gives the value and leaves the rest, and the operators
    on the buffer implement the abstract ones.  The files that only exchange
    packets work on the abstract side. *)
From S2P Require Import Prelude Serial.

(* ------------------------------------------------------------------ *)
(** * The interface *)
(* ------------------------------------------------------------------ *)

Record codec (A : Type) := Codec {
  codec_ok : A -> Prop;                                 (* values of the C++ type *)
  wire_put : A -> list Z;
  wire_get : list Z -> outcome (A * list Z);
  put : A -> serial_t -> outcome serial_t;              (* serial << a *)
  get : serial_t -> outcome (A * serial_t)              (* serial >> a *)
}.
Arguments Codec {A}.
Arguments codec_ok {A} c a.
Arguments wire_put {A} c a.
Arguments wire_get {A} c l.
Arguments put {A} c a s.
Arguments get {A} c s.

(** What [get] does on a buffer against what [wire_get] does on its bytes. *)
Definition get_refines {A} (c : codec A) (l : list Z) (s : serial_t) : Prop :=
  match wire_get c l with
  | Ok (a, rest) => exists s', get c s = Ok (a, s') /\ wf s' /\ contents s' = Some <$> rest
  | Throw e => get c s = Throw e
  | AssertFail | Fault => False
  end.

Class CodecLaws {A} (c : codec A) : Prop := {
  wire_put_bytes : forall a, codec_ok c a -> bytes_ok (wire_put c a);
  wire_get_put : forall a rest, codec_ok c a -> wire_get c (wire_put c a ++ rest) = Ok (a, rest);
  wire_get_valid : forall l a rest, bytes_ok l -> wire_get c l = Ok (a, rest) ->
    codec_ok c a /\ bytes_ok rest;
  put_spec : forall a s, codec_ok c a -> wf s ->
    exists s', put c a s = Ok s' /\ wf s' /\ contents s' = contents s ++ (Some <$> wire_put c a);
  get_spec : forall l s, wf s -> bytes_ok l -> contents s = Some <$> l -> get_refines c l s
}.

(* ------------------------------------------------------------------ *)
(** * Byte order *)
(* ------------------------------------------------------------------ *)

(** [_BYTE_ORDER] and [_LITTLE_ENDIAN] are both undefined where the macros are
    chosen, so the swapping variant is compiled; the host is little-endian. *)
Definition NEOIP_BSWAP16 (x : Z) : Z := wrap 16 (Z.lor (Z.shiftr x 8) (Z.shiftl x 8)).

Definition NEOIP_BSWAP32 (x : Z) : Z :=
  wrap 32 (Z.lor (Z.lor (Z.shiftr x 24) (Z.land (Z.shiftr x 8) 0xff00))
             (Z.lor (Z.land (wrap 32 (Z.shiftl x 8)) 0xff0000) (wrap 32 (Z.shiftl x 24)))).

Definition NEOIP_BSWAP64 (x : Z) : Z :=
  wrap 64
    (Z.lor (Z.lor (Z.lor (Z.shiftr x 56) (Z.land (Z.shiftr x 40) 0xff00))
                  (Z.lor (Z.land (Z.shiftr x 24) 0xff0000) (Z.land (Z.shiftr x 8) 0xff000000)))
           (Z.lor (Z.lor (Z.land (wrap 64 (Z.shiftl x 8)) (Z.shiftl 0xff 32))
                         (Z.land (wrap 64 (Z.shiftl x 24)) (Z.shiftl 0xff 40)))
                  (Z.lor (Z.land (wrap 64 (Z.shiftl x 40)) (Z.shiftl 0xff 48))
                         (wrap 64 (Z.shiftl x 56))))).

(** The bytes of an [n]-byte integer as the host stores them. *)
Definition host_bytes (n : nat) (z : Z) : list Z := rev (be_bytes n z).
Definition host_value (l : list Z) : Z := be_value (rev l).

(* ------------------------------------------------------------------ *)
(** * Basic types *)
(* ------------------------------------------------------------------ *)

(** Copies [n] bytes from the head of the buffer and frees them, after the
    length check every [operator >>] of a basic type starts with. *)
Definition get_head (n : nat) (too_short : string) (s : serial_t)
    : outcome (list Z * serial_t) :=
  if bool_decide (used_length s < n)%nat then Throw too_short
  else
    let* d := mem_read (full_data s) (used_off s) n in
    let* bs := init_bytes d in
    let* s1 := head_free n s in
    Ok (bs, s1).

Definition wire_get_head (n : nat) (too_short : string) (l : list Z)
    : outcome (list Z * list Z) :=
  if bool_decide (length l < n)%nat then Throw too_short else Ok (take n l, drop n l).

Definition put_bool (b : bool) (s : serial_t) : outcome serial_t :=
  let tmp := if b then 1 else 0 in
  tail_add (host_bytes 1 tmp) s.

Definition get_bool (s : serial_t) : outcome (bool * serial_t) :=
  let* (bs, s1) := get_head 1 "bool Payload Too Short" s in
  let tmp := host_value bs in
  Ok (negb (bool_decide (tmp = 0)), s1).

Definition put_u8 (val : Z) (s : serial_t) : outcome serial_t := tail_add (host_bytes 1 val) s.

Definition get_u8 (s : serial_t) : outcome (Z * serial_t) :=
  let* (bs, s1) := get_head 1 "uint8_t Payload Too Short" s in
  Ok (host_value bs, s1).

Definition put_u16 (val : Z) (s : serial_t) : outcome serial_t :=
  tail_add (host_bytes 2 (NEOIP_BSWAP16 val)) s.

Definition get_u16 (s : serial_t) : outcome (Z * serial_t) :=
  let* (bs, s1) := get_head 2 "uint16_t Payload Too Short" s in
  Ok (NEOIP_BSWAP16 (host_value bs), s1).

Definition put_u32 (val : Z) (s : serial_t) : outcome serial_t :=
  tail_add (host_bytes 4 (NEOIP_BSWAP32 val)) s.

Definition get_u32 (s : serial_t) : outcome (Z * serial_t) :=
  let* (bs, s1) := get_head 4 "uint32_t Payload Too Short" s in
  Ok (NEOIP_BSWAP32 (host_value bs), s1).

Definition put_u64 (val : Z) (s : serial_t) : outcome serial_t :=
  tail_add (host_bytes 8 (NEOIP_BSWAP64 val)) s.

Definition get_u64 (s : serial_t) : outcome (Z * serial_t) :=
  let* (bs, s1) := get_head 8 "uint64_t Payload Too Short" s in
  Ok (NEOIP_BSWAP64 (host_value bs), s1).

(** [float] and [double] are punned to the integer of their width: their value
    is modelled by their bit pattern. *)
Definition put_float (bits : Z) (s : serial_t) : outcome serial_t := put_u32 bits s.
Definition get_float (s : serial_t) : outcome (Z * serial_t) := get_u32 s.
Definition put_double (bits : Z) (s : serial_t) : outcome serial_t := put_u64 bits s.
Definition get_double (s : serial_t) : outcome (Z * serial_t) := get_u64 s.

(* ------------------------------------------------------------------ *)
(** * Strings and datums *)
(* ------------------------------------------------------------------ *)

(** Both are a length cast to [uint32_t] followed by the bytes. *)
Definition put_string (val : list Z) (s : serial_t) : outcome serial_t :=
  let* s1 := put_u32 (wrap 32 (Z.of_nat (length val))) s in
  tail_add val s1.

Definition get_string (s : serial_t) : outcome (list Z * serial_t) :=
  let* (len, s1) := get_u32 s in
  if bool_decide (Z.of_nat (used_length s1) < len)
  then Throw "std::string Payload Too Short"
  else
    let* d := mem_read (full_data s1) (used_off s1) (Z.to_nat len) in
    let* val := init_bytes d in
    let* s2 := head_free (Z.to_nat len) s1 in
    Ok (val, s2).

Definition put_datum (datum : list Z) (s : serial_t) : outcome serial_t :=
  let* s1 := put_u32 (wrap 32 (Z.of_nat (length datum))) s in
  tail_add datum s1.

Definition get_datum (s : serial_t) : outcome (list Z * serial_t) :=
  let* (len, s1) := get_u32 s in
  if bool_decide (Z.of_nat (used_length s1) < len)
  then Throw "datum_t Payload Too Short"
  else
    let* d := mem_read (full_data s1) (used_off s1) (Z.to_nat len) in
    let* datum := init_bytes d in
    let* s2 := head_free (Z.to_nat len) s1 in
    Ok (datum, s2).

(** The order of two datums: null first, then by length, then as [memcmp]. *)
Fixpoint memcmp (a b : list Z) : Z :=
  match a, b with
  | x :: a', y :: b' => if x <? y then -1 else if y <? x then 1 else memcmp a' b'
  | _, _ => 0
  end.

(** A datum is null exactly when it is empty ([internal_ctor]). *)
Definition datum_is_null (d : list Z) : bool := bool_decide (length d = 0%nat).

Definition datum_compare (a b : list Z) : Z :=
  if datum_is_null a && negb (datum_is_null b) then -1
  else if negb (datum_is_null a) && datum_is_null b then 1
  else if datum_is_null a && datum_is_null b then 0
  else if bool_decide (length a < length b)%nat then -1
  else if bool_decide (length b < length a)%nat then 1
  else memcmp a b.

Definition datum_eq (a b : list Z) : bool := datum_compare a b =? 0.
Definition datum_lt (a b : list Z) : bool := datum_compare a b >? 0.
Definition datum_le (a b : list Z) : bool := datum_compare a b >=? 0.
Definition datum_gt (a b : list Z) : bool := datum_compare a b <? 0.
Definition datum_ge (a b : list Z) : bool := datum_compare a b <=? 0.

Definition datum_add (a b : list Z) : list Z := a ++ b.

Definition datum_range (off len : nat) (d : list Z) : outcome (list Z) :=
  assert! bool_decide (off + len <= length d)%nat in
  Ok (take len (drop off d)).

(* ------------------------------------------------------------------ *)
(** * The codecs *)
(* ------------------------------------------------------------------ *)

Definition wire_uint (n : nat) (too_short : string) (l : list Z) : outcome (Z * list Z) :=
  let* (bs, rest) := wire_get_head n too_short l in
  Ok (be_value bs, rest).

(** The common shape of the integer codecs. *)
Definition uint_codec (n : nat) (w : Z) (bsw : Z -> Z) (msg : string) : codec Z := {|
  codec_ok := in_range w; wire_put := be_bytes n; wire_get := wire_uint n msg;
  put := fun v => tail_add (host_bytes n (bsw v));
  get := fun s => let* (bs, s1) := get_head n msg s in Ok (bsw (host_value bs), s1) |}.

(** The [i]-th byte of [z], least significant first. *)
Definition byte_at (z : Z) (i : nat) : Z := (z / 2 ^ (8 * Z.of_nat i)) mod 2 ^ 8.

Definition bool_codec : codec bool := {|
  codec_ok := fun _ : bool => True;
  wire_put := fun b : bool => [if b then 1 else 0];
  wire_get := fun l => let* (bs, rest) := wire_get_head 1 "bool Payload Too Short" l in
                       Ok (negb (bool_decide (be_value bs = 0)), rest);
  put := put_bool; get := get_bool |}.

Definition u8_codec : codec Z := {|
  codec_ok := in_range 8; wire_put := be_bytes 1;
  wire_get := wire_uint 1 "uint8_t Payload Too Short"; put := put_u8; get := get_u8 |}.
Definition u16_codec : codec Z := {|
  codec_ok := in_range 16; wire_put := be_bytes 2;
  wire_get := wire_uint 2 "uint16_t Payload Too Short"; put := put_u16; get := get_u16 |}.
Definition u32_codec : codec Z := {|
  codec_ok := in_range 32; wire_put := be_bytes 4;
  wire_get := wire_uint 4 "uint32_t Payload Too Short"; put := put_u32; get := get_u32 |}.
Definition u64_codec : codec Z := {|
  codec_ok := in_range 64; wire_put := be_bytes 8;
  wire_get := wire_uint 8 "uint64_t Payload Too Short"; put := put_u64; get := get_u64 |}.

Definition wire_blob (too_short : string) (l : list Z) : outcome (list Z * list Z) :=
  let* (len, rest) := wire_get u32_codec l in
  if bool_decide (Z.of_nat (length rest) < len) then Throw too_short
  else Ok (take (Z.to_nat len) rest, drop (Z.to_nat len) rest).

Definition blob_ok (d : list Z) : Prop := bytes_ok d /\ Z.of_nat (length d) < 2 ^ 32.
Definition wire_put_blob (d : list Z) : list Z := be_bytes 4 (Z.of_nat (length d)) ++ d.

Definition string_codec : codec (list Z) := {|
  codec_ok := blob_ok; wire_put := wire_put_blob;
  wire_get := wire_blob "std::string Payload Too Short";
  put := put_string; get := get_string |}.
Definition datum_codec : codec (list Z) := {|
  codec_ok := blob_ok; wire_put := wire_put_blob;
  wire_get := wire_blob "datum_t Payload Too Short";
  put := put_datum; get := get_datum |}.

(** [std::string] and [datum_t] differ only by the text of the exception. *)
Definition get_blob (msg : string) (s : serial_t) : outcome (list Z * serial_t) :=
  let* (len, s1) := get_u32 s in
  if bool_decide (Z.of_nat (used_length s1) < len) then Throw msg
  else
    let* d := mem_read (full_data s1) (used_off s1) (Z.to_nat len) in
    let* val := init_bytes d in
    let* s2 := head_free (Z.to_nat len) s1 in
    Ok (val, s2).

Definition blob_codec (msg : string) : codec (list Z) := {|
  codec_ok := blob_ok; wire_put := wire_put_blob; wire_get := wire_blob msg;
  put := put_string; get := get_blob msg |}.

(** [serial << a << b] and [serial >> a >> b]. *)
Definition pair_codec {A B} (ca : codec A) (cb : codec B) : codec (A * B) := {|
  codec_ok := fun ab : A * B => codec_ok ca ab.1 /\ codec_ok cb ab.2;
  wire_put := fun ab : A * B => wire_put ca ab.1 ++ wire_put cb ab.2;
  wire_get := fun l => let* (a, l1) := wire_get ca l in
                       let* (b, l2) := wire_get cb l1 in Ok ((a, b), l2);
  put := fun (ab : A * B) s => let* s1 := put ca ab.1 s in put cb ab.2 s1;
  get := fun s => let* (a, s1) := get ca s in let* (b, s2) := get cb s1 in Ok ((a, b), s2) |}.

(* ------------------------------------------------------------------ *)
(** * Byte order: proofs *)
(* ------------------------------------------------------------------ *)

Lemma be_bytes_byte_at n z : be_bytes n z = byte_at z <$> rev (seq 0 n).
Proof.
  revert z. induction n as [|n IH]; intros z; [done|].
  cbn [be_bytes seq rev]. rewrite fmap_app, IH. f_equal; cycle 1.
  { simpl. unfold byte_at. by rewrite Z.div_1_r. }
  rewrite <- seq_shift, <- map_rev. change (map S) with (fmap (M:=list) S).
  rewrite <- list_fmap_compose. apply list_fmap_ext. intros i x _. unfold byte_at, compose.
  rewrite Z.div_div by lia. do 2 f_equal.
  replace (8 * Z.of_nat (S x)) with (8 + 8 * Z.of_nat x) by lia.
  by rewrite Z.pow_add_r by lia.
Qed.

Lemma byte_at_testbit z i j :
  0 <= j -> Z.testbit (byte_at z i) j = (j <? 8) && Z.testbit z (j + 8 * Z.of_nat i).
Proof.
  intros Hj. unfold byte_at. destruct (Z.ltb_spec j 8).
  - rewrite Z.mod_pow2_bits_low, Z.div_pow2_bits by lia. done.
  - by rewrite Z.mod_pow2_bits_high by lia.
Qed.

Lemma wrap_testbit w z j : 0 <= w -> 0 <= j -> Z.testbit (wrap w z) j = (j <? w) && Z.testbit z j.
Proof.
  intros ??. unfold wrap. destruct (Z.ltb_spec j w).
  - by rewrite Z.mod_pow2_bits_low by lia.
  - by rewrite Z.mod_pow2_bits_high by lia.
Qed.

Create Rewrite HintDb bswap_bits.
#[export] Hint Rewrite Z.lor_spec Z.land_spec : bswap_bits.
#[export] Hint Rewrite Z.shiftr_spec Z.shiftl_spec wrap_testbit using lia : bswap_bits.

(** The bits of a [w]-bit value as a function, zero outside the width. *)
Lemma testbit_fun w v :
  in_range w v ->
  exists f, forall k, Z.testbit v k = if (0 <=? k) && (k <? w) then f k else false.
Proof.
  intros H. exists (Z.testbit v). intros k.
  destruct (Z.leb_spec 0 k); simpl; [|by apply Z.testbit_neg_r].
  destruct (Z.ltb_spec k w); [done|].
  rewrite <- (wrap_small _ _ H), wrap_testbit by (pose proof (in_range_pow2 _ _ H); lia).
  by destruct (Z.ltb_spec k w); [lia|].
Qed.

Lemma cons_eq {A} (x y : A) l k : x = y -> l = k -> x :: l = y :: k.
Proof. congruence. Qed.

(** Compares byte strings bit by bit, [Hf] giving the bits of the value. *)
Ltac byte_bits Hf :=
  rewrite !be_bytes_byte_at; simpl; repeat apply cons_eq; try reflexivity;
  apply Z.bits_inj'; intros j Hj; rewrite !byte_at_testbit by lia;
  (destruct (Z.ltb_spec j 8); [|done]); simpl andb;
  (assert (j = 0 \/ j = 1 \/ j = 2 \/ j = 3 \/ j = 4 \/ j = 5 \/ j = 6 \/ j = 7) as Hj8 by lia);
  unfold NEOIP_BSWAP16, NEOIP_BSWAP32, NEOIP_BSWAP64;
  destruct Hj8 as [-> | [-> | [-> | [-> | [-> | [-> | [-> | ->]]]]]]];
  autorewrite with bswap_bits; rewrite !Hf; clear Hf; vm_compute;
  repeat match goal with |- context [?f ?k] => destruct (f k) end; reflexivity.

Lemma bswap16_swaps v : in_range 16 v -> rev (be_bytes 2 (NEOIP_BSWAP16 v)) = be_bytes 2 v.
Proof. intros [f Hf]%testbit_fun. byte_bits Hf. Qed.

Lemma bswap32_swaps v : in_range 32 v -> rev (be_bytes 4 (NEOIP_BSWAP32 v)) = be_bytes 4 v.
Proof. intros [f Hf]%testbit_fun. byte_bits Hf. Qed.

Lemma bswap64_swaps v : in_range 64 v -> rev (be_bytes 8 (NEOIP_BSWAP64 v)) = be_bytes 8 v.
Proof. intros [f Hf]%testbit_fun. byte_bits Hf. Qed.

(* ------------------------------------------------------------------ *)
(** * Reading from the head *)
(* ------------------------------------------------------------------ *)

Lemma init_bytes_Some l : init_bytes (Some <$> l) = Ok l.
Proof.
  unfold init_bytes. assert (mapM (id : cell -> cell) (Some <$> l) = Some l) as H; [|by rewrite H].
  apply mapM_Some, Forall2_fmap_l, Forall_Forall2_diag. by apply Forall_true.
Qed.

(** Reading and freeing [n] bytes that are there. *)
Lemma read_head_bytes n s l :
  wf s -> contents s = Some <$> l -> (n <= length l)%nat ->
  (let* d := mem_read (full_data s) (used_off s) n in init_bytes d) = Ok (take n l) /\
  exists s', head_free n s = Ok s' /\ wf s' /\ contents s' = Some <$> drop n l.
Proof.
  intros Hwf Hc Hn. pose proof (contents_length s Hwf) as Hlen. rewrite Hc, length_fmap in Hlen.
  pose proof Hwf as (H1 & H2 & _)%wf_iff. split.
  - rewrite mem_read_ok by (unfold full_length in *; lia). simpl.
    replace (zone _ _ n) with (take n (drop 0 (contents s))).
    + rewrite Hc, drop_0, <- fmap_take. apply init_bytes_Some.
    + unfold contents. rewrite zone_sub by lia. f_equal. lia.
  - pose proof (head_free_spec n s Hwf) as Hsp. rewrite bool_decide_eq_true_2 in Hsp by lia.
    destruct Hsp as (s' & ? & ? & Hc' & _). exists s'. by rewrite Hc', Hc, fmap_drop.
Qed.

Lemma get_head_spec n msg s l :
  wf s -> contents s = Some <$> l ->
  match wire_get_head n msg l with
  | Ok (bs, rest) =>
      exists s', get_head n msg s = Ok (bs, s') /\ wf s' /\ contents s' = Some <$> rest
  | Throw e => get_head n msg s = Throw e
  | AssertFail | Fault => False
  end.
Proof.
  intros Hwf Hc. pose proof (contents_length s Hwf) as Hlen. rewrite Hc, length_fmap in Hlen.
  unfold wire_get_head, get_head, used_length. rewrite Hlen. case_bool_decide; [done|].
  destruct (read_head_bytes n s l Hwf Hc) as [Hrd (s' & Hfr & ? & ?)]; [lia|].
  exists s'. split; [|done].
  destruct (mem_read _ _ _) as [d| | |]; simpl in *; try done. rewrite Hrd; simpl. by rewrite Hfr.
Qed.

Lemma wire_get_head_app n msg l rest :
  length l = n -> wire_get_head n msg (l ++ rest) = Ok (l, rest).
Proof.
  intros <-. unfold wire_get_head. rewrite length_app, bool_decide_eq_false_2 by lia.
  by rewrite take_app_length, drop_app_length.
Qed.

Lemma wire_get_head_valid n msg l bs rest :
  bytes_ok l -> wire_get_head n msg l = Ok (bs, rest) ->
  bytes_ok bs /\ bytes_ok rest /\ length bs = n /\ l = bs ++ rest.
Proof.
  unfold wire_get_head. intros Hl. case_bool_decide; [done|]. intros [= <- <-].
  split; [by apply Forall_take|]. split; [by apply Forall_drop|].
  split; [rewrite length_take; lia|]. by rewrite take_drop.
Qed.

(* ------------------------------------------------------------------ *)
(** * Integers *)
(* ------------------------------------------------------------------ *)

Section uint.
Context (n : nat) (w : Z) (bsw : Z -> Z) (msg : string).
Hypothesis Hw : w = 8 * Z.of_nat n.
Hypothesis bsw_range : forall v, in_range w v -> in_range w (bsw v).
Hypothesis bsw_swaps : forall v, in_range w v -> rev (be_bytes n (bsw v)) = be_bytes n v.

Lemma be_value_range l : bytes_ok l -> length l = n -> in_range w (be_value l).
Proof.
  intros Hl Hn. unfold in_range. rewrite Hw, Z.pow_mul_r by lia. change (2 ^ 8) with 256.
  rewrite <- Hn. by apply be_value_bound.
Qed.

Lemma bsw_host_value bs : bytes_ok bs -> length bs = n -> bsw (host_value bs) = be_value bs.
Proof.
  intros Hok Hlen. unfold host_value.
  assert (Hrev : bytes_ok (rev bs)) by by apply Forall_rev.
  assert (Hr : in_range w (be_value (rev bs))) by (apply be_value_range; [done|by rewrite length_rev]).
  rewrite <- (be_value_bytes_small n (bsw (be_value (rev bs)))) by (rewrite <- Hw; auto).
  f_equal. rewrite <- (rev_involutive (be_bytes n _)), bsw_swaps by done.
  replace n with (length (rev bs)) by by rewrite length_rev.
  rewrite be_bytes_value by done. apply rev_involutive.
Qed.

Lemma uint_codec_laws : CodecLaws (uint_codec n w bsw msg).
Proof.
  split; cbn [codec_ok wire_put wire_get put get uint_codec].
  - intros a _. apply be_bytes_ok.
  - intros a rest Ha. unfold wire_uint. rewrite wire_get_head_app by apply be_bytes_length.
    simpl. rewrite be_value_bytes_small by by rewrite <- Hw. done.
  - intros l a rest Hl. unfold wire_uint.
    destruct (wire_get_head n msg l) as [[bs r]| | |] eqn:E; try done. simpl. intros [= <- <-].
    apply wire_get_head_valid in E as (? & ? & ? & _); [|done]. split; [|done].
    by apply be_value_range.
  - intros a s Ha Hwf. destruct (tail_add_spec (host_bytes n (bsw a)) s Hwf) as (s' & ? & ? & Hc & _).
    exists s'. split; [done|]. split; [done|]. rewrite Hc. unfold host_bytes. by rewrite bsw_swaps.
  - intros l s Hwf Hl Hc. unfold get_refines; cbn [wire_get get uint_codec]. unfold wire_uint.
    pose proof (get_head_spec n msg s l Hwf Hc) as Hg.
    destruct (wire_get_head n msg l) as [[bs r]|e| |] eqn:E; simpl; try done.
    + apply wire_get_head_valid in E as (? & ? & ? & _); [|done].
      destruct Hg as (s' & -> & ? & ?). simpl. exists s'. by rewrite bsw_host_value.
    + by rewrite Hg.
Qed.
End uint.

#[export] Instance u8_laws : CodecLaws u8_codec.
Proof. apply (uint_codec_laws 1 8 (fun v => v)); [done|done|]. intros v _. done. Qed.
#[export] Instance u16_laws : CodecLaws u16_codec.
Proof.
  apply (uint_codec_laws 2 16 NEOIP_BSWAP16); [done| |exact bswap16_swaps].
  intros v _. by apply wrap_range.
Qed.
#[export] Instance u32_laws : CodecLaws u32_codec.
Proof.
  apply (uint_codec_laws 4 32 NEOIP_BSWAP32); [done| |exact bswap32_swaps].
  intros v _. by apply wrap_range.
Qed.
#[export] Instance u64_laws : CodecLaws u64_codec.
Proof.
  apply (uint_codec_laws 8 64 NEOIP_BSWAP64); [done| |exact bswap64_swaps].
  intros v _. by apply wrap_range.
Qed.

#[export] Instance bool_laws : CodecLaws bool_codec.
Proof.
  split; cbn [codec_ok wire_put wire_get put get bool_codec].
  - intros b _. destruct b; by repeat constructor.
  - intros b rest _. rewrite (wire_get_head_app 1 _ [_]) by done. by destruct b.
  - intros l a rest Hl. destruct (wire_get_head _ _ _) as [[bs r]| | |] eqn:E; try done.
    simpl. intros [= <- <-]. by apply wire_get_head_valid in E as (? & ? & ? & _).
  - intros b s _ Hwf. destruct (tail_add_spec (host_bytes 1 (if b then 1 else 0)) s Hwf)
      as (s' & ? & ? & Hc & _). exists s'. split; [done|]. split; [done|]. rewrite Hc. by destruct b.
  - intros l s Hwf Hl Hc. unfold get_refines; cbn [wire_get get bool_codec]. unfold get_bool.
    pose proof (get_head_spec 1 "bool Payload Too Short" s l Hwf Hc) as Hg.
    destruct (wire_get_head _ _ _) as [[bs r]|e| |] eqn:E; simpl; try done.
    + apply wire_get_head_valid in E as (? & ? & Hlen & _); [|done].
      destruct Hg as (s' & -> & ? & ?). simpl. exists s'. split; [|done].
      destruct bs as [|b [|]]; try done.
    + by rewrite Hg.
Qed.

#[export] Instance pair_laws {A B} (ca : codec A) (cb : codec B)
  `{!CodecLaws ca, !CodecLaws cb} : CodecLaws (pair_codec ca cb).
Proof.
  split; cbn [codec_ok wire_put wire_get put get pair_codec].
  - intros [a b] [??]. apply Forall_app; split; by apply wire_put_bytes.
  - intros [a b] rest [??]. simpl in *. rewrite <- app_assoc, wire_get_put by done. simpl.
    by rewrite wire_get_put.
  - intros l [a b] rest Hl. destruct (wire_get ca l) as [[a' l1]| | |] eqn:Ea; try done. simpl.
    destruct (wire_get cb l1) as [[b' l2]| | |] eqn:Eb; try done. simpl. intros [= <- <- <-].
    apply (wire_get_valid (c := ca)) in Ea as [??]; [|done].
    apply (wire_get_valid (c := cb)) in Eb as [??]; done.
  - intros [a b] s [Ha Hb] Hwf. simpl in *.
    destruct (put_spec (c := ca) a s Ha Hwf) as (s1 & -> & Hwf1 & Hc1). simpl.
    destruct (put_spec (c := cb) b s1 Hb Hwf1) as (s2 & -> & Hwf2 & Hc2).
    exists s2. split; [done|]. split; [done|]. by rewrite Hc2, Hc1, fmap_app, app_assoc.
  - intros l s Hwf Hl Hc. unfold get_refines; cbn [wire_get get pair_codec].
    pose proof (get_spec (c := ca) l s Hwf Hl Hc) as Ha. unfold get_refines in Ha.
    destruct (wire_get ca l) as [[a l1]|e| |] eqn:Ea; simpl; try done; [|by rewrite Ha].
    destruct Ha as (s1 & -> & Hwf1 & Hc1). simpl.
    apply (wire_get_valid (c := ca)) in Ea as [_ Hl1]; [|done].
    pose proof (get_spec (c := cb) l1 s1 Hwf1 Hl1 Hc1) as Hb. unfold get_refines in Hb.
    destruct (wire_get cb l1) as [[b l2]|e| |]; simpl; try done; [|by rewrite Hb].
    destruct Hb as (s2 & -> & ? & ?). simpl. eauto.
Qed.

(* ------------------------------------------------------------------ *)
(** * Strings and datums: proofs *)
(* ------------------------------------------------------------------ *)

Section blob.
Context (msg : string).

Lemma blob_laws : CodecLaws (blob_codec msg).
Proof.
  split; cbn [codec_ok wire_put wire_get put get blob_codec].
  - intros d [Hd _]. apply Forall_app. split; [apply be_bytes_ok|done].
  - intros d rest [Hd Hlen]. unfold wire_blob, wire_put_blob. rewrite <- app_assoc.
    change (be_bytes 4) with (wire_put u32_codec). rewrite wire_get_put by (split; [lia|done]).
    simpl. rewrite length_app, bool_decide_eq_false_2 by lia.
    by rewrite Nat2Z.id, take_app_length, drop_app_length.
  - intros l d rest Hl. unfold wire_blob.
    destruct (wire_get u32_codec l) as [[len l1]| | |] eqn:E; try done. simpl.
    apply wire_get_valid in E as [[Hlen1 Hlen2] Hl1]; [|done].
    case_bool_decide; [done|]. intros [= <- <-].
    split; [|by apply Forall_drop]. split; [by apply Forall_take|].
    rewrite length_take. change (2 ^ 32) with 4294967296 in *. lia.
  - intros d s [Hd Hlen] Hwf. unfold put_string. rewrite wrap_small by (split; [lia|done]).
    change put_u32 with (put u32_codec).
    destruct (put_spec (c := u32_codec) (Z.of_nat (length d)) s) as (s1 & -> & Hwf1 & Hc1);
      [split; [lia|done]|done|]. simpl.
    destruct (tail_add_spec d s1 Hwf1) as (s2 & -> & Hwf2 & Hc2 & _).
    exists s2. split; [done|]. split; [done|].
    by rewrite Hc2, Hc1, <- app_assoc, <- fmap_app.
  - intros l s Hwf Hl Hc. unfold get_refines; cbn [wire_get get blob_codec].
    unfold wire_blob, get_blob.
    pose proof (get_spec (c := u32_codec) l s Hwf Hl Hc) as Hg. unfold get_refines in Hg.
    change (get u32_codec s) with (get_u32 s) in Hg.
    destruct (wire_get u32_codec l) as [[len l1]|e| |] eqn:E; simpl; try done; [|by rewrite Hg].
    apply wire_get_valid in E as [[Hlen1 _] _]; [|done].
    destruct Hg as (s1 & -> & Hwf1 & Hc1). simpl.
    pose proof (contents_length s1 Hwf1) as Hlen. rewrite Hc1, length_fmap in Hlen.
    unfold used_length. rewrite <- Hlen. case_bool_decide; [done|].
    destruct (read_head_bytes (Z.to_nat len) s1 l1 Hwf1 Hc1) as [Hrd (s2 & Hfr & ? & ?)]; [lia|].
    exists s2. split; [|done].
    destruct (mem_read _ _ _) as [cs| | |]; simpl in *; try done. rewrite Hrd; simpl. by rewrite Hfr.
Qed.
End blob.

#[export] Instance string_laws : CodecLaws string_codec := blob_laws _.
#[export] Instance datum_laws : CodecLaws datum_codec := blob_laws _.

(* ------------------------------------------------------------------ *)
(** * The order of datums: proofs *)
(* ------------------------------------------------------------------ *)

Lemma memcmp_eq a b : length a = length b -> memcmp a b = 0 <-> a = b.
Proof.
  revert b. induction a as [|x a IH]; intros [|y b] Hlen; simpl in *; try done.
  repeat split_if; try (split; [done|intros [= -> ->]; lia]).
  rewrite IH by lia. assert (x = y) by lia. split; [congruence|by intros [= _ ->]].
Qed.

Lemma memcmp_antisym a b : memcmp b a = - memcmp a b.
Proof.
  revert b. induction a as [|x a IH]; intros [|y b]; simpl; try done.
  repeat split_if; try done; lia.
Qed.

Lemma memcmp_trans a b c :
  length a = length b -> length b = length c ->
  memcmp a b <= 0 -> memcmp b c <= 0 -> memcmp a c <= 0.
Proof.
  revert b c. induction a as [|x a IH]; intros [|y b] [|z c] H1 H2; simpl in *; try done.
  repeat split_if; try lia. intros. apply (IH b c); lia.
Qed.

(** The order in terms of lengths and [memcmp]. *)
Lemma datum_compare_eq a b :
  datum_compare a b =
    if bool_decide (length a < length b)%nat then -1
    else if bool_decide (length b < length a)%nat then 1 else memcmp a b.
Proof.
  unfold datum_compare, datum_is_null.
  destruct a as [|x a], b as [|y b]; simpl; try done;
    by repeat (rewrite bool_decide_eq_true_2 by lia || rewrite bool_decide_eq_false_2 by lia).
Qed.

Lemma datum_compare_antisym a b : datum_compare b a = - datum_compare a b.
Proof.
  rewrite !datum_compare_eq, memcmp_antisym.
  repeat case_bool_decide; try done; lia.
Qed.

Lemma datum_compare_zero a b : datum_compare a b = 0 <-> a = b.
Proof.
  rewrite datum_compare_eq. repeat case_bool_decide; try (split; [done|intros ->; lia]).
  apply memcmp_eq. lia.
Qed.

Lemma datum_compare_trans a b c :
  datum_compare a b <= 0 -> datum_compare b c <= 0 -> datum_compare a c <= 0.
Proof.
  rewrite !datum_compare_eq. repeat case_bool_decide; try lia.
  apply memcmp_trans; lia.
Qed.

(* ------------------------------------------------------------------ *)
(** * Properties *)
(* ------------------------------------------------------------------ *)

(** All the basic types in one message. *)
Lemma message_laws : CodecLaws
  (pair_codec bool_codec (pair_codec u8_codec (pair_codec u16_codec (pair_codec u32_codec
    (pair_codec u64_codec (pair_codec string_codec datum_codec)))))).
Proof. apply _. Qed.

(** C33. Round trip on the real buffer: any values of the basic types, strings
    and datums serialized one after the other into a well-formed buffer whose
    used zone is empty are read back by the matching [operator >>] calls, which
    leave the buffer empty; byte swaps, reallocations and length prefixes
    included. *)
Theorem basic_types_roundtrip (b : bool) (x8 x16 x32 x64 : Z) (str dat : list Z) (s : serial_t)
    (H8 : in_range 8 x8) (H16 : in_range 16 x16) (H32 : in_range 32 x32)
    (H64 : in_range 64 x64) (Hstr : blob_ok str) (Hdat : blob_ok dat)
    (Hwf : wf s) (Hempty : contents s = []) :
  exists s1 s2,
    (let* s1 := put_bool b s in let* s1 := put_u8 x8 s1 in let* s1 := put_u16 x16 s1 in
     let* s1 := put_u32 x32 s1 in let* s1 := put_u64 x64 s1 in
     let* s1 := put_string str s1 in put_datum dat s1) = Ok s1 /\
    (let* (b', s2) := get_bool s1 in let* (y8, s2) := get_u8 s2 in
     let* (y16, s2) := get_u16 s2 in let* (y32, s2) := get_u32 s2 in
     let* (y64, s2) := get_u64 s2 in let* (str', s2) := get_string s2 in
     let* (dat', s2) := get_datum s2 in
     Ok (b', y8, y16, y32, y64, str', dat', s2)) = Ok (b, x8, x16, x32, x64, str, dat, s2) /\
    is_empty s2 = true.
Proof.
  set (v := (b, (x8, (x16, (x32, (x64, (str, dat))))))).
  destruct message_laws as [Hbytes Hrt _ Hput Hget].
  set (c := pair_codec _ _) in *.
  assert (Hv : codec_ok c v) by (unfold c, v; simpl; tauto).
  destruct (Hput v s Hv Hwf) as (s1 & Hp & Hwf1 & Hc1).
  rewrite Hempty in Hc1. simpl in Hc1.
  pose proof (Hget _ s1 Hwf1 (Hbytes v Hv) Hc1) as Hg. unfold get_refines in Hg.
  rewrite <- (app_nil_r (wire_put c v)), Hrt in Hg by done.
  destruct Hg as (s2 & Hg & Hwf2 & Hc2). exists s1, s2. split; [exact Hp|]. split.
  - change (get c s1) with
      (let* (b', s2) := get_bool s1 in
       let* (r, s2) := (let* (y8, s2) := get_u8 s2 in
        let* (r, s2) := (let* (y16, s2) := get_u16 s2 in
         let* (r, s2) := (let* (y32, s2) := get_u32 s2 in
          let* (r, s2) := (let* (y64, s2) := get_u64 s2 in
           let* (r, s2) := (let* (str', s2) := get_string s2 in
            let* (dat', s2) := get_datum s2 in Ok ((str', dat'), s2)) in
           Ok ((y64, r), s2)) in Ok ((y32, r), s2)) in Ok ((y16, r), s2)) in
         Ok ((y8, r), s2)) in Ok ((b', r), s2)) in Hg.
    destruct (get_bool s1) as [[? ?]| | |]; simpl in *; try done.
    destruct (get_u8 _) as [[? ?]| | |]; simpl in *; try done.
    destruct (get_u16 _) as [[? ?]| | |]; simpl in *; try done.
    destruct (get_u32 _) as [[? ?]| | |]; simpl in *; try done.
    destruct (get_u64 _) as [[? ?]| | |]; simpl in *; try done.
    destruct (get_string _) as [[? ?]| | |]; simpl in *; try done.
    destruct (get_datum _) as [[? ?]| | |]; simpl in *; try done. unfold v in Hg. by injection Hg as -> -> -> -> -> -> -> ->.
  - apply contents_length in Hwf2. rewrite Hc2 in Hwf2. simpl in Hwf2.
    unfold is_empty, used_length. by rewrite <- Hwf2.
Qed.

(** Decoding a datum from untrusted bytes is total: it returns the announced
    bytes and leaves the following ones when they are all there, throws when
    the length prefix or the bytes it announces are missing, and never reads
    outside the buffer. *)
Theorem get_datum_total (l : list Z) (s : serial_t)
    (Hwf : wf s) (Hl : bytes_ok l) (Hc : contents s = Some <$> l) :
  if bool_decide (length l < 4)%nat then get_datum s = Throw "uint32_t Payload Too Short"
  else if bool_decide (Z.of_nat (length l) < 4 + be_value (take 4 l))
  then get_datum s = Throw "datum_t Payload Too Short"
  else exists s', get_datum s = Ok (take (Z.to_nat (be_value (take 4 l))) (drop 4 l), s') /\
    contents s' = Some <$> drop (Z.to_nat (4 + be_value (take 4 l))) l.
Proof.
  pose proof (get_spec (c := datum_codec) l s Hwf Hl Hc) as Hg.
  unfold get_refines in Hg. simpl wire_get in Hg. simpl get in Hg.
  unfold wire_blob in Hg. simpl wire_get in Hg. unfold wire_uint, wire_get_head in Hg.
  case_bool_decide; [exact Hg|]. cbn [mbind outcome_bind] in Hg.
  rewrite length_drop in Hg.
  assert (Hb : 0 <= be_value (take 4 l)) by (apply be_value_bound; by apply Forall_take).
  rewrite (bool_decide_ext _ (Z.of_nat (length l) < 4 + be_value (take 4 l))) in Hg by lia.
  case_bool_decide; [exact Hg|].
  destruct Hg as (s' & ? & _ & Hc'). exists s'. split; [done|].
  rewrite Hc', drop_drop. do 2 f_equal. lia.
Qed.

(** [datum_t::compare] is a total order and the relational operators are
    its strict and wide parts reversed: [a < b] holds exactly when [b] compares
    below [a].  They still form a strict total order, so containers keyed by
    datums are consistent, but sorted from the largest to the smallest. *)
Theorem datum_order_reversed (a b c : list Z) :
  (datum_lt a b = true <-> datum_compare b a < 0) /\
  datum_lt a a = false /\
  (datum_lt a b = true -> datum_lt b c = true -> datum_lt a c = true) /\
  (datum_lt a b = true \/ a = b \/ datum_lt b a = true) /\
  datum_gt a b = datum_lt b a /\ datum_le a b = negb (datum_lt b a) /\
  datum_ge a b = datum_le b a /\ (datum_eq a b = true <-> a = b).
Proof.
  unfold datum_lt, datum_gt, datum_le, datum_ge, datum_eq.
  rewrite !Z.gtb_ltb, !Z.geb_leb, (datum_compare_antisym a b).
  assert (datum_compare a a = 0) as -> by by apply datum_compare_zero.
  pose proof (datum_compare_zero a b) as Hz.
  assert (datum_compare a b > 0 -> datum_compare b c > 0 -> datum_compare a c > 0).
  { intros Hab Hbc. pose proof (datum_compare_trans c b a) as Ht.
    rewrite (datum_compare_antisym b c), (datum_compare_antisym a b),
      (datum_compare_antisym a c) in Ht.
    destruct (decide (datum_compare a c = 0)) as [->%datum_compare_zero|]; [|lia].
    rewrite (datum_compare_antisym b c) in Hab. lia. }
  rewrite <- Hz, Z.eqb_eq, !Z.ltb_lt.
  split_and!; lia.
Qed.

(* ------------------------------------------------------------------ *)
(** * The properties at concrete inputs *)
(* ------------------------------------------------------------------ *)

Lemma basic_types_roundtrip_witness :
  exists s1 s2,
    (let* s1 := put_bool true serial_null in let* s1 := put_u8 7 s1 in
     let* s1 := put_u16 513 s1 in
     let* s1 := put_u32 67305985 s1 in let* s1 := put_u64 578437695752307201 s1 in
     let* s1 := put_string [104; 105] s1 in put_datum [0; 255] s1) = Ok s1 /\
    (let* (b', s2) := get_bool s1 in let* (y8, s2) := get_u8 s2 in
     let* (y16, s2) := get_u16 s2 in let* (y32, s2) := get_u32 s2 in
     let* (y64, s2) := get_u64 s2 in let* (str', s2) := get_string s2 in
     let* (dat', s2) := get_datum s2 in
     Ok (b', y8, y16, y32, y64, str', dat', s2)) =
    Ok (true, 7, 513, 67305985, 578437695752307201, [104; 105], [0; 255], s2) /\
    is_empty s2 = true.
Proof.
  apply (basic_types_roundtrip true 7 513 67305985 578437695752307201 [104; 105] [0; 255]).
  1-4: by vm_compute.
  1-2: by split; [repeat constructor|].
  - exact wf_null.
  - reflexivity.
Defined.

(** A buffer holding a datum of two bytes followed by one byte. *)
Lemma wf_message : wf (Serial (Some <$> [0; 0; 0; 2; 9; 8; 5]) 0 7 256).
Proof. split; [reflexivity|]. simpl. lia. Qed.

Lemma get_datum_total_witness :
  exists s', get_datum (Serial (Some <$> [0; 0; 0; 2; 9; 8; 5]) 0 7 256) = Ok ([9; 8], s') /\
    contents s' = [Some 5].
Proof.
  refine (get_datum_total [0; 0; 0; 2; 9; 8; 5] _ wf_message _ eq_refl).
  repeat constructor; vm_compute; congruence.
Defined.
