(* ===== verification/PktType.v ===== *)
(** [pkttype_t] and [pkttype_profile_t] (src/src/neoip_base/tools/pkttype/): the
    types of the packets of a protocol.  A class of types is a list of names,
    numbered in the order they are registered; a profile says from which number
    on, how many are reserved, and on how many bits they are sent, so that several
    protocols may share a port. *)
From stdpp Require Import gmap.
From S2P Require Import Prelude Codec.

(* ------------------------------------------------------------------ *)
(** * The profile *)
(* ------------------------------------------------------------------ *)

Inductive serial_type_t := ST_NONE | ST_UINT8 | ST_UINT16 | ST_UINT32 | ST_MAX.
Definition serial_type_value (t : serial_type_t) : Z :=
  match t with ST_NONE => 0 | ST_UINT8 => 1 | ST_UINT16 => 2 | ST_UINT32 => 3 | ST_MAX => 4 end.

(** The two numbers are [size_t]; the default constructor leaves them unset. *)
Record pkttype_profile_t := PkttypeProfile { serial_type : serial_type_t; pt_offset : Z; nb_reserved : Z }.
Definition profile_is_null (p : pkttype_profile_t) : bool := match serial_type p with ST_NONE => true | _ => false end.

Definition profile_compare (p other : pkttype_profile_t) : Z :=
  if profile_is_null p && negb (profile_is_null other) then -1
  else if negb (profile_is_null p) && profile_is_null other then 1
  else if profile_is_null p && profile_is_null other then 0
  else if pt_offset p <? pt_offset other then -1
  else if pt_offset other <? pt_offset p then 1
  else if nb_reserved p <? nb_reserved other then -1
  else if nb_reserved other <? nb_reserved p then 1
  else if serial_type_value (serial_type p) <? serial_type_value (serial_type other) then -1
  else if serial_type_value (serial_type other) <? serial_type_value (serial_type p) then 1
  else 0.

(** [val >= offset() && val < offset() + nb_reserved()]. *)
Definition in_interval (p : pkttype_profile_t) (val : Z) : bool :=
  (pt_offset p <=? val) && (val <? wrap 64 (pt_offset p + nb_reserved p)).

(** The bytes appended, and the value with the bytes left. *)
Definition profile_serialize (p : pkttype_profile_t) (val : Z) : outcome (list Z) :=
  assert! in_interval p val in
  assert! negb (profile_is_null p) in
  match serial_type p with
  | ST_UINT8 => Ok (wire_put u8_codec (wrap 8 val))
  | ST_UINT16 => Ok (wire_put u16_codec (wrap 16 val))
  | ST_UINT32 => Ok (wire_put u32_codec (wrap 32 val))
  | _ => AssertFail
  end.
Definition profile_unserialize (p : pkttype_profile_t) (l : list Z) : outcome (Z * list Z) :=
  assert! negb (profile_is_null p) in
  let* (val, rest) := match serial_type p with
    | ST_UINT8 => wire_get u8_codec l
    | ST_UINT16 => wire_get u16_codec l
    | ST_UINT32 => wire_get u32_codec l
    | _ => AssertFail
    end in
  assert! in_interval p val in
  Ok (val, rest).

(* ------------------------------------------------------------------ *)
(** * The types *)
(* ------------------------------------------------------------------ *)

(** [pkttype_map], from the names to their numbers; [init_pkttype_map] registers
    them in order. *)
Definition pkttype_register (m : gmap string Z) (pkttype_str : string) : outcome (gmap string Z) :=
  let max_val := map_fold (fun _ v max_val => if max_val <? v then v else max_val) 0 m in
  let idx := if bool_decide (m = ∅) then 0 else wrap 64 (max_val + 1) in
  assert! bool_decide (m !! pkttype_str = None) in
  Ok (<[pkttype_str := idx]> m).
Fixpoint register_all (names : list string) (m : gmap string Z) : outcome (gmap string Z) :=
  match names with
  | [] => Ok m
  | n :: names' => let* m1 := pkttype_register m n in register_all names' m1
  end.

Record pkttype_t := Pkttype { pt_profile : pkttype_profile_t; pkttype_idx : Z }.
Definition SIZE_MAX : Z := 2 ^ 64 - 1.
Definition pkttype_ctor (p : pkttype_profile_t) : pkttype_t := Pkttype p SIZE_MAX.
Definition pkttype_is_null (t : pkttype_t) : bool := pkttype_idx t =? SIZE_MAX.

(** The comparisons only look at the number. *)
Definition pkttype_eq (t other : pkttype_t) : bool := pkttype_idx t =? pkttype_idx other.

Section pkttype.
Variable pkttype_map : gmap string Z.

Definition get_pkttype (pkttype_str : string) (t : pkttype_t) : outcome pkttype_t :=
  assert! negb (profile_is_null (pt_profile t)) in
  match pkttype_map !! pkttype_str with
  | Some v => Ok (Pkttype (pt_profile t) (wrap 64 (v + pt_offset (pt_profile t))))
  | None => AssertFail
  end.
Definition pkttype_is (pkttype_str : string) (t : pkttype_t) : outcome bool :=
  let* item := get_pkttype pkttype_str t in Ok (pkttype_eq t item).

Definition pkttype_at (idx : Z) (t : pkttype_t) : outcome pkttype_t :=
  assert! idx <? Z.of_nat (size pkttype_map) in
  Ok (Pkttype (pt_profile t) (wrap 64 (idx + pt_offset (pt_profile t)))).

(** The name with this number: at most one. *)
Definition pkttype_to_string (t : pkttype_t) : outcome string :=
  if pkttype_is_null t then Ok "null"%string
  else
    assert! negb (profile_is_null (pt_profile t)) in
    match List.find (fun p => wrap 64 (pkttype_idx t - pt_offset (pt_profile t)) =? p.2) (map_to_list pkttype_map) with
    | Some p => Ok p.1
    | None => AssertFail
    end.
End pkttype.

Definition put_pkttype (t : pkttype_t) : outcome (list Z) := profile_serialize (pt_profile t) (pkttype_idx t).
Definition get_pkttype_wire (t : pkttype_t) (l : list Z) : outcome (pkttype_t * list Z) :=
  let* (val, rest) := profile_unserialize (pt_profile t) l in
  Ok (Pkttype (pt_profile t) val, rest).

(* ------------------------------------------------------------------ *)
(** * Lemmas *)
(* ------------------------------------------------------------------ *)

(** A profile for [nb] types: they fit in what is reserved, which fits in the
    width. *)
Definition serial_width (t : serial_type_t) : Z := match t with ST_UINT8 => 8 | ST_UINT16 => 16 | ST_UINT32 => 32 | _ => 0 end.
Definition profile_for (nb : Z) (p : pkttype_profile_t) : Prop :=
  match serial_type p with ST_UINT8 | ST_UINT16 | ST_UINT32 => True | _ => False end /\
  0 <= pt_offset p /\ nb <= nb_reserved p /\ pt_offset p + nb_reserved p <= 2 ^ serial_width (serial_type p).

Lemma serial_width_bound t : 2 ^ serial_width t <= 2 ^ 32.
Proof. by destruct t. Qed.

Lemma in_interval_spec nb p v : 0 <= nb -> profile_for nb p -> in_interval p v = true <-> pt_offset p <= v < pt_offset p + nb_reserved p.
Proof.
  intros Hnb (_ & Ho & Hr & Hw). unfold in_interval. pose proof (serial_width_bound (serial_type p)).
  rewrite wrap_small by (unfold in_range; lia). rewrite andb_true_iff, Z.leb_le, Z.ltb_lt. done.
Qed.

Lemma profile_put_get nb p v rest : 0 <= nb -> profile_for nb p -> pt_offset p <= v < pt_offset p + nb_reserved p ->
  exists bs, profile_serialize p v = Ok bs /\ profile_unserialize p (bs ++ rest) = Ok (v, rest) /\
    length bs = Z.to_nat (serial_width (serial_type p) / 8) /\ bytes_ok bs.
Proof.
  intros Hnb Hp Hv. pose proof (proj2 (in_interval_spec nb p v Hnb Hp) Hv) as Hin. destruct Hp as (Ht & Ho & Hr & Hw).
  unfold profile_serialize, profile_unserialize, profile_is_null. rewrite Hin. cbn [dbg_assert].
  destruct (serial_type p); try done; cbn [negb dbg_assert serial_width] in *.
  - rewrite wrap_small by (unfold in_range; lia). eexists. split; [done|]. rewrite wire_get_put by (cbn; unfold in_range; lia).
    cbn [mbind outcome_bind]. rewrite Hin. split; [done|]. split; [done|]. apply (wire_put_bytes (c := u8_codec)). cbn. unfold in_range. lia.
  - rewrite wrap_small by (unfold in_range; lia). eexists. split; [done|]. rewrite wire_get_put by (cbn; unfold in_range; lia).
    cbn [mbind outcome_bind]. rewrite Hin. split; [done|]. split; [done|]. apply (wire_put_bytes (c := u16_codec)). cbn. unfold in_range. lia.
  - rewrite wrap_small by (unfold in_range; lia). eexists. split; [done|]. rewrite wire_get_put by (cbn; unfold in_range; lia).
    cbn [mbind outcome_bind]. rewrite Hin. split; [done|]. split; [done|]. apply (wire_put_bytes (c := u32_codec)). cbn. unfold in_range. lia.
Qed.

(** The numbers of the names, in order. *)
Definition numbered (names : list string) (m : gmap string Z) : Prop :=
  forall s v, m !! s = Some v <-> exists i, names !! i = Some s /\ v = Z.of_nat i.

Lemma fold_max (m : gmap string Z) :
  let r := map_fold (fun _ v max_val => if max_val <? v then v else max_val) 0 m in
  0 <= r /\ (forall s v, m !! s = Some v -> v <= r) /\ (r = 0 \/ exists s, m !! s = Some r).
Proof.
  apply (map_fold_weak_ind (fun r m => 0 <= r /\ (forall s v, m !! s = Some v -> v <= r) /\ (r = 0 \/ exists s, m !! s = Some r))).
  - split; [done|]. split; [intros s v Hv; by rewrite lookup_empty in Hv|by left].
  - intros s v m' r Hs (Hr & Hle & Hw). destruct (Z.ltb_spec r v).
    + split; [lia|]. split; [|right; exists s; apply lookup_insert_eq].
      intros s' v' [[-> ->]|[_ Hv]]%lookup_insert_Some; [lia|]. specialize (Hle s' v' Hv). lia.
    + split; [lia|]. split; [|].
      * intros s' v' [[-> ->]|[_ Hv]]%lookup_insert_Some; [lia|]. by apply Hle in Hv.
      * destruct Hw as [->|[s' Hs']]; [by left|right]. exists s'. rewrite lookup_insert_ne; [done|]. congruence.
Qed.

Lemma max_numbered names m k : numbered names m -> k = Z.of_nat (length names) - 1 -> 0 <= k ->
  map_fold (fun _ v max_val => if max_val <? v then v else max_val) 0 m = k.
Proof.
  intros Hm -> Hk. destruct (fold_max m) as (H0 & Hle & Hw). set (r := map_fold _ _ _) in *.
  destruct (lookup_lt_is_Some_2 names (length names - 1)) as [s Hs]; [lia|].
  assert (H1 : Z.of_nat (length names) - 1 <= r) by (apply (Hle s), Hm; exists (length names - 1)%nat; split; [done|lia]).
  destruct Hw as [->|[s' (i & Hi & ->)%Hm]]; [lia|]. apply lookup_lt_Some in Hi. lia.
Qed.

Lemma register_spec names m s :
  numbered names m -> s ∉ names -> Z.of_nat (length names) < 2 ^ 63 ->
  exists m', pkttype_register m s = Ok m' /\ numbered (names ++ [s]) m'.
Proof.
  intros Hm Hs Hlen. unfold pkttype_register.
  assert (Hnone : m !! s = None).
  { destruct (m !! s) as [v|] eqn:E; [|done]. apply Hm in E as (i & Hi & _). destruct Hs. by apply list_elem_of_lookup_2 in Hi. }
  rewrite bool_decide_eq_true_2 by done. cbn [dbg_assert]. eexists. split; [done|].
  set (idx := if bool_decide (m = ∅) then 0 else _).
  assert (Hidx : idx = Z.of_nat (length names)).
  { subst idx. destruct names as [|n names'].
    - rewrite bool_decide_eq_true_2; [done|]. apply map_empty. intros i. destruct (m !! i) as [v|] eqn:E; [|done].
      by apply Hm in E as (j & Hj & _).
    - assert (H0 : m !! n = Some 0) by (apply Hm; by exists 0%nat).
      rewrite bool_decide_eq_false_2 by (intros ->; by rewrite lookup_empty in H0). rewrite (max_numbered (n :: names') m (Z.of_nat (length names'))) by (done || cbn [length]; lia).
      rewrite wrap_small by (unfold in_range; cbn [length] in *; lia). cbn [length]. lia. }
  intros s' v. rewrite lookup_insert_Some, Hidx. pose proof (Hm s' v) as Hsv. rewrite Hsv. split.
  - intros [[<- <-]|(Hne & i & Hi & ->)].
    + exists (length names). split; [|done]. by rewrite lookup_app_r, Nat.sub_diag by lia.
    + exists i. split; [|done]. by apply lookup_app_l_Some.
  - intros (i & Hi & ->). apply lookup_app_Some in Hi as [Hi|[Hle Hi]].
    + right. split; [|by exists i]. intros ->. destruct Hs. by apply list_elem_of_lookup_2 in Hi.
    + apply list_lookup_singleton_Some in Hi as [Hi ->]. left. split; [done|]. f_equal. lia.
Qed.

Lemma register_all_spec names done_ m :
  numbered done_ m -> NoDup (done_ ++ names) -> Z.of_nat (length (done_ ++ names)) < 2 ^ 63 ->
  exists m', register_all names m = Ok m' /\ numbered (done_ ++ names) m'.
Proof.
  revert done_ m. induction names as [|n names IH]; intros done_ m Hm Hnd Hlen; cbn [register_all].
  - exists m. by rewrite app_nil_r.
  - rewrite (cons_middle n done_ names), app_assoc in Hnd, Hlen |- *.
    destruct (register_spec done_ m n Hm) as (m1 & -> & Hm1).
    + intros Hin. apply NoDup_app in Hnd as (Hnd & _ & _). apply NoDup_app in Hnd as (_ & Hd & _). apply (Hd n Hin). by left.
    + rewrite !length_app in Hlen. lia.
    + cbn [mbind outcome_bind]. by apply IH.
Qed.

Lemma numbered_nil : numbered [] ∅.
Proof. intros s v. rewrite lookup_empty. split; [done|]. by intros (i & [=] & _). Qed.

(** The map of a class whose names differ. *)
Lemma init_map_spec names :
  NoDup names -> Z.of_nat (length names) < 2 ^ 63 -> exists m, register_all names ∅ = Ok m /\ numbered names m.
Proof. intros Hnd Hlen. by apply (register_all_spec names [] ∅ numbered_nil). Qed.

Section lemmas.
Context (names : list string) (m : gmap string Z) (p : pkttype_profile_t).
Context (Hm : numbered names m) (Hnd : NoDup names) (Hp : profile_for (Z.of_nat (length names)) p).

Lemma offset_bounds i : (i < length names)%nat ->
  pt_offset p <= pt_offset p + Z.of_nat i < pt_offset p + nb_reserved p /\ in_range 64 (pt_offset p + Z.of_nat i) /\
  pt_offset p + Z.of_nat i < SIZE_MAX.
Proof using Hp.
  intros Hi. destruct Hp as (_ & Ho & Hr & Hw). pose proof (serial_width_bound (serial_type p)). unfold in_range, SIZE_MAX. lia.
Qed.

Lemma profile_not_null : profile_is_null p = false.
Proof using Hp. destruct Hp as (Ht & _). unfold profile_is_null. by destruct (serial_type p). Qed.

Lemma get_pkttype_spec i s t : names !! i = Some s -> pt_profile t = p ->
  get_pkttype m s t = Ok (Pkttype p (pt_offset p + Z.of_nat i)).
Proof using Hm Hp.
  intros Hi Ht. unfold get_pkttype. rewrite Ht, profile_not_null. cbn [negb dbg_assert].
  rewrite (proj2 (Hm s (Z.of_nat i))) by (by exists i). destruct (offset_bounds i) as (_ & Hr & _); [by eapply lookup_lt_Some|].
  by rewrite Z.add_comm, wrap_small.
Qed.

Lemma pkttype_is_spec i j s t : names !! i = Some s -> pt_profile t = p -> pkttype_idx t = pt_offset p + Z.of_nat j ->
  pkttype_is m s t = Ok (bool_decide (i = j)).
Proof using Hm Hp.
  intros Hi Ht Hj. unfold pkttype_is. rewrite (get_pkttype_spec i) by done. cbn [mbind outcome_bind]. unfold pkttype_eq. cbn [pkttype_idx].
  rewrite Hj. f_equal. case_bool_decide; [subst; by apply Z.eqb_refl|apply Z.eqb_neq; lia].
Qed.

Lemma to_string_spec i s : names !! i = Some s -> pkttype_to_string m (Pkttype p (pt_offset p + Z.of_nat i)) = Ok s.
Proof using Hm Hnd Hp.
  intros Hi. destruct (offset_bounds i) as (_ & Hr & Hmax); [by eapply lookup_lt_Some|].
  unfold pkttype_to_string, pkttype_is_null. cbn [pkttype_idx pt_profile].
  rewrite (proj2 (Z.eqb_neq _ _)) by lia. rewrite profile_not_null. cbn [negb dbg_assert].
  replace (pt_offset p + Z.of_nat i - pt_offset p) with (Z.of_nat i) by lia.
  rewrite wrap_small by (unfold in_range in *; destruct Hp; lia).
  destruct (List.find _ _) as [[s' v]|] eqn:E.
  - apply find_some in E as [Hin E]. cbn [snd fst] in *. apply Z.eqb_eq in E. subst v. apply list_elem_of_In, elem_of_map_to_list in Hin.
    apply Hm in Hin as (j & Hj & Eij). assert (i = j) as -> by lia. congruence.
  - assert (Hin : (s, Z.of_nat i) ∈ map_to_list m) by (apply elem_of_map_to_list, Hm; by exists i).
    apply list_elem_of_In in Hin. pose proof (find_none _ _ E _ Hin) as Hf. cbn in Hf. by rewrite Z.eqb_refl in Hf.
Qed.
End lemmas.

(* ------------------------------------------------------------------ *)
(** * Theorems *)
(* ------------------------------------------------------------------ *)

(** Types of packets: once the names of a class are registered, each gives
    its own number from the offset of the profile on; a type that is sent is read
    back as itself from the bytes received, with its name; and what is read from
    any bytes is a number the profile reserves, or an exception if they are too
    short: a number out of the interval stops the program. *)
Theorem pkttype_roundtrip (names : list string) (p : pkttype_profile_t) (Hnd : NoDup names) (Hp : profile_for (Z.of_nat (length names)) p) :
  exists m, register_all names ∅ = Ok m /\
    (forall i s rest, names !! i = Some s ->
       exists t bs, get_pkttype m s (pkttype_ctor p) = Ok t /\ pkttype_idx t = pt_offset p + Z.of_nat i /\ put_pkttype t = Ok bs /\
         get_pkttype_wire (pkttype_ctor p) (bs ++ rest) = Ok (t, rest) /\ pkttype_to_string m t = Ok s /\
         forall j s', names !! j = Some s' -> pkttype_is m s' t = Ok (bool_decide (i = j))) /\
    (forall l t rest, get_pkttype_wire (pkttype_ctor p) l = Ok (t, rest) ->
       pt_profile t = p /\ pt_offset p <= pkttype_idx t < pt_offset p + nb_reserved p) /\
    (forall l v rest, serial_type p = ST_UINT8 -> wire_get u8_codec l = Ok (v, rest) -> ~ (pt_offset p <= v < pt_offset p + nb_reserved p) ->
       get_pkttype_wire (pkttype_ctor p) l = AssertFail).
Proof.
  assert (Hlen : Z.of_nat (length names) < 2 ^ 63).
  { destruct Hp as (_ & ? & ? & ?). pose proof (serial_width_bound (serial_type p)). lia. }
  destruct (init_map_spec names Hnd Hlen) as (m & Em & Hm). exists m. split; [done|]. split; [|split].
  - intros i s rest Hi. destruct (offset_bounds names p Hp i) as (Hb & _); [by eapply lookup_lt_Some|].
    destruct (profile_put_get _ p _ rest (Nat2Z.is_nonneg _) Hp Hb) as (bs & Eput & Eget & _).
    exists (Pkttype p (pt_offset p + Z.of_nat i)), bs. split; [by apply (get_pkttype_spec names m p Hm Hp i)|]. split; [done|]. split; [done|].
    split; [|split].
    + unfold get_pkttype_wire. cbn [pkttype_ctor pt_profile]. by rewrite Eget.
    + by apply (to_string_spec names m p Hm Hnd Hp i).
    + intros j s' Hj. rewrite (pkttype_is_spec names m p Hm Hp j i) by done. f_equal. apply bool_decide_ext. split; congruence.
  - intros l t rest. unfold get_pkttype_wire. cbn [pkttype_ctor pt_profile].
    destruct (profile_unserialize p l) as [[v r]| | |] eqn:E; [|done..]. cbn [mbind outcome_bind]. intros [= <- <-]. split; [done|].
    unfold profile_unserialize in E. rewrite (profile_not_null names p Hp) in E. cbn [negb dbg_assert] in E.
    destruct (match serial_type p with ST_UINT8 => _ | _ => _ end) as [[v' r']| | |]; [|done..]. cbn [mbind outcome_bind] in E.
    destruct (in_interval p v') eqn:Ei; [|done]. injection E as <- <-. by apply (in_interval_spec (Z.of_nat (length names))); [lia|..].
  - intros l v rest Ht Hg Hn. unfold get_pkttype_wire, profile_unserialize. cbn [pkttype_ctor pt_profile].
    rewrite (profile_not_null names p Hp), Ht, Hg. cbn [negb dbg_assert mbind outcome_bind].
    destruct (in_interval p v) eqn:Ei; [|done]. destruct Hn. by apply (in_interval_spec (Z.of_nat (length names))); [lia|..].
Qed.

(* ------------------------------------------------------------------ *)
(** * Witnesses *)
(* ------------------------------------------------------------------ *)

Definition ex_types : list string := ["HELLO"; "DATA"; "BYE"]%string.
Definition ex_pt_profile : pkttype_profile_t := PkttypeProfile ST_UINT8 16 8.

Lemma pkttype_roundtrip_witness :
  exists m t, register_all ex_types ∅ = Ok m /\ get_pkttype m "DATA" (pkttype_ctor ex_pt_profile) = Ok t /\
    put_pkttype t = Ok [17] /\ get_pkttype_wire (pkttype_ctor ex_pt_profile) [17; 5] = Ok (t, [5]) /\
    get_pkttype_wire (pkttype_ctor ex_pt_profile) [24] = AssertFail.
Proof.
  assert (Hnd : NoDup ex_types) by (apply (bool_decide_unpack _); by vm_compute).
  assert (Hp : profile_for (Z.of_nat (length ex_types)) ex_pt_profile) by (split; [exact I|split; [|split]; vm_compute; congruence]).
  destruct (pkttype_roundtrip ex_types ex_pt_profile Hnd Hp) as (m & Em & H1 & _ & H3).
  destruct (H1 1%nat "DATA"%string [5] eq_refl) as (t & bs & Eg & Ei & Ep & Ew & _).
  assert (bs = [17]) as ->.
  { unfold get_pkttype in Eg. destruct (m !! "DATA"%string) as [v|]; [|done]. cbn in Eg. injection Eg as <-. cbn [pkttype_idx] in Ei.
    unfold put_pkttype in Ep. cbn [pkttype_idx pt_profile] in Ep. rewrite Ei in Ep. vm_compute in Ep. by injection Ep as <-. }
  exists m, t. split; [exact Em|]. split; [exact Eg|]. split; [exact Ep|]. split; [exact Ew|].
  apply (H3 [24] 24 []); [reflexivity|by vm_compute|cbn; lia].
Defined.
