(* ===== verification/Wai.v ===== *)
(** Sequence numbers: [wai_t<Ts, Tu>] (src/src/neoip_netutils/wai/neoip_wai.hpp),
    integers compared by the sign of their wrapped difference, and the index
    interface [slidwin_t] and the protocols are written against.

    A value is a [Z] in [[0, 2^w)].  [SeqIndex] is the [T_INDEX] parameter of
    the templates: its operations on values, and the relation [near] under
    which two unbounded positions are ordered like their values.  It has two
    instances, [wai_t] and the plain unsigned integer. *)
From S2P Require Import Prelude Codec.

(* ------------------------------------------------------------------ *)
(** * wai_t *)
(* ------------------------------------------------------------------ *)

Section wai.
Context (w : Z).

(** [(Ts)(value - other.value)]. *)
Definition wai_cmp (a b : Z) : Z := to_signed w (a - b).

Definition wai_eq (a b : Z) : bool := wai_cmp a b =? 0.
Definition wai_ne (a b : Z) : bool := negb (wai_cmp a b =? 0).
Definition wai_lt (a b : Z) : bool := wai_cmp a b <? 0.
Definition wai_le (a b : Z) : bool := wai_cmp a b <=? 0.
Definition wai_gt (a b : Z) : bool := 0 <? wai_cmp a b.
Definition wai_ge (a b : Z) : bool := 0 <=? wai_cmp a b.

(** The constructors: an unsigned value as it is, a signed one converted. *)
Definition wai_of_unsigned (v : Z) : Z := v.
Definition wai_of_signed (v : Z) : Z := wrap w v.

Definition wai_sub (a b : Z) : Z := wai_of_signed (to_signed w (a - b)).
Definition wai_add (a b : Z) : Z := wai_of_unsigned (wrap w (a + b)).
Definition wai_incr (a : Z) : Z := wai_add a (wai_of_unsigned 1).
Definition wai_decr (a : Z) : Z := wai_sub a (wai_of_unsigned 1).

(** [std::numeric_limits<Ts>::max() - 1]. *)
Definition get_max_diff : Z := 2 ^ (w - 1) - 1 - 1.
End wai.

(* ------------------------------------------------------------------ *)
(** * The index interface *)
(* ------------------------------------------------------------------ *)

Class SeqIndex := {
  idx_width : Z;
  idx_lt : Z -> Z -> bool;
  idx_le : Z -> Z -> bool;
  idx_add : Z -> Z -> Z;
  idx_sub : Z -> Z -> Z;
  (** Positions whose values compare like them. *)
  near : Z -> Z -> Prop
}.

(** The value of an unbounded position. *)
Definition idx_of `{SeqIndex} (x : Z) : Z := wrap idx_width x.

Class SeqIndexLaws (I : SeqIndex) : Prop := {
  idx_width_pos : 0 < idx_width;
  idx_lt_near : forall x y, near x y -> idx_lt (idx_of x) (idx_of y) = (x <? y);
  idx_le_near : forall x y, near x y -> idx_le (idx_of x) (idx_of y) = (x <=? y);
  idx_add_of : forall x y, idx_add (idx_of x) (idx_of y) = idx_of (x + y);
  idx_sub_of : forall x y, idx_sub (idx_of x) (idx_of y) = idx_of (x - y);
  near_between : forall x y a b, near x y -> x <= a <= y -> x <= b <= y -> near a b;
  near_small : forall x y a b,
    near x y -> 0 <= a <= y - x -> 0 <= b < 2 ^ (idx_width - 1) -> near b a
}.

Definition wai_index (w : Z) : SeqIndex := {|
  idx_width := w; idx_lt := wai_lt w; idx_le := wai_le w;
  idx_add := wai_add w; idx_sub := wai_sub w;
  near := fun x y => Z.abs (x - y) < 2 ^ (w - 1) |}.

Definition uint_index (w : Z) : SeqIndex := {|
  idx_width := w; idx_lt := Z.ltb; idx_le := Z.leb;
  idx_add := fun a b => wrap w (a + b); idx_sub := fun a b => wrap w (a - b);
  near := fun x y => in_range w x /\ in_range w y |}.

(* ------------------------------------------------------------------ *)
(** * Lemmas *)
(* ------------------------------------------------------------------ *)

Lemma wai_cmp_near w x y :
  0 < w -> Z.abs (x - y) < 2 ^ (w - 1) -> wai_cmp w (wrap w x) (wrap w y) = x - y.
Proof.
  intros Hw Hn. unfold wai_cmp. rewrite <- to_signed_wrap, wrap_sub_wrap, to_signed_wrap.
  apply to_signed_small; lia.
Qed.

Lemma wrap_to_signed w z : 0 < w -> wrap w (to_signed w z) = wrap w z.
Proof.
  intros Hw. unfold to_signed. case_decide; unfold wrap.
  - apply Zmod_mod.
  - replace (z mod 2 ^ w - 2 ^ w) with (z mod 2 ^ w + (-1) * 2 ^ w) by lia.
    by rewrite Z_mod_plus_full, Zmod_mod.
Qed.

Lemma wai_sub_wrap w a b : 0 < w -> wai_sub w a b = wrap w (a - b).
Proof. intros. unfold wai_sub, wai_of_signed. by apply wrap_to_signed. Qed.

Lemma wai_laws w : 0 < w -> SeqIndexLaws (wai_index w).
Proof.
  intros Hw. split; unfold idx_of; simpl; [done|..].
  - intros x y Hn. unfold wai_lt. rewrite wai_cmp_near by done. lia.
  - intros x y Hn. unfold wai_le. rewrite wai_cmp_near by done. lia.
  - intros x y. unfold wai_add, wai_of_unsigned. unfold wrap. by rewrite <- Zplus_mod.
  - intros x y. rewrite wai_sub_wrap by done. apply wrap_sub_wrap.
  - lia.
  - lia.
Qed.

Lemma uint_laws w : 0 < w -> SeqIndexLaws (uint_index w).
Proof.
  intros Hw. split; unfold idx_of; simpl; [done|..].
  - intros x y [Hx Hy]. by rewrite !wrap_small.
  - intros x y [Hx Hy]. by rewrite !wrap_small.
  - intros x y. unfold wrap. by rewrite <- Zplus_mod.
  - intros x y. apply wrap_sub_wrap.
  - unfold in_range. lia.
  - unfold in_range. pose proof (pow2_split w Hw). lia.
Qed.

(* ------------------------------------------------------------------ *)
(** * Properties *)
(* ------------------------------------------------------------------ *)

(** Serial number arithmetic: two positions less than half the number
    space apart are ordered like their wrapped values, however often either
    has wrapped; every comparison operator agrees, adding then subtracting
    gives the distance back, and the comparison of antipodal values is the one
    case that is not antisymmetric. *)
Theorem wai_order_correct (w x y : Z) (Hw : 0 < w) (Hxy : Z.abs (x - y) < 2 ^ (w - 1)) :
  let a := wrap w x in let b := wrap w y in
  wai_lt w a b = (x <? y) /\ wai_le w a b = (x <=? y) /\
  wai_gt w a b = (y <? x) /\ wai_ge w a b = (y <=? x) /\
  wai_eq w a b = (x =? y) /\ wai_ne w a b = negb (x =? y) /\
  wai_add w b (wai_sub w a b) = a /\
  wai_lt w a (wrap w (x + 2 ^ (w - 1))) = true /\
  wai_lt w (wrap w (x + 2 ^ (w - 1))) a = true.
Proof.
  intros a b. assert (Hp : 0 < 2 ^ (w - 1)) by (apply Z.pow_pos_nonneg; lia).
  pose proof (pow2_split w Hw) as E.
  assert (Hs : forall z, wrap w z = 2 ^ (w - 1) -> wai_lt w (wrap w x + z) (wrap w x) = true).
  { intros z Hz. unfold wai_lt, wai_cmp, to_signed.
    replace (wrap w x + z - wrap w x) with z by lia. rewrite Hz.
    case_decide; apply Z.ltb_lt; lia. }
  assert (Hc : forall z, wai_lt w a z = wai_lt w (wrap w x + (a - z)) (wrap w x)).
  { intros z. unfold wai_lt, wai_cmp. do 2 f_equal. lia. }
  assert (Hc' : forall z, wai_lt w z a = wai_lt w (wrap w x + (z - a)) (wrap w x)).
  { intros z. unfold wai_lt, wai_cmp. do 2 f_equal. lia. }
  split_and!.
  7: { rewrite wai_sub_wrap by done. unfold wai_add, wai_of_unsigned, a, b.
    rewrite wrap_sub_wrap. unfold wrap. rewrite <- Zplus_mod. f_equal. lia. }
  7: { rewrite Hc. apply Hs. unfold a. rewrite wrap_sub_wrap.
    replace (x - (x + 2 ^ (w - 1))) with (2 ^ (w - 1) + (-1) * 2 ^ w) by lia.
    unfold wrap. rewrite Z_mod_plus_full. apply Z.mod_small. lia. }
  7: { rewrite Hc'. apply Hs. unfold a. rewrite wrap_sub_wrap.
    replace (x + 2 ^ (w - 1) - x) with (2 ^ (w - 1)) by lia. apply Z.mod_small. lia. }
  all: unfold a, b, wai_lt, wai_le, wai_gt, wai_ge, wai_eq, wai_ne;
    rewrite wai_cmp_near by done; lia.
Qed.

(** Sequence numbers 5 and 4294967290 of [wai32_t], eleven apart across the wrap. *)
Lemma wai_order_correct_witness :
  wai_lt 32 4294967290 5 = true /\ wai_gt 32 4294967290 5 = false.
Proof.
  destruct (wai_order_correct 32 (-6) 5 eq_refl eq_refl) as (H1 & _ & H2 & _).
  split; [exact H1|exact H2].
Defined.
