(* ===== verification/Slidwin.v ===== *)
(** The sliding window [slidwin_t<T_ELEM, T_INDEX>]
    (src/src/neoip_netutils/slidwin/neoip_slidwin.hpp): a rotating buffer of
    [win_size] elements addressed by sequence number, over any [SeqIndex].

    The specification is a window of unbounded positions: the first position
    and the list of the values from it.  [set_refines] shows that the rotating
    buffer implements it, whatever the number of slides and wraps. *)
From S2P Require Import Prelude Wai.

(* ------------------------------------------------------------------ *)
(** * The rotating buffer *)
(* ------------------------------------------------------------------ *)

Record slidwin_t (A : Type) := Slidwin {
  index_begin : Z;      (* the index of the first element of the window *)
  dfl_value : A;
  win_size : nat;
  win_offset : Z;       (* the physical index of [index_begin] *)
  window : list A
}.
Arguments Slidwin {A}.
Arguments index_begin {A}.
Arguments dfl_value {A}.
Arguments win_size {A}.
Arguments win_offset {A}.
Arguments window {A}.

Section ops.
Context {A : Type} `{SeqIndex}.
Implicit Types (s : slidwin_t A).

Definition get_index_first s : Z := index_begin s.
Definition get_index_last s : Z :=
  idx_add (index_begin s) (idx_of (Z.of_nat (win_size s) - 1)).

Definition cpu_idx s (index : Z) : nat :=
  Z.to_nat (idx_add (win_offset s) (idx_sub index (index_begin s)) mod Z.of_nat (win_size s)).

Definition fill (value : A) s : slidwin_t A :=
  Slidwin (index_begin s) (dfl_value s) (win_size s) (win_offset s)
          (replicate (win_size s) value).

Definition slidwin_ctor (n : nat) (dfl : A) (first : Z) : slidwin_t A :=
  fill dfl (Slidwin first dfl n 0 (replicate n dfl)).

Definition exist s (index : Z) : bool :=
  if idx_lt index (get_index_first s) then false
  else if idx_lt (get_index_last s) index then false
  else true.

(** [for(i = index_begin; i < new_index_begin; i++) window[cpu_idx(i)] = dfl]:
    the loop runs less than [win_size] times ([clear_loop_spec]). *)
Fixpoint clear_loop (fuel : nat) s (i new_index_begin : Z) (win : list A) : list A :=
  match fuel with
  | O => win
  | S fuel' =>
    if idx_lt i new_index_begin
    then clear_loop fuel' s (idx_add i (idx_of 1)) new_index_begin
           (<[cpu_idx s i := dfl_value s]> win)
    else win
  end.

(** [remove_elem] is empty, so the loops calling only it are left out. *)
Definition slide_if_needed (dst_index : Z) s : outcome (slidwin_t A) :=
  assert! idx_le (index_begin s) dst_index in
  if idx_le dst_index (get_index_last s) then Ok s
  else
    let new_index_begin := idx_sub dst_index (idx_of (Z.of_nat (win_size s) - 1)) in
    let slide_len := idx_sub dst_index (get_index_last s) in
    if idx_le (idx_of (Z.of_nat (win_size s))) slide_len then
      Ok (fill (dfl_value s)
            (Slidwin new_index_begin (dfl_value s) (win_size s) (win_offset s) (window s)))
    else
      let win := clear_loop (win_size s) s (index_begin s) new_index_begin (window s) in
      let new_win_offset :=
        idx_add (win_offset s) slide_len mod Z.of_nat (win_size s) in
      Ok (Slidwin new_index_begin (dfl_value s) (win_size s) new_win_offset win).

(** [window[k]], out of range of the vector a fault. *)
Definition win_get (k : nat) s : outcome A :=
  match window s !! k with Some v => Ok v | None => Fault end.

Definition get (index : Z) s : outcome A :=
  assert! exist s index in
  win_get (cpu_idx s index) s.

Definition set (index : Z) (value : A) s : outcome (slidwin_t A) :=
  let* s1 := slide_if_needed index s in
  assert! exist s1 index in
  if bool_decide (cpu_idx s1 index < length (window s1))%nat then
    Ok (Slidwin (index_begin s1) (dfl_value s1) (win_size s1) (win_offset s1)
          (<[cpu_idx s1 index := value]> (window s1)))
  else Fault.

Definition get_default (index : Z) (dfl : A) s : outcome A :=
  if exist s index then get index s else Ok dfl.

(* ------------------------------------------------------------------ *)
(** * Specification: a window over unbounded positions *)
(* ------------------------------------------------------------------ *)

Definition spec_last (first : Z) (vals : list A) : Z := first + Z.of_nat (length vals) - 1.

(** The window after making position [i] exist. *)
Definition spec_slide (dfl : A) (i : Z) (first : Z) (vals : list A) : Z * list A :=
  let slide := Z.to_nat (i - spec_last first vals) in
  (Z.max first (i - (Z.of_nat (length vals) - 1)),
   drop slide vals ++ replicate (slide `min` length vals) dfl).

Definition spec_set (dfl : A) (i : Z) (v : A) (first : Z) (vals : list A) : Z * list A :=
  let (first', vals') := spec_slide dfl i first vals in
  (first', <[Z.to_nat (i - first') := v]> vals').

Definition spec_get_default (i : Z) (dfl : A) (first : Z) (vals : list A) : A :=
  if bool_decide (first <= i) then default dfl (vals !! Z.to_nat (i - first)) else dfl.

(** The physical slot of the [k]-th element. *)
Definition slot (off n k : Z) : nat := Z.to_nat ((off + k) mod n).

(** The buffer [s] holds [vals] from position [first]. *)
Definition represents s (first : Z) (vals : list A) : Prop :=
  index_begin s = idx_of first /\
  length vals = win_size s /\ length (window s) = win_size s /\
  0 < Z.of_nat (win_size s) < 2 ^ (idx_width - 1) /\
  0 <= win_offset s < Z.of_nat (win_size s) /\
  forall k, 0 <= k < Z.of_nat (win_size s) ->
    window s !! slot (win_offset s) (Z.of_nat (win_size s)) k = vals !! Z.to_nat k.
End ops.

(* ------------------------------------------------------------------ *)
(** * Lemmas *)
(* ------------------------------------------------------------------ *)

Lemma mod_once x n : 0 < n -> 0 <= x < 2 * n -> x mod n = if x <? n then x else x - n.
Proof.
  intros Hn Hx. destruct (Z.ltb_spec x n); [apply Z.mod_small; lia|].
  symmetry. apply Z.mod_unique with 1; lia.
Qed.

Lemma slot_bound off n k : 0 < n -> (slot off n k < Z.to_nat n)%nat.
Proof. intros. unfold slot. pose proof (Z.mod_pos_bound (off + k) n). lia. Qed.

Lemma slot_inj off n j k :
  0 <= off < n -> 0 <= j < n -> 0 <= k < n -> slot off n j = slot off n k -> j = k.
Proof.
  intros ???. unfold slot. rewrite !mod_once by lia.
  destruct (Z.ltb_spec (off + j) n), (Z.ltb_spec (off + k) n); lia.
Qed.

Section lemmas.
Context {A : Type} `{HI : SeqIndexLaws}.
Implicit Types (s : slidwin_t A).

Lemma cpu_idx_slot s first vals i :
  represents s first vals -> first <= i < first + Z.of_nat (win_size s) ->
  cpu_idx s (idx_of i) = slot (win_offset s) (Z.of_nat (win_size s)) (i - first).
Proof.
  intros (Hb & _ & _ & Hn & Ho & _) Hi. unfold cpu_idx, slot.
  rewrite Hb, idx_sub_of. rewrite <- (wrap_small idx_width (win_offset s)).
  - change (wrap idx_width (win_offset s)) with (idx_of (win_offset s)).
    rewrite idx_add_of. unfold idx_of. f_equal. f_equal.
    pose proof (pow2_split idx_width idx_width_pos).
    rewrite !(wrap_small _ _) by (unfold in_range; lia). done.
  - pose proof (pow2_split idx_width idx_width_pos). unfold in_range. lia.
Qed.

Lemma last_of s first vals :
  represents s first vals -> get_index_last s = idx_of (spec_last first vals).
Proof.
  intros (Hb & Hl & _). unfold get_index_last, spec_last. rewrite Hb, Hl, idx_add_of.
  f_equal. lia.
Qed.

Lemma exist_spec s first vals i :
  represents s first vals -> near i first -> near (spec_last first vals) i ->
  exist s (idx_of i) = bool_decide (first <= i <= spec_last first vals).
Proof.
  intros Hr Hn1 Hn2. unfold exist, get_index_first.
  rewrite (last_of _ _ _ Hr). destruct Hr as (-> & _).
  rewrite !idx_lt_near by done.
  destruct (Z.ltb_spec i first), (Z.ltb_spec (spec_last first vals) i);
    symmetry; (apply bool_decide_eq_true_2 || apply bool_decide_eq_false_2); lia.
Qed.

Lemma win_get_spec s first vals i :
  represents s first vals -> first <= i <= spec_last first vals ->
  exists v, win_get (cpu_idx s (idx_of i)) s = Ok v /\ vals !! Z.to_nat (i - first) = Some v.
Proof.
  intros Hr Hi. pose proof Hr as (_ & Hl & _ & _ & _ & Hw). unfold spec_last in Hi.
  unfold win_get. rewrite (cpu_idx_slot _ _ _ _ Hr), Hw by lia.
  destruct (lookup_lt_is_Some_2 vals (Z.to_nat (i - first))) as [v ->]; [lia|]. eauto.
Qed.

(** The clearing loop: [m] elements from position [first + j] take the default
    value and the others are kept. *)
Lemma clear_loop_spec s first vals fuel j m win :
  represents s first vals -> 0 <= j -> j + Z.of_nat m < Z.of_nat (win_size s) ->
  (m <= fuel)%nat -> length win = win_size s ->
  near first (first + j + Z.of_nat m) ->
  let win' := clear_loop fuel s (idx_of (first + j)) (idx_of (first + j + Z.of_nat m)) win in
  length win' = win_size s /\
  forall k, 0 <= k < Z.of_nat (win_size s) ->
    win' !! slot (win_offset s) (Z.of_nat (win_size s)) k =
      if bool_decide (j <= k < j + Z.of_nat m) then Some (dfl_value s)
      else win !! slot (win_offset s) (Z.of_nat (win_size s)) k.
Proof.
  intros Hr. pose proof Hr as (_ & _ & _ & Hn & Ho & _).
  revert j m win. induction fuel as [|fuel IH]; intros j m win Hj Hjm Hm Hlen Hnear; cbn zeta.
  { simpl. split; [done|]. intros k Hk. rewrite bool_decide_eq_false_2 by lia. done. }
  cbn [clear_loop].
  rewrite idx_lt_near by (eapply near_between; [exact Hnear|lia|lia]).
  destruct m as [|m].
  { rewrite (proj2 (Z.ltb_ge _ _)) by lia. split; [done|]. intros k Hk.
    rewrite bool_decide_eq_false_2 by lia. done. }
  rewrite (proj2 (Z.ltb_lt _ _)) by lia. rewrite idx_add_of.
  replace (first + j + 1) with (first + (j + 1)) by lia.
  replace (first + j + Z.of_nat (S m)) with (first + (j + 1) + Z.of_nat m) in * by lia.
  rewrite (cpu_idx_slot _ _ _ _ Hr) by lia. replace (first + j - first) with j by lia.
  destruct (IH (j + 1) m (<[slot (win_offset s) (Z.of_nat (win_size s)) j := dfl_value s]> win))
    as [Hl Hlk]; [lia|lia|lia|by rewrite length_insert|done|].
  split; [done|]. intros k Hk. rewrite Hlk by done.
  destruct (decide (j = k)) as [->|Hne].
  - rewrite bool_decide_eq_false_2, bool_decide_eq_true_2 by lia.
    apply list_lookup_insert_eq. rewrite Hlen.
    pose proof (slot_bound (win_offset s) (Z.of_nat (win_size s)) k). lia.
  - rewrite list_lookup_insert_ne by (intros Heq%slot_inj; lia).
    rewrite (bool_decide_ext _ (j <= k < j + Z.of_nat (S m))) by lia. done.
Qed.

Lemma fill_represents s first' vals' v :
  represents s first' vals' -> represents (fill v s) first' (replicate (win_size s) v).
Proof.
  intros (Hb & _ & _ & Hn & Ho & _). unfold represents; simpl.
  rewrite !length_replicate. split_and!; try done; try lia.
  intros k Hk. pose proof (slot_bound (win_offset s) (Z.of_nat (win_size s)) k).
  rewrite !lookup_replicate_2 by lia. done.
Qed.

(** The rotation: after clearing the first [m] elements and advancing the
    offset by [m], the buffer holds the slid window. *)
Lemma rotate_lookup s first vals (win : list A) m k :
  represents s first vals -> 0 <= m < Z.of_nat (win_size s) -> 0 <= k < Z.of_nat (win_size s) ->
  (forall j, 0 <= j < Z.of_nat (win_size s) ->
    win !! slot (win_offset s) (Z.of_nat (win_size s)) j =
      if bool_decide (0 <= j < m) then Some (dfl_value s)
      else window s !! slot (win_offset s) (Z.of_nat (win_size s)) j) ->
  win !! slot ((win_offset s + m) mod Z.of_nat (win_size s)) (Z.of_nat (win_size s)) k =
    (drop (Z.to_nat m) vals ++ replicate (Z.to_nat m `min` win_size s) (dfl_value s)) !! Z.to_nat k.
Proof.
  intros (Hb & Hl & Hlw & Hn & Ho & Hw) Hm Hk Hwin.
  set (n := Z.of_nat (win_size s)) in *.
  assert (Hslot : slot ((win_offset s + m) mod n) n k =
    slot (win_offset s) n (if m + k <? n then m + k else m + k - n)).
  { unfold slot. rewrite Zplus_mod_idemp_l. f_equal.
    destruct (Z.ltb_spec (m + k) n); [f_equal; lia|].
    replace (win_offset s + m + k) with (win_offset s + (m + k - n) + 1 * n) by lia.
    by rewrite Z_mod_plus_full. }
  rewrite Hslot. destruct (Z.ltb_spec (m + k) n).
  - rewrite Hwin by lia. rewrite bool_decide_eq_false_2 by lia. rewrite Hw by lia.
    rewrite lookup_app_l by (rewrite length_drop; lia). rewrite lookup_drop. f_equal. lia.
  - rewrite Hwin by lia. rewrite bool_decide_eq_true_2 by lia.
    rewrite lookup_app_r by (rewrite length_drop; lia). rewrite length_drop.
    by rewrite lookup_replicate_2 by lia.
Qed.

Lemma slide_spec i s first vals :
  represents s first vals -> first <= i -> near first (Z.max i (spec_last first vals)) ->
  exists s', slide_if_needed (idx_of i) s = Ok s' /\ dfl_value s' = dfl_value s /\
    win_size s' = win_size s /\
    let (first', vals') := spec_slide (dfl_value s) i first vals in represents s' first' vals'.
Proof.
  intros Hr Hi Hnear. pose proof Hr as (Hb & Hl & Hlw & Hn & Ho & Hw).
  unfold slide_if_needed, spec_slide. rewrite (last_of _ _ _ Hr), Hb.
  set (last := spec_last first vals) in *.
  assert (Hlast : last = first + Z.of_nat (win_size s) - 1) by (unfold last, spec_last; lia).
  rewrite !idx_le_near by (eapply near_between; [exact Hnear|lia|lia]).
  rewrite (proj2 (Z.leb_le _ _)) by lia. cbn [dbg_assert].
  destruct (Z.leb_spec i last) as [Hin|Hout].
  { exists s. split_and!; try done. replace (Z.to_nat (i - last)) with 0%nat by lia.
    rewrite Z.max_l by lia. simpl. by rewrite drop_0, app_nil_r. }
  rewrite !idx_sub_of.
  rewrite idx_le_near by (eapply near_small; [exact Hnear|lia|lia]).
  replace (i - (Z.of_nat (win_size s) - 1)) with (first + (i - last)) by lia.
  rewrite Hl, (Z.max_r first) by lia. destruct (Z.leb_spec (Z.of_nat (win_size s)) (i - last)) as [Hfull|Hpart].
  - eexists; split; [done|]. split_and!; [done|done|].
    rewrite drop_ge by lia. replace (_ `min` _)%nat with (win_size s) by lia. simpl.
    unfold represents; simpl. rewrite !length_replicate. split_and!; try done; try lia.
    + f_equal. lia.
    + intros k Hk. pose proof (slot_bound (win_offset s) (Z.of_nat (win_size s)) k).
      by rewrite !lookup_replicate_2 by lia.
  - destruct (clear_loop_spec s first vals (win_size s) 0 (Z.to_nat (i - last)) (window s))
      as [Hl' Hlk]; try done; try lia.
    { rewrite Z2Nat.id, Z.add_0_r by lia. eapply near_between; [exact Hnear|lia|lia]. }
    rewrite Z.add_0_r, Z2Nat.id in Hl', Hlk by lia. rewrite Z.add_0_l in Hlk.
    eexists; split; [done|]. split_and!; [done|done|].
    replace (i - (Z.of_nat (win_size s) - 1)) with (first + (i - last)) by lia.
    unfold represents; cbn [index_begin win_size win_offset window].
    autorewrite with neoip_len.
    assert (Hoff : idx_add (win_offset s) (idx_of (i - last)) = win_offset s + (i - last)).
    { rewrite <- (wrap_small idx_width (win_offset s)).
      - change (wrap idx_width (win_offset s)) with (idx_of (win_offset s)).
        rewrite idx_add_of. unfold idx_of. rewrite !wrap_small; try done;
          pose proof (pow2_split idx_width idx_width_pos); unfold in_range; lia.
      - pose proof (pow2_split idx_width idx_width_pos); unfold in_range; lia. }
    rewrite Hoff. split_and!; try done; try lia.
    + apply Z.mod_pos_bound. lia.
    + apply Z.mod_pos_bound. lia.
    + intros k Hk. apply (rotate_lookup s first); try done; lia.
Qed.
End lemmas.

Section theorems.
Context {A : Type} `{HI : SeqIndexLaws}.
Implicit Types (s : slidwin_t A).

Lemma spec_slide_bounds (dfl : A) i first vals first' vals' :
  (0 < length vals)%nat -> first <= i -> spec_slide dfl i first vals = (first', vals') ->
  length vals' = length vals /\ first <= first' <= i /\
  spec_last first' vals' = Z.max i (spec_last first vals).
Proof.
  unfold spec_slide, spec_last. intros Hl Hi [= <- <-]. autorewrite with neoip_len. lia.
Qed.

Lemma set_spec s first vals i v :
  represents s first vals -> first <= i -> near first (Z.max i (spec_last first vals)) ->
  exists s', set (idx_of i) v s = Ok s' /\ dfl_value s' = dfl_value s /\
    win_size s' = win_size s /\
    let (first', vals') := spec_set (dfl_value s) i v first vals in represents s' first' vals'.
Proof.
  intros Hr Hi Hnear. destruct (slide_spec i s first vals Hr Hi Hnear)
    as (s1 & Hs1 & Hd & Hn1 & Hr1). unfold set, spec_set. rewrite Hs1. cbn [mbind outcome_bind].
  pose proof Hr as (_ & Hl & _ & Hpos & _).
  destruct (spec_slide (dfl_value s) i first vals) as [first' vals'] eqn:E.
  apply spec_slide_bounds in E as (Hl' & Hf' & Hlast); [|lia|done].
  assert (Hni : near first' (Z.max i (spec_last first vals)))
    by (eapply near_between; [exact Hnear|lia|lia]).
  assert (Hbnd : first' <= i <= spec_last first' vals') by lia.
  assert (exist s1 (idx_of i) = true) as ->.
  { unfold exist, get_index_first. rewrite (last_of _ _ _ Hr1).
    destruct Hr1 as (-> & _).
    rewrite !idx_lt_near by (eapply near_between; [exact Hni|lia|lia]).
    destruct (Z.ltb_spec i first'), (Z.ltb_spec (spec_last first' vals') i); try lia; done. }
  cbn [dbg_assert]. pose proof Hr1 as (Hb1 & Hl1 & Hlw1 & Hpos1 & Ho1 & Hw1).
  unfold spec_last in Hbnd. rewrite (cpu_idx_slot _ _ _ _ Hr1) by lia.
  set (n := Z.of_nat (win_size s1)) in *.
  pose proof (slot_bound (win_offset s1) n (i - first')) as Hsl.
  rewrite bool_decide_eq_true_2 by lia.
  eexists; split; [done|]. split_and!; [done|done|].
  unfold represents; cbn [index_begin win_size win_offset window].
  rewrite !length_insert. split_and!; try done; try lia.
  intros k Hk. fold n in Hk |- *. destruct (decide (k = i - first')) as [->|Hne].
  - rewrite !list_lookup_insert_eq by lia. done.
  - rewrite list_lookup_insert_ne by (intros Heq%slot_inj; lia).
    rewrite list_lookup_insert_ne by lia. by apply Hw1.
Qed.

Lemma get_default_spec s first vals i dfl :
  represents s first vals -> near i first -> near (spec_last first vals) i ->
  get_default (idx_of i) dfl s = Ok (spec_get_default i dfl first vals).
Proof.
  intros Hr Hn1 Hn2. unfold get_default, get, spec_get_default.
  pose proof (exist_spec s first vals i Hr Hn1 Hn2) as He. rewrite He. unfold spec_last in *.
  case_bool_decide as Hin.
  - rewrite bool_decide_eq_true_2 by lia. cbn [dbg_assert].
    destruct (win_get_spec s first vals i Hr) as (v & -> & ->); done.
  - case_bool_decide; [|done]. by rewrite lookup_ge_None_2 by lia.
Qed.

(** C23. Refinement of [set]: the rotating buffer implements the window of
    unbounded positions.  If [s] represents the values [vals] from position
    [first], setting position [i] (at or after [first], in comparable reach)
    succeeds and the result represents the specified window: unchanged in
    place when [i] is inside, slid with default values entering otherwise,
    wiped when the slide exceeds the window; reads then agree with it. *)
Theorem slidwin_refines s first vals i v j dfl
    (Hr : represents s first vals) (Hi : first <= i)
    (Hnear : near first (Z.max i (spec_last first vals)))
    (Hj1 : near j (spec_set (dfl_value s) i v first vals).1)
    (Hj2 : near (Z.max i (spec_last first vals)) j) :
  exists s', set (idx_of i) v s = Ok s' /\
    represents s' (spec_set (dfl_value s) i v first vals).1
                  (spec_set (dfl_value s) i v first vals).2 /\
    get_default (idx_of j) dfl s' =
      Ok (spec_get_default j dfl (spec_set (dfl_value s) i v first vals).1
            (spec_set (dfl_value s) i v first vals).2).
Proof.
  destruct (set_spec s first vals i v Hr Hi Hnear) as (s' & Hs & _ & _ & Hr').
  pose proof Hr as (_ & Hl & _ & Hpos & _).
  exists s'. split; [done|].
  destruct (spec_set (dfl_value s) i v first vals) as [first' vals'] eqn:E. simpl in *.
  split; [done|]. apply get_default_spec; [done|done|].
  unfold spec_set in E. destruct (spec_slide _ _ _ _) as [f1 v1] eqn:E1.
  apply spec_slide_bounds in E1 as (_ & _ & Hlast); [|lia|done]. injection E as <- <-.
  unfold spec_last in *. rewrite length_insert. rewrite Hlast. done.
Qed.
End theorems.

Lemma ctor_represents {A} `{HI : SeqIndexLaws} n (dfl : A) first :
  0 < Z.of_nat n < 2 ^ (idx_width - 1) ->
  represents (slidwin_ctor n dfl (idx_of first)) first (replicate n dfl).
Proof.
  intros Hn. unfold slidwin_ctor, fill, represents; simpl. rewrite !length_replicate.
  split_and!; try done; try lia.
  intros k Hk. pose proof (slot_bound 0 (Z.of_nat n) k). by rewrite !lookup_replicate_2 by lia.
Qed.

(** A window of four booleans at position [2^16 - 2] of [wai16_t], slid across
    the wrap by setting position [2^16 + 3]. *)
Lemma slidwin_refines_witness :
  let I := wai_index 16 in
  exists s', set (idx_of 65539) true (slidwin_ctor 4 false (idx_of 65534)) = Ok s' /\
    get_default (idx_of 65539) false s' = Ok true.
Proof.
  intros I. pose proof (wai_laws 16 eq_refl) as HI.
  destruct (slidwin_refines (HI := HI) (slidwin_ctor 4 false (idx_of 65534)) 65534
    (replicate 4 false) 65539 true 65539 false) as (s' & H1 & _ & H2).
  - apply ctor_represents. vm_compute. split; congruence.
  - lia.
  - vm_compute. reflexivity.
  - vm_compute. reflexivity.
  - vm_compute. reflexivity.
  - exists s'. split; [exact H1|]. refine (eq_trans H2 _). vm_compute. reflexivity.
Defined.
