(* ===== verification/Scnx.v ===== *)
(** The secure connection's packet layer: pkcs5 padding and the cipher wrapper
    (src/src/neoip_crypto/skey/ciph/neoip_skey_ciph.cpp), the transmitter
    [scnx_full_xmit_t] and the receiver [scnx_full_recv_t] with its anti-replay
    window (src/src/neoip_proto/scnx/full/).

    libgcrypt is not part of the repository: the block cipher and the MAC under
    the negotiated keys are parameters ([CryptoLib]), of which the code relies
    on deciphering to invert enciphering and on fixed output lengths. *)
From S2P Require Import Prelude Serial Codec Wai Slidwin.

(* ------------------------------------------------------------------ *)
(** * The crypto library *)
(* ------------------------------------------------------------------ *)

Class CryptoLib := {
  gcry_encrypt : Z -> list Z -> list Z;    (* iv, data *)
  gcry_decrypt : Z -> list Z -> list Z;
  auth_output : list Z -> list Z;          (* the MAC of the data *)
  auth_output_len : nat;
  block_len : nat;
  require_padding : bool
}.

Class CryptoLaws (C : CryptoLib) : Prop := {
  decrypt_encrypt : forall iv d, bytes_ok d -> gcry_decrypt iv (gcry_encrypt iv d) = d;
  encrypt_length : forall iv d, length (gcry_encrypt iv d) = length d;
  encrypt_bytes : forall iv d, bytes_ok d -> bytes_ok (gcry_encrypt iv d);
  auth_length : forall d, length (auth_output d) = auth_output_len;
  auth_bytes : forall d, bytes_ok (auth_output d);
  block_len_ok : (0 < block_len < 255)%nat
}.

(* ------------------------------------------------------------------ *)
(** * The cipher wrapper *)
(* ------------------------------------------------------------------ *)

Section scnx.
Context `{CryptoLib}.

Definition padding_cpu_len (plaintxt_len : nat) : outcome nat :=
  if negb require_padding then Ok 0%nat
  else
    let padding_len := (block_len - plaintxt_len mod block_len)%nat in
    assert! bool_decide (padding_len < 255)%nat in
    Ok padding_len.

Definition get_ciphertxt_len (plaintxt_len : nat) : outcome nat :=
  let* p := padding_cpu_len plaintxt_len in Ok (plaintxt_len + p)%nat.

(** [padding_build]: the bytes written after the data. *)
Definition padding_build (src_len : nat) : outcome (list Z) :=
  let* padding_len := padding_cpu_len src_len in
  if negb require_padding then Ok []
  else Ok (replicate padding_len (wrap 8 (Z.of_nat padding_len))).

(** The loop of [padding_parse] from [i]: [true] when every byte is [padding_len]. *)
Fixpoint padding_check (n i : nat) (src : list Z) (padding_len : Z) : bool :=
  match n with
  | O => true
  | S n' =>
    if bool_decide (src !! (length src - 1 - i)%nat = Some padding_len)
    then padding_check n' (S i) src padding_len else false
  end.

(** [None] is the error return -1. *)
Definition padding_parse (src : list Z) : outcome (option nat) :=
  if negb require_padding then Ok (Some 0%nat)
  else
    assert! bool_decide (0 < length src)%nat in
    match src !! (length src - 1)%nat with
    | None => Fault
    | Some padding_len =>
      if bool_decide (Z.of_nat (length src) < padding_len) then Ok None
      else if padding_check (Z.to_nat padding_len - 1) 1 src padding_len
           then Ok (Some (Z.to_nat padding_len)) else Ok None
    end.

Definition encipher (iv : Z) (src : list Z) (dst_len : nat) : outcome (list Z) :=
  let* len := get_ciphertxt_len (length src) in
  assert! bool_decide (dst_len = len) in
  assert! bool_decide (length src <= dst_len)%nat in
  let* padding := padding_build (length src) in
  Ok (gcry_encrypt iv (src ++ padding)).

(** The destination buffer and the returned [ssize_t]. *)
Definition decipher (iv : Z) (src : list Z) : outcome (list Z * Z) :=
  let dst := gcry_decrypt iv src in
  let* padding_len := padding_parse dst in
  match padding_len with
  | None => Ok (dst, -1)
  | Some p => Ok (dst, Z.of_nat (length src) - Z.of_nat p)
  end.

(* ------------------------------------------------------------------ *)
(** * Transmission *)
(* ------------------------------------------------------------------ *)

(** [get_data(), get_len()] of a packet. *)
Definition pkt_bytes (pkt : serial_t) : outcome (list Z) :=
  let* d := mem_read (full_data pkt) (used_off pkt) (used_length pkt) in init_bytes d.

(** [pkt_t(ptr, len)]: a length beyond the buffer only arises from a negative
    one, for which the allocation fails ([DBG_ASSERT(data)]). *)
Definition pkt_ctor (ptr : list Z) (len : Z) : outcome serial_t :=
  if bool_decide (len <= Z.of_nat (length ptr))
  then internal_ctor_docopy (take (Z.to_nat len) ptr)
  else AssertFail.

Inductive scnx_err_t := OK | BOGUS_PKT | BAD_FULL_AUTH | BAD_FULL_CIPH | REPLAYED_PKT.

#[global] Instance scnx_err_eq_dec : EqDecision scnx_err_t.
Proof. solve_decision. Defined.

(** [scnx_full_xmit_t::pkt_from_upper]: the secured packet and the next
    sequence number. *)
Definition xmit_pkt_from_upper (seqnb : Z) (pkt : serial_t) : outcome (serial_t * Z) :=
  let* ciphertxt_len := get_ciphertxt_len (used_length pkt) in
  let* data := pkt_bytes pkt in
  let* ciphertxt := encipher seqnb data ciphertxt_len in
  let* p := serial_prealloc INIT_LENGTH_DFL HEAD_LENGTH_DFL GROW_LENGTH_DFL in
  let* p := put_u32 seqnb p in
  let* p := tail_add ciphertxt p in
  let* d := pkt_bytes p in
  let* p := tail_add (auth_output d) p in
  Ok (p, wrap 32 (seqnb + 1)).

(* ------------------------------------------------------------------ *)
(** * Reception *)
(* ------------------------------------------------------------------ *)

(** The index type of the window is [uint32_t]. *)
#[local] Instance areplay_index : SeqIndex := uint_index 32.

Definition AREPLAY_WIN_SIZE_DFL : nat := 32.
Definition areplay_open : slidwin_t bool := slidwin_ctor AREPLAY_WIN_SIZE_DFL false 0.

(** The anti-replay test and mark; [None] for a replayed number. *)
Definition areplay_check (seqnb : Z) (win : slidwin_t bool) : outcome (option (slidwin_t bool)) :=
  if idx_lt seqnb (get_index_first win) then Ok None
  else
    let* seen := get_default seqnb false win in
    if (seen : bool) then Ok None
    else let* win1 := Slidwin.set seqnb true win in Ok (Some win1).

(** [scnx_full_recv_t::pkt_from_lower]: the error, the packet and the window
    after the call. *)
Definition recv_pkt_from_lower (pkt : serial_t) (win : slidwin_t bool)
    : outcome (scnx_err_t * serial_t * slidwin_t bool) :=
  match tail_peek true (Z.of_nat auth_output_len) pkt with
  | Throw _ => Ok (BOGUS_PKT, pkt, win)
  | AssertFail => AssertFail
  | Fault => Fault
  | Ok remote_cells =>
    let* remote_mac := init_bytes remote_cells in
    let* d := mem_read (full_data pkt) (used_off pkt) (used_length pkt - auth_output_len) in
    let* signed := init_bytes d in
    if negb (datum_eq remote_mac (auth_output signed)) then Ok (BAD_FULL_AUTH, pkt, win)
    else
      let* pkt1 := tail_free auth_output_len pkt in
      match get_u32 pkt1 with
      | Throw _ => Ok (BOGUS_PKT, pkt1, win)
      | AssertFail => AssertFail
      | Fault => Fault
      | Ok (seqnb, pkt2) =>
        let* checked := areplay_check seqnb win in
        match checked with
        | None => Ok (REPLAYED_PKT, pkt2, win)
        | Some win1 =>
          let* cipher := pkt_bytes pkt2 in
          let* (plaintxt, len) := decipher seqnb cipher in
          let plaintxt_len := wrap SIZE_T_BITS len in      (* a [size_t] variable *)
          if bool_decide (plaintxt_len < 0) then Ok (BAD_FULL_CIPH, pkt2, win1)
          else
            let* pkt3 := pkt_ctor plaintxt plaintxt_len in
            Ok (OK, pkt3, win1)
        end
      end
  end.

(** The sequence number of an accepted packet. *)
Definition pkt_seqnb (bytes : list Z) : Z := be_value (take 4 bytes).

(** A connection receiving packets one after the other: the sequence numbers
    of the packets it accepted, oldest first. *)
Fixpoint recv_run (pkts : list (list Z)) (win : slidwin_t bool) : outcome (list Z * slidwin_t bool) :=
  match pkts with
  | [] => Ok ([], win)
  | bytes :: pkts' =>
    let* pkt := internal_ctor_docopy bytes in
    let* (err, _, win1) := recv_pkt_from_lower pkt win in
    let* (acc, win2) := recv_run pkts' win1 in
    Ok (if bool_decide (err = OK) then pkt_seqnb bytes :: acc else acc, win2)
  end.

(** Packets of bytes, of a length a buffer can have. *)
Definition pkts_ok (pkts : list (list Z)) : Prop :=
  Forall (fun l => bytes_ok l /\ Z.of_nat (length l) < 2 ^ (SIZE_T_BITS - 1)) pkts.

(** The window remembers every number of [acc]. *)
Definition areplay_inv (win : slidwin_t bool) (acc : list Z) : Prop :=
  exists first vals, represents win first vals /\
    in_range 32 first /\ in_range 32 (spec_last first vals) /\ dfl_value win = false /\
    forall q, q ∈ acc -> q < first \/ (first <= q /\ vals !! Z.to_nat (q - first) = Some true).
End scnx.

(* ------------------------------------------------------------------ *)
(** * Lemmas: the anti-replay window *)
(* ------------------------------------------------------------------ *)

#[local] Existing Instance areplay_index.
#[local] Instance areplay_laws : SeqIndexLaws areplay_index.
Proof. by apply uint_laws. Qed.

Lemma idx_of_seqnb q : in_range 32 q -> idx_of q = q.
Proof. apply wrap_small. Qed.

(** What [spec_set] leaves of the older marks. *)
Lemma spec_set_older (i first : Z) (vals : list bool) first' vals' q :
  (0 < length vals)%nat -> first <= i ->
  spec_set false i true first vals = (first', vals') ->
  q < first \/ (first <= q /\ vals !! Z.to_nat (q - first) = Some true) ->
  q < first' \/ (first' <= q /\ vals' !! Z.to_nat (q - first') = Some true).
Proof.
  intros Hlen Hi Hset Hq. unfold spec_set in Hset.
  destruct (spec_slide false i first vals) as [f v] eqn:E.
  pose proof (spec_slide_bounds _ _ _ _ _ _ Hlen Hi E) as (Hl & Hf & _).
  injection Hset as <- <-. unfold spec_slide in E. injection E as <- <-.
  unfold spec_last in *. set (n := Z.of_nat (length vals)) in *.
  destruct (decide (q < Z.max first (i - (n - 1)))) as [|Hge]; [by left|right].
  split; [lia|]. destruct Hq as [?|[? Hv]]; [lia|].
  pose proof (lookup_lt_Some _ _ _ Hv) as Hqn.
  destruct (decide (q = i)) as [->|Hne].
  - apply list_lookup_insert_eq. rewrite Hl. lia.
  - rewrite list_lookup_insert_ne by lia.
    rewrite lookup_app_l by (rewrite length_drop; lia). rewrite lookup_drop, <- Hv. f_equal. lia.
Qed.

Lemma spec_set_marked (i first : Z) (vals : list bool) first' vals' :
  (0 < length vals)%nat -> first <= i ->
  spec_set false i true first vals = (first', vals') ->
  first' <= i /\ vals' !! Z.to_nat (i - first') = Some true /\
  first <= first' /\ spec_last first' vals' = Z.max i (spec_last first vals).
Proof.
  intros Hlen Hi Hset. unfold spec_set in Hset.
  destruct (spec_slide false i first vals) as [f v] eqn:E.
  pose proof (spec_slide_bounds _ _ _ _ _ _ Hlen Hi E) as (Hl & Hf & Hlast).
  injection Hset as <- <-. split; [lia|]. split.
  - apply list_lookup_insert_eq. rewrite Hl. unfold spec_last in *. lia.
  - split; [lia|]. rewrite <- Hlast. unfold spec_last. by rewrite length_insert.
Qed.

(** The check is total, rejects every remembered number, and remembers the one
    it accepts. *)
Lemma areplay_check_spec win acc q :
  areplay_inv win acc -> in_range 32 q ->
  exists r, areplay_check q win = Ok r /\
    match r with
    | None => True
    | Some win1 => (q ∉ acc) /\ areplay_inv win1 (q :: acc)
    end.
Proof.
  intros (first & vals & Hr & Hf & Hlast & Hd & Hacc) Hq.
  pose proof Hr as (Hb & Hl & _ & Hn & _). unfold areplay_check.
  rewrite <- (idx_of_seqnb q) by done. unfold get_index_first. rewrite Hb.
  rewrite idx_lt_near by done. destruct (Z.ltb_spec q first) as [Hlt|Hge]; [by exists None|].
  rewrite (get_default_spec win first vals) by done. cbn [mbind outcome_bind].
  unfold spec_get_default. rewrite bool_decide_eq_true_2 by lia.
  destruct (default false (vals !! Z.to_nat (q - first))) eqn:Hseen; [by exists None|].
  assert (Hnear : near first (Z.max q (spec_last first vals))).
  { split; [done|]. destruct (Z.max_spec q (spec_last first vals)) as [[_ ->]|[_ ->]]; done. }
  destruct (set_spec win first vals q true Hr Hge Hnear) as (win1 & -> & Hd1 & _ & Hr1).
  cbn [mbind outcome_bind]. eexists; split; [done|]. rewrite Hd in Hd1, Hr1.
  rewrite idx_of_seqnb by done. split.
  - intros Hin%Hacc. destruct Hin as [?|[? Hv]]; [lia|]. by rewrite Hv in Hseen.
  - destruct (spec_set false q true first vals) as [f' v'] eqn:E. exists f', v'.
    pose proof (spec_set_marked q first vals f' v' ltac:(lia) Hge E) as (? & Hm & ? & Hl').
    split; [done|]. rewrite Hl'. split; [unfold in_range in *; lia|].
    split; [unfold in_range in *; lia|]. split; [done|].
    intros q' [->|Hq']%elem_of_cons; [by right|].
    eapply spec_set_older; [|exact Hge|exact E|by apply Hacc]. lia.
Qed.

Lemma areplay_open_inv : areplay_inv areplay_open [].
Proof.
  exists 0, (replicate AREPLAY_WIN_SIZE_DFL false). split.
  - apply (ctor_represents AREPLAY_WIN_SIZE_DFL false 0). by vm_compute.
  - split_and!; try by vm_compute. by intros q ?%elem_of_nil.
Qed.

(* ------------------------------------------------------------------ *)
(** * Lemmas: reception *)
(* ------------------------------------------------------------------ *)

Section recv.
Context `{HC : CryptoLaws}.

Lemma pkt_bytes_ok s l : wf s -> contents s = Some <$> l -> pkt_bytes s = Ok l.
Proof.
  intros Hwf Hc. pose proof Hwf as (? & ? & _)%wf_iff. unfold pkt_bytes, used_length.
  rewrite mem_read_ok by (unfold full_length in *; lia). simpl.
  change (zone _ _ _) with (contents s). rewrite Hc. apply init_bytes_Some.
Qed.

(** Reception up to the anti-replay test, on the bytes of the packet. *)
Lemma recv_spec pkt win l :
  wf pkt -> contents pkt = Some <$> l -> bytes_ok l ->
  Z.of_nat (full_length pkt) < 2 ^ (SIZE_T_BITS - 1) ->
  let body := take (length l - auth_output_len) l in
  if bool_decide (length l < auth_output_len)%nat
  then recv_pkt_from_lower pkt win = AssertFail
  else if negb (datum_eq (drop (length l - auth_output_len) l) (auth_output body))
  then recv_pkt_from_lower pkt win = Ok (BAD_FULL_AUTH, pkt, win)
  else if bool_decide (length body < 4)%nat
  then exists pkt', recv_pkt_from_lower pkt win = Ok (BOGUS_PKT, pkt', win)
  else exists pkt2, wf pkt2 /\ contents pkt2 = Some <$> drop 4 body /\
    recv_pkt_from_lower pkt win =
      (let* checked := areplay_check (pkt_seqnb body) win in
       match checked with
       | None => Ok (REPLAYED_PKT, pkt2, win)
       | Some win1 =>
         let* (plaintxt, len) := decipher (pkt_seqnb body) (drop 4 body) in
         let* pkt3 := pkt_ctor plaintxt (wrap SIZE_T_BITS len) in
         Ok (OK, pkt3, win1)
       end).
Proof.
  intros Hwf Hc Hl Hsz body. pose proof (contents_length _ Hwf) as Hlen.
  rewrite Hc, length_fmap in Hlen. unfold recv_pkt_from_lower.
  case_bool_decide as Hshort.
  { unfold tail_peek, dbgnet_assert, used_length. by rewrite bool_decide_eq_false_2 by lia. }
  rewrite tail_peek_spec by (done || lia). rewrite Hc, <- fmap_drop, init_bytes_Some.
  rewrite <- Hlen. cbn [mbind outcome_bind]. unfold used_length. rewrite <- Hlen.
  destruct (read_head_bytes (length l - auth_output_len) pkt l Hwf Hc) as [Hrd _]; [lia|].
  destruct (mem_read _ _ _) as [d| | |]; try done. cbn [mbind outcome_bind] in *.
  rewrite Hrd. cbn [mbind outcome_bind]. fold body.
  destruct (datum_eq _ _); cbn [negb]; [|done].
  pose proof (tail_free_spec auth_output_len pkt Hwf) as Htf.
  rewrite bool_decide_eq_true_2 in Htf by lia. destruct Htf as (pkt1 & -> & Hwf1 & Hc1 & _).
  cbn [mbind outcome_bind]. rewrite Hc, <- Hlen, <- fmap_take in Hc1. fold body in Hc1.
  assert (Hbody : bytes_ok body) by by apply Forall_take.
  pose proof (get_spec (c := u32_codec) body pkt1 Hwf1 Hbody Hc1) as Hg.
  unfold get_refines in Hg. change (Codec.get u32_codec pkt1) with (get_u32 pkt1) in Hg.
  simpl wire_get in Hg. unfold wire_uint, wire_get_head in Hg.
  case_bool_decide; cbn [mbind outcome_bind] in Hg.
  { rewrite Hg. eauto. }
  destruct Hg as (pkt2 & -> & Hwf2 & Hc2). exists pkt2. split; [done|]. split; [done|].
  unfold pkt_seqnb. destruct (areplay_check _ win) as [[win1|]| | |]; cbn [mbind outcome_bind]; try done.
  rewrite (pkt_bytes_ok _ _ Hwf2 Hc2). cbn [mbind outcome_bind].
  destruct (decipher _ _) as [[plain len]| | |]; cbn [mbind outcome_bind]; try done.
  rewrite bool_decide_eq_false_2; [done|].
  destruct (wrap_range SIZE_T_BITS len); [done|lia].
Qed.

(** An accepted packet passed the anti-replay test; a refused one did not
    change the window. *)
Lemma recv_window pkt win l e pkt' win' :
  wf pkt -> contents pkt = Some <$> l -> bytes_ok l ->
  Z.of_nat (full_length pkt) < 2 ^ (SIZE_T_BITS - 1) ->
  recv_pkt_from_lower pkt win = Ok (e, pkt', win') ->
  if bool_decide (e = OK)
  then (4 <= length l)%nat /\ areplay_check (pkt_seqnb l) win = Ok (Some win')
  else win' = win.
Proof.
  intros Hwf Hc Hl Hsz Hr. pose proof (recv_spec pkt win l Hwf Hc Hl Hsz) as Hs. cbn zeta in Hs.
  case_bool_decide; [by rewrite Hs in Hr|].
  destruct (negb _). { rewrite Hs in Hr. by injection Hr as <- _ <-. }
  case_bool_decide. { destruct Hs as [? Hs]. rewrite Hs in Hr. by injection Hr as <- _ <-. }
  destruct Hs as (pkt2 & _ & _ & Hs). rewrite Hs in Hr. clear Hs.
  assert (Hq : pkt_seqnb (take (length l - auth_output_len) l) = pkt_seqnb l).
  { unfold pkt_seqnb. rewrite take_take. do 2 f_equal. rewrite length_take in *. lia. }
  rewrite Hq in Hr. rewrite length_take in *.
  destruct (areplay_check (pkt_seqnb l) win) as [[win1|]| | |]; cbn [mbind outcome_bind] in Hr; try done.
  - destruct (decipher _ _) as [[? ?]| | |]; cbn [mbind outcome_bind] in Hr; try done.
    destruct (pkt_ctor _ _) as [?| | |]; cbn [mbind outcome_bind] in Hr; try done.
    injection Hr as <- _ <-. rewrite bool_decide_eq_true_2 by done. split; [lia|done].
  - by injection Hr as <- _ <-.
Qed.

Lemma pkt_seqnb_range l : bytes_ok l -> (4 <= length l)%nat -> in_range 32 (pkt_seqnb l).
Proof.
  intros Hl Hlen. unfold pkt_seqnb, in_range.
  pose proof (be_value_bound (take 4 l) (Forall_take _ 4 _ Hl)) as Hb.
  rewrite length_take in Hb. by replace (4 `min` length l)%nat with 4%nat in Hb by lia.
Qed.

Lemma recv_run_inv pkts win seen acc win' :
  pkts_ok pkts -> areplay_inv win seen -> NoDup seen ->
  recv_run pkts win = Ok (acc, win') ->
  NoDup (rev acc ++ seen) /\ areplay_inv win' (rev acc ++ seen).
Proof.
  intros Hok. revert win seen acc. induction Hok as [|l pkts [Hl Hsz] Hok IH];
    intros win seen acc Hinv Hnd Hr; simpl in Hr.
  { by injection Hr as <- <-. }
  destruct (internal_ctor_docopy_spec l) as (pkt & Hp & Hwf & Hc & Hlen). rewrite Hp in Hr.
  cbn [mbind outcome_bind] in Hr.
  destruct (recv_pkt_from_lower pkt win) as [[[e p] win1]| | |] eqn:Hrecv;
    cbn [mbind outcome_bind] in Hr; try done.
  destruct (recv_run pkts win1) as [[acc1 win2]| | |] eqn:Hrun;
    cbn [mbind outcome_bind] in Hr; try done.
  injection Hr as Hacc <-. rewrite <- Hlen in Hsz.
  pose proof (recv_window _ _ _ _ _ _ Hwf Hc Hl Hsz Hrecv) as Hw. case_bool_decide.
  - destruct Hw as [H4 Hchk].
    destruct (areplay_check_spec win seen _ Hinv (pkt_seqnb_range l Hl H4)) as (r & Hr & Hpost).
    rewrite Hchk in Hr. injection Hr as <-. destruct Hpost as [Hnin Hinv1].
    subst acc. simpl. rewrite <- app_assoc. simpl.
    apply (IH win1); [done|by constructor|done].
  - subst. by apply (IH win).
Qed.

(* ------------------------------------------------------------------ *)
(** * Lemmas: padding and transmission *)
(* ------------------------------------------------------------------ *)

Lemma padding_check_ok n i src p :
  (forall j, (i <= j < i + n)%nat -> src !! (length src - 1 - j)%nat = Some p) ->
  padding_check n i src p = true.
Proof.
  revert i. induction n as [|n IH]; intros i Hj; simpl; [done|].
  rewrite bool_decide_eq_true_2 by (apply Hj; lia). apply IH. intros j ?. apply Hj. lia.
Qed.

(** Parsing what [padding_build] appended. *)
Lemma padding_parse_build src :
  exists p pad, padding_cpu_len (length src) = Ok p /\ padding_build (length src) = Ok pad /\
    length pad = p /\ bytes_ok pad /\ padding_parse (src ++ pad) = Ok (Some p).
Proof.
  unfold padding_build, padding_parse, padding_cpu_len.
  destruct require_padding; simpl; [|exists 0%nat, []; split_and!; [done|done|done|constructor|done]].
  pose proof block_len_ok. set (p := (block_len - length src mod block_len)%nat).
  assert (0 < p <= block_len)%nat.
  { unfold p. pose proof (Nat.mod_upper_bound (length src) block_len). lia. }
  rewrite bool_decide_eq_true_2 by lia. simpl.
  rewrite wrap_small by (unfold in_range; change (2 ^ 8) with 256; lia).
  exists p, (replicate p (Z.of_nat p)). split; [done|]. split; [done|].
  split; [apply length_replicate|]. split.
  { apply Forall_replicate. unfold is_byte, in_range. change (2 ^ 8) with 256. lia. }
  assert (Hlk : forall j, (j < p)%nat ->
    (src ++ replicate p (Z.of_nat p)) !! (length src + p - 1 - j)%nat = Some (Z.of_nat p)).
  { intros j Hj. rewrite lookup_app_r by lia. apply lookup_replicate_2. lia. }
  rewrite length_app, length_replicate, bool_decide_eq_true_2 by lia. simpl.
  pose proof (Hlk 0%nat ltac:(lia)) as Hlast. rewrite Nat.sub_0_r in Hlast. rewrite Hlast.
  rewrite bool_decide_eq_false_2 by lia.
  rewrite padding_check_ok; [by rewrite Nat2Z.id|].
  intros j Hj. rewrite length_app, length_replicate. apply Hlk. lia.
Qed.

Lemma decipher_encipher iv src :
  bytes_ok src ->
  exists n c, get_ciphertxt_len (length src) = Ok n /\ encipher iv src n = Ok c /\
    bytes_ok c /\ length c = n /\ (length src <= n)%nat /\
    exists d, decipher iv c = Ok (src ++ d, Z.of_nat (length src)).
Proof.
  intros Hsrc. destruct (padding_parse_build src) as (p & pad & Hp & Hb & Hlen & Hpad & Hparse).
  unfold get_ciphertxt_len, encipher, get_ciphertxt_len. rewrite Hp. cbn [mbind outcome_bind].
  exists (length src + p)%nat, (gcry_encrypt iv (src ++ pad)). split; [done|].
  rewrite !bool_decide_eq_true_2 by lia. cbn [dbg_assert]. rewrite Hb.
  split; [done|]. assert (Hsp : bytes_ok (src ++ pad)) by by apply Forall_app.
  split; [by apply encrypt_bytes|]. rewrite encrypt_length, length_app.
  split; [lia|]. split; [lia|]. exists pad.
  unfold decipher. rewrite decrypt_encrypt, Hparse by done. cbn [mbind outcome_bind].
  rewrite encrypt_length, length_app. do 2 f_equal. lia.
Qed.

(** The bytes of a secured packet. *)
Lemma xmit_spec seqnb pkt p :
  wf pkt -> contents pkt = Some <$> p -> bytes_ok p -> in_range 32 seqnb ->
  exists out c, xmit_pkt_from_upper seqnb pkt = Ok (out, wrap 32 (seqnb + 1)) /\ wf out /\
    bytes_ok c /\ (length p <= length c)%nat /\
    (exists d, decipher seqnb c = Ok (p ++ d, Z.of_nat (length p))) /\
    contents out =
      Some <$> ((be_bytes 4 seqnb ++ c) ++ auth_output (be_bytes 4 seqnb ++ c)).
Proof.
  intros Hwf Hc Hp Hq. pose proof (contents_length _ Hwf) as Hlen. rewrite Hc, length_fmap in Hlen.
  destruct (decipher_encipher seqnb p Hp) as (n & c & Hn & He & Hcb & Hcl & Hle & Hd).
  unfold xmit_pkt_from_upper, used_length. rewrite <- Hlen, Hn. cbn [mbind outcome_bind].
  rewrite (pkt_bytes_ok _ _ Hwf Hc). cbn [mbind outcome_bind]. rewrite He. cbn [mbind outcome_bind].
  unfold serial_prealloc, INIT_LENGTH_DFL, HEAD_LENGTH_DFL, GROW_LENGTH_DFL.
  rewrite allocate_ctor_ok by lia. cbn [mbind outcome_bind].
  set (s0 := Serial _ _ _ _).
  assert (Hwf0 : wf s0) by (apply wf_iff; unfold s0, full_length; cbn [full_data used_off used_len grow_length];
    rewrite length_replicate; lia).
  rewrite (proj1 Hwf0). cbn [dbg_assert mbind outcome_bind].
  destruct (put_spec (c := u32_codec) seqnb s0 Hq Hwf0) as (s1 & Hp1 & Hwf1 & Hc1).
  change (put u32_codec seqnb s0) with (put_u32 seqnb s0) in Hp1.
  change (contents s0) with (@nil cell) in Hc1. rewrite app_nil_l in Hc1.
  rewrite Hp1. cbn [mbind outcome_bind].
  destruct (tail_add_spec c s1 Hwf1) as (s2 & -> & Hwf2 & Hc2 & _). cbn [mbind outcome_bind].
  rewrite Hc1, <- fmap_app in Hc2. rewrite (pkt_bytes_ok _ _ Hwf2 Hc2). cbn [mbind outcome_bind].
  destruct (tail_add_spec (auth_output (be_bytes 4 seqnb ++ c)) s2 Hwf2) as (s3 & Hs3 & Hwf3 & Hc3 & _).
  change (wire_put u32_codec seqnb) with (be_bytes 4 seqnb) in *.
  rewrite Hs3. cbn [mbind outcome_bind]. exists s3, c. split; [done|].
  split; [done|]. split; [done|]. split; [lia|]. split; [done|].
  by rewrite Hc3, Hc2, <- fmap_app.
Qed.

(* ------------------------------------------------------------------ *)
(** * Properties *)
(* ------------------------------------------------------------------ *)

(** C3. Anti-replay: whatever packets a connection receives, forged, reordered
    or repeated, the sequence numbers of those it accepts are pairwise
    distinct over the whole 32-bit range; a replayed packet is never
    accepted. *)
Theorem no_replay_accepted (pkts : list (list Z)) (acc : list Z) (win : slidwin_t bool)
    (Hpkts : pkts_ok pkts) (Hrun : recv_run pkts areplay_open = Ok (acc, win)) :
  NoDup acc.
Proof.
  destruct (recv_run_inv pkts areplay_open [] acc win Hpkts areplay_open_inv (NoDup_nil_2) Hrun)
    as [Hnd _].
  rewrite app_nil_r in Hnd. by rewrite (Permutation_rev acc).
Qed.

(** C24. Round trip of a secured packet: what the transmitter sends with a
    sequence number the receiver has not seen is accepted, and the receiver
    hands up exactly the packet the transmitter was given. *)
Theorem xmit_recv_roundtrip (seqnb : Z) (pkt : serial_t) (p : list Z) (win win1 : slidwin_t bool)
    (Hwf : wf pkt) (Hc : contents pkt = Some <$> p) (Hp : bytes_ok p) (Hq : in_range 32 seqnb)
    (Hnew : areplay_check seqnb win = Ok (Some win1)) :
  exists out, xmit_pkt_from_upper seqnb pkt = Ok (out, wrap 32 (seqnb + 1)) /\
    (Z.of_nat (full_length out) < 2 ^ (SIZE_T_BITS - 1) ->
     exists pkt', recv_pkt_from_lower out win = Ok (OK, pkt', win1) /\
       contents pkt' = Some <$> p).
Proof.
  destruct (xmit_spec seqnb pkt p Hwf Hc Hp Hq) as (out & c & Hx & Hwfo & Hcb & Hlc & (d & Hd) & Hco).
  exists out. split; [done|]. intros Hsz.
  set (body := be_bytes 4 seqnb ++ c) in *.
  assert (Hok : bytes_ok (body ++ auth_output body)).
  { apply Forall_app; split; [apply Forall_app; split; [apply be_bytes_ok|done]|apply auth_bytes]. }
  pose proof (recv_spec out win _ Hwfo Hco Hok Hsz) as Hr. cbn zeta in Hr.
  rewrite length_app, auth_length in Hr.
  replace (length body + auth_output_len - auth_output_len)%nat with (length body) in Hr by lia.
  rewrite take_app_length, drop_app_length in Hr.
  rewrite bool_decide_eq_false_2 in Hr by lia.
  assert (datum_eq (auth_output body) (auth_output body) = true) as Heq.
  { unfold datum_eq. apply Z.eqb_eq, datum_compare_zero. done. }
  rewrite Heq in Hr. cbn [negb] in Hr.
  assert (Hb4 : length body = (4 + length c)%nat).
  { unfold body. by rewrite length_app, be_bytes_length. }
  rewrite bool_decide_eq_false_2 in Hr by lia.
  destruct (take_drop_app_exact (be_bytes 4 seqnb) c 4 (be_bytes_length 4 seqnb)) as [Ht4 Hd4].
  assert (Hseq : pkt_seqnb body = seqnb).
  { unfold pkt_seqnb, body. rewrite Ht4. by apply be_value_bytes_small. }
  assert (Hdrop : drop 4 body = c) by apply Hd4. rewrite Hseq, Hdrop in Hr.
  destruct Hr as (pkt2 & _ & _ & ->). rewrite Hnew. cbn [mbind outcome_bind]. rewrite Hd.
  cbn [mbind outcome_bind].
  pose proof (contents_length _ Hwfo) as Hlo. rewrite Hco, length_fmap, length_app, Hb4 in Hlo.
  pose proof Hwfo as (? & ? & _)%wf_iff.
  rewrite wrap_small.
  - unfold pkt_ctor. rewrite length_app, bool_decide_eq_true_2 by lia. rewrite Nat2Z.id, take_app_length.
    destruct (internal_ctor_docopy_spec p) as (pkt3 & -> & _ & Hc3 & _).
    cbn [mbind outcome_bind]. eauto.
  - unfold in_range. rewrite (pow2_split SIZE_T_BITS) by done. lia.
Qed.

(** A packet shorter than the authentication code: the receiver means to
    return [BOGUS_PKT] when [tail_peek] throws, but [tail_peek] asserts the
    length instead, so any peer that can reach the port aborts the process
    with one short datagram. *)
Theorem short_packet_aborts (pkt : serial_t) (win : slidwin_t bool)
    (Hlen : (used_length pkt < auth_output_len)%nat) :
  recv_pkt_from_lower pkt win = AssertFail.
Proof.
  unfold recv_pkt_from_lower, tail_peek, dbgnet_assert.
  by rewrite bool_decide_eq_false_2 by lia.
Qed.
End recv.

(* ------------------------------------------------------------------ *)
(** * The properties at concrete inputs *)
(* ------------------------------------------------------------------ *)

(** A toy cipher and MAC satisfying the laws: each byte is xored with a byte of
    the iv, and the code is the sum of the bytes followed by their number. *)
#[local] Instance toy_crypto : CryptoLib := {|
  gcry_encrypt := fun iv d => (fun b => (b + iv) mod 256) <$> d;
  gcry_decrypt := fun iv d => (fun b => (b - iv) mod 256) <$> d;
  auth_output := fun d => [fold_right Z.add 0 d mod 256; Z.of_nat (length d) mod 256];
  auth_output_len := 2;
  block_len := 8;
  require_padding := true |}.

Lemma toy_laws : CryptoLaws toy_crypto.
Proof.
  assert (Hb : forall z, is_byte (z mod 256)).
  { intros z. pose proof (Z.mod_pos_bound z 256). unfold is_byte, in_range. change (2 ^ 8) with 256. lia. }
  split; cbn.
  - intros iv d Hd. rewrite <- list_fmap_compose. rewrite <- (list_fmap_id d) at 2.
    apply list_fmap_ext. intros i b Hi. unfold compose. rewrite Zminus_mod_idemp_l.
    replace (b + iv - iv) with b by lia. apply Z.mod_small.
    eapply Forall_lookup in Hd as [??]; [|done]. change (2 ^ 8) with 256 in *. done.
  - intros iv d. apply length_fmap.
  - intros iv d _. apply Forall_fmap, Forall_true. intros b. apply Hb.
  - done.
  - intros d. by repeat constructor; apply Hb.
  - lia.
Qed.

(** Two packets with the same sequence number and one with the next. *)
Lemma no_replay_accepted_witness :
  NoDup [7; 8].
Proof.
  pose (enc := fun q : Z => let body := be_bytes 4 q ++ gcry_encrypt q [1; 7; 7; 7; 7; 7; 7; 7] in
                        body ++ auth_output body).
  pose (win := match recv_run [enc 7; enc 7; enc 8] areplay_open with
               | Ok (_, w) => w | _ => areplay_open end).
  refine (no_replay_accepted [enc 7; enc 7; enc 8] [7; 8] win _ _).
  2: { vm_compute. reflexivity. }
  repeat constructor; vm_compute; congruence.
Defined.

Lemma xmit_recv_roundtrip_witness :
  exists win1 out, areplay_check 5 areplay_open = Ok (Some win1) /\
    xmit_pkt_from_upper 5 (Serial (Some <$> [104; 105]) 0 2 256) = Ok (out, 6) /\
    exists pkt', recv_pkt_from_lower out areplay_open = Ok (OK, pkt', win1) /\
      contents pkt' = Some <$> [104; 105].
Proof.
  destruct (areplay_check 5 areplay_open) as [[win1|]| | |] eqn:E; try (vm_compute in E; discriminate).
  destruct (xmit_recv_roundtrip (HC := toy_laws) 5 (Serial (Some <$> [104; 105]) 0 2 256) [104; 105]
    areplay_open win1) as (out & Hx & Hr).
  - split; [reflexivity|]. simpl. lia.
  - reflexivity.
  - repeat constructor; vm_compute; congruence.
  - split; vm_compute; congruence.
  - exact E.
  - exists win1, out. split; [reflexivity|]. split; [exact Hx|]. apply Hr.
    vm_compute in Hx. injection Hx as <-. vm_compute. reflexivity.
Defined.

Lemma short_packet_aborts_witness :
  recv_pkt_from_lower (Serial (Some <$> [1]) 0 1 256) areplay_open = AssertFail.
Proof. apply short_packet_aborts. vm_compute. lia. Defined.
