(* ===== verification/Interval.v ===== *)
(** Sets of unsigned integers kept as sorted lists of disjoint ranges:
    [interval_item_t<T>] and [interval_t<T>]
    (src/src/neoip_base/tools/interval/), for a [T] of [w] bits, whose [+ 1]
    wraps.

    The vector and the iterator of the C++ loops are a list split at the
    iterator.  The specification is the set of the covered values. *)
From S2P Require Import Prelude Serial Codec.

(* ------------------------------------------------------------------ *)
(** * Items *)
(* ------------------------------------------------------------------ *)

Record interval_item_t := Item { min_value : Z; max_value : Z }.
Abbreviation interval_t := (list interval_item_t).

#[export] Instance interval_item_eq_dec : EqDecision interval_item_t.
Proof. solve_decision. Defined.

Section ops.
Context (w : Z).

Definition item_ctor (min_value max_value : Z) : outcome interval_item_t :=
  assert! min_value <=? max_value in
  Ok (Item min_value max_value).

Definition item_one (one_value : Z) : interval_item_t := Item one_value one_value.

Definition item_length (i : interval_item_t) : Z :=
  wrap w (wrap w (max_value i - min_value i) + 1).

Definition set_min_value (v : Z) (i : interval_item_t) : outcome interval_item_t :=
  assert! v <=? max_value i in
  Ok (Item v (max_value i)).

Definition set_max_value (v : Z) (i : interval_item_t) : outcome interval_item_t :=
  assert! min_value i <=? v in
  Ok (Item (min_value i) v).

Definition item_eq (a b : interval_item_t) : bool :=
  if negb (min_value a =? min_value b) then false
  else if negb (max_value a =? max_value b) then false
  else true.

Definition item_is_distinct (a b : interval_item_t) : bool :=
  if max_value a <? min_value b then true
  else if max_value b <? min_value a then true
  else false.

Definition item_fully_include (a other : interval_item_t) : bool :=
  if (max_value other <=? max_value a) && (min_value a <=? min_value other) then true else false.

Definition item_is_contiguous (a other : interval_item_t) : bool :=
  if wrap w (max_value a + 1) =? min_value other then true
  else if min_value a =? wrap w (max_value other + 1) then true
  else false.

Definition item_unify (a other : interval_item_t) : outcome interval_item_t :=
  assert! negb (item_is_distinct a other) || item_is_contiguous a other in
  let min_val := if min_value other <? min_value a then min_value other else min_value a in
  let max_val := if max_value a <? max_value other then max_value other else max_value a in
  Ok (Item min_val max_val).

(* ------------------------------------------------------------------ *)
(** * Queries *)
(* ------------------------------------------------------------------ *)

(** The loop of [is_sane] from its second item, [prev] being the item before. *)
Fixpoint is_sane_from (prev : interval_item_t) (l : interval_t) : bool :=
  match l with
  | [] => true
  | cur :: l' =>
    if max_value cur <? min_value cur then false
    else if min_value cur <=? max_value prev then false
    else if min_value cur <=? wrap w (max_value prev + 1) then false
    else is_sane_from cur l'
  end.

Definition is_sane (iv : interval_t) : bool :=
  match iv with
  | [] => true
  | cur :: l => if max_value cur <? min_value cur then false else is_sane_from cur l
  end.

Definition total_length (iv : interval_t) : Z :=
  fold_left (fun total item => wrap w (total + item_length item)) iv 0.

Fixpoint is_distinct_item (iv : interval_t) (item : interval_item_t) : bool :=
  match iv with
  | [] => true
  | it :: iv' =>
    if max_value item <? min_value it then true
    else if negb (item_is_distinct it item) then false
    else is_distinct_item iv' item
  end.

Definition is_distinct (iv other : interval_t) : bool :=
  forallb (is_distinct_item iv) other.

Fixpoint fully_include_item (iv : interval_t) (item : interval_item_t) : bool :=
  match iv with
  | [] => false
  | it :: iv' =>
    if max_value item <? min_value it then false
    else if item_fully_include it item then true
    else fully_include_item iv' item
  end.

Definition fully_include (iv other : interval_t) : bool :=
  forallb (fully_include_item iv) other.

Definition contain (iv : interval_t) (element : Z) : bool :=
  fully_include_item iv (item_one element).

Fixpoint get_item_containing (iv : interval_t) (element : Z) : option interval_item_t :=
  match iv with
  | [] => None
  | item :: iv' =>
    if element <? min_value item then None
    else if max_value item <? element then get_item_containing iv' element
    else Some item
  end.

(** The loop of [compare] on two vectors of the same size. *)
Fixpoint compare_items (a b : interval_t) : outcome Z :=
  match a, b with
  | i1 :: a', i2 :: b' =>
    if item_eq i1 i2 then compare_items a' b'
    else if min_value i1 <? min_value i2 then Ok (-1)
    else if min_value i2 <? min_value i1 then Ok 1
    else if max_value i1 <? max_value i2 then Ok (-1)
    else if max_value i2 <? max_value i1 then Ok 1
    else AssertFail
  | _, _ => Ok 0
  end.

Definition compare (a b : interval_t) : outcome Z :=
  assert! is_sane a && is_sane b in
  if bool_decide (length a < length b)%nat then Ok (-1)
  else if bool_decide (length b < length a)%nat then Ok 1
  else compare_items a b.

(* ------------------------------------------------------------------ *)
(** * Arithmetic *)
(* ------------------------------------------------------------------ *)

(** First pass of [+=]: the items before the place of [base], and the rest. *)
Fixpoint add_find (base : interval_item_t) (iv : interval_t) : interval_t * interval_t :=
  match iv with
  | it :: iv' =>
    if (max_value it <? min_value base) && negb (item_is_contiguous base it)
    then let (before, after) := add_find base iv' in (it :: before, after)
    else ([], iv)
  | [] => ([], [])
  end.

(** Second pass: absorb what overlaps or touches. *)
Fixpoint add_absorb (base : interval_item_t) (after : interval_t)
    : outcome (interval_item_t * interval_t) :=
  match after with
  | it :: after' =>
    if (min_value it <=? max_value base) || item_is_contiguous base it
    then let* base' := item_unify base it in add_absorb base' after'
    else Ok (base, after)
  | [] => Ok (base, [])
  end.

Definition add_item (iv : interval_t) (item : interval_item_t) : outcome interval_t :=
  let (before, after) := add_find item iv in
  let* (base, after') := add_absorb item after in
  let iv' := before ++ base :: after' in
  assert! is_sane iv' in
  Ok iv'.

(** First pass of [-=]. *)
Fixpoint sub_find (base : interval_item_t) (iv : interval_t) : interval_t * interval_t :=
  match iv with
  | it :: iv' =>
    if max_value it <? min_value base
    then let (before, after) := sub_find base iv' in (it :: before, after)
    else ([], iv)
  | [] => ([], [])
  end.

(** Second pass: what replaces the items from the iterator on. *)
Fixpoint sub_exclude (base : interval_item_t) (after : interval_t) : outcome interval_t :=
  match after with
  | temp :: after' =>
    if min_value temp <=? max_value base then
      assert! negb (item_is_distinct temp base) in
      let* less := if min_value temp <? min_value base
                   then let* i := item_ctor (min_value temp) (wrap w (min_value base - 1)) in Ok [i]
                   else Ok [] in
      let* more := if max_value base <? max_value temp
                   then let* i := item_ctor (wrap w (max_value base + 1)) (max_value temp) in Ok [i]
                   else Ok [] in
      let* rest := sub_exclude base after' in
      Ok (less ++ more ++ rest)
    else Ok after
  | [] => Ok []
  end.

Definition sub_item (iv : interval_t) (item : interval_item_t) : outcome interval_t :=
  let (before, after) := sub_find item iv in
  let* after' := sub_exclude item after in
  let iv' := before ++ after' in
  assert! is_sane iv' in
  Ok iv'.

(** [+=] and [-=] with an interval. *)
Fixpoint op_all (op : interval_t -> interval_item_t -> outcome interval_t)
    (iv other : interval_t) : outcome interval_t :=
  match other with
  | [] => Ok iv
  | it :: other' => let* iv' := op iv it in op_all op iv' other'
  end.

Definition add (iv other : interval_t) : outcome interval_t :=
  let* iv' := op_all add_item iv other in
  assert! is_sane iv' in
  Ok iv'.

Definition sub (iv other : interval_t) : outcome interval_t :=
  let* iv' := op_all sub_item iv other in
  assert! is_sane iv' in
  Ok iv'.

Definition interval_ctor (item : interval_item_t) : outcome interval_t := add_item [] item.

(* ------------------------------------------------------------------ *)
(** * Serialization, given the codec of [T] *)
(* ------------------------------------------------------------------ *)

Context (tc : codec Z).

Definition wire_put_item (i : interval_item_t) : list Z :=
  wire_put tc (min_value i) ++ wire_put tc (max_value i).

Definition wire_get_item (l : list Z) : outcome (interval_item_t * list Z) :=
  let* (min_val, l1) := wire_get tc l in
  let* (max_val, l2) := wire_get tc l1 in
  let* i := item_ctor min_val max_val in
  Ok (i, l2).

Definition wire_put_interval (iv : interval_t) : outcome (list Z) :=
  assert! is_sane iv in
  Ok (wire_put u32_codec (wrap 32 (Z.of_nat (length iv))) ++ concat (wire_put_item <$> iv)).

Fixpoint wire_get_items (n : nat) (iv : interval_t) (l : list Z)
    : outcome (interval_t * list Z) :=
  match n with
  | O => Ok (iv, l)
  | S n' =>
    let* (item, l1) := wire_get_item l in
    let* iv' := add_item iv item in
    wire_get_items n' iv' l1
  end.

Definition wire_get_interval (l : list Z) : outcome (interval_t * list Z) :=
  let* (nb_elem, l1) := wire_get u32_codec l in
  wire_get_items (Z.to_nat nb_elem) [] l1.

(* ------------------------------------------------------------------ *)
(** * Specification: sets of values *)
(* ------------------------------------------------------------------ *)

Definition item_covers (i : interval_item_t) (x : Z) : Prop := min_value i <= x <= max_value i.
Definition covers (iv : interval_t) (x : Z) : Prop := exists i, i ∈ iv /\ item_covers i x.

Definition item_ok (i : interval_item_t) : Prop :=
  0 <= min_value i /\ min_value i <= max_value i /\ max_value i < 2 ^ w.

(** Sorted, disjoint, not touching, non-empty ranges of [w]-bit values. *)
Fixpoint sorted_from (lo : Z) (iv : interval_t) : Prop :=
  match iv with
  | [] => True
  | i :: iv' => lo <= min_value i /\ min_value i <= max_value i /\ max_value i < 2 ^ w /\
                sorted_from (max_value i + 2) iv'
  end.

Definition sane (iv : interval_t) : Prop := sorted_from 0 iv.

(** No range ends at the largest value, whose successor wraps. *)
Definition below_max (iv : interval_t) : Prop :=
  Forall (fun i => max_value i + 1 < 2 ^ w) iv.
End ops.

(* ------------------------------------------------------------------ *)
(** * Lemmas *)
(* ------------------------------------------------------------------ *)

Lemma covers_nil x : covers [] x <-> False.
Proof. split; [|done]. intros (i & Hi & _). by apply elem_of_nil in Hi. Qed.

Lemma covers_cons i iv x : covers (i :: iv) x <-> item_covers i x \/ covers iv x.
Proof.
  unfold covers. split.
  - intros (j & [->|Hj]%elem_of_cons & Hx); eauto.
  - intros [Hx|(j & Hj & Hx)]; [exists i|exists j]; split; auto using list_elem_of_here, list_elem_of_further.
Qed.

Lemma covers_app a b x : covers (a ++ b) x <-> covers a x \/ covers b x.
Proof.
  induction a as [|i a IH]; simpl.
  - rewrite covers_nil. tauto.
  - rewrite !covers_cons, IH. tauto.
Qed.

(** Rewrites coverage down to the items. *)
Ltac covers_simpl := rewrite ?covers_app, ?covers_cons, ?covers_nil; unfold item_covers in *; simpl in *.

Section lemmas.
Context (w : Z).

Lemma sorted_from_mono lo lo' iv : sorted_from w lo iv -> lo' <= lo -> sorted_from w lo' iv.
Proof. destruct iv; simpl; intuition lia. Qed.

Lemma sorted_from_covers lo iv x : sorted_from w lo iv -> covers iv x -> lo <= x < 2 ^ w.
Proof.
  revert lo. induction iv as [|i iv IH]; intros lo Hs; rewrite ?covers_nil, ?covers_cons; [done|].
  simpl in Hs. destruct Hs as (H1 & H2 & H3 & Hs). intros [Hx|Hx].
  - unfold item_covers in Hx. lia.
  - specialize (IH _ Hs Hx). lia.
Qed.

Lemma is_sane_from_iff prev l :
  0 <= max_value prev < 2 ^ w -> Forall (fun i => max_value i < 2 ^ w) l ->
  is_sane_from w prev l = true <-> sorted_from w (max_value prev + 2) l.
Proof.
  intros Hp Hl. revert prev Hp. induction Hl as [|i l Hi Hl IH]; intros prev Hp; simpl; [done|].
  destruct (Z.ltb_spec (max_value i) (min_value i)); [split; [done|lia]|].
  destruct (Z.leb_spec (min_value i) (max_value prev)); [split; [done|lia]|].
  rewrite wrap_small by (unfold in_range; lia).
  destruct (Z.leb_spec (min_value i) (max_value prev + 1)); [split; [done|lia]|].
  rewrite IH by lia. intuition lia.
Qed.

Lemma interval_sane_iff iv :
  Forall (fun i => 0 <= min_value i /\ max_value i < 2 ^ w) iv ->
  is_sane w iv = true <-> sane w iv.
Proof.
  unfold sane. destruct 1 as [|i l [Hi1 Hi2] Hl]; simpl; [done|].
  destruct (Z.ltb_spec (max_value i) (min_value i)); [split; [done|lia]|].
  rewrite is_sane_from_iff; [intuition lia|lia|].
  eapply Forall_impl; [exact Hl|]. by intros ? [_ ?].
Qed.

Lemma sorted_from_bounds lo iv :
  0 <= lo -> sorted_from w lo iv -> Forall (fun i => 0 <= min_value i /\ max_value i < 2 ^ w) iv.
Proof.
  revert lo. induction iv as [|i iv IH]; intros lo Hlo; simpl; [constructor|].
  intros (? & ? & ? & ?). constructor; [lia|]. eapply IH; [|done]. lia.
Qed.

Lemma sane_is_sane iv : sane w iv -> is_sane w iv = true.
Proof. intros H. apply interval_sane_iff; [|done]. by eapply sorted_from_bounds. Qed.

Lemma contiguous_spec a b :
  item_ok w a -> item_ok w b -> max_value a + 1 < 2 ^ w -> max_value b + 1 < 2 ^ w ->
  item_is_contiguous w a b = (max_value a + 1 =? min_value b) || (min_value a =? max_value b + 1).
Proof.
  unfold item_ok. intros. unfold item_is_contiguous.
  rewrite !wrap_small by (unfold in_range; lia).
  destruct (max_value a + 1 =? min_value b); [done|]. by destruct (_ =? _).
Qed.

(** Absorbing from an item that reaches the base. *)
Lemma add_absorb_spec L lo base after :
  0 <= lo -> sorted_from w lo after -> below_max w after ->
  item_ok w base -> max_value base + 1 < 2 ^ w -> L <= min_value base -> L <= lo ->
  match after with [] => True | it :: _ => min_value base <= max_value it + 1 end ->
  exists base' after', add_absorb w base after = Ok (base', after') /\
    item_ok w base' /\ max_value base' + 1 < 2 ^ w /\ L <= min_value base' /\
    sorted_from w (max_value base' + 2) after' /\ below_max w after' /\
    forall x, item_covers base' x \/ covers after' x <-> item_covers base x \/ covers after x.
Proof.
  revert lo base. induction after as [|it after IH]; intros lo base Hlo Hs Hb Hok Hm HL HLlo Htouch.
  { exists base, []. by split_and!. }
  simpl in Hs. destruct Hs as (H1 & H2 & H3 & Hs). inversion Hb as [|? ? Hbi Hb']; subst.
  assert (Hit : item_ok w it) by (unfold item_ok in *; lia).
  cbn [add_absorb]. rewrite contiguous_spec by done.
  destruct (orb _ _) eqn:Ec; cycle 1.
  { bool_to_prop. exists base, (it :: after). unfold item_ok in *. split_and!; try done; try lia.
    simpl. split_and!; try done; lia. }
  unfold item_unify.
  assert (negb (item_is_distinct base it) || item_is_contiguous w base it = true) as ->.
  { rewrite contiguous_spec by done. unfold item_is_distinct.
    destruct (Z.ltb_spec (max_value base) (min_value it)), (Z.ltb_spec (max_value it) (min_value base)); lia. }
  cbn [dbg_assert mbind outcome_bind]. set (base1 := Item _ _).
  assert (Hmin : min_value base1 = Z.min (min_value base) (min_value it)).
  { unfold base1; simpl. destruct (Z.ltb_spec (min_value it) (min_value base)); lia. }
  assert (Hmax : max_value base1 = Z.max (max_value base) (max_value it)).
  { unfold base1; simpl. destruct (Z.ltb_spec (max_value base) (max_value it)); lia. }
  clearbody base1. unfold item_ok in *.
  destruct (IH (max_value it + 2) base1) as (base' & after' & -> & Hok' & Hm' & Hlo' & Hs' & Hb'' & Hcov);
    try done; try lia.
  { destruct after as [|it2 after]; simpl in Hs; [done|lia]. }
  exists base', after'. split_and!; try done; try lia.
  intros x. assert (item_covers base1 x <-> item_covers base x \/ item_covers it x) as Hu.
  { unfold item_covers. lia. }
  rewrite Hcov, covers_cons, Hu. tauto.
Qed.

Lemma add_core lo iv base :
  0 <= lo -> sorted_from w lo iv -> below_max w iv -> item_ok w base ->
  max_value base + 1 < 2 ^ w -> lo <= min_value base ->
  exists iv', (let (before, after) := add_find w base iv in
    let* (b, a) := add_absorb w base after in Ok (before ++ b :: a)) = Ok iv' /\
    sorted_from w lo iv' /\ below_max w iv' /\
    forall x, covers iv' x <-> covers iv x \/ item_covers base x.
Proof.
  revert lo. induction iv as [|it iv IH]; intros lo Hlo Hs Hb Hok Hm Hmin; cbn [add_find].
  { exists [base]. unfold item_ok in *. split; [done|]. split; [simpl; lia|].
    split; [by repeat constructor|]. intros x. rewrite covers_cons, covers_nil. tauto. }
  pose proof Hs as (H1 & H2 & H3 & Hs'). inversion Hb as [|? ? Hbi Hb']; subst.
  assert (Hit : item_ok w it) by (unfold item_ok in *; lia).
  rewrite contiguous_spec by done.
  destruct (andb _ _) eqn:Ec.
  - apply andb_true_iff in Ec as [E1 E2%negb_true_iff]. apply orb_false_iff in E2 as [E2 E3].
    apply Z.ltb_lt in E1. apply Z.eqb_neq in E2, E3.
    destruct (IH (max_value it + 2)) as (iv' & Heq & Hs2 & Hb2 & Hcov); try done; try lia.
    destruct (add_find w base iv) as [before after].
    destruct (add_absorb w base after) as [[b a]| | |]; simpl in *; try done.
    injection Heq as <-. exists (it :: before ++ b :: a). split_and!; try done.
    + by constructor.
    + intros x. rewrite !covers_cons, Hcov. tauto.
  - destruct (add_absorb_spec lo lo base (it :: iv)) as (b & a & -> & Hbok & Hbm & Hbl & Has & Hab & Hcov);
      try done; try lia.
    { apply andb_false_iff in Ec as [Ec|Ec].
      - apply Z.ltb_ge in Ec. lia.
      - apply negb_false_iff, orb_true_iff in Ec as [Ec|Ec]; apply Z.eqb_eq in Ec; unfold item_ok in *; lia. }
    simpl. exists (b :: a). unfold item_ok in *. split_and!; try done; try lia.
    + simpl. split_and!; try done; lia.
    + by constructor.
    + intros x. rewrite covers_cons, Hcov. tauto.
Qed.

Lemma add_item_spec iv item :
  sane w iv -> below_max w iv -> item_ok w item -> max_value item + 1 < 2 ^ w ->
  exists iv', add_item w iv item = Ok iv' /\ sane w iv' /\ below_max w iv' /\
    forall x, covers iv' x <-> covers iv x \/ item_covers item x.
Proof.
  intros Hs Hb Hok Hm. destruct (add_core 0 iv item) as (iv' & Heq & Hs' & Hb' & Hcov);
    try done; [unfold item_ok in *; lia|].
  exists iv'. split; [|done]. unfold add_item.
  destruct (add_find w item iv) as [before after].
  destruct (add_absorb w item after) as [[b a]| | |]; simpl in *; try done.
  injection Heq as ->. by rewrite (sane_is_sane iv').
Qed.

(* ------------------------------------------------------------------ *)
(** * Subtraction *)
(* ------------------------------------------------------------------ *)

Lemma item_ctor_ok (a b : Z) : a <= b -> item_ctor a b = Ok (Item a b).
Proof. intros H. unfold item_ctor. by rewrite (proj2 (Z.leb_le a b) H). Qed.

Lemma sub_exclude_spec lo base after :
  0 <= lo -> sorted_from w lo after -> item_ok w base ->
  match after with [] => True | it :: _ => min_value base <= max_value it end ->
  exists after', sub_exclude w base after = Ok after' /\ sorted_from w lo after' /\
    forall x, covers after' x <-> covers after x /\ ~ item_covers base x.
Proof.
  revert lo. induction after as [|it after IH]; intros lo Hlo Hs Hok Htouch; cbn [sub_exclude].
  { exists []. split_and!; try done. intros x. rewrite covers_nil. tauto. }
  destruct Hs as (H1 & H2 & H3 & Hs). unfold item_ok in Hok. cbn in Htouch.
  destruct (Z.leb_spec (min_value it) (max_value base)) as [Hle|Hgt]; cycle 1.
  { exists (it :: after). split_and!; [done|simpl; by split_and!|].
    intros x. split; [|tauto]. intros Hx. split; [done|]. rewrite covers_cons in Hx. unfold item_covers in *.
    destruct Hx as [Hx|Hx]; [lia|]. apply (sorted_from_covers _ _ _ Hs) in Hx. lia. }
  assert (negb (item_is_distinct it base) = true) as ->.
  { unfold item_is_distinct. rewrite (proj2 (Z.ltb_ge _ _)), (proj2 (Z.ltb_ge _ _)) by lia. done. }
  cbn [dbg_assert].
  destruct (IH (max_value it + 2)) as (rest & Hrest & Hsr & Hcov); try done; try lia.
  { destruct after as [|it2 after]; simpl in Hs; [done|lia]. }
  set (less := if min_value it <? min_value base then [Item (min_value it) (min_value base - 1)] else []).
  set (more := if max_value base <? max_value it then [Item (max_value base + 1) (max_value it)] else []).
  exists (less ++ more ++ rest). split.
  { unfold less, more.
    destruct (Z.ltb_spec (min_value it) (min_value base)), (Z.ltb_spec (max_value base) (max_value it));
      rewrite ?wrap_small by (unfold in_range; lia);
      rewrite ?item_ctor_ok by lia; cbn [mbind outcome_bind];
      rewrite ?item_ctor_ok by lia; cbn [mbind outcome_bind]; by rewrite Hrest. }
  split.
  - unfold less, more. destruct (Z.ltb_spec (min_value it) (min_value base)),
      (Z.ltb_spec (max_value base) (max_value it)); simpl; split_and?; try lia; try done;
      (eapply sorted_from_mono; [exact Hsr|lia]).
  - intros x. rewrite !covers_app, Hcov, covers_cons.
    assert (Hle' : covers less x <-> item_covers it x /\ x < min_value base).
    { unfold less. destruct (Z.ltb_spec (min_value it) (min_value base));
        rewrite ?covers_cons, ?covers_nil; unfold item_covers; simpl; lia. }
    assert (Hmo : covers more x <-> item_covers it x /\ max_value base < x).
    { unfold more. destruct (Z.ltb_spec (max_value base) (max_value it));
        rewrite ?covers_cons, ?covers_nil; unfold item_covers; simpl; lia. }
    assert ((item_covers it x /\ x < min_value base) \/ (item_covers it x /\ max_value base < x) <->
      item_covers it x /\ ~ item_covers base x) by (unfold item_covers; lia).
    rewrite Hle', Hmo. tauto.
Qed.

Lemma sub_core lo iv base :
  0 <= lo -> sorted_from w lo iv -> item_ok w base ->
  exists iv', (let (before, after) := sub_find base iv in
    let* a := sub_exclude w base after in Ok (before ++ a)) = Ok iv' /\
    sorted_from w lo iv' /\
    forall x, covers iv' x <-> covers iv x /\ ~ item_covers base x.
Proof.
  revert lo. induction iv as [|it iv IH]; intros lo Hlo Hs Hok; cbn [sub_find].
  { exists []. split_and!; try done. intros x. rewrite covers_nil. tauto. }
  pose proof Hs as (H1 & H2 & H3 & Hs').
  destruct (Z.ltb_spec (max_value it) (min_value base)) as [Hlt|Hge].
  - destruct (IH (max_value it + 2)) as (iv' & Heq & Hs2 & Hcov); try done; try lia.
    destruct (sub_find base iv) as [before after].
    destruct (sub_exclude w base after) as [a| | |]; simpl in *; try done.
    injection Heq as <-. exists (it :: before ++ a). split_and!; try done.
    intros x. rewrite !covers_cons, Hcov.
    assert (item_covers it x -> ~ item_covers base x) by (unfold item_covers; lia). tauto.
  - destruct (sub_exclude_spec lo base (it :: iv)) as (a & -> & Has & Hcov); try done.
    simpl. by exists a.
Qed.

Lemma sub_item_spec iv item :
  sane w iv -> item_ok w item ->
  exists iv', sub_item w iv item = Ok iv' /\ sane w iv' /\
    forall x, covers iv' x <-> covers iv x /\ ~ item_covers item x.
Proof.
  intros Hs Hok. destruct (sub_core 0 iv item) as (iv' & Heq & Hs' & Hcov); try done.
  exists iv'. split; [|done]. unfold sub_item.
  destruct (sub_find item iv) as [before after].
  destruct (sub_exclude w item after) as [a| | |]; simpl in *; try done.
  injection Heq as ->. by rewrite (sane_is_sane iv').
Qed.

(* ------------------------------------------------------------------ *)
(** * Intervals against intervals *)
(* ------------------------------------------------------------------ *)

Lemma sorted_from_item_ok lo iv : 0 <= lo -> sorted_from w lo iv -> Forall (item_ok w) iv.
Proof.
  revert lo. induction iv as [|i iv IH]; intros lo Hlo; simpl; [constructor|].
  intros (? & ? & ? & ?). constructor; [unfold item_ok; lia|]. eapply IH; [|done]. lia.
Qed.

Lemma add_all_spec iv other :
  sane w iv -> below_max w iv -> Forall (item_ok w) other -> below_max w other ->
  exists iv', op_all (add_item w) iv other = Ok iv' /\ sane w iv' /\ below_max w iv' /\
    forall x, covers iv' x <-> covers iv x \/ covers other x.
Proof.
  intros Hs Hb Ho. revert iv Hs Hb. induction Ho as [|i other Hi Ho IH]; intros iv Hs Hb Hbo; simpl.
  { exists iv. split_and!; try done. intros x. rewrite covers_nil. tauto. }
  inversion Hbo as [|? ? Hbi Hbo']; subst.
  destruct (add_item_spec iv i Hs Hb Hi Hbi) as (iv1 & -> & Hs1 & Hb1 & Hc1). simpl.
  destruct (IH iv1 Hs1 Hb1 Hbo') as (iv2 & -> & Hs2 & Hb2 & Hc2).
  exists iv2. split_and!; try done. intros x. rewrite Hc2, Hc1, covers_cons. tauto.
Qed.

Lemma sub_all_spec iv other :
  sane w iv -> Forall (item_ok w) other ->
  exists iv', op_all (sub_item w) iv other = Ok iv' /\ sane w iv' /\
    forall x, covers iv' x <-> covers iv x /\ ~ covers other x.
Proof.
  intros Hs Ho. revert iv Hs. induction Ho as [|i other Hi Ho IH]; intros iv Hs; simpl.
  { exists iv. split_and!; try done. intros x. rewrite covers_nil. tauto. }
  destruct (sub_item_spec iv i Hs Hi) as (iv1 & -> & Hs1 & Hc1). simpl.
  destruct (IH iv1 Hs1) as (iv2 & -> & Hs2 & Hc2).
  exists iv2. split_and!; try done. intros x. rewrite Hc2, Hc1, covers_cons. tauto.
Qed.

(* ------------------------------------------------------------------ *)
(** * Queries *)
(* ------------------------------------------------------------------ *)

Lemma fully_include_item_spec lo iv item :
  sorted_from w lo iv -> min_value item <= max_value item ->
  fully_include_item iv item = true <-> forall x, item_covers item x -> covers iv x.
Proof.
  intros Hs Hi. revert lo Hs. induction iv as [|it iv IH]; intros lo Hs; simpl.
  { split; [done|]. intros H. exfalso. apply (covers_nil (min_value item)), H. split; lia. }
  destruct Hs as (H1 & H2 & H3 & Hs).
  destruct (Z.ltb_spec (max_value item) (min_value it)).
  { split; [done|]. intros H'. exfalso. assert (Hc : covers (it :: iv) (min_value item)).
    { apply H'. split; lia. }
    rewrite covers_cons in Hc. destruct Hc as [[? ?]|Hc]; [lia|].
    apply (sorted_from_covers _ _ _ Hs) in Hc. lia. }
  unfold item_fully_include. destruct (andb _ _) eqn:E; bool_to_prop.
  { split; [|done]. intros _ x Hx. rewrite covers_cons. left. unfold item_covers in *. lia. }
  rewrite (IH _ Hs). split.
  - intros H' x Hx. rewrite covers_cons. right. by apply H'.
  - intros H' x Hx.
    assert (Hout : forall y, item_covers item y -> covers iv y \/ item_covers it y).
    { intros y Hy. apply H' in Hy. rewrite covers_cons in Hy. tauto. }
    (* the item is not inside [it]: it either starts before or ends after *)
    destruct (Hout x Hx) as [|Hin]; [done|exfalso].
    assert (Hsplit : min_value item < min_value it \/ max_value it < max_value item).
    { apply andb_false_iff in E as [E|E]; apply Z.leb_gt in E; lia. }
    unfold item_covers in *. destruct Hsplit as [Hlt|Hgt].
    + destruct (Hout (min_value item)) as [Hc|?]; [lia| |lia].
      apply (sorted_from_covers _ _ _ Hs) in Hc. lia.
    + destruct (Hout (max_value it + 1)) as [Hc|?]; [lia| |lia].
      apply (sorted_from_covers _ _ _ Hs) in Hc. lia.
Qed.

Lemma is_distinct_item_spec lo iv item :
  sorted_from w lo iv -> min_value item <= max_value item ->
  is_distinct_item iv item = true <-> forall x, item_covers item x -> ~ covers iv x.
Proof.
  intros Hs Hi. revert lo Hs. induction iv as [|it iv IH]; intros lo Hs; simpl.
  { split; [|done]. intros _ x _. rewrite covers_nil. tauto. }
  destruct Hs as (H1 & H2 & H3 & Hs).
  destruct (Z.ltb_spec (max_value item) (min_value it)).
  { split; [|done]. intros _ x Hx. rewrite covers_cons. unfold item_covers in *.
    intros [?|Hc]; [lia|]. apply (sorted_from_covers _ _ _ Hs) in Hc. lia. }
  unfold item_is_distinct.
  destruct (Z.ltb_spec (max_value it) (min_value item)).
  { cbn [negb]. rewrite (IH _ Hs). split; intros H' x Hx; specialize (H' x Hx);
      rewrite covers_cons in *; unfold item_covers in *; [intros [?|?]; [lia|tauto]|tauto]. }
  rewrite (proj2 (Z.ltb_ge _ _)) by lia. cbn [negb]. split; [done|]. intros H'. exfalso.
  apply (H' (Z.max (min_value item) (min_value it))).
  - unfold item_covers. lia.
  - rewrite covers_cons. left. unfold item_covers. lia.
Qed.

Lemma get_item_containing_spec lo iv e :
  sorted_from w lo iv ->
  match get_item_containing iv e with
  | Some i => i ∈ iv /\ item_covers i e
  | None => ~ covers iv e
  end.
Proof.
  revert lo. induction iv as [|it iv IH]; intros lo Hs; simpl; [rewrite covers_nil; tauto|].
  destruct Hs as (H1 & H2 & H3 & Hs).
  destruct (Z.ltb_spec e (min_value it)).
  { rewrite covers_cons. unfold item_covers. intros [?|Hc]; [lia|].
    apply (sorted_from_covers _ _ _ Hs) in Hc. lia. }
  destruct (Z.ltb_spec (max_value it) e).
  - specialize (IH _ Hs). destruct (get_item_containing iv e).
    + destruct IH. split; [by apply list_elem_of_further|done].
    + rewrite covers_cons. unfold item_covers in *. intros [?|?]; [lia|done].
  - split; [apply list_elem_of_here|]. unfold item_covers. lia.
Qed.

(** A set has a single sane representation. *)
Lemma sorted_unique lo lo' a b :
  sorted_from w lo a -> sorted_from w lo' b -> (forall x, covers a x <-> covers b x) -> a = b.
Proof.
  revert lo lo' b. induction a as [|i a IH]; intros lo lo' [|j b] Ha Hb Heq; [done|..].
  - exfalso. destruct Hb as (? & ? & _). apply (covers_nil (min_value j)). apply Heq, covers_cons.
    left. unfold item_covers. lia.
  - exfalso. destruct Ha as (? & ? & _). apply (covers_nil (min_value i)). apply Heq, covers_cons.
    left. unfold item_covers. lia.
  - destruct Ha as (A1 & A2 & A3 & Ha), Hb as (B1 & B2 & B3 & Hb).
    assert (Hiff : forall x, item_covers i x \/ covers a x <-> item_covers j x \/ covers b x).
    { intros x. by rewrite <- !covers_cons. }
    pose proof (fun x => sorted_from_covers _ _ x Ha) as Ca.
    pose proof (fun x => sorted_from_covers _ _ x Hb) as Cb. unfold item_covers in Hiff.
    assert (min_value i = min_value j) as Hm.
    { destruct (proj1 (Hiff (min_value i))) as [?|?%Cb]; [lia| |];
        (destruct (proj2 (Hiff (min_value j))) as [?|?%Ca]; [lia| |]); lia. }
    assert (max_value i = max_value j) as HM.
    { destruct (Z.lt_trichotomy (max_value i) (max_value j)) as [Hlt|[|Hlt]]; [exfalso|done|exfalso].
      - destruct (proj2 (Hiff (max_value i + 1))) as [?|?%Ca]; lia.
      - destruct (proj1 (Hiff (max_value j + 1))) as [?|?%Cb]; lia. }
    destruct i as [i1 i2], j as [j1 j2]; simpl in *. subst. f_equal.
    apply (IH _ _ _ Ha Hb). intros x. specialize (Hiff x). specialize (Ca x). specialize (Cb x).
    split; intros Hx; [destruct (proj1 Hiff (or_intror Hx))|destruct (proj2 Hiff (or_intror Hx))];
      try done; [specialize (Ca Hx)|specialize (Cb Hx)]; lia.
Qed.

Lemma compare_items_spec a b :
  length a = length b ->
  exists r, compare_items a b = Ok r /\ (r = 0 <-> a = b) /\ compare_items b a = Ok (- r).
Proof.
  revert b. induction a as [|[i1 i2] a IH]; intros [|[j1 j2] b] Hl; try done.
  { by exists 0. }
  simpl in *. destruct (IH b) as (r & Hr & Hz & Hr'); [lia|]. unfold item_eq; simpl.
  destruct (Z.eqb_spec i1 j1) as [->|H1]; simpl; cycle 1.
  { rewrite (proj2 (Z.eqb_neq j1 i1)) by lia. simpl.
    destruct (Z.ltb_spec i1 j1); [|destruct (Z.ltb_spec j1 i1); [|lia]].
    - rewrite (proj2 (Z.ltb_ge j1 i1)) by lia. exists (-1). split_and!; try done. split; [done|congruence].
    - exists 1. split_and!; try done. split; [done|congruence]. }
  rewrite Z.eqb_refl. simpl. destruct (Z.eqb_spec i2 j2) as [->|H2]; simpl.
  { rewrite Z.eqb_refl. simpl. exists r. split_and!; try done. rewrite Hz. split; congruence. }
  rewrite (proj2 (Z.eqb_neq j2 i2)) by lia. simpl. rewrite Z.ltb_irrefl.
  destruct (Z.ltb_spec i2 j2); [|destruct (Z.ltb_spec j2 i2); [|lia]].
  - rewrite (proj2 (Z.ltb_ge j2 i2)) by lia. exists (-1). split_and!; try done. split; [done|congruence].
  - exists 1. split_and!; try done. split; [done|congruence].
Qed.

(** [total_length] counts the covered values, modulo the width. *)
Lemma total_length_spec lo iv t :
  0 <= w -> 0 <= lo -> sorted_from w lo iv ->
  exists l, NoDup l /\ (forall x, x ∈ l <-> covers iv x) /\
    fold_left (fun total item => wrap w (total + item_length w item)) iv t
      = (if bool_decide (iv = []) then t else wrap w (t + Z.of_nat (length l))).
Proof.
  intros Hw. revert lo t. induction iv as [|i iv IH]; intros lo t Hlo Hs; cbn [fold_left].
  { exists []. split_and!; [constructor| |done]. intros x. rewrite covers_nil. by rewrite elem_of_nil. }
  destruct Hs as (H1 & H2 & H3 & Hs).
  destruct (IH (max_value i + 2) (wrap w (t + item_length w i))) as (l & Hnd & Hl & ->); [lia|done|].
  exists (seqZ (min_value i) (max_value i - min_value i + 1) ++ l). split_and!.
  - apply NoDup_app. split; [apply NoDup_seqZ|]. split; [|done].
    intros x Hx%elem_of_seqZ Hxl%Hl. apply (sorted_from_covers _ _ _ Hs) in Hxl. lia.
  - intros x. rewrite elem_of_app, elem_of_seqZ, Hl, covers_cons. unfold item_covers. intuition lia.
  - rewrite length_app, length_seqZ.
    assert (item_length w i = wrap w (max_value i - min_value i + 1)) as Hil.
    { unfold item_length. by rewrite wrap_add_wrap. }
    rewrite (bool_decide_eq_false_2 (i :: iv = [])) by done.
    assert (Hc : forall a b, wrap w (a + wrap w b) = wrap w (a + b)).
    { intros a b. by rewrite Z.add_comm, wrap_add_wrap, Z.add_comm. }
    case_bool_decide as He.
    + subst iv. assert (l = []) as ->.
      { destruct l as [|x l]; [done|]. exfalso. apply (covers_nil x), Hl, list_elem_of_here. }
      rewrite Hil, Hc. f_equal. simpl. lia.
    + rewrite wrap_add_wrap, Hil. replace (t + wrap w (max_value i - min_value i + 1) + Z.of_nat (length l))
        with (t + Z.of_nat (length l) + wrap w (max_value i - min_value i + 1)) by lia.
      rewrite Hc. f_equal. lia.
Qed.
End lemmas.

(* ------------------------------------------------------------------ *)
(** * Serialization *)
(* ------------------------------------------------------------------ *)

Section serial.
Context (w : Z) (tc : codec Z) `{!CodecLaws tc}.
Hypothesis tc_ok : forall x, 0 <= x < 2 ^ w -> codec_ok tc x.

Lemma sorted_from_app lo a b : sorted_from w lo (a ++ b) -> sorted_from w lo a.
Proof. revert lo. induction a as [|i a IH]; intros lo; simpl; [done|]. intuition. Qed.

Lemma add_item_append iv i :
  sane w (iv ++ [i]) -> below_max w (iv ++ [i]) -> add_item w iv i = Ok (iv ++ [i]).
Proof.
  intros Hs Hb. pose proof (sorted_from_item_ok _ _ _ ltac:(done) Hs) as Hok.
  apply Forall_app in Hok as [_ Hi]. apply Forall_app in Hb as [Hb Hbi].
  apply Forall_cons in Hi as [Hi _]. apply Forall_cons in Hbi as [Hbi _].
  destruct (add_item_spec w iv i) as (iv' & -> & Hs' & _ & Hc); try done.
  { by apply sorted_from_app in Hs. }
  f_equal. eapply sorted_unique; [exact Hs'|exact Hs|]. intros x.
  rewrite Hc, covers_app, covers_cons, covers_nil. tauto.
Qed.

Lemma wire_get_item_put i rest :
  item_ok w i -> wire_get_item tc (wire_put_item tc i ++ rest) = Ok (i, rest).
Proof.
  intros (H1 & H2 & H3). unfold wire_get_item, wire_put_item.
  rewrite <- app_assoc, wire_get_put by (apply tc_ok; lia). simpl.
  rewrite wire_get_put by (apply tc_ok; lia). simpl.
  rewrite item_ctor_ok by done. simpl. by destruct i.
Qed.

Lemma wire_get_items_put iv l rest :
  sane w (iv ++ l) -> below_max w (iv ++ l) ->
  wire_get_items w tc (length l) iv (concat (wire_put_item tc <$> l) ++ rest) = Ok (iv ++ l, rest).
Proof.
  revert iv. induction l as [|i l IH]; intros iv Hs Hb; simpl; [by rewrite app_nil_r|].
  pose proof (sorted_from_item_ok _ _ _ ltac:(done) Hs) as Hok.
  apply Forall_app in Hok as [_ [Hi _]%Forall_cons].
  rewrite <- app_assoc, wire_get_item_put by done. cbn [mbind outcome_bind].
  replace (iv ++ i :: l) with ((iv ++ [i]) ++ l) in * by by rewrite <- app_assoc.
  rewrite add_item_append; [|by apply sorted_from_app in Hs|by apply Forall_app in Hb as [? _]].
  cbn [mbind outcome_bind]. by apply IH.
Qed.

Lemma wire_get_inverted lo hi rest :
  0 <= hi -> hi < lo -> lo < 2 ^ w ->
  wire_get_interval w tc (wire_put u32_codec 1 ++ (wire_put tc lo ++ wire_put tc hi) ++ rest) = AssertFail.
Proof.
  intros ???. unfold wire_get_interval. rewrite wire_get_put by (split; done). simpl.
  unfold wire_get_item. rewrite <- app_assoc, wire_get_put by (apply tc_ok; lia). simpl.
  rewrite wire_get_put by (apply tc_ok; lia). simpl.
  unfold item_ctor. by rewrite (proj2 (Z.leb_gt lo hi)) by lia.
Qed.
End serial.

(* ------------------------------------------------------------------ *)
(** * Properties *)
(* ------------------------------------------------------------------ *)

(** C20. [+=] and [-=] compute the union and the difference: on sane intervals
    they pass every assertion, the result is sane again, and it covers exactly
    the values of either, respectively of the first and not the second; the
    union needs that no range ends at the largest value of the type. *)
Theorem interval_union_difference (w : Z) (a b : interval_t) (Ha : sane w a) (Hb : sane w b) :
  (below_max w a -> below_max w b ->
   exists r, add w a b = Ok r /\ sane w r /\ forall x, covers r x <-> covers a x \/ covers b x) /\
  (exists r, sub w a b = Ok r /\ sane w r /\ forall x, covers r x <-> covers a x /\ ~ covers b x).
Proof.
  assert (Hob : Forall (item_ok w) b) by by apply (sorted_from_item_ok w 0).
  split.
  - intros Hma Hmb. destruct (add_all_spec w a b Ha Hma Hob Hmb) as (r & Hr & Hs & _ & Hc).
    exists r. unfold add. rewrite Hr. simpl. by rewrite (sane_is_sane w r Hs).
  - destruct (sub_all_spec w a b Ha Hob) as (r & Hr & Hs & Hc).
    exists r. unfold sub. rewrite Hr. simpl. by rewrite (sane_is_sane w r Hs).
Qed.

(** The queries decide the relations of the sets: inclusion, disjointness,
    membership and the range holding a value; [compare] is zero exactly for
    equal sets and antisymmetric; [total_length] is the number of values
    covered, modulo the width of the type. *)
Theorem interval_queries_decide (w : Z) (a b : interval_t) (e : Z)
    (Hw : 0 <= w) (Ha : sane w a) (Hb : sane w b) :
  (fully_include a b = true <-> forall x, covers b x -> covers a x) /\
  (is_distinct a b = true <-> forall x, covers b x -> ~ covers a x) /\
  (contain a e = true <-> covers a e) /\
  (get_item_containing a e = None <-> ~ covers a e) /\
  (exists r, compare w a b = Ok r /\ compare w b a = Ok (- r) /\
     (r = 0 <-> forall x, covers a x <-> covers b x)) /\
  (exists l, NoDup l /\ (forall x, x ∈ l <-> covers a x) /\
     total_length w a = wrap w (Z.of_nat (length l))).
Proof.
  assert (Hob : Forall (item_ok w) b) by by apply (sorted_from_item_ok w 0).
  split_and!.
  - unfold fully_include. rewrite forallb_forall. split.
    + intros H x (i & Hi & Hx). pose proof Hi as Hinc%list_elem_of_In%H.
      eapply Forall_forall in Hob as (_ & ? & _); [|exact Hi].
      by eapply fully_include_item_spec in Hinc.
    + intros H i Hi%list_elem_of_In. eapply Forall_forall in Hob as (_ & ? & _); [|exact Hi].
      eapply fully_include_item_spec; [done|done|]. intros x Hx. apply H. by exists i.
  - unfold is_distinct. rewrite forallb_forall. split.
    + intros H x (i & Hi & Hx). pose proof Hi as Hinc%list_elem_of_In%H.
      eapply Forall_forall in Hob as (_ & ? & _); [|exact Hi].
      by eapply is_distinct_item_spec in Hinc.
    + intros H i Hi%list_elem_of_In. eapply Forall_forall in Hob as (_ & ? & _); [|exact Hi].
      eapply is_distinct_item_spec; [done|done|]. intros x Hx. apply H. by exists i.
  - unfold contain. rewrite fully_include_item_spec; [|done|simpl; lia]. unfold item_covers; simpl.
    split; [intros H; apply H; lia|]. intros H x Hx. by replace x with e by lia.
  - pose proof (get_item_containing_spec w 0 a e Ha) as H.
    destruct (get_item_containing a e) as [i|]; [|done].
    split; [done|]. intros Hn. exfalso. apply Hn. by exists i.
  - unfold compare. rewrite !sane_is_sane by done. cbn [andb dbg_assert].
    assert (Heq : a = b <-> forall x, covers a x <-> covers b x).
    { split; [by intros ->|]. by eapply sorted_unique. }
    repeat case_bool_decide; try lia.
    + exists (-1). split_and!; try done. rewrite <- Heq. split; [done|intros ->; lia].
    + exists 1. split_and!; try done. rewrite <- Heq. split; [done|intros ->; lia].
    + destruct (compare_items_spec a b) as (r & -> & Hr & ->); [lia|]. exists r. by rewrite <- Heq.
  - destruct (total_length_spec w 0 a 0) as (l & Hnd & Hl & Htot); try done.
    exists l. split_and!; try done. unfold total_length. rewrite Htot. case_bool_decide as He; [|done].
    subst a. destruct l as [|x l]; [by rewrite wrap_small by (split; [done|by apply Z.pow_pos_nonneg])|].
    exfalso. apply (covers_nil x), Hl, list_elem_of_here.
Qed.

(** Round trip of the serialization: a sane interval, serialized as its
    number of ranges and their bounds, is read back as it was by adding the
    ranges one by one.  A peer can however send bounds in the wrong order,
    which fail the assertion of the range's constructor. *)
Theorem interval_serial_roundtrip (w : Z) (tc : codec Z) (Htc : CodecLaws tc)
    (Hok : forall x, 0 <= x < 2 ^ w -> codec_ok tc x)
    (iv : interval_t) (rest : list Z) (lo hi : Z)
    (Hs : sane w iv) (Hb : below_max w iv) (Hlen : Z.of_nat (length iv) < 2 ^ 32)
    (Hlo : lo < 2 ^ w) (Hhi : 0 <= hi < lo) :
  (exists bytes, wire_put_interval w tc iv = Ok bytes /\
     wire_get_interval w tc (bytes ++ rest) = Ok (iv, rest)) /\
  wire_get_interval w tc (wire_put u32_codec 1 ++ (wire_put tc lo ++ wire_put tc hi) ++ rest)
    = AssertFail.
Proof.
  split; [|by apply wire_get_inverted; try done; lia].
  unfold wire_put_interval. rewrite sane_is_sane by done. cbn [dbg_assert].
  eexists; split; [done|]. rewrite wrap_small by (split; [lia|done]).
  unfold wire_get_interval. rewrite <- app_assoc, wire_get_put by (split; [lia|done]).
  cbn [mbind outcome_bind]. rewrite Nat2Z.id. by apply (wire_get_items_put w tc Hok []).
Qed.

(** At the largest value of the type the [+ 1] of [is_contiguous] wraps to
    0: adding the single value [2^w - 1] to a range that starts at 0 is taken
    for a contiguous range, and the result covers every value of the type. *)
Theorem interval_add_wraps (w m : Z) (Hw : 0 < w) (Hm : 0 <= m < 2 ^ w - 1) :
  let top := 2 ^ w - 1 in
  add_item w [Item 0 m] (item_one top) = Ok [Item 0 top] /\
  forall x, in_range w x -> covers [Item 0 top] x.
Proof.
  cbn zeta. split; cycle 1.
  { intros x Hx. exists (Item 0 (2 ^ w - 1)). split; [apply list_elem_of_here|].
    unfold item_covers, in_range in *; simpl. lia. }
  assert (Hc : item_is_contiguous w (item_one (2 ^ w - 1)) (Item 0 m) = true).
  { unfold item_is_contiguous; simpl. replace (2 ^ w - 1 + 1) with (2 ^ w) by lia.
    unfold wrap. rewrite Z_mod_same_full. done. }
  unfold add_item. cbn [add_find]. rewrite Hc, andb_false_r.
  cbn [add_absorb]. rewrite Hc, orb_true_r. unfold item_unify. rewrite Hc, orb_true_r.
  cbn [dbg_assert mbind outcome_bind item_one min_value max_value app].
  rewrite (proj2 (Z.ltb_lt 0 (2 ^ w - 1))), (proj2 (Z.ltb_ge (2 ^ w - 1) m)) by lia.
  unfold is_sane; cbn [min_value max_value is_sane_from].
  by rewrite (proj2 (Z.ltb_ge (2 ^ w - 1) 0)) by lia.
Qed.

(* ------------------------------------------------------------------ *)
(** * The properties at concrete inputs *)
(* ------------------------------------------------------------------ *)

Lemma interval_union_difference_witness :
  add 8 [Item 1 3; Item 9 12] [Item 4 5; Item 20 30] = Ok [Item 1 5; Item 9 12; Item 20 30] /\
  exists r, sub 8 [Item 1 3; Item 9 12] [Item 2 10] = Ok r /\ sane 8 r /\
    forall x, covers r x <-> covers [Item 1 3; Item 9 12] x /\ ~ covers [Item 2 10] x.
Proof.
  split; [reflexivity|].
  destruct (interval_union_difference 8 [Item 1 3; Item 9 12] [Item 2 10]) as [_ H].
  - by vm_compute.
  - by vm_compute.
  - exact H.
Defined.

Lemma interval_queries_decide_witness :
  exists l, NoDup l /\ (forall x, x ∈ l <-> covers [Item 1 3; Item 9 12] x) /\
    7 = wrap 8 (Z.of_nat (length l)).
Proof.
  destruct (interval_queries_decide 8 [Item 1 3; Item 9 12] [Item 2 10] 2)
    as (_ & _ & _ & _ & _ & H).
  - by vm_compute.
  - by vm_compute.
  - by vm_compute.
  - exact H.
Defined.

Lemma interval_serial_roundtrip_witness :
  exists bytes, wire_put_interval 32 u32_codec [Item 1 3; Item 9 12] = Ok bytes /\
    wire_get_interval 32 u32_codec (bytes ++ [7]) = Ok ([Item 1 3; Item 9 12], [7]).
Proof.
  refine (proj1 (interval_serial_roundtrip 32 u32_codec u32_laws _ [Item 1 3; Item 9 12] [7] 5 4 _ _ _ _ _)).
  - intros x Hx. exact Hx.
  - by vm_compute.
  - by repeat constructor.
  - by vm_compute.
  - by vm_compute.
  - by vm_compute.
Defined.

Lemma interval_add_wraps_witness :
  add_item 32 [Item 0 5] (item_one 4294967295) = Ok [Item 0 4294967295].
Proof. refine (proj1 (interval_add_wraps 32 5 _ _)); by vm_compute. Defined.
