(* ===== verification/Bitfield.v ===== *)
(** Bit sets of a fixed size: [bitfield_t] and its raw serialization
    (src/src/neoip_base/tools/bitfield/).

    A bitfield is the list of its bits.  The loops go through [get] and [set],
    with the assertions of both; the packed forms put bit [i] in byte [i / 8],
    most significant bit first. *)
From S2P Require Import Prelude Serial Codec.

(* ------------------------------------------------------------------ *)
(** * Access and queries *)
(* ------------------------------------------------------------------ *)

Definition bf_ctor (nb_bit : nat) : list bool := replicate nb_bit false.
Definition bf_assign (nb_bit : nat) (value : bool) : list bool := replicate nb_bit value.
Definition bf_is_null (b : list bool) : bool := bool_decide (length b = 0%nat).

Definition bf_get (b : list bool) (idx : nat) : outcome bool :=
  assert! negb (bf_is_null b) in
  assert! bool_decide (idx < length b)%nat in
  match b !! idx with Some v => Ok v | None => Fault end.

Definition bf_set (idx : nat) (new_val : bool) (b : list bool) : outcome (list bool) :=
  assert! negb (bf_is_null b) in
  assert! bool_decide (idx < length b)%nat in
  Ok (<[idx := new_val]> b).

Definition bf_clear (idx : nat) (b : list bool) : outcome (list bool) := bf_set idx false b.

(** The search of the first index from [i], [n] bits left, whose bit is [v]. *)
Fixpoint find_bit (v : bool) (b : list bool) (n i : nat) : outcome nat :=
  match n with
  | O => Ok i
  | S n' => let* x := bf_get b i in if eqb x v then Ok i else find_bit v b n' (S i)
  end.

(** The loops of [is_all_set] and [is_any_set] leave at the first bit equal to
    [stop]; the result tells whether there is one. *)
Fixpoint scan_loop (stop : bool) (b : list bool) (n i : nat) : outcome bool :=
  match n with
  | O => Ok false
  | S n' => let* x := bf_get b i in if eqb x stop then Ok true else scan_loop stop b n' (S i)
  end.

Definition is_all_set (b : list bool) : outcome bool :=
  assert! negb (bf_is_null b) in
  let* stopped := scan_loop false b (length b) 0 in Ok (negb stopped).

Definition is_any_set (b : list bool) : outcome bool :=
  assert! negb (bf_is_null b) in scan_loop true b (length b) 0.

Definition is_none_set (b : list bool) : outcome bool := let* v := is_any_set b in Ok (negb v).

Fixpoint nb_set_loop (b : list bool) (n i : nat) (nb_bit : Z) : outcome Z :=
  match n with
  | O => Ok nb_bit
  | S n' => let* x := bf_get b i in nb_set_loop b n' (S i) (if (x : bool) then nb_bit + 1 else nb_bit)
  end.

Definition nb_set (b : list bool) : outcome Z :=
  assert! negb (bf_is_null b) in nb_set_loop b (length b) 0 0.

Fixpoint contain_loop (b other : list bool) (n i : nat) : outcome bool :=
  match n with
  | O => Ok true
  | S n' =>
    let* x := bf_get other i in
    let* y := (if (x : bool) then bf_get b i else Ok true : outcome bool) in
    if (x : bool) && negb y then Ok false else contain_loop b other n' (S i)
  end.

Definition fully_contain (b other : list bool) : outcome bool :=
  assert! bool_decide (length b = length other) in contain_loop b other (length other) 0.

Definition next_set (b : list bool) (idx : nat) : outcome nat :=
  if bool_decide (length b <= idx)%nat then Ok idx else find_bit true b (length b - idx) idx.
Definition next_unset (b : list bool) (idx : nat) : outcome nat :=
  if bool_decide (length b <= idx)%nat then Ok idx else find_bit false b (length b - idx) idx.

(* ------------------------------------------------------------------ *)
(** * Boolean operators *)
(* ------------------------------------------------------------------ *)

(** [for(size_t i = 0; ...; i++)], on the bitfield being changed. *)
Fixpoint for_bits (n i : nat) (f : nat -> list bool -> outcome (list bool)) (b : list bool)
    : outcome (list bool) :=
  match n with
  | O => Ok b
  | S n' => let* b1 := f i b in for_bits n' (S i) f b1
  end.

Definition bf_or (b other : list bool) : outcome (list bool) :=
  assert! bool_decide (length b = length other) in
  for_bits (length other) 0 (fun i b => let* x := bf_get other i in if (x : bool) then bf_set i true b else Ok b) b.

Definition bf_and (b other : list bool) : outcome (list bool) :=
  assert! bool_decide (length b = length other) in
  for_bits (length other) 0
    (fun i b => let* x := bf_get other i in if negb x then bf_set i false b else Ok b) b.

Definition bf_xor (b other : list bool) : outcome (list bool) :=
  assert! bool_decide (length b = length other) in
  for_bits (length other) 0
    (fun i b => let* x := bf_get other i in
                if (x : bool) then let* y := bf_get b i in bf_set i (negb y) b else Ok b) b.

Definition bf_not (b : list bool) : outcome (list bool) :=
  for_bits (length b) 0 (fun i r => let* x := bf_get b i in bf_set i (negb x) r) (bf_ctor (length b)).

(** [std::vector<bool>::operator <]. *)
Fixpoint vector_lt (a b : list bool) : bool :=
  match a, b with
  | x :: a', y :: b' => if negb x && y then true else if (x : bool) && negb y then false else vector_lt a' b'
  | [], _ :: _ => true
  | _, [] => false
  end.

Definition bf_compare (b other : list bool) : outcome Z :=
  assert! bool_decide (length b = length other) in
  Ok (if vector_lt b other then -1 else if vector_lt other b then 1 else 0).

(* ------------------------------------------------------------------ *)
(** * Packed forms *)
(* ------------------------------------------------------------------ *)

(** [ceil_div(size(), 8)]. *)
Definition to_datum_size (b : list bool) : nat := ((length b + 7) / 8)%nat.

(** [if( get(i) ) p[i/8] |= 0x80 >> (i%8)], bit after bit. *)
Fixpoint pack_loop (b : list bool) (n i : nat) (p : list Z) : outcome (list Z) :=
  match n with
  | O => Ok p
  | S n' =>
    let* x := bf_get b i in
    let* p1 :=
      if (x : bool) then
        match p !! (i / 8)%nat with
        | None => Fault
        | Some byte => Ok (<[(i / 8)%nat := Z.lor byte (Z.shiftr 0x80 (Z.of_nat (i mod 8)))]> p)
        end
      else Ok p in
    pack_loop b n' (S i) p1
  end.

Definition to_datum (b : list bool) : outcome (list Z) :=
  pack_loop b (length b) 0 (replicate (to_datum_size b) 0).

(** [p[i/8] & (0x80 >> (i%8))]. *)
Definition packed_bit (p : list Z) (i : nat) : outcome bool :=
  match p !! (i / 8)%nat with
  | None => Fault
  | Some byte => Ok (negb (Z.land byte (Z.shiftr 0x80 (Z.of_nat (i mod 8))) =? 0))
  end.

Definition unpack (p : list Z) (nb_bit : nat) : outcome (list bool) :=
  for_bits nb_bit 0 (fun i b => let* x := packed_bit p i in if (x : bool) then bf_set i true b else Ok b)
    (bf_ctor nb_bit).

Definition from_datum (datum : list Z) (nb_bit : nat) : outcome (list bool) :=
  if negb (bool_decide (length datum = to_datum_size (bf_ctor nb_bit))) then Ok (bf_ctor 0)
  else unpack datum nb_bit.

(** The size, a [size_t], then the packed bits. *)
Definition wire_put_bitfield (b : list bool) : outcome (list Z) :=
  let* datum := to_datum b in Ok (wire_put u64_codec (Z.of_nat (length b)) ++ datum).

Definition wire_get_bitfield (l : list Z) : outcome (list bool * list Z) :=
  let* (nb_bit, l1) := wire_get u64_codec l in
  let bitfield := bf_ctor (Z.to_nat nb_bit) in
  let nb_byte := to_datum_size bitfield in
  if bool_decide (length l1 < nb_byte)%nat then Throw "bitfield_t too short"
  else let* b := unpack (take nb_byte l1) (Z.to_nat nb_bit) in Ok (b, drop nb_byte l1).

(** [bitfield_rawserial_t]: the packed bits alone, the reader knowing the
    number of bits; every bit is assigned. *)
Definition rawserial_put (b : list bool) : outcome (list Z) := to_datum b.

Definition rawserial_get (nb_bit : nat) (l : list Z) : outcome (list bool * list Z) :=
  let nb_byte := to_datum_size (bf_ctor nb_bit) in
  if bool_decide (length l < nb_byte)%nat then Throw "bitfield_t too short"
  else
    let* b := for_bits nb_bit 0 (fun i b => let* x := packed_bit (take nb_byte l) i in bf_set i x b)
                (bf_ctor nb_bit) in
    Ok (b, drop nb_byte l).

(* ------------------------------------------------------------------ *)
(** * Lemmas *)
(* ------------------------------------------------------------------ *)

Lemma bf_get_ok b i x : b !! i = Some x -> bf_get b i = Ok x.
Proof.
  intros H. pose proof (lookup_lt_Some _ _ _ H). unfold bf_get, bf_is_null.
  rewrite bool_decide_eq_false_2 by lia. rewrite bool_decide_eq_true_2 by done. simpl. by rewrite H.
Qed.

Lemma bf_set_ok b i x : (i < length b)%nat -> bf_set i x b = Ok (<[i := x]> b).
Proof.
  intros H. unfold bf_set, bf_is_null.
  rewrite bool_decide_eq_false_2 by lia. by rewrite bool_decide_eq_true_2 by done.
Qed.

(** A loop that rewrites each bit from its value and its index. *)
Lemma for_bits_spec N f (g : nat -> bool -> bool) pre suf :
  (forall i b x, length b = N -> b !! i = Some x -> f i b = Ok (<[i := g i x]> b)) ->
  length (pre ++ suf) = N ->
  for_bits (length suf) (length pre) f (pre ++ suf) =
    Ok (pre ++ imap (fun j => g (length pre + j)%nat) suf).
Proof.
  intros Hf. revert pre. induction suf as [|x suf IH]; intros pre Hlen; [done|].
  cbn [length for_bits]. rewrite (Hf _ _ x Hlen) by by rewrite lookup_app_r, Nat.sub_diag by lia.
  cbn [mbind outcome_bind]. rewrite insert_app_r_alt, Nat.sub_diag by lia. cbn [list_insert insert].
  specialize (IH (pre ++ [g (length pre) x])). 
  replace (length (pre ++ [g (length pre) x])) with (S (length pre)) in IH by (rewrite length_app; simpl; lia).
  rewrite <- !app_assoc in IH. cbn [app] in IH. rewrite IH by (rewrite length_app in *; simpl in *; lia).
  f_equal. f_equal. cbn [imap]. rewrite Nat.add_0_r. f_equal. apply imap_ext. intros j y _. simpl. f_equal. lia.
Qed.

Lemma for_bits_all f (g : nat -> bool -> bool) b :
  (forall i b' x, length b' = length b -> b' !! i = Some x -> f i b' = Ok (<[i := g i x]> b')) ->
  for_bits (length b) 0 f b = Ok (imap g b).
Proof. intros Hf. by apply (for_bits_spec (length b) f g [] b). Qed.

Lemma imap_zip (g : bool -> bool -> bool) (b other : list bool) :
  length b = length other ->
  imap (fun i x => g x (default false (other !! i))) b = zip_with g b other.
Proof.
  intros Hlen. apply list_eq. intros i. rewrite list_lookup_imap, lookup_zip_with.
  destruct (b !! i) as [x|] eqn:E; simpl; [|done].
  destruct (other !! i) as [y|] eqn:E2; simpl; [done|].
  apply lookup_lt_Some in E. apply lookup_ge_None in E2. lia.
Qed.

(** The three in-place operators. *)
Lemma bf_op_spec (f : nat -> list bool -> outcome (list bool)) (g : bool -> bool -> bool) b other :
  length b = length other ->
  (forall i b' x y, b' !! i = Some x -> other !! i = Some y -> f i b' = Ok (<[i := g x y]> b')) ->
  for_bits (length other) 0 f b = Ok (zip_with g b other).
Proof.
  intros Hlen Hf. rewrite <- Hlen, <- (imap_zip g) by done.
  apply for_bits_all. intros i b' x Hb' Hx.
  destruct (other !! i) as [y|] eqn:E; [by rewrite (Hf i b' x y)|].
  apply lookup_lt_Some in Hx. apply lookup_ge_None in E. lia.
Qed.

Lemma find_bit_spec v b n i :
  (n + i = length b)%nat ->
  exists k, find_bit v b n i = Ok k /\ (i <= k <= length b)%nat /\
    (forall j, (i <= j < k)%nat -> b !! j = Some (negb v)) /\ ((k < length b)%nat -> b !! k = Some v).
Proof.
  revert i. induction n as [|n IH]; intros i Hn; cbn [find_bit].
  { exists i. split; [done|]. split; [lia|]. split; [lia|]. lia. }
  destruct (lookup_lt_is_Some_2 b i) as [x Hx]; [lia|].
  rewrite (bf_get_ok _ _ _ Hx). cbn [mbind outcome_bind].
  destruct (eqb x v) eqn:E.
  - apply eqb_prop in E as ->. exists i. split_and!; try done; lia.
  - destruct (IH (S i)) as (k & Hk & Hr & Hbefore & Hat); [lia|]. exists k. split; [done|].
    split; [lia|]. split; [|done]. intros j Hj. destruct (decide (j = i)) as [->|]; [|apply Hbefore; lia].
    rewrite Hx. f_equal. by destruct x, v.
Qed.

Lemma scan_loop_spec stop b n i :
  (n + i = length b)%nat ->
  exists r, scan_loop stop b n i = Ok r /\
    (r = true <-> exists j, (i <= j)%nat /\ b !! j = Some stop).
Proof.
  revert i. induction n as [|n IH]; intros i Hn; cbn [scan_loop].
  { exists false. split; [done|]. split; [done|]. intros (j & Hj & Hb). apply lookup_lt_Some in Hb. lia. }
  destruct (lookup_lt_is_Some_2 b i) as [x Hx]; [lia|].
  rewrite (bf_get_ok _ _ _ Hx). cbn [mbind outcome_bind].
  destruct (eqb x stop) eqn:E.
  - apply eqb_prop in E as ->. exists true. split; [done|]. split; [|done]. by exists i.
  - destruct (IH (S i)) as (r & Hr & Hiff); [lia|]. exists r. split; [done|]. rewrite Hiff.
    split; intros (j & Hj & Hb); exists j; (split; [|done]); [lia|].
    destruct (decide (j = i)) as [->|]; [|lia]. rewrite Hx in Hb. injection Hb as ->.
    by rewrite eqb_reflx in E.
Qed.

Lemma nb_set_loop_spec b n i acc :
  (n + i = length b)%nat ->
  nb_set_loop b n i acc = Ok (acc + Z.of_nat (length (List.filter id (drop i b)))).
Proof.
  revert i acc. induction n as [|n IH]; intros i acc Hn; cbn [nb_set_loop].
  { rewrite drop_ge by lia. simpl. f_equal. lia. }
  destruct (lookup_lt_is_Some_2 b i) as [x Hx]; [lia|].
  rewrite (bf_get_ok _ _ _ Hx). cbn [mbind outcome_bind]. rewrite IH by lia.
  rewrite (drop_S b x i Hx). simpl. f_equal. destruct x; simpl; lia.
Qed.

Lemma contain_loop_spec b other n i :
  length b = length other -> (n + i = length other)%nat ->
  exists r, contain_loop b other n i = Ok r /\
    (r = true <-> forall j, (i <= j)%nat -> other !! j = Some true -> b !! j = Some true).
Proof.
  intros Hlen. revert i. induction n as [|n IH]; intros i Hn; cbn [contain_loop].
  { exists true. split; [done|]. split; [|done]. intros _ j Hj Ho. apply lookup_lt_Some in Ho. lia. }
  destruct (lookup_lt_is_Some_2 other i) as [x Hx]; [lia|].
  destruct (lookup_lt_is_Some_2 b i) as [y Hy]; [lia|].
  rewrite (bf_get_ok _ _ _ Hx), (bf_get_ok _ _ _ Hy). cbn [mbind outcome_bind].
  destruct (IH (S i)) as (r & Hr & Hiff); [lia|].
  destruct x, y; cbn [mbind outcome_bind negb andb].
  2:{ exists false. split; [done|]. split; [done|]. intros H. specialize (H i ltac:(lia) Hx). congruence. }
  all: exists r; split; [done|]; rewrite Hiff; split; intros H j Hj Ho;
    try (apply H; [lia|done]); destruct (decide (j = i)) as [->|]; try congruence; apply H; [lia|done].
Qed.

(* ------------------------------------------------------------------ *)
(** * Lemmas: packed forms *)
(* ------------------------------------------------------------------ *)

Lemma mask_testbit r j : (r < 8)%nat -> (j < 8)%nat ->
  Z.testbit (Z.shiftr 0x80 (Z.of_nat r)) (7 - Z.of_nat j) = bool_decide (j = r).
Proof.
  intros Hr Hj. rewrite Z.shiftr_spec by lia. change 0x80 with (2 ^ 7).
  rewrite Z.pow2_bits_eqb by lia. case_bool_decide; [apply Z.eqb_eq|apply Z.eqb_neq]; lia.
Qed.

Lemma mask_pow2 r : (r < 8)%nat -> Z.shiftr 0x80 (Z.of_nat r) = 2 ^ (7 - Z.of_nat r).
Proof. intros Hr. do 8 (destruct r as [|r]; [done|]). lia. Qed.

Lemma land_pow2_nonzero a n : 0 <= n -> negb (Z.land a (2 ^ n) =? 0) = Z.testbit a n.
Proof.
  intros Hn. assert (H : Z.land a (2 ^ n) = if Z.testbit a n then 2 ^ n else 0).
  { apply Z.bits_inj'. intros k Hk. rewrite Z.land_spec, Z.pow2_bits_eqb by done.
    destruct (Z.eqb_spec n k) as [->|Hne].
    - destruct (Z.testbit a k) eqn:E; simpl; [|by rewrite Z.testbit_0_l].
      rewrite Z.pow2_bits_eqb by done. by rewrite Z.eqb_refl.
    - rewrite andb_false_r. destruct (Z.testbit a n); [|by rewrite Z.testbit_0_l].
      rewrite Z.pow2_bits_eqb by done. symmetry. by apply Z.eqb_neq. }
  rewrite H. assert (0 < 2 ^ n) by (apply Z.pow_pos_nonneg; lia).
  destruct (Z.testbit a n); [|done]. apply negb_true_iff, Z.eqb_neq. lia.
Qed.

(** The packed form of the bits of index below [k]: bit [7 - j] of byte [m] is
    bit [8 m + j]. *)
Definition packs (b : list bool) (k : nat) (p : list Z) : Prop :=
  length p = to_datum_size b /\ bytes_ok p /\
  forall m j byte, (j < 8)%nat -> p !! m = Some byte ->
    Z.testbit byte (7 - Z.of_nat j) =
      bool_decide (8 * m + j < k)%nat && default false (b !! (8 * m + j)%nat).

Lemma datum_size_bound b i : (i < length b)%nat -> (i / 8 < to_datum_size b)%nat.
Proof.
  intros Hi. unfold to_datum_size. apply Nat.Div0.div_lt_upper_bound.
  pose proof (Nat.div_mod (length b + 7) 8 ltac:(lia)). pose proof (Nat.mod_upper_bound (length b + 7) 8 ltac:(lia)). lia.
Qed.

Lemma pack_step b i (x : bool) p byte :
  b !! i = Some x -> packs b i p -> p !! (i / 8)%nat = Some byte ->
  packs b (S i) (if x then <[(i / 8)%nat := Z.lor byte (Z.shiftr 0x80 (Z.of_nat (i mod 8)))]> p else p).
Proof.
  intros Hx (Hlen & Hok & Hbits) Hbyte.
  pose proof (Nat.div_mod i 8 ltac:(lia)) as Hd. pose proof (Nat.mod_upper_bound i 8 ltac:(lia)) as Hr.
  assert (Hdec : forall m j, (j < 8)%nat -> (m, j) <> ((i / 8)%nat, (i mod 8)%nat) ->
    bool_decide (8 * m + j < S i)%nat = bool_decide (8 * m + j < i)%nat).
  { intros m j Hj Hne. apply bool_decide_ext. assert ((8 * m + j)%nat <> i); [|lia].
    intros Heq. apply Hne. f_equal; lia. }
  split; [destruct x; [by rewrite length_insert|done]|]. split.
  { destruct x; [|done]. apply Forall_insert; [done|].
    pose proof (Forall_lookup_1 _ _ _ _ Hok Hbyte) as Hb. unfold is_byte, in_range in *.
    split; [apply Z.lor_nonneg; split; [lia|apply Z.shiftr_nonneg; lia]|].
    rewrite mask_pow2 by done. assert (Hlog : Z.log2 (Z.lor byte (2 ^ (7 - Z.of_nat (i mod 8)))) < 8).
    { rewrite Z.log2_lor by (try apply Z.pow_nonneg; lia). rewrite Z.log2_pow2 by lia.
      destruct (decide (byte = 0)) as [->|]; [simpl; lia|]. pose proof (proj1 (Z.log2_lt_pow2 byte 8 ltac:(lia)) ltac:(lia)). lia. }
    destruct (decide (Z.lor byte (2 ^ (7 - Z.of_nat (i mod 8))) = 0)) as [->|]; [lia|].
    apply Z.log2_lt_pow2; [|done].
    assert (0 <= Z.lor byte (2 ^ (7 - Z.of_nat (i mod 8)))) by (apply Z.lor_nonneg; split; [lia|apply Z.pow_nonneg; lia]). lia. }
  intros m j byte' Hj Hm. destruct x.
  - destruct (decide (m = (i / 8)%nat)) as [->|Hne].
    + rewrite list_lookup_insert_eq in Hm by (by apply lookup_lt_Some in Hbyte). injection Hm as <-.
      rewrite Z.lor_spec, (Hbits _ j byte Hj Hbyte), mask_testbit by done.
      destruct (decide (j = (i mod 8)%nat)) as [->|Hjne].
      * rewrite (bool_decide_eq_true_2 (_ = _)) by done. rewrite orb_true_r.
        rewrite <- Hd, Hx. rewrite bool_decide_eq_true_2 by lia. done.
      * rewrite (bool_decide_eq_false_2 (j = _)) by done. rewrite orb_false_r.
        rewrite Hdec; [done|done|]. intros [= ?]. done.
    + rewrite list_lookup_insert_ne in Hm by done. rewrite Hdec; [by apply Hbits|done|]. intros [= ? ?]. done.
  - rewrite (Hbits m j byte' Hj Hm). destruct (decide ((m, j) = ((i / 8)%nat, (i mod 8)%nat))) as [[= -> ->]|Hne].
    + rewrite <- Hd, Hx. simpl. by rewrite !andb_false_r.
    + by rewrite Hdec.
Qed.

Lemma pack_loop_spec b n i p :
  (n + i = length b)%nat -> packs b i p ->
  exists p', pack_loop b n i p = Ok p' /\ packs b (length b) p'.
Proof.
  revert i p. induction n as [|n IH]; intros i p Hn Hp; cbn [pack_loop].
  { exists p. split; [done|]. by replace (length b) with i by lia. }
  destruct (lookup_lt_is_Some_2 b i) as [x Hx]; [lia|].
  rewrite (bf_get_ok _ _ _ Hx). cbn [mbind outcome_bind].
  pose proof (datum_size_bound b i ltac:(lia)) as Hb. pose proof Hp as (Hlen & _).
  destruct (lookup_lt_is_Some_2 p (i / 8)%nat) as [byte Hbyte]; [lia|].
  pose proof (pack_step b i x p byte Hx Hp Hbyte) as Hstep. rewrite Hbyte.
  destruct x; cbn [mbind outcome_bind]; apply IH; done || lia.
Qed.

Lemma to_datum_spec b : exists p, to_datum b = Ok p /\ packs b (length b) p.
Proof.
  apply pack_loop_spec; [lia|]. split; [apply length_replicate|]. split; [by apply Forall_replicate|].
  intros m j byte _ Hm. apply lookup_replicate in Hm as [-> _]. rewrite Z.testbit_0_l.
  by rewrite bool_decide_eq_false_2 by lia.
Qed.

Lemma packed_bit_spec b p i x :
  packs b (length b) p -> b !! i = Some x -> packed_bit p i = Ok x.
Proof.
  intros (Hlen & _ & Hbits) Hx. pose proof (lookup_lt_Some _ _ _ Hx) as Hi.
  pose proof (datum_size_bound b i Hi) as Hb.
  destruct (lookup_lt_is_Some_2 p (i / 8)%nat) as [byte Hbyte]; [lia|].
  pose proof (Nat.div_mod i 8 ltac:(lia)) as Hd. pose proof (Nat.mod_upper_bound i 8 ltac:(lia)) as Hr.
  unfold packed_bit. rewrite Hbyte, mask_pow2, land_pow2_nonzero by lia.
  rewrite (Hbits _ (i mod 8)%nat byte) by done. rewrite <- Hd, Hx.
  by rewrite bool_decide_eq_true_2.
Qed.

Lemma imap_replicate {A B} (g : nat -> A -> B) (l : list B) n x :
  length l = n -> (forall i y, l !! i = Some y -> g i x = y) -> imap g (replicate n x) = l.
Proof.
  intros Hlen Hg. apply list_eq. intros i. rewrite list_lookup_imap.
  destruct (l !! i) as [y|] eqn:E.
  - pose proof (lookup_lt_Some _ _ _ E). rewrite lookup_replicate_2 by lia. simpl. by rewrite (Hg i y).
  - apply lookup_ge_None in E. rewrite lookup_ge_None_2; [done|]. rewrite length_replicate. lia.
Qed.

(** A loop that assigns bit [i] from [packed_bit p i]. *)
Lemma unpack_with b (f : nat -> list bool -> outcome (list bool)) (g : nat -> bool -> bool) :
  (forall i b' y, length b' = length b -> b' !! i = Some y -> f i b' = Ok (<[i := g i y]> b')) ->
  (forall i x, b !! i = Some x -> g i false = x) ->
  for_bits (length b) 0 f (bf_ctor (length b)) = Ok b.
Proof.
  intros Hf Hg. unfold bf_ctor. rewrite <- (length_replicate (length b) false) at 1.
  rewrite (for_bits_all f g).
  - f_equal. by apply imap_replicate.
  - intros i b' y Hlen. apply Hf. by rewrite length_replicate in Hlen.
Qed.

Lemma unpack_spec b p : packs b (length b) p -> unpack p (length b) = Ok b.
Proof.
  intros Hp. apply (unpack_with b _ (fun i y => default false (b !! i) || y)).
  - intros i b' y Hlen Hy. pose proof (lookup_lt_Some _ _ _ Hy).
    destruct (lookup_lt_is_Some_2 b i) as [x Hx]; [lia|]. rewrite (packed_bit_spec b p i x Hp Hx).
    cbn [mbind outcome_bind]. rewrite Hx. destruct x; simpl; [by apply bf_set_ok|].
    by rewrite list_insert_id.
  - intros i x Hx. rewrite Hx. simpl. by rewrite orb_false_r.
Qed.

Lemma rawserial_loop_spec b p :
  packs b (length b) p ->
  for_bits (length b) 0 (fun i b => let* x := packed_bit p i in bf_set i x b) (bf_ctor (length b)) = Ok b.
Proof.
  intros Hp. apply (unpack_with b _ (fun i _ => default false (b !! i))).
  - intros i b' y Hlen Hy. pose proof (lookup_lt_Some _ _ _ Hy).
    destruct (lookup_lt_is_Some_2 b i) as [x Hx]; [lia|]. rewrite (packed_bit_spec b p i x Hp Hx).
    cbn [mbind outcome_bind]. rewrite Hx. by apply bf_set_ok.
  - intros i x Hx. by rewrite Hx.
Qed.

Lemma bf_not_spec a : bf_not a = Ok (negb <$> a).
Proof.
  unfold bf_not. rewrite <- (length_fmap negb a).
  apply (unpack_with (negb <$> a) _ (fun i _ => default false ((negb <$> a) !! i))).
  - intros i b' y Hlen Hy. pose proof (lookup_lt_Some _ _ _ Hy). rewrite length_fmap in Hlen.
    destruct (lookup_lt_is_Some_2 a i) as [x Hx]; [lia|]. rewrite (bf_get_ok _ _ _ Hx).
    cbn [mbind outcome_bind]. rewrite list_lookup_fmap, Hx. by apply bf_set_ok.
  - intros i x Hx. by rewrite Hx.
Qed.

Lemma vector_lt_trans_eq a b :
  length a = length b -> vector_lt a b = false -> vector_lt b a = false -> a = b.
Proof.
  revert b. induction a as [|x a IH]; intros [|y b] Hlen; simpl in *; try done.
  destruct x, y; simpl; try done; intros H1 H2; f_equal; apply IH; done || lia.
Qed.

Lemma vector_lt_irrefl a : vector_lt a a = false.
Proof. induction a as [|[] a IH]; done. Qed.

(* ------------------------------------------------------------------ *)
(** * Properties *)
(* ------------------------------------------------------------------ *)

(** The loops over the bits compute the operations they are named after:
    on bitfields of one size the operators act bit by bit, inclusion is
    pointwise implication, the comparison is 0 exactly on equal bitfields; the
    searches return the first index from the start, or the size; the counts
    and the all/any tests are right on every bitfield that is not null, and
    fail their assertion on the null one. *)
Theorem bitfield_ops_correct (a b : list bool) (idx : nat) (Hlen : length a = length b) :
  bf_or a b = Ok (zip_with orb a b) /\ bf_and a b = Ok (zip_with andb a b) /\
  bf_xor a b = Ok (zip_with xorb a b) /\ bf_not a = Ok (negb <$> a) /\
  (exists r, fully_contain a b = Ok r /\
     (r = true <-> forall j, b !! j = Some true -> a !! j = Some true)) /\
  (exists c, bf_compare a b = Ok c /\ (c = 0 <-> a = b)) /\
  (exists k, next_set a idx = Ok k /\ (idx <= k)%nat /\
     (forall j, (idx <= j < k)%nat -> a !! j = Some false) /\ ((k < length a)%nat -> a !! k = Some true)) /\
  (exists k, next_unset a idx = Ok k /\ (idx <= k)%nat /\
     (forall j, (idx <= j < k)%nat -> a !! j = Some true) /\ ((k < length a)%nat -> a !! k = Some false)) /\
  (if bf_is_null a
   then nb_set a = AssertFail /\ is_all_set a = AssertFail /\ is_any_set a = AssertFail
   else nb_set a = Ok (Z.of_nat (length (List.filter id a))) /\
        (exists r, is_all_set a = Ok r /\ (r = true <-> forall j x, a !! j = Some x -> x = true)) /\
        (exists r, is_any_set a = Ok r /\ (r = true <-> exists j, a !! j = Some true))).
Proof.
  assert (Hsize : bool_decide (length a = length b) = true) by by apply bool_decide_eq_true.
  assert (Hsearch : forall v, exists k,
    (if bool_decide (length a <= idx)%nat then Ok idx else find_bit v a (length a - idx) idx) = Ok k /\
    (idx <= k)%nat /\ (forall j, (idx <= j < k)%nat -> a !! j = Some (negb v)) /\
    ((k < length a)%nat -> a !! k = Some v)).
  { intros v. destruct (decide (length a <= idx)%nat) as [Hi|Hi].
    { rewrite bool_decide_eq_true_2 by done. exists idx. split_and!; done || lia. }
    rewrite bool_decide_eq_false_2 by done.
    destruct (find_bit_spec v a (length a - idx) idx) as (k & Hk & ? & ? & ?); [lia|].
    exists k. split_and!; try done; lia. }
  unfold bf_or, bf_and, bf_xor, fully_contain, bf_compare. rewrite Hsize. cbn [dbg_assert].
  split; [|split; [|split; [|split; [|split; [|split; [|split; [|split]]]]]]].
  1-3: apply bf_op_spec; [done|]; intros i b' x y Hx Hy; pose proof (lookup_lt_Some _ _ _ Hx);
    rewrite (bf_get_ok _ _ _ Hy); cbn [mbind outcome_bind]; try (rewrite (bf_get_ok _ _ _ Hx));
    cbn [mbind outcome_bind]; destruct x, y; cbn [negb orb andb xorb];
    first [by apply bf_set_ok | by rewrite list_insert_id].
  - apply bf_not_spec.
  - destruct (contain_loop_spec a b (length b) 0 Hlen) as (r & Hr & Hiff); [lia|].
    exists r. split; [done|]. rewrite Hiff. split; intros H j; [apply H; lia|intros _; apply H].
  - eexists. split; [reflexivity|]. destruct (vector_lt a b) eqn:E1; [split; [lia|]|].
    { intros ->. by rewrite vector_lt_irrefl in E1. }
    destruct (vector_lt b a) eqn:E2; [split; [lia|]|].
    { intros ->. by rewrite vector_lt_irrefl in E2. }
    split; [|done]. intros _. by apply vector_lt_trans_eq.
  - apply (Hsearch true).
  - apply (Hsearch false).
  - unfold nb_set, is_all_set, is_any_set. destruct (bf_is_null a); [done|]. cbn [negb dbg_assert].
    split; [rewrite nb_set_loop_spec by lia; by rewrite drop_0|]. split.
    + destruct (scan_loop_spec false a (length a) 0) as (r & -> & Hiff); [lia|]. cbn [mbind outcome_bind].
      eexists. split; [reflexivity|]. split.
      * intros Hr j [] Hj; [done|]. destruct r; [done|]. exfalso. assert (Hx : false = true); [|done].
        apply Hiff. exists j. split; [lia|done].
      * intros H. destruct r; [|done]. destruct (proj1 Hiff eq_refl) as (j & _ & Hj). by apply H in Hj.
    + destruct (scan_loop_spec true a (length a) 0) as (r & -> & Hiff); [lia|]. exists r. split; [done|].
      rewrite Hiff. split; intros (j & H); exists j; [apply H|split; [lia|done]].
Qed.

(** Every packed form reads back: [to_datum] and [from_datum] with the
    number of bits, the serialized form with what follows it left untouched,
    and the raw form.  A datum of another length gives the null bitfield, and a
    wire form with fewer bytes than its size announces throws. *)
Theorem bitfield_pack_roundtrip (b : list bool) (rest d : list Z)
    (Hb : Z.of_nat (length b) < 2 ^ 64) (Hd : length d <> to_datum_size b) :
  (exists p, to_datum b = Ok p /\ length p = to_datum_size b /\ bytes_ok p /\
     from_datum p (length b) = Ok b /\ rawserial_get (length b) (p ++ rest) = Ok (b, rest)) /\
  (exists w, wire_put_bitfield b = Ok w /\ wire_get_bitfield (w ++ rest) = Ok (b, rest) /\
     wire_get_bitfield (wire_put u64_codec (Z.of_nat (length b)) ++ d) =
       if bool_decide (length d < to_datum_size b)%nat then Throw "bitfield_t too short"
       else let* b' := unpack (take (to_datum_size b) d) (length b) in Ok (b', drop (to_datum_size b) d)) /\
  from_datum d (length b) = Ok [].
Proof.
  destruct (to_datum_spec b) as (p & Hp & Hpk). pose proof Hpk as (Hlen & Hok & _).
  assert (Hsz : to_datum_size (bf_ctor (length b)) = to_datum_size b).
  { unfold to_datum_size, bf_ctor. by rewrite length_replicate. }
  assert (Hr : in_range 64 (Z.of_nat (length b))) by (unfold in_range; lia).
  split; [|split].
  - exists p. split; [done|]. split; [done|]. split; [done|]. split.
    + unfold from_datum. rewrite Hsz, bool_decide_eq_true_2 by done. by apply unpack_spec.
    + unfold rawserial_get. rewrite Hsz, bool_decide_eq_false_2 by (rewrite length_app; lia).
      destruct (take_drop_app_exact p rest _ Hlen) as [-> ->]. by rewrite rawserial_loop_spec.
  - unfold wire_put_bitfield. rewrite Hp. cbn [mbind outcome_bind]. eexists. split; [reflexivity|].
    unfold wire_get_bitfield. split.
    + rewrite <- app_assoc, wire_get_put by done. cbn [mbind outcome_bind]. rewrite Nat2Z.id, Hsz.
      rewrite bool_decide_eq_false_2 by (rewrite length_app; lia).
      destruct (take_drop_app_exact p rest _ Hlen) as [-> ->]. by rewrite unpack_spec.
    + rewrite wire_get_put by done. cbn [mbind outcome_bind]. by rewrite Nat2Z.id, Hsz.
  - unfold from_datum. rewrite Hsz. by rewrite bool_decide_eq_false_2.
Qed.

(* ------------------------------------------------------------------ *)
(** * Witnesses *)
(* ------------------------------------------------------------------ *)

Lemma bitfield_ops_correct_witness :
  bf_xor [true; false; true] [true; true; false] = Ok [false; true; true] /\
  (exists k, next_set [true; false; true] 1 = Ok k /\ (1 <= k)%nat).
Proof.
  destruct (bitfield_ops_correct [true; false; true] [true; true; false] 1 eq_refl)
    as (_ & _ & Hx & _ & _ & _ & (k & Hk & Hle & _) & _).
  split; [exact Hx|]. exists k. split; [exact Hk|exact Hle].
Defined.

(** Ten bits: two bytes, the second padded with zeros. *)
Definition demo_bits : list bool := [true; false; false; false; false; false; false; true; true; true].

Lemma bitfield_pack_roundtrip_witness :
  to_datum demo_bits = Ok [129; 192] /\ from_datum [129; 192] 10 = Ok demo_bits /\
  from_datum [129] 10 = Ok [].
Proof.
  destruct (bitfield_pack_roundtrip demo_bits [] [129]) as ((p & Hp & _ & _ & Hf & _) & _ & Hn).
  - reflexivity.
  - discriminate.
  - split; [reflexivity|]. split; [|exact Hn].
    assert (Hpe : to_datum demo_bits = Ok [129; 192]) by reflexivity. rewrite Hp in Hpe. injection Hpe as ->. exact Hf.
Defined.
