(* ===== verification/GenId.v ===== *)
(** Fixed-size identifiers: [gen_id_t] (src/src/neoip_netutils/gen_id/), the
    base of the Kademlia node identifiers and of every hashed identifier.

    An identifier is the list of the [nb] bytes of [buffer].  The theorems
    relate the byte loops to the number the buffer denotes, most significant
    byte first ([be_value]). *)
From S2P Require Import Prelude Serial Codec.

(* ------------------------------------------------------------------ *)
(** * Data *)
(* ------------------------------------------------------------------ *)

Section gen_id.
Context (nb : nat).                 (* NB_BYTE *)

Definition id_ok (buffer : list Z) : Prop := length buffer = nb /\ bytes_ok buffer.

Definition build_null : list Z := replicate nb 0.
Definition build_any : list Z := replicate nb 255.

Definition id_is_null (buffer : list Z) : bool :=
  if negb (memcmp buffer build_null =? 0) then false else true.

Definition id_compare (buffer other : list Z) : Z :=
  if id_is_null buffer && negb (id_is_null other) then -1
  else if negb (id_is_null buffer) && id_is_null other then 1
  else if id_is_null buffer && id_is_null other then 0
  else memcmp buffer other.

Definition id_eq (a b : list Z) : bool := id_compare a b =? 0.
Definition id_ne (a b : list Z) : bool := negb (id_compare a b =? 0).
Definition id_lt (a b : list Z) : bool := id_compare a b <? 0.
Definition id_le (a b : list Z) : bool := id_compare a b <=? 0.
Definition id_gt (a b : list Z) : bool := 0 <? id_compare a b.
Definition id_ge (a b : list Z) : bool := 0 <=? id_compare a b.

Definition id_is_any (buffer : list Z) : bool := id_eq buffer build_any.
Definition is_fully_qualified (buffer : list Z) : bool :=
  negb (id_is_null buffer) && negb (id_is_any buffer).

(* ------------------------------------------------------------------ *)
(** * Bit operations *)
(* ------------------------------------------------------------------ *)

(** [buffer[i]] for [i < sizeof(buffer)]. *)
Definition id_byte (buffer : list Z) (i : nat) : Z := default 0 (buffer !! i).

Definition id_xor (buffer other : list Z) : list Z :=
  (fun i => Z.lxor (id_byte buffer i) (id_byte other i)) <$> seq 0 nb.
Definition id_and (buffer other : list Z) : list Z :=
  (fun i => Z.land (id_byte buffer i) (id_byte other i)) <$> seq 0 nb.

(** [for( i = 0; i < sizeof(buffer) && buffer[i] == 0; i++ )]. *)
Fixpoint skip_null_bytes (buffer : list Z) : nat :=
  match buffer with
  | b :: buffer' => if b =? 0 then S (skip_null_bytes buffer') else 0
  | [] => 0
  end.

(** [for( j = 7; !(buffer[i] & (1<<j)); j-- )]; [j] is unsigned, so the loop
    leaves the byte only by shifting out of range. *)
Fixpoint find_high_bit (b : Z) (j : nat) : outcome nat :=
  if negb (Z.land b (Z.shiftl 1 (Z.of_nat j)) =? 0) then Ok j
  else match j with O => Fault | S j' => find_high_bit b j' end.

Definition bit_get_highest_set (buffer : list Z) : outcome Z :=
  let i := skip_null_bytes buffer in
  if bool_decide (i = nb) then Ok 0
  else
    assert! negb (id_byte buffer i =? 0) in
    let* j := find_high_bit (id_byte buffer i) 7 in
    Ok ((Z.of_nat nb - 1 - Z.of_nat i) * 8 + Z.of_nat j).

(** With [n_bit = 8 * sizeof(buffer)] the assertion passes and the masking
    reaches [buffer[sizeof(buffer)]]. *)
Definition bit_clear_n_highest (n_bit : Z) (buffer : list Z) : outcome (list Z) :=
  let n_byte_to_clear := Z.to_nat (n_bit / 8) in
  let last_byte_mask := Z.shiftr 255 (n_bit mod 8) in
  assert! n_bit <=? Z.of_nat nb * 8 in
  let tmp := (fun i => if bool_decide (i < n_byte_to_clear)%nat then 0 else id_byte buffer i) <$> seq 0 nb in
  match tmp !! n_byte_to_clear with
  | None => Fault
  | Some b => Ok (<[n_byte_to_clear := Z.land b last_byte_mask]> tmp)
  end.

Definition id_shiftr (buffer : list Z) (nb_bit : Z) : list Z :=
  let byte_off := nb_bit / 8 in
  let bit_off := nb_bit mod 8 in
  (fun i : nat =>
     let right_idx := Z.of_nat i - byte_off in
     let left_idx := Z.of_nat i - byte_off - 1 in
     let left_val := if left_idx <? 0 then 0 else id_byte buffer (Z.to_nat left_idx) in
     let right_val := if right_idx <? 0 then 0 else id_byte buffer (Z.to_nat right_idx) in
     wrap 8 (Z.lor (Z.shiftl left_val (8 - bit_off)) (Z.shiftr right_val bit_off))) <$> seq 0 nb.

(* ------------------------------------------------------------------ *)
(** * Strings *)
(* ------------------------------------------------------------------ *)

(** Characters are their codes. *)
Definition hex_digit (d : Z) : Z := if d <? 10 then 48 + d else 97 + (d - 10).

(** [std::hex << setfill('0') << setw(2) << (int)buffer[i]]. *)
Definition hex_byte (b : Z) : list Z := [hex_digit (b / 16); hex_digit (b mod 16)].

Definition to_canonical_string (buffer : list Z) : list Z := flat_map hex_byte buffer.

(** [std::tolower] in the C locale. *)
Definition tolower (c : Z) : Z := if (65 <=? c) && (c <=? 90) then c + 32 else c.

(** [hi -= hi >= 'a' ? 'a' - 10 : '0'], on [char] promoted to [int]. *)
Definition hex_value (c : Z) : Z :=
  let hi := tolower (to_signed 8 c) in if 97 <=? hi then hi - (97 - 10) else hi - 48.

Fixpoint hex_bytes (n : nat) (str : list Z) : list Z :=
  match n, str with
  | S n', hi :: lo :: str' => wrap 8 (Z.shiftl (hex_value hi) 4 + hex_value lo) :: hex_bytes n' str'
  | _, _ => []
  end.

Definition from_canonical_string (str : list Z) : list Z :=
  if bool_decide (length str <> nb * 2)%nat then build_null else hex_bytes nb str.

(** ["null"], or ["0x"] and the digits. *)
Definition id_to_string (buffer : list Z) : list Z :=
  if id_is_null buffer then [110; 117; 108; 108] else [48; 120] ++ to_canonical_string buffer.

(** [ctor_from_str]: other strings than the output of [id_to_string] are hashed
    by [skey_auth_t], with the algorithm of the template. *)
Definition ctor_from_str (hash : list Z -> list Z) (id_str : list Z) : list Z :=
  if bool_decide (length id_str = nb * 2 + 2)%nat && bool_decide (take 2 id_str = [48; 120])
  then hex_bytes nb (drop 2 id_str)
  else if bool_decide (length id_str = 0%nat) then build_null
  else hash id_str.

(** The constructor from a datum. *)
Definition id_of_datum (hash : list Z -> list Z) (datum : list Z) : list Z :=
  if bool_decide (length datum = nb) then datum else hash datum.

(* ------------------------------------------------------------------ *)
(** * Serialization *)
(* ------------------------------------------------------------------ *)

Definition wire_put_id (buffer : list Z) : list Z := buffer.
Definition wire_get_id (l : list Z) : outcome (list Z * list Z) :=
  if bool_decide (length l < nb)%nat then Throw "gen_id_t Payload Too Short"
  else Ok (take nb l, drop nb l).
End gen_id.

(* ------------------------------------------------------------------ *)
(** * Lemmas: bits *)
(* ------------------------------------------------------------------ *)

Lemma byte_testbit_high b k : is_byte b -> 8 <= k -> Z.testbit b k = false.
Proof.
  unfold is_byte, in_range. intros [Hb Hb'] Hk. apply Z.testbit_false; [lia|]. rewrite Z.div_small; [done|].
  split; [done|]. apply Z.lt_le_trans with (2 ^ 8); [done|]. apply Z.pow_le_mono_r; lia.
Qed.

Lemma byte_bits b : (forall k, 8 <= k -> Z.testbit b k = false) -> 0 <= b -> is_byte b.
Proof.
  intros H Hb. unfold is_byte, in_range. split; [done|].
  assert (Hx : Z.land b (Z.ones 8) = b).
  { apply Z.bits_inj'. intros k Hk. rewrite Z.land_spec. destruct (Z.ltb_spec k 8).
    - rewrite Z.ones_spec_low by lia. by rewrite andb_true_r.
    - rewrite H by lia. done. }
  rewrite <- Hx, Z.land_ones by lia. apply Z.mod_pos_bound. lia.
Qed.

(** The bits of a number are those of its bytes. *)
Lemma be_value_testbit l k :
  bytes_ok l -> 0 <= k ->
  Z.testbit (be_value l) k =
    Z.testbit (default 0 (reverse l !! Z.to_nat (k / 8))) (k mod 8).
Proof.
  intros Hl. revert k. induction l as [|b l IH] using rev_ind; intros k Hk.
  { unfold be_value. simpl. by rewrite !Z.testbit_0_l. }
  apply Forall_app in Hl as [Hl Hb]. rewrite Forall_singleton in Hb.
  rewrite be_value_snoc, reverse_snoc. unfold is_byte, in_range in Hb. pose proof Hb as [Hb1 Hb2]. change (2 ^ 8) with 256 in Hb2.
  pose proof (Z.div_mod k 8 ltac:(lia)). pose proof (Z.mod_pos_bound k 8 ltac:(lia)).
  destruct (Z.ltb_spec k 8) as [Hlt|Hge].
  - rewrite Z.div_small, Z.mod_small by lia. simpl.
    rewrite <- (Z.mod_pow2_bits_low _ 8) by lia. f_equal.
    change (2 ^ 8) with 256. rewrite Z.add_comm, Z.mod_add by lia. by apply Z.mod_small.
  - replace k with ((k - 8) + 8) at 1 by lia. rewrite <- Z.div_pow2_bits by lia. change (2 ^ 8) with 256.
    rewrite Z.div_add_l, (Z.div_small b), Z.add_0_r by lia. rewrite IH by (done || lia).
    replace ((k - 8) mod 8) with (k mod 8) by
      (rewrite <- (Z_mod_plus_full (k - 8) 1 8); f_equal; lia).
    replace (Z.to_nat (k / 8)) with (S (Z.to_nat ((k - 8) / 8))); [done|].
    replace k with ((k - 8) + 1 * 8) at 2 by lia. rewrite Z.div_add by lia.
    assert (0 <= (k - 8) / 8) by (apply Z.div_pos; lia). lia.
Qed.

Lemma lookup_reverse_byte l i :
  (i < length l)%nat -> default 0 (reverse l !! i) = id_byte l (length l - 1 - i).
Proof.
  intros Hi. unfold id_byte. rewrite reverse_lookup by done. do 2 f_equal. lia.
Qed.

Lemma lookup_reverse_out l i : (length l <= i)%nat -> default 0 (reverse l !! i) = 0.
Proof. intros Hi. rewrite lookup_ge_None_2; [done|]. by rewrite length_reverse. Qed.

(** The bit [k] of an identifier of [nb] bytes. *)
Lemma id_testbit nb l k :
  id_ok nb l -> 0 <= k ->
  Z.testbit (be_value l) k =
    (k <? 8 * Z.of_nat nb) && Z.testbit (id_byte l (nb - 1 - Z.to_nat (k / 8))) (k mod 8).
Proof.
  intros [Hlen Hl] Hk. rewrite be_value_testbit by done.
  assert (0 <= k / 8) by (apply Z.div_pos; lia). pose proof (Z.div_mod k 8 ltac:(lia)).
  pose proof (Z.mod_pos_bound k 8 ltac:(lia)).
  destruct (Z.ltb_spec k (8 * Z.of_nat nb)).
  - rewrite lookup_reverse_byte by lia. by rewrite Hlen.
  - rewrite lookup_reverse_out by lia. by rewrite Z.testbit_0_l.
Qed.

Lemma id_byte_ok nb l i : id_ok nb l -> is_byte (id_byte l i).
Proof.
  intros [_ Hl]. unfold id_byte. destruct (l !! i) eqn:E; simpl; [|done].
  by apply (Forall_lookup_1 _ _ _ _ Hl E).
Qed.

Lemma id_byte_seq nb f i : (i < nb)%nat -> id_byte (f <$> seq 0 nb) i = f i.
Proof. intros Hi. unfold id_byte. by rewrite list_lookup_fmap, lookup_seq_lt. Qed.

(** An identifier computed byte by byte, from its bits. *)
Lemma id_seq_ok nb f : (forall i, (i < nb)%nat -> is_byte (f i)) -> id_ok nb (f <$> seq 0 nb).
Proof.
  intros Hf. split; [by rewrite length_fmap, length_seq|].
  apply Forall_fmap, Forall_seq. intros i Hi. apply Hf. lia.
Qed.

Lemma id_value_ext nb l v :
  id_ok nb l -> 0 <= v < 2 ^ (8 * Z.of_nat nb) ->
  (forall i j, (i < nb)%nat -> 0 <= j < 8 ->
     Z.testbit (id_byte l i) j = Z.testbit v (8 * (Z.of_nat nb - 1 - Z.of_nat i) + j)) ->
  be_value l = v.
Proof.
  intros Hl Hv H. apply Z.bits_inj'. intros k Hk. rewrite (id_testbit nb) by done.
  assert (0 <= k / 8) by (apply Z.div_pos; lia). pose proof (Z.div_mod k 8 ltac:(lia)).
  pose proof (Z.mod_pos_bound k 8 ltac:(lia)).
  destruct (Z.ltb_spec k (8 * Z.of_nat nb)); cbn [andb].
  - rewrite H by lia. f_equal. lia.
  - symmetry. destruct (decide (v = 0)) as [->|]; [apply Z.testbit_0_l|].
    apply Z.bits_above_log2; [lia|]. apply Z.lt_le_trans with (8 * Z.of_nat nb); [|lia].
    by apply Z.log2_lt_pow2; lia.
Qed.

Lemma id_value_bound nb l : id_ok nb l -> 0 <= be_value l < 2 ^ (8 * Z.of_nat nb).
Proof.
  intros [<- Hl]. replace (2 ^ (8 * Z.of_nat (length l))) with (256 ^ Z.of_nat (length l)).
  - by apply be_value_bound.
  - rewrite Z.pow_mul_r by lia. done.
Qed.

(** The bit of value [8 * (nb - 1 - i) + j] is bit [j] of byte [i]. *)
Lemma id_bit nb l i j :
  id_ok nb l -> (i < nb)%nat -> 0 <= j < 8 ->
  Z.testbit (be_value l) (8 * (Z.of_nat nb - 1 - Z.of_nat i) + j) = Z.testbit (id_byte l i) j.
Proof.
  intros Hl Hi Hj. rewrite (id_testbit nb) by (done || lia).
  rewrite (Z.mul_comm 8), Z.div_add_l, Z.div_small, Z.add_0_r by lia.
  rewrite (Z.add_comm (_ * 8)), Z.mod_add, Z.mod_small by lia.
  rewrite (proj2 (Z.ltb_lt _ _)) by lia. cbn [andb]. do 2 f_equal. lia.
Qed.

Lemma byte_logic_ok (op : Z -> Z -> Z) (f : bool -> bool -> bool) x y :
  (forall a b k, 0 <= k -> Z.testbit (op a b) k = f (Z.testbit a k) (Z.testbit b k)) ->
  (0 <= x -> 0 <= y -> 0 <= op x y) -> f false false = false ->
  is_byte x -> is_byte y -> is_byte (op x y).
Proof.
  intros Hop Hnn Hf Hx Hy. apply byte_bits.
  - intros k Hk. rewrite Hop, !byte_testbit_high by (done || lia). done.
  - apply Hnn; [apply Hx|apply Hy].
Qed.

Section ops.
Context (nb : nat) (a b : list Z).
Hypothesis Ha : id_ok nb a.
Hypothesis Hb : id_ok nb b.

Lemma id_xor_spec : id_ok nb (id_xor nb a b) /\ be_value (id_xor nb a b) = Z.lxor (be_value a) (be_value b).
Proof.
  assert (Hok : id_ok nb (id_xor nb a b)).
  { apply id_seq_ok. intros i Hi. apply (byte_logic_ok Z.lxor xorb); [intros; apply Z.lxor_spec| |done|..].
    - intros. apply Z.lxor_nonneg. lia.
    - by apply (id_byte_ok nb).
    - by apply (id_byte_ok nb). }
  split; [done|]. apply (id_value_ext nb); [done| |].
  - pose proof (id_value_bound nb a Ha). pose proof (id_value_bound nb b Hb).
    assert (0 <= Z.lxor (be_value a) (be_value b)) by (apply Z.lxor_nonneg; lia). split; [done|].
    destruct (decide (Z.lxor (be_value a) (be_value b) = 0)) as [->|Hne]; [lia|].
    apply Z.log2_lt_pow2; [lia|]. destruct (decide (nb = 0%nat)) as [->|].
    { exfalso. apply Hne. replace (be_value a) with 0 by lia. replace (be_value b) with 0 by lia. done. }
    pose proof (Z.log2_lxor (be_value a) (be_value b) ltac:(lia) ltac:(lia)).
    assert (Hlog : forall v, 0 <= v < 2 ^ (8 * Z.of_nat nb) -> Z.log2 v < 8 * Z.of_nat nb).
    { intros v Hv. destruct (decide (v = 0)) as [->|]; [simpl; lia|]. apply Z.log2_lt_pow2; lia. }
    pose proof (Hlog (be_value a) ltac:(lia)). pose proof (Hlog (be_value b) ltac:(lia)). lia.
  - intros i j Hi Hj. unfold id_xor. rewrite id_byte_seq by done. rewrite !Z.lxor_spec.
    by rewrite !(id_bit nb) by done.
Qed.

Lemma id_and_spec : id_ok nb (id_and nb a b) /\ be_value (id_and nb a b) = Z.land (be_value a) (be_value b).
Proof.
  assert (Hok : id_ok nb (id_and nb a b)).
  { apply id_seq_ok. intros i Hi. apply (byte_logic_ok Z.land andb); [intros; apply Z.land_spec| |done|..].
    - intros. apply Z.land_nonneg. lia.
    - by apply (id_byte_ok nb).
    - by apply (id_byte_ok nb). }
  split; [done|]. apply (id_value_ext nb); [done| |].
  - pose proof (id_value_bound nb a Ha). pose proof (id_value_bound nb b Hb).
    pose proof (Z.land_nonneg (be_value a) (be_value b)).
    assert (Hle : Z.land (be_value a) (be_value b) <= be_value a); [|lia].
    assert (Hl : Z.ldiff (be_value a) (be_value b) = be_value a - Z.land (be_value a) (be_value b)).
    { rewrite Z.sub_nocarry_ldiff.
      - apply Z.bits_inj'. intros k Hk. rewrite !Z.ldiff_spec, Z.land_spec.
        by destruct (Z.testbit _ k), (Z.testbit _ k).
      - apply Z.bits_inj'. intros k Hk. rewrite Z.ldiff_spec, Z.land_spec, Z.testbit_0_l.
        by destruct (Z.testbit _ k), (Z.testbit _ k). }
    pose proof (proj2 (Z.ldiff_nonneg (be_value a) (be_value b)) ltac:(lia)). lia.
  - intros i j Hi Hj. unfold id_and. rewrite id_byte_seq by done. rewrite !Z.land_spec.
    by rewrite !(id_bit nb) by done.
Qed.

Lemma id_shiftr_spec n :
  0 <= n -> id_ok nb (id_shiftr nb a n) /\ be_value (id_shiftr nb a n) = Z.shiftr (be_value a) n.
Proof.
  intros Hn. assert (Hok : id_ok nb (id_shiftr nb a n)).
  { apply id_seq_ok. intros i Hi. apply wrap_range. lia. }
  pose proof (id_value_bound nb a Ha) as Hv.
  split; [done|]. apply (id_value_ext nb); [done| |].
  { rewrite Z.shiftr_div_pow2 by done. assert (0 < 2 ^ n) by (apply Z.pow_pos_nonneg; lia).
    split; [apply Z.div_pos; lia|]. apply Z.div_lt_upper_bound; [lia|]. nia. }
  intros i j Hi Hj. unfold id_shiftr. rewrite id_byte_seq by done.
  rewrite wrap_testbit by lia. rewrite (proj2 (Z.ltb_lt j 8)) by lia. cbn [andb].
  set (byo := n / 8). set (bo := n mod 8).
  assert (Hd : n = 8 * byo + bo) by (apply Z.div_mod; lia).
  assert (Hbo : 0 <= bo < 8) by (apply Z.mod_pos_bound; lia).
  assert (Hbyo : 0 <= byo) by (apply Z.div_pos; lia).
  rewrite Z.lor_spec, Z.shiftl_spec, !Z.shiftr_spec by lia.
  destruct (Z.ltb_spec (j + bo) 8) as [Hlt|Hge].
  - rewrite Z.testbit_neg_r by lia. cbn [orb].
    destruct (Z.ltb_spec (Z.of_nat i - byo) 0).
    + rewrite Z.testbit_0_l, (id_testbit nb) by (done || lia).
      by rewrite (proj2 (Z.ltb_ge _ _)) by lia.
    + rewrite <- (id_bit nb a) by (done || lia). f_equal. lia.
  - rewrite orb_comm. destruct (Z.ltb_spec (Z.of_nat i - byo) 0).
    + rewrite Z.testbit_0_l. cbn [orb]. rewrite (proj2 (Z.ltb_lt (Z.of_nat i - byo - 1) 0)) by lia.
      rewrite Z.testbit_0_l, (id_testbit nb) by (done || lia).
      by rewrite (proj2 (Z.ltb_ge _ _)) by lia.
    + rewrite byte_testbit_high by (by apply (id_byte_ok nb) || lia). cbn [orb].
      destruct (Z.ltb_spec (Z.of_nat i - byo - 1) 0).
      * rewrite Z.testbit_0_l, (id_testbit nb) by (done || lia).
        by rewrite (proj2 (Z.ltb_ge _ _)) by lia.
      * rewrite <- (id_bit nb a) by (done || lia). f_equal. lia.
Qed.

Lemma bit_clear_spec n :
  0 <= n < 8 * Z.of_nat nb ->
  exists r, bit_clear_n_highest nb n a = Ok r /\ id_ok nb r /\
    be_value r = be_value a mod 2 ^ (8 * Z.of_nat nb - n).
Proof.
  intros Hn. unfold bit_clear_n_highest. pass_assert ltac:(apply Z.leb_le; lia).
  pose proof (Z.div_mod n 8 ltac:(lia)) as Hd. pose proof (Z.mod_pos_bound n 8 ltac:(lia)) as Hm.
  assert (Hq : 0 <= n / 8) by (apply Z.div_pos; lia).
  set (k := Z.to_nat (n / 8)). assert (Hk : (k < nb)%nat) by lia.
  set (f := fun i => if bool_decide (i < k)%nat then 0 else id_byte a i).
  rewrite list_lookup_fmap, lookup_seq_lt by done. cbn [fmap option_fmap option_map].
  set (r := <[k := Z.land (f (0 + k)%nat) (Z.shiftr 255 (n mod 8))]> (f <$> seq 0 nb)).
  assert (Hbyte : forall i, (i < nb)%nat ->
    id_byte r i = if bool_decide (i = k) then Z.land (id_byte a k) (Z.shiftr 255 (n mod 8)) else f i).
  { intros i Hi. unfold r, id_byte at 1. destruct (decide (i = k)) as [->|Hne].
    - rewrite list_lookup_insert_eq by (rewrite length_fmap, length_seq; lia).
      rewrite bool_decide_eq_true_2 by done. unfold f. simpl. by rewrite bool_decide_eq_false_2 by lia.
    - rewrite list_lookup_insert_ne by done. rewrite bool_decide_eq_false_2 by done.
      by rewrite list_lookup_fmap, lookup_seq_lt. }
  assert (Hok : id_ok nb r).
  { split; [unfold r; by rewrite length_insert, length_fmap, length_seq|].
    apply Forall_lookup. intros i x Hx. assert (Hi : (i < nb)%nat).
    { apply lookup_lt_Some in Hx. unfold r in Hx. by rewrite length_insert, length_fmap, length_seq in Hx. }
    assert (Hx' : id_byte r i = x) by (unfold id_byte; by rewrite Hx). rewrite <- Hx', Hbyte by done.
    case_bool_decide.
    - apply (byte_logic_ok Z.land andb); [intros; apply Z.land_spec|intros; apply Z.land_nonneg; lia|done|by apply (id_byte_ok nb)|].
      unfold is_byte, in_range. rewrite Z.shiftr_div_pow2 by lia.
      assert (0 < 2 ^ (n mod 8)) by (apply Z.pow_pos_nonneg; lia).
      split; [apply Z.div_pos; lia|]. apply Z.div_lt_upper_bound; [lia|]. change (2 ^ 8) with 256. nia.
    - unfold f. case_bool_decide; [done|]. by apply (id_byte_ok nb). }
  exists r. split; [done|]. split; [done|]. apply (id_value_ext nb); [done| |].
  { pose proof (Z.mod_pos_bound (be_value a) (2 ^ (8 * Z.of_nat nb - n)) ltac:(apply Z.pow_pos_nonneg; lia)).
    assert (2 ^ (8 * Z.of_nat nb - n) <= 2 ^ (8 * Z.of_nat nb)) by (apply Z.pow_le_mono_r; lia). lia. }
  intros i j Hi Hj. rewrite Hbyte by done. set (bit := 8 * (Z.of_nat nb - 1 - Z.of_nat i) + j).
  assert (Htb : Z.testbit (be_value a mod 2 ^ (8 * Z.of_nat nb - n)) bit =
     (bit <? 8 * Z.of_nat nb - n) && Z.testbit (id_byte a i) j).
  { destruct (Z.ltb_spec bit (8 * Z.of_nat nb - n)).
    - rewrite Z.mod_pow2_bits_low by done. by apply (id_bit nb).
    - by rewrite Z.mod_pow2_bits_high by lia. }
  rewrite Htb. destruct (decide (i = k)) as [->|Hne].
  - rewrite bool_decide_eq_true_2 by done. rewrite Z.land_spec, andb_comm. f_equal.
    rewrite Z.shiftr_spec by lia. change 255 with (Z.ones 8). rewrite Z.testbit_ones_nonneg by lia.
    apply eq_true_iff_eq. rewrite !Z.ltb_lt. lia.
  - rewrite bool_decide_eq_false_2 by done. unfold f. case_bool_decide.
    + rewrite Z.testbit_0_l. by rewrite (proj2 (Z.ltb_ge bit _)) by lia.
    + by rewrite (proj2 (Z.ltb_lt bit _)) by lia.
Qed.
End ops.

(* ------------------------------------------------------------------ *)
(** * Lemmas: highest bit, order, strings *)
(* ------------------------------------------------------------------ *)

Lemma skip_null_spec l :
  exists rest, l = replicate (skip_null_bytes l) 0 ++ rest /\
    match rest with [] => True | b :: _ => b <> 0 end.
Proof.
  induction l as [|b l (rest & Hl & Hr)]; [by exists []|]. simpl.
  destruct (Z.eqb_spec b 0) as [->|Hne].
  - exists rest. split; [|done]. simpl. by rewrite <- Hl.
  - by exists (b :: l).
Qed.

Lemma be_value_null n l : be_value (replicate n 0 ++ l) = be_value l.
Proof. induction n as [|n IH]; [done|]. simpl. by rewrite be_value_cons, IH. Qed.

Lemma find_high_bit_spec b : is_byte b -> b <> 0 -> find_high_bit b 7 = Ok (Z.to_nat (Z.log2 b)).
Proof.
  unfold is_byte, in_range. change (2 ^ 8) with 256. intros Hb Hne.
  assert (H : forallb (fun n => match find_high_bit (Z.of_nat n) 7 with
     | Ok j => Nat.eqb j (Z.to_nat (Z.log2 (Z.of_nat n))) | _ => false end) (seq 1 255) = true)
    by (vm_compute; reflexivity).
  rewrite forallb_forall in H. specialize (H (Z.to_nat b)). rewrite Z2Nat.id in H by lia.
  specialize (H ltac:(apply in_seq; lia)). destruct (find_high_bit b 7); try done.
  apply Nat.eqb_eq in H. by subst.
Qed.

Lemma bit_get_highest_set_spec nb l :
  id_ok nb l -> bit_get_highest_set nb l = Ok (Z.log2 (be_value l)).
Proof.
  intros [Hlen Hl]. unfold bit_get_highest_set.
  destruct (skip_null_spec l) as (rest & Heq & Hr). set (i := skip_null_bytes l) in *.
  assert (Hi : length l = (i + length rest)%nat) by (rewrite Heq at 1; by rewrite length_app, length_replicate).
  destruct rest as [|b rest].
  - simpl in Hi. rewrite bool_decide_eq_true_2 by lia. rewrite Heq, be_value_null. done.
  - simpl in Hi. rewrite bool_decide_eq_false_2 by lia.
    assert (Hbyte : id_byte l i = b).
    { unfold id_byte. rewrite Heq at 1. by rewrite lookup_app_r, length_replicate, Nat.sub_diag by (rewrite length_replicate; lia). }
    rewrite Hbyte. pass_assert ltac:(apply negb_true_iff, Z.eqb_neq; done).
    rewrite Heq in Hl. apply Forall_app in Hl as [_ Hl]. inversion Hl as [|? ? Hb Hrest]; subst x l0.
    rewrite find_high_bit_spec by done. cbn [mbind outcome_bind]. f_equal.
    rewrite Heq, be_value_null, be_value_cons. pose proof (be_value_bound rest Hrest) as Hv.
    unfold is_byte, in_range in Hb. assert (Hpos : 0 < b) by lia.
    pose proof (Z.log2_spec b Hpos) as Hlog. pose proof (Z.log2_nonneg b) as Hnn.
    rewrite Z2Nat.id by done. symmetry.
    assert (Hp : 256 ^ Z.of_nat (length rest) = 2 ^ (8 * Z.of_nat (length rest))).
    { rewrite Z.pow_mul_r by lia. done. }
    rewrite Hp in *. replace (Z.of_nat nb - 1 - Z.of_nat i) with (Z.of_nat (length rest)) by lia.
    apply Z.log2_unique; [lia|]. unfold Z.succ in *.
    replace (Z.of_nat (length rest) * 8 + Z.log2 b) with (Z.log2 b + 8 * Z.of_nat (length rest)) by lia.
    replace (Z.log2 b + 8 * Z.of_nat (length rest) + 1) with ((Z.log2 b + 1) + 8 * Z.of_nat (length rest)) by lia.
    rewrite !Z.pow_add_r by lia. rewrite Z.pow_add_r in Hlog by lia. nia.
Qed.

Lemma memcmp_value a b :
  length a = length b -> bytes_ok a -> bytes_ok b -> memcmp a b = Z.sgn (be_value a - be_value b).
Proof.
  revert b. induction a as [|x a IH]; intros [|y b] Hlen Ha Hb; simpl in *; try done.
  inversion Ha as [|? ? Hx Ha']; inversion Hb as [|? ? Hy Hb']; subst.
  specialize (IH b ltac:(lia) Ha' Hb').
  rewrite !be_value_cons. pose proof (be_value_bound a Ha') as Hva. pose proof (be_value_bound b Hb') as Hvb.
  replace (length b) with (length a) in * by lia. set (m := 256 ^ Z.of_nat (length a)) in *.
  destruct (Z.ltb_spec x y); [symmetry; apply Z.sgn_neg; nia|].
  destruct (Z.ltb_spec y x); [symmetry; apply Z.sgn_pos; nia|].
  rewrite IH. f_equal. assert (x = y) as -> by lia. lia.
Qed.

Lemma build_null_ok nb : id_ok nb (build_null nb).
Proof. split; [apply length_replicate|]. apply Forall_replicate. done. Qed.

Lemma be_value_build_null nb : be_value (build_null nb) = 0.
Proof. unfold build_null. rewrite <- (app_nil_r (replicate nb 0)). apply be_value_null. Qed.

Lemma id_is_null_spec nb l : id_ok nb l -> id_is_null nb l = (be_value l =? 0).
Proof.
  intros [Hlen Hl]. destruct (build_null_ok nb) as [Hln Hn]. unfold id_is_null.
  rewrite memcmp_value by (done || lia). rewrite be_value_build_null, Z.sub_0_r.
  destruct (Z.eqb_spec (be_value l) 0) as [->|Hne]; [done|].
  destruct (Z.eqb_spec (Z.sgn (be_value l)) 0); [|done]. lia.
Qed.

Lemma id_compare_spec nb a b :
  id_ok nb a -> id_ok nb b -> id_compare nb a b = Z.sgn (be_value a - be_value b).
Proof.
  intros Ha Hb. unfold id_compare. rewrite !id_is_null_spec by done.
  pose proof (id_value_bound nb a Ha). pose proof (id_value_bound nb b Hb).
  destruct Ha as [Hla Ha], Hb as [Hlb Hb].
  destruct (Z.eqb_spec (be_value a) 0), (Z.eqb_spec (be_value b) 0); cbn [andb negb]; try lia.
  apply memcmp_value; [lia|done|done].
Qed.

(** An identifier is determined by its number. *)
Lemma id_value_inj nb a b : id_ok nb a -> id_ok nb b -> be_value a = be_value b -> a = b.
Proof.
  intros [Hla Ha] [Hlb Hb] H. rewrite <- (be_bytes_value a), <- (be_bytes_value b) by done.
  by rewrite H, Hla, Hlb.
Qed.

Definition toupper (c : Z) : Z := if (97 <=? c) && (c <=? 122) then c - 32 else c.

Lemma hex_digits_value d :
  0 <= d < 16 -> hex_value (hex_digit d) = d /\ hex_value (toupper (hex_digit d)) = d.
Proof.
  intros Hd. assert (H : forallb (fun n => (hex_value (hex_digit (Z.of_nat n)) =? Z.of_nat n) &&
      (hex_value (toupper (hex_digit (Z.of_nat n))) =? Z.of_nat n)) (seq 0 16) = true) by (vm_compute; reflexivity).
  rewrite forallb_forall in H. specialize (H (Z.to_nat d) ltac:(apply in_seq; lia)).
  rewrite Z2Nat.id in H by lia. bool_to_prop. lia.
Qed.

Lemma hex_bytes_spec (up : Z -> Z) l :
  (forall d, 0 <= d < 16 -> hex_value (up (hex_digit d)) = d) -> bytes_ok l ->
  hex_bytes (length l) (up <$> to_canonical_string l) = l.
Proof.
  intros Hup. induction 1 as [|b l Hb Hl IH]; [done|]. unfold is_byte, in_range in Hb. change (2 ^ 8) with 256 in Hb.
  cbn [to_canonical_string flat_map hex_byte]. rewrite fmap_app. cbn [fmap list_fmap app length hex_bytes].
  f_equal; [|exact IH].
  pose proof (Z.mod_pos_bound b 16 ltac:(lia)). pose proof (Z.div_mod b 16 ltac:(lia)).
  assert (0 <= b / 16 < 16) by (split; [apply Z.div_pos; lia|apply Z.div_lt_upper_bound; lia]).
  rewrite !Hup by done. rewrite Z.shiftl_mul_pow2 by lia. change (2 ^ 4) with 16.
  replace (b / 16 * 16 + b mod 16) with b by lia. apply wrap_small. unfold in_range. lia.
Qed.

Lemma to_canonical_length l : length (to_canonical_string l) = (length l * 2)%nat.
Proof. unfold to_canonical_string. induction l as [|b l IH]; simpl; [done|]. lia. Qed.

(* ------------------------------------------------------------------ *)
(** * Properties *)
(* ------------------------------------------------------------------ *)

(** C34. The byte loops compute on the number an identifier denotes: [^] and [&]
    are the bitwise operations, [>>] the shift, [bit_get_highest_set] the
    binary logarithm (0 for the null identifier, and its loop always ends), and
    [bit_clear_n_highest] the remainder modulo a power of two.  Asking it to
    clear every bit, which its assertion allows, reaches the byte after the
    buffer. *)
Theorem gen_id_bits_correct (nb : nat) (a b : list Z) (n m : Z)
    (Ha : id_ok nb a) (Hb : id_ok nb b) (Hn : 0 <= n) (Hm : 0 <= m < 8 * Z.of_nat nb) :
  (id_ok nb (id_xor nb a b) /\ be_value (id_xor nb a b) = Z.lxor (be_value a) (be_value b)) /\
  (id_ok nb (id_and nb a b) /\ be_value (id_and nb a b) = Z.land (be_value a) (be_value b)) /\
  (id_ok nb (id_shiftr nb a n) /\ be_value (id_shiftr nb a n) = Z.shiftr (be_value a) n) /\
  bit_get_highest_set nb a = Ok (Z.log2 (be_value a)) /\
  (exists r, bit_clear_n_highest nb m a = Ok r /\ id_ok nb r /\
     be_value r = be_value a mod 2 ^ (8 * Z.of_nat nb - m)) /\
  bit_clear_n_highest nb (8 * Z.of_nat nb) a = Fault.
Proof.
  split; [by apply id_xor_spec|]. split; [by apply id_and_spec|]. split; [by apply id_shiftr_spec|].
  split; [by apply bit_get_highest_set_spec|]. split; [by apply bit_clear_spec|].
  unfold bit_clear_n_highest. pass_assert ltac:(apply Z.leb_le; lia).
  rewrite (Z.mul_comm 8), Z.div_mul, Nat2Z.id by lia. rewrite lookup_ge_None_2; [done|].
  rewrite length_fmap, length_seq. lia.
Qed.

(** Identifiers are ordered like the numbers they denote, the null one
    first: every comparison operator agrees, equality is equality of the
    buffers, and null and ANY are recognized exactly. *)
Theorem gen_id_order (nb : nat) (a b : list Z) (Ha : id_ok nb a) (Hb : id_ok nb b) :
  id_compare nb a b = Z.sgn (be_value a - be_value b) /\
  id_lt nb a b = (be_value a <? be_value b) /\ id_le nb a b = (be_value a <=? be_value b) /\
  id_gt nb a b = (be_value b <? be_value a) /\ id_ge nb a b = (be_value b <=? be_value a) /\
  (id_eq nb a b = true <-> a = b) /\ (id_ne nb a b = false <-> a = b) /\
  id_is_null nb a = (be_value a =? 0) /\ (id_is_any nb a = true <-> a = build_any nb).
Proof.
  assert (Hany : id_ok nb (build_any nb)).
  { split; [apply length_replicate|]. by apply Forall_replicate. }
  assert (Heq : forall x y, id_ok nb x -> id_ok nb y -> id_eq nb x y = true <-> x = y).
  { intros x y Hx Hy. unfold id_eq. rewrite id_compare_spec by done. rewrite Z.eqb_eq. split; [|intros ->; lia].
    intros H. apply (id_value_inj nb); try done. lia. }
  split; [by apply id_compare_spec|]. unfold id_lt, id_le, id_gt, id_ge, id_ne.
  rewrite !id_compare_spec by done. do 4 (split; [lia|]). split; [by apply Heq|].
  split; [|split; [by apply id_is_null_spec|by apply Heq]].
  rewrite negb_false_iff. specialize (Heq a b Ha Hb). unfold id_eq in Heq. by rewrite id_compare_spec in Heq.
Qed.

(** Text and wire forms: the canonical string reads back as the identifier,
    in either case of the digits, whatever the identifier; a displayed one that
    is not null is read back by the constructor without hashing; strings of
    another length are refused or hashed; and the wire form is read back,
    a short input throwing. *)
Theorem gen_id_text_roundtrip (nb : nat) (hash : list Z -> list Z) (a : list Z) (rest : list Z)
    (Ha : id_ok nb a) :
  from_canonical_string nb (to_canonical_string a) = a /\
  from_canonical_string nb (toupper <$> to_canonical_string a) = a /\
  (id_is_null nb a = false -> ctor_from_str nb hash (id_to_string nb a) = a) /\
  (length rest <> (nb * 2)%nat -> from_canonical_string nb rest = build_null nb) /\
  wire_get_id nb (wire_put_id a ++ rest) = Ok (a, rest) /\
  ((length rest < nb)%nat -> wire_get_id nb rest = Throw "gen_id_t Payload Too Short") /\
  id_of_datum nb hash a = a.
Proof.
  destruct Ha as [Hlen Ha]. pose proof (to_canonical_length a) as Hl. rewrite Hlen in Hl.
  assert (Hhex : hex_bytes nb (to_canonical_string a) = a).
  { rewrite <- Hlen, <- (list_fmap_id (to_canonical_string a)).
    apply (hex_bytes_spec id); [|done]. intros d Hd. apply (hex_digits_value d Hd). }
  split_and!.
  - unfold from_canonical_string. by rewrite bool_decide_eq_false_2 by lia.
  - unfold from_canonical_string. rewrite bool_decide_eq_false_2 by (rewrite length_fmap; lia).
    rewrite <- Hlen. apply hex_bytes_spec; [|done]. intros d Hd. apply (hex_digits_value d Hd).
  - intros Hnull. unfold id_to_string, ctor_from_str. rewrite Hnull.
    rewrite bool_decide_eq_true_2 by (simpl; lia). cbn [app take]. rewrite take_0.
    rewrite bool_decide_eq_true_2 by done. cbn [andb skipn]. exact Hhex.
  - intros Hr. unfold from_canonical_string. by rewrite bool_decide_eq_true_2.
  - unfold wire_get_id, wire_put_id. rewrite bool_decide_eq_false_2 by (rewrite length_app; lia).
    destruct (take_drop_app_exact a rest nb Hlen) as [-> ->]. done.
  - intros Hr. unfold wire_get_id. by rewrite bool_decide_eq_true_2.
  - unfold id_of_datum. by rewrite bool_decide_eq_true_2.
Qed.

(* ------------------------------------------------------------------ *)
(** * Witnesses *)
(* ------------------------------------------------------------------ *)

(** Identifiers of three bytes. *)
Lemma id3_ok : id_ok 3 [1; 0; 255] /\ id_ok 3 [0; 171; 16].
Proof. split; (split; [reflexivity|repeat constructor; discriminate]). Qed.

Lemma gen_id_bits_correct_witness :
  be_value (id_xor 3 [1; 0; 255] [0; 171; 16]) = Z.lxor 65791 43792 /\
  bit_get_highest_set 3 [1; 0; 255] = Ok 16 /\
  bit_clear_n_highest 3 24 [1; 0; 255] = Fault.
Proof.
  destruct (gen_id_bits_correct 3 [1; 0; 255] [0; 171; 16] 5 9 (proj1 id3_ok) (proj2 id3_ok))
    as ((_ & H1) & _ & _ & H2 & _ & H3).
  - discriminate.
  - split; [discriminate|reflexivity].
  - split; [exact H1|]. split; [exact H2|exact H3].
Defined.

Lemma gen_id_order_witness : id_lt 3 [0; 171; 16] [1; 0; 255] = true.
Proof.
  destruct (gen_id_order 3 [0; 171; 16] [1; 0; 255] (proj2 id3_ok) (proj1 id3_ok)) as (_ & H & _).
  exact H.
Defined.

(** "00ab10" and "00AB10". *)
Lemma gen_id_text_roundtrip_witness :
  to_canonical_string [0; 171; 16] = [48; 48; 97; 98; 49; 48] /\
  from_canonical_string 3 [48; 48; 65; 66; 49; 48] = [0; 171; 16].
Proof.
  split; [reflexivity|].
  exact (proj1 (proj2 (gen_id_text_roundtrip 3 (fun _ => [0; 0; 0]) [0; 171; 16] [] (proj2 id3_ok)))).
Defined.
