(* ===== verification/Omap.v ===== *)
(** [std::map]: the keys in order, without duplicates, under the key type's own
    [operator <] ([ltb]).  For the order of the integers, lookups and insertions
    are related to the finite maps of stdpp; other keys (wrapped sequence
    numbers, identifiers) are images of integers by a function that keeps the
    order between them ([om_find_map] and the like). *)
From stdpp Require Import gmap.
From S2P Require Import Prelude.

Section ops.
Context {K V : Type} (ltb : K -> K -> bool).
Implicit Types (l : list (K * V)).

Fixpoint om_find (k : K) l : option V :=
  match l with
  | [] => None
  | (k', v) :: l' =>
    if ltb k' k then om_find k l' else if ltb k k' then None else Some v
  end.

(** [insert(make_pair(k, v))]: the boolean tells whether it took place. *)
Fixpoint om_insert (k : K) (v : V) l : list (K * V) * bool :=
  match l with
  | [] => ([(k, v)], true)
  | (k', v') :: l' =>
    if ltb k' k then let (l2, b) := om_insert k v l' in ((k', v') :: l2, b)
    else if ltb k k' then ((k, v) :: l, true) else (l, false)
  end.

Fixpoint om_erase (k : K) l : list (K * V) :=
  match l with
  | [] => []
  | (k', v') :: l' =>
    if ltb k' k then (k', v') :: om_erase k l' else if ltb k k' then l else l'
  end.

(** Assignment through an iterator on an existing key. *)
Fixpoint om_update (k : K) (f : V -> V) l : list (K * V) :=
  match l with
  | [] => []
  | (k', v') :: l' =>
    if ltb k' k then (k', v') :: om_update k f l'
    else if ltb k k' then l else (k', f v') :: l'
  end.
End ops.

Definition om_sorted {V} (l : list (Z * V)) : Prop := StronglySorted Z.lt (l.*1).

Definition om_map {V} (l : list (Z * V)) : gmap Z V := list_to_map l.

(* ------------------------------------------------------------------ *)
(** * Lemmas, for the order of the integers *)
(* ------------------------------------------------------------------ *)

Section lemmas.
Context {V : Type}.
Implicit Types (l : list (Z * V)).

Lemma om_sorted_cons k v l :
  om_sorted ((k, v) :: l) <-> om_sorted l /\ Forall (fun p => k < p.1) l.
Proof.
  unfold om_sorted. rewrite fmap_cons, StronglySorted_cons, Forall_fmap. tauto.
Qed.

Lemma om_sorted_nil : om_sorted (V := V) [].
Proof. constructor. Qed.

Lemma om_map_above k l : Forall (fun p => k < p.1) l -> om_map l !! k = None.
Proof.
  intros H. apply not_elem_of_list_to_map_1. intros ([k' v] & -> & Hin)%list_elem_of_fmap.
  eapply Forall_forall in H; [|exact Hin]. simpl in H. lia.
Qed.

Lemma om_find_lookup k l : om_sorted l -> om_find Z.ltb k l = om_map l !! k.
Proof.
  induction l as [|[k' v] l IH]; intros Hs; [done|].
  apply om_sorted_cons in Hs as [Hs Hk]. unfold om_map in *. simpl.
  destruct (Z.ltb_spec k' k); [rewrite lookup_insert_ne by lia; by apply IH|].
  destruct (Z.ltb_spec k k').
  - rewrite lookup_insert_ne by lia. symmetry. apply om_map_above.
    eapply Forall_impl; [exact Hk|]. simpl. lia.
  - replace k with k' by lia. by rewrite lookup_insert_eq.
Qed.

Lemma om_insert_Forall (P : Z * V -> Prop) k v l :
  P (k, v) -> Forall P l -> Forall P (om_insert Z.ltb k v l).1.
Proof.
  intros Hk. induction 1 as [|[k' v'] l Hp Hl IH]; simpl; [by constructor|].
  destruct (k' <? k).
  - destruct (om_insert Z.ltb k v l). by constructor.
  - destruct (k <? k'); by repeat constructor.
Qed.

Lemma om_insert_absent k v l :
  om_sorted l -> om_map l !! k = None ->
  exists l', om_insert Z.ltb k v l = (l', true) /\ om_sorted l' /\ om_map l' = <[k := v]> (om_map l).
Proof.
  induction l as [|[k' v'] l IH]; intros Hs Hn; simpl.
  { exists [(k, v)]. split; [done|]. split; [|done]. by apply om_sorted_cons. }
  pose proof Hs as [Hs' Hk]%om_sorted_cons. unfold om_map in *. simpl in *.
  apply lookup_insert_None in Hn as [Hn Hne].
  destruct (Z.ltb_spec k' k).
  - destruct (IH Hs' Hn) as (l2 & Heq & Hs2 & Hm2).
    pose proof (om_insert_Forall (fun p => k' < p.1) k v l) as Hall. rewrite Heq in *. simpl in Hall.
    exists ((k', v') :: l2). split; [done|]. split; [apply om_sorted_cons; auto|].
    simpl. rewrite Hm2. by rewrite insert_insert_ne by lia.
  - destruct (Z.ltb_spec k k'); [|lia].
    exists ((k, v) :: (k', v') :: l). split; [done|]. split; [|done].
    apply om_sorted_cons. split; [done|]. constructor; [done|].
    eapply Forall_impl; [exact Hk|]. simpl. lia.
Qed.

Lemma om_insert_present k v l :
  om_sorted l -> is_Some (om_map l !! k) -> om_insert Z.ltb k v l = (l, false).
Proof.
  induction l as [|[k' v'] l IH]; intros Hs Hn; simpl.
  { by destruct Hn as [? Hn]. }
  pose proof Hs as [Hs' Hk]%om_sorted_cons. unfold om_map in *. simpl in *.
  destruct (Z.ltb_spec k' k).
  - rewrite lookup_insert_ne in Hn by lia. by rewrite IH.
  - destruct (Z.ltb_spec k k'); [|done].
    rewrite lookup_insert_ne in Hn by lia. change (list_to_map l) with (om_map l) in Hn.
    rewrite om_map_above in Hn; [by destruct Hn|]. eapply Forall_impl; [exact Hk|]. simpl. lia.
Qed.

Lemma om_erase_Forall (P : Z * V -> Prop) k l : Forall P l -> Forall P (om_erase Z.ltb k l).
Proof.
  induction 1 as [|[k' v'] l Hp Hl IH]; simpl; [done|].
  repeat case_match; try done; by constructor.
Qed.

Lemma om_erase_spec k l :
  om_sorted l -> om_sorted (om_erase Z.ltb k l) /\ om_map (om_erase Z.ltb k l) = delete k (om_map l).
Proof.
  induction l as [|[k' v'] l IH]; intros Hs; simpl.
  { split; [done|]. unfold om_map. simpl. by rewrite delete_empty. }
  pose proof Hs as [Hs' Hk]%om_sorted_cons. unfold om_map in *. simpl in *.
  destruct (Z.ltb_spec k' k).
  - destruct (IH Hs') as [H1 H2]. split.
    + apply om_sorted_cons. split; [done|]. by apply om_erase_Forall.
    + simpl. rewrite H2. by rewrite delete_insert_ne by lia.
  - destruct (Z.ltb_spec k k').
    + split; [done|]. rewrite delete_id; [done|]. simpl.
      rewrite lookup_insert_ne by lia. apply om_map_above.
      eapply Forall_impl; [exact Hk|]. simpl. lia.
    + replace k' with k in * by lia. split; [done|]. rewrite delete_insert_eq.
      rewrite delete_id; [done|]. by apply om_map_above.
Qed.

Lemma om_update_Forall (P : Z * V -> Prop) k g l :
  (forall k' v v', P (k', v) -> P (k', v')) -> Forall P l -> Forall P (om_update Z.ltb k g l).
Proof.
  intros HP. induction 1 as [|[k' v'] l Hp Hl IH]; simpl; [done|].
  repeat case_match; constructor; eauto.
Qed.

Lemma om_update_spec k g l :
  om_sorted l -> om_sorted (om_update Z.ltb k g l) /\
    om_map (om_update Z.ltb k g l) = alter g k (om_map l).
Proof.
  induction l as [|[k' v'] l IH]; intros Hs; simpl.
  { split; [done|]. apply map_eq. intros i. by rewrite lookup_alter; case_decide. }
  pose proof Hs as [Hs' Hk]%om_sorted_cons. unfold om_map in *. simpl in *.
  destruct (Z.ltb_spec k' k).
  - destruct (IH Hs') as [H1 H2]. split.
    + apply om_sorted_cons. split; [done|]. apply om_update_Forall; [|done]. simpl. eauto.
    + simpl. rewrite H2. by rewrite alter_insert_ne by lia.
  - destruct (Z.ltb_spec k k').
    + split; [done|]. rewrite alter_insert_ne by lia. simpl. f_equal.
      symmetry. apply alter_id. intros v Hv. exfalso.
      change (list_to_map l) with (om_map l) in Hv. rewrite om_map_above in Hv; [done|].
      eapply Forall_impl; [exact Hk|]. simpl. lia.
    + replace k' with k in * by lia. split; [by apply om_sorted_cons|].
      simpl. by rewrite alter_insert_eq.
Qed.

(** A sorted list is determined by its map. *)
Lemma om_ext l1 l2 : om_sorted l1 -> om_sorted l2 -> om_map l1 = om_map l2 -> l1 = l2.
Proof.
  revert l2. induction l1 as [|[k v] l1 IH]; intros [|[k' v'] l2] H1 H2 Heq; [done|..].
  - exfalso. by apply (insert_non_empty (om_map l2) k' v').
  - exfalso. by apply (insert_non_empty (om_map l1) k v).
  - apply om_sorted_cons in H1 as [H1 K1]. apply om_sorted_cons in H2 as [H2 K2].
    unfold om_map in *; simpl in *.
    assert (k = k') as ->.
    { destruct (Z.lt_trichotomy k k') as [Hlt|[|Hlt]]; [exfalso|done|exfalso].
      - pose proof (f_equal (lookup k) Heq) as Hk.
        rewrite lookup_insert_eq, lookup_insert_ne in Hk by lia.
        change (list_to_map l2) with (om_map l2) in Hk. rewrite (om_map_above k l2) in Hk; [done|]. eapply Forall_impl; [exact K2|]. simpl. lia.
      - pose proof (f_equal (lookup k') Heq) as Hk.
        rewrite lookup_insert_eq, lookup_insert_ne in Hk by lia.
        change (list_to_map l1) with (om_map l1) in Hk. rewrite (om_map_above k' l1) in Hk; [done|]. eapply Forall_impl; [exact K1|]. simpl. lia. }
    pose proof (f_equal (lookup k') Heq) as Hk. rewrite !lookup_insert_eq in Hk. injection Hk as ->.
    f_equal. apply IH; [done|done|].
    apply (f_equal (delete k')) in Heq. rewrite !delete_insert_eq in Heq.
    by rewrite !delete_id in Heq by by apply om_map_above.
Qed.

Lemma om_elem_of l k v : om_sorted l -> (k, v) ∈ l <-> om_map l !! k = Some v.
Proof.
  intros Hs. unfold om_map. apply elem_of_list_to_map.
  unfold om_sorted in Hs. clear v. induction (l.*1) as [|x xs IH]; [constructor|].
  apply StronglySorted_cons in Hs as [Hx Hs]. constructor; [|by apply IH].
  intros Hin. eapply Forall_forall in Hx; [|exact Hin]. lia.
Qed.
End lemmas.

(* ------------------------------------------------------------------ *)
(** * Keys that are images of integers *)
(* ------------------------------------------------------------------ *)

(** The keys of a map over positions, seen through [f]. *)
Definition om_keys {K V} (f : Z -> K) (l : list (Z * V)) : list (K * V) :=
  (fun p => (f p.1, p.2)) <$> l.

Section transport.
Context {K V : Type} (ltb : K -> K -> bool) (f : Z -> K).
Implicit Types (l : list (Z * V)).

(** [f] preserves the order between [k] and the keys of [l]. *)
Definition keys_agree (k : Z) l : Prop :=
  Forall (fun p => ltb (f p.1) (f k) = (p.1 <? k) /\ ltb (f k) (f p.1) = (k <? p.1)) l.

Lemma om_find_map k l : keys_agree k l -> om_find ltb (f k) (om_keys f l) = om_find Z.ltb k l.
Proof.
  induction 1 as [|[k' v] l [H1 H2] Hl IH]; simpl in *; [done|]. by rewrite H1, H2, IH.
Qed.

Lemma om_insert_map k v l :
  keys_agree k l ->
  om_insert ltb (f k) v (om_keys f l) =
    (om_keys f (om_insert Z.ltb k v l).1, (om_insert Z.ltb k v l).2).
Proof.
  induction 1 as [|[k' v'] l [H1 H2] Hl IH]; simpl in *; [done|]. rewrite H1, H2, IH.
  destruct (k' <? k); [by destruct (om_insert Z.ltb k v l)|]. by destruct (k <? k').
Qed.

Lemma om_erase_map k l :
  keys_agree k l -> om_erase ltb (f k) (om_keys f l) = om_keys f (om_erase Z.ltb k l).
Proof.
  induction 1 as [|[k' v'] l [H1 H2] Hl IH]; simpl in *; [done|]. rewrite H1, H2, IH.
  destruct (k' <? k); [done|]. by destruct (k <? k').
Qed.

Lemma om_update_map k g l :
  keys_agree k l -> om_update ltb (f k) g (om_keys f l) = om_keys f (om_update Z.ltb k g l).
Proof.
  induction 1 as [|[k' v'] l [H1 H2] Hl IH]; simpl in *; [done|]. rewrite H1, H2, IH.
  destruct (k' <? k); [done|]. by destruct (k <? k').
Qed.
End transport.
