(* ===== verification/PktFrag.v ===== *)
(** Datagram fragmentation and reassembly: [pktfrag_t] and its
    [pending_dgram_t] (src/src/neoip_proto/pktfrag/).

    Packets are the byte sequences of [serial_t] (see the root file); the
    [std::map]s are ordered association lists.  The specification of the
    reassembly is, for each sequence number, the set of the fragment indices
    received so far: [reassembly_refines] relates the two over any
    interleaving, duplication, reordering and expiration. *)
From stdpp Require Import gmap.
From S2P Require Import Prelude Serial Codec Omap.

(* ------------------------------------------------------------------ *)
(** * Fragmentation *)
(* ------------------------------------------------------------------ *)

(** [pktfrag_pkttype_t]: the items follow [NONE = NEOIP_PKTTYPE_OFFSET_PKTFRAG]. *)
Definition NEOIP_PKTTYPE_OFFSET_PKTFRAG : Z := 48.
Definition PKT_FRAGMENT : Z := NEOIP_PKTTYPE_OFFSET_PKTFRAG + 1.

Definition OUTTER_MTU_DFL : Z := 1400.
Definition POOL_MAX_SIZE_DFL : Z := 30 * 1024.

Definition put_header (seqnb offset : Z) (more_bit : bool) : list Z :=
  wire_put u8_codec PKT_FRAGMENT ++ wire_put u32_codec seqnb ++
  wire_put u32_codec offset ++ wire_put u8_codec (if more_bit then 1 else 0).

Definition cpu_fragment_hd_len (next_xmit_seqnb : Z) : Z :=
  Z.of_nat (length (put_header next_xmit_seqnb 0 false)).

(** The loop over the fragments.  Each turn consumes [payl_mtu] bytes, so the
    length of the packet is enough fuel unless [payl_mtu] is 0, when the C++
    loop never ends ([Fault]). *)
Fixpoint frag_loop (fuel : nat) (seqnb payl_mtu frag_offset : Z) (orig_pkt : list Z)
    : outcome (list (list Z)) :=
  if bool_decide (length orig_pkt = 0%nat) then Ok []
  else
    match fuel with
    | O => Fault
    | S fuel' =>
      let more_bit := bool_decide (payl_mtu < Z.of_nat (length orig_pkt)) in
      let frag_len := if more_bit then payl_mtu else Z.of_nat (length orig_pkt) in
      let frag_pkt := put_header seqnb frag_offset more_bit ++ take (Z.to_nat frag_len) orig_pkt in
      let* fraglist := frag_loop fuel' seqnb payl_mtu (wrap 32 (frag_offset + frag_len))
                         (drop (Z.to_nat frag_len) orig_pkt) in
      Ok (frag_pkt :: fraglist)
    end.

(** [pkt_from_upper(orig_pkt, seqnb)]. *)
Definition pkt_from_upper_seqnb (outter_mtu seqnb : Z) (orig_pkt : list Z)
    : outcome (list (list Z)) :=
  let payl_mtu := wrap SIZE_T_BITS (outter_mtu - cpu_fragment_hd_len seqnb) in
  assert! bool_decide (outter_mtu < Z.of_nat (length orig_pkt)) in
  frag_loop (S (length orig_pkt)) seqnb payl_mtu 0 orig_pkt.

(* ------------------------------------------------------------------ *)
(** * Reassembly of one datagram *)
(* ------------------------------------------------------------------ *)

Record pending_dgram_t := Pending {
  full_dgram_len : Z;                (* 0 while the last fragment is missing *)
  fragment_db : list (Z * list Z)    (* std::map<uint32_t, pkt_t> *)
}.

Definition pending_ctor : pending_dgram_t := Pending 0 [].

(** The scan of [is_complete] from [offset]; [None] when out of fuel. *)
Fixpoint is_complete_loop (fuel : nat) (offset full_len : Z) (db : list (Z * list Z))
    : option bool :=
  if full_len <=? offset then Some true
  else
    match fuel with
    | O => None
    | S fuel' =>
      match om_find Z.ltb (wrap 32 offset) db with
      | None => Some false
      | Some fragment =>
        is_complete_loop fuel' (offset + Z.of_nat (length fragment)) full_len db
      end
    end.

(** The offset grows at each turn unless a fragment is empty, so the datagram
    length is enough fuel; past it the scan never ends. *)
Definition is_complete (p : pending_dgram_t) : outcome bool :=
  if full_dgram_len p =? 0 then Ok false
  else
    match is_complete_loop (Z.to_nat (full_dgram_len p)) 0 (full_dgram_len p) (fragment_db p) with
    | Some b => Ok b
    | None => Fault
    end.

Definition add_fragment (offset : Z) (more_bit : bool) (fragment : list Z) (p : pending_dgram_t)
    : outcome (bool * pending_dgram_t) :=
  let* c := is_complete p in
  assert! negb c in
  match om_find Z.ltb offset (fragment_db p) with
  | Some _ => Ok (false, p)
  | None =>
    let (db, succeed) := om_insert Z.ltb offset fragment (fragment_db p) in
    assert! succeed in
    let full_len := if more_bit then full_dgram_len p
                    else wrap SIZE_T_BITS (offset + Z.of_nat (length fragment)) in
    let p1 := Pending full_len db in
    let* c1 := is_complete p1 in
    Ok (c1, p1)
  end.

Definition get_complete_dgram (p : pending_dgram_t) : outcome (list Z) :=
  let* c := is_complete p in
  assert! c in
  Ok (concat (fragment_db p).*2).

(* ------------------------------------------------------------------ *)
(** * The layer *)
(* ------------------------------------------------------------------ *)

Record pktfrag_t := PktFrag {
  next_xmit_seqnb : Z;
  outter_mtu : Z;
  pool_max_size : Z;                             (* 0 means infinite *)
  pool_cur_size : Z;
  pending_dgram_db : list (Z * pending_dgram_t)  (* std::map<uint32_t, pending_dgram_t *> *)
}.

Definition pktfrag_ctor : pktfrag_t := PktFrag 0 OUTTER_MTU_DFL POOL_MAX_SIZE_DFL 0 [].

Definition set_outter_mtu (mtu : Z) (f : pktfrag_t) : pktfrag_t :=
  PktFrag (next_xmit_seqnb f) mtu (pool_max_size f) (pool_cur_size f) (pending_dgram_db f).

Definition set_from_profile (mtu pool : Z) (f : pktfrag_t) : pktfrag_t :=
  PktFrag (next_xmit_seqnb f) mtu pool (pool_cur_size f) (pending_dgram_db f).

Definition set_db (db : list (Z * pending_dgram_t)) (f : pktfrag_t) : pktfrag_t :=
  PktFrag (next_xmit_seqnb f) (outter_mtu f) (pool_max_size f) (pool_cur_size f) db.

Definition pool_size_is_limited (f : pktfrag_t) : bool := negb (pool_max_size f =? 0).

(** [pkt_from_upper(orig_pkt)]. *)
Definition pkt_from_upper (orig_pkt : list Z) (f : pktfrag_t) : outcome (list (list Z) * pktfrag_t) :=
  let seqnb := wrap 32 (next_xmit_seqnb f + 1) in
  let* fraglist := pkt_from_upper_seqnb (outter_mtu f) seqnb orig_pkt in
  Ok (fraglist, PktFrag seqnb (outter_mtu f) (pool_max_size f) (pool_cur_size f) (pending_dgram_db f)).

Definition pending_dgram_dolink (seqnb : Z) (p : pending_dgram_t) (f : pktfrag_t)
    : outcome pktfrag_t :=
  let (db, succeed) := om_insert Z.ltb seqnb p (pending_dgram_db f) in
  assert! succeed in
  Ok (set_db db f).

Definition pending_dgram_unlink (seqnb : Z) (f : pktfrag_t) : outcome pktfrag_t :=
  assert! bool_decide (is_Some (om_find Z.ltb seqnb (pending_dgram_db f))) in
  Ok (set_db (om_erase Z.ltb seqnb (pending_dgram_db f)) f).

(** [pool_drain]: deleting a pending datagram does not change [pool_cur_size]. *)
Fixpoint pool_drain_loop (max cur needed_len : Z) (db : list (Z * pending_dgram_t))
    : outcome (list (Z * pending_dgram_t)) :=
  if negb (cur =? 0) && (wrap SIZE_T_BITS (max - cur) <? needed_len)
  then match db with
       | [] => AssertFail
       | _ :: db' => pool_drain_loop max cur needed_len db'
       end
  else Ok db.

Definition pool_drain (needed_len : Z) (f : pktfrag_t) : outcome pktfrag_t :=
  let* db := pool_drain_loop (pool_max_size f) (pool_cur_size f) needed_len (pending_dgram_db f) in
  Ok (set_db db f).

Inductive pktfrag_err_t := OK | BOGUS_PKT | FRAGMENT_TOO_LARGE.

(** Parsing of the header after the packet type; an exception makes the packet
    bogus. *)
Definition get_fragment_header (pkt : list Z) : outcome (Z * Z * Z * list Z) :=
  let* (recved_seqnb, p1) := wire_get u32_codec pkt in
  let* (recved_offset, p2) := wire_get u32_codec p1 in
  let* (recved_more_bit, p3) := wire_get u8_codec p2 in
  Ok (recved_seqnb, recved_offset, recved_more_bit, p3).

(** The end of [recv_pkt_fragment], from the search of the pending datagram. *)
Definition recv_fragment_data (seqnb offset : Z) (more_bit : bool) (payload : list Z)
    (f : pktfrag_t) : outcome (list Z * pktfrag_t) :=
  let* (p, f1) :=
    match om_find Z.ltb seqnb (pending_dgram_db f) with
    | Some p => Ok (p, f)
    | None => let* f1 := pending_dgram_dolink seqnb pending_ctor f in Ok (pending_ctor, f1)
    end in
  let* (completed, p1) := add_fragment offset more_bit payload p in
  let f2 := set_db (om_update Z.ltb seqnb (fun _ => p1) (pending_dgram_db f1)) f1 in
  if (completed : bool) then
    let* dgram := get_complete_dgram p1 in
    let* f3 := pending_dgram_unlink seqnb f2 in
    Ok (dgram, f3)
  else Ok ([], f2).

(** The error, the output packet ([[]] when there is none) and the state. *)
Definition recv_pkt_fragment (pkt : list Z) (f : pktfrag_t)
    : outcome (pktfrag_err_t * list Z * pktfrag_t) :=
  match get_fragment_header pkt with
  | Throw _ => Ok (BOGUS_PKT, pkt, f)
  | AssertFail => AssertFail
  | Fault => Fault
  | Ok (seqnb, offset, more_bit, payload) =>
    let* (too_large, f1) :=
      if pool_size_is_limited f then
        let* f1 := pool_drain (Z.of_nat (length payload)) f in
        Ok (bool_decide (wrap SIZE_T_BITS (pool_max_size f1 - pool_cur_size f1)
                         < Z.of_nat (length payload)), f1)
      else Ok (false, f) in
    if (too_large : bool) then Ok (FRAGMENT_TOO_LARGE, payload, f1)
    else
      let* (out, f2) := recv_fragment_data seqnb offset (negb (more_bit =? 0)) payload f1 in
      Ok (OK, out, f2)
  end.

Definition pkt_from_lower (pkt : list Z) (f : pktfrag_t)
    : outcome (pktfrag_err_t * list Z * pktfrag_t) :=
  match wire_get u8_codec pkt with
  | Throw _ => Ok (BOGUS_PKT, pkt, f)
  | AssertFail => AssertFail
  | Fault => Fault
  | Ok (pkttype, pkt1) =>
    if pkttype =? PKT_FRAGMENT then recv_pkt_fragment pkt1 f else Ok (BOGUS_PKT, pkt1, f)
  end.

(** The expiration timer of the pending datagram [seqnb]. *)
Definition expire_cb (seqnb : Z) (f : pktfrag_t) : outcome pktfrag_t :=
  pending_dgram_unlink seqnb f.

(* ------------------------------------------------------------------ *)
(** * Specification *)
(* ------------------------------------------------------------------ *)

(** The fragments of [p] by payloads of [payl] bytes. *)
Definition nfrag (payl : nat) (p : list Z) : nat := ceil_div (length p) payl.
Definition chunk (payl : nat) (p : list Z) (k : nat) : list Z := take payl (drop (k * payl) p).

Definition nth_fragment (payl : nat) (seqnb : Z) (p : list Z) (k : nat) : list Z :=
  put_header seqnb (Z.of_nat (k * payl)) (bool_decide (S k < nfrag payl p)%nat) ++ chunk payl p k.

(** What can happen to the receiver: the arrival of the [k]-th fragment of
    datagram [q], or the expiration of datagram [q]. *)
Inductive net_event := Arrive (q : Z) (k : nat) | Expire (q : Z).

Section spec.
Context (payl : nat) (orig : Z -> list Z).

(** The indices received for the datagrams in progress. *)
Abbreviation spec_state := (gmap Z (gset nat)).

Definition all_fragments (q : Z) : gset nat := set_seq 0 (nfrag payl (orig q)).

Definition spec_step (e : net_event) (A : spec_state) : list Z * spec_state :=
  match e with
  | Arrive q k =>
    let R := {[ k ]} ∪ default ∅ (A !! q) in
    if decide (R = all_fragments q) then (orig q, delete q A) else ([], <[q := R]> A)
  | Expire q => ([], delete q A)
  end.

Definition pktfrag_step (e : net_event) (f : pktfrag_t) : outcome (list Z * pktfrag_t) :=
  match e with
  | Arrive q k =>
    let* (err, out, f1) := pkt_from_lower (nth_fragment payl q (orig q) k) f in
    match err with OK => Ok (out, f1) | _ => Throw "refused" end
  | Expire q => let* f1 := expire_cb q f in Ok ([], f1)
  end.

Fixpoint spec_run (es : list net_event) (A : spec_state) : list (list Z) * spec_state :=
  match es with
  | [] => ([], A)
  | e :: es' => let (out, A1) := spec_step e A in
                let (outs, A2) := spec_run es' A1 in (out :: outs, A2)
  end.

Fixpoint pktfrag_run (es : list net_event) (f : pktfrag_t) : outcome (list (list Z) * pktfrag_t) :=
  match es with
  | [] => Ok ([], f)
  | e :: es' => let* (out, f1) := pktfrag_step e f in
                let* (outs, f2) := pktfrag_run es' f1 in Ok (out :: outs, f2)
  end.

(** Events that can occur: fragments that exist, timers of pending datagrams. *)
Fixpoint events_ok (es : list net_event) (A : spec_state) : Prop :=
  match es with
  | [] => True
  | e :: es' =>
    match e with
    | Arrive q k => in_range 32 q /\ (k < nfrag payl (orig q))%nat
    | Expire q => is_Some (A !! q)
    end /\ events_ok es' (spec_step e A).2
  end.

(** A pending datagram holding the fragments of index in [R]. *)
Definition pending_rep (q : Z) (R : gset nat) (p : pending_dgram_t) : Prop :=
  om_sorted (fragment_db p) /\
  (forall o v, om_map (fragment_db p) !! o = Some v <->
     exists k, k ∈ R /\ o = Z.of_nat (k * payl) /\ v = chunk payl (orig q) k) /\
  R ⊆ all_fragments q /\
  full_dgram_len p =
    if bool_decide (nfrag payl (orig q) - 1 ∈ R)%nat then Z.of_nat (length (orig q)) else 0.

Definition state_rep (A : spec_state) (f : pktfrag_t) : Prop :=
  om_sorted (pending_dgram_db f) /\ pool_cur_size f = 0 /\
  (pool_max_size f = 0 \/ Z.of_nat payl <= pool_max_size f < 2 ^ SIZE_T_BITS) /\
  forall q, match A !! q, om_map (pending_dgram_db f) !! q with
            | None, None => True
            | Some R, Some p => pending_rep q R p /\ R <> all_fragments q
            | _, _ => False
            end.
End spec.

(* ------------------------------------------------------------------ *)
(** * Lemmas on the fragments of a packet *)
(* ------------------------------------------------------------------ *)

Section chunks.
Context (payl : nat) (p : list Z).
Hypothesis Hpayl : (0 < payl)%nat.

Lemma nfrag_bounds :
  (length p <= nfrag payl p * payl)%nat /\
  (forall k, (k < nfrag payl p)%nat <-> (k * payl < length p)%nat).
Proof.
  unfold nfrag, ceil_div.
  pose proof (Nat.div_mod_eq (length p + (payl - 1)) payl) as E.
  pose proof (Nat.mod_upper_bound (length p + (payl - 1)) payl) as Hm.
  set (n := ((length p + (payl - 1)) / payl)%nat) in *.
  set (r := ((length p + (payl - 1)) mod payl)%nat) in *.
  split; [nia|]. intros k. split; intros Hk; [|nia].
  assert (k * payl <= (n - 1) * payl)%nat by (apply Nat.mul_le_mono_r; lia). nia.
Qed.

Lemma nfrag_le : (nfrag payl p <= length p)%nat.
Proof.
  destruct nfrag_bounds as [_ H]. destruct (decide (nfrag payl p = 0)%nat); [lia|].
  specialize (H (nfrag payl p - 1)%nat). nia.
Qed.

Lemma chunk_length k : length (chunk payl p k) = (payl `min` (length p - k * payl))%nat.
Proof. unfold chunk. by rewrite length_take, length_drop. Qed.

Lemma chunk_next k : (k < nfrag payl p)%nat ->
  (k * payl + length (chunk payl p k))%nat =
    if bool_decide (S k < nfrag payl p)%nat then (S k * payl)%nat else length p.
Proof.
  intros Hk. destruct nfrag_bounds as [H1 H2]. rewrite chunk_length.
  case_bool_decide as Hs; apply H2 in Hk.
  - apply H2 in Hs. nia.
  - assert (~ (S k * payl < length p)%nat) by (intros Hc; apply Hs, H2, Hc). nia.
Qed.

Lemma chunks_concat k n :
  (k + n = nfrag payl p)%nat -> concat (chunk payl p <$> seq k n) = drop (k * payl) p.
Proof.
  revert k. induction n as [|n IH]; intros k Hk; simpl.
  - rewrite drop_ge; [done|]. destruct nfrag_bounds as [H1 _]. nia.
  - rewrite IH by lia. unfold chunk. replace (S k * payl)%nat with (k * payl + payl)%nat by lia.
    rewrite <- drop_drop. apply take_drop.
Qed.
End chunks.

Lemma put_header_length seqnb offset more : length (put_header seqnb offset more) = 10%nat.
Proof. unfold put_header. rewrite !length_app. done. Qed.

Lemma nth_fragment_length payl seqnb p k :
  length (nth_fragment payl seqnb p k) = (10 + length (chunk payl p k))%nat.
Proof. unfold nth_fragment. rewrite length_app, put_header_length. done. Qed.

(** The loop produces the fragments from the [k]-th on. *)
Lemma frag_loop_spec payl seqnb p fuel k :
  (0 < payl)%nat -> Z.of_nat (length p) < 2 ^ 32 -> (k <= nfrag payl p)%nat ->
  (length p - k * payl < fuel)%nat ->
  frag_loop fuel seqnb (Z.of_nat payl) (Z.of_nat (k * payl)) (drop (k * payl) p)
    = Ok (nth_fragment payl seqnb p <$> seq k (nfrag payl p - k)).
Proof.
  intros Hpayl Hlen. revert k. induction fuel as [|fuel IH]; intros k Hk Hf; [lia|].
  pose proof (nfrag_bounds payl p Hpayl) as [H1 H2].
  cbn [frag_loop]. rewrite length_drop. case_bool_decide as He.
  { assert (~ (k < nfrag payl p)%nat) by (rewrite H2; lia).
    by replace (nfrag payl p - k)%nat with 0%nat by lia. }
  assert (Hkn : (k < nfrag payl p)%nat) by (apply H2; lia).
  replace (nfrag payl p - k)%nat with (S (nfrag payl p - S k)) by lia. cbn [seq fmap list_fmap].
  pose proof (chunk_next payl p Hpayl k Hkn) as Hnext. rewrite chunk_length in Hnext.
  assert (Hmore : bool_decide (Z.of_nat payl < Z.of_nat (length p - k * payl))
                  = bool_decide (S k < nfrag payl p)%nat).
  { apply bool_decide_ext. rewrite H2. nia. }
  rewrite Hmore. clear Hmore. set (m := (payl `min` (length p - k * payl))%nat) in *.
  set (frag_len := if bool_decide (S k < nfrag payl p)%nat then _ else _).
  assert (Hfl : frag_len = Z.of_nat m).
  { unfold frag_len, m. case_bool_decide as Hs; rewrite H2 in Hs; f_equal; nia. }
  clearbody frag_len. subst frag_len. rewrite Nat2Z.id, drop_drop.
  assert (Htake : take m (drop (k * payl) p) = chunk payl p k).
  { unfold chunk, m. rewrite <- take_take.
    by rewrite (take_ge (drop (k * payl) p) (length p - k * payl)) by (rewrite length_drop; lia). }
  assert (k * payl + m <= length p)%nat by (unfold m; apply H2 in Hkn; lia).
  rewrite Htake, wrap_small by (unfold in_range; lia). rewrite <- Nat2Z.inj_add, Hnext.
  case_bool_decide as Hs.
  - rewrite IH by (try apply H2 in Hs; nia). cbn [mbind outcome_bind].
    do 2 f_equal. unfold nth_fragment. by rewrite bool_decide_eq_true_2 by done.
  - replace (nfrag payl p - S k)%nat with 0%nat by lia. rewrite drop_all.
    assert (frag_loop fuel seqnb (Z.of_nat payl) (Z.of_nat (length p)) [] = Ok []) as ->
      by by destruct fuel.
    cbn [mbind outcome_bind seq fmap list_fmap]. do 2 f_equal.
    unfold nth_fragment. by rewrite bool_decide_eq_false_2 by done.
Qed.

(* ------------------------------------------------------------------ *)
(** * Lemmas on the reassembly *)
(* ------------------------------------------------------------------ *)

Section reasm.
Context (payl : nat) (orig : Z -> list Z).
Hypothesis Hpayl : (0 < payl)%nat.
Hypothesis Horig : forall q, Z.of_nat (length (orig q)) < 2 ^ 32.

Abbreviation n q := (nfrag payl (orig q)).
Abbreviation rep := (pending_rep payl orig).
Abbreviation all := (all_fragments payl orig).

Lemma elem_of_all q k : k ∈ all q <-> (k < n q)%nat.
Proof. unfold all_fragments. rewrite elem_of_set_seq. lia. Qed.

Lemma rep_find q R p k :
  rep q R p -> (k < n q)%nat ->
  om_find Z.ltb (Z.of_nat (k * payl)) (fragment_db p) =
    if decide (k ∈ R) then Some (chunk payl (orig q) k) else None.
Proof.
  intros (Hs & Hm & _ & _) Hk. rewrite om_find_lookup by done. case_decide as Hin.
  - apply Hm. by exists k.
  - destruct (om_map (fragment_db p) !! _) as [v|] eqn:E; [|done].
    apply Hm in E as (k' & Hk' & Ho & _). replace k with k' in Hin by nia. done.
Qed.

Lemma wrap_offset q k : (k < n q)%nat -> wrap 32 (Z.of_nat (k * payl)) = Z.of_nat (k * payl).
Proof.
  intros Hk. destruct (nfrag_bounds payl (orig q) Hpayl) as [_ H2]. apply H2 in Hk.
  pose proof (Horig q). apply wrap_small. unfold in_range. lia.
Qed.

(** The scan from the [k]-th fragment succeeds exactly when all the following
    ones are there. *)
Lemma is_complete_loop_spec q R p fuel k :
  rep q R p -> (k < n q)%nat -> (n q - k <= fuel)%nat ->
  exists b, is_complete_loop fuel (Z.of_nat (k * payl)) (Z.of_nat (length (orig q))) (fragment_db p)
    = Some b /\ (b = true <-> forall j, (k <= j < n q)%nat -> j ∈ R).
Proof.
  intros Hrep. revert k. induction fuel as [|fuel IH]; intros k Hk Hf; [lia|].
  destruct (nfrag_bounds payl (orig q) Hpayl) as [_ H2].
  cbn [is_complete_loop]. rewrite (proj2 (Z.leb_gt _ _)) by (apply H2 in Hk; lia).
  rewrite (wrap_offset q) by done. rewrite (rep_find q R) by done. case_decide as Hin; cycle 1.
  { exists false. split; [done|]. split; [done|]. intros Hall. by specialize (Hall k ltac:(lia)). }
  rewrite <- Nat2Z.inj_add, chunk_next by done. case_bool_decide as Hs.
  - destruct (IH (S k)) as (b & -> & Hb); [lia|lia|]. exists b. split; [done|]. rewrite Hb.
    split; intros Hall j Hj; [destruct (decide (j = k)) as [->|]; [done|]|]; apply Hall; lia.
  - exists true. split; [by destruct fuel; simpl; rewrite Z.leb_refl|]. split; [|done].
    intros _ j Hj. by replace j with k by lia.
Qed.

Lemma is_complete_spec q R p :
  rep q R p -> (0 < n q)%nat -> is_complete p = Ok (bool_decide (R = all q)).
Proof.
  intros Hrep Hn. pose proof Hrep as (_ & _ & Hsub & Hfull).
  destruct (nfrag_bounds payl (orig q) Hpayl) as [_ H2]. pose proof (nfrag_le payl (orig q) Hpayl).
  unfold is_complete. rewrite Hfull. case_bool_decide as Hlast; cycle 1.
  { simpl. rewrite bool_decide_eq_false_2; [done|]. intros ->. apply Hlast, elem_of_all. lia. }
  apply H2 in Hn as Hlen. rewrite (proj2 (Z.eqb_neq _ _)) by lia. rewrite Nat2Z.id.
  destruct (is_complete_loop_spec q R p (length (orig q)) 0 Hrep Hn) as (b & Hb & Hiff); [lia|].
  change (Z.of_nat (0 * payl)) with 0 in Hb. rewrite Hb. f_equal.
  apply eq_true_iff_eq. rewrite Hiff, bool_decide_eq_true. split.
  - intros Hall. apply set_eq. intros j. rewrite elem_of_all. split; [|intros; apply Hall; lia].
    intros Hj. apply Hsub, elem_of_all in Hj. done.
  - intros -> j Hj. apply elem_of_all. lia.
Qed.

Lemma add_fragment_spec q R p k :
  rep q R p -> R <> all q -> (k < n q)%nat ->
  exists p1, add_fragment (Z.of_nat (k * payl)) (bool_decide (S k < n q)%nat)
      (chunk payl (orig q) k) p = Ok (bool_decide ({[k]} ∪ R = all q), p1) /\
    rep q ({[k]} ∪ R) p1.
Proof.
  intros Hrep Hne Hk. pose proof Hrep as (Hs & Hm & Hsub & Hfull).
  destruct (nfrag_bounds payl (orig q) Hpayl) as [_ H2].
  unfold add_fragment. rewrite (is_complete_spec q R) by (done || lia).
  rewrite (bool_decide_eq_false_2 (R = all q)) by done. cbn [mbind outcome_bind negb dbg_assert].
  rewrite (rep_find q R) by done. destruct (decide (k ∈ R)) as [Hin|Hin].
  { rewrite (subseteq_union_1_L {[k]} R) by by apply singleton_subseteq_l. exists p.
    by rewrite (bool_decide_eq_false_2 (R = all q)). }
  assert (Hnone : om_map (fragment_db p) !! Z.of_nat (k * payl) = None).
  { rewrite <- om_find_lookup, (rep_find q R) by done. by rewrite decide_False. }
  destruct (om_insert_absent _ (chunk payl (orig q) k) _ Hs Hnone) as (db & -> & Hs1 & Hm1).
  cbn [dbg_assert]. set (p1 := Pending _ db).
  assert (Hrep1 : rep q ({[k]} ∪ R) p1).
  { unfold pending_rep, p1; cbn [fragment_db full_dgram_len]. split; [done|]. split; [|split].
    - intros o v. rewrite Hm1. destruct (decide (o = Z.of_nat (k * payl))) as [->|Hno].
      + rewrite lookup_insert_eq. split.
        * intros [= <-]. exists k. split; [|done]. by apply elem_of_union_l, elem_of_singleton.
        * intros (k' & _ & Ho & ->). by replace k' with k by nia.
      + rewrite lookup_insert_ne by done. rewrite Hm.
        split; intros (k' & Hk' & -> & ->); exists k'.
        { split; [by apply elem_of_union_r|done]. }
        split; [|done]. apply elem_of_union in Hk' as [->%elem_of_singleton|]; done.
    - apply union_subseteq. split; [|done]. by apply singleton_subseteq_l, elem_of_all.
    - rewrite <- Nat2Z.inj_add, chunk_next by done. rewrite Hfull.
      pose proof (Horig q). destruct (bool_decide_reflect (S k < n q)%nat) as [Hmore|Hmore].
      + rewrite (bool_decide_ext (n q - 1 ∈ {[k]} ∪ R)%nat (n q - 1 ∈ R)%nat); [done|].
        rewrite elem_of_union, elem_of_singleton. intuition lia.
      + rewrite (bool_decide_eq_true_2 (_ ∈ _ ∪ _)) 
          by (replace (n q - 1)%nat with k by lia; by apply elem_of_union_l, elem_of_singleton).
        apply wrap_small. unfold in_range, SIZE_T_BITS. lia. }
  rewrite (is_complete_spec q _ p1 Hrep1) by lia. cbn [mbind outcome_bind]. eauto.
Qed.

Lemma chunks_sorted q s m :
  om_sorted ((fun k : nat => (Z.of_nat (k * payl), chunk payl (orig q) k)) <$> seq s m).
Proof.
  revert s. induction m as [|m IH]; intros s; [apply om_sorted_nil|]. cbn [seq].
  rewrite fmap_cons. apply om_sorted_cons. split; [apply IH|].
  apply Forall_fmap, Forall_forall. intros k Hk%elem_of_seq. simpl. nia.
Qed.

(** The complete datagram is the original packet. *)
Lemma get_complete_spec q p :
  rep q (all q) p -> (0 < n q)%nat -> get_complete_dgram p = Ok (orig q).
Proof.
  intros Hrep Hn. unfold get_complete_dgram. rewrite (is_complete_spec q (all q)) by done.
  rewrite bool_decide_eq_true_2 by done. cbn [mbind outcome_bind dbg_assert].
  destruct Hrep as (Hs & Hm & _). f_equal.
  set (l := (fun k : nat => (Z.of_nat (k * payl), chunk payl (orig q) k)) <$> seq 0 (n q)).
  assert (Hl : om_sorted l).
  { apply chunks_sorted. }
  assert (fragment_db p = l) as ->.
  { apply om_ext; [done|done|]. apply map_eq. intros o. apply option_eq. intros v.
    rewrite Hm, <- (om_elem_of l o v Hl). unfold l. rewrite list_elem_of_fmap. split.
    - intros (k & Hk%elem_of_all & -> & ->). exists k. split; [done|]. apply elem_of_seq. lia.
    - intros (k & [= -> ->] & Hk%elem_of_seq). exists k. split; [apply elem_of_all; lia|done]. }
  unfold l. rewrite <- list_fmap_compose.
  change (snd ∘ (fun k : nat => (Z.of_nat (k * payl), chunk payl (orig q) k))) with (chunk payl (orig q)).
  rewrite (chunks_concat payl (orig q) Hpayl 0 (n q)) by done. done.
Qed.

Lemma pending_ctor_rep q : rep q ∅ pending_ctor.
Proof.
  unfold pending_rep, pending_ctor; cbn [fragment_db full_dgram_len].
  split; [apply om_sorted_nil|]. split; [|split].
  - intros o v. unfold om_map; simpl. rewrite lookup_empty. split; [done|]. by intros (k & ?%elem_of_empty & _).
  - apply empty_subseteq.
  - by rewrite bool_decide_eq_false_2 by set_solver.
Qed.

(** Storing an entry, and the update that replaces it. *)
Lemma db_store q (p p1 : pending_dgram_t) db :
  om_sorted db ->
  exists db', om_sorted db' /\ om_map db' = <[q := p1]> (om_map db) /\
    match om_find Z.ltb q db with
    | Some _ => om_update Z.ltb q (fun _ => p1) db = db'
    | None => exists db1, om_insert Z.ltb q p db = (db1, true) /\
                om_update Z.ltb q (fun _ => p1) db1 = db'
    end.
Proof.
  intros Hs. rewrite om_find_lookup by done. destruct (om_map db !! q) as [p0|] eqn:E.
  - destruct (om_update_spec q (fun _ => p1) db Hs) as [Hs1 Hm1].
    exists (om_update Z.ltb q (fun _ => p1) db). split; [done|]. split; [|done].
    rewrite Hm1. apply map_eq. intros i. destruct (decide (i = q)) as [->|].
    + by rewrite lookup_alter_eq, lookup_insert_eq, E.
    + by rewrite lookup_alter_ne, lookup_insert_ne.
  - destruct (om_insert_absent q p db Hs E) as (db1 & Hdb1 & Hs1 & Hm1).
    destruct (om_update_spec q (fun _ => p1) db1 Hs1) as [Hs2 Hm2].
    exists (om_update Z.ltb q (fun _ => p1) db1). split; [done|]. split; [|by exists db1].
    rewrite Hm2, Hm1. by rewrite alter_insert_eq.
Qed.

Abbreviation srep := (state_rep payl orig).

Lemma recv_fragment_data_spec A f q k :
  srep A f -> (k < n q)%nat ->
  exists f', recv_fragment_data q (Z.of_nat (k * payl)) (bool_decide (S k < n q)%nat)
      (chunk payl (orig q) k) f = Ok ((spec_step payl orig (Arrive q k) A).1, f') /\
    srep (spec_step payl orig (Arrive q k) A).2 f'.
Proof.
  intros (Hs & Hcur & Hmax & Hdb) Hk. pose proof (Hdb q) as Hq.
  unfold recv_fragment_data. set (R := default ∅ (A !! q)).
  set (p := default pending_ctor (om_map (pending_dgram_db f) !! q)).
  assert (rep q R p /\ R <> all q) as [Hrep Hne].
  { unfold R, p. destruct (A !! q), (om_map _ !! q); simpl in *; try done.
    split; [apply pending_ctor_rep|]. intros H. apply (not_elem_of_empty (C := gset nat) k).
    rewrite H. by apply elem_of_all. }
  destruct (add_fragment_spec q R p k Hrep Hne Hk) as (p1 & Hadd & Hrep1).
  destruct (db_store q pending_ctor p1 _ Hs) as (db' & Hs' & Hm' & Hst).
  assert (Hfinal : forall f2, pending_dgram_db f2 = db' -> pool_cur_size f2 = 0 ->
    pool_max_size f2 = pool_max_size f ->
    exists f', (if bool_decide ({[k]} ∪ R = all q)
      then let* dgram := get_complete_dgram p1 in let* f3 := pending_dgram_unlink q f2 in Ok (dgram, f3)
      else Ok ([], f2)) = Ok ((spec_step payl orig (Arrive q k) A).1, f') /\
    srep (spec_step payl orig (Arrive q k) A).2 f').
  { intros f2 Hf2 Hc2 Hx2. unfold spec_step. fold R.
    destruct (decide ({[k]} ∪ R = all q)) as [He|He].
    - rewrite bool_decide_eq_true_2 by done. rewrite He in Hrep1.
      rewrite (get_complete_spec q) by (done || lia). cbn [mbind outcome_bind].
      unfold pending_dgram_unlink. rewrite om_find_lookup by by rewrite Hf2.
      rewrite Hf2, Hm', lookup_insert_eq, bool_decide_eq_true_2 by by eexists.
      cbn [dbg_assert mbind outcome_bind]. eexists; split; [done|]. cbn [snd].
      destruct (om_erase_spec q db' Hs') as [Hs3 Hm3].
      unfold state_rep, set_db; cbn [pending_dgram_db pool_cur_size pool_max_size].
      rewrite Hc2, Hx2. split_and!; try done. intros q'. rewrite Hm3, Hm', delete_insert_eq.
      destruct (decide (q' = q)) as [->|]; [by do 2 rewrite lookup_delete_eq|].
      do 2 rewrite lookup_delete_ne by done. apply Hdb.
    - rewrite bool_decide_eq_false_2 by done. eexists; split; [done|]. cbn [snd].
      unfold state_rep. rewrite Hc2, Hx2, Hf2. split_and!; try done. intros q'. rewrite Hm'.
      destruct (decide (q' = q)) as [->|]; [by do 2 rewrite lookup_insert_eq|].
      do 2 rewrite lookup_insert_ne by done. apply Hdb. }
  rewrite om_find_lookup in * by done.
  destruct (om_map (pending_dgram_db f) !! q) as [p0|] eqn:E; cbn [default] in *; subst p.
  - cbn [mbind outcome_bind]. simpl in Hadd. unfold id in Hadd. rewrite Hadd. cbn [mbind outcome_bind].
    apply Hfinal; [exact Hst|done|done].
  - destruct Hst as (db1 & Hins & Hupd). unfold pending_dgram_dolink. rewrite Hins.
    cbn [dbg_assert mbind outcome_bind]. simpl in Hadd. rewrite Hadd. cbn [mbind outcome_bind].
    apply Hfinal; [exact Hupd|done|done].
Qed.

Lemma header_roundtrip q offset more payload :
  in_range 32 q -> in_range 32 offset ->
  wire_get u8_codec (put_header q offset more ++ payload) =
    Ok (PKT_FRAGMENT, wire_put u32_codec q ++ wire_put u32_codec offset ++
                      wire_put u8_codec (if more then 1 else 0) ++ payload) /\
  get_fragment_header (wire_put u32_codec q ++ wire_put u32_codec offset ++
                      wire_put u8_codec (if more then 1 else 0) ++ payload)
    = Ok (q, offset, if more then 1 else 0, payload).
Proof.
  intros Hq Ho. unfold put_header, get_fragment_header. rewrite <- !app_assoc. split.
  - by rewrite wire_get_put by by vm_compute.
  - rewrite wire_get_put by done. cbn [mbind outcome_bind].
    rewrite wire_get_put by done. cbn [mbind outcome_bind].
    by rewrite wire_get_put by by destruct more; vm_compute.
Qed.

Lemma pktfrag_step_spec A f e :
  srep A f -> events_ok payl orig [e] A ->
  exists f', pktfrag_step payl orig e f = Ok ((spec_step payl orig e A).1, f') /\
    srep (spec_step payl orig e A).2 f'.
Proof.
  intros Hrep [He _]. destruct e as [q k|q].
  - destruct He as [Hq Hk]. pose proof (nfrag_bounds payl (orig q) Hpayl) as [_ H2].
    pose proof (Horig q). apply H2 in Hk as Hkl.
    assert (Ho : in_range 32 (Z.of_nat (k * payl))) by (unfold in_range; lia).
    destruct (header_roundtrip q _ (bool_decide (S k < n q)%nat) (chunk payl (orig q) k) Hq Ho)
      as [Hh1 Hh2].
    unfold pktfrag_step, pkt_from_lower, nth_fragment. rewrite Hh1. unfold recv_pkt_fragment.
    rewrite Hh2. pose proof Hrep as (_ & Hcur & Hmax & _).
    assert (Hc : (length (chunk payl (orig q) k) <= payl)%nat) by (rewrite chunk_length by done; lia).
    assert (Hmb : negb ((if bool_decide (S k < n q)%nat then 1 else 0) =? 0)
                  = bool_decide (S k < n q)%nat) by by case_bool_decide.
    rewrite Hmb, Z.eqb_refl. clear Hmb.
    destruct (recv_fragment_data_spec A f q k Hrep Hk) as (f' & Hr & Hrep').
    assert (Hpool : (if pool_size_is_limited f then
        let* f1 := pool_drain (Z.of_nat (length (chunk payl (orig q) k))) f in
        Ok (bool_decide (wrap SIZE_T_BITS (pool_max_size f1 - pool_cur_size f1)
              < Z.of_nat (length (chunk payl (orig q) k))), f1)
        else Ok (false, f)) = Ok (false, f)).
    { unfold pool_size_is_limited. destruct (Z.eqb_spec (pool_max_size f) 0); [done|]. cbn [negb].
      destruct Hmax as [|Hmax]; [done|]. unfold pool_drain. rewrite Hcur.
      assert (forall m nd db, pool_drain_loop m 0 nd db = Ok db) as -> by by destruct db.
      cbn [mbind outcome_bind]. unfold set_db; cbn [pool_max_size pool_cur_size].
      rewrite Hcur, Z.sub_0_r, wrap_small by (unfold in_range; lia).
      rewrite bool_decide_eq_false_2 by lia. by destruct f; simpl in *; subst. }
    rewrite Hpool. cbn [mbind outcome_bind]. rewrite Hr. cbn [mbind outcome_bind]. eauto.
  - destruct He as [R HR]. destruct Hrep as (Hs & Hcur & Hmax & Hdb).
    pose proof (Hdb q) as Hq. rewrite HR in Hq.
    unfold pktfrag_step, expire_cb, pending_dgram_unlink. rewrite om_find_lookup by done.
    destruct (om_map _ !! q) as [p|] eqn:E; [|done].
    rewrite bool_decide_eq_true_2 by by eexists. cbn [dbg_assert mbind outcome_bind].
    eexists; split; [done|]. cbn [spec_step snd].
    destruct (om_erase_spec q (pending_dgram_db f) Hs) as [Hs3 Hm3].
    unfold state_rep, set_db; cbn [pending_dgram_db pool_cur_size pool_max_size].
    split_and!; try done. intros q'. rewrite Hm3.
    destruct (decide (q' = q)) as [->|]; [by do 2 rewrite lookup_delete_eq|].
    do 2 rewrite lookup_delete_ne by done. apply Hdb.
Qed.
End reasm.

(** The first bytes are missing. *)
Lemma is_complete_hole offset tail :
  0 < offset -> is_complete (Pending (offset + Z.of_nat (length tail)) [(offset, tail)]) = Ok false.
Proof.
  intros Ho. unfold is_complete; cbn [full_dgram_len fragment_db].
  rewrite (proj2 (Z.eqb_neq _ _)) by lia.
  destruct (Z.to_nat (offset + Z.of_nat (length tail))) eqn:E; [lia|]. cbn [is_complete_loop].
  rewrite (proj2 (Z.leb_gt _ _)) by lia. rewrite wrap_small by (split; done).
  cbn [om_find]. by rewrite (proj2 (Z.ltb_ge offset 0)), (proj2 (Z.ltb_lt 0 offset)) by lia.
Qed.

(** The first fragment is empty. *)
Lemma is_complete_stuck offset tail :
  0 < offset ->
  (forall fuel, is_complete_loop fuel 0 (offset + Z.of_nat (length tail)) [(0, []); (offset, tail)]
     = None) /\
  is_complete (Pending (offset + Z.of_nat (length tail)) [(0, []); (offset, tail)]) = Fault.
Proof.
  intros Ho.
  assert (Hloop : forall fuel, is_complete_loop fuel 0 (offset + Z.of_nat (length tail))
    [(0, []); (offset, tail)] = None).
  { induction fuel as [|fuel IH]; simpl; rewrite (proj2 (Z.leb_gt _ _)) by lia; [done|exact IH]. }
  split; [done|]. unfold is_complete; cbn [full_dgram_len fragment_db].
  rewrite (proj2 (Z.eqb_neq _ _)) by lia. by rewrite Hloop.
Qed.

(* ------------------------------------------------------------------ *)
(** * Properties *)
(* ------------------------------------------------------------------ *)

(** Fragmentation: for an mtu larger than the ten-byte header, a packet
    larger than the mtu (and of 32-bit length) is cut into exactly the
    fragments of its consecutive slices: each fits in the mtu, all but the
    last fill it, none is empty, and the slices concatenate to the packet. *)
Theorem fragmentation_correct (mtu : Z) (seqnb : Z) (p : list Z)
    (Hmtu : 10 < mtu < Z.of_nat (length p)) (Hlen : Z.of_nat (length p) < 2 ^ 32) :
  let payl := Z.to_nat (mtu - 10) in
  exists frags, pkt_from_upper_seqnb mtu seqnb p = Ok frags /\
    frags = nth_fragment payl seqnb p <$> seq 0 (nfrag payl p) /\
    concat (drop 10 <$> frags) = p /\
    forall k frag, frags !! k = Some frag ->
      (10 < length frag)%nat /\ Z.of_nat (length frag) <= mtu /\
      ((S k < length frags)%nat -> Z.of_nat (length frag) = mtu).
Proof.
  cbn zeta. set (payl := Z.to_nat (mtu - 10)). assert (Hp : (0 < payl)%nat) by lia.
  pose proof (nfrag_bounds payl p Hp) as [H1 H2].
  exists (nth_fragment payl seqnb p <$> seq 0 (nfrag payl p)).
  split_and!; [|done| |].
  - unfold pkt_from_upper_seqnb, cpu_fragment_hd_len. rewrite put_header_length.
    rewrite bool_decide_eq_true_2 by lia. cbn [dbg_assert].
    rewrite wrap_small by (unfold in_range, SIZE_T_BITS; lia).
    replace (mtu - Z.of_nat 10) with (Z.of_nat payl) by lia.
    pose proof (frag_loop_spec payl seqnb p (S (length p)) 0 Hp Hlen) as Hl.
    change (0 * payl)%nat with 0%nat in Hl. rewrite drop_0, !Nat.sub_0_r in Hl. apply Hl; lia.
  - rewrite <- list_fmap_compose. transitivity (concat (chunk payl p <$> seq 0 (nfrag payl p))).
    + done.
    + by rewrite (chunks_concat payl p Hp 0 (nfrag payl p)).
  - intros k frag Hk. rewrite length_fmap, length_seq.
    rewrite list_lookup_fmap in Hk. destruct (seq 0 (nfrag payl p) !! k) as [j|] eqn:E; [|done].
    apply lookup_seq in E as [-> Hj]. simpl in Hk. injection Hk as <-.
    rewrite nth_fragment_length, chunk_length by done. pose proof Hj as Hj'%H2.
    split; [lia|]. split; [lia|]. intros Hs%H2. lia.
Qed.

(** C2. Reassembly refines its specification: from an empty receiver, over any
    sequence of arrivals (fragments of any number of datagrams, interleaved,
    reordered, lost or repeated) and expirations, every assertion passes and
    the outputs are those of the specification, which delivers the original
    packet exactly when the last missing fragment of its datagram arrives. *)
Theorem reassembly_refines (payl : nat) (orig : Z -> list Z) (es : list net_event)
    (f : pktfrag_t)
    (Hpayl : (0 < payl)%nat) (Horig : forall q, Z.of_nat (length (orig q)) < 2 ^ 32)
    (Hes : events_ok payl orig es ∅)
    (Hf : pending_dgram_db f = [] /\ pool_cur_size f = 0)
    (Hpool : pool_max_size f = 0 \/ Z.of_nat payl <= pool_max_size f < 2 ^ SIZE_T_BITS) :
  exists f', pktfrag_run payl orig es f = Ok ((spec_run payl orig es ∅).1, f') /\
    state_rep payl orig (spec_run payl orig es ∅).2 f'.
Proof.
  assert (Hrep : state_rep payl orig ∅ f).
  { destruct Hf as [Hdb Hcur]. unfold state_rep. rewrite Hdb.
    split; [apply om_sorted_nil|]. split; [done|]. split; [done|].
    intros q. by rewrite lookup_empty. }
  clear Hf Hpool. revert f Hes Hrep. generalize (∅ : gmap Z (gset nat)) as A.
  induction es as [|e es IH]; intros A f Hes Hrep; cbn [spec_run pktfrag_run].
  { exists f. by split. }
  destruct Hes as [He Hes].
  destruct (pktfrag_step_spec payl orig Hpayl Horig A f e Hrep (conj He I)) as (f1 & -> & Hrep1).
  cbn [mbind outcome_bind]. destruct (spec_step payl orig e A) as [out A1]. cbn [fst snd] in *.
  destruct (IH A1 f1 Hes Hrep1) as (f2 & -> & Hrep2). cbn [mbind outcome_bind].
  destruct (spec_run payl orig es A1) as [outs A2]. cbn [fst snd] in *. eauto.
Qed.

(** A peer can hang the receiver: after a last fragment at a positive
    offset, an empty fragment at offset 0 makes the completeness scan stay at
    offset 0 for ever, whatever the number of turns allowed. *)
Theorem empty_fragment_hangs (q offset : Z) (tail : list Z) (f : pktfrag_t)
    (Hq : in_range 32 q) (Ho : 0 < offset < 2 ^ 32) (Htail : (0 < length tail)%nat)
    (Hsmall : Z.of_nat (length tail) < 2 ^ 32)
    (Hf : pending_dgram_db f = [] /\ pool_max_size f = 0) :
  exists f1, pkt_from_lower (put_header q offset false ++ tail) f = Ok (OK, [], f1) /\
    pkt_from_lower (put_header q 0 true) f1 = Fault /\
    forall fuel, is_complete_loop fuel 0 (offset + Z.of_nat (length tail)) [(0, []); (offset, tail)]
      = None.
Proof.
  destruct Hf as [Hdb Hmax]. destruct (is_complete_stuck offset tail) as [Hloop Hstuck]; [lia|].
  pose proof (is_complete_hole offset tail ltac:(lia)) as Hhole.
  destruct (header_roundtrip q offset false tail) as [Hh1 Hh2]; [done|unfold in_range; lia|].
  destruct (header_roundtrip q 0 true []) as [Hg1 Hg2]; [done|by vm_compute|].
  exists (set_db [(q, Pending (offset + Z.of_nat (length tail)) [(offset, tail)])] f). split_and!; [| |done].
  - unfold pkt_from_lower. rewrite Hh1. cbn [Z.eqb PKT_FRAGMENT]. unfold recv_pkt_fragment. rewrite Hh2.
    unfold pool_size_is_limited. rewrite Hmax, !Z.eqb_refl. cbn [negb mbind outcome_bind].
    unfold recv_fragment_data, pending_dgram_dolink. rewrite Hdb.
    cbn [om_find om_insert dbg_assert mbind outcome_bind]. unfold add_fragment.
    change (is_complete pending_ctor) with (Ok false).
    cbn [pending_ctor full_dgram_len fragment_db om_find om_insert mbind outcome_bind dbg_assert negb].
    rewrite wrap_small by (unfold in_range, SIZE_T_BITS; lia). rewrite Hhole.
    cbn [mbind outcome_bind set_db pending_dgram_db om_update]. by rewrite Z.ltb_irrefl.
  - rewrite <- (app_nil_r (put_header q 0 true)). unfold pkt_from_lower. rewrite Hg1, Z.eqb_refl.
    unfold recv_pkt_fragment. rewrite Hg2.
    unfold pool_size_is_limited; cbn [set_db pool_max_size]. rewrite Hmax, !Z.eqb_refl.
    cbn [negb mbind outcome_bind]. unfold recv_fragment_data; cbn [set_db pending_dgram_db om_find].
    rewrite Z.ltb_irrefl. cbn [mbind outcome_bind]. unfold add_fragment. rewrite Hhole.
    cbn [mbind outcome_bind negb dbg_assert fragment_db om_find om_insert full_dgram_len].
    rewrite (proj2 (Z.ltb_ge offset 0)), (proj2 (Z.ltb_lt 0 offset)) by lia.
    change (negb (1 =? 0)) with true. cbn [mbind outcome_bind dbg_assert]. by rewrite Hstuck.
Qed.

(* ------------------------------------------------------------------ *)
(** * The properties at concrete inputs *)
(* ------------------------------------------------------------------ *)

Lemma fragmentation_correct_witness :
  exists frags, pkt_from_upper_seqnb 13 7 [1; 2; 3; 4; 5; 6; 7; 8; 9; 10; 11; 12; 13; 14] = Ok frags /\
    length frags = 5%nat /\
    concat (drop 10 <$> frags) = [1; 2; 3; 4; 5; 6; 7; 8; 9; 10; 11; 12; 13; 14].
Proof.
  destruct (fragmentation_correct 13 7 [1; 2; 3; 4; 5; 6; 7; 8; 9; 10; 11; 12; 13; 14])
    as (frags & H1 & H2 & H3 & _).
  - by vm_compute.
  - by vm_compute.
  - exists frags. split; [exact H1|]. split; [rewrite H2; reflexivity|exact H3].
Defined.

(** Two datagrams of seven and four bytes, interleaved, out of order and with
    duplicates; datagram 2 expires once. *)
Lemma reassembly_refines_witness :
  let orig := fun q : Z => if q =? 1 then [1; 2; 3; 4; 5; 6; 7] else [8; 9; 10; 11] in
  let es := [Arrive 1 2; Arrive 2 0; Arrive 1 0; Arrive 1 2; Expire 2; Arrive 2 1; Arrive 1 1; Arrive 2 0] in
  exists f', pktfrag_run 3 orig es pktfrag_ctor =
    Ok ([[]; []; []; []; []; []; [1; 2; 3; 4; 5; 6; 7]; [8; 9; 10; 11]], f').
Proof.
  cbn zeta. set (orig := fun q : Z => _). set (es := [_; _; _; _; _; _; _; _]).
  destruct (reassembly_refines 3 orig es pktfrag_ctor) as (f' & Hf & _).
  - lia.
  - intros q. unfold orig. destruct (q =? 1); reflexivity.
  - vm_compute. repeat (split; try lia); try congruence. eexists. reflexivity.
  - split; reflexivity.
  - right. vm_compute. split; congruence.
  - exists f'. rewrite Hf. vm_compute. reflexivity.
Defined.

Lemma empty_fragment_hangs_witness :
  exists f1, pkt_from_lower (put_header 5 100 false ++ [1; 2]) (set_from_profile 1400 0 pktfrag_ctor)
      = Ok (OK, [], f1) /\
    pkt_from_lower (put_header 5 0 true) f1 = Fault.
Proof.
  destruct (empty_fragment_hangs 5 100 [1; 2] (set_from_profile 1400 0 pktfrag_ctor))
    as (f1 & H1 & H2 & _).
  - by vm_compute.
  - by vm_compute.
  - simpl. lia.
  - by vm_compute.
  - split; reflexivity.
  - exists f1. split; [exact H1|exact H2].
Defined.
