(* ===== verification/Text.v ===== *)
(** Text: decimal numbers as [std::ostream] writes them, and the input stream
    [std::istringstream] the parsers read from.

    A stream is its unread characters and its two error bits; [badbit] is never
    set on a string.  An extraction that fails leaves its variable as it was:
    the operations return [None] there, and a parser that then uses a variable
    it never initialised ends with [Fault]. *)
From Stdlib Require Import Ascii DecimalString DecimalN DecimalFacts.
From S2P Require Import Prelude.

(* ------------------------------------------------------------------ *)
(** * Decimal numbers *)
(* ------------------------------------------------------------------ *)

(** [oss << val] for an unsigned integer. *)
Definition dec_string (v : Z) : string := NilZero.string_of_uint (N.to_uint (Z.to_N v)).

(** [oss << val] for a signed integer. *)
Definition dec_string_signed (v : Z) : string :=
  if v <? 0 then ("-" ++ dec_string (- v))%string else dec_string v.

Definition is_digit (a : ascii) : bool :=
  ((48 <=? Ascii.nat_of_ascii a) && (Ascii.nat_of_ascii a <=? 57))%nat.

(** The longest prefix whose characters satisfy [f], and the rest. *)
Fixpoint string_span (f : ascii -> bool) (s : string) : string * string :=
  match s with
  | String a s' => if f a then let (p, r) := string_span f s' in (String a p, r) else (""%string, s)
  | EmptyString => (""%string, s)
  end.

(* ------------------------------------------------------------------ *)
(** * Input streams *)
(* ------------------------------------------------------------------ *)

Record istream := Istream { unread : string; eofbit : bool; failbit : bool }.

Definition istringstream (s : string) : istream := Istream s false false.
Definition iss_good (i : istream) : bool := negb (eofbit i || failbit i).

Definition is_space (a : ascii) : bool :=
  let n := Ascii.nat_of_ascii a in ((n =? 32) || (9 <=? n) && (n <=? 13))%nat.

(** The sentry of a formatted extraction: white space is skipped, and its end
    of file is a failure. *)
Definition iss_sentry (i : istream) : bool * istream :=
  if iss_good i then
    let rest := (string_span is_space (unread i)).2 in
    match rest with
    | EmptyString => (false, Istream "" true true)
    | _ => (true, Istream rest false false)
    end
  else (false, Istream (unread i) (eofbit i) true).

(** [iss.get( c )]. *)
Definition iss_get (i : istream) : option ascii * istream :=
  if iss_good i then
    match unread i with
    | EmptyString => (None, Istream "" true true)
    | String c rest => (Some c, Istream rest false false)
    end
  else (None, Istream (unread i) (eofbit i) true).

(** [iss >> c] for a [char]. *)
Definition iss_char (i : istream) : option ascii * istream :=
  let (ok, i1) := iss_sentry i in if ok then iss_get i1 else (None, i1).

(** [iss.putback( c )] of the character just read. *)
Definition iss_putback (c : ascii) (i : istream) : istream :=
  if iss_good i then Istream (String c (unread i)) false false
  else Istream (unread i) (eofbit i) true.

(** An optional sign: whether it is a minus, and the rest. *)
Definition read_sign (s : string) : bool * string :=
  match s with
  | String c s' =>
    if Ascii.eqb c "-" then (true, s') else if Ascii.eqb c "+" then (false, s') else (false, s)
  | EmptyString => (false, s)
  end.

(** [iss >> val] for an [int64_t]: the sign, the digits, and the value, clamped
    with a failure when it does not fit. *)
Definition iss_int64 (i : istream) : option Z * istream :=
  let (ok, i1) := iss_sentry i in
  if ok then
    let (neg, s) := read_sign (unread i1) in
    let (digits, rest) := string_span is_digit s in
    let eof := match rest with EmptyString => true | _ => false end in
    match digits, NilZero.uint_of_string digits with
    | String _ _, Some u =>
      let v := if (neg : bool) then - Z.of_N (N.of_uint u) else Z.of_N (N.of_uint u) in
      if v <? - 2 ^ 63 then (Some (- 2 ^ 63), Istream rest eof true)
      else if 2 ^ 63 <=? v then (Some (2 ^ 63 - 1), Istream rest eof true)
      else (Some v, Istream rest eof false)
    | _, _ => (Some 0, Istream rest eof true)
    end
  else (None, i1).

(** The first [n] characters and the rest. *)
Fixpoint string_split (n : nat) (s : string) : string * string :=
  match n, s with
  | S n', String a s' => let (p, r) := string_split n' s' in (String a p, r)
  | _, _ => (""%string, s)
  end.

(** [iss.read( buffer, n )]: the characters read. *)
Definition iss_read (n : nat) (i : istream) : string * istream :=
  if iss_good i then
    let (p, r) := string_split n (unread i) in
    let short := (String.length p <? n)%nat in (p, Istream r short short)
  else (""%string, Istream (unread i) (eofbit i) true).

(* ------------------------------------------------------------------ *)
(** * Lemmas *)
(* ------------------------------------------------------------------ *)

#[local] Arguments String.append : simpl nomatch.

Lemma string_app_assoc (a b c : string) : ((a ++ b) ++ c)%string = (a ++ b ++ c)%string.
Proof. induction a as [|x a IH]; simpl; [done|]. by rewrite IH. Qed.

Lemma string_length_app (a b : string) : String.length (a ++ b) = (String.length a + String.length b)%nat.
Proof. induction a as [|x a IH]; simpl; [done|]. by rewrite IH. Qed.

Lemma string_app_nil (s : string) : (s ++ "")%string = s.
Proof. induction s as [|a s IH]; simpl; [done|]. by rewrite IH. Qed.

(** Every character of [s] satisfies [f]. *)
Definition str_all (f : ascii -> bool) (s : string) : bool :=
  forallb f (String.list_ascii_of_string s).

Lemma str_all_app f s t : str_all f (s ++ t) = str_all f s && str_all f t.
Proof. unfold str_all. induction s as [|a s IH]; simpl; [done|]. by rewrite IH, andb_assoc. Qed.

Lemma string_span_all f s r :
  (forall a, In a (String.list_ascii_of_string s) -> f a = true) ->
  match r with String a _ => f a = false | EmptyString => True end ->
  string_span f (s ++ r) = (s, r).
Proof.
  intros Hs Hr. induction s as [|a s IH]; simpl in *.
  - destruct r as [|a r]; simpl; [done|]. by rewrite Hr.
  - rewrite (Hs a) by auto. by rewrite IH by auto.
Qed.

Lemma string_of_uint_digits u a :
  In a (String.list_ascii_of_string (NilEmpty.string_of_uint u)) -> is_digit a = true.
Proof. induction u; simpl; [done|..]; intros [<-|H]; eauto. Qed.

Lemma dec_string_digits v a : In a (String.list_ascii_of_string (dec_string v)) -> is_digit a = true.
Proof.
  unfold dec_string, NilZero.string_of_uint. destruct (N.to_uint (Z.to_N v)) eqn:E.
  { simpl. intros [<-|[]]. done. }
  all: apply string_of_uint_digits.
Qed.

Lemma dec_string_read v :
  0 <= v -> NilZero.uint_of_string (dec_string v) = Some (N.to_uint (Z.to_N v)).
Proof.
  intros _. unfold dec_string. apply NilZero.usu. destruct (Z.to_N v) as [|p]; [done|].
  simpl. intros H. apply (f_equal N.of_uint) in H.
  change (Pos.to_uint p) with (N.to_uint (N.pos p)) in H. by rewrite DecimalN.Unsigned.of_to in H.
Qed.

Lemma str_all_span f s r :
  str_all f s = true -> match r with String a _ => f a = false | EmptyString => True end ->
  string_span f (s ++ r) = (s, r).
Proof.
  intros Hs. apply string_span_all. unfold str_all in Hs. rewrite forallb_forall in Hs. exact Hs.
Qed.

Lemma str_all_span_nil f s : str_all f s = true -> string_span f s = (s, ""%string).
Proof. intros Hs. rewrite <- (string_app_nil s) at 1. by apply str_all_span. Qed.

Lemma dec_string_all f v :
  (forall a, is_digit a = true -> f a = true) -> str_all f (dec_string v) = true.
Proof.
  intros Hf. unfold str_all. apply forallb_forall. intros a Ha. apply Hf. by apply (dec_string_digits v).
Qed.

(** A string that is empty or starts with a digit. *)
Definition digit_first (s : string) : Prop :=
  match s with String a _ => is_digit a = true | EmptyString => True end.

Lemma dec_string_first v s : digit_first (dec_string v ++ s).
Proof.
  pose proof (dec_string_digits v) as H.
  destruct (dec_string v) as [|a d] eqn:E; simpl in *; [|auto].
  exfalso. unfold dec_string, NilZero.string_of_uint in E. by destruct (N.to_uint (Z.to_N v)).
Qed.

Lemma digit_not_space c : is_digit c = true -> is_space c = false.
Proof.
  unfold is_digit, is_space. intros H.
  destruct (Nat.eqb_spec (nat_of_ascii c) 32); [rewrite e in H; done|].
  apply andb_true_iff in H as [H _]. apply Nat.leb_le in H.
  destruct (Nat.leb_spec (nat_of_ascii c) 13); [lia|]. by rewrite andb_false_r.
Qed.

(** The first character of a written number is a digit or the sign. *)
Lemma dec_string_cons v : exists c d, dec_string v = String c d /\ is_digit c = true.
Proof.
  pose proof (dec_string_first v "") as H. pose proof (dec_string_digits v) as Hd.
  unfold dec_string, NilZero.string_of_uint in *. destruct (N.to_uint (Z.to_N v)); simpl in *;
    by do 2 eexists.
Qed.
