(* ===== verification/Time.v ===== *)
(** Delays and timer policies: [delay_t] (src/src/neoip_base/time/delay/),
    [timer_expboff_t] and [timer_probing_t]
    (src/src/neoip_base/time/timer_policy/).

    A delay is its [uint64_t] number of milliseconds, with the two special
    values of the header; the arithmetic asserts that no operand is null. *)
From Stdlib Require Import Ascii DecimalString DecimalN DecimalFacts.
From S2P Require Import Prelude Text.

(* ------------------------------------------------------------------ *)
(** * delay_t *)
(* ------------------------------------------------------------------ *)

Definition INFINITE_VAL : Z := 0xFFFFFFFFFFFFFFE.
Definition NONE_VAL : Z := 0xFFFFFFFFFFFFFFF.

Definition delay_is_null (d : Z) : bool := d =? NONE_VAL.
Definition delay_is_infinite (d : Z) : bool := d =? INFINITE_VAL.

(** [ALWAYS] and [NEVER] are both the infinite delay. *)
Definition delay_is_always (d : Z) : bool := d =? INFINITE_VAL.
Definition delay_is_never (d : Z) : bool := d =? INFINITE_VAL.
Definition delay_is_special (d : Z) : bool := delay_is_always d || delay_is_never d.

Definition from_msec (ms : Z) : Z := ms.
Definition from_sec (sec : Z) : Z := from_msec (wrap 64 (sec * 1000)).
Definition from_min (min : Z) : Z := from_sec (wrap 64 (min * 60)).
Definition to_sec_32bit (d : Z) : Z := wrap 32 (wrap 64 (d + 500) / 1000).

(** The body shared by the five arithmetic operators. *)
Definition delay_op (f : Z -> Z -> outcome Z) (d other : Z) : outcome Z :=
  assert! negb (delay_is_null d) && negb (delay_is_null other) in
  if delay_is_infinite d || delay_is_infinite other then Ok INFINITE_VAL else f d other.

Definition delay_add : Z -> Z -> outcome Z := delay_op (fun a b => Ok (wrap 64 (a + b))).
Definition delay_sub : Z -> Z -> outcome Z := delay_op (fun a b => Ok (wrap 64 (a - b))).
Definition delay_mul : Z -> Z -> outcome Z := delay_op (fun a b => Ok (wrap 64 (a * b))).
(** A division by zero traps. *)
Definition delay_div : Z -> Z -> outcome Z :=
  delay_op (fun a b => if b =? 0 then Fault else Ok (a / b)).
Definition delay_mod : Z -> Z -> outcome Z :=
  delay_op (fun a b => if b =? 0 then Fault else Ok (a mod b)).

Definition delay_compare (d other : Z) : Z :=
  if d <? other then -1 else if other <? d then 1 else 0.

Definition DELAY_BASES : list (Z * string) :=
  [(30 * 24 * 60 * 60 * 1000, "month"); (24 * 60 * 60 * 1000, "d"); (60 * 60 * 1000, "h");
   (60 * 1000, "m"); (1000, "s"); (1, "ms")]%string.

(** One [DELAY_T_CPUBASE] per base. *)
Fixpoint delay_cpubase (bases : list (Z * string)) (nb_ms : Z) : string :=
  match bases with
  | [] => ""
  | (base_val, base_str) :: bases' =>
    if base_val <=? nb_ms then
      let val := nb_ms / base_val in
      (dec_string val ++ base_str ++ delay_cpubase bases' (nb_ms - val * base_val))%string
    else delay_cpubase bases' nb_ms
  end.

Definition delay_to_string (d : Z) : string :=
  if delay_is_null d then "null"
  else if delay_is_infinite d then "infinite"
  else if d =? 0 then "0s"
  else delay_cpubase DELAY_BASES d.

(* ------------------------------------------------------------------ *)
(** * timer_expboff_t *)
(* ------------------------------------------------------------------ *)

Record timer_expboff_t := Expboff {
  expboff_min : Z;
  expboff_max : Z;
  expboff_current : Z
}.

Definition expboff_ctor (min max : Z) : timer_expboff_t := Expboff min max min.

Definition expboff_first (t : timer_expboff_t) : Z * timer_expboff_t :=
  (expboff_min t, Expboff (expboff_min t) (expboff_max t) (expboff_min t)).

Definition expboff_next (t : timer_expboff_t) : outcome (Z * timer_expboff_t) :=
  let* cur := delay_add (expboff_current t) (expboff_current t) in
  let cur := if expboff_max t <? cur then expboff_max t else cur in
  Ok (cur, Expboff (expboff_min t) (expboff_max t) cur).

Definition expboff_is_finished (t : timer_expboff_t) : bool := false.

(* ------------------------------------------------------------------ *)
(** * timer_probing_t *)
(* ------------------------------------------------------------------ *)

Record timer_probing_t := Probing {
  delay_begin : Z;
  delay_end : Z;
  probe_period : Z;
  delay_current : Z;
  delay_total : Z
}.

Definition probing_ctor (dbegin dend period : Z) : outcome timer_probing_t :=
  assert! negb (delay_is_special dbegin) in
  assert! negb (delay_is_never dend) in
  Ok (Probing dbegin dend period 0 0).

Definition probing_is_null (t : timer_probing_t) : bool := delay_is_null (delay_current t).

Definition probing_nullify (t : timer_probing_t) : timer_probing_t :=
  Probing (delay_begin t) (delay_end t) (probe_period t) 0 0.

(** The default constructor: the delays are null, then [nullify]. *)
Definition probing_default : timer_probing_t :=
  probing_nullify (Probing NONE_VAL NONE_VAL NONE_VAL NONE_VAL NONE_VAL).

Definition probing_first (t : timer_probing_t) : Z * timer_probing_t :=
  (delay_begin t,
   Probing (delay_begin t) (delay_end t) (probe_period t) (delay_begin t) (delay_begin t)).

Definition probing_is_finished (t : timer_probing_t) : bool := delay_end t <? delay_total t.

Definition probing_next (t : timer_probing_t) : outcome (Z * timer_probing_t) :=
  if probing_is_finished t then Ok (INFINITE_VAL, t)
  else
    let* total := delay_add (delay_total t) (probe_period t) in
    let t1 := Probing (delay_begin t) (delay_end t) (probe_period t) (probe_period t) total in
    let cur := if probing_is_finished t1 then INFINITE_VAL else probe_period t in
    Ok (cur, Probing (delay_begin t) (delay_end t) (probe_period t) cur total).

(** The delays returned by [n] calls of a policy's [next]. *)
Fixpoint policy_run {T} (next : T -> outcome (Z * T)) (n : nat) (t : T) : outcome (list Z * T) :=
  match n with
  | O => Ok ([], t)
  | S n' => let* (d, t1) := next t in
            let* (ds, t2) := policy_run next n' t1 in Ok (d :: ds, t2)
  end.

(* ------------------------------------------------------------------ *)
(** * A reader of displayed delays *)
(* ------------------------------------------------------------------ *)

(** The sum of the [<number><unit>] items of a string. *)
Fixpoint delay_read (fuel : nat) (s : string) : option Z :=
  match s with
  | EmptyString => Some 0
  | _ =>
    match fuel with
    | O => None
    | S fuel' =>
      let (num, r1) := string_span is_digit s in
      let (unit, r2) := string_span (fun a => negb (is_digit a)) r1 in
      v ← NilZero.uint_of_string num;
      base ← list_find (fun p => p.2 = unit) DELAY_BASES;
      rest ← delay_read fuel' r2;
      Some (Z.of_N (N.of_uint v) * base.2.1 + rest)
    end
  end.

(* ------------------------------------------------------------------ *)
(** * Lemmas *)
(* ------------------------------------------------------------------ *)

Lemma cpubase_first bases nb : digit_first (delay_cpubase bases nb).
Proof.
  revert nb. induction bases as [|[b u] bases IH]; intros nb; simpl; [done|].
  destruct (b <=? nb); [|apply IH]. apply dec_string_first.
Qed.

(** One item of a displayed delay is read back. *)
Lemma delay_read_item fuel v base unit rest i :
  0 <= v -> digit_first rest -> unit <> ""%string ->
  (forall a, In a (String.list_ascii_of_string unit) -> is_digit a = false) ->
  list_find (fun p : Z * string => p.2 = unit) DELAY_BASES = Some (i, (base, unit)) ->
  delay_read (S fuel) (dec_string v ++ unit ++ rest) =
    (r ← delay_read fuel rest; Some (v * base + r)).
Proof.
  intros Hv Hrest Hne Hunit Hfind.
  assert (Hs : string_span is_digit (dec_string v ++ unit ++ rest) = (dec_string v, unit ++ rest)%string).
  { apply string_span_all; [apply dec_string_digits|].
    destruct unit as [|a u]; [done|]. simpl. apply Hunit. by left. }
  assert (Hu : string_span (fun a => negb (is_digit a)) (unit ++ rest) = (unit, rest)).
  { apply string_span_all.
    - intros a Ha. by rewrite (Hunit a Ha).
    - destruct rest; [done|]. simpl in Hrest. by rewrite Hrest. }
  destruct (dec_string v ++ unit ++ rest)%string eqn:E.
  { apply (f_equal String.length) in E. destruct (dec_string v), unit; simpl in E; try done. }
  cbn [delay_read]. rewrite Hs. rewrite Hu. rewrite dec_string_read by done. cbn [mbind option_bind].
  rewrite Hfind. cbn [mbind option_bind snd fst]. rewrite DecimalN.Unsigned.of_to.
  by rewrite Z2N.id by done.
Qed.

(** The units are told apart by the reader. *)
Definition unit_ok (p : Z * string) : Prop :=
  0 < p.1 /\ p.2 <> ""%string /\
  (forall a, In a (String.list_ascii_of_string p.2) -> is_digit a = false) /\
  exists i, list_find (fun q : Z * string => q.2 = p.2) DELAY_BASES = Some (i, p).

Lemma delay_bases_ok : Forall unit_ok DELAY_BASES.
Proof.
  unfold DELAY_BASES. repeat (apply Forall_cons; split); [..|done];
    (split; [simpl; lia|]; split; [done|]; split;
      [intros a Ha; simpl in Ha; repeat destruct Ha as [<-|Ha]; done|eexists; reflexivity]).
Qed.

Lemma delay_read_cpubase l fuel nb :
  Forall unit_ok l -> (length l <= fuel)%nat -> 0 <= nb ->
  (forall p, last l = Some p -> p.1 = 1) -> (l = [] -> nb = 0) ->
  delay_read fuel (delay_cpubase l nb) = Some nb.
Proof.
  intros Hl. revert fuel nb. induction Hl as [|[b u] l (Hb & Hu & Hdig & i & Hfind) Hl IH];
    intros fuel nb Hf Hnb Hlast Hnil.
  { rewrite Hnil by done. by destruct fuel. }
  simpl in Hb, Hu, Hdig, Hf. destruct fuel as [|fuel]; [lia|].
  assert (Hlast' : forall p, last l = Some p -> p.1 = 1).
  { intros p Hp. apply Hlast. rewrite last_cons. by rewrite Hp. }
  assert (Hb1 : l = [] -> b = 1) by (intros ->; by apply (Hlast (b, u))).
  cbn [delay_cpubase]. destruct (Z.leb_spec b nb) as [Hle|Hgt].
  - rewrite (delay_read_item fuel (nb / b) b u _ i); [|apply Z.div_pos; lia|apply cpubase_first|done..].
    pose proof (Z.div_mod nb b ltac:(lia)). pose proof (Z.mod_pos_bound nb b Hb).
    rewrite IH; [cbn [mbind option_bind]; f_equal; lia|lia|lia|done|].
    intros E. specialize (Hb1 E). subst b. rewrite Z.div_1_r. lia.
  - apply IH; [lia|lia|done|]. intros E. specialize (Hb1 E). lia.
Qed.

(* ------------------------------------------------------------------ *)
(** ** Arithmetic and policies *)
(* ------------------------------------------------------------------ *)

(** A delay that is neither null nor infinite, far from the special values. *)
Definition ordinary (d : Z) : Prop := 0 <= d < INFINITE_VAL / 2.

Lemma delay_add_ordinary a b : ordinary a -> ordinary b -> delay_add a b = Ok (a + b).
Proof.
  unfold ordinary, delay_add, delay_op, delay_is_null, delay_is_infinite.
  change (INFINITE_VAL / 2) with (2 ^ 59 - 1). intros Ha Hb.
  assert (forall z, 0 <= z < 2 ^ 60 - 2 -> (z =? NONE_VAL) = false /\ (z =? INFINITE_VAL) = false) as Hz.
  { intros z Hz. unfold NONE_VAL, INFINITE_VAL. split; apply Z.eqb_neq; lia. }
  destruct (Hz a) as [-> ->]; [lia|]. destruct (Hz b) as [-> ->]; [lia|].
  cbn [negb andb orb dbg_assert]. f_equal. apply wrap_small. unfold in_range. lia.
Qed.

Lemma policy_run_app {T} (next : T -> outcome (Z * T)) n t d ds t1 t2 :
  next t = Ok (d, t1) -> policy_run next n t1 = Ok (ds, t2) ->
  policy_run next (S n) t = Ok (d :: ds, t2).
Proof. intros H1 H2. cbn [policy_run]. rewrite H1. simpl. by rewrite H2. Qed.

Lemma expboff_next_spec t :
  ordinary (expboff_current t) ->
  expboff_next t = Ok (Z.min (expboff_max t) (expboff_current t + expboff_current t),
    Expboff (expboff_min t) (expboff_max t)
      (Z.min (expboff_max t) (expboff_current t + expboff_current t))).
Proof.
  intros Hc. unfold expboff_next. rewrite delay_add_ordinary by done. cbn [mbind outcome_bind].
  destruct (Z.ltb_spec (expboff_max t) (expboff_current t + expboff_current t)).
  - by rewrite Z.min_l by lia.
  - by rewrite Z.min_r by lia.
Qed.

Lemma expboff_run_spec n mn mx cur k :
  0 <= k -> 0 <= mn -> 0 <= mx < INFINITE_VAL / 2 ->
  cur = Z.min mx (2 ^ k * mn) ->
  policy_run expboff_next n (Expboff mn mx cur) =
    Ok ((fun i => Z.min mx (2 ^ (k + Z.of_nat i) * mn)) <$> seq 1 n,
        Expboff mn mx (Z.min mx (2 ^ (k + Z.of_nat n) * mn))).
Proof.
  revert cur k. induction n as [|n IH]; intros cur k Hk Hmn Hmx Hcur.
  { cbn. change (Z.of_nat 0) with 0. rewrite Z.add_0_r. by rewrite <- Hcur. }
  assert (Hp : 0 <= 2 ^ k * mn) by nia.
  assert (Hstep : Z.min mx (cur + cur) = Z.min mx (2 ^ (k + 1) * mn)).
  { rewrite Z.pow_add_r by lia. lia. }
  pose proof (expboff_next_spec (Expboff mn mx cur)) as Hn. cbn [expboff_min expboff_max expboff_current] in Hn.
  rewrite Hstep in Hn. erewrite policy_run_app; [|apply Hn; unfold ordinary; lia|apply (IH _ (k + 1)); lia].
  assert (Hx : forall x, k + 1 + Z.of_nat x = k + Z.of_nat (S x)) by lia.
  cbn [seq]. rewrite fmap_cons, <- (fmap_S_seq 1 n), <- list_fmap_compose, Hx.
  replace (k + 1) with (k + Z.of_nat 1) by lia. do 3 f_equal.
  apply list_fmap_ext. intros i x _. simpl. do 3 f_equal. lia.
Qed.

Lemma probing_next_spec t :
  ordinary (delay_total t) -> ordinary (probe_period t) ->
  probing_next t =
    if delay_end t <? delay_total t then Ok (INFINITE_VAL, t)
    else
      let cur := if delay_end t <? delay_total t + probe_period t then INFINITE_VAL else probe_period t in
      Ok (cur, Probing (delay_begin t) (delay_end t) (probe_period t) cur (delay_total t + probe_period t)).
Proof.
  intros Ht Hp. unfold probing_next, probing_is_finished.
  destruct (delay_end t <? delay_total t); [done|]. by rewrite delay_add_ordinary.
Qed.

(** The delay of the [j]-th probe after the first one. *)
Definition probe_delay (dbegin dend period : Z) (j : nat) : Z :=
  if dbegin + Z.of_nat j * period <=? dend then period else INFINITE_VAL.

Lemma probing_run_spec n dbegin dend period cur total i i0 :
  0 <= dbegin -> 0 <= dend < INFINITE_VAL / 4 -> 0 <= period < INFINITE_VAL / 4 ->
  total = dbegin + Z.of_nat i0 * period -> total <= dend + period -> (i0 <= i)%nat ->
  (i0 = i \/ dend < total) ->
  exists t2, policy_run probing_next n (Probing dbegin dend period cur total) =
    Ok (probe_delay dbegin dend period <$> seq (S i) n, t2).
Proof.
  revert cur total i i0. induction n as [|n IH]; intros cur total i i0 Hb He Hp Ht Hle Hi Hor.
  { by eexists. }
  change (INFINITE_VAL / 4) with (2 ^ 58 - 1) in *.
  assert (Hord : ordinary total /\ ordinary period).
  { unfold ordinary. change (INFINITE_VAL / 2) with (2 ^ 59 - 1). nia. }
  pose proof (probing_next_spec (Probing dbegin dend period cur total)) as Hn.
  cbn [delay_begin delay_end probe_period delay_total] in Hn.
  specialize (Hn (proj1 Hord) (proj2 Hord)). cbn [seq]. rewrite fmap_cons.
  unfold probe_delay at 1.
  destruct (Z.ltb_spec dend total) as [Hfin|Hfin].
  - destruct (IH cur total (S i) i0) as [t2 H2]; try done; [lia|by right|]. exists t2.
    erewrite policy_run_app; [|exact Hn|exact H2].
    destruct (Z.leb_spec (dbegin + Z.of_nat (S i) * period) dend); [nia|done].
  - destruct Hor as [->|]; [|lia].
    set (cur' := if dend <? total + period then INFINITE_VAL else period) in *.
    destruct (IH cur' (total + period) (S i) (S i)) as [t2 H2]; try done; [lia|lia|by left|].
    exists t2. erewrite policy_run_app; [|exact Hn|exact H2]. do 3 f_equal.
    unfold cur'. replace (total + period) with (dbegin + Z.of_nat (S i) * period) by lia.
    by destruct (Z.leb_spec (dbegin + Z.of_nat (S i) * period) dend),
      (Z.ltb_spec dend (dbegin + Z.of_nat (S i) * period)); try lia.
Qed.

(* ------------------------------------------------------------------ *)
(** * Properties *)
(* ------------------------------------------------------------------ *)

(** A displayed delay denotes the delay: reading back the items of the
    string of any ordinary value gives the value, to the millisecond. *)
Theorem delay_string_roundtrip (d : Z) (Hd : in_range 64 d)
    (Hs : delay_is_null d = false) (Hi : delay_is_infinite d = false) :
  delay_read 6 (delay_to_string d) = Some d.
Proof.
  unfold delay_to_string. rewrite Hs, Hi. destruct (Z.eqb_spec d 0) as [->|Hne]; [done|].
  apply delay_read_cpubase; [apply delay_bases_ok|simpl; lia|by destruct Hd| |done].
  intros p [= <-]. done.
Qed.

(** The timer policies: the exponential backoff starts at the minimum,
    doubles at each retransmission and stays at the maximum once reached,
    never finishing; probing gives its first delay, then the period as long as
    the total stays within the end, then the infinite delay for ever.  No
    assertion of the delay arithmetic fails. *)
Theorem timer_policies_correct (n : nat) (mn mx dbegin dend period : Z)
    (Hmn : 0 <= mn <= mx) (Hmx : mx < INFINITE_VAL / 2) (Hb : 0 <= dbegin <= dend)
    (He : dend < INFINITE_VAL / 4) (Hp : 0 <= period < INFINITE_VAL / 4) :
  (exists t, policy_run expboff_next n (expboff_first (expboff_ctor mn mx)).2 =
     Ok ((fun i => Z.min mx (2 ^ Z.of_nat i * mn)) <$> seq 1 n, t) /\
     expboff_is_finished t = false) /\
  (expboff_first (expboff_ctor mn mx)).1 = mn /\
  (exists t0 t, probing_ctor dbegin dend period = Ok t0 /\ (probing_first t0).1 = dbegin /\
     policy_run probing_next n (probing_first t0).2 =
       Ok (probe_delay dbegin dend period <$> seq 1 n, t)).
Proof.
  split; [|split; [done|]].
  - eexists. split; [|done].
    change ((expboff_first (expboff_ctor mn mx)).2) with (Expboff mn mx mn).
    rewrite (expboff_run_spec n mn mx mn 0); [done|lia|lia|lia|].
    rewrite Z.pow_0_r, Z.mul_1_l. lia.
  - assert (delay_is_special dbegin = false /\ delay_is_never dend = false) as [Hs Hn].
    { unfold delay_is_special, delay_is_always, delay_is_never.
      change (INFINITE_VAL / 4) with (2 ^ 58 - 1) in *. change INFINITE_VAL with (2 ^ 60 - 2).
      split; [apply orb_false_iff; split|]; apply Z.eqb_neq; lia. }
    destruct (probing_run_spec n dbegin dend period dbegin dbegin 0 0) as [t Ht]; try lia.
    unfold probing_ctor. rewrite Hs, Hn. cbn [negb dbg_assert].
    do 2 eexists. split; [reflexivity|]. split; [done|]. exact Ht.
Qed.

(** A nullified probing timer is not null: [nullify] sets the current delay
    to zero while [is_null] looks for the null delay, so neither the default
    constructor nor [nullify] gives a timer that [is_null] recognizes, and only
    a timer whose period is the null delay can become null. *)
Theorem probing_nullify_not_null (t : timer_probing_t) :
  probing_is_null (probing_nullify t) = false /\ probing_is_null probing_default = false /\
  (forall d t', probing_next t = Ok (d, t') -> probing_is_null t = false ->
     probing_is_null t' = false).
Proof.
  split; [done|]. split; [done|]. intros d t'. unfold probing_next.
  destruct (probing_is_finished t); [by intros [= <- <-]|].
  unfold delay_add, delay_op. destruct (delay_is_null (delay_total t)); [done|].
  destruct (delay_is_null (probe_period t)) eqn:E; [done|]. cbn [negb andb dbg_assert].
  intros H Hn.
  destruct (delay_is_infinite (delay_total t) || delay_is_infinite (probe_period t));
    cbn [mbind outcome_bind] in H; injection H as <- <-; unfold probing_is_null;
    cbn [delay_current]; by destruct (probing_is_finished _).
Qed.

(* ------------------------------------------------------------------ *)
(** * Witnesses *)
(* ------------------------------------------------------------------ *)

(** 1 day, 2 hours and 5 milliseconds. *)
Lemma delay_string_roundtrip_witness :
  delay_to_string 93600005 = "1d2h5ms"%string /\
  delay_read 6 (delay_to_string 93600005) = Some 93600005.
Proof.
  split; [vm_compute; reflexivity|].
  apply delay_string_roundtrip; [split; vm_compute; [discriminate|reflexivity]|reflexivity|reflexivity].
Defined.

(** The policy of the retransmissions of [rdgram_t]. *)
Lemma timer_policies_correct_witness :
  (exists t, policy_run expboff_next 4 (expboff_first (expboff_ctor 500 2000)).2 =
     Ok ([1000; 2000; 2000; 2000], t)) /\
  (exists t0 t, probing_ctor 1000 3500 1000 = Ok t0 /\
     policy_run probing_next 4 (probing_first t0).2 = Ok ([1000; 1000; INFINITE_VAL; INFINITE_VAL], t)).
Proof.
  destruct (timer_policies_correct 4 500 2000 1000 3500 1000) as ((t & Ht & _) & _ & (t0 & t1 & H0 & _ & H1));
    [split; [intros H; discriminate H|intros H; discriminate H]|reflexivity
    |split; [intros H; discriminate H|intros H; discriminate H]|reflexivity
    |split; [intros H; discriminate H|reflexivity]|].
  split; [exists t; exact Ht|]. exists t0, t1. split; [exact H0|exact H1].
Defined.

(** The timer of the first witness, after one call. *)
Lemma probing_nullify_not_null_witness :
  probing_is_null (probing_nullify (Probing 1000 3500 1000 NONE_VAL 0)) = false.
Proof. exact (proj1 (probing_nullify_not_null (Probing 1000 3500 1000 NONE_VAL 0))). Defined.
