(* ===== verification/Timeout.v ===== *)
(** Iterative timers: [timeout_t] (src/src/neoip_eloop/timeout/levt/), over the
    one-shot timer of libevent.

    A null [next_expire_date] means stopped.  The libevent timer is the delay it
    is armed with, as a [struct timeval]; it becomes not pending when it fires.
    The present is an argument of the operations that read it. *)
From S2P Require Import Prelude Text Time.

Record timeout_t := Timeout {
  to_callback : bool;                    (* the callback is not NULL *)
  to_period : Z;
  next_expire_date : Z;
  external_timer : option (Z * Z)        (* tv_sec, tv_usec when pending *)
}.

Definition timeout_ctor : timeout_t := Timeout false NONE_VAL NONE_VAL None.

Definition timeout_is_null (t : timeout_t) : bool := negb (to_callback t).
Definition external_is_started (t : timeout_t) : bool := bool_decide (is_Some (external_timer t)).
Definition timeout_is_started (t : timeout_t) : bool :=
  if timeout_is_null t then false
  else if delay_is_null (next_expire_date t) then false else true.

Definition to_msec_32bit (d : Z) : Z := wrap 32 d.

Definition external_start (delay : Z) (t : timeout_t) : outcome timeout_t :=
  assert! negb (external_is_started t) in
  let tv_sec := to_msec_32bit delay / 1000 in
  let tv_usec := to_msec_32bit delay mod 1000 * 1000 in
  Ok (Timeout (to_callback t) (to_period t) (next_expire_date t) (Some (tv_sec, tv_usec))).
Definition external_stop (t : timeout_t) : outcome timeout_t :=
  assert! external_is_started t in
  Ok (Timeout (to_callback t) (to_period t) (next_expire_date t) None).

Definition set_expire_date (d : Z) (t : timeout_t) : timeout_t :=
  Timeout (to_callback t) (to_period t) d (external_timer t).

Definition launch_timerext (now delay : Z) (t : timeout_t) : outcome timeout_t :=
  assert! negb (external_is_started t) in
  if delay_is_null delay then Ok (set_expire_date NONE_VAL t)
  else if delay_is_infinite delay then Ok (set_expire_date delay t)
  else
    let* date := delay_add now delay in
    external_start delay (set_expire_date date t).

(** The callback given is not NULL. *)
Definition timeout_start (now period : Z) (t : timeout_t) : outcome timeout_t :=
  assert! negb (delay_is_null period) in
  let* t1 := (if external_is_started t then external_stop t else Ok t) in
  launch_timerext now period (Timeout true period (next_expire_date t1) (external_timer t1)).

Definition timeout_stop (t : timeout_t) : outcome timeout_t :=
  let* t1 := (if external_is_started t then external_stop t else Ok t) in
  Ok (set_expire_date NONE_VAL t1).

Definition get_expire_delay (now : Z) (t : timeout_t) : outcome Z :=
  assert! negb (timeout_is_null t) in
  if negb (timeout_is_started t) then Ok NONE_VAL
  else
    assert! negb (delay_is_null (next_expire_date t)) in
    if delay_is_special (next_expire_date t) then Ok (next_expire_date t)
    else delay_sub (next_expire_date t) now.

Definition change_period (period : Z) (t : timeout_t) : outcome timeout_t :=
  assert! negb (timeout_is_null t) in
  Ok (Timeout (to_callback t) period (next_expire_date t) (external_timer t)).

(** The libevent timer fired: it is not pending any more.  [cb] is what the
    callback does to the timeout, [None] when it deletes it ([!tokeep]). *)
Definition cpp_expired_cb (now : Z) (cb : timeout_t -> outcome (option timeout_t)) (t : timeout_t)
    : outcome (option timeout_t) :=
  let t1 := Timeout (to_callback t) (to_period t) (next_expire_date t) None in
  assert! to_callback t1 in
  let* r := cb t1 in
  match r with
  | None => Ok None
  | Some t2 =>
    if timeout_is_started t2 && negb (external_is_started t2) then
      let* t3 := launch_timerext now (to_period t2) t2 in Ok (Some t3)
    else Ok (Some t2)
  end.

Definition timeout_compare (t other : timeout_t) : outcome Z :=
  assert! negb (timeout_is_null t) in Ok (delay_compare (next_expire_date t) (next_expire_date other)).

(* ------------------------------------------------------------------ *)
(** * Lemmas *)
(* ------------------------------------------------------------------ *)

(** The timeout was launched at [now] for [delay]. *)
Definition running_since (now delay : Z) (t : timeout_t) : Prop :=
  to_callback t = true /\ next_expire_date t = now + delay /\
  external_timer t = Some (wrap 32 delay / 1000, wrap 32 delay mod 1000 * 1000).

Lemma ordinary_special d : 0 <= d < INFINITE_VAL -> delay_is_null d = false /\ delay_is_infinite d = false.
Proof.
  unfold delay_is_null, delay_is_infinite, NONE_VAL, INFINITE_VAL. intros. split; apply Z.eqb_neq; lia.
Qed.

Lemma ordinary_below d : ordinary d -> 0 <= d < INFINITE_VAL.
Proof. unfold ordinary, INFINITE_VAL. change (0xFFFFFFFFFFFFFFE / 2) with (2 ^ 59 - 1). lia. Qed.

Lemma ordinary_sum a b : ordinary a -> ordinary b -> 0 <= a + b < INFINITE_VAL.
Proof. unfold ordinary, INFINITE_VAL. change (0xFFFFFFFFFFFFFFE / 2) with (2 ^ 59 - 1). lia. Qed.

Lemma launch_spec now delay t :
  ordinary now -> ordinary delay -> external_timer t = None ->
  launch_timerext now delay t =
    Ok (Timeout (to_callback t) (to_period t) (now + delay)
          (Some (wrap 32 delay / 1000, wrap 32 delay mod 1000 * 1000))).
Proof.
  intros Hn Hd He. destruct t as [c p d e]. cbn [external_timer] in He. subst e.
  unfold launch_timerext, external_start. change (external_is_started _) with false. cbn [negb dbg_assert].
  destruct (ordinary_special delay) as [-> ->]; [by apply ordinary_below|].
  rewrite delay_add_ordinary by done. cbn [mbind outcome_bind]. by change (external_is_started _) with false.
Qed.

Lemma launch_infinite now t :
  external_timer t = None -> launch_timerext now INFINITE_VAL t = Ok (set_expire_date INFINITE_VAL t).
Proof.
  intros He. unfold launch_timerext, external_is_started. rewrite He.
  by rewrite bool_decide_eq_false_2 by (by intros []).
Qed.

(** [start] stops a pending timer first. *)
Lemma start_spec now period t :
  ordinary now -> delay_is_null period = false ->
  timeout_start now period t = launch_timerext now period (Timeout true period (next_expire_date t) None).
Proof.
  intros Hn Hp. unfold timeout_start, external_stop. rewrite Hp. cbn [negb dbg_assert].
  destruct (external_is_started t) eqn:E; [done|]. unfold external_is_started in E. bool_to_prop.
  cbn [mbind outcome_bind]. destruct (external_timer t) eqn:E'; [|done]. destruct E. eauto.
Qed.

Lemma expire_delay_spec now delay t now' :
  ordinary now -> ordinary delay -> ordinary now' -> running_since now delay t ->
  timeout_is_started t = true /\ get_expire_delay now' t = Ok (wrap 64 (now + delay - now')).
Proof.
  intros Hn Hd Hn' (Hc & Hdate & He). unfold get_expire_delay, timeout_is_started, timeout_is_null.
  rewrite Hc, Hdate. cbn [negb dbg_assert].
  destruct (ordinary_special (now + delay)) as [E1 E2]; [by apply ordinary_sum|].
  destruct (ordinary_special now') as [E3 E4]; [by apply ordinary_below|].
  rewrite E1. split; [done|]. cbn [negb dbg_assert].
  unfold delay_is_special, delay_is_always, delay_is_never. change (?d =? INFINITE_VAL) with (delay_is_infinite d).
  rewrite E2. cbn [orb]. unfold delay_sub, delay_op. by rewrite E1, E2, E3, E4.
Qed.

Lemma delay_sub_ordinary a b : ordinary a -> ordinary b -> delay_sub a b = Ok (wrap 64 (a - b)).
Proof.
  intros Ha%ordinary_below Hb%ordinary_below. unfold delay_sub, delay_op.
  by destruct (ordinary_special a Ha) as [-> ->], (ordinary_special b Hb) as [-> ->].
Qed.

(** A delay one may start a timer for. *)
Definition delay_ok (d : Z) : Prop := ordinary d \/ d = INFINITE_VAL.

Lemma start_ok now d t :
  ordinary now -> delay_ok d ->
  exists t1, timeout_start now d t = Ok t1 /\ to_callback t1 = true /\
    (ordinary d -> next_expire_date t1 = now + d) /\ (d = INFINITE_VAL -> next_expire_date t1 = INFINITE_VAL).
Proof.
  intros Hn [Hd| ->].
  - destruct (ordinary_special d) as [Hnull Hinf]; [by apply ordinary_below|]. rewrite start_spec, launch_spec by done.
    eexists. split; [reflexivity|]. split; [done|]. split; [done|]. intros ->. by vm_compute in Hinf.
  - rewrite start_spec, launch_infinite by done. eexists. split; [reflexivity|]. split; [done|]. split; [|done].
    intros Hd%ordinary_below. unfold INFINITE_VAL in Hd. lia.
Qed.

Lemma start_period now d t t1 : ordinary now -> delay_ok d -> timeout_start now d t = Ok t1 -> to_period t1 = d.
Proof.
  intros Hn [Hd| ->].
  - destruct (ordinary_special d) as [Hnull Hinf]; [by apply ordinary_below|]. rewrite start_spec, launch_spec by done.
    by intros [= <-].
  - rewrite start_spec, launch_infinite by done. by intros [= <-].
Qed.

(** A callback that keeps the timer and changes its period. *)
Lemma expired_ok now d t :
  ordinary now -> delay_ok d -> to_callback t = true ->
  exists t1, cpp_expired_cb now (fun t => let* t' := change_period d t in Ok (Some t')) t = Ok (Some t1) /\
    to_callback t1 = true.
Proof.
  intros Hn Hd Ht. unfold cpp_expired_cb, change_period, timeout_is_null. cbn [to_callback]. rewrite Ht.
  cbn [dbg_assert negb mbind outcome_bind].
  destruct (_ && _); [|by eexists]. cbn [to_callback to_period next_expire_date external_timer].
  destruct Hd as [Hd| ->].
  - rewrite launch_spec by done. cbn [mbind outcome_bind]. by eexists.
  - rewrite launch_infinite by done. cbn [mbind outcome_bind]. by eexists.
Qed.

(** A callback that keeps the timer as it is. *)
Lemma expired_same now t :
  ordinary now -> delay_ok (to_period t) -> to_callback t = true ->
  exists t1, cpp_expired_cb now (fun t => Ok (Some t)) t = Ok (Some t1) /\ to_callback t1 = true /\ to_period t1 = to_period t.
Proof.
  intros Hn Hd Ht. unfold cpp_expired_cb. cbn [to_callback]. rewrite Ht. cbn [dbg_assert mbind outcome_bind].
  destruct (_ && _); [|by eexists]. cbn [to_callback to_period next_expire_date external_timer].
  destruct Hd as [Hd|Hd].
  - rewrite launch_spec by done. cbn [mbind outcome_bind]. by eexists.
  - rewrite Hd, launch_infinite by done. cbn [mbind outcome_bind]. by eexists.
Qed.

(* ------------------------------------------------------------------ *)
(** * Properties *)
(* ------------------------------------------------------------------ *)

(** An iterative timer started at [now] for an ordinary period: it is
    running until the date [now + period], the delay it reports is the time left
    until then (wrapped when the timer is late), the libevent timer is armed for
    the period modulo 2^32 milliseconds; when it fires and the callback keeps
    it, possibly with a new period, it runs again for that period.  A timer of
    infinite period is started but never armed. *)
Theorem timeout_iterates now period t :
  ordinary now -> ordinary period ->
  (exists t1, timeout_start now period t = Ok t1 /\ running_since now period t1 /\ to_period t1 = period /\
    (forall now', ordinary now' -> timeout_is_started t1 = true /\
       get_expire_delay now' t1 = Ok (if now' <=? now + period then now + period - now' else 2 ^ 64 - (now' - (now + period)))) /\
    (exists sec usec, external_timer t1 = Some (sec, usec) /\ sec * 1000000 + usec = 1000 * (period mod 2 ^ 32)) /\
    (forall now' period', ordinary now' -> ordinary period' ->
       exists t2, cpp_expired_cb now' (fun t => let* t' := change_period period' t in Ok (Some t')) t1 = Ok (Some t2) /\
         running_since now' period' t2)) /\
  (exists t1, timeout_start now INFINITE_VAL t = Ok t1 /\ timeout_is_started t1 = true /\ external_timer t1 = None /\
    forall now', get_expire_delay now' t1 = Ok INFINITE_VAL).
Proof.
  intros Hn Hp. destruct (ordinary_special period) as [Hnull _]; [by apply ordinary_below|]. split.
  - rewrite start_spec, launch_spec by done. cbn [to_callback to_period]. eexists. split; [done|].
    assert (Hr : running_since now period (Timeout true period (now + period)
      (Some (wrap 32 period / 1000, wrap 32 period mod 1000 * 1000)))) by done.
    split; [exact Hr|]. split; [done|]. split; [|split].
    + intros now' Hn'. destruct (expire_delay_spec now period _ now' Hn Hp Hn' Hr) as [E1 E2]. split; [exact E1|].
      rewrite E2. f_equal. pose proof (ordinary_sum _ _ Hn Hp) as Hs. apply ordinary_below in Hn'.
      unfold INFINITE_VAL in *. destruct (Z.leb_spec now' (now + period)).
      * apply wrap_small. unfold in_range. lia.
      * unfold wrap. symmetry. apply Z.mod_unique with (-1); lia.
    + eexists _, _. split; [reflexivity|]. unfold wrap.
      pose proof (Z.div_mod (period mod 2 ^ 32) 1000 ltac:(lia)). lia.
    + intros now' period' Hn' Hp'. unfold cpp_expired_cb, change_period. cbn [to_callback dbg_assert timeout_is_null negb mbind outcome_bind to_period next_expire_date external_timer].
      unfold timeout_is_started, timeout_is_null. cbn [to_callback negb next_expire_date].
      destruct (ordinary_special (now + period)) as [-> _]; [by apply ordinary_sum|].
      change (external_is_started _) with false. cbn [negb andb].
      rewrite launch_spec by done. eexists. split; [reflexivity|]. done.
  - rewrite start_spec, launch_infinite by done. eexists. by split.
Qed.

Lemma timeout_iterates_witness :
  timeout_start 1000 5000000000 timeout_ctor = Ok (Timeout true 5000000000 5000001000 (Some (705032, 704000))) /\
  exists t1, timeout_start 1000 5000000000 timeout_ctor = Ok t1 /\ running_since 1000 5000000000 t1.
Proof.
  split; [reflexivity|].
  destruct (timeout_iterates 1000 5000000000 timeout_ctor) as [(t1 & H1 & H2 & _) _];
    [split; [discriminate|reflexivity]|split; [discriminate|reflexivity]|].
  exists t1. split; [exact H1|exact H2].
Defined.
