(* ===== verification/Dvar.v ===== *)
(** Dynamic variables: [dvar_t] and its subtypes
    (src/src/neoip_base/tools/dvar/), the values bencode and xmlrpc exchange.

    [dvar_t] owns its value through a clonable pointer, so a value is a tree.
    The [std::map] of [dvar_map_t] is an association list sorted by key.  The
    specification of [compare] is a three-way structural order. *)
From Stdlib Require Import Ascii SpecFloat.
From S2P Require Import Prelude.

(* ------------------------------------------------------------------ *)
(** * Values *)
(* ------------------------------------------------------------------ *)

(** [NONE] is the null [dvar_t]; the other constructors are [dvar_type_t]'s. *)
#[warnings="-register-all"]
Inductive dvar_t :=
| NONE
| INTEGER (value : Z)
| DOUBLE (value : spec_float)
| STRING (value : string)
| BOOLEAN (value : bool)
| NIL
| ARRAY (array : list dvar_t)
| MAP (map : list (string * dvar_t)).

Definition dvar_is_null (d : dvar_t) : bool := match d with NONE => true | _ => false end.

(** The value of the [dvar_type_t]. *)
Definition dvar_type (d : dvar_t) : Z :=
  match d with
  | NONE => 0 | INTEGER _ => 1 | DOUBLE _ => 2 | STRING _ => 3
  | BOOLEAN _ => 4 | NIL => 5 | ARRAY _ => 6 | MAP _ => 7
  end.

(* ------------------------------------------------------------------ *)
(** * dvar_int_t *)
(* ------------------------------------------------------------------ *)

(** The [is_..._ok] of the header: the limits are converted to [int64_t]. *)
Definition is_int32_ok (v : Z) : bool := v <=? to_signed 64 (2 ^ 31 - 1).
Definition is_uint32_ok (v : Z) : bool := v <=? to_signed 64 (2 ^ 32 - 1).
Definition is_size_t_ok (v : Z) : bool := v <=? to_signed 64 (2 ^ 64 - 1).
Definition is_int64_ok (v : Z) : bool := v <=? to_signed 64 (2 ^ 63 - 1).

Definition to_int32 (v : Z) : outcome Z := assert! is_int32_ok v in Ok (to_signed 32 v).
Definition to_uint32 (v : Z) : outcome Z := assert! is_uint32_ok v in Ok (wrap 32 v).
Definition to_size_t (v : Z) : outcome Z := assert! is_size_t_ok v in Ok (wrap 64 v).
Definition to_int64 (v : Z) : outcome Z := assert! is_int64_ok v in Ok v.
Definition to_uint64 (v : Z) : outcome Z := Ok (wrap 64 v).

(* ------------------------------------------------------------------ *)
(** * dvar_map_t *)
(* ------------------------------------------------------------------ *)

Fixpoint dvar_map_find (key : string) (map : list (string * dvar_t)) : option dvar_t :=
  match map with
  | [] => None
  | (k, d) :: map' => if String.eqb k key then Some d else dvar_map_find key map'
  end.

(** [contain( key, dvar_type )]; a type of 0 ([NONE]) is any type. *)
Definition dvar_map_contain (key : string) (type : Z) (map : list (string * dvar_t)) : bool :=
  match dvar_map_find key map with
  | None => false
  | Some d => negb (negb (type =? 0) && negb (dvar_type d =? type))
  end.

(** [std::map::insert]: an existing key is kept. *)
Fixpoint std_map_insert (key : string) (d : dvar_t) (map : list (string * dvar_t)) : list (string * dvar_t) :=
  match map with
  | [] => [(key, d)]
  | (k, x) :: map' =>
    if String.ltb key k then (key, d) :: map
    else if String.eqb k key then map
    else (k, x) :: std_map_insert key d map'
  end.

Definition dvar_map_insert (key : string) (d : dvar_t) (map : list (string * dvar_t))
    : outcome (list (string * dvar_t)) :=
  assert! negb (dvar_map_contain key 0 map) in
  Ok (std_map_insert key d map).

Definition dvar_map_at (key : string) (map : list (string * dvar_t)) : outcome dvar_t :=
  match dvar_map_find key map with
  | None => AssertFail
  | Some d => Ok d
  end.

(* ------------------------------------------------------------------ *)
(** * dvar_arr_t *)
(* ------------------------------------------------------------------ *)

Definition dvar_arr_append (d : dvar_t) (array : list dvar_t) : list dvar_t := array ++ [d].

Definition dvar_arr_at (idx : nat) (array : list dvar_t) : outcome dvar_t :=
  match array !! idx with
  | None => AssertFail
  | Some d => Ok d
  end.

(* ------------------------------------------------------------------ *)
(** * compare *)
(* ------------------------------------------------------------------ *)

(** [std::lexicographical_compare], the [operator <] of [std::vector] and
    [std::map]. *)
Section lexicographical.
Context {A : Type} (lt : A -> A -> bool).

Fixpoint lexicographical_compare (l1 l2 : list A) : bool :=
  match l1, l2 with
  | _, [] => false
  | [], _ :: _ => true
  | a :: l1', b :: l2' =>
    if lt a b then true else if lt b a then false else lexicographical_compare l1' l2'
  end.
End lexicographical.

(** The [operator <] of [std::pair]. *)
Definition pair_lt (lt : dvar_t -> dvar_t -> bool) (p q : string * dvar_t) : bool :=
  String.ltb p.1 q.1 || (negb (String.ltb q.1 p.1) && lt p.2 q.2).

(** Every [compare] body: -1, +1 or 0 by [operator <] and [operator >]. *)
Definition compare_by {A} (lt : A -> A -> bool) (a b : A) : Z :=
  if lt a b then -1 else if lt b a then 1 else 0.

(** Nesting depth of a value. *)
Fixpoint dvar_depth (d : dvar_t) : nat :=
  match d with
  | ARRAY l => S (max_list (map dvar_depth l))
  | MAP l => S (max_list (map (fun p => dvar_depth p.2) l))
  | _ => 0
  end%nat.

Definition dvar_int_compare : Z -> Z -> Z := compare_by Z.ltb.
Definition dvar_dbl_compare : spec_float -> spec_float -> Z := compare_by SFltb.
Definition dvar_str_compare : string -> string -> Z := compare_by String.ltb.
Definition dvar_boolean_compare : bool -> bool -> Z := compare_by (fun a b => negb a && b).
Definition dvar_nil_compare : Z := 0.
Definition dvar_arr_compare (lt : dvar_t -> dvar_t -> bool) : list dvar_t -> list dvar_t -> Z :=
  compare_by (lexicographical_compare lt).
Definition dvar_map_compare (lt : dvar_t -> dvar_t -> bool)
    : list (string * dvar_t) -> list (string * dvar_t) -> Z :=
  compare_by (lexicographical_compare (pair_lt lt)).

(** [dvar_vapi_t::compare] of two values of the same type; [lt] is the
    [operator <] of [dvar_t]. *)
Definition vapi_compare (lt : dvar_t -> dvar_t -> bool) (d other : dvar_t) : Z :=
  match d, other with
  | INTEGER v, INTEGER o => dvar_int_compare v o
  | DOUBLE v, DOUBLE o => dvar_dbl_compare v o
  | STRING v, STRING o => dvar_str_compare v o
  | BOOLEAN v, BOOLEAN o => dvar_boolean_compare v o
  | ARRAY v, ARRAY o => dvar_arr_compare lt v o
  | MAP v, MAP o => dvar_map_compare lt v o
  | _, _ => dvar_nil_compare
  end.

Fixpoint dvar_compare_fuel (n : nat) (d other : dvar_t) : Z :=
  match n with
  | O => 0
  | S n' =>
    if dvar_is_null d && negb (dvar_is_null other) then -1
    else if negb (dvar_is_null d) && dvar_is_null other then 1
    else if dvar_is_null d && dvar_is_null other then 0
    else if dvar_type d <? dvar_type other then -1
    else if dvar_type other <? dvar_type d then 1
    else vapi_compare (fun a b => dvar_compare_fuel n' a b <? 0) d other
  end.

(** The depth of either value is enough fuel ([compare_fuel_spec]). *)
Definition dvar_compare (d other : dvar_t) : Z := dvar_compare_fuel (S (dvar_depth d)) d other.

(* ------------------------------------------------------------------ *)
(** * Specification of [compare] *)
(* ------------------------------------------------------------------ *)

Definition then_cmp (c : comparison) (k : comparison) : comparison :=
  match c with Eq => k | Lt => Lt | Gt => Gt end.

Section list_cmp.
Context {A : Type} (cmp : A -> A -> comparison).

Fixpoint list_cmp (l1 l2 : list A) : comparison :=
  match l1, l2 with
  | [], [] => Eq
  | [], _ :: _ => Lt
  | _ :: _, [] => Gt
  | a :: l1', b :: l2' => then_cmp (cmp a b) (list_cmp l1' l2')
  end.
End list_cmp.

Definition dbl_cmp (v o : spec_float) : comparison :=
  match SFcompare v o with Some c => c | None => Eq end.

Definition bool_cmp (a b : bool) : comparison :=
  match a, b with false, true => Lt | true, false => Gt | _, _ => Eq end.

Fixpoint dvar_cmp (d other : dvar_t) : comparison :=
  match d, other with
  | INTEGER v, INTEGER o => Z.compare v o
  | DOUBLE v, DOUBLE o => dbl_cmp v o
  | STRING v, STRING o => String.compare v o
  | BOOLEAN v, BOOLEAN o => bool_cmp v o
  | ARRAY v, ARRAY o => list_cmp dvar_cmp v o
  | MAP v, MAP o => list_cmp (fun p q => then_cmp (String.compare p.1 q.1) (dvar_cmp p.2 q.2)) v o
  | _, _ => Z.compare (dvar_type d) (dvar_type other)
  end.

(** No NaN inside. *)
Fixpoint dvar_no_nan (d : dvar_t) : Prop :=
  match d with
  | DOUBLE S754_nan => False
  | ARRAY l => fold_right and True (map dvar_no_nan l)
  | MAP l => fold_right and True (map (fun p => dvar_no_nan p.2) l)
  | _ => True
  end.

Fixpoint dvar_no_double (d : dvar_t) : Prop :=
  match d with
  | DOUBLE _ => False
  | ARRAY l => fold_right and True (map dvar_no_double l)
  | MAP l => fold_right and True (map (fun p => dvar_no_double p.2) l)
  | _ => True
  end.

(* ------------------------------------------------------------------ *)
(** * Lemmas *)
(* ------------------------------------------------------------------ *)

(** Induction with hypotheses on the elements of arrays and maps. *)
Lemma dvar_ind' (P : dvar_t -> Prop) :
  P NONE -> (forall v, P (INTEGER v)) -> (forall v, P (DOUBLE v)) -> (forall v, P (STRING v)) ->
  (forall v, P (BOOLEAN v)) -> P NIL ->
  (forall l, Forall P l -> P (ARRAY l)) ->
  (forall l, Forall (fun p : string * dvar_t => P p.2) l -> P (MAP l)) ->
  forall d, P d.
Proof.
  intros H0 H1 H2 H3 H4 H5 H6 H7.
  refine (fix IH d := match d with
    | ARRAY l => H6 l _ | MAP l => H7 l _ | _ => _ end); auto.
  - induction l; constructor; auto.
  - induction l as [|[k x] l IHl]; constructor; [exact (IH x)|exact IHl].
Qed.

Lemma fold_right_and_Forall {A} (P : A -> Prop) l : fold_right and True (map P l) <-> Forall P l.
Proof. induction l; simpl; [by split|]. rewrite Forall_cons. tauto. Qed.

(** What transitivity says of the comparisons of three values in a row. *)
Definition cmp_trans (c12 c23 c13 : comparison) : Prop :=
  match c12, c23 with
  | Eq, c | c, Eq => c13 = c
  | Lt, Lt => c13 = Lt
  | Gt, Gt => c13 = Gt
  | _, _ => True
  end.

Lemma cmp_trans_strict_r c k : k <> Eq -> cmp_trans c k k.
Proof. by destruct c, k. Qed.

Lemma cmp_trans_strict_l c k : k <> Eq -> cmp_trans k c k.
Proof. by destruct c, k. Qed.

Lemma then_cmp_opp c k : CompOpp (then_cmp c k) = then_cmp (CompOpp c) (CompOpp k).
Proof. by destruct c. Qed.

Lemma then_cmp_trans a b c a' b' c' :
  cmp_trans a b c -> cmp_trans a' b' c' ->
  cmp_trans (then_cmp a a') (then_cmp b b') (then_cmp c c').
Proof.
  destruct a, b; simpl; try (intros ->); auto; try (intros _; by destruct a' || destruct b').
  all: intros H; try destruct a'; try destruct b'; simpl in *; auto.
Qed.

Lemma Zcmp_trans x y z : cmp_trans (Z.compare x y) (Z.compare y z) (Z.compare x z).
Proof.
  destruct (Z.compare_spec x y), (Z.compare_spec y z); subst; simpl; auto;
    first [apply Z.compare_refl | apply Z.compare_lt_iff; lia | apply Z.compare_gt_iff; lia].
Qed.

Lemma Ncmp_trans x y z : cmp_trans (N.compare x y) (N.compare y z) (N.compare x z).
Proof. rewrite <- !N2Z.inj_compare. apply Zcmp_trans. Qed.

Lemma string_cmp_trans s1 s2 s3 :
  cmp_trans (String.compare s1 s2) (String.compare s2 s3) (String.compare s1 s3).
Proof.
  revert s2 s3. induction s1 as [|a s1 IH]; intros [|b s2] [|c s3]; simpl; auto.
  - by destruct (Ascii.compare b c), (String.compare s2 s3).
  - by destruct (Ascii.compare a b), (String.compare s1 s2).
  - exact (then_cmp_trans _ _ _ _ _ _ (Ncmp_trans (N_of_ascii a) (N_of_ascii b) (N_of_ascii c)) (IH s2 s3)).
Qed.

Lemma string_cmp_refl s : String.compare s s = Eq.
Proof.
  induction s as [|a s IH]; simpl; [done|]. unfold Ascii.compare. by rewrite N.compare_refl.
Qed.

Lemma bool_cmp_trans x y z : cmp_trans (bool_cmp x y) (bool_cmp y z) (bool_cmp x z).
Proof. by destruct x, y, z. Qed.

Lemma dbl_cmp_antisym x y : dbl_cmp y x = CompOpp (dbl_cmp x y).
Proof.
  unfold dbl_cmp. destruct x as [| | |[] m e], y as [| | |[] m' e']; simpl;
    repeat match goal with |- context [if ?b then _ else _] => destruct b end; try done;
    rewrite (Z.compare_antisym e e');
    change (Pos.compare_cont Eq m' m) with (Pos.compare m' m); rewrite (Pos.compare_antisym m m');
    change (Pos.compare_cont Eq m m') with (Pos.compare m m');
    destruct (Z.compare e e'); simpl; by rewrite ?CompOpp_involutive.
Qed.

Lemma pos_cmp_trans x y z : cmp_trans (Pos.compare x y) (Pos.compare y z) (Pos.compare x z).
Proof. rewrite !Pos2Z.inj_compare. apply Zcmp_trans. Qed.

Lemma cmp_trans_opp a b c : cmp_trans a b c -> cmp_trans (CompOpp a) (CompOpp b) (CompOpp c).
Proof. destruct a, b; simpl; intros; subst; auto. Qed.

(** The magnitude part of the comparison of two doubles. *)
Lemma magnitude_then e1 e2 m1 m2 :
  match Z.compare e1 e2 with
  | Eq => Pos.compare_cont Eq m1 m2 | Lt => Lt | Gt => Gt
  end = then_cmp (Z.compare e1 e2) (Pos.compare m1 m2).
Proof. by destruct (Z.compare e1 e2). Qed.

Lemma magnitude_opp e1 e2 m1 m2 :
  match Z.compare e1 e2 with
  | Eq => CompOpp (Pos.compare_cont Eq m1 m2) | Lt => Gt | Gt => Lt
  end = CompOpp (then_cmp (Z.compare e1 e2) (Pos.compare m1 m2)).
Proof. by destruct (Z.compare e1 e2). Qed.

Lemma dbl_cmp_trans x y z :
  x <> S754_nan -> y <> S754_nan -> z <> S754_nan ->
  cmp_trans (dbl_cmp x y) (dbl_cmp y z) (dbl_cmp x z).
Proof.
  intros Hx Hy Hz. unfold dbl_cmp.
  destruct x as [|[]| |[] m e], y as [|[]| |[] m' e'], z as [|[]| |[] m'' e'']; try done; simpl;
    rewrite ?magnitude_then, ?magnitude_opp;
    repeat match goal with
    | |- context [if ?b then _ else _] => destruct b
    | |- cmp_trans _ Lt Lt => by destruct (CompOpp _) || by destruct (then_cmp _ _)
    end; try done;
    try (by destruct (then_cmp _ _)); try (by destruct (CompOpp _)).
  - apply cmp_trans_opp, then_cmp_trans; [apply Zcmp_trans|apply pos_cmp_trans].
  - apply then_cmp_trans; [apply Zcmp_trans|apply pos_cmp_trans].
Qed.

Lemma max_list_map {A} (f : A -> nat) l a : a ∈ l -> (f a <= max_list (map f l))%nat.
Proof. intros H. apply max_list_elem_of_le, list_elem_of_In, in_map. by apply list_elem_of_In. Qed.

Lemma list_cmp_antisym {A} (cmp : A -> A -> comparison) l1 l2 :
  Forall (fun a => forall b, cmp b a = CompOpp (cmp a b)) l1 ->
  list_cmp cmp l2 l1 = CompOpp (list_cmp cmp l1 l2).
Proof.
  intros H. revert l2. induction H as [|a l1 Ha _ IH]; intros [|b l2]; simpl; try done.
  by rewrite then_cmp_opp, Ha, IH.
Qed.

Lemma list_cmp_trans {A} (P : A -> Prop) (cmp : A -> A -> comparison) l1 l2 l3 :
  Forall (fun a => forall b c, P a -> P b -> P c -> cmp_trans (cmp a b) (cmp b c) (cmp a c)) l1 ->
  Forall P l1 -> Forall P l2 -> Forall P l3 ->
  cmp_trans (list_cmp cmp l1 l2) (list_cmp cmp l2 l3) (list_cmp cmp l1 l3).
Proof.
  intros H. revert l2 l3. induction H as [|a l1 Ha _ IH]; intros l2 l3 H1 H2 H3;
    destruct H2 as [|b l2], H3 as [|c l3]; simpl; try done;
    try (by destruct (then_cmp _ _)).
  apply Forall_cons_1 in H1 as [??]. apply then_cmp_trans; auto.
Qed.

Lemma dvar_cmp_antisym d other : dvar_cmp other d = CompOpp (dvar_cmp d other).
Proof.
  revert other. induction d as [|v|v|v|v| |l IH|l IH] using dvar_ind'; intros []; simpl; try done.
  - apply Z.compare_antisym.
  - apply dbl_cmp_antisym.
  - apply String.compare_antisym.
  - by destruct v, value.
  - by apply list_cmp_antisym.
  - apply list_cmp_antisym. eapply Forall_impl; [exact IH|]. intros [k x] Hx [k' y]; simpl in *.
    by rewrite then_cmp_opp, Hx, (String.compare_antisym k' k).
Qed.

Lemma dvar_cmp_trans d e f :
  dvar_no_nan d -> dvar_no_nan e -> dvar_no_nan f ->
  cmp_trans (dvar_cmp d e) (dvar_cmp e f) (dvar_cmp d f).
Proof.
  revert e f. induction d as [|v|v|v|v| |l IH|l IH] using dvar_ind'; intros e f Hd He Hf;
    destruct e, f; simpl in *; try done; try apply Zcmp_trans;
    try (apply cmp_trans_strict_r; done); try (apply cmp_trans_strict_l; done).
  - apply dbl_cmp_trans; intros ->; done.
  - apply string_cmp_trans.
  - apply bool_cmp_trans.
  - rewrite fold_right_and_Forall in Hd, He, Hf. by apply (list_cmp_trans dvar_no_nan).
  - rewrite fold_right_and_Forall in Hd, He, Hf.
    apply (list_cmp_trans (fun p => dvar_no_nan p.2)); [|done..].
    eapply Forall_impl; [exact IH|]. intros [k x] Hx [k' y] [k'' z] ???; simpl in *.
    apply then_cmp_trans; [apply string_cmp_trans|auto].
Qed.

Lemma list_cmp_eq {A} (P : A -> Prop) (cmp : A -> A -> comparison) l1 l2 :
  Forall (fun a => forall b, P a -> P b -> cmp a b = Eq -> a = b) l1 ->
  Forall P l1 -> Forall P l2 -> list_cmp cmp l1 l2 = Eq -> l1 = l2.
Proof.
  intros H. revert l2. induction H as [|a l1 Ha _ IH]; intros l2 H1 H2; destruct H2 as [|b l2];
    simpl; try done.
  apply Forall_cons_1 in H1 as [??]. destruct (cmp a b) eqn:E; simpl; try done.
  intros. f_equal; auto.
Qed.

Lemma list_cmp_refl {A} (cmp : A -> A -> comparison) l :
  Forall (fun a => cmp a a = Eq) l -> list_cmp cmp l l = Eq.
Proof. induction 1 as [|a l Ha _ IH]; simpl; [done|]. by rewrite Ha. Qed.

Lemma dvar_cmp_eq d e : dvar_no_double d -> dvar_no_double e -> dvar_cmp d e = Eq -> d = e.
Proof.
  revert e. induction d as [|v|v|v|v| |l IH|l IH] using dvar_ind'; intros e Hd He;
    destruct e; simpl in *; try done; intros H.
  - f_equal. by apply Z.compare_eq_iff.
  - f_equal. by apply String.compare_eq_iff.
  - by destruct v, value.
  - rewrite fold_right_and_Forall in Hd, He. f_equal. by apply (list_cmp_eq dvar_no_double) in H.
  - rewrite fold_right_and_Forall in Hd, He. f_equal.
    apply (list_cmp_eq (fun p => dvar_no_double p.2)) in H; [done| |done..].
    eapply Forall_impl; [exact IH|]. intros [k x] Hx [k' y] ??; simpl in *.
    destruct (String.compare k k') eqn:E; simpl; try done.
    apply String.compare_eq_iff in E. subst. intros. f_equal. auto.
Qed.

Lemma dvar_cmp_refl d : dvar_no_double d -> dvar_cmp d d = Eq.
Proof.
  induction d as [|v|v|v|v| |l IH|l IH] using dvar_ind'; simpl; try done; intros Hd.
  - apply Z.compare_refl.
  - apply string_cmp_refl.
  - by destruct v.
  - rewrite fold_right_and_Forall in Hd. apply list_cmp_refl.
    apply Forall_forall. intros x Hx. rewrite Forall_forall in IH, Hd. auto.
  - rewrite fold_right_and_Forall in Hd. apply list_cmp_refl.
    apply Forall_forall. intros p Hp. rewrite Forall_forall in IH, Hd.
    rewrite string_cmp_refl. simpl. auto.
Qed.

Definition cmp_to_Z (c : comparison) : Z := match c with Lt => -1 | Eq => 0 | Gt => 1 end.
Definition is_lt (c : comparison) : bool := match c with Lt => true | _ => false end.

Lemma cmp_to_Z_lt c : (cmp_to_Z c <? 0) = is_lt c.
Proof. by destruct c. Qed.

Lemma compare_by_spec {A} (lt : A -> A -> bool) c a b :
  lt a b = is_lt c -> lt b a = is_lt (CompOpp c) -> compare_by lt a b = cmp_to_Z c.
Proof. unfold compare_by. intros -> ->. by destruct c. Qed.

(** The comparison by [<] alone decides the three-way one. *)
Lemma lexicographical_compare_spec {A} (lt : A -> A -> bool) (cmp : A -> A -> comparison) l1 l2 :
  (forall a b, a ∈ l1 -> b ∈ l2 -> lt a b = is_lt (cmp a b) /\ lt b a = is_lt (CompOpp (cmp a b))) ->
  lexicographical_compare lt l1 l2 = is_lt (list_cmp cmp l1 l2).
Proof.
  revert l2. induction l1 as [|a l1 IH]; intros [|b l2] H; simpl; try done.
  destruct (H a b) as [-> ->]; [by left..|].
  rewrite IH by (intros x y Hx Hy; apply H; by right). by destruct (cmp a b).
Qed.

Lemma list_compare_by {A} (lt : A -> A -> bool) (cmp : A -> A -> comparison) l1 l2 :
  (forall a b, a ∈ l1 -> b ∈ l2 -> lt a b = is_lt (cmp a b) /\ lt b a = is_lt (cmp b a)) ->
  (forall a b, cmp b a = CompOpp (cmp a b)) ->
  compare_by (lexicographical_compare lt) l1 l2 = cmp_to_Z (list_cmp cmp l1 l2).
Proof.
  intros H Hanti. apply compare_by_spec.
  - apply lexicographical_compare_spec. intros a b Ha Hb. rewrite <- Hanti. auto.
  - rewrite <- list_cmp_antisym by (apply Forall_true; auto).
    apply lexicographical_compare_spec. intros a b Ha Hb. rewrite <- Hanti. destruct (H b a); auto.
Qed.

Lemma compare_fuel_spec n d other :
  (dvar_depth d < n \/ dvar_depth other < n)%nat ->
  dvar_compare_fuel n d other = cmp_to_Z (dvar_cmp d other).
Proof.
  revert d other. induction n as [|n IH]; intros d other Hn; [lia|].
  assert (Hlt : forall a b, (dvar_depth a < n \/ dvar_depth b < n)%nat ->
            (dvar_compare_fuel n a b <? 0) = is_lt (dvar_cmp a b)).
  { intros a b Hab. by rewrite IH, cmp_to_Z_lt. }
  destruct d, other; simpl; try done; simpl in Hn.
  - apply compare_by_spec; [done|]. by rewrite <- Z.compare_antisym.
  - apply compare_by_spec.
    + unfold SFltb, dbl_cmp. by destruct (SFcompare _ _) as [[]|].
    + rewrite <- dbl_cmp_antisym. unfold SFltb, dbl_cmp. by destruct (SFcompare _ _) as [[]|].
  - apply compare_by_spec; [done|]. by rewrite <- String.compare_antisym.
  - by destruct value, value0.
  - apply list_compare_by; [|intros; apply dvar_cmp_antisym].
    intros a b Ha Hb.
    pose proof (max_list_map dvar_depth array a Ha). pose proof (max_list_map dvar_depth array0 b Hb).
    split; apply Hlt; lia.
  - apply list_compare_by.
    + intros p q Hp Hq. unfold pair_lt.
      pose proof (max_list_map (fun p => dvar_depth p.2) map p Hp).
      pose proof (max_list_map (fun p => dvar_depth p.2) map0 q Hq). cbn beta in *.
      rewrite !Hlt by lia.
      unfold String.ltb. rewrite (String.compare_antisym q.1 p.1).
      by destruct (String.compare p.1 q.1).
    + intros p q. by rewrite then_cmp_opp, <- String.compare_antisym, <- dvar_cmp_antisym.
Qed.

Lemma dvar_compare_spec d other : dvar_compare d other = cmp_to_Z (dvar_cmp d other).
Proof. apply compare_fuel_spec. lia. Qed.

(* ------------------------------------------------------------------ *)
(** * Theorems *)
(* ------------------------------------------------------------------ *)

(** [dvar_t::compare] orders dynamic variables of any type and nesting: it
    is antisymmetric; when no NaN is inside it is transitive, strictly so when
    one side is strict; and without doubles only equal values compare equal. *)
Theorem dvar_compare_order d e f :
  dvar_compare e d = - dvar_compare d e /\
  (dvar_no_nan d -> dvar_no_nan e -> dvar_no_nan f ->
   dvar_compare d e <= 0 -> dvar_compare e f <= 0 ->
   dvar_compare d f <= 0 /\
   (dvar_compare d f = 0 -> dvar_compare d e = 0 /\ dvar_compare e f = 0)) /\
  (dvar_no_double d -> dvar_no_double e -> (dvar_compare d e = 0 <-> d = e)).
Proof.
  rewrite !dvar_compare_spec. split; [|split].
  - rewrite dvar_cmp_antisym. by destruct (dvar_cmp d e).
  - intros Hd He Hf. pose proof (dvar_cmp_trans d e f Hd He Hf) as H.
    destruct (dvar_cmp d e), (dvar_cmp e f); simpl in *; try lia; rewrite H; simpl; lia.
  - intros Hd He. split.
    + intros H. apply dvar_cmp_eq; [done..|]. by destruct (dvar_cmp d e).
    + intros ->. rewrite (dvar_cmp_refl e He). done.
Qed.

(** [dvar_int_t]'s conversions from its 64-bit value: the one to
    [int64_t] always succeeds; the one to [int32_t] fails above the type's
    maximum, keeps what fits, and silently truncates what is below the
    minimum; the one to a 64-bit [size_t] fails for every value that fits and
    only lets negative values through, wrapped. *)
Theorem dvar_int_conversions v :
  - 2 ^ 63 <= v < 2 ^ 63 ->
  to_int64 v = Ok v /\
  (2 ^ 31 <= v -> to_int32 v = AssertFail) /\
  (- 2 ^ 31 <= v < 2 ^ 31 -> to_int32 v = Ok v) /\
  (v < - 2 ^ 31 -> exists u, to_int32 v = Ok u /\ u <> v) /\
  (0 <= v -> to_size_t v = AssertFail) /\
  (v < 0 -> to_size_t v = Ok (2 ^ 64 + v)).
Proof.
  intros Hv.
  assert (Hsz : to_signed 64 (2 ^ 64 - 1) = -1) by reflexivity.
  assert (H32 : to_signed 64 (2 ^ 31 - 1) = 2 ^ 31 - 1) by reflexivity.
  assert (H64 : to_signed 64 (2 ^ 63 - 1) = 2 ^ 63 - 1) by reflexivity.
  unfold to_int64, to_int32, to_size_t, is_int64_ok, is_int32_ok, is_size_t_ok.
  rewrite Hsz, H32, H64. repeat split.
  - rewrite (proj2 (Z.leb_le _ _)) by lia. done.
  - intros. rewrite (proj2 (Z.leb_gt _ _)) by lia. done.
  - intros. rewrite (proj2 (Z.leb_le _ _)) by lia. simpl. by rewrite to_signed_small.
  - intros. rewrite (proj2 (Z.leb_le _ _)) by lia. exists (to_signed 32 v). split; [done|].
    unfold to_signed, wrap. pose proof (Z.mod_pos_bound v (2 ^ 32) ltac:(lia)).
    destruct (decide _); lia.
  - intros. rewrite (proj2 (Z.leb_gt _ _)) by lia. done.
  - intros. rewrite (proj2 (Z.leb_le _ _)) by lia. simpl. f_equal.
    unfold wrap. rewrite <- (Z_mod_plus_full v 1). rewrite Z.mod_small; lia.
Qed.

(* ------------------------------------------------------------------ *)
(** * Maps *)
(* ------------------------------------------------------------------ *)

(** The order of the keys of a map. *)
Definition key_lt (p q : string * dvar_t) : Prop := String.ltb p.1 q.1 = true.

Lemma ltb_not_flip s t : String.ltb s t = true -> String.ltb t s = false /\ String.eqb s t = false.
Proof.
  unfold String.ltb. rewrite (String.compare_antisym t s). intros H.
  destruct (String.eqb_spec s t); [subst; by rewrite string_cmp_refl in H|].
  by destruct (String.compare s t).
Qed.

Lemma map_insert_last acc k v :
  Forall (fun p => key_lt p (k, v)) acc -> dvar_map_insert k v acc = Ok (acc ++ [(k, v)]).
Proof.
  intros H. assert (Hf : dvar_map_find k acc = None).
  { induction H as [|[k' x] acc Hk _ IH]; simpl; [done|].
    destruct (ltb_not_flip k' k Hk) as [_ ->]. done. }
  unfold dvar_map_insert, dvar_map_contain. rewrite Hf. simpl. f_equal. clear Hf.
  induction H as [|[k' x] acc Hk _ IH]; simpl; [done|].
  destruct (ltb_not_flip k' k Hk) as [-> ->]. by rewrite IH.
Qed.

Lemma ltb_trans s t u : String.ltb s t = true -> String.ltb t u = true -> String.ltb s u = true.
Proof.
  unfold String.ltb. pose proof (string_cmp_trans s t u) as H.
  destruct (String.compare s t), (String.compare t u); simpl in *; try done. by rewrite H.
Qed.

Lemma std_map_insert_Forall (P : string * dvar_t -> Prop) k d l :
  P (k, d) -> Forall P l -> Forall P (std_map_insert k d l).
Proof.
  intros Hp. induction 1 as [|[k' x] l Hx Hl IH]; simpl; [by repeat constructor|].
  destruct (String.ltb k k'); [by repeat constructor|]. destruct (String.eqb k' k); by constructor.
Qed.

Lemma std_map_insert_sorted k d l :
  StronglySorted key_lt l -> StronglySorted key_lt (std_map_insert k d l).
Proof.
  induction 1 as [|[k' x] l Hs IH Hf]; simpl; [by repeat constructor|].
  destruct (String.ltb k k') eqn:E1.
  - constructor; [by constructor|]. constructor; [done|].
    eapply Forall_impl; [exact Hf|]. intros [k2 y] H. by apply (ltb_trans k k').
  - destruct (String.eqb_spec k' k); [by constructor|]. constructor; [done|].
    apply std_map_insert_Forall; [|done]. unfold key_lt, String.ltb in *. simpl.
    rewrite (String.compare_antisym k' k). destruct (String.compare k k') eqn:E; try done.
    apply String.compare_eq_iff in E. by subst.
Qed.

(* ------------------------------------------------------------------ *)
(** * Witnesses *)
(* ------------------------------------------------------------------ *)

Lemma dvar_int_conversions_witness :
  to_int64 42 = Ok 42 /\ to_size_t 42 = AssertFail.
Proof.
  destruct (dvar_int_conversions 42 ltac:(lia)) as (H1 & _ & _ & _ & H2 & _).
  split; [exact H1|apply H2; lia].
Defined.

Definition dvar_sample : dvar_t :=
  MAP [("bar", STRING "spam"); ("foo", ARRAY [INTEGER (-3); BOOLEAN true; NIL])]%string.

Lemma dvar_compare_order_witness :
  dvar_no_double dvar_sample /\
  (dvar_compare dvar_sample dvar_sample = 0 <-> dvar_sample = dvar_sample) /\
  dvar_compare (ARRAY [INTEGER 1]) dvar_sample <= 0.
Proof.
  assert (Hs : dvar_no_double dvar_sample) by (simpl; tauto).
  split; [exact Hs|]. split.
  - apply (dvar_compare_order dvar_sample dvar_sample NONE); exact Hs.
  - apply (dvar_compare_order (ARRAY [INTEGER 1]) (ARRAY [INTEGER 2]) dvar_sample);
      [simpl; tauto..|by vm_compute|by vm_compute].
Defined.
