(* ===== verification/Bencode.v ===== *)
(** Bencode: [bencode_t] (src/src/neoip_netutils/bencode/), the text form of
    [dvar_t] in torrent files, tracker replies and peer messages.

    The parser reads a [std::istringstream] and tests its [eof] and [bad] bits
    only: a stream that failed otherwise leaves the variables of the parser
    uninitialised, which is [Fault] here.  [to_dvar_iss] and its two loops take
    fuel; [fuel_enough] shows that twice the length of the input is enough. *)
From Stdlib Require Import Ascii DecimalString DecimalN DecimalFacts.
From S2P Require Import Prelude Text Dvar.

(* ------------------------------------------------------------------ *)
(** * Encoding *)
(* ------------------------------------------------------------------ *)

(** [size() << ":" << str]. *)
Definition enc_str (s : string) : string :=
  (dec_string (Z.of_nat (String.length s)) ++ ":" ++ s)%string.

Section concat_outcome.
Context {A : Type} (f : A -> outcome string).

(** A loop that writes each element to the stream. *)
Fixpoint concat_outcome (l : list A) : outcome string :=
  match l with
  | [] => Ok ""%string
  | a :: l' =>
    let* s := f a in
    let* s' := concat_outcome l' in
    Ok (s ++ s')%string
  end.
End concat_outcome.

Fixpoint from_dvar (dvar : dvar_t) : outcome string :=
  match dvar with
  | INTEGER value =>
    let* v := to_int64 value in
    Ok ("i" ++ dec_string_signed v ++ "e")%string
  | STRING s => Ok (enc_str s)
  | ARRAY l =>
    let* s := concat_outcome from_dvar l in
    Ok ("l" ++ s ++ "e")%string
  | MAP inmap =>
    let* s := concat_outcome (fun p => let* i := from_dvar p.2 in Ok (enc_str p.1 ++ i)%string) inmap in
    Ok ("d" ++ s ++ "e")%string
  | _ => AssertFail
  end.

(* ------------------------------------------------------------------ *)
(** * Parsing *)
(* ------------------------------------------------------------------ *)

Definition digit_value (c : ascii) : Z := Z.of_nat (nat_of_ascii c) - 48.

(** The [do ... while( c_digit != ':' )] loop that reads a length from its
    second character on; [None] when the parser gives up. *)
Fixpoint len_loop (m : nat) (len : Z) (i : istream) : outcome (option Z * istream) :=
  match m with
  | O => Fault
  | S m' =>
    let (c_digit, i1) := iss_get i in
    if eofbit i1 then Ok (None, i1)
    else match c_digit with
    | None => Fault
    | Some c =>
      let len1 := if is_digit c then len * 10 + digit_value c else len in
      if 2 ^ 31 <=? len1 then Fault
      else if negb (Ascii.eqb c ":") && negb (is_digit c) then Ok (None, i1)
      else if Ascii.eqb c ":" then Ok (Some len1, i1)
      else len_loop m' len1 i1
    end
  end.

(** [case '0'] to [case '9']. *)
Definition parse_str (c_begin : ascii) (i : istream) : outcome (dvar_t * istream) :=
  let* (len, i1) := len_loop (S (String.length (unread i))) (digit_value c_begin) i in
  match len with
  | None => Ok (NONE, i1)
  | Some len =>
    let (buffer, i2) := iss_read (Z.to_nat len) i1 in
    if eofbit i2 then Ok (NONE, i2) else Ok (STRING buffer, i2)
  end.

(** [case 'i']. *)
Definition parse_int (i : istream) : outcome (dvar_t * istream) :=
  let (val, i1) := iss_int64 i in
  let (c_end, i2) := iss_char i1 in
  if eofbit i2 then Ok (NONE, i2)
  else match c_end, val with
  | Some c, Some v => if Ascii.eqb c "e" then Ok (INTEGER v, i2) else Ok (NONE, i2)
  | _, _ => Fault
  end.

Section to_dvar.
(** [iss.str()], the whole string of the stream. *)
Context (str : string).

Fixpoint to_dvar_iss (n : nat) (i : istream) : outcome (dvar_t * istream) :=
  match n with
  | O => Fault
  | S n' =>
    assert! negb (String.eqb str "") in
    let (c, i1) := iss_char i in
    if eofbit i1 then Ok (NONE, i1)
    else match c with
    | None => Fault
    | Some c_begin =>
      if Ascii.eqb c_begin "i" then parse_int i1
      else if is_digit c_begin then parse_str c_begin i1
      else if Ascii.eqb c_begin "l" then arr_loop n' [] i1
      else if Ascii.eqb c_begin "d" then map_loop n' [] i1
      else Ok (NONE, i1)
    end
  end
with arr_loop (n : nat) (arr : list dvar_t) (i : istream) : outcome (dvar_t * istream) :=
  match n with
  | O => Fault
  | S n' =>
    let (c, i1) := iss_get i in
    if eofbit i1 then Ok (NONE, i1)
    else match c with
    | None => Fault
    | Some c_end =>
      if Ascii.eqb c_end "e" then Ok (ARRAY arr, i1)
      else
        let* (tmp, i2) := to_dvar_iss n' (iss_putback c_end i1) in
        if (dvar_is_null tmp : bool) then Ok (NONE, i2)
        else arr_loop n' (dvar_arr_append tmp arr) i2
    end
  end
with map_loop (n : nat) (map : list (string * dvar_t)) (i : istream) : outcome (dvar_t * istream) :=
  match n with
  | O => Fault
  | S n' =>
    let (c, i1) := iss_get i in
    if eofbit i1 then Ok (NONE, i1)
    else match c with
    | None => Fault
    | Some c_end =>
      if Ascii.eqb c_end "e" then Ok (MAP map, i1)
      else
        let* (tmp_key, i2) := to_dvar_iss n' (iss_putback c_end i1) in
        match tmp_key with
        | STRING key =>
          let* (tmp_var, i3) := to_dvar_iss n' i2 in
          if (dvar_is_null tmp_var : bool) then Ok (NONE, i3)
          else
            let* map1 := dvar_map_insert key tmp_var map in
            map_loop n' map1 i3
        | _ => Ok (NONE, i2)
        end
    end
  end.
End to_dvar.

Definition to_dvar (str : string) : outcome dvar_t :=
  let* (d, _) := to_dvar_iss str (2 * String.length str + 1) (istringstream str) in Ok d.

(* ------------------------------------------------------------------ *)
(** * Well-formed values *)
(* ------------------------------------------------------------------ *)


(** What the format can carry: 64-bit integers, strings whose length fits an
    [int], maps sorted by key. *)
Fixpoint bencodable (d : dvar_t) : Prop :=
  match d with
  | INTEGER v => - 2 ^ 63 <= v < 2 ^ 63
  | STRING s => Z.of_nat (String.length s) < 2 ^ 31
  | ARRAY l => fold_right and True (map bencodable l)
  | MAP l =>
    StronglySorted key_lt l /\
    fold_right and True (map (fun p => Z.of_nat (String.length p.1) < 2 ^ 31 /\ bencodable p.2) l)
  | _ => False
  end.

(** A stream that did not fail. *)
Definition iss_ok (s : string) : istream := Istream s false false.

(* ------------------------------------------------------------------ *)
(** * Lemmas on strings and numbers *)
(* ------------------------------------------------------------------ *)

#[local] Arguments String.append : simpl nomatch.

Lemma string_split_app s r : string_split (String.length s) (s ++ r) = (s, r).
Proof. induction s as [|a s IH]; simpl; [by destruct r|]. by rewrite IH. Qed.

Lemma iss_get_cons c r : iss_get (iss_ok (String c r)) = (Some c, iss_ok r).
Proof. done. Qed.

Lemma iss_sentry_cons c r :
  is_space c = false -> iss_sentry (iss_ok (String c r)) = (true, iss_ok (String c r)).
Proof. intros H. unfold iss_sentry. simpl. by rewrite H. Qed.

Lemma iss_char_cons c r :
  is_space c = false -> iss_char (iss_ok (String c r)) = (Some c, iss_ok r).
Proof. intros H. unfold iss_char. by rewrite iss_sentry_cons. Qed.

(** The value of decimal digits read one at a time from [acc]. *)
Fixpoint uint_fold (acc : Z) (u : Decimal.uint) : Z :=
  match u with
  | Decimal.Nil => acc
  | Decimal.D0 u => uint_fold (acc * 10) u
  | Decimal.D1 u => uint_fold (acc * 10 + 1) u
  | Decimal.D2 u => uint_fold (acc * 10 + 2) u
  | Decimal.D3 u => uint_fold (acc * 10 + 3) u
  | Decimal.D4 u => uint_fold (acc * 10 + 4) u
  | Decimal.D5 u => uint_fold (acc * 10 + 5) u
  | Decimal.D6 u => uint_fold (acc * 10 + 6) u
  | Decimal.D7 u => uint_fold (acc * 10 + 7) u
  | Decimal.D8 u => uint_fold (acc * 10 + 8) u
  | Decimal.D9 u => uint_fold (acc * 10 + 9) u
  end.

Lemma uint_fold_pos u p : uint_fold (Z.pos p) u = Z.pos (Pos.of_uint_acc u p).
Proof.
  revert p. induction u as [|u IH|u IH|u IH|u IH|u IH|u IH|u IH|u IH|u IH|u IH]; intros p;
    cbn [uint_fold Pos.of_uint_acc]; [done|..]; rewrite <- IH; f_equal; lia.
Qed.

Lemma uint_fold_value u : uint_fold 0 u = Z.of_N (N.of_uint u).
Proof.
  induction u as [|u IH|u _|u _|u _|u _|u _|u _|u _|u _|u _]; [done|exact IH|..];
    cbn [uint_fold]; unfold N.of_uint; cbn [Pos.of_uint]; apply uint_fold_pos.
Qed.

Lemma uint_fold_ge acc u : 0 <= acc -> acc <= uint_fold acc u.
Proof.
  revert acc. induction u as [|u IH|u IH|u IH|u IH|u IH|u IH|u IH|u IH|u IH|u IH];
    intros acc Hacc; cbn [uint_fold]; [lia|..];
    (etransitivity; [|apply IH; lia]); lia.
Qed.

(** The number written by [oss << v], as decimal digits. *)
Lemma dec_string_uint v :
  0 <= v -> exists u, dec_string v = NilEmpty.string_of_uint u /\ u <> Decimal.Nil /\ uint_fold 0 u = v.
Proof.
  intros Hv. unfold dec_string, NilZero.string_of_uint.
  assert (H : uint_fold 0 (N.to_uint (Z.to_N v)) = v).
  { rewrite uint_fold_value, DecimalN.Unsigned.of_to. lia. }
  destruct (N.to_uint (Z.to_N v)) as [|u|u|u|u|u|u|u|u|u|u] eqn:E.
  { exists (Decimal.D0 Decimal.Nil). by rewrite <- H. }
  all: eexists; split; [reflexivity|]; split; [done|exact H].
Qed.

Lemma digit_not_colon c : is_digit c = true -> Ascii.eqb c ":" = false.
Proof. intros H. destruct (Ascii.eqb_spec c ":"); [by subst|done]. Qed.

Lemma len_loop_digit c acc r m :
  is_digit c = true -> acc * 10 + digit_value c < 2 ^ 31 ->
  len_loop (S m) acc (iss_ok (String c r)) = len_loop m (acc * 10 + digit_value c) (iss_ok r).
Proof.
  intros Hc Hlt. cbn [len_loop]. rewrite iss_get_cons. cbn [eofbit iss_ok].
  rewrite Hc, (digit_not_colon c Hc). rewrite (proj2 (Z.leb_gt _ _)) by lia. done.
Qed.

Ltac digit_values :=
  repeat match goal with |- context [digit_value ?c] =>
    let v := eval vm_compute in (digit_value c) in change (digit_value c) with v end.

Lemma len_loop_digits u acc r m :
  0 <= acc -> uint_fold acc u < 2 ^ 31 ->
  (String.length (NilEmpty.string_of_uint u) < m)%nat ->
  len_loop m acc (iss_ok (NilEmpty.string_of_uint u ++ String ":" r)) = Ok (Some (uint_fold acc u), iss_ok r).
Proof.
  revert acc m. induction u as [|u IH|u IH|u IH|u IH|u IH|u IH|u IH|u IH|u IH|u IH];
    intros acc [|m] Hacc Hlt Hm; cbn [NilEmpty.string_of_uint String.length] in *; try lia.
  1: { simpl. cbn [uint_fold] in *. by rewrite (proj2 (Z.leb_gt _ _)) by lia. }
  all: cbn [String.append uint_fold] in *;
    match type of Hlt with uint_fold ?a ?d < _ => pose proof (uint_fold_ge a d ltac:(lia)) end;
    rewrite len_loop_digit; [|done|digit_values; lia];
    digit_values; rewrite ?Z.add_0_r; apply IH; lia.
Qed.

(** A length and its colon are read back by the parser of strings. *)
Lemma parse_str_enc s r :
  Z.of_nat (String.length s) < 2 ^ 31 ->
  exists c d, enc_str s = String c d /\ is_digit c = true /\
    parse_str c (iss_ok (d ++ r)) = Ok (STRING s, iss_ok r).
Proof.
  intros Hs. destruct (dec_string_uint (Z.of_nat (String.length s)) ltac:(lia)) as (u & Hu & Hne & Hv).
  unfold enc_str. rewrite Hu.
  destruct u as [|u|u|u|u|u|u|u|u|u|u]; [done|..];
    cbn [NilEmpty.string_of_uint String.append]; do 2 eexists; (split; [reflexivity|]); (split; [done|]);
    unfold parse_str; rewrite string_app_assoc; cbn [String.append uint_fold] in *; cbn [unread iss_ok];
    rewrite Z.mul_0_l, ?Z.add_0_l in Hv.
  all: digit_values.
  all: (rewrite (len_loop_digits _ _ _ _); [|lia|lia|rewrite string_length_app; simpl; lia]).
  all: cbn [mbind outcome_bind]; rewrite Hv, Nat2Z.id.
  all: unfold iss_read; cbn [iss_good iss_ok unread eofbit failbit orb negb]; rewrite string_split_app, Nat.ltb_irrefl; done.
Qed.

Definition fits_int64 (v : Z) : bool := (- 2 ^ 63 <=? v) && (v <? 2 ^ 63).

Lemma digit_not_sign c : is_digit c = true -> c <> "-"%char /\ c <> "+"%char.
Proof. intros H. by split; intros ->. Qed.

(** Reading a written number: its value when it fits, a failed stream
    otherwise. *)
Lemma iss_int64_dec v c r :
  is_digit c = false ->
  exists k, iss_int64 (iss_ok (dec_string_signed v ++ String c r)) =
    (Some k, Istream (String c r) false (negb (fits_int64 v))) /\ (fits_int64 v = true -> k = v).
Proof.
  intros Hc.
  assert (Hspan : forall u, string_span is_digit (dec_string u ++ String c r) = (dec_string u, String c r)).
  { intros u. apply string_span_all; [apply dec_string_digits|done]. }
  assert (Hpos : forall u, 0 <= u -> Z.of_N (N.of_uint (N.to_uint (Z.to_N u))) = u).
  { intros u Hu. rewrite DecimalN.Unsigned.of_to. lia. }
  assert (Hcmp : forall u, exists k,
    (if u <? - 2 ^ 63 then (Some (- 2 ^ 63), Istream (String c r) false true)
     else if 2 ^ 63 <=? u then (Some (2 ^ 63 - 1), Istream (String c r) false true)
     else (Some u, Istream (String c r) false false)) =
    (Some k, Istream (String c r) false (negb (fits_int64 u))) /\ (fits_int64 u = true -> k = u)).
  { intros u. unfold fits_int64. destruct (Z.ltb_spec u (- 2 ^ 63)).
    { eexists. rewrite (proj2 (Z.leb_gt (- 2 ^ 63) u)) by lia. by split. }
    rewrite (proj2 (Z.leb_le (- 2 ^ 63) u)) by lia. rewrite Z.leb_antisym.
    destruct (Z.ltb_spec u (2 ^ 63)); simpl; by eexists. }
  unfold dec_string_signed. destruct (Z.ltb_spec v 0) as [Hv|Hv].
  - destruct (Hcmp v) as (k & Hk & Hfit). exists k. split; [|done]. rewrite <- Hk.
    unfold iss_int64. cbn [String.append]. rewrite iss_sentry_cons by done.
    cbn [unread iss_ok read_sign Ascii.eqb Bool.eqb]. rewrite Hspan.
    destruct (dec_string_cons (- v)) as (a & d & E & _).
    pose proof (dec_string_read (- v) ltac:(lia)) as Hr. rewrite E in *.
    rewrite Hr, Hpos by lia. by rewrite Z.opp_involutive.
  - destruct (Hcmp v) as (k & Hk & Hfit). exists k. split; [|done]. rewrite <- Hk.
    destruct (dec_string_cons v) as (a & d & E & Ha).
    pose proof (Hspan v) as Hs. pose proof (dec_string_read v Hv) as Hr. rewrite E in *.
    unfold iss_int64. cbn [String.append] in *. rewrite iss_sentry_cons by (by apply digit_not_space).
    cbn [unread iss_ok].
    destruct (digit_not_sign a Ha) as [H1 H2]. unfold read_sign.
    rewrite (proj2 (Ascii.eqb_neq a "-") H1), (proj2 (Ascii.eqb_neq a "+") H2).
    rewrite Hs, Hr. by rewrite Hpos.
Qed.

Lemma parse_int_enc v r :
  fits_int64 v = true ->
  parse_int (iss_ok (dec_string_signed v ++ String "e" r)) = Ok (INTEGER v, iss_ok r).
Proof.
  intros Hv. destruct (iss_int64_dec v "e" r eq_refl) as (k & Hk & Hkv).
  unfold parse_int. rewrite Hk, Hkv, Hv by done. simpl. done.
Qed.

Lemma parse_int_overflow v r :
  fits_int64 v = false ->
  parse_int (iss_ok (dec_string_signed v ++ String "e" r)) = Fault.
Proof.
  intros Hv. destruct (iss_int64_dec v "e" r eq_refl) as (k & Hk & _).
  unfold parse_int. by rewrite Hk, Hv.
Qed.

(* ------------------------------------------------------------------ *)
(** * Round trip *)
(* ------------------------------------------------------------------ *)

(** What the encoding [s] of [d] is for the parser. *)
Definition parses_back (s : string) (d : dvar_t) : Prop :=
  (exists c s', s = String c s' /\ c <> "e"%char) /\
  forall str n r, str <> ""%string -> (2 * String.length s <= n)%nat ->
    to_dvar_iss str n (iss_ok (s ++ r)) = Ok (d, iss_ok r).

(** The dispatch on the first character. *)
Lemma to_dvar_iss_cons str n c r :
  str <> ""%string -> is_space c = false ->
  to_dvar_iss str (S n) (iss_ok (String c r)) =
    if Ascii.eqb c "i" then parse_int (iss_ok r)
    else if is_digit c then parse_str c (iss_ok r)
    else if Ascii.eqb c "l" then arr_loop str n [] (iss_ok r)
    else if Ascii.eqb c "d" then map_loop str n [] (iss_ok r)
    else Ok (NONE, iss_ok r).
Proof.
  intros Hs Hc. cbn [to_dvar_iss]. rewrite (proj2 (String.eqb_neq str "") Hs).
  rewrite iss_char_cons by done. done.
Qed.

Lemma digit_not_letter c : is_digit c = true -> c <> "e"%char /\ Ascii.eqb c "i" = false.
Proof. intros H. split; [by intros ->|]. destruct (Ascii.eqb_spec c "i"); [by subst|done]. Qed.

Lemma str_parses_back s : Z.of_nat (String.length s) < 2 ^ 31 -> parses_back (enc_str s) (STRING s).
Proof.
  intros Hs. destruct (parse_str_enc s "" Hs) as (c & d & E & Hc & _).
  destruct (digit_not_letter c Hc) as [He Hi].
  split; [rewrite E; by do 2 eexists|]. intros str n r Hstr Hn.
  destruct (parse_str_enc s r Hs) as (c' & d' & E' & _ & Hp). rewrite E in E'. simplify_eq.
  rewrite E in Hn |- *. simpl in Hn. destruct n as [|n]; [lia|]. cbn [String.append].
  rewrite to_dvar_iss_cons by (done || by apply digit_not_space). by rewrite Hi, Hc.
Qed.

(** A loop that meets an element: its character is put back and it is read. *)
Lemma arr_loop_elem str n acc s d r :
  str <> ""%string -> parses_back s d -> dvar_is_null d = false -> (2 * String.length s <= n)%nat ->
  arr_loop str (S n) acc (iss_ok (s ++ r)) = arr_loop str n (acc ++ [d]) (iss_ok r).
Proof.
  intros Hstr [(c & s' & -> & Hc) Hp] Hd Hn. cbn [arr_loop String.append]. rewrite iss_get_cons.
  cbn [eofbit iss_ok]. rewrite (proj2 (Ascii.eqb_neq c "e") Hc).
  change (iss_putback c (Istream (s' ++ r) false false)) with (iss_ok (String c s' ++ r)).
  change (iss_putback c (iss_ok (s' ++ r))) with (iss_ok (String c s' ++ r)).
  rewrite Hp by done. simpl. by rewrite Hd.
Qed.

Lemma map_loop_elem str n acc k s d r :
  str <> ""%string -> Z.of_nat (String.length k) < 2 ^ 31 -> parses_back s d -> dvar_is_null d = false ->
  (2 * String.length (enc_str k ++ s) <= n)%nat ->
  map_loop str (S n) acc (iss_ok (enc_str k ++ s ++ r)) =
    let* map1 := dvar_map_insert k d acc in map_loop str n map1 (iss_ok r).
Proof.
  intros Hstr Hk [_ Hp] Hd Hn. rewrite string_length_app in Hn.
  destruct (str_parses_back k Hk) as [(c & s' & E & Hc) Hpk]. rewrite E in *.
  cbn [map_loop String.append]. rewrite iss_get_cons.
  cbn [eofbit iss_ok]. rewrite (proj2 (Ascii.eqb_neq c "e") Hc).
  change (iss_putback c (iss_ok (s' ++ s ++ r))) with (iss_ok (String c s' ++ s ++ r)).
  rewrite Hpk by (done || lia). cbn [mbind outcome_bind]. rewrite Hp by (done || lia).
  cbn [mbind outcome_bind]. by rewrite Hd.
Qed.

Lemma bencodable_not_null d : bencodable d -> dvar_is_null d = false.
Proof. by destruct d. Qed.

Lemma parses_back_length s d : parses_back s d -> (1 <= String.length s)%nat.
Proof. intros [(c & s' & -> & _) _]. simpl. lia. Qed.

Lemma arr_parses_back l :
  Forall (fun d => exists s, from_dvar d = Ok s /\ parses_back s d /\ dvar_is_null d = false) l ->
  exists s, concat_outcome from_dvar l = Ok s /\
    forall str n acc r, str <> ""%string -> (2 * String.length s + 1 <= n)%nat ->
      arr_loop str n acc (iss_ok (s ++ String "e" r)) = Ok (ARRAY (acc ++ l), iss_ok r).
Proof.
  induction 1 as [|d l (s & Hs & Hp & Hd) _ (sl & Hsl & IH)]; simpl.
  - exists ""%string. split; [done|]. intros str [|n] acc r Hstr Hn; [simpl in Hn; lia|].
    by rewrite app_nil_r.
  - exists (s ++ sl)%string. rewrite Hs. cbn [mbind outcome_bind]. rewrite Hsl. split; [done|].
    intros str n acc r Hstr Hn. rewrite string_length_app in Hn.
    pose proof (parses_back_length s d Hp). destruct n as [|n]; [lia|].
    rewrite string_app_assoc, (arr_loop_elem str n acc s d) by (done || lia).
    rewrite IH by (done || lia). by rewrite <- app_assoc.
Qed.

Lemma map_parses_back l :
  Forall (fun p => exists s, from_dvar p.2 = Ok s /\ parses_back s p.2 /\ dvar_is_null p.2 = false) l ->
  Forall (fun p => Z.of_nat (String.length p.1) < 2 ^ 31) l ->
  exists s, concat_outcome (fun p => let* i := from_dvar p.2 in Ok (enc_str p.1 ++ i)%string) l = Ok s /\
    forall str n acc r, str <> ""%string -> (2 * String.length s + 1 <= n)%nat ->
      StronglySorted key_lt (acc ++ l) ->
      map_loop str n acc (iss_ok (s ++ String "e" r)) = Ok (MAP (acc ++ l), iss_ok r).
Proof.
  induction 1 as [|[k d] l (s & Hs & Hp & Hd) _ IH]; intros Hlen; simpl in *.
  - exists ""%string. split; [done|]. intros str [|n] acc r Hstr Hn _; [simpl in Hn; lia|].
    by rewrite app_nil_r.
  - apply Forall_cons_1 in Hlen as [Hk Hlen]. destruct (IH Hlen) as (sl & Hsl & Hrec).
    exists ((enc_str k ++ s) ++ sl)%string. rewrite Hs. cbn [mbind outcome_bind]. rewrite Hsl.
    split; [done|]. intros str n acc r Hstr Hn Hsort. rewrite string_length_app in Hn.
    pose proof (parses_back_length s d Hp). assert (1 <= String.length (enc_str k ++ s))%nat.
    { rewrite string_length_app. lia. }
    destruct n as [|n]; [lia|]. rewrite !string_app_assoc.
    rewrite (map_loop_elem str n acc k s d) by (done || lia).
    rewrite map_insert_last; cbn [mbind outcome_bind].
    + rewrite Hrec; [by rewrite <- app_assoc|done|lia|by rewrite <- app_assoc].
    + apply Forall_forall. intros p Hp'.
      apply (StronglySorted_app_1_elem_of _ acc ((k, d) :: l)); [done|done|by left].
Qed.

Lemma bencodable_roundtrip d :
  bencodable d -> exists s, from_dvar d = Ok s /\ parses_back s d.
Proof.
  induction d as [|v|v|v|v| |l IH|l IH] using dvar_ind'; simpl; try done.
  - intros Hv. unfold to_int64, is_int64_ok. change (to_signed 64 (2 ^ 63 - 1)) with (2 ^ 63 - 1).
    rewrite (proj2 (Z.leb_le _ _)) by lia. eexists. split; [reflexivity|].
    split; [by do 2 eexists|]. intros str [|n] r Hstr Hn; [simpl in Hn; lia|].
    cbn [String.append]. rewrite to_dvar_iss_cons by done. rewrite string_app_assoc. simpl.
    apply parse_int_enc. unfold fits_int64. apply andb_true_iff. split; [apply Z.leb_le|apply Z.ltb_lt]; lia.
  - intros Hv. eexists. split; [reflexivity|]. by apply str_parses_back.
  - rewrite fold_right_and_Forall. intros Hl.
    destruct (arr_parses_back l) as (s & Hs & Hp).
    { apply Forall_forall. intros d Hd. rewrite Forall_forall in IH, Hl.
      destruct (IH d Hd (Hl d Hd)) as (s & Hs & Hp). exists s. eauto using bencodable_not_null. }
    rewrite Hs. eexists. split; [reflexivity|]. split; [by do 2 eexists|].
    intros str n r Hstr Hn. simpl in Hn. rewrite string_length_app in Hn. simpl in Hn.
    destruct n as [|n]; [lia|]. cbn [String.append]. rewrite to_dvar_iss_cons by done. rewrite string_app_assoc.
    apply Hp; [done|lia].
  - rewrite fold_right_and_Forall. intros [Hsort Hl].
    destruct (map_parses_back l) as (s & Hs & Hp).
    { apply Forall_forall. intros p Hd. rewrite Forall_forall in IH, Hl.
      destruct (Hl p Hd) as [_ Hb]. destruct (IH p Hd Hb) as (s & Hs & Hp). exists s. eauto using bencodable_not_null. }
    { eapply Forall_impl; [exact Hl|]. by intros ? [? _]. }
    rewrite Hs. eexists. split; [reflexivity|]. split; [by do 2 eexists|].
    intros str n r Hstr Hn. simpl in Hn. rewrite string_length_app in Hn. simpl in Hn.
    destruct n as [|n]; [lia|]. cbn [String.append]. rewrite to_dvar_iss_cons by done. rewrite string_app_assoc.
    apply Hp; [done|lia|done].
Qed.

(* ------------------------------------------------------------------ *)
(** * What the parser returns *)
(* ------------------------------------------------------------------ *)

(** A result of the parser on the unread string [s]: the null variable, or a
    well-formed one and a strictly shorter stream. *)
Definition good_result (s : string) (res : outcome (dvar_t * istream)) : Prop :=
  match res with
  | Ok (d, i) =>
    d = NONE \/
    (bencodable d /\ exists s', i = iss_ok s' /\ (String.length s' < String.length s)%nat)
  | Throw _ => False
  | _ => True
  end.

Lemma good_result_weaken s s' res :
  (String.length s' <= String.length s)%nat -> good_result s' res -> good_result s res.
Proof.
  intros Hle. destruct res as [[d i]| | |]; simpl; [|done..].
  intros [H|(Hd & t & -> & Ht)]; [by left|]. right. split; [done|]. exists t. split; [done|lia].
Qed.

Lemma string_span_length f s p r :
  string_span f s = (p, r) -> String.length s = (String.length p + String.length r)%nat.
Proof.
  revert p r. induction s as [|a s IH]; simpl; intros p r H; [by simplify_eq|].
  destruct (f a); [|by simplify_eq]. destruct (string_span f s) as [p' r'] eqn:E. simplify_eq.
  simpl. by rewrite (IH p' r).
Qed.

Lemma iss_get_spec s :
  iss_get (iss_ok s) = (None, Istream "" true true) \/
  exists c s', s = String c s' /\ iss_get (iss_ok s) = (Some c, iss_ok s').
Proof. destruct s as [|c s]; [by left|]. right. by exists c, s. Qed.

Lemma iss_sentry_spec s :
  iss_sentry (iss_ok s) = (false, Istream "" true true) \/
  exists c s', iss_sentry (iss_ok s) = (true, iss_ok (String c s')) /\
    (String.length s' < String.length s)%nat.
Proof.
  unfold iss_sentry. cbn [iss_good iss_ok unread eofbit failbit orb negb].
  destruct (string_span is_space s) as [p [|c r]] eqn:E; [by left|]. right.
  apply string_span_length in E. exists c, r. simpl in *. split; [done|lia].
Qed.

Lemma iss_char_spec s :
  iss_char (iss_ok s) = (None, Istream "" true true) \/
  exists c s', iss_char (iss_ok s) = (Some c, iss_ok s') /\ (String.length s' < String.length s)%nat.
Proof.
  unfold iss_char. destruct (iss_sentry_spec s) as [->|(c & s' & -> & Hl)]; [by left|].
  right. by exists c, s'.
Qed.

Lemma parse_int_good s : good_result s (parse_int (iss_ok s)).
Proof.
  unfold parse_int, iss_int64.
  destruct (iss_sentry_spec s) as [->|(c & s' & -> & Hl)]; [by left|]. cbn [unread iss_ok].
  destruct (read_sign (String c s')) as [neg t] eqn:Et.
  assert (String.length t <= String.length s)%nat.
  { unfold read_sign in Et. repeat case_match; simplify_eq; simpl; lia. }
  destruct (string_span is_digit t) as [digits rest] eqn:Es. apply string_span_length in Es.
  set (eof := match rest with EmptyString => true | _ => false end).
  assert (Hfail : forall k, good_result s
    (let (c_end, i2) := iss_char (Istream rest eof true) in
     if eofbit i2 then Ok (NONE, i2)
     else match c_end, Some k with
     | Some c, Some v => if Ascii.eqb c "e" then Ok (INTEGER v, i2) else Ok (NONE, i2)
     | _, _ => Fault end)).
  { intros k. destruct rest; simpl; auto. }
  destruct digits as [|a ds]; [apply Hfail|].
  destruct (NilZero.uint_of_string (String a ds)) as [u|]; [|apply Hfail].
  set (v := if neg then _ else _).
  destruct (Z.ltb_spec v (- 2 ^ 63)); [apply Hfail|]. destruct (Z.leb_spec (2 ^ 63) v); [apply Hfail|].
  subst eof. destruct rest as [|b rest]; [by left|].
  destruct (iss_char_spec (String b rest)) as [Hc|(c' & r' & Hc & Hl')]; unfold iss_ok in Hc; rewrite Hc; [by left|].
  cbn [eofbit iss_ok]. destruct (Ascii.eqb c' "e"); [|by left].
  right. split; [simpl; lia|]. exists r'. split; [done|]. simpl in *. lia.
Qed.

Lemma len_loop_good m len s :
  match len_loop m len (iss_ok s) with
  | Ok (None, i) => True
  | Ok (Some l, i) => l < 2 ^ 31 /\ exists s', i = iss_ok s' /\ (String.length s' <= String.length s)%nat
  | Throw _ => False
  | _ => True
  end.
Proof.
  revert len s. induction m as [|m IH]; intros len s; cbn [len_loop]; [done|].
  destruct (iss_get_spec s) as [->|(c & s' & -> & Hg)]; [done|]. rewrite Hg. cbn [eofbit iss_ok].
  destruct (Z.leb_spec (2 ^ 31) (if is_digit c then len * 10 + digit_value c else len)); [done|].
  destruct (negb _ && negb _); [done|]. destruct (Ascii.eqb c ":").
  - split; [done|]. exists s'. split; [done|]. simpl. lia.
  - specialize (IH (if is_digit c then len * 10 + digit_value c else len) s').
    unfold iss_ok in *. destruct (len_loop m _ _) as [[[l|] i]| | |]; try done.
    destruct IH as (Hl & t & -> & Ht). split; [done|]. exists t. split; [done|]. simpl. lia.
Qed.

Lemma string_split_length n s p r :
  string_split n s = (p, r) -> String.length s = (String.length p + String.length r)%nat /\
  (String.length p <= n)%nat.
Proof.
  revert s p r. induction n as [|n IH]; intros [|a s] p r H; simpl in H; simplify_eq; simpl; try lia.
  destruct (string_split n s) as [p' r'] eqn:E. simplify_eq. simpl.
  destruct (IH _ _ _ E). lia.
Qed.

Lemma parse_str_good c s s0 :
  (String.length s < String.length s0)%nat -> good_result s0 (parse_str c (iss_ok s)).
Proof.
  intros Hs0. unfold parse_str.
  pose proof (len_loop_good (S (String.length (unread (iss_ok s)))) (digit_value c) s) as H.
  destruct (len_loop _ _ _) as [[[l|] i]| | |]; cbn [mbind outcome_bind]; try done; [|by left].
  destruct H as (Hl & s' & -> & Hs'). unfold iss_read. cbn [iss_good iss_ok eofbit failbit orb negb unread].
  destruct (string_split (Z.to_nat l) s') as [p r] eqn:E. apply string_split_length in E as [E1 E2].
  cbn [eofbit]. destruct (Nat.ltb_spec (String.length p) (Z.to_nat l)); [by left|].
  right. split; [simpl; lia|]. exists r. split; [done|lia].
Qed.

(** A sorted map of well-formed values. *)
Definition map_ok (l : list (string * dvar_t)) : Prop :=
  StronglySorted key_lt l /\
  Forall (fun p => Z.of_nat (String.length p.1) < 2 ^ 31 /\ bencodable p.2) l.

Lemma map_insert_ok k d l :
  map_ok l -> Z.of_nat (String.length k) < 2 ^ 31 -> bencodable d ->
  dvar_map_insert k d l = AssertFail \/ exists l', dvar_map_insert k d l = Ok l' /\ map_ok l'.
Proof.
  intros [Hs Hf] Hk Hd. unfold dvar_map_insert. destruct (negb _); [|by left]. right.
  eexists. split; [reflexivity|]. split; [by apply std_map_insert_sorted|].
  by apply std_map_insert_Forall.
Qed.

Section parser.
Context (str : string).

Lemma to_dvar_iss_S n i : to_dvar_iss str (S n) i =
  assert! negb (String.eqb str "") in
  let (c, i1) := iss_char i in
  if eofbit i1 then Ok (NONE, i1)
  else match c with
  | None => Fault
  | Some c_begin =>
    if Ascii.eqb c_begin "i" then parse_int i1
    else if is_digit c_begin then parse_str c_begin i1
    else if Ascii.eqb c_begin "l" then arr_loop str n [] i1
    else if Ascii.eqb c_begin "d" then map_loop str n [] i1
    else Ok (NONE, i1)
  end.
Proof. done. Qed.

Lemma arr_loop_S n arr c s : arr_loop str (S n) arr (iss_ok (String c s)) =
  if Ascii.eqb c "e" then Ok (ARRAY arr, iss_ok s)
  else
    let* (tmp, i2) := to_dvar_iss str n (iss_ok (String c s)) in
    if (dvar_is_null tmp : bool) then Ok (NONE, i2) else arr_loop str n (arr ++ [tmp]) i2.
Proof. done. Qed.

Lemma map_loop_S n map c s : map_loop str (S n) map (iss_ok (String c s)) =
  if Ascii.eqb c "e" then Ok (MAP map, iss_ok s)
  else
    let* (tmp_key, i2) := to_dvar_iss str n (iss_ok (String c s)) in
    match tmp_key with
    | STRING key =>
      let* (tmp_var, i3) := to_dvar_iss str n i2 in
      if (dvar_is_null tmp_var : bool) then Ok (NONE, i3)
      else let* map1 := dvar_map_insert key tmp_var map in map_loop str n map1 i3
    | _ => Ok (NONE, i2)
    end.
Proof. done. Qed.

(** One more unit of fuel changes nothing, and the result is good. *)
Lemma parser_spec n :
  (forall s, (2 * String.length s + 1 <= n)%nat ->
    to_dvar_iss str (S n) (iss_ok s) = to_dvar_iss str n (iss_ok s) /\
    good_result s (to_dvar_iss str n (iss_ok s))) /\
  (forall s arr, (2 * String.length s + 2 <= n)%nat -> Forall bencodable arr ->
    arr_loop str (S n) arr (iss_ok s) = arr_loop str n arr (iss_ok s) /\
    good_result s (arr_loop str n arr (iss_ok s))) /\
  (forall s map, (2 * String.length s + 2 <= n)%nat -> map_ok map ->
    map_loop str (S n) map (iss_ok s) = map_loop str n map (iss_ok s) /\
    good_result s (map_loop str n map (iss_ok s))).
Proof.
  induction n as [|n (IHt & IHa & IHm)]; [repeat split; lia|]. split; [|split].
  - intros s Hn. rewrite !to_dvar_iss_S. destruct (negb _); [|done]. cbn [dbg_assert].
    destruct (iss_char_spec s) as [->|(c & s' & -> & Hl)]; [split; [done|by left]|].
    cbn [eofbit iss_ok]. destruct (Ascii.eqb c "i").
    { split; [done|]. eapply good_result_weaken; [|apply parse_int_good]. lia. }
    destruct (is_digit c); [split; [done|by apply parse_str_good]|].
    destruct (Ascii.eqb c "l").
    { destruct (IHa s' []) as [E Hg]; [lia|done|]. split; [done|]. eapply good_result_weaken; [|exact Hg]. lia. }
    destruct (Ascii.eqb c "d"); [|split; [done|by left]].
    destruct (IHm s' []) as [E Hg]; [lia|by repeat constructor|]. split; [done|].
    eapply good_result_weaken; [|exact Hg]. lia.
  - intros [|c s] arr Hn Harr; [split; [done|by left]|]. rewrite !arr_loop_S.
    destruct (Ascii.eqb c "e").
    { split; [done|]. right. split; [|by exists s; split; simpl; [|lia]].
      simpl. by apply fold_right_and_Forall. }
    destruct (IHt (String c s)) as [E Hg]; [lia|]. rewrite E.
    destruct (to_dvar_iss str n _) as [[d i]| | |]; cbn [mbind outcome_bind]; try done.
    destruct Hg as [->|(Hd & s' & -> & Hl)]; [split; [done|by left]|].
    destruct (dvar_is_null d); [split; [done|by left]|].
    destruct (IHa s' (arr ++ [d])) as [E' Hg]; [lia|by apply Forall_app; split; [|constructor]|].
    split; [done|]. eapply good_result_weaken; [|exact Hg]. lia.
  - intros [|c s] map Hn Hmap; [split; [done|by left]|]. rewrite !map_loop_S.
    destruct (Ascii.eqb c "e").
    { split; [done|]. right. split; [|by exists s; split; simpl; [|lia]].
      simpl. rewrite fold_right_and_Forall. exact Hmap. }
    destruct (IHt (String c s)) as [E Hg]; [lia|]. rewrite E.
    destruct (to_dvar_iss str n _) as [[k i]| | |]; cbn [mbind outcome_bind]; try done.
    destruct Hg as [->|(Hk & s' & -> & Hl)]; [split; [done|by left]|].
    destruct k as [| | |key| | | |]; try (split; [done|by left]). simpl in Hk.
    destruct (IHt s') as [E' Hg']; [lia|]. rewrite E'.
    destruct (to_dvar_iss str n _) as [[d i]| | |]; cbn [mbind outcome_bind]; try done.
    destruct Hg' as [->|(Hd & s2 & -> & Hl2)]; [split; [done|by left]|].
    destruct (dvar_is_null d); [split; [done|by left]|].
    destruct (map_insert_ok key d map Hmap Hk Hd) as [->|(map1 & -> & Hm1)]; [done|].
    cbn [mbind outcome_bind]. destruct (IHm s2 map1) as [E2 Hg2]; [lia|done|].
    split; [done|]. eapply good_result_weaken; [|exact Hg2]. lia.
Qed.
End parser.

(** Any larger fuel gives the result of [to_dvar]. *)
Lemma fuel_enough str n s :
  (2 * String.length s + 1 <= n)%nat ->
  to_dvar_iss str n (iss_ok s) = to_dvar_iss str (2 * String.length s + 1) (iss_ok s).
Proof.
  induction 1 as [|n Hn IH]; [done|]. rewrite <- IH. by apply parser_spec.
Qed.

(* ------------------------------------------------------------------ *)
(** * Theorems *)
(* ------------------------------------------------------------------ *)

Lemma to_dvar_parse s d i n :
  s <> ""%string -> (2 * String.length s + 1 <= n)%nat ->
  to_dvar_iss s n (iss_ok s) = Ok (d, i) -> to_dvar s = Ok d.
Proof.
  intros Hs Hn H. unfold to_dvar. change (istringstream s) with (iss_ok s).
  rewrite <- (fuel_enough s n) by done. by rewrite H.
Qed.

(** C27. Every value the format can carry, at any nesting, is encoded, and
    parsing the encoding gives the value back. *)
Theorem bencode_roundtrip d :
  bencodable d -> exists s, from_dvar d = Ok s /\ to_dvar s = Ok d.
Proof.
  intros Hd. destruct (bencodable_roundtrip d Hd) as (s & Hs & Hp). exists s. split; [done|].
  assert (s <> ""%string) as Hne by (destruct Hp as [(c & s' & -> & _) _]; done).
  destruct Hp as [_ Hp]. specialize (Hp s (2 * String.length s + 1)%nat "" Hne ltac:(lia)).
  rewrite string_app_nil in Hp. by eapply to_dvar_parse.
Qed.


(** Inputs a peer can send on which the parser does not return null: an
    empty string and a map with the same key twice fail an assertion, an
    integer of more than 64 bits makes it use an uninitialised character.
    Booleans and nil values cannot be encoded. *)
Theorem bencode_hostile_input k d1 d2 s1 s2 v rest :
  Z.of_nat (String.length k) < 2 ^ 31 -> bencodable d1 -> bencodable d2 ->
  from_dvar d1 = Ok s1 -> from_dvar d2 = Ok s2 -> fits_int64 v = false ->
  to_dvar "" = AssertFail /\
  to_dvar ("d" ++ enc_str k ++ s1 ++ enc_str k ++ s2 ++ rest) = AssertFail /\
  to_dvar ("i" ++ dec_string_signed v ++ "e" ++ rest) = Fault /\
  from_dvar (BOOLEAN true) = AssertFail /\ from_dvar NIL = AssertFail.
Proof.
  intros Hk Hd1 Hd2 Hs1 Hs2 Hv.
  destruct (bencodable_roundtrip d1 Hd1) as (s1' & E1 & Hp1).
  destruct (bencodable_roundtrip d2 Hd2) as (s2' & E2 & Hp2).
  rewrite Hs1 in E1. rewrite Hs2 in E2. injection E1 as <-. injection E2 as <-.
  pose proof (parses_back_length s1 d1 Hp1). pose proof (parses_back_length s2 d2 Hp2).
  split; [done|]. split; [|split; [|by split]].
  - unfold to_dvar, istringstream. set (s := (_ ++ _)%string). cbn [String.append] in s.
    assert (Hne : s <> ""%string) by done.
    assert (Hlen : (String.length s = 1 + String.length (enc_str k ++ s1) +
                    (String.length (enc_str k ++ s2) + String.length rest))%nat).
    { subst s. cbn [String.length]. rewrite !string_length_app. lia. }
    replace (2 * String.length s + 1)%nat with (S (S (S (2 * String.length s - 2)))) by lia.
    subst s. change (Istream ?x false false) with (iss_ok x).
    rewrite to_dvar_iss_cons by done. cbn [Ascii.eqb Bool.eqb].
    set (s := String "d" _) in *. change (is_digit "d") with false. cbn iota.
    rewrite (map_loop_elem s _ [] k s1 d1) by (done || lia || by apply bencodable_not_null).
    cbn [mbind outcome_bind dvar_map_insert dvar_map_contain dvar_map_find negb dbg_assert std_map_insert].
    rewrite (map_loop_elem s _ _ k s2 d2) by (done || lia || by apply bencodable_not_null).
    unfold dvar_map_insert, dvar_map_contain. simpl. by rewrite String.eqb_refl.
  - unfold to_dvar, istringstream. cbn [String.append]. set (s := String "i" _).
    replace (2 * String.length s + 1)%nat with (S (2 * String.length s)) by lia.
    subst s. change (Istream ?x false false) with (iss_ok x).
    rewrite to_dvar_iss_cons by done. cbn [Ascii.eqb Bool.eqb]. cbn iota.
    by rewrite parse_int_overflow.
Qed.

(* ------------------------------------------------------------------ *)
(** * Witnesses *)
(* ------------------------------------------------------------------ *)

Definition bencode_sample : dvar_t :=
  MAP [("bar", STRING "spam"); ("foo", ARRAY [INTEGER (-42); MAP []; STRING ""])]%string.

Lemma bencode_roundtrip_witness :
  bencodable bencode_sample /\ exists s, from_dvar bencode_sample = Ok s /\ to_dvar s = Ok bencode_sample.
Proof.
  assert (H : bencodable bencode_sample).
  { simpl. repeat split; try lia; repeat constructor. }
  split; [exact H|]. exact (bencode_roundtrip bencode_sample H).
Defined.


Lemma bencode_hostile_input_witness :
  to_dvar "d1:ai1e1:a0:e" = AssertFail /\ to_dvar "i9223372036854775808e" = Fault.
Proof.
  destruct (bencode_hostile_input "a" (INTEGER 1) (STRING "") "i1e" "0:" (2 ^ 63) "e") as (_ & H1 & _).
  1-6: (simpl; lia) || reflexivity.
  destruct (bencode_hostile_input "a" (INTEGER 1) (STRING "") "i1e" "0:" (2 ^ 63) "") as (_ & _ & H2 & _).
  1-6: (simpl; lia) || reflexivity.
  split; [exact H1|exact H2].
Defined.
