(* ===== verification/InetAddr.v ===== *)
(** Inet addresses: [ip_addr_t], [ip_netaddr_t] and [ipport_addr_t]
    (src/src/neoip_inet/base/address/), with [inet_oswarp_t::inet_aton] and
    [string_t::split].

    An address is null or an IPv4 address in host order.  The C library's
    [inet_addr] and [inet_ntoa] are parameters ([InetLib]); the code relies on
    their agreement on dotted addresses ([InetLibLaws]).  Words are byte
    swapped between host and network order as on a little-endian host. *)
From Stdlib Require Import Ascii DecimalString DecimalN.
From S2P Require Import Prelude Serial Codec Text.

(* ------------------------------------------------------------------ *)
(** * The C library *)
(* ------------------------------------------------------------------ *)

Definition ntohl (x : Z) : Z := be_value (rev (be_bytes 4 x)).
Definition htonl (x : Z) : Z := be_value (rev (be_bytes 4 x)).
Definition INADDR_NONE : Z := 0xFFFFFFFF.

Definition ntohs (x : Z) : Z := be_value (rev (be_bytes 2 x)).
Definition htons (x : Z) : Z := be_value (rev (be_bytes 2 x)).

Definition AF_INET : Z := 2.
Record sockaddr_in := Sockaddr { sin_family : Z; sin_port : Z; sin_addr : Z }.

Class InetLib := {
  inet_addr : string -> Z;               (* in network order *)
  inet_ntoa : Z -> string
}.

(** The dotted form of a 32-bit address. *)
Definition dotted_bytes (l : list Z) : string :=
  match l with
  | [b0; b1; b2; b3] =>
    (dec_string b0 ++ "." ++ dec_string b1 ++ "." ++ dec_string b2 ++ "." ++ dec_string b3)%string
  | _ => ""%string
  end.
Definition dotted (a : Z) : string := dotted_bytes (be_bytes 4 a).

Class InetLibLaws (L : InetLib) : Prop := {
  inet_addr_dotted : forall a, in_range 32 a -> inet_addr (dotted a) = htonl a;
  inet_ntoa_dotted : forall a, in_range 32 a -> inet_ntoa (htonl a) = dotted a;
  inet_addr_null : inet_addr "null" = INADDR_NONE
}.

(** [atoi]: white space, a sign, digits; a number that does not fit an [int] is
    undefined. *)
Definition atoi (s : string) : outcome Z :=
  let (neg, s1) := read_sign (string_span is_space s).2 in
  match NilZero.uint_of_string (string_span is_digit s1).1 with
  | None => Ok 0
  | Some u =>
    let v := if (neg : bool) then - Z.of_N (N.of_uint u) else Z.of_N (N.of_uint u) in
    if bool_decide (- 2 ^ 31 <= v < 2 ^ 31) then Ok v else Fault
  end.

(** A [std::string] seen as a C string. *)
Definition c_str (s : string) : string :=
  (string_span (fun a => negb (Ascii.eqb a zero)) s).1.

(* ------------------------------------------------------------------ *)
(** * string_t::split *)
(* ------------------------------------------------------------------ *)

(** The loop from [line] on, [nb] parts being already in the result. *)
Fixpoint split_loop (fuel : nat) (delimiter : string) (max_result nb : Z) (line : string) : list string :=
  match fuel with
  | O => [line]
  | S fuel' =>
    let (part, rest) := string_span (fun a => negb (existsb (Ascii.eqb a) (String.list_ascii_of_string delimiter))) line in
    match rest with
    | EmptyString => [line]
    | String _ rest' =>
      if max_result - 1 <=? nb then [line]
      else part :: split_loop fuel' delimiter max_result (nb + 1) rest'
    end
  end.

Definition split (line delimiter : string) (max_result : Z) : list string :=
  split_loop (String.length line) delimiter max_result 0 line.

Section inet.
Context `{InetLib}.

(* ------------------------------------------------------------------ *)
(** * ip_addr_t *)
(* ------------------------------------------------------------------ *)

(** The null address ([version == 0]) and IPv4, the only version ever set. *)
Inductive ip_addr_t := IP_NULL | V4 (v4 : Z).

Definition ip_is_null (a : ip_addr_t) : bool := match a with IP_NULL => true | V4 _ => false end.
Definition is_v4 (a : ip_addr_t) : bool := match a with IP_NULL => false | V4 _ => true end.
Definition get_version (a : ip_addr_t) : Z := match a with IP_NULL => 0 | V4 _ => 4 end.
Definition get_v4_addr (a : ip_addr_t) : outcome Z := match a with IP_NULL => AssertFail | V4 v => Ok v end.

Definition inet_aton (name_str : string) : option Z :=
  if String.eqb name_str "255.255.255.255" then Some 0xFFFFFFFF
  else
    let v4_addr := inet_addr name_str in
    if v4_addr =? INADDR_NONE then None else Some v4_addr.

(** The constructors from a string: null when it cannot be parsed. *)
Definition ip_of_string (s : string) : ip_addr_t :=
  match inet_aton (c_str s) with
  | None => IP_NULL
  | Some s_addr => V4 (ntohl s_addr)
  end.

Definition ip_to_string (a : ip_addr_t) : string :=
  match a with IP_NULL => "null" | V4 v => inet_ntoa (htonl v) end.

Definition ip_compare (a other : ip_addr_t) : Z :=
  match a, other with
  | IP_NULL, V4 _ => -1
  | V4 _, IP_NULL => 1
  | IP_NULL, IP_NULL => 0
  | V4 v, V4 o => if v <? o then -1 else if o <? v then 1 else 0
  end.

Definition ip_eq (a b : ip_addr_t) : bool := ip_compare a b =? 0.
Definition ip_le (a b : ip_addr_t) : bool := ip_compare a b <=? 0.
Definition ip_lt (a b : ip_addr_t) : bool := ip_compare a b <? 0.

Definition ip_add (a : ip_addr_t) (val : Z) : outcome ip_addr_t :=
  let* v := get_v4_addr a in Ok (V4 (wrap 32 (v + val))).
Definition ip_sub (a : ip_addr_t) (val : Z) : outcome ip_addr_t :=
  let* v := get_v4_addr a in Ok (V4 (wrap 32 (v - val))).

Definition ip_of_sockaddr (sa_in : sockaddr_in) : outcome ip_addr_t :=
  assert! sin_family sa_in =? AF_INET in Ok (V4 (ntohl (sin_addr sa_in))).
Definition ip_to_sockaddr (a : ip_addr_t) : outcome sockaddr_in :=
  match a with
  | IP_NULL => AssertFail
  | V4 v4 => Ok (Sockaddr AF_INET 0 (htonl v4))
  end.

(* ------------------------------------------------------------------ *)
(** * ip_netaddr_t *)
(* ------------------------------------------------------------------ *)

Record ip_netaddr_t := Netaddr { base_addr : ip_addr_t; prefix_len : Z }.

Definition netaddr_ctor (base : ip_addr_t) (prefix : Z) : ip_netaddr_t := Netaddr base (wrap 8 prefix).
Definition netaddr_is_null (n : ip_netaddr_t) : bool := ip_is_null (base_addr n).

(** The constructors from a string: an assertion fails when there is no
    prefix. *)
Definition netaddr_of_string (s : string) : outcome ip_netaddr_t :=
  match split (c_str s) "/" 2 with
  | [base; prefix] => let* p := atoi (c_str prefix) in Ok (Netaddr (ip_of_string (c_str base)) (wrap 8 p))
  | _ => AssertFail
  end.

Definition netaddr_to_string (n : ip_netaddr_t) : string :=
  if netaddr_is_null n then "null"
  else (ip_to_string (base_addr n) ++ "/" ++ dec_string (prefix_len n))%string.

Definition netaddr_compare (n other : ip_netaddr_t) : Z :=
  if netaddr_is_null n && negb (netaddr_is_null other) then -1
  else if negb (netaddr_is_null n) && netaddr_is_null other then 1
  else if netaddr_is_null n && netaddr_is_null other then 0
  else if prefix_len n <? prefix_len other then -1
  else if prefix_len other <? prefix_len n then 1
  else if ip_lt (base_addr n) (base_addr other) then -1
  else if ip_lt (base_addr other) (base_addr n) then 1
  else 0.

(** The shift of a 32-bit word by 32 bits or more, or by a negative number, is
    undefined. *)
Definition get_netmask (n : ip_netaddr_t) : outcome ip_addr_t :=
  assert! is_v4 (base_addr n) in
  if bool_decide (0 <= 32 - prefix_len n < 32)
  then Ok (V4 (wrap 32 (Z.shiftl 0xffffffff (32 - prefix_len n)))) else Fault.

Definition get_any_addr (n : ip_netaddr_t) : outcome ip_addr_t :=
  assert! is_v4 (base_addr n) in
  let* b := get_v4_addr (base_addr n) in
  let* mask := get_netmask n in
  let* m := get_v4_addr mask in
  Ok (V4 (Z.land b m)).

Definition get_bcast_addr (n : ip_netaddr_t) : outcome ip_addr_t :=
  assert! is_v4 (base_addr n) in
  let* b := get_v4_addr (base_addr n) in
  let* mask := get_netmask n in
  let* m := get_v4_addr mask in
  Ok (V4 (Z.lor b (wrap 32 (Z.lnot m)))).

Definition contain (n : ip_netaddr_t) (ip_addr : ip_addr_t) : outcome bool :=
  if negb (get_version (base_addr n) =? get_version ip_addr) then Ok false
  else
    let* any := get_any_addr n in
    if ip_le any ip_addr then
      let* bcast := get_bcast_addr n in Ok (ip_le ip_addr bcast)
    else Ok false.

Definition get_first_addr (n : ip_netaddr_t) : outcome ip_addr_t :=
  let* any := get_any_addr n in
  let* first_addr := if ip_eq (base_addr n) any then ip_add (base_addr n) 1 else Ok (base_addr n) in
  let* c := contain n first_addr in
  if negb c then Ok (base_addr n) else Ok first_addr.

Definition get_last_addr (n : ip_netaddr_t) : outcome ip_addr_t :=
  let* bcast := get_bcast_addr n in
  let* last_addr := ip_sub bcast 1 in
  let* c := contain n last_addr in
  if negb c then get_bcast_addr n else Ok last_addr.

Definition get_next_addr (n : ip_netaddr_t) (cur_ip_addr : ip_addr_t) : outcome ip_addr_t :=
  if ip_is_null cur_ip_addr then get_first_addr n
  else
    let* last := get_last_addr n in
    if ip_eq cur_ip_addr last then get_first_addr n else ip_add cur_ip_addr 1.

(* ------------------------------------------------------------------ *)
(** * The classes of addresses *)
(* ------------------------------------------------------------------ *)

Definition in_netaddr (base : string) (prefix : Z) (a : ip_addr_t) : outcome bool :=
  contain (netaddr_ctor (ip_of_string base) prefix) a.

Definition is_localhost (a : ip_addr_t) : outcome bool :=
  if ip_is_null a then Ok false
  else
    assert! is_v4 a in
    let* b := in_netaddr "127.0.0.0" 8 a in
    if (b : bool) then Ok true else Ok false.

Definition is_linklocal (a : ip_addr_t) : outcome bool :=
  if ip_is_null a then Ok false
  else
    assert! is_v4 a in
    let* b := in_netaddr "169.254.0.0" 16 a in
    if (b : bool) then Ok true else Ok false.

Definition is_private (a : ip_addr_t) : outcome bool :=
  if ip_is_null a then Ok false
  else
    assert! is_v4 a in
    let* b := in_netaddr "10.0.0.0" 8 a in
    if (b : bool) then Ok true
    else
      let* b := in_netaddr "172.16.0.0" 12 a in
      if (b : bool) then Ok true
      else
        let* b := in_netaddr "192.168.0.0" 16 a in
        if (b : bool) then Ok true else Ok false.

Definition is_any (a : ip_addr_t) : outcome bool :=
  if ip_is_null a then Ok false
  else assert! is_v4 a in Ok (ip_eq a (ip_of_string "0.0.0.0")).

Definition is_broadcast (a : ip_addr_t) : outcome bool :=
  if ip_is_null a then Ok false
  else assert! is_v4 a in Ok (ip_eq a (ip_of_string "255.255.255.255")).

Definition is_multicast (a : ip_addr_t) : outcome bool :=
  if ip_is_null a then Ok false
  else
    assert! is_v4 a in
    let* b := in_netaddr "224.0.0.0" 4 a in
    if (b : bool) then Ok true else Ok false.

(** [if( test ) return false;] for each test in order, then [true]. *)
Fixpoint none_of (tests : list (ip_addr_t -> outcome bool)) (a : ip_addr_t) : outcome bool :=
  match tests with
  | [] => Ok true
  | t :: tests' => let* b := t a in if (b : bool) then Ok false else none_of tests' a
  end.

Definition ip_is_fully_qualified (a : ip_addr_t) : outcome bool :=
  if ip_is_null a then Ok false else none_of [is_any; is_multicast; is_broadcast] a.

Definition is_public (a : ip_addr_t) : outcome bool :=
  if ip_is_null a then Ok false
  else
    let* q := ip_is_fully_qualified a in
    if negb q then Ok false else none_of [is_private; is_localhost; is_linklocal] a.

(* ------------------------------------------------------------------ *)
(** * ipport_addr_t *)
(* ------------------------------------------------------------------ *)

Record ipport_addr_t := Ipport { ipaddr : ip_addr_t; port : Z }.

Definition ipport_null : ipport_addr_t := Ipport IP_NULL 0.
Definition ipport_is_null (a : ipport_addr_t) : bool := ip_is_null (ipaddr a).

Definition ipport_is_fully_qualified (a : ipport_addr_t) : outcome bool :=
  let* q := ip_is_fully_qualified (ipaddr a) in Ok (q && negb (port a =? 0)).
Definition is_aport_qualified (a : ipport_addr_t) : outcome bool :=
  let* q := is_any (ipaddr a) in Ok (q && negb (port a =? 0)).

(** The constructors from a string: null when it is empty; otherwise the
    address, null if it cannot be parsed, and the port, 0 by default. *)
Definition ipport_of_string (s : string) : outcome ipport_addr_t :=
  let str := c_str s in
  if String.eqb str "" then Ok ipport_null
  else
    match split str ":" 2 with
    | [] => Ok ipport_null
    | part :: parts =>
      let m_ipaddr := if String.eqb part "" then ip_of_string "0.0.0.0" else ip_of_string (c_str part) in
      match parts with
      | [] => Ok (Ipport m_ipaddr 0)
      | p :: _ => let* n := atoi (c_str p) in Ok (Ipport m_ipaddr (wrap 16 n))
      end
    end.

Definition ipport_to_string (a : ipport_addr_t) : string :=
  if ipport_is_null a then "null"
  else (ip_to_string (ipaddr a) ++ ":" ++ (if (port a =? 0)%Z then "default" else dec_string (port a)))%string.

Definition ipport_of_sockaddr (sa_in : sockaddr_in) : outcome ipport_addr_t :=
  assert! sin_family sa_in =? AF_INET in
  Ok (Ipport (V4 (ntohl (sin_addr sa_in))) (ntohs (sin_port sa_in))).
Definition ipport_to_sockaddr (a : ipport_addr_t) : outcome sockaddr_in :=
  assert! is_v4 (ipaddr a) in
  let* v4 := get_v4_addr (ipaddr a) in
  Ok (Sockaddr AF_INET (htons (port a)) (htonl v4)).

Definition ipport_compare (a other : ipport_addr_t) : Z :=
  if ipport_is_null a && negb (ipport_is_null other) then -1
  else if negb (ipport_is_null a) && ipport_is_null other then 1
  else if ipport_is_null a && ipport_is_null other then 0
  else if ip_lt (ipaddr a) (ipaddr other) then -1
  else if ip_lt (ipaddr other) (ipaddr a) then 1
  else if port a <? port other then -1
  else if port other <? port a then 1
  else 0.
End inet.

(* ------------------------------------------------------------------ *)
(** * Serialization *)
(* ------------------------------------------------------------------ *)

Definition put_ip_addr (a : ip_addr_t) (s : serial_t) : outcome serial_t :=
  let* s1 := put_u8 (get_version a) s in
  match a with
  | IP_NULL => Ok s1
  | V4 v4 => put_u32 v4 s1
  end.

Definition get_ip_addr (s : serial_t) : outcome (ip_addr_t * serial_t) :=
  if bool_decide (used_length s < 1)%nat then Throw "ip_addr_t Payload Too Short"
  else
    let* (version, s1) := get_u8 s in
    if version =? 0 then Ok (IP_NULL, s1)
    else if negb (version =? 4) then Throw "ip_addr_t tried to unserialized a unknown version"
    else if bool_decide (used_length s1 < 4)%nat then Throw "ip_addr_t Payload Too Short"
    else
      let* (v4_addr, s2) := get_u32 s1 in
      Ok (V4 v4_addr, s2).

Definition ip_ok (a : ip_addr_t) : Prop := match a with IP_NULL => True | V4 v => in_range 32 v end.

Definition wire_put_ip (a : ip_addr_t) : list Z :=
  match a with IP_NULL => [0] | V4 v4 => 4 :: be_bytes 4 v4 end.

Definition wire_get_ip (l : list Z) : outcome (ip_addr_t * list Z) :=
  if bool_decide (length l < 1)%nat then Throw "ip_addr_t Payload Too Short"
  else
    let* (version, l1) := wire_get u8_codec l in
    if version =? 0 then Ok (IP_NULL, l1)
    else if negb (version =? 4) then Throw "ip_addr_t tried to unserialized a unknown version"
    else if bool_decide (length l1 < 4)%nat then Throw "ip_addr_t Payload Too Short"
    else
      let* (v4_addr, l2) := wire_get u32_codec l1 in
      Ok (V4 v4_addr, l2).

Definition ip_codec : codec ip_addr_t := {|
  codec_ok := ip_ok; wire_put := wire_put_ip; wire_get := wire_get_ip;
  put := put_ip_addr; get := get_ip_addr |}.

(** The two composed types write their fields one after the other. *)
Definition map_codec {A B} (c : codec A) (f : A -> B) (g : B -> A) : codec B := {|
  codec_ok := fun b => codec_ok c (g b);
  wire_put := fun b => wire_put c (g b);
  wire_get := fun l => let* (a, l1) := wire_get c l in Ok (f a, l1);
  put := fun b s => put c (g b) s;
  get := fun s => let* (a, s1) := get c s in Ok (f a, s1) |}.

Definition put_netaddr (n : ip_netaddr_t) (s : serial_t) : outcome serial_t :=
  let* s1 := put_u8 (prefix_len n) s in put_ip_addr (base_addr n) s1.
Definition get_netaddr (s : serial_t) : outcome (ip_netaddr_t * serial_t) :=
  let* (prefix, s1) := get_u8 s in
  let* (base, s2) := get_ip_addr s1 in
  Ok (netaddr_ctor base prefix, s2).

Definition put_ipport (a : ipport_addr_t) (s : serial_t) : outcome serial_t :=
  let* s1 := put_ip_addr (ipaddr a) s in put_u16 (port a) s1.
Definition get_ipport (s : serial_t) : outcome (ipport_addr_t * serial_t) :=
  let* (ip, s1) := get_ip_addr s in
  let* (port, s2) := get_u16 s1 in
  Ok (Ipport ip port, s2).

Definition netaddr_codec : codec ip_netaddr_t :=
  map_codec (pair_codec u8_codec ip_codec) (fun pb => Netaddr pb.2 pb.1) (fun n => (prefix_len n, base_addr n)).
Definition ipport_codec : codec ipport_addr_t :=
  map_codec (pair_codec ip_codec u16_codec) (fun ip => Ipport ip.1 ip.2) (fun a => (ipaddr a, port a)).

(* ------------------------------------------------------------------ *)
(** * Lemmas: network masks *)
(* ------------------------------------------------------------------ *)

Lemma swap_inv m a :
  in_range (8 * Z.of_nat m) a -> be_value (rev (be_bytes m (be_value (rev (be_bytes m a))))) = a.
Proof.
  intros Ha.
  assert (Hl : length (rev (be_bytes m a)) = m) by by rewrite length_rev, be_bytes_length.
  rewrite <- Hl at 1. rewrite be_bytes_value by (apply Forall_rev, be_bytes_ok).
  rewrite rev_involutive. by apply be_value_bytes_small.
Qed.

Lemma hton_inv a : in_range 32 a -> ntohl (htonl a) = a.
Proof. apply (swap_inv 4). Qed.

(** The mask of the [k] low bits left out. *)
Lemma netmask_value k :
  0 <= k < 32 -> wrap 32 (Z.shiftl 0xffffffff k) = 2 ^ 32 - 2 ^ k.
Proof.
  intros Hk. rewrite Z.shiftl_mul_pow2 by lia. unfold wrap.
  assert (0 < 2 ^ k) by (apply Z.pow_pos_nonneg; lia).
  assert (2 ^ k < 2 ^ 32) by (apply Z.pow_lt_mono_r; lia).
  symmetry. apply (Z.mod_unique _ _ (2 ^ k - 1)); [lia|].
  change 0xffffffff with (2 ^ 32 - 1). ring.
Qed.

Lemma netmask_bits k j :
  0 <= k < 32 -> 0 <= j -> Z.testbit (2 ^ 32 - 2 ^ k) j = (k <=? j) && (j <? 32).
Proof.
  intros Hk Hj. replace (2 ^ 32 - 2 ^ k) with (Z.shiftl (Z.ones (32 - k)) k).
  - rewrite Z.shiftl_spec by done. destruct (Z.leb_spec k j); simpl.
    + rewrite Z.testbit_ones_nonneg by lia. apply eq_true_iff_eq. rewrite !Z.ltb_lt. lia.
    + by rewrite Z.testbit_neg_r by lia.
  - rewrite Z.shiftl_mul_pow2, Z.ones_equiv by lia.
    replace (2 ^ 32) with (2 ^ (32 - k) * 2 ^ k); [lia|]. rewrite <- Z.pow_add_r by lia. f_equal. lia.
Qed.

Lemma land_netmask b k :
  0 <= k < 32 -> in_range 32 b -> Z.land b (2 ^ 32 - 2 ^ k) = b / 2 ^ k * 2 ^ k.
Proof.
  intros Hk Hb. rewrite <- Z.shiftr_div_pow2, <- Z.shiftl_mul_pow2, <- Z.ldiff_ones_r by lia.
  apply Z.bits_inj'. intros j Hj. rewrite Z.land_spec, netmask_bits, Z.ldiff_spec by lia.
  rewrite Z.testbit_ones_nonneg, Z.leb_antisym by lia.
  destruct (Z.ltb_spec j 32); [by rewrite andb_true_r|].
  replace (Z.testbit b j) with false; [done|]. symmetry. unfold in_range in Hb.
  destruct (decide (b = 0)) as [->|]; [apply Z.testbit_0_l|].
  apply Z.bits_above_log2; [lia|]. assert (Z.log2 b < 32) by (apply Z.log2_lt_pow2; lia). lia.
Qed.

Lemma lor_hostmask b k :
  0 <= k < 32 -> in_range 32 b ->
  Z.lor b (wrap 32 (Z.lnot (2 ^ 32 - 2 ^ k))) = b / 2 ^ k * 2 ^ k + (2 ^ k - 1).
Proof.
  intros Hk Hb. assert (0 < 2 ^ k) by (apply Z.pow_pos_nonneg; lia).
  assert (2 ^ k < 2 ^ 32) by (apply Z.pow_lt_mono_r; lia).
  replace (wrap 32 (Z.lnot (2 ^ 32 - 2 ^ k))) with (2 ^ k - 1).
  2: { unfold Z.lnot, wrap. apply (Z.mod_unique _ _ (-1)); [lia|]. lia. }
  replace (2 ^ k - 1) with (Z.ones k) by (rewrite Z.ones_equiv; lia).
  rewrite <- Z.shiftr_div_pow2, <- Z.shiftl_mul_pow2, <- Z.ldiff_ones_r by lia.
  assert (Hland : Z.land (Z.ldiff b (Z.ones k)) (Z.ones k) = 0).
  { apply Z.bits_inj'. intros j Hj. rewrite Z.land_spec, Z.ldiff_spec, Z.testbit_0_l.
    by destruct (Z.testbit b j), (Z.testbit (Z.ones k) j). }
  rewrite <- (Z.add_lor_land (Z.ldiff b (Z.ones k)) (Z.ones k)), Hland, Z.add_0_r.
  apply Z.bits_inj'. intros j Hj. rewrite !Z.lor_spec, Z.ldiff_spec.
  by destruct (Z.testbit b j), (Z.testbit (Z.ones k) j).
Qed.

(** The first and the last address of the network of [b]. *)
Definition net_lo (b k : Z) : Z := b / 2 ^ k * 2 ^ k.
Definition net_hi (b k : Z) : Z := b / 2 ^ k * 2 ^ k + (2 ^ k - 1).

Section netaddr.
Context (b p : Z).
Hypothesis Hb : in_range 32 b.
Hypothesis Hp : 1 <= p <= 32.
Let n := Netaddr (V4 b) p.
Let k := 32 - p.

Lemma get_any_spec : get_any_addr n = Ok (V4 (net_lo b k)).
Proof using Hb Hp.
  unfold get_any_addr, get_netmask. cbn. rewrite bool_decide_eq_true_2 by lia. cbn.
  rewrite netmask_value, land_netmask by (done || lia). done.
Qed.

Lemma get_bcast_spec : get_bcast_addr n = Ok (V4 (net_hi b k)).
Proof using Hb Hp.
  unfold get_bcast_addr, get_netmask. cbn. rewrite bool_decide_eq_true_2 by lia. cbn.
  rewrite netmask_value, lor_hostmask by (done || lia). done.
Qed.

Lemma same_net a : (net_lo b k <= a <= net_hi b k) <-> a / 2 ^ k = b / 2 ^ k.
Proof using Hp.
  unfold net_lo, net_hi. assert (0 < 2 ^ k) by (apply Z.pow_pos_nonneg; lia).
  pose proof (Z.div_mod a (2 ^ k)). pose proof (Z.mod_pos_bound a (2 ^ k)). split; intros Ha.
  - symmetry. apply (Z.div_unique_pos _ _ _ (a - b / 2 ^ k * 2 ^ k)); lia.
  - rewrite <- Ha. lia.
Qed.

Lemma contain_spec a : contain n (V4 a) = Ok (a / 2 ^ k =? b / 2 ^ k).
Proof using Hb Hp.
  unfold contain. cbn [get_version n base_addr Z.eqb Pos.eqb negb].
  rewrite get_any_spec, get_bcast_spec. cbn [mbind outcome_bind].
  pose proof (same_net a) as Hs. unfold ip_le, ip_compare.
  destruct (Z.ltb_spec (net_lo b k) a), (Z.ltb_spec a (net_lo b k)); cbn; try lia;
    destruct (Z.ltb_spec a (net_hi b k)), (Z.ltb_spec (net_hi b k) a); cbn; f_equal; symmetry;
    (apply Z.eqb_eq; apply Hs; lia) || (apply Z.eqb_neq; rewrite <- Hs; lia).
Qed.

Lemma net_bounds : 0 <= net_lo b k <= b /\ b <= net_hi b k < 2 ^ 32.
Proof using Hb Hp.
  destruct Hb as [H1 H2]. pose proof (proj2 (same_net b) eq_refl). unfold net_lo in *.
  assert (0 < 2 ^ k) by (apply Z.pow_pos_nonneg; lia).
  assert (0 <= b / 2 ^ k) by (apply Z.div_pos; lia).
  assert (net_hi b k < 2 ^ 32); [|nia]. unfold net_hi.
  assert (b / 2 ^ k < 2 ^ p).
  { apply Z.div_lt_upper_bound; [lia|]. rewrite <- Z.pow_add_r by lia.
    replace (k + p) with 32 by lia. done. }
  replace (2 ^ 32) with (2 ^ p * 2 ^ k) by (rewrite <- Z.pow_add_r by lia; f_equal; lia). nia.
Qed.
End netaddr.

(* ------------------------------------------------------------------ *)
(** * Lemmas: text *)
(* ------------------------------------------------------------------ *)

Lemma dotted_all f a :
  (forall c, is_digit c = true -> f c = true) -> f "."%char = true -> str_all f (dotted a) = true.
Proof.
  intros Hf Hdot. unfold dotted, dotted_bytes. cbn [be_bytes app].
  rewrite !str_all_app, !dec_string_all by done. unfold str_all. simpl. by rewrite Hdot.
Qed.

Lemma digit_not c d : is_digit d = false -> is_digit c = true -> Ascii.eqb c d = false.
Proof. intros Hd Hc. destruct (Ascii.eqb_spec c d); [congruence|done]. Qed.

Definition no_nul (a : ascii) : bool := negb (Ascii.eqb a zero).

Lemma c_str_id s : str_all no_nul s = true -> c_str s = s.
Proof. intros H. unfold c_str. by rewrite str_all_span_nil. Qed.

Lemma digit_no_nul c : is_digit c = true -> no_nul c = true.
Proof. intros H. unfold no_nul. by rewrite (digit_not c zero). Qed.

Lemma c_str_dotted a : c_str (dotted a) = dotted a.
Proof. apply c_str_id, dotted_all; [apply digit_no_nul|done]. Qed.

Section lib.
Context `{L : InetLib} {HL : InetLibLaws L}.

Lemma dotted_max : dotted 0xFFFFFFFF = "255.255.255.255"%string.
Proof. vm_compute. reflexivity. Qed.

Lemma inet_addr_none a :
  in_range 32 a -> inet_addr (dotted a) = INADDR_NONE -> a = 0xFFFFFFFF.
Proof using HL.
  intros Ha. rewrite inet_addr_dotted by done. intros H.
  rewrite <- (hton_inv a) by done. rewrite H. vm_compute. reflexivity.
Qed.

Lemma ip_of_string_dotted a : in_range 32 a -> ip_of_string (dotted a) = V4 a.
Proof using HL.
  intros Ha. unfold ip_of_string, inet_aton. rewrite c_str_dotted.
  destruct (String.eqb_spec (dotted a) "255.255.255.255") as [E|E].
  - assert (inet_addr (dotted a) = htonl 0xFFFFFFFF) as Hi.
    { rewrite E, <- dotted_max. apply inet_addr_dotted. done. }
    rewrite (inet_addr_none a Ha) by (rewrite Hi; vm_compute; reflexivity).
    vm_compute. reflexivity.
  - destruct (Z.eqb_spec (inet_addr (dotted a)) INADDR_NONE) as [Hn|Hn].
    { exfalso. apply E. rewrite (inet_addr_none a Ha Hn). apply dotted_max. }
    rewrite inet_addr_dotted by done. by rewrite hton_inv.
Qed.

Lemma ip_to_string_v4 a : in_range 32 a -> ip_to_string (V4 a) = dotted a.
Proof using HL. intros Ha. simpl. by apply inet_ntoa_dotted. Qed.
End lib.

Lemma split_two s d r :
  str_all (fun a => negb (Ascii.eqb a d)) s = true ->
  split (s ++ String d r) (String d "") 2 = [s; r].
Proof.
  intros Hs. unfold split.
  assert (Hf : forall l, string_span (fun a => negb (existsb (Ascii.eqb a) (String.list_ascii_of_string (String d "")))) l
               = string_span (fun a => negb (Ascii.eqb a d)) l).
  { induction l as [|a l IH]; simpl; [done|]. simpl in IH. rewrite IH. by rewrite orb_false_r. }
  destruct (String.length (s ++ String d r)) as [|m] eqn:E.
  { rewrite string_length_app in E. simpl in E. lia. }
  cbn [split_loop]. rewrite Hf, str_all_span by (done || by rewrite Ascii.eqb_refl).
  change (2 - 1 <=? 0) with false. cbn iota. f_equal. destruct m as [|m]; cbn [split_loop]; [done|].
  destruct (string_span _ r) as [p q]. by destruct q.
Qed.

Lemma atoi_dec v : 0 <= v < 2 ^ 31 -> atoi (dec_string v) = Ok v.
Proof.
  intros Hv. unfold atoi.
  destruct (dec_string_cons v) as (c & s & Es & Hc).
  assert (Hsp : string_span is_space (String c s) = (""%string, String c s)).
  { simpl. by rewrite digit_not_space. }
  rewrite Es, Hsp. cbn [snd]. unfold read_sign. rewrite !(digit_not c) by done.
  rewrite <- Es, str_all_span_nil by (by apply dec_string_all). cbn [fst].
  rewrite dec_string_read, DecimalN.Unsigned.of_to by lia. rewrite Z2N.id by lia.
  by rewrite bool_decide_eq_true_2 by lia.
Qed.

Section text_roundtrip.
Context `{L : InetLib} {HL : InetLibLaws L} (v : Z).
Hypothesis Hv : in_range 32 v.

Lemma netaddr_text p :
  in_range 8 p -> netaddr_of_string (netaddr_to_string (Netaddr (V4 v) p)) = Ok (Netaddr (V4 v) p).
Proof using HL Hv.
  intros Hp. unfold netaddr_of_string, netaddr_to_string.
  cbn [netaddr_is_null base_addr ip_is_null prefix_len]. rewrite ip_to_string_v4 by done.
  rewrite c_str_id.
  2: { rewrite !str_all_app, dotted_all, dec_string_all by (done || apply digit_no_nul). done. }
  change ("/" ++ dec_string p)%string with (String "/" (dec_string p)).
  rewrite split_two by (apply dotted_all; [intros c Hc; by rewrite (digit_not c "/")|done]).
  rewrite (c_str_id (dec_string p)) by (apply dec_string_all, digit_no_nul).
  unfold in_range in Hp. rewrite atoi_dec by lia. cbn [mbind outcome_bind].
  rewrite c_str_dotted, ip_of_string_dotted by done. by rewrite wrap_small.
Qed.

Lemma dotted_not_empty : exists c s, dotted v = String c s.
Proof using.
  unfold dotted, dotted_bytes. cbn [be_bytes app].
  match goal with |- context [dec_string ?x] => destruct (dec_string_cons x) as (c & s & -> & _) end.
  by do 2 eexists.
Qed.

Lemma ipport_text p :
  in_range 16 p -> ipport_of_string (ipport_to_string (Ipport (V4 v) p)) = Ok (Ipport (V4 v) p).
Proof using HL Hv.
  intros Hp. unfold ipport_of_string, ipport_to_string.
  cbn [ipport_is_null ipaddr ip_is_null port]. rewrite ip_to_string_v4 by done.
  set (pt := if (p =? 0)%Z then "default"%string else dec_string p).
  assert (Hpt : str_all no_nul pt = true).
  { subst pt. destruct (p =? 0); [done|]. apply dec_string_all, digit_no_nul. }
  assert (Hn : atoi pt = Ok p).
  { subst pt. destruct (Z.eqb_spec p 0) as [->|]; [vm_compute; reflexivity|].
    unfold in_range in Hp. by rewrite atoi_dec by lia. }
  rewrite c_str_id.
  2: { rewrite !str_all_app, dotted_all, Hpt by (done || apply digit_no_nul). done. }
  destruct dotted_not_empty as (c & s & E).
  change (":" ++ pt)%string with (String ":" pt).
  rewrite split_two by (apply dotted_all; [intros d Hd; by rewrite (digit_not d ":")|done]).
  rewrite (c_str_id pt), Hn by done. cbn [mbind outcome_bind].
  rewrite E. cbn [String.append String.eqb]. rewrite <- E, c_str_dotted, ip_of_string_dotted by done.
  rewrite wrap_small, E by done. done.
Qed.
End text_roundtrip.

(* ------------------------------------------------------------------ *)
(** * Lemmas: codecs *)
(* ------------------------------------------------------------------ *)

#[export] Instance map_laws {A B} (c : codec A) (f : A -> B) (g : B -> A) `{!CodecLaws c}
  (Hfg : forall b, f (g b) = b) (Hgf : forall a, g (f a) = a) : CodecLaws (map_codec c f g).
Proof.
  split; cbn [codec_ok wire_put wire_get put get map_codec].
  - intros b Hb. by apply wire_put_bytes.
  - intros b rest Hb. rewrite wire_get_put by done. simpl. by rewrite Hfg.
  - intros l b rest Hl. destruct (wire_get c l) as [[a l1]| | |] eqn:E; try done. simpl.
    intros [= <- <-]. rewrite Hgf. by apply (wire_get_valid (c := c)) in E.
  - intros b s Hb Hwf. by apply put_spec.
  - intros l s Hwf Hl Hc. pose proof (get_spec (c := c) l s Hwf Hl Hc) as H.
    unfold get_refines in *; cbn [wire_get get map_codec].
    destruct (wire_get c l) as [[a l1]|e| |]; simpl; try done; [|by rewrite H].
    destruct H as (s' & -> & ? & ?). simpl. eauto.
Qed.

Lemma used_length_contents s l : wf s -> contents s = Some <$> l -> used_length s = length l.
Proof. intros Hwf Hc. unfold used_length. rewrite <- (contents_length s Hwf), Hc. by rewrite length_fmap. Qed.

#[export] Instance ip_laws : CodecLaws ip_codec.
Proof.
  split; cbn [codec_ok wire_put wire_get put get ip_codec].
  - intros [|v] Hv; cbn [wire_put_ip]; [by repeat constructor|]. constructor; [done|apply be_bytes_ok].
  - intros [|v] rest Hv; unfold wire_get_ip; [done|].
    cbn [wire_put_ip app length]. rewrite bool_decide_eq_false_2 by lia.
    change (4 :: be_bytes 4 v ++ rest) with (be_bytes 1 4 ++ (be_bytes 4 v ++ rest)).
    change (be_bytes 1) with (wire_put u8_codec). rewrite wire_get_put by done. cbn [mbind outcome_bind Z.eqb Pos.eqb negb].
    rewrite bool_decide_eq_false_2 by (rewrite length_app, be_bytes_length; lia).
    change (be_bytes 4) with (wire_put u32_codec). by rewrite wire_get_put.
  - intros l a rest Hl. unfold wire_get_ip. case_bool_decide; [done|].
    destruct (wire_get u8_codec l) as [[ver l1]| | |] eqn:E; try done. cbn [mbind outcome_bind].
    apply wire_get_valid in E as [_ Hl1]; [|done].
    destruct (ver =? 0); [intros [= <- <-]; done|]. destruct (negb _); [done|].
    case_bool_decide; [done|]. destruct (wire_get u32_codec l1) as [[v l2]| | |] eqn:E; try done.
    cbn [mbind outcome_bind]. intros [= <- <-]. by apply wire_get_valid in E as [??].
  - intros a s Ha Hwf. unfold put_ip_addr. change put_u8 with (put u8_codec).
    destruct (put_spec (c := u8_codec) (get_version a) s) as (s1 & -> & Hwf1 & Hc1); [by destruct a|done|].
    cbn [mbind outcome_bind]. destruct a as [|v]; [by exists s1|].
    destruct (put_spec (c := u32_codec) v s1 Ha Hwf1) as (s2 & E & Hwf2 & Hc2).
    exists s2. split; [exact E|]. split; [done|]. rewrite Hc2, Hc1, <- app_assoc. done.
  - intros l s Hwf Hl Hc. unfold get_refines; cbn [wire_get get ip_codec]. unfold wire_get_ip, get_ip_addr.
    rewrite (used_length_contents s l Hwf Hc). case_bool_decide; [done|].
    pose proof (get_spec (c := u8_codec) l s Hwf Hl Hc) as Hg. unfold get_refines in Hg.
    change (get u8_codec s) with (get_u8 s) in Hg.
    destruct (wire_get u8_codec l) as [[ver l1]|e| |] eqn:E; cbn [mbind outcome_bind]; try done; [|by rewrite Hg].
    apply wire_get_valid in E as [_ Hl1]; [|done]. destruct Hg as (s1 & -> & Hwf1 & Hc1). cbn [mbind outcome_bind].
    destruct (ver =? 0); [by exists s1|]. destruct (negb _); [done|].
    rewrite (used_length_contents s1 l1 Hwf1 Hc1). case_bool_decide; [done|].
    pose proof (get_spec (c := u32_codec) l1 s1 Hwf1 Hl1 Hc1) as Hg. unfold get_refines in Hg.
    change (get u32_codec s1) with (get_u32 s1) in Hg.
    destruct (wire_get u32_codec l1) as [[v l2]|e| |]; cbn [mbind outcome_bind]; try done; [|by rewrite Hg].
    destruct Hg as (s2 & -> & ? & ?). simpl. eauto.
Qed.

(** A value written to an empty buffer is read back, and leaves it empty. *)
Lemma codec_buffer_roundtrip {A} (c : codec A) `{!CodecLaws c} a s :
  codec_ok c a -> wf s -> contents s = [] ->
  exists s1 s2, put c a s = Ok s1 /\ get c s1 = Ok (a, s2) /\ contents s2 = [].
Proof.
  intros Ha Hwf Hc. destruct (put_spec (c := c) a s Ha Hwf) as (s1 & Hput & Hwf1 & Hc1).
  rewrite Hc in Hc1. pose proof (get_spec (c := c) _ s1 Hwf1 (wire_put_bytes a Ha) Hc1) as Hg.
  unfold get_refines in Hg. rewrite <- (app_nil_r (wire_put c a)), wire_get_put in Hg by done.
  destruct Hg as (s2 & Hget & _ & Hc2). exists s1, s2. done.
Qed.

#[export] Instance netaddr_laws : CodecLaws netaddr_codec.
Proof. apply (map_laws _ _ _); [by intros []|by intros []]. Qed.
#[export] Instance ipport_laws : CodecLaws ipport_codec.
Proof. apply (map_laws _ _ _); [by intros []|by intros []]. Qed.

(** [operator >>] of [ip_netaddr_t] goes through the constructor, which
    truncates the prefix to 8 bits. *)
Lemma get_netaddr_codec s n s' :
  in_range 8 (prefix_len n) -> get netaddr_codec s = Ok (n, s') -> get_netaddr s = Ok (n, s').
Proof.
  intros Hp. unfold netaddr_codec, get_netaddr. cbn [get map_codec pair_codec u8_codec ip_codec].
  destruct (get_u8 s) as [[p s1]| | |]; cbn [mbind outcome_bind]; try done.
  destruct (get_ip_addr s1) as [[b s2]| | |]; cbn [mbind outcome_bind fst snd]; try done.
  intros [= <- <-]. simpl in Hp. unfold netaddr_ctor. by rewrite wrap_small.
Qed.

Lemma get_ipport_codec s : get_ipport s = get ipport_codec s.
Proof.
  unfold ipport_codec, get_ipport. cbn [get map_codec pair_codec u16_codec ip_codec].
  destruct (get_ip_addr s) as [[b s2]| | |]; cbn [mbind outcome_bind fst snd]; try done.
  by destruct (get_u16 s2) as [[p s1]| | |].
Qed.

(* ------------------------------------------------------------------ *)
(** * Lemmas: the cursor *)
(* ------------------------------------------------------------------ *)

Fixpoint cursor_iter (n : ip_netaddr_t) (i : nat) (cur : ip_addr_t) : outcome ip_addr_t :=
  match i with
  | O => Ok cur
  | S i' => let* c := cursor_iter n i' cur in get_next_addr n c
  end.

(** The first and the last address the cursor gives: the base address, or the
    one after the network's own address; and the one before the broadcast
    address. *)
Definition host_lo (b p : Z) : Z := if b =? net_lo b (32 - p) then b + 1 else b.
Definition host_hi (b p : Z) : Z := net_hi b (32 - p) - 1.

Section cursor.
Context (b p : Z).
Hypothesis Hb : in_range 32 b.
Hypothesis Hp : 1 <= p <= 32.
Let n := Netaddr (V4 b) p.

Lemma contain_bounds a : net_lo b (32 - p) <= a <= net_hi b (32 - p) -> contain n (V4 a) = Ok true.
Proof using Hb Hp.
  intros Ha. unfold n. rewrite contain_spec by done. f_equal. apply Z.eqb_eq. by apply same_net.
Qed.

Lemma contain_out a : ~ (net_lo b (32 - p) <= a <= net_hi b (32 - p)) -> contain n (V4 a) = Ok false.
Proof using Hb Hp.
  intros Ha. unfold n. rewrite contain_spec by done. f_equal. apply Z.eqb_neq.
  intros E. apply Ha. by apply same_net.
Qed.

Lemma get_first_spec :
  get_first_addr n = Ok (V4 (if (b =? net_lo b (32 - p)) && negb (b =? net_hi b (32 - p)) then b + 1 else b)).
Proof using Hb Hp.
  pose proof (net_bounds b p Hb Hp) as [[H1 H2] [H3 H4]]. unfold get_first_addr, n.
  rewrite get_any_spec by done. cbn [mbind outcome_bind base_addr].
  unfold ip_eq, ip_compare. destruct (Z.ltb_spec b (net_lo b (32 - p))); [lia|].
  destruct (Z.eqb_spec b (net_lo b (32 - p))) as [Elo|Hlo]; simpl.
  - rewrite (proj2 (Z.ltb_ge (net_lo b (32 - p)) b)) by lia. simpl.
    destruct (Z.eqb_spec b (net_hi b (32 - p))) as [Ehi|Hhi]; simpl.
    + fold n. destruct (decide (b + 1 < 2 ^ 32)).
      * rewrite wrap_small by (unfold in_range in *; lia). by rewrite contain_out by lia.
      * unfold wrap. replace (b + 1) with (2 ^ 32) by lia. change (2 ^ 32 mod 2 ^ 32) with 0.
        rewrite contain_out; [done|]. unfold in_range in *. lia.
    + rewrite wrap_small by (unfold in_range in *; lia). fold n. by rewrite contain_bounds by lia.
  - rewrite (proj2 (Z.ltb_lt (net_lo b (32 - p)) b)) by lia. simpl. fold n. by rewrite contain_bounds by lia.
Qed.

Lemma get_last_spec :
  get_last_addr n = Ok (V4 (if net_lo b (32 - p) =? net_hi b (32 - p) then net_hi b (32 - p) else net_hi b (32 - p) - 1)).
Proof using Hb Hp.
  pose proof (net_bounds b p Hb Hp) as [[H1 H2] [H3 H4]]. unfold get_last_addr, n.
  rewrite get_bcast_spec by done. cbn [mbind outcome_bind base_addr ip_sub get_v4_addr]. fold n.
  destruct (Z.eqb_spec (net_lo b (32 - p)) (net_hi b (32 - p))) as [E|Hne].
  - destruct (decide (net_hi b (32 - p) = 0)) as [E0|].
    + rewrite E0. change (wrap 32 (0 - 1)) with (2 ^ 32 - 1). rewrite contain_out by lia. done.
    + rewrite wrap_small by (unfold in_range; lia). by rewrite contain_out by lia.
  - rewrite wrap_small by (unfold in_range; lia). by rewrite contain_bounds by lia.
Qed.
End cursor.

Lemma get_next_spec b p a :
  in_range 32 b -> 1 <= p <= 32 -> in_range 32 a -> host_lo b p <= host_hi b p ->
  get_next_addr (Netaddr (V4 b) p) (V4 a) =
    Ok (V4 (if a =? host_hi b p then host_lo b p else wrap 32 (a + 1))).
Proof.
  intros Hb Hp Ha Hle. unfold get_next_addr. cbn [ip_is_null]. rewrite get_last_spec by done.
  cbn [mbind outcome_bind]. unfold host_lo, host_hi in *.
  pose proof (net_bounds b p Hb Hp) as [[H1 H2] [H3 H4]].
  assert (net_lo b (32 - p) <> net_hi b (32 - p)).
  { destruct (Z.eqb_spec b (net_lo b (32 - p))); lia. }
  rewrite (proj2 (Z.eqb_neq _ _)) by done. unfold ip_eq, ip_compare.
  destruct (Z.eqb_spec a (net_hi b (32 - p) - 1)) as [->|Hne].
  - rewrite Z.ltb_irrefl. simpl. rewrite get_first_spec by done. do 2 f_equal.
    destruct (Z.eqb_spec b (net_lo b (32 - p))); simpl; [|done].
    by rewrite (proj2 (Z.eqb_neq b _)) by lia.
  - destruct (Z.ltb_spec a (net_hi b (32 - p) - 1)); simpl; [done|].
    by rewrite (proj2 (Z.ltb_lt (net_hi b (32 - p) - 1) a)) by lia.
Qed.

(* ------------------------------------------------------------------ *)
(** * Theorems *)
(* ------------------------------------------------------------------ *)

Lemma in_netaddr_spec `{L : InetLib} {HL : InetLibLaws L} base c p a :
  base = dotted c -> in_range 32 c -> 1 <= p <= 32 ->
  in_netaddr base p (V4 a) = Ok (a / 2 ^ (32 - p) =? c / 2 ^ (32 - p)).
Proof.
  intros -> Hc Hp. unfold in_netaddr, netaddr_ctor. rewrite ip_of_string_dotted by done.
  rewrite wrap_small by (unfold in_range; lia). by apply contain_spec.
Qed.

Section classes.
Context `{L : InetLib} {HL : InetLibLaws L} (a : Z).
Hypothesis Ha : in_range 32 a.

Lemma if_Ok (b : bool) : (if b then Ok true else Ok false) = Ok b.
Proof. by destruct b. Qed.

Lemma is_localhost_spec : is_localhost (V4 a) = Ok (a / 2 ^ 24 =? 127).
Proof using HL.
  unfold is_localhost. cbn [ip_is_null is_v4 dbg_assert].
  rewrite (in_netaddr_spec _ (127 * 2 ^ 24)) by (done || lia). apply if_Ok.
Qed.

Lemma is_linklocal_spec : is_linklocal (V4 a) = Ok (a / 2 ^ 16 =? 169 * 256 + 254).
Proof using HL.
  unfold is_linklocal. cbn [ip_is_null is_v4 dbg_assert].
  rewrite (in_netaddr_spec _ ((169 * 256 + 254) * 2 ^ 16)) by (done || lia). apply if_Ok.
Qed.

Lemma is_multicast_spec : is_multicast (V4 a) = Ok (a / 2 ^ 28 =? 14).
Proof using HL.
  unfold is_multicast. cbn [ip_is_null is_v4 dbg_assert].
  rewrite (in_netaddr_spec _ (14 * 2 ^ 28)) by (done || lia). apply if_Ok.
Qed.

Lemma is_private_spec :
  is_private (V4 a) =
    Ok ((a / 2 ^ 24 =? 10) || (a / 2 ^ 20 =? 172 * 16 + 1) || (a / 2 ^ 16 =? 192 * 256 + 168)).
Proof using HL.
  unfold is_private. cbn [ip_is_null is_v4 dbg_assert].
  rewrite (in_netaddr_spec "10.0.0.0" (10 * 2 ^ 24)) by (done || lia). cbn [mbind outcome_bind].
  rewrite (in_netaddr_spec "172.16.0.0" ((172 * 16 + 1) * 2 ^ 20)) by (done || lia). cbn [mbind outcome_bind].
  rewrite (in_netaddr_spec "192.168.0.0" ((192 * 256 + 168) * 2 ^ 16)) by (done || lia). cbn [mbind outcome_bind].
  change (32 - 8) with 24. change (10 * 2 ^ 24 / 2 ^ 24) with 10.
  change (32 - 12) with 20. change ((172 * 16 + 1) * 2 ^ 20 / 2 ^ 20) with (172 * 16 + 1).
  change (32 - 16) with 16. change ((192 * 256 + 168) * 2 ^ 16 / 2 ^ 16) with (192 * 256 + 168).
  by destruct (a / 2 ^ 24 =? 10), (a / 2 ^ 20 =? 172 * 16 + 1), (a / 2 ^ 16 =? 192 * 256 + 168).
Qed.

Lemma ip_eq_v4 c : ip_eq (V4 a) (V4 c) = (a =? c).
Proof using.
  clear. unfold ip_eq, ip_compare.
  destruct (Z.ltb_spec a c), (Z.ltb_spec c a), (Z.eqb_spec a c); done || lia.
Qed.

Lemma is_any_spec : is_any (V4 a) = Ok (a =? 0).
Proof using HL.
  unfold is_any. cbn [ip_is_null is_v4 dbg_assert].
  change "0.0.0.0"%string with (dotted 0). by rewrite ip_of_string_dotted, ip_eq_v4.
Qed.

Lemma is_broadcast_spec : is_broadcast (V4 a) = Ok (a =? 2 ^ 32 - 1).
Proof using HL.
  unfold is_broadcast. cbn [ip_is_null is_v4 dbg_assert].
  rewrite <- dotted_max. by rewrite ip_of_string_dotted, ip_eq_v4.
Qed.
End classes.

(** The address classes on every IPv4 address, against the ranges of the
    RFCs: localhost 127/8, link-local 169.254/16, private 10/8, 172.16/12 and
    192.168/16, multicast 224/4; a public address is none of these, nor any
    nor broadcast.  The null address is in no class, and no test fails. *)
Theorem ip_classes_correct `{L : InetLib} {HL : InetLibLaws L} (a : Z) (Ha : in_range 32 a) :
  let localhost := a / 2 ^ 24 =? 127 in
  let linklocal := a / 2 ^ 16 =? 169 * 256 + 254 in
  let private := (a / 2 ^ 24 =? 10) || (a / 2 ^ 20 =? 172 * 16 + 1) || (a / 2 ^ 16 =? 192 * 256 + 168) in
  let multicast := a / 2 ^ 28 =? 14 in
  let qualified := negb (a =? 0) && negb multicast && negb (a =? 2 ^ 32 - 1) in
  is_localhost (V4 a) = Ok localhost /\ is_linklocal (V4 a) = Ok linklocal /\
  is_private (V4 a) = Ok private /\ is_multicast (V4 a) = Ok multicast /\
  is_any (V4 a) = Ok (a =? 0) /\ is_broadcast (V4 a) = Ok (a =? 2 ^ 32 - 1) /\
  ip_is_fully_qualified (V4 a) = Ok qualified /\
  is_public (V4 a) = Ok (qualified && negb private && negb localhost && negb linklocal) /\
  Forall (fun t => t IP_NULL = Ok false)
    [is_localhost; is_linklocal; is_private; is_multicast; is_any; is_broadcast;
     ip_is_fully_qualified; is_public].
Proof.
  intros localhost linklocal private multicast qualified.
  assert (Hq : ip_is_fully_qualified (V4 a) = Ok qualified).
  { unfold ip_is_fully_qualified, none_of. cbn [ip_is_null].
    rewrite is_any_spec, is_multicast_spec, is_broadcast_spec. cbn [mbind outcome_bind].
    unfold qualified, multicast. by destruct (a =? 0), (a / 2 ^ 28 =? 14), (a =? 2 ^ 32 - 1). }
  split_and!; auto using is_localhost_spec, is_linklocal_spec, is_private_spec, is_multicast_spec,
    is_any_spec, is_broadcast_spec.
  - unfold is_public, none_of. cbn [ip_is_null].
    rewrite Hq, is_private_spec, is_localhost_spec, is_linklocal_spec. cbn [mbind outcome_bind].
    fold private localhost linklocal. by destruct qualified, private, localhost, linklocal.
  - repeat constructor.
Qed.

(** Membership in a network: an address is in [base/prefix] exactly when
    its [prefix] high bits are the base's, and the network's own and broadcast
    addresses are the least and the greatest of these; for every prefix from 1
    to 32.  Prefix 0, and any above 32, is undefined behaviour. *)
Theorem netaddr_contain_prefix (b p a : Z) (Hb : in_range 32 b) (Hp : in_range 8 p) (Ha : in_range 32 a) :
  let n := Netaddr (V4 b) p in
  (1 <= p <= 32 ->
   contain n (V4 a) = Ok (Z.shiftr a (32 - p) =? Z.shiftr b (32 - p)) /\
   exists lo hi, get_any_addr n = Ok (V4 lo) /\ get_bcast_addr n = Ok (V4 hi) /\
     hi - lo = 2 ^ (32 - p) - 1 /\ (contain n (V4 a) = Ok true <-> lo <= a <= hi)) /\
  (p = 0 \/ 32 < p -> contain n (V4 a) = Fault) /\
  contain n IP_NULL = Ok false.
Proof.
  intros n. split_and!; [| |done].
  - intros Hp'. split.
    + unfold n. rewrite contain_spec, !Z.shiftr_div_pow2 by (done || lia). done.
    + exists (net_lo b (32 - p)), (net_hi b (32 - p)). unfold n.
      rewrite get_any_spec, get_bcast_spec, contain_spec by done. split_and!; try done.
      * unfold net_lo, net_hi. lia.
      * rewrite (same_net b p) by done. rewrite <- Z.eqb_eq. split; [by intros [= ->]|by intros ->].
  - intros Hp'. unfold contain, get_any_addr, get_netmask, n. cbn.
    rewrite bool_decide_eq_false_2 by (unfold in_range in *; lia). done.
Qed.

Lemma host_bounds b p :
  in_range 32 b -> 1 <= p <= 32 -> host_lo b p <= host_hi b p ->
  net_lo b (32 - p) <= host_lo b p /\ host_hi b p < net_hi b (32 - p) < 2 ^ 32 /\ 0 <= host_lo b p.
Proof.
  intros Hb Hp Hle. pose proof (net_bounds b p Hb Hp) as [[H1 H2] [H3 H4]].
  unfold host_lo, host_hi in *. destruct (Z.eqb_spec b (net_lo b (32 - p))); lia.
Qed.

Lemma cursor_iter_spec b p i :
  in_range 32 b -> 1 <= p <= 32 -> host_lo b p <= host_hi b p ->
  cursor_iter (Netaddr (V4 b) p) (S i) IP_NULL =
    Ok (V4 (host_lo b p + Z.of_nat i mod (host_hi b p - host_lo b p + 1))).
Proof.
  intros Hb Hp Hle. destruct (host_bounds b p Hb Hp Hle) as (Hlo & Hhi & H0).
  set (m := host_hi b p - host_lo b p + 1). assert (Hm : m = host_hi b p - host_lo b p + 1) by done.
  induction i as [|i IH].
  - change (Z.of_nat 0) with 0. rewrite Z.mod_0_l, Z.add_0_r by lia.
    cbn [cursor_iter mbind outcome_bind get_next_addr ip_is_null].
    rewrite get_first_spec by done. do 2 f_equal. unfold host_lo, host_hi in *.
    destruct (Z.eqb_spec b (net_lo b (32 - p))); simpl; [|done].
    by rewrite (proj2 (Z.eqb_neq b (net_hi b (32 - p)))) by lia.
  - change (cursor_iter ?n (S (S i)) IP_NULL) with
      (let* c := cursor_iter n (S i) IP_NULL in get_next_addr n c).
    rewrite IH. cbn [mbind outcome_bind].
    pose proof (Z.mod_pos_bound (Z.of_nat i) m ltac:(lia)) as Hi.
    rewrite get_next_spec by (done || (unfold in_range; lia)). do 2 f_equal.
    rewrite Nat2Z.inj_succ, <- Z.add_1_r, <- (Zplus_mod_idemp_l (Z.of_nat i)).
    destruct (Z.eqb_spec (host_lo b p + Z.of_nat i mod m) (host_hi b p)) as [E|E].
    + replace (Z.of_nat i mod m + 1) with m by lia. rewrite Z.mod_same by lia. lia.
    + rewrite (Z.mod_small (_ + 1)) by lia. rewrite wrap_small by (unfold in_range; lia). lia.
Qed.

(** The address cursor: starting from the null address, [get_next_addr]
    gives the host addresses of the network from the base address on, each
    once per turn, and starts again; so it never ends and never leaves the
    network.  When the base is the broadcast address of the network there is
    no such address, and the second call leaves the network. *)
Theorem netaddr_cursor_cycles (b p : Z) (i : nat) (Hb : in_range 32 b) (Hp : 1 <= p <= 32) :
  let n := Netaddr (V4 b) p in
  (host_lo b p <= host_hi b p ->
   let a := host_lo b p + Z.of_nat i mod (host_hi b p - host_lo b p + 1) in
   cursor_iter n (S i) IP_NULL = Ok (V4 a) /\ contain n (V4 a) = Ok true) /\
  (get_bcast_addr n = Ok (V4 b) -> p < 32 ->
   exists a, cursor_iter n 2 IP_NULL = Ok (V4 a) /\ contain n (V4 a) = Ok false).
Proof.
  intros n. split.
  - intros Hle a. split; [by apply cursor_iter_spec|].
    destruct (host_bounds b p Hb Hp Hle) as (Hlo & Hhi & H0).
    pose proof (Z.mod_pos_bound (Z.of_nat i) (host_hi b p - host_lo b p + 1) ltac:(lia)).
    apply contain_bounds; [done|done|]. unfold a. lia.
  - unfold n. rewrite get_bcast_spec by done. intros [= Ehi] Hp'.
    pose proof (net_bounds b p Hb Hp) as [[H1 H2] [H3 H4]].
    assert (Hne : net_lo b (32 - p) <> net_hi b (32 - p)).
    { unfold net_lo, net_hi. assert (2 ^ 1 <= 2 ^ (32 - p)) by (apply Z.pow_le_mono_r; lia). lia. }
    exists (wrap 32 (b + 1)). cbn [cursor_iter mbind outcome_bind]. unfold get_next_addr at 2.
    cbn [ip_is_null].
    rewrite get_first_spec by done. rewrite (proj2 (Z.eqb_eq b (net_hi b (32 - p)))), andb_false_r by lia.
    unfold get_next_addr. cbn [mbind outcome_bind ip_is_null]. rewrite get_last_spec, (proj2 (Z.eqb_neq _ _)) by done.
    cbn [mbind outcome_bind]. unfold ip_eq, ip_compare. rewrite (proj2 (Z.ltb_ge _ _)) by lia.
    rewrite (proj2 (Z.ltb_lt _ _)) by lia. split; [done|].
    apply contain_out; [done|done|]. destruct (decide (b + 1 < 2 ^ 32)).
    + rewrite wrap_small by (unfold in_range in *; lia). lia.
    + unfold wrap. replace (b + 1) with (2 ^ 32) by lia. change (2 ^ 32 mod 2 ^ 32) with 0.
      unfold net_lo, net_hi in *. assert (2 ^ (32 - p) <= 2 ^ 31) by (apply Z.pow_le_mono_r; lia). lia.
Qed.

(** Round trips: addresses, networks and address:port pairs, null ones
    included, written to an empty buffer are read back; an unknown version
    a truncated address are refused; and the displayed form of a non-null one
    is parsed back, the default port included. *)
Theorem inet_addr_roundtrip `{L : InetLib} {HL : InetLibLaws L} (ip : ip_addr_t) (p8 p16 ver : Z)
    (s : serial_t) (Hip : ip_ok ip) (H8 : in_range 8 p8) (H16 : in_range 16 p16)
    (Hver : 4 < ver < 256) (Hwf : wf s) (Hs : contents s = []) :
  let n := Netaddr ip p8 in
  let a := Ipport ip p16 in
  (exists s1 s2, put_netaddr n s = Ok s1 /\ get_netaddr s1 = Ok (n, s2) /\ contents s2 = []) /\
  (exists s1 s2, put_ipport a s = Ok s1 /\ get_ipport s1 = Ok (a, s2) /\ contents s2 = []) /\
  (forall s1, put_u8 ver s = Ok s1 ->
     get_ip_addr s1 = Throw "ip_addr_t tried to unserialized a unknown version") /\
  (ip <> IP_NULL ->
   ip_of_string (ip_to_string ip) = ip /\
   netaddr_of_string (netaddr_to_string n) = Ok n /\
   ipport_of_string (ipport_to_string a) = Ok a /\
   (let* sa := ip_to_sockaddr ip in ip_of_sockaddr sa) = Ok ip /\
   (let* sa := ipport_to_sockaddr a in ipport_of_sockaddr sa) = Ok a).
Proof.
  intros n a. split_and!.
  - destruct (codec_buffer_roundtrip netaddr_codec n s) as (s1 & s2 & H1 & H2 & H3); [done|done|done|].
    exists s1, s2. split_and!; [exact H1|by apply get_netaddr_codec|done].
  - destruct (codec_buffer_roundtrip ipport_codec a s) as (s1 & s2 & H1 & H2 & H3); [done|done|done|].
    exists s1, s2. rewrite get_ipport_codec. by split_and!; [exact H1| |].
  - intros s1 H. destruct (codec_buffer_roundtrip u8_codec ver s) as (s1' & s2 & H1 & H2 & H3);
      [unfold codec_ok; simpl; unfold in_range; lia|done|done|].
    change (put u8_codec ver s) with (put_u8 ver s) in H1. rewrite H in H1. injection H1 as <-.
    change (get u8_codec s1) with (get_u8 s1) in H2. unfold get_ip_addr.
    destruct (put_spec (c := u8_codec) ver s) as (s1' & E & Hwf1 & Hc1);
      [unfold codec_ok; simpl; unfold in_range; lia|done|].
    change (put u8_codec ver s) with (put_u8 ver s) in E. rewrite H in E. injection E as <-.
    rewrite (used_length_contents s1 (be_bytes 1 ver)) by (done || by rewrite Hc1, Hs).
    rewrite be_bytes_length, bool_decide_eq_false_2, H2 by lia. cbn [mbind outcome_bind].
    by rewrite !(proj2 (Z.eqb_neq ver _)) by lia.
  - intros Hnull. destruct ip as [|v]; [done|]. simpl in Hip.
    pose proof (ip_of_string_dotted v Hip) as Hparse. rewrite (ip_to_string_v4 v Hip).
    split_and!; [done|by apply netaddr_text|by apply ipport_text| |].
    + unfold ip_to_sockaddr, ip_of_sockaddr. simpl. by rewrite hton_inv.
    + unfold ipport_to_sockaddr, ipport_of_sockaddr. simpl. rewrite hton_inv by done.
      do 2 f_equal. apply (swap_inv 2). exact H16.
Qed.

(* ------------------------------------------------------------------ *)
(** * Witnesses *)
(* ------------------------------------------------------------------ *)

(** A C library that only reads dotted addresses. *)
Fixpoint quad_parse (n : nat) (s : string) : option (list Z) :=
  let (d, r) := string_span is_digit s in
  u ← NilZero.uint_of_string d;
  let b := Z.of_N (N.of_uint u) in
  if 256 <=? b then None
  else
    match n, r with
    | O, EmptyString => Some [b]
    | S n', String c r' => if Ascii.eqb c "." then l ← quad_parse n' r'; Some (b :: l) else None
    | _, _ => None
    end.

#[local] Instance quad_lib : InetLib := {
  inet_addr s := match quad_parse 3 s with Some l => htonl (be_value l) | None => INADDR_NONE end;
  inet_ntoa x := dotted (ntohl x)
}.

Lemma quad_parse_dec b n r :
  0 <= b < 256 -> match r with String a _ => is_digit a = false | EmptyString => True end ->
  quad_parse n (dec_string b ++ r) =
    match n, r with
    | O, EmptyString => Some [b]
    | S n', String c r' => if Ascii.eqb c "." then l ← quad_parse n' r'; Some (b :: l) else None
    | _, _ => None
    end.
Proof.
  intros Hb Hr. destruct n as [|n]; cbn [quad_parse];
    rewrite str_all_span by (done || by apply dec_string_all);
    rewrite dec_string_read by lia; cbn [mbind option_bind];
    rewrite DecimalN.Unsigned.of_to, Z2N.id by lia;
    by rewrite (proj2 (Z.leb_gt 256 b)) by lia.
Qed.

#[local] Arguments String.append : simpl nomatch.

#[local] Instance quad_lib_laws : InetLibLaws quad_lib.
Proof.
  split.
  - intros a Ha. unfold inet_addr, quad_lib. replace (quad_parse 3 (dotted a)) with (Some (be_bytes 4 a)).
    { by rewrite be_value_bytes_small. }
    unfold dotted, dotted_bytes. cbn [be_bytes app].
    assert (Hm : forall x, 0 <= x mod 256 < 256) by (intros; apply Z.mod_pos_bound; lia).
    rewrite quad_parse_dec by done. cbn [String.append Ascii.eqb Bool.eqb].
    rewrite quad_parse_dec by done. cbn [String.append Ascii.eqb Bool.eqb].
    rewrite quad_parse_dec by done. cbn [String.append Ascii.eqb Bool.eqb].
    rewrite <- (string_app_nil (dec_string (a mod 256))). by rewrite quad_parse_dec.
  - intros a Ha. unfold inet_ntoa, quad_lib. by rewrite hton_inv.
  - reflexivity.
Qed.

Lemma ip_classes_correct_witness :
  in_range 32 (192 * 2 ^ 24 + 168 * 2 ^ 16 + 1) /\
  is_private (V4 (192 * 2 ^ 24 + 168 * 2 ^ 16 + 1)) = Ok true /\ is_public (V4 (8 * 2 ^ 24)) = Ok true.
Proof.
  split; [by vm_compute|]. split.
  - destruct (ip_classes_correct (192 * 2 ^ 24 + 168 * 2 ^ 16 + 1)) as (_ & _ & H & _); [by vm_compute|exact H].
  - destruct (ip_classes_correct (8 * 2 ^ 24)) as (_ & _ & _ & _ & _ & _ & _ & H & _); [by vm_compute|exact H].
Defined.

Lemma netaddr_contain_prefix_witness :
  contain (Netaddr (V4 (10 * 2 ^ 24)) 8) (V4 (10 * 2 ^ 24 + 7)) = Ok true /\
  contain (Netaddr (V4 (10 * 2 ^ 24)) 0) (V4 7) = Fault.
Proof.
  split.
  - destruct (netaddr_contain_prefix (10 * 2 ^ 24) 8 (10 * 2 ^ 24 + 7)) as [H _]; [by vm_compute..|].
    destruct H as [H _]; [lia|exact H].
  - destruct (netaddr_contain_prefix (10 * 2 ^ 24) 0 7) as (_ & H & _); [by vm_compute..|].
    apply H. by left.
Defined.

Lemma netaddr_cursor_cycles_witness :
  cursor_iter (Netaddr (V4 (10 * 2 ^ 24 + 4)) 30) 3 IP_NULL = Ok (V4 (10 * 2 ^ 24 + 5)).
Proof.
  destruct (netaddr_cursor_cycles (10 * 2 ^ 24 + 4) 30 2) as [H _]; [by vm_compute|lia|].
  destruct H as [H _]; [by vm_compute|exact H].
Defined.

Lemma inet_addr_roundtrip_witness :
  ipport_of_string (ipport_to_string (Ipport (V4 (10 * 2 ^ 24 + 1)) 80)) = Ok (Ipport (V4 (10 * 2 ^ 24 + 1)) 80).
Proof.
  destruct (inet_addr_roundtrip (V4 (10 * 2 ^ 24 + 1)) 8 80 6 serial_null) as (_ & _ & _ & H);
    [by vm_compute|by vm_compute|by vm_compute|by vm_compute|exact wf_null|done|].
  destruct H as (_ & _ & H & _); [discriminate|exact H].
Defined.
