(* ===== verification/Aview.v ===== *)
(** Views of a listening address across network address translation:
    [ipport_aview_t] (src/src/neoip_inet/base/address/ipport_aview/) and
    [ipport_aview_helper_t], which chooses the address to listen on from the
    configuration, the address to publish to a peer, and the address a peer
    derives from a published one. *)
From S2P Require Import Prelude Text InetAddr.

Section aview.
Context `{InetLib}.

(* ------------------------------------------------------------------ *)
(** * ipport_aview_t *)
(* ------------------------------------------------------------------ *)

Record ipport_aview_t := Aview { lview : ipport_addr_t; pview : ipport_addr_t }.

Definition aview_is_null (v : ipport_aview_t) : bool := ipport_is_null (lview v).
Definition is_inetreach_ok (v : ipport_aview_t) : bool := negb (ipport_is_null (pview v)).

(** [a || b] on two queries. *)
Definition or_else (a b : outcome bool) : outcome bool :=
  let* x := a in if (x : bool) then Ok true else b.
Definition and_then (a b : outcome bool) : outcome bool :=
  let* x := a in if (x : bool) then b else Ok false.

(** [is_any() || is_fully_qualified()]. *)
Definition any_or_qualified (a : ip_addr_t) : outcome bool :=
  or_else (is_any a) (ip_is_fully_qualified a).

Definition aview_is_fully_qualified (v : ipport_aview_t) : outcome bool :=
  and_then (ipport_is_fully_qualified (lview v)) (ipport_is_fully_qualified (pview v)).

(** The checks are assertions: the functions return true or abort. *)
Definition is_sane_common (v : ipport_aview_t) : outcome bool :=
  assert! negb (ipport_is_null (lview v)) in
  let* q := any_or_qualified (ipaddr (lview v)) in
  assert! q in
  if ipport_is_null (pview v) then Ok true
  else
    assert! negb (port (pview v) =? 0) in
    let* q := any_or_qualified (ipaddr (pview v)) in
    assert! q in Ok true.

Definition is_run_ok (v : ipport_aview_t) : outcome bool :=
  let* c := is_sane_common v in
  assert! c in
  assert! negb (port (lview v) =? 0) in Ok true.

Definition is_cfg_ok (v : ipport_aview_t) : outcome bool :=
  let* c := is_sane_common v in assert! c in Ok true.

Definition update_once_bound (bound_lview : ipport_addr_t) (v : ipport_aview_t) : outcome ipport_aview_t :=
  let* c := is_cfg_ok v in
  assert! c in
  let v1 := Aview bound_lview (pview v) in
  let* r := is_run_ok v1 in
  assert! r in Ok v1.

Definition aview_compare (v other : ipport_aview_t) : Z :=
  if aview_is_null v && negb (aview_is_null other) then -1
  else if negb (aview_is_null v) && aview_is_null other then 1
  else if aview_is_null v && aview_is_null other then 0
  else if ipport_compare (lview v) (lview other) <? 0 then -1
  else if 0 <? ipport_compare (lview v) (lview other) then 1
  else if ipport_compare (pview v) (pview other) <? 0 then -1
  else if 0 <? ipport_compare (pview v) (pview other) then 1
  else 0.

Definition is_natted (v : ipport_aview_t) : outcome bool :=
  let* q := aview_is_fully_qualified v in
  assert! q in Ok (negb (ipport_compare (lview v) (pview v) =? 0)).

Definition aview_to_string (v : ipport_aview_t) : string :=
  if aview_is_null v then "null"
  else ("[lview=" ++ ipport_to_string (lview v) ++ " pview=" ++ ipport_to_string (pview v) ++ "]")%string.

(* ------------------------------------------------------------------ *)
(** * Publication of the listening address *)
(* ------------------------------------------------------------------ *)

Definition listen_aview2xmit (listen_aview : ipport_aview_t) (dst_ipport : ipport_addr_t) : outcome ipport_addr_t :=
  let* q := ipport_is_fully_qualified dst_ipport in
  assert! q in
  let* r := is_run_ok listen_aview in
  assert! r in
  let* p := is_public (ipaddr dst_ipport) in
  if negb p then Ok (lview listen_aview)
  else if negb (ipport_is_null (pview listen_aview)) then Ok (pview listen_aview)
  else Ok ipport_null.

Definition listen_xmit2dest (xmit_listen_ipport src_ipport : ipport_addr_t) : outcome ipport_addr_t :=
  let* q := ipport_is_fully_qualified src_ipport in
  assert! q in
  if ipport_is_null xmit_listen_ipport then Ok ipport_null
  else
    assert! negb (ip_is_null (ipaddr xmit_listen_ipport)) && negb (port xmit_listen_ipport =? 0) in
    let* q := ip_is_fully_qualified (ipaddr xmit_listen_ipport) in
    if (q : bool) then Ok xmit_listen_ipport
    else
      let* a := is_any (ipaddr xmit_listen_ipport) in
      if (a : bool) then
        let dest_ipport := Ipport (ipaddr src_ipport) (port xmit_listen_ipport) in
        let* q := ipport_is_fully_qualified dest_ipport in
        assert! q in Ok dest_ipport
      else AssertFail.

(* ------------------------------------------------------------------ *)
(** * The listening address of the configuration *)
(* ------------------------------------------------------------------ *)

(** [bind a]: starting a responder on [a] gives the address it listens on, or
    fails.  The loop's counter is a [uint16_t]; past 65536 ports it has come
    back to one it has already tried, and never ends. *)
Fixpoint listen_port_loop (fuel : nat) (bind : ipport_addr_t -> option ipport_addr_t)
    (lview_addr : ip_addr_t) (cur_port lview_port_max : Z) : outcome Z :=
  match fuel with
  | O => Fault
  | S fuel' =>
    if lview_port_max <? cur_port then Ok 0
    else match bind (Ipport lview_addr cur_port) with
    | Some _ => Ok cur_port
    | None => listen_port_loop fuel' bind lview_addr (wrap 16 (cur_port + 1)) lview_port_max
    end
  end.

Definition conf_port (conf : string -> string -> string) (key : string) : outcome Z :=
  let* n := atoi (c_str (conf key "0"%string)) in Ok (wrap 16 n).

(** [tcp_listen_aview_from_conf] and [udp_listen_aview_from_conf]: [proto] is
    the prefix of the keys, [conf] the session's configuration. *)
Definition listen_aview_from_conf (proto : string) (conf : string -> string -> string)
    (bind : ipport_addr_t -> option ipport_addr_t) : outcome ipport_aview_t :=
  let key k := (proto ++ k)%string in
  let lview_addr := ip_of_string (conf (key "_listen_lview_addr") "0.0.0.0")%string in
  let pview_addr := ip_of_string (conf (key "_listen_pview_addr") "0.0.0.0")%string in
  let* lview_port_min := conf_port conf (key "_listen_lview_port_min"%string) in
  let* lview_port_max := conf_port conf (key "_listen_lview_port_max"%string) in
  let* pview_port_min := conf_port conf (key "_listen_pview_port_min"%string) in
  let* pview_port_max := conf_port conf (key "_listen_pview_port_max"%string) in
  assert! Bool.eqb (lview_port_max =? 0) (lview_port_min =? 0) in
  assert! Bool.eqb (pview_port_max =? 0) (pview_port_min =? 0) in
  assert! (pview_port_min =? 0)
    || (lview_port_max - lview_port_min =? pview_port_max - pview_port_min) in
  let* chosen_lport :=
    if lview_port_min =? 0 then Ok 0
    else listen_port_loop (Z.to_nat 65536) bind lview_addr lview_port_min lview_port_max in
  if (lview_port_min =? 0) || (chosen_lport =? 0) then
    match bind (Ipport lview_addr 0) with
    | None => AssertFail
    | Some listen_ipport => Ok (Aview listen_ipport ipport_null)
    end
  else
    assert! (lview_port_min <=? chosen_lport) && (chosen_lport <=? lview_port_max) in
    let listen_lview := Ipport lview_addr chosen_lport in
    if pview_port_min =? 0 then Ok (Aview listen_lview ipport_null)
    else Ok (Aview listen_lview
               (Ipport pview_addr (wrap 16 (pview_port_min + (chosen_lport - lview_port_min))))).
End aview.

(* ------------------------------------------------------------------ *)
(** * Lemmas *)
(* ------------------------------------------------------------------ *)

Section lemmas.
Context `{L : InetLib} {HL : InetLibLaws L}.

Definition total {A} (m : outcome A) : Prop := exists a, m = Ok a.

Lemma none_of_total tests a :
  Forall (fun t : ip_addr_t -> outcome bool => total (t a)) tests -> total (none_of tests a).
Proof.
  induction 1 as [|t tests (b & Hb) _ IH]; [by exists true|]. cbn [none_of]. rewrite Hb.
  cbn [mbind outcome_bind]. destruct b; [by exists false|done].
Qed.

Lemma fully_qualified_total a : ip_ok a -> total (ip_is_fully_qualified a).
Proof.
  destruct a as [|v]; [by exists false|]. intros Hv. apply none_of_total. repeat constructor.
  - eexists. by apply is_any_spec.
  - eexists. by apply is_multicast_spec.
  - eexists. by apply is_broadcast_spec.
Qed.

Lemma is_public_total a : ip_ok a -> total (is_public a).
Proof.
  destruct a as [|v]; [by exists false|]. intros Hv. unfold is_public. cbn [ip_is_null].
  destruct (fully_qualified_total (V4 v) Hv) as (q & ->). cbn [mbind outcome_bind].
  destruct q; [|by exists false]. apply none_of_total. repeat constructor.
  - eexists. by apply is_private_spec.
  - eexists. by apply is_localhost_spec.
  - eexists. by apply is_linklocal_spec.
Qed.

Lemma is_any_total a : ip_ok a -> total (is_any a).
Proof. destruct a as [|v]; [by exists false|]. intros Hv. eexists. by apply is_any_spec. Qed.

Lemma qualified_inv a :
  ipport_is_fully_qualified a = Ok true -> ip_is_fully_qualified (ipaddr a) = Ok true /\ port a <> 0.
Proof.
  unfold ipport_is_fully_qualified. destruct (ip_is_fully_qualified (ipaddr a)) as [[]| | |]; try done.
  cbn [mbind outcome_bind andb]. intros [= H]. by apply negb_true_iff, Z.eqb_neq in H.
Qed.

Lemma qualified_intro a p :
  ip_is_fully_qualified a = Ok true -> p <> 0 -> ipport_is_fully_qualified (Ipport a p) = Ok true.
Proof.
  intros Ha Hp. unfold ipport_is_fully_qualified. simpl. rewrite Ha. cbn [mbind outcome_bind andb].
  by rewrite (proj2 (Z.eqb_neq p 0)).
Qed.

Lemma qualified_not_null a : ip_is_fully_qualified a = Ok true -> ip_is_null a = false.
Proof. by destruct a. Qed.

Lemma any_not_null a : is_any a = Ok true -> ip_is_null a = false.
Proof. by destruct a. Qed.

(** The destination derived from a published address that is not null. *)
Lemma xmit2dest_spec x src :
  ip_ok (ipaddr x) -> ip_ok (ipaddr src) -> ipport_is_fully_qualified src = Ok true ->
  ipport_is_null x = false ->
  exists q a, ip_is_fully_qualified (ipaddr x) = Ok q /\ is_any (ipaddr x) = Ok a /\
  listen_xmit2dest x src =
    if port x =? 0 then AssertFail
    else if (q : bool) then Ok x
    else if (a : bool) then Ok (Ipport (ipaddr src) (port x)) else AssertFail.
Proof.
  intros Hx Hs Hq Hn. destruct (fully_qualified_total _ Hx) as (q & Hqx).
  destruct (is_any_total _ Hx) as (a & Hax). exists q, a. split; [done|]. split; [done|].
  unfold listen_xmit2dest. rewrite Hq, Hn. cbn [mbind outcome_bind dbg_assert].
  unfold ipport_is_null in Hn. rewrite Hn. cbn [negb andb].
  destruct (Z.eqb_spec (port x) 0) as [|Hp]; [done|]. cbn [negb dbg_assert].
  rewrite Hqx, Hax. cbn [mbind outcome_bind]. destruct q; [done|]. destruct a; [|done].
  destruct (qualified_inv src Hq) as [Hqs _]. by rewrite qualified_intro.
Qed.

Lemma run_ok_inv v :
  is_run_ok v = Ok true ->
  ipport_is_null (lview v) = false /\ port (lview v) <> 0 /\
  any_or_qualified (ipaddr (lview v)) = Ok true /\
  (ipport_is_null (pview v) = false ->
     port (pview v) <> 0 /\ any_or_qualified (ipaddr (pview v)) = Ok true).
Proof.
  unfold is_run_ok, is_sane_common. destruct (ipport_is_null (lview v)); [done|].
  cbn [negb dbg_assert]. destruct (any_or_qualified (ipaddr (lview v))) as [[]| | |]; try done.
  cbn [mbind outcome_bind dbg_assert]. intros H. split; [done|].
  destruct (ipport_is_null (pview v)).
  - cbn [mbind outcome_bind dbg_assert] in H. destruct (Z.eqb_spec (port (lview v)) 0); done.
  - destruct (Z.eqb_spec (port (pview v)) 0); [done|]. cbn [negb dbg_assert] in H.
    destruct (any_or_qualified (ipaddr (pview v))) as [[]| | |]; try done.
    cbn [mbind outcome_bind dbg_assert] in H. destruct (Z.eqb_spec (port (lview v)) 0); done.
Qed.

Lemma any_or_qualified_inv a q n :
  any_or_qualified a = Ok true -> ip_is_fully_qualified a = Ok q -> is_any a = Ok n -> q || n = true.
Proof.
  unfold any_or_qualified, or_else. intros H Hq Hn. rewrite Hn, Hq in H. destruct n; [by rewrite orb_true_r|].
  cbn [mbind outcome_bind] in H. injection H as ->. done.
Qed.

(* ------------------------------------------------------------------ *)
(** ** The loop over the ports *)
(* ------------------------------------------------------------------ *)

Section ports.
Context (bind : ipport_addr_t -> option ipport_addr_t) (ip : ip_addr_t).

Lemma port_loop_found fuel cur p hi a :
  0 <= cur <= p -> p <= hi < 2 ^ 16 -> bind (Ipport ip p) = Some a ->
  (forall q, cur <= q < p -> bind (Ipport ip q) = None) -> p - cur < Z.of_nat fuel ->
  listen_port_loop fuel bind ip cur hi = Ok p.
Proof.
  revert cur. induction fuel as [|fuel IH]; intros cur Hc Hp Hb Hn Hf; [lia|]. cbn [listen_port_loop].
  rewrite (proj2 (Z.ltb_ge hi cur)) by lia. destruct (decide (cur = p)) as [->|]; [by rewrite Hb|].
  rewrite Hn by lia. rewrite wrap_small by (unfold in_range; lia). apply IH; try lia; [done|].
  intros q Hq. apply Hn. lia.
Qed.

Lemma port_loop_none fuel cur hi :
  0 <= cur <= hi + 1 -> hi < 2 ^ 16 -> (forall q, cur <= q <= hi -> bind (Ipport ip q) = None) ->
  is_Some (bind (Ipport ip 0)) -> hi + 2 - cur <= Z.of_nat fuel -> (hi = 2 ^ 16 - 1 -> cur <= hi) ->
  listen_port_loop fuel bind ip cur hi = Ok 0.
Proof.
  intros Hc Hhi Hn [a Ha]. revert cur Hc Hn.
  induction fuel as [|fuel IH]; intros cur Hc Hn Hf Hlast; [lia|]. cbn [listen_port_loop].
  destruct (Z.ltb_spec hi cur); [done|]. rewrite Hn by lia.
  destruct (decide (cur = 2 ^ 16 - 1)) as [->|].
  - change (wrap 16 (2 ^ 16 - 1 + 1)) with 0. destruct fuel as [|fuel]; [lia|]. cbn [listen_port_loop].
    rewrite (proj2 (Z.ltb_ge hi 0)) by lia. by rewrite Ha.
  - rewrite wrap_small by (unfold in_range; lia). apply IH; try lia. intros q Hq. apply Hn. lia.
Qed.
End ports.
End lemmas.

(* ------------------------------------------------------------------ *)
(** * Theorems *)
(* ------------------------------------------------------------------ *)

(** Direct publication: whatever the views of the publisher (once bound)
    and the two ends of the connection, no assertion fails on either side, and
    the querier ends with the null address exactly when it is outside the
    publisher's network and the publisher has no public view; otherwise with a
    fully qualified destination, made of the port of the local view (inside) or
    of the public view (outside), and of that view's address or, when it is
    any, of the address the querier sees. *)
Theorem direct_publication `{L : InetLib} {HL : InetLibLaws L}
    (v : ipport_aview_t) (dst src : ipport_addr_t)
    (Hv : is_run_ok v = Ok true) (Hl : ip_ok (ipaddr (lview v))) (Hp : ip_ok (ipaddr (pview v)))
    (Hdst : ip_ok (ipaddr dst)) (Hsrc : ip_ok (ipaddr src))
    (Hqd : ipport_is_fully_qualified dst = Ok true) (Hqs : ipport_is_fully_qualified src = Ok true) :
  exists public x d, is_public (ipaddr dst) = Ok public /\
    listen_aview2xmit v dst = Ok x /\ listen_xmit2dest x src = Ok d /\
    let view := if (public : bool) then pview v else lview v in
    if ipport_is_null view then public = true /\ x = ipport_null /\ d = ipport_null
    else x = view /\ ipport_is_fully_qualified d = Ok true /\ port d = port view /\
      (ip_is_fully_qualified (ipaddr view) = Ok true /\ ipaddr d = ipaddr view \/
       is_any (ipaddr view) = Ok true /\ ipaddr d = ipaddr src).
Proof.
  destruct (is_public_total _ Hdst) as (public & Hpub). exists public.
  destruct (run_ok_inv v Hv) as (Hln & Hlp & Hla & Hpv).
  set (view := if public then pview v else lview v).
  assert (Hok : ip_ok (ipaddr view)) by (unfold view; by destruct public).
  assert (Hx : listen_aview2xmit v dst = Ok (if ipport_is_null view then ipport_null else view)).
  { unfold listen_aview2xmit. rewrite Hqd, Hv, Hpub. cbn [mbind outcome_bind dbg_assert].
    unfold view. destruct public; cbn [negb]; [by destruct (ipport_is_null (pview v))|by rewrite Hln]. }
  cbv zeta. fold view. destruct (ipport_is_null view) eqn:Hnull.
  { exists ipport_null, ipport_null. split; [done|]. split; [done|].
    split; [unfold listen_xmit2dest; by rewrite Hqs|].
    unfold view in Hnull. destruct public; [done|congruence]. }
  assert (Hview : port view <> 0 /\ any_or_qualified (ipaddr view) = Ok true).
  { unfold view in *. destruct public; auto. }
  destruct Hview as [Hport Haq].
  destruct (xmit2dest_spec view src Hok Hsrc Hqs Hnull) as (q & a & Hq & Ha & Hd).
  rewrite (proj2 (Z.eqb_neq (port view) 0)) in Hd by done.
  pose proof (any_or_qualified_inv _ _ _ Haq Hq Ha) as Hqa.
  destruct (qualified_inv src Hqs) as [Hqi _]. destruct q.
  - exists view, view. split_and!; try done; [|auto]. destruct view. by apply qualified_intro.
  - destruct a; [|done]. exists view, (Ipport (ipaddr src) (port view)).
    split_and!; try done; [by apply qualified_intro|auto].
Qed.

(** The listening address of the configuration: given a sane configured
    range of ports and a system that can always allocate a port dynamically,
    the selection ends whatever the ports in use, with the first free port of
    the range and the public port at the same offset in the public range; or,
    when no port of the range is free or none is configured, with a
    dynamic port and no public view. A range up to port 65535 makes the
    counter wrap around to port 0, which is the dynamic allocation. *)
Theorem listen_conf_total `{L : InetLib} (proto : string) (conf : string -> string -> string)
    (bind : ipport_addr_t -> option ipport_addr_t) (lmin lmax pmin pmax : Z) (dyn : ipport_addr_t)
    (Hlmin : conf_port conf (proto ++ "_listen_lview_port_min")%string = Ok lmin)
    (Hlmax : conf_port conf (proto ++ "_listen_lview_port_max")%string = Ok lmax)
    (Hpmin : conf_port conf (proto ++ "_listen_pview_port_min")%string = Ok pmin)
    (Hpmax : conf_port conf (proto ++ "_listen_pview_port_max")%string = Ok pmax)
    (Hl : lmin = 0 /\ lmax = 0 \/ 0 < lmin <= lmax)
    (Hp : pmin = 0 /\ pmax = 0 \/ 0 < pmin /\ pmax - pmin = lmax - lmin) :
  let lview_addr := ip_of_string (conf (proto ++ "_listen_lview_addr") "0.0.0.0")%string in
  let pview_addr := ip_of_string (conf (proto ++ "_listen_pview_addr") "0.0.0.0")%string in
  bind (Ipport lview_addr 0) = Some dyn ->
  (forall p, 0 < lmin -> lmin <= p <= lmax -> is_Some (bind (Ipport lview_addr p)) ->
     (forall q, lmin <= q < p -> bind (Ipport lview_addr q) = None) ->
     listen_aview_from_conf proto conf bind =
       Ok (Aview (Ipport lview_addr p)
             (if pmin =? 0 then ipport_null else Ipport pview_addr (pmin + (p - lmin))))) /\
  ((forall p, 0 < lmin -> lmin <= p <= lmax -> bind (Ipport lview_addr p) = None) ->
     listen_aview_from_conf proto conf bind = Ok (Aview dyn ipport_null)).
Proof.
  intros lv pv Hdyn.
  assert (Hr : forall k n, conf_port conf k = Ok n -> in_range 16 n).
  { intros k n. unfold conf_port. destruct (atoi _); try done. cbn [mbind outcome_bind].
    intros [= <-]. apply wrap_range. lia. }
  pose proof (Hr _ _ Hlmax) as Hlm. pose proof (Hr _ _ Hpmax) as Hpm. unfold in_range in *.
  assert (Hs : listen_aview_from_conf proto conf bind =
    (let* chosen := (if lmin =? 0 then Ok 0 else listen_port_loop (Z.to_nat 65536) bind lv lmin lmax) in
     if (lmin =? 0) || (chosen =? 0) then Ok (Aview dyn ipport_null)
     else assert! (lmin <=? chosen) && (chosen <=? lmax) in
       (if pmin =? 0 then Ok (Aview (Ipport lv chosen) ipport_null)
        else Ok (Aview (Ipport lv chosen) (Ipport pv (wrap 16 (pmin + (chosen - lmin)))))))).
  { unfold listen_aview_from_conf. rewrite Hlmin, Hlmax, Hpmin, Hpmax. cbn [mbind outcome_bind].
    pass_assert ltac:(destruct (Z.eqb_spec lmax 0), (Z.eqb_spec lmin 0); done || lia).
    pass_assert ltac:(destruct (Z.eqb_spec pmax 0), (Z.eqb_spec pmin 0); done || lia).
    pass_assert ltac:(destruct (Z.eqb_spec pmin 0); [done|]; cbn [orb]; apply Z.eqb_eq; lia).
    fold lv pv. by rewrite Hdyn. }
  rewrite Hs. split.
  - intros p Hl0 Hlp [a Ha] Hn. rewrite (proj2 (Z.eqb_neq lmin 0)) by lia.
    rewrite (port_loop_found _ _ _ _ p _ a) by (done || lia).
    cbn [mbind outcome_bind orb]. rewrite (proj2 (Z.eqb_neq p 0)) by lia.
    pass_assert ltac:(apply andb_true_iff; split; apply Z.leb_le; lia).
    destruct (Z.eqb_spec pmin 0); [done|]. rewrite wrap_small by (unfold in_range; lia). done.
  - intros Hn. destruct (Z.eqb_spec lmin 0); [done|].
    rewrite port_loop_none; [done|lia|lia|intros q Hq; apply Hn; lia|by exists dyn|lia|lia].
Qed.

(* ------------------------------------------------------------------ *)
(** * Witnesses *)
(* ------------------------------------------------------------------ *)

#[local] Existing Instances quad_lib quad_lib_laws.

(** A publisher behind a port forward, seen from outside and from inside. *)
Lemma direct_publication_witness :
  let v := Aview (Ipport (V4 0) 4000) (Ipport (V4 0x01020304) 5000) in
  (exists public x d, is_public (V4 0x08080808) = Ok public /\
    listen_aview2xmit v (Ipport (V4 0x08080808) 80) = Ok x /\
    listen_xmit2dest x (Ipport (V4 0x01020304) 777) = Ok d /\
    let view := if (public : bool) then pview v else lview v in
    if ipport_is_null view then public = true /\ x = ipport_null /\ d = ipport_null
    else x = view /\ ipport_is_fully_qualified d = Ok true /\ port d = port view /\
      (ip_is_fully_qualified (ipaddr view) = Ok true /\ ipaddr d = ipaddr view \/
       is_any (ipaddr view) = Ok true /\ ipaddr d = ipaddr (Ipport (V4 0x01020304) 777))) /\
  (let* x := listen_aview2xmit v (Ipport (V4 0x0A000002) 80) in
   listen_xmit2dest x (Ipport (V4 0x0A000001) 777)) = Ok (Ipport (V4 0x0A000001) 4000).
Proof.
  split; [|vm_compute; reflexivity].
  apply (direct_publication (Aview (Ipport (V4 0) 4000) (Ipport (V4 0x01020304) 5000))
           (Ipport (V4 0x08080808) 80) (Ipport (V4 0x01020304) 777));
    first [vm_compute; reflexivity | by (split; vm_compute)].
Defined.

(** Ports 5000 to 5002 are configured; 5000 is in use. *)
Lemma listen_conf_total_witness :
  let conf k d := if String.eqb k "udp_listen_lview_port_min" then "5000"
    else if String.eqb k "udp_listen_lview_port_max" then "5002"
    else if String.eqb k "udp_listen_pview_port_min" then "7000"
    else if String.eqb k "udp_listen_pview_port_max" then "7002" else d in
  let bind a := if port a =? 5000 then None else Some (if port a =? 0 then Ipport (ipaddr a) 32768 else a) in
  listen_aview_from_conf "udp" conf bind = Ok (Aview (Ipport (V4 0) 5001) (Ipport (V4 0) 7001)).
Proof.
  intros conf bind.
  destruct (listen_conf_total "udp" conf bind 5000 5002 7000 7002 (Ipport (V4 0) 32768)) as [H _].
  1-4: reflexivity.
  1-2: right; lia.
  1: vm_compute; reflexivity.
  apply (H 5001); [lia|lia|by eexists|]. intros q Hq. replace q with 5000 by lia. reflexivity.
Defined.
