(* ===== verification/ItemArr.v ===== *)
(** Arrays of items: [item_arr_t] (src/src/neoip_base/tools/item_arr/), with
    the items' own operators as parameters, and its wire form. *)
From S2P Require Import Prelude Serial Codec.

Section ops.
Context {A : Type} (ltb eqb : A -> A -> bool) (c : codec A).
Implicit Types (l : list A).

Definition item_append (item : A) l : list A := l ++ [item].
Definition item_append_arr l other : list A := fold_left (fun acc i => item_append i acc) other l.
Definition item_assign (nb_item : nat) (item : A) : list A := replicate nb_item item.

Definition item_remove (idx : nat) l : outcome (list A) :=
  assert! bool_decide (idx < length l)%nat in Ok (delete idx l).

(** [item_db[0]] is not checked. *)
Definition item_pop_front l : outcome (A * list A) :=
  match l with [] => Fault | a :: l' => Ok (a, l') end.

Definition item_get (idx : nat) l : outcome A :=
  match l !! idx with Some a => Ok a | None => AssertFail end.

(** [None] stands for [std::numeric_limits<size_t>::max()]. *)
Fixpoint item_find (item : A) l : option nat :=
  match l with
  | [] => None
  | a :: l' => if eqb a item then Some O else S <$> item_find item l'
  end.
Definition item_contain (item : A) l : bool := bool_decide (is_Some (item_find item l)).

Fixpoint find_first_common l other : option A :=
  match l with
  | [] => None
  | a :: l' => if item_contain a other then Some a else find_first_common l' other
  end.

(** The sizes, then the items one by one. *)
Fixpoint compare_loop (l other : list A) : Z :=
  match l, other with
  | a :: l', b :: other' =>
    if ltb b a then 1 else if ltb a b then -1 else compare_loop l' other'
  | _, _ => 0
  end.
Definition item_compare (l other : list A) : Z :=
  if bool_decide (length other < length l)%nat then 1
  else if bool_decide (length l < length other)%nat then -1
  else compare_loop l other.

(** [std::sort] with the order [ltb], by insertion; items equivalent under
    it may come in any order there. *)
Fixpoint sort_insert (a : A) l : list A :=
  match l with
  | [] => [a]
  | b :: l' => if ltb a b then a :: b :: l' else b :: sort_insert a l'
  end.
Definition std_sort l : list A := foldr sort_insert [] l.
End ops.

(* ------------------------------------------------------------------ *)
(** * Serialization *)
(* ------------------------------------------------------------------ *)

Section wire.
Context {A : Type} (c : codec A).

Fixpoint put_items (l : list A) (s : serial_t) : outcome serial_t :=
  match l with
  | [] => Ok s
  | a :: l' => let* s1 := put c a s in put_items l' s1
  end.
Definition put_item_arr (l : list A) (s : serial_t) : outcome serial_t :=
  let* s1 := put_u32 (wrap 32 (Z.of_nat (length l))) s in put_items l s1.

Fixpoint get_items (nb_elem : nat) (s : serial_t) : outcome (list A * serial_t) :=
  match nb_elem with
  | O => Ok ([], s)
  | S n => let* (a, s1) := get c s in let* (l, s2) := get_items n s1 in Ok (a :: l, s2)
  end.
Definition get_item_arr (s : serial_t) : outcome (list A * serial_t) :=
  let* (nb_elem, s1) := get_u32 s in get_items (Z.to_nat nb_elem) s1.

Fixpoint wire_get_item_list (n : nat) (l : list Z) : outcome (list A * list Z) :=
  match n with
  | O => Ok ([], l)
  | S n' => let* (a, l1) := wire_get c l in let* (r, l2) := wire_get_item_list n' l1 in Ok (a :: r, l2)
  end.
Definition wire_get_item_arr (l : list Z) : outcome (list A * list Z) :=
  let* (nb_elem, l1) := wire_get u32_codec l in wire_get_item_list (Z.to_nat nb_elem) l1.

Definition item_arr_codec : codec (list A) := {|
  codec_ok := fun l => Forall (codec_ok c) l /\ Z.of_nat (length l) < 2 ^ 32;
  wire_put := fun l => be_bytes 4 (Z.of_nat (length l)) ++ concat (wire_put c <$> l);
  wire_get := wire_get_item_arr;
  put := put_item_arr; get := get_item_arr |}.

(* ------------------------------------------------------------------ *)
(** * Lemmas *)
(* ------------------------------------------------------------------ *)

Context `{!CodecLaws c}.

Lemma wire_items_put l rest :
  Forall (codec_ok c) l ->
  wire_get_item_list (length l) (concat (wire_put c <$> l) ++ rest) = Ok (l, rest).
Proof.
  induction 1 as [|a l Ha Hl IH]; [done|]. cbn [length wire_get_item_list fmap list_fmap concat].
  rewrite <- app_assoc, wire_get_put by done. cbn [mbind outcome_bind]. by rewrite IH.
Qed.

Lemma wire_items_valid n l r rest :
  bytes_ok l -> wire_get_item_list n l = Ok (r, rest) ->
  Forall (codec_ok c) r /\ length r = n /\ bytes_ok rest.
Proof.
  revert l r. induction n as [|n IH]; intros l r Hl; cbn [wire_get_item_list]; [by intros [= <- <-]|].
  destruct (wire_get c l) as [[a l1]| | |] eqn:Ea; try done. cbn [mbind outcome_bind].
  apply (wire_get_valid (c := c)) in Ea as [Ha Hl1]; [|done].
  destruct (wire_get_item_list n l1) as [[r' l2]| | |] eqn:Er; try done. cbn [mbind outcome_bind].
  intros [= <- <-]. destruct (IH _ _ Hl1 Er) as (? & ? & ?). split; [by constructor|]. simpl. auto.
Qed.

Lemma put_items_spec l s :
  Forall (codec_ok c) l -> wf s ->
  exists s', put_items l s = Ok s' /\ wf s' /\
    contents s' = contents s ++ (Some <$> concat (wire_put c <$> l)).
Proof.
  intros Hl. revert s. induction Hl as [|a l Ha Hl IH]; intros s Hwf.
  { exists s. by rewrite app_nil_r. }
  cbn [put_items fmap list_fmap concat]. destruct (put_spec (c := c) a s Ha Hwf) as (s1 & -> & Hwf1 & Hc1).
  cbn [mbind outcome_bind]. destruct (IH s1 Hwf1) as (s2 & -> & Hwf2 & Hc2).
  exists s2. split; [done|]. split; [done|]. by rewrite Hc2, Hc1, fmap_app, app_assoc.
Qed.

Lemma get_items_spec n l s :
  wf s -> bytes_ok l -> contents s = Some <$> l ->
  match wire_get_item_list n l with
  | Ok (r, rest) => exists s', get_items n s = Ok (r, s') /\ wf s' /\ contents s' = Some <$> rest
  | Throw e => get_items n s = Throw e
  | AssertFail | Fault => False
  end.
Proof.
  revert l s. induction n as [|n IH]; intros l s Hwf Hl Hc; cbn [wire_get_item_list get_items].
  { by exists s. }
  pose proof (get_spec (c := c) l s Hwf Hl Hc) as Hg. unfold get_refines in Hg.
  destruct (wire_get c l) as [[a l1]|e| |] eqn:Ea; cbn [mbind outcome_bind]; try done; [|by rewrite Hg].
  destruct Hg as (s1 & -> & Hwf1 & Hc1). cbn [mbind outcome_bind].
  apply (wire_get_valid (c := c)) in Ea as [_ Hl1]; [|done].
  specialize (IH l1 s1 Hwf1 Hl1 Hc1).
  destruct (wire_get_item_list n l1) as [[r l2]|e| |]; cbn [mbind outcome_bind]; try done; [|by rewrite IH].
  destruct IH as (s2 & -> & ? & ?). simpl. eauto.
Qed.

#[export] Instance item_arr_laws : CodecLaws item_arr_codec.
Proof.
  split; cbn [codec_ok wire_put wire_get put get item_arr_codec].
  - intros l [Hl _]. apply Forall_app. split; [apply be_bytes_ok|]. apply Forall_concat, Forall_fmap.
    eapply Forall_impl; [exact Hl|]. intros a Ha. by apply wire_put_bytes.
  - intros l rest [Hl Hlen]. unfold wire_get_item_arr. rewrite <- app_assoc.
    change (be_bytes 4) with (wire_put u32_codec). rewrite wire_get_put by (split; [lia|done]).
    cbn [mbind outcome_bind]. rewrite Nat2Z.id. by apply wire_items_put.
  - intros l r rest Hl. unfold wire_get_item_arr.
    destruct (wire_get u32_codec l) as [[n l1]| | |] eqn:E; try done. cbn [mbind outcome_bind].
    apply wire_get_valid in E as [[Hn1 Hn2] Hl1]; [|done]. intros Hr.
    apply wire_items_valid in Hr as (? & Hlen & ?); [|done]. split; [split|]; [done| |done].
    rewrite Hlen, Z2Nat.id by done. done.
  - intros l s [Hl Hlen] Hwf. unfold put_item_arr. rewrite wrap_small by (split; [lia|done]).
    change put_u32 with (put u32_codec).
    destruct (put_spec (c := u32_codec) (Z.of_nat (length l)) s) as (s1 & -> & Hwf1 & Hc1);
      [split; [lia|done]|done|]. cbn [mbind outcome_bind].
    destruct (put_items_spec l s1 Hl Hwf1) as (s2 & -> & Hwf2 & Hc2).
    exists s2. split; [done|]. split; [done|]. by rewrite Hc2, Hc1, <- app_assoc, <- fmap_app.
  - intros l s Hwf Hl Hc. unfold get_refines; cbn [wire_get get item_arr_codec].
    unfold wire_get_item_arr, get_item_arr.
    pose proof (get_spec (c := u32_codec) l s Hwf Hl Hc) as Hg. unfold get_refines in Hg.
    change (get u32_codec s) with (get_u32 s) in Hg.
    destruct (wire_get u32_codec l) as [[n l1]|e| |] eqn:E; cbn [mbind outcome_bind]; try done; [|by rewrite Hg].
    apply wire_get_valid in E as [_ Hl1]; [|done].
    destruct Hg as (s1 & -> & Hwf1 & Hc1). cbn [mbind outcome_bind].
    by apply get_items_spec.
Qed.
End wire.

(** Sorting, for an order given by an integer on the items that satisfy [P]. *)
Section sort.
Context {A : Type} (ltb : A -> A -> bool) (P : A -> Prop) (key : A -> Z).
Hypothesis ltb_key : forall a b, P a -> P b -> ltb a b = (key a <? key b).

Definition key_le (a b : A) : Prop := key a <= key b.

Lemma sort_insert_perm a l : sort_insert ltb a l ≡ₚ a :: l.
Proof using.
  clear ltb_key. induction l as [|b l IH]; [done|]. cbn [sort_insert]. destruct (ltb a b); [done|].
  rewrite IH. constructor.
Qed.

Lemma std_sort_perm l : std_sort ltb l ≡ₚ l.
Proof using.
  clear ltb_key. induction l as [|a l IH]; [done|]. cbn [std_sort foldr]. fold (std_sort ltb l).
  by rewrite sort_insert_perm, IH.
Qed.

Lemma sort_insert_sorted a l :
  P a -> Forall P l -> StronglySorted key_le l -> StronglySorted key_le (sort_insert ltb a l).
Proof using ltb_key.
  intros Ha Hl. induction Hl as [|b l Hb Hl IH]; intros Hs; cbn [sort_insert]; [by repeat constructor|].
  apply StronglySorted_inv in Hs as [Hs Hle]. rewrite ltb_key by done.
  destruct (Z.ltb_spec (key a) (key b)).
  - constructor; [by constructor|]. constructor; [unfold key_le; lia|].
    eapply Forall_impl; [exact Hle|]. unfold key_le. lia.
  - constructor; [by apply IH|]. rewrite sort_insert_perm. constructor; [unfold key_le; lia|done].
Qed.

Lemma std_sort_sorted l : Forall P l -> StronglySorted key_le (std_sort ltb l).
Proof using ltb_key.
  induction 1 as [|a l Ha Hl IH]; [constructor|]. cbn [std_sort foldr]. fold (std_sort ltb l).
  apply sort_insert_sorted; [done| |done]. by rewrite std_sort_perm.
Qed.
End sort.
