(* ===== verification/Cookie.v ===== *)
(** [cookie_db_t] (src/src/neoip_netutils/cookie/): the cookies a server gives a
    client to check that it receives what is sent to its address.  A cookie is a
    keyed hash of the path; the key is renewed periodically and the last one is
    still accepted; a cookie may be accepted once.

    The hash is [skey_auth_t] with "sha1/hmac/20", of libgcrypt: a parameter. *)
From stdpp Require Import gmap.
From S2P Require Import Prelude GenId Time Timeout.

Definition cookie_id_t : Type := list Z.
Definition COOKIE_ID_SIZE : nat := 20.
Definition cookie_id_null : cookie_id_t := build_null COOKIE_ID_SIZE.
Definition cookie_id_ok (c : cookie_id_t) : Prop := id_ok COOKIE_ID_SIZE c.

(** [hmac_sha1 key data]. *)
Class HmacLib := { hmac_sha1 : list Z -> list Z -> list Z }.
Class HmacLaws (L : HmacLib) : Prop := { hmac_sha1_ok : forall key data, id_ok COOKIE_ID_SIZE (hmac_sha1 key data) }.

(* ------------------------------------------------------------------ *)
(** * State and operations *)
(* ------------------------------------------------------------------ *)

(** [COOKIE_SECRET_RENEWAL_PERIOD]: two minutes. *)
Definition COOKIE_SECRET_RENEWAL_PERIOD : Z := 2 * 60 * 1000.

Record cookie_db_t := CookieDb {
  cur_accepted_db : gset cookie_id_t;
  cur_secret : list Z;
  old_accepted_db : gset cookie_id_t;
  old_secret : list Z;
  rekey_timeout : timeout_t
}.

(** [random] is what [cookie_id_t::build_random] draws. *)
Definition cookie_db_ctor (now renewal_period : Z) (random : list Z) : outcome cookie_db_t :=
  let* t := timeout_start now renewal_period timeout_ctor in
  Ok (CookieDb ∅ random ∅ random t).

Definition cookie_timeout_cb (random : list Z) (d : cookie_db_t) : cookie_db_t :=
  CookieDb ∅ random (cur_accepted_db d) (cur_secret d) (rekey_timeout d).

(** The timer fired, at [now]: the callback, which keeps the timer. *)
Definition cookie_rekey (now : Z) (random : list Z) (d : cookie_db_t) : outcome cookie_db_t :=
  let* t := cpp_expired_cb now (fun t => Ok (Some t)) (rekey_timeout d) in
  match t with
  | Some t' => let d1 := cookie_timeout_cb random d in Ok (CookieDb (cur_accepted_db d1) (cur_secret d1) (old_accepted_db d1) (old_secret d1) t')
  | None => Fault
  end.

Section cookie.
Context `{HmacLib}.

Definition cookie_cpu (pathid secret : list Z) : cookie_id_t := hmac_sha1 secret pathid.
Definition cookie_generate (pathid : list Z) (d : cookie_db_t) : cookie_id_t := cookie_cpu pathid (cur_secret d).

Definition cookie_check (pathid : list Z) (cookie_id : cookie_id_t) (d : cookie_db_t) : bool :=
  if id_eq COOKIE_ID_SIZE cookie_id (cookie_cpu pathid (cur_secret d)) then
    if bool_decide (cookie_id ∈ cur_accepted_db d) then false else true
  else if id_eq COOKIE_ID_SIZE cookie_id (cookie_cpu pathid (old_secret d)) then
    if bool_decide (cookie_id ∈ old_accepted_db d) then false else true
  else false.

Definition cookie_accept (pathid : list Z) (cookie_id : cookie_id_t) (d : cookie_db_t) : outcome cookie_db_t :=
  if id_eq COOKIE_ID_SIZE cookie_id (cookie_cpu pathid (cur_secret d)) then
    assert! negb (bool_decide (cookie_id ∈ cur_accepted_db d)) in
    Ok (CookieDb ({[cookie_id]} ∪ cur_accepted_db d) (cur_secret d) (old_accepted_db d) (old_secret d) (rekey_timeout d))
  else if id_eq COOKIE_ID_SIZE cookie_id (cookie_cpu pathid (old_secret d)) then
    assert! negb (bool_decide (cookie_id ∈ old_accepted_db d)) in
    Ok (CookieDb (cur_accepted_db d) (cur_secret d) ({[cookie_id]} ∪ old_accepted_db d) (old_secret d) (rekey_timeout d))
  else AssertFail.

(** What happens to a database: a client presents a cookie, which is accepted
    if it checks; the secret is renewed. *)
Inductive cookie_event := CkPresent (pathid : list Z) (cookie_id : cookie_id_t) | CkRekey (now : Z) (random : list Z).

Definition cookie_step (e : cookie_event) (d : cookie_db_t) : outcome cookie_db_t :=
  match e with
  | CkPresent p c => if cookie_check p c d then cookie_accept p c d else Ok d
  | CkRekey now r => cookie_rekey now r d
  end.
Definition is_rekey (e : cookie_event) : bool := match e with CkRekey _ _ => true | _ => false end.
Fixpoint cookie_run (es : list cookie_event) (d : cookie_db_t) : outcome cookie_db_t :=
  match es with
  | [] => Ok d
  | e :: es' => let* d1 := cookie_step e d in cookie_run es' d1
  end.
End cookie.

(* ------------------------------------------------------------------ *)
(** * Lemmas *)
(* ------------------------------------------------------------------ *)

Lemma cookie_id_eq c c' : cookie_id_ok c -> cookie_id_ok c' -> id_eq COOKIE_ID_SIZE c c' = bool_decide (c = c').
Proof.
  intros Hc Hc'. unfold id_eq. rewrite id_compare_spec by done. case_bool_decide as E.
  - subst. by rewrite Z.sub_diag.
  - apply Z.eqb_neq. intros H. apply E, (id_value_inj COOKIE_ID_SIZE); [done..|]. lia.
Qed.

(** The secret's timer runs. *)
Definition cookie_wf (d : cookie_db_t) : Prop := to_callback (rekey_timeout d) = true /\ delay_ok (to_period (rekey_timeout d)).

(** Cookies in events have the size of the type. *)
Definition cookie_ev_ok (e : cookie_event) : Prop :=
  match e with CkPresent _ c => cookie_id_ok c | CkRekey now _ => ordinary now end.

Definition nb_rekeys (es : list cookie_event) : nat := length (filter (fun e => is_rekey e = true) es).

Section lemmas.
Context `{L : HmacLib} {HL : HmacLaws L}.

Lemma ctor_cookie_wf now p r : ordinary now -> delay_ok p -> exists d, cookie_db_ctor now p r = Ok d /\ cookie_wf d.
Proof using.
  clear. intros Hn Hp. unfold cookie_db_ctor. destruct (start_ok now p timeout_ctor Hn Hp) as (t & Et & Hcb & _).
  pose proof (start_period _ _ _ _ Hn Hp Et) as Hper. rewrite Et. cbn [mbind outcome_bind]. eexists. split; [done|]. split; [done|]. cbn. by rewrite Hper.
Qed.

Lemma rekey_spec now r d : ordinary now -> cookie_wf d ->
  exists d', cookie_rekey now r d = Ok d' /\ cookie_wf d' /\ cur_secret d' = r /\ old_secret d' = cur_secret d /\
    cur_accepted_db d' = ∅ /\ old_accepted_db d' = cur_accepted_db d.
Proof using.
  clear. intros Hn [Hcb Hper]. unfold cookie_rekey. destruct (expired_same now (rekey_timeout d) Hn Hper Hcb) as (t & -> & Hcb' & Hper').
  cbn [mbind outcome_bind]. eexists. split; [done|]. split; [split; [done|cbn; by rewrite Hper']|done].
Qed.

(** The tests of a cookie of the right size. *)
Lemma check_spec p c d : cookie_id_ok c ->
  cookie_check p c d = true <->
  (c = cookie_cpu p (cur_secret d) /\ c ∉ cur_accepted_db d) \/
  (c <> cookie_cpu p (cur_secret d) /\ c = cookie_cpu p (old_secret d) /\ c ∉ old_accepted_db d).
Proof using HL.
  intros Hc. unfold cookie_check. rewrite !cookie_id_eq by (done || apply hmac_sha1_ok).
  repeat case_bool_decide; intuition congruence.
Qed.

Lemma accept_spec p c d : cookie_id_ok c -> cookie_check p c d = true ->
  exists d', cookie_accept p c d = Ok d' /\ cur_secret d' = cur_secret d /\ old_secret d' = old_secret d /\
    (c = cookie_cpu p (cur_secret d) -> c ∈ cur_accepted_db d') /\
    (c <> cookie_cpu p (cur_secret d) -> c ∈ old_accepted_db d') /\
    (forall c', c' ∈ cur_accepted_db d -> c' ∈ cur_accepted_db d') /\ (forall c', c' ∈ old_accepted_db d -> c' ∈ old_accepted_db d').
Proof using HL.
  intros Hc Hck. unfold cookie_check in Hck. unfold cookie_accept. rewrite !cookie_id_eq in * by (done || apply hmac_sha1_ok).
  repeat case_bool_decide; try done; eexists; (split; [done|]); cbn [cur_secret old_secret cur_accepted_db old_accepted_db]; set_solver.
Qed.

(** Accepting only adds that cookie. *)
Lemma accept_monotone p c d d' : cookie_id_ok c -> cookie_check p c d = true -> cookie_accept p c d = Ok d' ->
  cur_secret d' = cur_secret d /\ old_secret d' = old_secret d /\
  (forall c', c' ∈ cur_accepted_db d' -> c' ∈ cur_accepted_db d \/ c' = c) /\ (forall c', c' ∈ old_accepted_db d' -> c' ∈ old_accepted_db d \/ c' = c).
Proof using HL.
  intros Hc _. unfold cookie_accept. rewrite !cookie_id_eq by (done || apply hmac_sha1_ok).
  repeat case_bool_decide; try done; intros [= <-]; cbn [cur_secret old_secret cur_accepted_db old_accepted_db];
    (split; [done|split; [done|split]]); intros c' Hin; try (by left); apply elem_of_union in Hin as [->%elem_of_singleton|]; auto.
Qed.

Lemma accept_wf p c d d' : cookie_accept p c d = Ok d' -> cookie_wf d -> cookie_wf d'.
Proof using.
  clear. unfold cookie_accept. destruct (id_eq _ _ _); [|destruct (id_eq _ _ _); [|done]]; destruct (negb _); try done; by intros [= <-].
Qed.

(** No cookie [c] of the path [p] is accepted any more. *)
Definition spent (p : list Z) (c : cookie_id_t) (d : cookie_db_t) : Prop :=
  (c = cookie_cpu p (cur_secret d) -> c ∈ cur_accepted_db d) /\ 
  (c = cookie_cpu p (old_secret d) -> c ∈ old_accepted_db d \/ (c ∈ cur_accepted_db d /\ c = cookie_cpu p (cur_secret d))).
(** It is not yet. *)
Definition fresh (p : list Z) (c : cookie_id_t) (k : nat) (d : cookie_db_t) : Prop :=
  (c ∉ cur_accepted_db d) /\
  ((k <= 1)%nat -> c = cookie_cpu p (cur_secret d) \/ (k = 0%nat /\ c = cookie_cpu p (old_secret d) /\ c ∉ old_accepted_db d)).

Lemma spent_check p c d : cookie_id_ok c -> spent p c d -> cookie_check p c d = false.
Proof using HL.
  intros Hc [H1 H2]. apply not_true_iff_false. rewrite check_spec by done. intros [[E Hn]|(E & E' & Hn)]; [by apply Hn, H1|].
  destruct (H2 E') as [|[_ ?]]; done.
Qed.

(** What a step keeps: a step always ends. *)
Lemma cookie_step_ok e d : cookie_wf d -> cookie_ev_ok e -> exists d', cookie_step e d = Ok d' /\ cookie_wf d'.
Proof using HL.
  intros Hwf He. destruct e as [q c|now r]; cbn [cookie_step cookie_ev_ok] in *.
  - destruct (cookie_check q c d) eqn:Ec; [|by exists d]. destruct (accept_spec q c d He Ec) as (d' & E & _). exists d'. split; [done|].
    by apply (accept_wf q c d).
  - destruct (rekey_spec now r d He Hwf) as (d' & E & Hwf' & _). by exists d'.
Qed.

Lemma spent_step p c e d d' :
  cookie_wf d -> cookie_ev_ok e -> (forall now r, e = CkRekey now r -> cookie_cpu p r <> c) -> spent p c d -> cookie_step e d = Ok d' -> spent p c d'.
Proof using HL.
  intros Hwf He Hr [H1 H2]. destruct e as [q c'|now r]; cbn [cookie_step cookie_ev_ok] in *.
  - destruct (cookie_check q c' d) eqn:Ec; [|by intros [= <-]]. destruct (accept_spec q c' d He Ec) as (d1 & -> & Es & Eo & _ & _ & Hm & Hm').
    intros [= <-]. split; rewrite ?Es, ?Eo; [auto|]. intros E. destruct (H2 E) as [|[? ?]]; [left|right]; auto.
  - destruct (rekey_spec now r d He Hwf) as (d1 & -> & _ & Es & Eo & Ea & Eb). intros [= <-]. specialize (Hr now r eq_refl).
    split; rewrite ?Es, ?Eo, ?Eb; [congruence|]. intros E. left. by apply H1.
Qed.

Lemma spent_run p c es d :
  cookie_wf d -> Forall cookie_ev_ok es -> (forall now r, CkRekey now r ∈ es -> cookie_cpu p r <> c) -> spent p c d ->
  exists d', cookie_run es d = Ok d' /\ spent p c d'.
Proof using HL.
  revert d. induction es as [|e es IH]; intros d Hwf Hok Hr Hs; cbn [cookie_run]; [by exists d|]. apply Forall_cons in Hok as [He Hok].
  destruct (cookie_step_ok e d Hwf He) as (d1 & E & Hwf1). rewrite E. cbn [mbind outcome_bind]. apply IH; [done|done| |].
  - intros now r Hin. apply (Hr now r). by right.
  - apply (spent_step p c e d); [done|done| |done|done]. intros now r ->. apply (Hr now r). by left.
Qed.

(** A cookie that is not presented stays acceptable for one renewal. *)
Lemma fresh_run p c es d :
  cookie_wf d -> cookie_id_ok c -> Forall cookie_ev_ok es -> (forall q, CkPresent q c ∉ es) -> fresh p c (nb_rekeys es) d ->
  (nb_rekeys es <= 1)%nat -> exists d', cookie_run es d = Ok d' /\ cookie_check p c d' = true.
Proof using HL.
  revert d. induction es as [|e es IH]; intros d Hwf Hc Hok Hp Hf Hk; cbn [cookie_run].
  - exists d. split; [done|]. rewrite check_spec by done. destruct Hf as [Hn Hf]. destruct (Hf Hk) as [E|(_ & E & Ho)]; [by left|].
    destruct (decide (c = cookie_cpu p (cur_secret d))); [by left|by right].
  - apply Forall_cons in Hok as [He Hok]. destruct (cookie_step_ok e d Hwf He) as (d1 & E & Hwf1). rewrite E. cbn [mbind outcome_bind].
    assert (Hp' : forall q, CkPresent q c ∉ es) by (intros q Hin; apply (Hp q); by right). unfold nb_rekeys in *. rewrite filter_cons in Hf, Hk.
    destruct e as [q c'|now r]; cbn [is_rekey cookie_step cookie_ev_ok] in *.
    + rewrite decide_False in Hf, Hk by done. apply IH; try done. destruct (cookie_check q c' d) eqn:Ec; [|by injection E as <-].
      assert (Hne : c' <> c) by (intros ->; apply (Hp q); by left). destruct (accept_monotone q c' d d1 He Ec E) as (Es & Eo & Hcur & Hold).
      destruct Hf as [Hn Hf]. split; [intros Hin; destruct (Hcur c Hin); [done|congruence]|]. intros Hle. rewrite Es, Eo.
      destruct (Hf Hle) as [|(? & ? & Ho)]; [by left|right]. split; [done|]. split; [done|]. intros Hin. destruct (Hold c Hin); [done|congruence].
    + rewrite decide_True in Hf, Hk by done. cbn [length] in Hf, Hk. destruct (rekey_spec now r d He Hwf) as (d2 & E2 & _ & Es & Eo & Ea & Eb).
      rewrite E in E2. injection E2 as <-. apply IH; try done; [|lia]. destruct Hf as [Hn Hf]. split; [rewrite Ea; set_solver|].
      intros _. right. rewrite Eo, Eb. destruct (Hf ltac:(lia)) as [E1|(E0 & _)]; [|lia]. split; [lia|done].
Qed.

(** After [j] renewals by secrets that do not give [c]. *)
Definition expires (p : list Z) (c : cookie_id_t) (j : nat) (d : cookie_db_t) : Prop :=
  (1 <= j -> c <> cookie_cpu p (cur_secret d))%nat /\ (2 <= j -> c <> cookie_cpu p (old_secret d))%nat.

Lemma expired_run p c es d j :
  cookie_wf d -> Forall cookie_ev_ok es -> (forall now r, CkRekey now r ∈ es -> cookie_cpu p r <> c) -> (2 <= j + nb_rekeys es)%nat ->
  expires p c j d -> exists d', cookie_run es d = Ok d' /\ spent p c d'.
Proof using HL.
  revert j d. induction es as [|e es IH]; intros j d Hwf Hok Hr Hj [H1 H2]; cbn [cookie_run].
  - exists d. split; [done|]. cbn in Hj. split; intros E; [destruct H1|destruct H2]; done || lia.
  - apply Forall_cons in Hok as [He Hok]. destruct (cookie_step_ok e d Hwf He) as (d1 & E & Hwf1). rewrite E. cbn [mbind outcome_bind].
    assert (Hr' : forall now r, CkRekey now r ∈ es -> cookie_cpu p r <> c) by (intros now r Hin; apply (Hr now r); by right).
    unfold nb_rekeys in *. rewrite filter_cons in Hj. destruct e as [q c'|now r]; cbn [is_rekey cookie_step cookie_ev_ok] in *.
    + rewrite decide_False in Hj by done. apply (IH j); try done. destruct (cookie_check q c' d) eqn:Ec; [|by injection E as <-].
      destruct (accept_monotone q c' d d1 He Ec E) as (Es & Eo & _). split; by rewrite ?Es, ?Eo.
    + rewrite decide_True in Hj by done. cbn [length] in Hj. destruct (rekey_spec now r d He Hwf) as (d2 & E2 & _ & Es & Eo & _).
      rewrite E in E2. injection E2 as <-. apply (IH (S j)); try done; [lia|]. split; rewrite ?Es, ?Eo.
      * intros _ Ec. by apply (Hr now r); [left|].
      * intros Hle. apply H1. lia.
Qed.
End lemmas.

(* ------------------------------------------------------------------ *)
(** * Theorems *)
(* ------------------------------------------------------------------ *)

(** C32. A cookie is good for its path, once, for at least one renewal of the
    secret and less than two.  Whatever is presented and renewed in between: a
    cookie that was given and not presented is accepted if the secret was renewed
    at most once since; one that was presented and accepted is not accepted
    again, and one given two renewals ago is not accepted, as long as no later
    secret gives the same hash.  No assertion fails. *)
Theorem cookie_accepted_once `{L : HmacLib} {HL : HmacLaws L} (p : list Z) (es : list cookie_event) (d : cookie_db_t)
    (Hwf : cookie_wf d) (Hes : Forall cookie_ev_ok es) :
  (let c := cookie_generate p d in (c ∉ cur_accepted_db d) -> (forall q, CkPresent q c ∉ es) -> (nb_rekeys es <= 1)%nat ->
     exists d', cookie_run es d = Ok d' /\ cookie_check p c d' = true) /\
  (forall c, cookie_id_ok c -> cookie_check p c d = true -> (forall now r, CkRekey now r ∈ es -> cookie_cpu p r <> c) ->
     exists d1 d', cookie_accept p c d = Ok d1 /\ cookie_run es d1 = Ok d' /\ cookie_check p c d' = false) /\
  (let c := cookie_generate p d in (forall now r, CkRekey now r ∈ es -> cookie_cpu p r <> c) -> (2 <= nb_rekeys es)%nat ->
     exists d', cookie_run es d = Ok d' /\ cookie_check p c d' = false).
Proof.
  split; [|split].
  - intros c Hn Hp Hk. apply (fresh_run p c es d); try done; [apply hmac_sha1_ok|]. split; [done|]. intros _. by left.
  - intros c Hc Hck Hr. destruct (accept_spec p c d Hc Hck) as (d1 & E & Es & Eo & H1 & H2 & _).
    assert (Hs : spent p c d1).
    { split; rewrite ?Es, ?Eo; [done|]. intros _. destruct (decide (c = cookie_cpu p (cur_secret d))) as [Ec|Ec]; [right|left]; auto. }
    destruct (spent_run p c es d1 (accept_wf _ _ _ _ E Hwf) Hes Hr Hs) as (d' & Er & Hs'). exists d1, d'. split; [done|]. split; [done|].
    by apply spent_check.
  - intros c Hr Hk. destruct (expired_run p c es d 0 Hwf Hes Hr Hk) as (d' & E & Hs); [split; lia|]. exists d'. split; [done|].
    apply spent_check; [apply hmac_sha1_ok|exact Hs].
Qed.

(* ------------------------------------------------------------------ *)
(** * Witnesses *)
(* ------------------------------------------------------------------ *)

(** A hash that is not one: the secret and the path, cut to twenty bytes. *)
#[local] Instance ex_hmac : HmacLib := {| hmac_sha1 := fun key data => take 20 ((Z.land 255 <$> key ++ data) ++ replicate 20 0) |}.
Lemma land_byte b : is_byte (Z.land 255 b).
Proof. unfold is_byte. rewrite Z.land_comm. change 255 with (Z.ones 8). rewrite Z.land_ones by lia. apply Z.mod_pos_bound. lia. Qed.
#[local] Instance ex_hmac_laws : HmacLaws ex_hmac.
Proof.
  split. intros key data. split.
  - unfold hmac_sha1, ex_hmac. rewrite length_take, length_app, length_replicate. unfold COOKIE_ID_SIZE. lia.
  - unfold hmac_sha1, ex_hmac. apply Forall_take, Forall_app. split; [|by apply Forall_replicate].
    apply Forall_fmap, Forall_forall. intros b _. apply land_byte.
Qed.

Definition ex_cookie_events : list cookie_event := [CkPresent [8] (cookie_generate [8] (CookieDb ∅ [1] ∅ [1] timeout_ctor)); CkRekey 120000 [2]].

Definition ex_cookie_db : cookie_db_t := CookieDb ∅ [1] ∅ [1] (Timeout true 120000 120000 (Some (120, 0))).

Lemma cookie_accepted_once_witness :
  exists d1 d2 d3, cookie_db_ctor 0 COOKIE_SECRET_RENEWAL_PERIOD [1] = Ok ex_cookie_db /\
    cookie_run ex_cookie_events ex_cookie_db = Ok d1 /\ cookie_check [9] (cookie_generate [9] ex_cookie_db) d1 = true /\
    cookie_accept [9] (cookie_generate [9] ex_cookie_db) ex_cookie_db = Ok d2 /\ cookie_run ex_cookie_events d2 = Ok d3 /\
    cookie_check [9] (cookie_generate [9] ex_cookie_db) d3 = false.
Proof.
  assert (Hwf : cookie_wf ex_cookie_db) by (split; [done|left; split; vm_compute; congruence]).
  assert (Hes : Forall cookie_ev_ok ex_cookie_events).
  { constructor; [apply hmac_sha1_ok|]. constructor; [split; vm_compute; congruence|constructor]. }
  destruct (cookie_accepted_once [9] ex_cookie_events ex_cookie_db Hwf Hes) as (H1 & H2 & _).
  destruct H1 as (d1 & E1 & C1).
  - apply not_elem_of_empty.
  - intros q Hq. apply elem_of_cons in Hq as [Hq|Hq]; [by vm_compute in Hq|]. by apply list_elem_of_singleton in Hq.
  - apply (bool_decide_unpack _). by vm_compute.
  - destruct (H2 (cookie_generate [9] ex_cookie_db)) as (d2 & d3 & Ea & E2 & C2).
    + apply hmac_sha1_ok.
    + by vm_compute.
    + intros now r Hr. apply elem_of_cons in Hr as [Hr|Hr]; [by vm_compute in Hr|]. apply list_elem_of_singleton in Hr. injection Hr as -> ->.
      vm_compute. congruence.
    + exists d1, d2, d3. by repeat (split; [first [assumption|reflexivity]|]).
Defined.
