(* ===== verification/KadAddr.v ===== *)
(** Addresses of kademlia peers: [kad_addr_t], its filters and its arrays
    (src/src/neoip_kad/base/addr/), over the 160-bit identifiers of [GenId], and
    the identifiers' distance. *)
From S2P Require Import Prelude Serial Codec GenId InetAddr ItemArr.

(** [kad_targetid_t], [kad_peerid_t] and [kad_keyid_t]: 20 bytes. *)
Definition KAD_ID_SIZE : nat := 20.
Notation "'kad_id_ok'" := (id_ok KAD_ID_SIZE).
Definition kad_id : Type := list Z.
Definition kad_id_null : kad_id := build_null KAD_ID_SIZE.

(** [a ^ b] and [a < b]. *)
Definition id_dist (a b : kad_id) : kad_id := id_xor KAD_ID_SIZE a b.
Definition kad_id_lt (a b : kad_id) : bool := id_lt KAD_ID_SIZE a b.

Record kad_addr_t := KadAddr { oaddr : ipport_addr_t; peerid : kad_id }.
Definition kad_addr_null : kad_addr_t := KadAddr ipport_null kad_id_null.

Section kad_addr.
Context `{InetLib}.

Definition kad_addr_is_null (a : kad_addr_t) : bool :=
  ipport_is_null (oaddr a) && id_is_null KAD_ID_SIZE (peerid a).
Definition kad_addr_is_fully_qualified (a : kad_addr_t) : outcome bool :=
  let* q := ipport_is_fully_qualified (oaddr a) in
  Ok (q && is_fully_qualified KAD_ID_SIZE (peerid a)).

Definition kad_addr_compare (a other : kad_addr_t) : Z :=
  if kad_addr_is_null a && negb (kad_addr_is_null other) then -1
  else if negb (kad_addr_is_null a) && kad_addr_is_null other then 1
  else if kad_addr_is_null a && kad_addr_is_null other then 0
  else if kad_id_lt (peerid a) (peerid other) then -1
  else if id_gt KAD_ID_SIZE (peerid a) (peerid other) then 1
  else if ipport_compare (oaddr a) (oaddr other) <? 0 then -1
  else if 0 <? ipport_compare (oaddr a) (oaddr other) then 1
  else 0.
Definition kad_addr_eq (a b : kad_addr_t) : bool := kad_addr_compare a b =? 0.
Definition kad_addr_lt (a b : kad_addr_t) : bool := kad_addr_compare a b <? 0.

(** The filters return true for an address to leave out. *)
Definition filter_fct_dstpublic (a : kad_addr_t) : outcome bool :=
  let* p := is_public (ipaddr (oaddr a)) in Ok (negb p).
Definition filter_fct_dstprivate (a : kad_addr_t) : outcome bool :=
  let* p := is_private (ipaddr (oaddr a)) in Ok p.
Definition filter_fct_dstlinklocal (a : kad_addr_t) : outcome bool :=
  let* p := is_localhost (ipaddr (oaddr a)) in Ok p.
Definition filter_fct_dstlocalhost (a : kad_addr_t) : outcome bool := Ok false.

(* ------------------------------------------------------------------ *)
(** * kad_addr_arr_t *)
(* ------------------------------------------------------------------ *)

(** [cmp_xor_dist_t(from_id)]. *)
Definition cmp_xor_dist (from_id : kad_id) (node1 node2 : kad_addr_t) : bool :=
  kad_id_lt (id_dist from_id (peerid node1)) (id_dist from_id (peerid node2)).
Definition sort_by_dist (from_id : kad_id) (l : list kad_addr_t) : list kad_addr_t :=
  std_sort (cmp_xor_dist from_id) l.
End kad_addr.

(* ------------------------------------------------------------------ *)
(** * Serialization *)
(* ------------------------------------------------------------------ *)

(** [operator <<] and [operator >>] of a [gen_id_t] of [nb] bytes. *)
Definition put_id (buffer : list Z) (s : serial_t) : outcome serial_t := tail_add buffer s.
Definition get_id (nb : nat) (s : serial_t) : outcome (list Z * serial_t) :=
  get_head nb "gen_id_t Payload Too Short" s.
Definition id_codec (nb : nat) : codec (list Z) := {|
  codec_ok := id_ok nb; wire_put := wire_put_id; wire_get := wire_get_id nb;
  put := put_id; get := get_id nb |}.

Definition put_kad_addr (a : kad_addr_t) (s : serial_t) : outcome serial_t :=
  let* s1 := put_ipport (oaddr a) s in put_id (peerid a) s1.
Definition get_kad_addr (s : serial_t) : outcome (kad_addr_t * serial_t) :=
  let* (oaddr, s1) := get_ipport s in
  let* (peerid, s2) := get_id KAD_ID_SIZE s1 in
  Ok (KadAddr oaddr peerid, s2).

Definition kad_addr_codec : codec kad_addr_t :=
  map_codec (pair_codec ipport_codec (id_codec KAD_ID_SIZE))
    (fun p => KadAddr p.1 p.2) (fun a => (oaddr a, peerid a)).
Definition kad_addr_arr_codec : codec (list kad_addr_t) := item_arr_codec kad_addr_codec.

#[export] Instance id_codec_laws nb : CodecLaws (id_codec nb).
Proof.
  split; cbn [codec_ok wire_put wire_get put get id_codec].
  - intros l Hl. apply Hl.
  - intros l rest [Hlen Hl]. unfold wire_get_id, wire_put_id. rewrite length_app.
    rewrite bool_decide_eq_false_2 by lia. rewrite <- Hlen. by rewrite take_app_length, drop_app_length.
  - intros l a rest Hl. unfold wire_get_id. case_bool_decide; [done|]. intros [= <- <-].
    split; [|by apply Forall_drop]. split; [rewrite length_take; lia|by apply Forall_take].
  - intros l s Hl Hwf. destruct (tail_add_spec l s Hwf) as (s' & H & ? & ? & _). by exists s'.
  - intros l s Hwf Hl Hc. pose proof (get_head_spec nb "gen_id_t Payload Too Short" s l Hwf Hc) as Hg.
    unfold get_refines; cbn [wire_get get id_codec]. unfold wire_get_head in Hg. unfold wire_get_id.
    by case_bool_decide.
Qed.

#[export] Instance kad_addr_laws : CodecLaws kad_addr_codec.
Proof. apply (map_laws _ _ _); by intros []. Qed.
#[export] Instance kad_addr_arr_laws : CodecLaws kad_addr_arr_codec.
Proof. unfold kad_addr_arr_codec. apply _. Qed.

(* ------------------------------------------------------------------ *)
(** * Lemmas: the distance *)
(* ------------------------------------------------------------------ *)

Lemma id_dist_ok a b : kad_id_ok a -> kad_id_ok b -> kad_id_ok (id_dist a b).
Proof. intros Ha Hb. by apply id_xor_spec. Qed.

Lemma id_dist_value a b :
  kad_id_ok a -> kad_id_ok b -> be_value (id_dist a b) = Z.lxor (be_value a) (be_value b).
Proof. intros Ha Hb. by apply id_xor_spec. Qed.

Lemma kad_id_lt_spec a b : kad_id_ok a -> kad_id_ok b -> kad_id_lt a b = (be_value a <? be_value b).
Proof.
  intros Ha Hb. unfold kad_id_lt, id_lt. rewrite id_compare_spec by done.
  apply eq_true_iff_eq. rewrite !Z.ltb_lt. lia.
Qed.

Lemma id_eq_spec p q : kad_id_ok p -> kad_id_ok q -> id_eq KAD_ID_SIZE p q = bool_decide (p = q).
Proof.
  intros Hp Hq. unfold id_eq. rewrite id_compare_spec by done. case_bool_decide as E.
  - subst. by rewrite Z.sub_diag.
  - apply Z.eqb_neq. intros H. apply E, (id_value_inj KAD_ID_SIZE); [done..|]. lia.
Qed.

Lemma id_dist_comm a b : kad_id_ok a -> kad_id_ok b -> id_dist a b = id_dist b a.
Proof.
  intros Ha Hb. apply (id_value_inj KAD_ID_SIZE); [by apply id_dist_ok..|].
  rewrite !id_dist_value by done. apply Z.lxor_comm.
Qed.

Lemma lxor_cancel_l t a b : Z.lxor t a = Z.lxor t b -> a = b.
Proof.
  intros H. rewrite <- (Z.lxor_0_l a), <- (Z.lxor_0_l b), <- (Z.lxor_nilpotent t), !Z.lxor_assoc.
  by rewrite H.
Qed.

Lemma id_dist_inj t a b :
  kad_id_ok t -> kad_id_ok a -> kad_id_ok b -> id_dist t a = id_dist t b -> a = b.
Proof.
  intros Ht Ha Hb H. apply (id_value_inj KAD_ID_SIZE); [done..|].
  assert (Hv : be_value (id_dist t a) = be_value (id_dist t b)) by (by rewrite H).
  rewrite !id_dist_value in Hv by done. by apply lxor_cancel_l in Hv.
Qed.

(** [node] is at most as far from [t] as [other]. *)
Definition nearer_eq (t : kad_id) (node other : kad_addr_t) : Prop :=
  Z.lxor (be_value t) (be_value (peerid node)) <= Z.lxor (be_value t) (be_value (peerid other)).
Definition addrs_ok (l : list kad_addr_t) : Prop := Forall (fun a => kad_id_ok (peerid a)) l.

Lemma sort_by_dist_spec t l :
  kad_id_ok t -> addrs_ok l ->
  sort_by_dist t l ≡ₚ l /\ StronglySorted (nearer_eq t) (sort_by_dist t l).
Proof.
  intros Ht Hl. split; [apply std_sort_perm|].
  refine (std_sort_sorted (cmp_xor_dist t) (fun a => kad_id_ok (peerid a))
    (fun a => Z.lxor (be_value t) (be_value (peerid a))) _ l Hl).
  intros a b Ha Hb. unfold cmp_xor_dist. rewrite kad_id_lt_spec by (by apply id_dist_ok).
  by rewrite !id_dist_value.
Qed.
