(* ===== verification/Kbucket.v ===== *)
(** The routing table of a kademlia peer: [kad_kbucket_t] with its nested
    [bucklist_t] and [bucknode_t] (src/src/neoip_kad/service/kbucket/).

    A [bucknode_t *] is the peerid its node is indexed by in [bucknode_db]; a
    pointer to a deleted node is a [Fault].  What the table asks of the rest of
    the peer (pings, node searches, timers, the record database) is the list
    [kb_out]; the answers come back as arguments: whether a ping or a search
    could be started, and the random identifiers drawn. *)
From stdpp Require Import gmap.
From S2P Require Import Prelude GenId InetAddr ItemArr KadAddr.

(* ------------------------------------------------------------------ *)
(** * State *)
(* ------------------------------------------------------------------ *)

(** [pending_node] and [ping_rpc] are set and cleared together. *)
Record bucknode_t := Bucknode { bn_addr : kad_addr_t; pending_node : option kad_addr_t }.
Definition bn_id (n : bucknode_t) : kad_id := peerid (bn_addr n).
Definition ping_in_progress (n : bucknode_t) : bool :=
  match pending_node n with Some _ => true | None => false end.

Record bucklist_t := Bucklist {
  bucknode_lru : list kad_id;            (* least-recently seen first *)
  is_refreshing : bool                   (* kad_closestnode != NULL *)
}.

Inductive kb_out_t :=
| NotifyNewNode (a : kad_addr_t)         (* remote_db->notify_new_node *)
| SendPing (a : kad_addr_t)
| SearchNode (target : kad_id) (bucket_idx : nat)
| RestartRefreshTimer (bucket_idx : nat).

Record kbucket_t := Kbucket {
  local_peerid : kad_id;
  kbucket_width : Z;
  kbucket_height : nat;
  bucklist_db : list bucklist_t;
  bucknode_db : gmap kad_id bucknode_t;
  pending_node_db : gmap kad_id kad_addr_t;
  peerid_todelete_db : list kad_id;
  peerid_todelete_zerotimer : bool;      (* not empty *)
  kb_out : list kb_out_t
}.

Definition set_bucklist_db (d : list bucklist_t) (k : kbucket_t) : kbucket_t :=
  Kbucket (local_peerid k) (kbucket_width k) (kbucket_height k) d (bucknode_db k)
    (pending_node_db k) (peerid_todelete_db k) (peerid_todelete_zerotimer k) (kb_out k).
Definition set_bucknode_db (d : gmap kad_id bucknode_t) (k : kbucket_t) : kbucket_t :=
  Kbucket (local_peerid k) (kbucket_width k) (kbucket_height k) (bucklist_db k) d
    (pending_node_db k) (peerid_todelete_db k) (peerid_todelete_zerotimer k) (kb_out k).
Definition set_pending_node_db (d : gmap kad_id kad_addr_t) (k : kbucket_t) : kbucket_t :=
  Kbucket (local_peerid k) (kbucket_width k) (kbucket_height k) (bucklist_db k) (bucknode_db k)
    d (peerid_todelete_db k) (peerid_todelete_zerotimer k) (kb_out k).
Definition set_todelete (d : list kad_id) (z : bool) (k : kbucket_t) : kbucket_t :=
  Kbucket (local_peerid k) (kbucket_width k) (kbucket_height k) (bucklist_db k) (bucknode_db k)
    (pending_node_db k) d z (kb_out k).
Definition emit (o : kb_out_t) (k : kbucket_t) : kbucket_t :=
  Kbucket (local_peerid k) (kbucket_width k) (kbucket_height k) (bucklist_db k) (bucknode_db k)
    (pending_node_db k) (peerid_todelete_db k) (peerid_todelete_zerotimer k) (kb_out k ++ [o]).

(** [bucklist_db[idx]]: the vector's [operator []] is not checked. *)
Definition bucklist_at (idx : nat) (k : kbucket_t) : outcome bucklist_t :=
  match bucklist_db k !! idx with Some b => Ok b | None => Fault end.
Definition set_lru (idx : nat) (lru : list kad_id) (k : kbucket_t) : kbucket_t :=
  set_bucklist_db (alter (fun b => Bucklist lru (is_refreshing b)) idx (bucklist_db k)) k.
Definition set_refreshing (idx : nat) (r : bool) (k : kbucket_t) : kbucket_t :=
  set_bucklist_db (alter (fun b => Bucklist (bucknode_lru b) r) idx (bucklist_db k)) k.

(** Dereferences a [bucknode_t *]. *)
Definition bucknode_at (p : kad_id) (k : kbucket_t) : outcome bucknode_t :=
  match bucknode_db k !! p with Some n => Ok n | None => Fault end.

Definition kad_id_nbit : Z := Z.of_nat KAD_ID_SIZE * 8.

Definition size_div (a b : Z) : outcome Z := if b =? 0 then Fault else Ok (a / b).

Definition get_bucknode (peerid : kad_id) (k : kbucket_t) : option bucknode_t := bucknode_db k !! peerid.
Definition is_pending_node (peerid : kad_id) (k : kbucket_t) : bool :=
  bool_decide (is_Some (pending_node_db k !! peerid)).

Definition get_bucket_idx (peerid : kad_id) (k : kbucket_t) : outcome nat :=
  let distance := id_dist (local_peerid k) peerid in
  let* highest_bit := bit_get_highest_set KAD_ID_SIZE distance in
  let* bucket_idx := size_div highest_bit (kbucket_width k) in
  Ok (Z.to_nat bucket_idx).

(* ------------------------------------------------------------------ *)
(** * bucklist_t *)
(* ------------------------------------------------------------------ *)

Definition peerid_is_present (peerid : kad_id) (lru : list kad_id) : bool :=
  existsb (fun p => id_eq KAD_ID_SIZE p peerid) lru.

(** [bucknode_lru.remove(bucknode)]: every occurrence. *)
Definition lru_remove (p : kad_id) (lru : list kad_id) : list kad_id :=
  filter (fun q => q <> p) lru.

Definition bucklist_insert (idx : nat) (p : kad_id) (k : kbucket_t) : outcome kbucket_t :=
  let* b := bucklist_at idx k in
  assert! negb (peerid_is_present p (bucknode_lru b)) in
  let* i := get_bucket_idx p k in
  assert! bool_decide (i = idx) in
  let lru := bucknode_lru b ++ [p] in
  assert! bool_decide (length lru <= kbucket_height k)%nat in
  Ok (set_lru idx lru k).

Definition bucklist_update (idx : nat) (p : kad_id) (k : kbucket_t) : outcome kbucket_t :=
  let* b := bucklist_at idx k in
  assert! peerid_is_present p (bucknode_lru b) in
  assert! bool_decide (length (bucknode_lru b) <= kbucket_height k)%nat in
  let* i := get_bucket_idx p k in
  assert! bool_decide (i = idx) in
  Ok (set_lru idx (lru_remove p (bucknode_lru b) ++ [p]) k).

Definition bucklist_remove (idx : nat) (p : kad_id) (k : kbucket_t) : outcome kbucket_t :=
  let* b := bucklist_at idx k in
  assert! peerid_is_present p (bucknode_lru b) in
  let* i := get_bucket_idx p k in
  assert! bool_decide (i = idx) in
  Ok (set_lru idx (lru_remove p (bucknode_lru b)) k).

(** [bucklist_t::get_bucknode]. *)
Definition bucklist_find (peerid : kad_id) (lru : list kad_id) : option kad_id :=
  List.find (fun p => id_eq KAD_ID_SIZE p peerid) lru.

Fixpoint get_first_notpinging (lru : list kad_id) (k : kbucket_t) : outcome (option kad_id) :=
  match lru with
  | [] => Ok None
  | p :: lru' =>
    let* n := bucknode_at p k in
    if negb (ping_in_progress n) then Ok (Some p) else get_first_notpinging lru' k
  end.

Definition get_node_idx (idx : nat) (lru : list kad_id) : outcome kad_id :=
  assert! bool_decide (idx < length lru)%nat in
  match lru !! idx with Some p => Ok p | None => AssertFail end.

(** A null filter is [None]. *)
Fixpoint copy_to (lru : list kad_id) (kad_addr_filter : option (kad_addr_t -> outcome bool))
    (k : kbucket_t) (kad_addr_arr : list kad_addr_t) : outcome (list kad_addr_t) :=
  match lru with
  | [] => Ok kad_addr_arr
  | p :: lru' =>
    let* n := bucknode_at p k in
    let* out := match kad_addr_filter with Some f => f (bn_addr n) | None => Ok false end in
    if (out : bool) then copy_to lru' kad_addr_filter k kad_addr_arr
    else copy_to lru' kad_addr_filter k (item_append (bn_addr n) kad_addr_arr)
  end.

(** [rand]: what [build_random] gives, draw after draw; past the list the loop
    has not ended. *)
Fixpoint pick_refresh_id (bucket_idx : nat) (rand : list kad_id) (k : kbucket_t) : outcome kad_id :=
  match rand with
  | [] => Fault
  | r :: rand' =>
    let* rand_id := bit_clear_n_highest KAD_ID_SIZE
                      (kad_id_nbit - (Z.of_nat bucket_idx + 1) * kbucket_width k) r in
    let* h := bit_get_highest_set KAD_ID_SIZE rand_id in
    let* i := size_div h (kbucket_width k) in
    if bool_decide (bucket_idx = Z.to_nat i) then Ok rand_id
    else pick_refresh_id bucket_idx rand' k
  end.

(** [start_ok]: whether the search could be started. *)
Definition trigger_refresh_now (idx : nat) (rand : list kad_id) (start_ok : bool) (k : kbucket_t)
    : outcome kbucket_t :=
  let* b := bucklist_at idx k in
  if is_refreshing b then Ok k
  else
    let* rand_id := pick_refresh_id idx rand k in
    Ok (set_refreshing idx start_ok (emit (SearchNode rand_id idx) k)).

(** [neoip_timeout_expire_cb]; the timer goes on. *)
Definition refresh_timeout_cb (idx : nat) (rand : list kad_id) (start_ok : bool) (k : kbucket_t)
    : outcome kbucket_t := trigger_refresh_now idx rand start_ok k.

Definition neoip_kad_closestnode_cb (idx : nat) (closestnode_ok : bool) (k : kbucket_t) : outcome kbucket_t :=
  assert! closestnode_ok in Ok (set_refreshing idx false k).

(* ------------------------------------------------------------------ *)
(** * bucknode_t *)
(* ------------------------------------------------------------------ *)

Definition bucknode_ctor (a : kad_addr_t) (k : kbucket_t) : outcome kbucket_t :=
  let k1 := emit (NotifyNewNode a) k in
  assert! bool_decide (bucknode_db k1 !! peerid a = None) in
  Ok (set_bucknode_db (<[peerid a := Bucknode a None]> (bucknode_db k1)) k1).

Definition ping_stop (p : kad_id) (k : kbucket_t) : outcome kbucket_t :=
  let* n := bucknode_at p k in
  match pending_node n with
  | None => AssertFail
  | Some a =>
    let k1 := set_pending_node_db (delete (peerid a) (pending_node_db k)) k in
    Ok (set_bucknode_db (<[p := Bucknode (bn_addr n) None]> (bucknode_db k1)) k1)
  end.

Definition bucknode_dtor (p : kad_id) (k : kbucket_t) : outcome kbucket_t :=
  let* n := bucknode_at p k in
  let* k1 := (if ping_in_progress n then ping_stop p k else Ok k) in
  Ok (set_bucknode_db (delete (bn_id n) (bucknode_db k1)) k1).

(** [ping_ok]: whether the ping could be started. *)
Definition ping_start (p : kad_id) (new_node : kad_addr_t) (ping_ok : bool) (k : kbucket_t) : outcome kbucket_t :=
  let* n := bucknode_at p k in
  assert! negb (ping_in_progress n) in
  if negb ping_ok then Ok k
  else
    let k1 := emit (SendPing (bn_addr n)) k in
    let k2 := set_bucknode_db (<[p := Bucknode (bn_addr n) (Some new_node)]> (bucknode_db k1)) k1 in
    assert! bool_decide (pending_node_db k2 !! peerid new_node = None) in
    Ok (set_pending_node_db (<[peerid new_node := new_node]> (pending_node_db k2)) k2).

(** The kinds of [kad_event_t] a ping reports: the fatal ones and [COMPLETED]. *)
Inductive ping_event := PingFatal | PingCompleted.

Definition neoip_kad_ping_rpc_cb (p : kad_id) (ev : ping_event) (k : kbucket_t) : outcome kbucket_t :=
  let* n := bucknode_at p k in
  match ev with
  | PingFatal =>
    match pending_node n with
    | None => Fault
    | Some a =>
      let* k1 := bucknode_ctor a k in
      let* bucket_idx := get_bucket_idx (bn_id n) k1 in
      let* k2 := bucklist_remove bucket_idx p k1 in
      let* k3 := bucklist_insert bucket_idx (peerid a) k2 in
      bucknode_dtor p k3
    end
  | PingCompleted =>
    let* bucket_idx := get_bucket_idx (bn_id n) k in
    let* k1 := bucklist_update bucket_idx p k in
    ping_stop p k1
  end.

(* ------------------------------------------------------------------ *)
(** * kad_kbucket_t *)
(* ------------------------------------------------------------------ *)

(** The part of [kad_kbucket_profile_t] the table reads. *)
Record kad_kbucket_profile_t := KbucketProfile {
  profile_kbucket_width : Z;
  nb_replication : nat;
  delete_timedout_rpc_min_delay : Z      (* milliseconds *)
}.
Definition kbucket_profile_default : kad_kbucket_profile_t := KbucketProfile 5 20 (60 * 1000).

Section kbucket.
Context `{InetLib}.

Definition notify_srckaddr (a : kad_addr_t) (ping_ok : bool) (k : kbucket_t) : outcome kbucket_t :=
  let* q := kad_addr_is_fully_qualified a in
  assert! q in
  let bucknode := get_bucknode (peerid a) k in
  let* bucket_idx := get_bucket_idx (peerid a) k in
  if is_pending_node (peerid a) k then Ok k
  else
    match bucknode with
    | Some _ => bucklist_update bucket_idx (peerid a) k
    | None =>
      let* b := bucklist_at bucket_idx k in
      if bool_decide (length (bucknode_lru b) < kbucket_height k)%nat then
        let* k1 := bucknode_ctor a k in
        bucklist_insert bucket_idx (peerid a) k1
      else
        let* first := get_first_notpinging (bucknode_lru b) k in
        match first with
        | None => Ok k
        | Some p => ping_start p a ping_ok k
        end
    end.

(** [listen_lview]: the address the peer listens on. *)
Definition kbucket_ctor (profile : kad_kbucket_profile_t) (listen_lview : ipport_addr_t)
    (local : kad_id) (ping_ok : bool) : outcome kbucket_t :=
  let width := profile_kbucket_width profile in
  let* nb := size_div kad_id_nbit width in
  assert! nb * width =? kad_id_nbit in
  let k := Kbucket local width (nb_replication profile)
             (replicate (Z.to_nat nb) (Bucklist [] false)) ∅ ∅ [] false
             (RestartRefreshTimer <$> seq 0 (Z.to_nat nb)) in
  let* any := is_any (ipaddr listen_lview) in
  let oaddr := if (any : bool) then Ipport (ip_of_string "127.0.0.1") (port listen_lview)
               else listen_lview in
  notify_srckaddr (KadAddr oaddr local) ping_ok k.

(** The destructor deletes every node. *)
Fixpoint delete_nodes (ps : list kad_id) (k : kbucket_t) : outcome kbucket_t :=
  match ps with [] => Ok k | p :: ps' => let* k1 := bucknode_dtor p k in delete_nodes ps' k1 end.
Definition kbucket_dtor (k : kbucket_t) : outcome kbucket_t :=
  let* k1 := delete_nodes (fst <$> map_to_list (bucknode_db k)) k in
  Ok (set_bucklist_db [] k1).

(** One height of [get_noldest_addr]: the [y]-th node of each bucket. *)
Fixpoint noldest_row (y : nat) (bs : list bucklist_t) (max_nb_addr : nat) (k : kbucket_t)
    (result : list kad_addr_t) : outcome (list kad_addr_t * bool) :=
  match bs with
  | [] => Ok (result, false)
  | b :: bs' =>
    if bool_decide (length (bucknode_lru b) <= y)%nat then noldest_row y bs' max_nb_addr k result
    else
      let* p := get_node_idx y (bucknode_lru b) in
      let* n := bucknode_at p k in
      let result' := item_append (bn_addr n) result in
      if bool_decide (length result' = max_nb_addr) then Ok (result', true)
      else noldest_row y bs' max_nb_addr k result'
  end.

Fixpoint noldest_rows (ys : list nat) (max_nb_addr : nat) (k : kbucket_t) (result : list kad_addr_t)
    : outcome (list kad_addr_t) :=
  match ys with
  | [] => Ok result
  | y :: ys' =>
    let* (result', full) := noldest_row y (bucklist_db k) max_nb_addr k result in
    if (full : bool) then Ok result' else noldest_rows ys' max_nb_addr k result'
  end.
Definition get_noldest_addr (max_nb_addr : nat) (k : kbucket_t) : outcome (list kad_addr_t) :=
  noldest_rows (seq 0 (kbucket_height k)) max_nb_addr k [].

(** The buckets are added by turns on both sides of [bucket_idx]; each turn
    moves at least one of the two indices, signed integers here. *)
Fixpoint nclosest_loop (fuel : nat) (inc_idx dec_idx : Z) (max_nb_addr : nat)
    (kad_addr_filter : option (kad_addr_t -> outcome bool)) (k : kbucket_t)
    (tmp_addr_arr : list kad_addr_t) : outcome (list kad_addr_t) :=
  match fuel with
  | O => Fault
  | S fuel' =>
    let nb_bucket := Z.of_nat (length (bucklist_db k)) in
    if bool_decide (length tmp_addr_arr < max_nb_addr)%nat then
      if (dec_idx <? 0) && (nb_bucket <=? inc_idx) then Ok tmp_addr_arr
      else
        let* (tmp1, inc1) :=
          (if inc_idx <? nb_bucket then
             let* b := bucklist_at (Z.to_nat inc_idx) k in
             let* t := copy_to (bucknode_lru b) kad_addr_filter k tmp_addr_arr in
             Ok (t, inc_idx + 1)
           else Ok (tmp_addr_arr, inc_idx)) in
        let* (tmp2, dec1) :=
          (if 0 <=? dec_idx then
             let* b := bucklist_at (Z.to_nat dec_idx) k in
             let* t := copy_to (bucknode_lru b) kad_addr_filter k tmp1 in
             Ok (t, dec_idx - 1)
           else Ok (tmp1, dec_idx)) in
        nclosest_loop fuel' inc1 dec1 max_nb_addr kad_addr_filter k tmp2
    else Ok tmp_addr_arr
  end.

Definition get_nclosest_addr (target_id : kad_id) (max_nb_addr : nat)
    (kad_addr_filter : option (kad_addr_t -> outcome bool)) (k : kbucket_t) : outcome (list kad_addr_t) :=
  let* bucket_idx := get_bucket_idx target_id k in
  let* tmp_addr_arr :=
    nclosest_loop (S (length (bucklist_db k))) (Z.of_nat bucket_idx) (Z.of_nat bucket_idx - 1)
      max_nb_addr kad_addr_filter k [] in
  Ok (take max_nb_addr (sort_by_dist target_id tmp_addr_arr)).

(** From the farthest bucket to the closest, until one is not empty; [rand idx]
    is drawn for the bucket [idx]. *)
Fixpoint refresh_loop (nb : nat) (rand : nat -> list kad_id) (start_ok : bool) (k : kbucket_t)
    : outcome kbucket_t :=
  match nb with
  | O => Ok k
  | S i =>
    let* b := bucklist_at i k in
    if bool_decide (length (bucknode_lru b) <> 0%nat) then Ok k
    else let* k1 := trigger_refresh_now i (rand i) start_ok k in refresh_loop i rand start_ok k1
  end.
Definition refresh_post_bstrap (rand : nat -> list kad_id) (start_ok : bool) (k : kbucket_t)
    : outcome kbucket_t := refresh_loop (length (bucklist_db k)) rand start_ok k.

Fixpoint refresh_each (idxs : list nat) (rand : nat -> list kad_id) (start_ok : bool) (k : kbucket_t)
    : outcome kbucket_t :=
  match idxs with
  | [] => Ok k
  | i :: idxs' => let* k1 := trigger_refresh_now i (rand i) start_ok k in refresh_each idxs' rand start_ok k1
  end.
Definition refresh_all_bucklist (rand : nat -> list kad_id) (start_ok : bool) (k : kbucket_t)
    : outcome kbucket_t := refresh_each (seq 0 (length (bucklist_db k))) rand start_ok k.

Definition kbucket_notify_nsearch (targetid : kad_id) (k : kbucket_t) : outcome kbucket_t :=
  let* bucket_idx := get_bucket_idx targetid k in
  let* _ := bucklist_at bucket_idx k in
  Ok (emit (RestartRefreshTimer bucket_idx) k).

(** [is_fatal] and [is_timedout] of the event, and the delay in milliseconds. *)
Definition notify_failed_rpc (profile : kad_kbucket_profile_t) (peerid : kad_id)
    (is_fatal is_timedout : bool) (expire_delay : Z) (k : kbucket_t) : outcome kbucket_t :=
  assert! is_fatal in
  if is_timedout && (expire_delay <? delete_timedout_rpc_min_delay profile) then Ok k
  else Ok (set_todelete (peerid_todelete_db k ++ [peerid]) true k).

Fixpoint todelete_loop (db : list kad_id) (k : kbucket_t) : outcome kbucket_t :=
  match db with
  | [] => Ok k
  | peerid :: db' =>
    let* bucket_idx := get_bucket_idx peerid k in
    let* b := bucklist_at bucket_idx k in
    match bucklist_find peerid (bucknode_lru b) with
    | None => todelete_loop db' k
    | Some p =>
      let* k1 := bucklist_remove bucket_idx p k in
      let* k2 := bucknode_dtor p k1 in
      todelete_loop db' k2
    end
  end.
(** The zero timer forgets its callbacks before it calls them. *)
Definition kbucket_zerotimer_expire_cb (k : kbucket_t) : outcome kbucket_t :=
  todelete_loop (peerid_todelete_db k) (set_todelete [] false k).

(* ------------------------------------------------------------------ *)
(** * Events *)
(* ------------------------------------------------------------------ *)

Inductive kb_event :=
| EvSrcKaddr (a : kad_addr_t) (ping_ok : bool)
| EvPing (p : kad_id) (ev : ping_event)
| EvFailedRpc (p : kad_id) (is_timedout : bool) (expire_delay : Z)
| EvZeroTimer
| EvRefreshTimeout (idx : nat) (rand : list kad_id) (start_ok : bool)
| EvRefreshAll (rand : nat -> list kad_id) (start_ok : bool)
| EvRefreshPostBstrap (rand : nat -> list kad_id) (start_ok : bool)
| EvClosestnode (idx : nat)
| EvNsearch (target : kad_id).

Definition kb_step (profile : kad_kbucket_profile_t) (e : kb_event) (k : kbucket_t) : outcome kbucket_t :=
  match e with
  | EvSrcKaddr a ping_ok => notify_srckaddr a ping_ok k
  | EvPing p ev => neoip_kad_ping_rpc_cb p ev k
  | EvFailedRpc p t d => notify_failed_rpc profile p true t d k
  | EvZeroTimer => kbucket_zerotimer_expire_cb k
  | EvRefreshTimeout idx rand ok => refresh_timeout_cb idx rand ok k
  | EvRefreshAll rand ok => refresh_all_bucklist rand ok k
  | EvRefreshPostBstrap rand ok => refresh_post_bstrap rand ok k
  | EvClosestnode idx => neoip_kad_closestnode_cb idx true k
  | EvNsearch target => kbucket_notify_nsearch target k
  end.

Fixpoint kb_run (profile : kad_kbucket_profile_t) (es : list kb_event) (k : kbucket_t) : outcome kbucket_t :=
  match es with
  | [] => Ok k
  | e :: es' => let* k1 := kb_step profile e k in kb_run profile es' k1
  end.
End kbucket.
