(* ===== verification/KbucketRep.v ===== *)
(** The routing table against its specification: the buckets as plain lists of
    nodes, updated by the rules of the Kademlia paper.  The two indices of the
    table ([bucknode_db], [pending_node_db]) and the pointers of the buckets
    are related to these lists by [kb_rep], kept by every event. *)
From stdpp Require Import gmap.
From S2P Require Import Prelude GenId InetAddr ItemArr KadAddr Kbucket.

(* ------------------------------------------------------------------ *)
(** * Specification: buckets as lists of nodes *)
(* ------------------------------------------------------------------ *)

(** The specification of a bucket is the list of its nodes, the least-recently
    seen first: no pointers and no indices. *)
Definition is_id (p : kad_id) (n : bucknode_t) : Prop := bn_id n = p.
#[export] Instance is_id_dec p n : Decision (is_id p n).
Proof. unfold is_id. apply _. Defined.
Definition reset_pending (n : bucknode_t) : bucknode_t := Bucknode (bn_addr n) None.
Definition pendings (b : list bucknode_t) : list kad_addr_t := omap pending_node b.

(** The first node that is not being pinged gets [a] as its possible successor. *)
Fixpoint ping_first (a : kad_addr_t) (b : list bucknode_t) : list bucknode_t :=
  match b with
  | [] => []
  | n :: b' =>
    if ping_in_progress n then n :: ping_first a b' else Bucknode (bn_addr n) (Some a) :: b'
  end.

(** A message from [a]: the rules of section 2.1 of the Kademlia paper, with
    one ping at a time per node. *)
Definition bucket_seen (height : nat) (a : kad_addr_t) (ping_ok : bool) (b : list bucknode_t) : list bucknode_t :=
  if decide (peerid a ∈ peerid <$> pendings b) then b
  else if decide (peerid a ∈ bn_id <$> b)
  then filter (fun n => ~ is_id (peerid a) n) b ++ filter (is_id (peerid a)) b
  else if decide (length b < height)%nat then b ++ [Bucknode a None]
  else if ping_ok then ping_first a b else b.

(** The pinged node [p] answered: it is the most recently seen. *)
Definition bucket_answered (p : kad_id) (b : list bucknode_t) : list bucknode_t :=
  filter (fun n => ~ is_id p n) b ++ (reset_pending <$> filter (is_id p) b).

(** It did not: its successor takes its place, at the tail. *)
Definition bucket_evicted (p : kad_id) (b : list bucknode_t) : list bucknode_t :=
  filter (fun n => ~ is_id p n) b ++ ((fun a => Bucknode a None) <$> pendings (filter (is_id p) b)).

Definition bucket_deleted (p : kad_id) (b : list bucknode_t) : list bucknode_t := filter (fun n => ~ is_id p n) b.

(** The bucket of an identifier: the index of the highest bit of its distance to
    the local one, by groups of [width] bits. *)
Definition bucket_of (local : kad_id) (width : Z) (p : kad_id) : nat :=
  Z.to_nat (Z.log2 (Z.lxor (be_value local) (be_value p)) / width).

(** What the peers in the buckets satisfy. *)
Definition node_ok (local : kad_id) (width : Z) (i : nat) (n : bucknode_t) : Prop :=
  (kad_id_ok (bn_id n) /\ bucket_of local width (bn_id n) = i) /\
  match pending_node n with
  | Some a => kad_id_ok (peerid a) /\ bucket_of local width (peerid a) = i
  | None => True
  end.
Definition bucket_ok (local : kad_id) (width : Z) (height i : nat) (b : list bucknode_t) : Prop :=
  (length b <= height)%nat /\ Forall (node_ok local width i) b.

(** The two indices of a list of nodes. *)
Definition node_index (l : list bucknode_t) : list (kad_id * bucknode_t) := (fun n => (bn_id n, n)) <$> l.
Definition pending_index (l : list bucknode_t) : list (kad_id * kad_addr_t) :=
  (fun a => (peerid a, a)) <$> pendings l.
Definition all_ids (l : list bucknode_t) : list kad_id := (bn_id <$> l) ++ (peerid <$> pendings l).

Definition db_rep (l : list bucknode_t) (db : gmap kad_id bucknode_t) (pdb : gmap kad_id kad_addr_t) : Prop :=
  NoDup (all_ids l) /\ db = list_to_map (node_index l) /\ pdb = list_to_map (pending_index l).

Definition width_ok (width : Z) (nb : nat) : Prop := 0 < width /\ Z.of_nat nb * width = kad_id_nbit.

Record kb_rep (S : list (list bucknode_t)) (k : kbucket_t) : Prop := {
  rep_local : kad_id_ok (local_peerid k);
  rep_width : width_ok (kbucket_width k) (length S);
  rep_lru : bucknode_lru <$> bucklist_db k = fmap bn_id <$> S;
  rep_db : db_rep (concat S) (bucknode_db k) (pending_node_db k);
  rep_buckets : forall i b, S !! i = Some b ->
    bucket_ok (local_peerid k) (kbucket_width k) (kbucket_height k) i b;
  rep_todelete : Forall kad_id_ok (peerid_todelete_db k)
}.

(* ------------------------------------------------------------------ *)
(** * Lemmas: indices *)
(* ------------------------------------------------------------------ *)

Lemma all_ids_perm l l' : l ≡ₚ l' -> all_ids l ≡ₚ all_ids l'.
Proof. intros Hp. apply Permutation_app; apply fmap_Permutation; [done|]. by apply omap_Permutation. Qed.

Lemma db_rep_perm l l' db pdb : l ≡ₚ l' -> db_rep l db pdb -> db_rep l' db pdb.
Proof.
  intros Hp (Hnd & -> & ->).
  assert (Hpp : pendings l ≡ₚ pendings l') by (by apply omap_Permutation).
  pose proof (all_ids_perm l l' Hp) as Hai.
  split; [by rewrite <- Hai|]. apply NoDup_app in Hnd as (Hn1 & _ & Hn2).
  split; apply list_to_map_proper; unfold node_index, pending_index;
    try (by rewrite <- list_fmap_compose); by apply fmap_Permutation.
Qed.

Lemma fst_node_index l : (node_index l).*1 = bn_id <$> l.
Proof. unfold node_index. by rewrite <- list_fmap_compose. Qed.
Lemma fst_pending_index l : (pending_index l).*1 = peerid <$> pendings l.
Proof. unfold pending_index. by rewrite <- list_fmap_compose. Qed.

Definition pending_list (n : bucknode_t) : list kad_addr_t :=
  match pending_node n with Some a => [a] | None => [] end.

Lemma pendings_cons n l : pendings (n :: l) = pending_list n ++ pendings l.
Proof. unfold pendings, pending_list. cbn. by destruct (pending_node n). Qed.

Lemma all_ids_cons n l : all_ids (n :: l) ≡ₚ bn_id n :: (peerid <$> pending_list n) ++ all_ids l.
Proof.
  unfold all_ids. rewrite fmap_cons, pendings_cons, fmap_app. simpl. constructor.
  rewrite !app_assoc. apply Permutation_app_tail, Permutation_app_comm.
Qed.

Definition add_pending (n : bucknode_t) (pdb : gmap kad_id kad_addr_t) : gmap kad_id kad_addr_t :=
  match pending_node n with Some a => <[peerid a := a]> pdb | None => pdb end.

Lemma db_rep_cons n l db pdb :
  db_rep (n :: l) db pdb <->
  exists db' pdb', NoDup (bn_id n :: (peerid <$> pending_list n) ++ all_ids l) /\
    db_rep l db' pdb' /\ db = <[bn_id n := n]> db' /\
    pdb = add_pending n pdb'.
Proof.
  unfold db_rep at 1. rewrite all_ids_cons.
  assert (Hpi : list_to_map (pending_index (n :: l)) = add_pending n (list_to_map (pending_index l))).
  { unfold pending_index, add_pending. rewrite pendings_cons. unfold pending_list. by destruct (pending_node n). }
  rewrite Hpi. split.
  - intros (Hnd & -> & ->). eexists _, _. split; [done|]. split; [|done]. split; [|done].
    apply NoDup_cons in Hnd as [_ Hnd]. by apply NoDup_app in Hnd as (_ & _ & ?).
  - intros (db' & pdb' & Hnd & (_ & -> & ->) & -> & ->). done.
Qed.

Section index.
Context {l : list bucknode_t} {db : gmap kad_id bucknode_t} {pdb : gmap kad_id kad_addr_t}.
Hypothesis Hrep : db_rep l db pdb.

Lemma db_lookup p n : db !! p = Some n <-> n ∈ l /\ bn_id n = p.
Proof using Hrep.
  destruct Hrep as (Hnd & -> & _). apply NoDup_app in Hnd as (Hnd & _ & _).
  rewrite <- elem_of_list_to_map by (by rewrite fst_node_index). unfold node_index.
  rewrite list_elem_of_fmap. split; [intros (n' & [= -> ->] & ?); done|intros [Hn <-]; by exists n].
Qed.

Lemma db_lookup_in p : is_Some (db !! p) <-> p ∈ bn_id <$> l.
Proof using Hrep.
  rewrite list_elem_of_fmap. split; [intros [n [Hn <-]%db_lookup]; eauto|].
  intros (n & -> & Hn). exists n. by apply db_lookup.
Qed.

Lemma pdb_lookup_in p : is_Some (pdb !! p) <-> p ∈ peerid <$> pendings l.
Proof using Hrep.
  destruct Hrep as (Hnd & _ & ->). apply NoDup_app in Hnd as (_ & _ & Hnd).
  rewrite list_elem_of_fmap. split.
  - intros [a Ha]. apply elem_of_list_to_map_2 in Ha. apply list_elem_of_fmap in Ha as (a' & [= -> ->] & ?). eauto.
  - intros (a & -> & Ha). exists a. apply elem_of_list_to_map_1; [by rewrite fst_pending_index|].
    apply list_elem_of_fmap. eauto.
Qed.

Lemma db_add a :
  peerid a ∉ all_ids l ->
  db_rep (Bucknode a None :: l) (<[peerid a := Bucknode a None]> db) pdb.
Proof using Hrep.
  intros Ha. apply db_rep_cons. exists db, pdb. split; [|done].
  apply NoDup_cons. split; [done|]. apply Hrep.
Qed.

Lemma db_fresh_node p : p ∉ all_ids l -> db !! p = None.
Proof using Hrep.
  intros Hp. apply eq_None_not_Some. rewrite db_lookup_in. intros Hin. apply Hp, elem_of_app. by left.
Qed.
Lemma db_fresh_pending p : p ∉ all_ids l -> pdb !! p = None.
Proof using Hrep.
  intros Hp. apply eq_None_not_Some. rewrite pdb_lookup_in. intros Hin. apply Hp, elem_of_app. by right.
Qed.
End index.

Lemma db_del n l db pdb :
  pending_node n = None -> db_rep (n :: l) db pdb -> db_rep l (delete (bn_id n) db) pdb.
Proof.
  intros Hp (db' & pdb' & Hnd & Hrep & -> & ->)%db_rep_cons. unfold add_pending. rewrite Hp.
  apply NoDup_cons in Hnd as [Hn _]. unfold pending_list in Hn. rewrite Hp in Hn.
  rewrite delete_insert_eq, delete_id; [done|]. by apply (db_fresh_node Hrep).
Qed.

(** Setting and clearing the pending node. *)
Lemma db_pend n a l db pdb :
  pending_node n = None -> peerid a ∉ all_ids (n :: l) -> db_rep (n :: l) db pdb ->
  db_rep (Bucknode (bn_addr n) (Some a) :: l)
    (<[bn_id n := Bucknode (bn_addr n) (Some a)]> db) (<[peerid a := a]> pdb).
Proof.
  intros Hp Ha (db' & pdb' & Hnd & Hrep & -> & ->)%db_rep_cons. apply db_rep_cons. exists db', pdb'.
  rewrite all_ids_cons in Ha. unfold pending_list, add_pending in *. rewrite Hp in *. simpl in *.
  apply not_elem_of_cons in Ha as [Hne Ha]. apply NoDup_cons in Hnd as [Hn Hnd].
  split; [|by rewrite insert_insert_eq]. apply NoDup_cons. split; [|by apply NoDup_cons].
  apply not_elem_of_cons. split; [by apply not_eq_sym|done].
Qed.

Lemma db_unpend n a l db pdb :
  pending_node n = Some a -> db_rep (n :: l) db pdb ->
  db_rep (reset_pending n :: l) (<[bn_id n := reset_pending n]> db) (delete (peerid a) pdb).
Proof.
  intros Hp (db' & pdb' & Hnd & Hrep & -> & ->)%db_rep_cons. apply db_rep_cons. exists db', pdb'.
  unfold pending_list, add_pending in *. rewrite Hp in *. simpl in *.
  apply NoDup_cons in Hnd as [Hn Hnd]. apply NoDup_cons in Hnd as [Ha Hnd].
  apply not_elem_of_cons in Hn as [_ Hn]. split; [by apply NoDup_cons|]. split; [done|].
  rewrite insert_insert_eq, delete_insert_eq, delete_id; [done|]. by apply (db_fresh_pending Hrep).
Qed.

(* ------------------------------------------------------------------ *)
(** * Lemmas: buckets *)
(* ------------------------------------------------------------------ *)

Lemma bucket_of_bound local width p nb :
  kad_id_ok local -> kad_id_ok p -> width_ok width nb -> (bucket_of local width p < nb)%nat.
Proof.
  intros Hl Hp [Hw Hnb]. unfold bucket_of.
  pose proof (id_value_bound _ _ (id_dist_ok _ _ Hl Hp)) as Hv. rewrite id_dist_value in Hv by done.
  set (d := Z.lxor (be_value local) (be_value p)) in *.
  assert (Hlog : Z.log2 d < kad_id_nbit).
  { destruct (decide (d = 0)) as [->|]; [done|]. apply Z.log2_lt_pow2; [lia|]. change kad_id_nbit with (8 * Z.of_nat KAD_ID_SIZE). apply Hv. }
  pose proof (Z.log2_nonneg d). assert (Z.log2 d / width < Z.of_nat nb).
  { apply Z.div_lt_upper_bound; lia. }
  pose proof (Z.div_pos (Z.log2 d) width). lia.
Qed.

Lemma get_bucket_idx_spec k p nb :
  kad_id_ok (local_peerid k) -> kad_id_ok p -> width_ok (kbucket_width k) nb ->
  get_bucket_idx p k = Ok (bucket_of (local_peerid k) (kbucket_width k) p).
Proof.
  intros Hl Hp [Hw _]. unfold get_bucket_idx.
  rewrite bit_get_highest_set_spec by (by apply id_dist_ok). cbn [mbind outcome_bind].
  unfold size_div. rewrite (proj2 (Z.eqb_neq (kbucket_width k) 0)) by lia. cbn [mbind outcome_bind].
  by rewrite id_dist_value.
Qed.

Lemma peerid_is_present_spec p lru :
  kad_id_ok p -> Forall kad_id_ok lru -> peerid_is_present p lru = bool_decide (p ∈ lru).
Proof.
  intros Hp. induction 1 as [|q lru Hq Hl IH]; cbn [peerid_is_present existsb]; [done|].
  fold (peerid_is_present p lru). rewrite IH, id_eq_spec by done.
  apply eq_true_iff_eq. rewrite orb_true_iff, !bool_decide_eq_true, elem_of_cons. split; intros [->|?]; auto.
Qed.

Lemma bucklist_find_spec p lru :
  kad_id_ok p -> Forall kad_id_ok lru ->
  bucklist_find p lru = if decide (p ∈ lru) then Some p else None.
Proof.
  intros Hp. induction 1 as [|q lru Hq Hl IH]; [done|]. cbn [bucklist_find List.find].
  fold (bucklist_find p lru). rewrite id_eq_spec, IH by done.
  case_bool_decide as E; [subst; by rewrite decide_True by left|].
  destruct (decide (p ∈ lru)); [by rewrite decide_True by (by right)|].
  rewrite decide_False; [done|]. rewrite elem_of_cons. intros [->|?]; auto.
Qed.

Lemma ids_deleted p b : bn_id <$> bucket_deleted p b = lru_remove p (bn_id <$> b).
Proof.
  unfold bucket_deleted, lru_remove. induction b as [|n b IH]; [done|].
  rewrite fmap_cons. destruct (decide (bn_id n = p)) as [E|E].
  - rewrite filter_cons_False by (intros Hc; apply Hc; exact E).
    rewrite filter_cons_False by (intros Hc; apply Hc; exact E). apply IH.
  - rewrite filter_cons_True by done. rewrite filter_cons_True by done. rewrite fmap_cons. by f_equal.
Qed.

Lemma deleted_notin p b : p ∉ bn_id <$> b -> bucket_deleted p b = b /\ filter (is_id p) b = [].
Proof.
  induction b as [|n b IH]; [done|]. rewrite fmap_cons, not_elem_of_cons. intros [Hne Hn].
  destruct (IH Hn) as [H1 H2]. unfold bucket_deleted in *.
  rewrite filter_cons_True by (by apply not_eq_sym). rewrite filter_cons_False by (by apply not_eq_sym).
  by rewrite H1, H2.
Qed.

Lemma filter_id p b :
  NoDup (bn_id <$> b) -> p ∈ bn_id <$> b ->
  exists n, n ∈ b /\ bn_id n = p /\ filter (is_id p) b = [n] /\ b ≡ₚ n :: bucket_deleted p b.
Proof.
  induction b as [|m b IH]; [by intros _ ?%elem_of_nil|].
  rewrite fmap_cons. intros [Hm Hnd]%NoDup_cons Hp.
  unfold bucket_deleted in *. destruct (decide (bn_id m = p)) as [E|E].
  - subst p. destruct (deleted_notin _ b Hm) as [H1 H2]. unfold bucket_deleted in H1.
    rewrite filter_cons_True by done. rewrite filter_cons_False by (intros Hc; by apply Hc). rewrite H1, H2.
    exists m. split; [by left|]. done.
  - apply elem_of_cons in Hp as [Hp|Hp]; [by subst p|]. destruct (IH Hnd Hp) as (n & Hn & Hid & Hf & Hperm).
    exists n. rewrite filter_cons_False, filter_cons_True by done. split; [by right|]. split; [done|]. split; [done|].
    rewrite Hperm at 1. constructor.
Qed.

Lemma concat_update (S : list (list bucknode_t)) i b :
  S !! i = Some b ->
  exists rest, concat S ≡ₚ b ++ rest /\ forall b', concat (<[i := b']> S) ≡ₚ b' ++ rest.
Proof.
  intros Hb. exists (concat (take i S) ++ concat (drop (Datatypes.S i) S)).
  assert (Hall : forall b', concat (<[i := b']> S) ≡ₚ b' ++ concat (take i S) ++ concat (drop (Datatypes.S i) S)).
  { intros b'. rewrite insert_take_drop by (by eapply lookup_lt_Some). rewrite concat_app. simpl.
    rewrite !app_assoc. apply Permutation_app_tail, Permutation_app_comm. }
  split; [|done]. rewrite <- Hall. by rewrite list_insert_id.
Qed.

(** Two states that only differ by the nodes, the flags and the output. *)
Definition same_base (k k' : kbucket_t) : Prop :=
  local_peerid k' = local_peerid k /\ kbucket_width k' = kbucket_width k /\
  kbucket_height k' = kbucket_height k /\ peerid_todelete_db k' = peerid_todelete_db k.

Lemma rep_update S k k' i b b' :
  kb_rep S k -> S !! i = Some b -> same_base k k' ->
  bucknode_lru <$> bucklist_db k' = <[i := bn_id <$> b']> (bucknode_lru <$> bucklist_db k) ->
  (forall rest, concat S ≡ₚ b ++ rest -> db_rep (b ++ rest) (bucknode_db k) (pending_node_db k) ->
     db_rep (b' ++ rest) (bucknode_db k') (pending_node_db k')) ->
  bucket_ok (local_peerid k) (kbucket_width k) (kbucket_height k) i b' ->
  kb_rep (<[i := b']> S) k'.
Proof.
  intros [Hl Hw Hlru Hdb Hbs Htd] Hb (El & Ew & Eh & Et) Hlru' Hdb' Hok.
  destruct (concat_update S i b Hb) as (rest & Hperm & Hperm'). split.
  - by rewrite El.
  - by rewrite Ew, length_insert.
  - by rewrite Hlru', Hlru, list_fmap_insert.
  - eapply db_rep_perm; [symmetry; apply Hperm'|]. apply Hdb'; [done|]. by eapply db_rep_perm.
  - intros j bj Hj. rewrite El, Ew, Eh. destruct (decide (i = j)) as [->|Hne].
    + rewrite list_lookup_insert_eq in Hj by (by eapply lookup_lt_Some). by injection Hj as <-.
    + rewrite list_lookup_insert_ne in Hj by done. by apply Hbs.
  - by rewrite Et.
Qed.

Lemma lru_set_lru i lru k :
  (i < length (bucklist_db k))%nat ->
  bucknode_lru <$> bucklist_db (set_lru i lru k) = <[i := lru]> (bucknode_lru <$> bucklist_db k).
Proof.
  intros Hi. unfold set_lru, set_bucklist_db; cbn [bucklist_db].
  apply list_eq. intros j. rewrite list_lookup_fmap. destruct (decide (i = j)) as [->|Hne].
  - rewrite list_lookup_alter_eq, list_lookup_insert_eq by (by rewrite length_fmap).
    destruct (lookup_lt_is_Some_2 (bucklist_db k) j Hi) as [x Hx]. by rewrite Hx.
  - by rewrite list_lookup_alter_ne, list_lookup_insert_ne, list_lookup_fmap.
Qed.

Lemma lru_set_refreshing i r k :
  bucknode_lru <$> bucklist_db (set_refreshing i r k) = bucknode_lru <$> bucklist_db k.
Proof.
  unfold set_refreshing, set_bucklist_db; cbn [bucklist_db]. apply list_eq. intros j.
  rewrite !list_lookup_fmap. destruct (decide (i = j)) as [->|Hne].
  - rewrite list_lookup_alter_eq. by destruct (bucklist_db k !! j).
  - by rewrite list_lookup_alter_ne.
Qed.

(** What the operations on one bucket look at. *)
Definition lru_view (k : kbucket_t) (nb i : nat) (lru : list kad_id) : Prop :=
  kad_id_ok (local_peerid k) /\ width_ok (kbucket_width k) nb /\
  (bucknode_lru <$> bucklist_db k) !! i = Some lru /\ Forall kad_id_ok lru.

Lemma lru_view_at k nb i lru :
  lru_view k nb i lru ->
  exists b, bucklist_at i k = Ok b /\ bucknode_lru b = lru /\ (i < length (bucklist_db k))%nat.
Proof.
  intros (_ & _ & Hi & _). rewrite list_lookup_fmap in Hi. unfold bucklist_at.
  destruct (bucklist_db k !! i) as [b|] eqn:E; [|done]. injection Hi as <-. exists b.
  split; [done|]. split; [done|]. by eapply lookup_lt_Some.
Qed.

Lemma lru_view_lt k nb i lru : lru_view k nb i lru -> (i < length (bucklist_db k))%nat.
Proof. intros Hv. by destruct (lru_view_at _ _ _ _ Hv) as (b & _ & _ & ?). Qed.

Section one_bucket.
Context (k : kbucket_t) (nb i : nat) (lru : list kad_id) (p : kad_id).
Hypothesis Hv : lru_view k nb i lru.
Hypothesis Hp : kad_id_ok p.
Hypothesis Hi : bucket_of (local_peerid k) (kbucket_width k) p = i.

Lemma view_bucket_idx : get_bucket_idx p k = Ok i.
Proof using Hv Hp Hi.
  destruct Hv as (Hl & Hw & _). rewrite (get_bucket_idx_spec k p nb) by done. by rewrite Hi.
Qed.

Lemma bucklist_insert_spec :
  p ∉ lru -> (length lru < kbucket_height k)%nat ->
  bucklist_insert i p k = Ok (set_lru i (lru ++ [p]) k).
Proof using Hv Hp Hi.
  intros Hn Hlen. destruct (lru_view_at _ _ _ _ Hv) as (b & Hb & Hlru & _). unfold bucklist_insert.
  rewrite Hb. cbn [mbind outcome_bind]. rewrite Hlru, peerid_is_present_spec by (done || apply Hv).
  rewrite bool_decide_eq_false_2 by done. cbn [negb dbg_assert].
  rewrite view_bucket_idx. cbn [mbind outcome_bind]. rewrite bool_decide_eq_true_2 by done. cbn [dbg_assert].
  rewrite bool_decide_eq_true_2 by (rewrite length_app; simpl; lia). done.
Qed.

Lemma bucklist_update_spec :
  p ∈ lru -> (length lru <= kbucket_height k)%nat ->
  bucklist_update i p k = Ok (set_lru i (lru_remove p lru ++ [p]) k).
Proof using Hv Hp Hi.
  intros Hn Hlen. destruct (lru_view_at _ _ _ _ Hv) as (b & Hb & Hlru & _). unfold bucklist_update.
  rewrite Hb. cbn [mbind outcome_bind]. rewrite Hlru, peerid_is_present_spec by (done || apply Hv).
  rewrite bool_decide_eq_true_2 by done. cbn [dbg_assert].
  rewrite bool_decide_eq_true_2 by done. cbn [dbg_assert].
  rewrite view_bucket_idx. cbn [mbind outcome_bind]. by rewrite bool_decide_eq_true_2.
Qed.

Lemma bucklist_remove_spec :
  p ∈ lru -> bucklist_remove i p k = Ok (set_lru i (lru_remove p lru) k).
Proof using Hv Hp Hi.
  intros Hn. destruct (lru_view_at _ _ _ _ Hv) as (b & Hb & Hlru & _). unfold bucklist_remove.
  rewrite Hb. cbn [mbind outcome_bind]. rewrite Hlru, peerid_is_present_spec by (done || apply Hv).
  rewrite bool_decide_eq_true_2 by done. cbn [dbg_assert].
  rewrite view_bucket_idx. cbn [mbind outcome_bind]. by rewrite bool_decide_eq_true_2.
Qed.
End one_bucket.

(** The bucket of an identifier, in a represented state. *)
Record in_bucket (S : list (list bucknode_t)) (k : kbucket_t) (p : kad_id) (i : nat) (b : list bucknode_t) : Prop := {
  ib_of : bucket_of (local_peerid k) (kbucket_width k) p = i;
  ib_at : S !! i = Some b;
  ib_view : lru_view k (length S) i (bn_id <$> b);
  ib_nodup : NoDup (all_ids b);
  ib_ok : bucket_ok (local_peerid k) (kbucket_width k) (kbucket_height k) i b;
  ib_node : p ∈ bn_id <$> concat S <-> p ∈ bn_id <$> b;
  ib_pending : p ∈ peerid <$> pendings (concat S) <-> p ∈ peerid <$> pendings b;
  ib_sub : forall n, n ∈ b -> bucknode_db k !! bn_id n = Some n
}.

Lemma concat_elem (S : list (list bucknode_t)) n : n ∈ concat S -> exists j b, S !! j = Some b /\ n ∈ b.
Proof.
  intros Hn. apply list_elem_of_In, in_concat in Hn as (b & Hb & Hn).
  apply list_elem_of_In, list_elem_of_lookup in Hb as [j Hj]. exists j, b. split; [done|]. by apply list_elem_of_In.
Qed.

Lemma elem_concat (S : list (list bucknode_t)) j b n : S !! j = Some b -> n ∈ b -> n ∈ concat S.
Proof.
  intros Hb Hn. apply list_elem_of_In, in_concat. exists b.
  split; [apply list_elem_of_In; by eapply list_elem_of_lookup_2|by apply list_elem_of_In].
Qed.

Lemma pendings_elem a l : a ∈ pendings l <-> exists n, n ∈ l /\ pending_node n = Some a.
Proof. unfold pendings. by rewrite list_elem_of_omap. Qed.

Lemma all_ids_app l1 l2 : all_ids (l1 ++ l2) ≡ₚ all_ids l1 ++ all_ids l2.
Proof.
  unfold all_ids, pendings. rewrite omap_app, !fmap_app, <- !app_assoc. apply Permutation_app_head.
  rewrite !app_assoc. apply Permutation_app_tail, Permutation_app_comm.
Qed.

Lemma rep_bucket S k p :
  kb_rep S k -> kad_id_ok p -> exists b, in_bucket S k p (bucket_of (local_peerid k) (kbucket_width k) p) b.
Proof.
  intros [Hl Hw Hlru Hdb Hbs _] Hp. set (i := bucket_of _ _ p).
  destruct (lookup_lt_is_Some_2 S i) as [b Hb]; [by apply bucket_of_bound|]. exists b.
  destruct (Hbs i b Hb) as [Hlen Hok]. destruct (concat_update S i b Hb) as (rest & Hperm & _). split; try done.
  - split; [done|]. split; [done|]. rewrite Hlru. split; [by rewrite list_lookup_fmap, Hb|].
    apply Forall_fmap. eapply Forall_impl; [exact Hok|]. intros n [[? _] _]. done.
  - destruct (db_rep_perm _ _ _ _ Hperm Hdb) as [Hnd _]. rewrite all_ids_app in Hnd.
    by apply NoDup_app in Hnd as [? _].
  - rewrite !list_elem_of_fmap. split; intros (n & -> & Hn); exists n; (split; [done|]);
      [|by eapply elem_concat]. apply concat_elem in Hn as (j & b' & Hj & Hn). destruct (Hbs j b' Hj) as [_ Hok'].
    destruct (proj1 (Forall_forall _ _) Hok' n Hn) as [[_ Hof] _]. fold i in Hof. subst j. congruence.
  - rewrite !list_elem_of_fmap. split; intros (a & -> & Ha); exists a; (split; [done|]);
      apply pendings_elem in Ha as (n & Hn & Hpn);
      [|apply pendings_elem; exists n; split; [by eapply elem_concat|done]]. apply concat_elem in Hn as (j & b' & Hj & Hn).
    destruct (Hbs j b' Hj) as [_ Hok']. destruct (proj1 (Forall_forall _ _) Hok' n Hn) as [_ Hof].
    rewrite Hpn in Hof. destruct Hof as [_ Hof]. fold i in Hof. subst j. apply pendings_elem. exists n. split; [|done]. congruence.
  - intros n Hn. apply (db_lookup Hdb). split; [by eapply elem_concat|done].
Qed.

Lemma first_notpinging_spec k a b :
  (forall n, n ∈ b -> bucknode_db k !! bn_id n = Some n) ->
  (get_first_notpinging (bn_id <$> b) k = Ok None /\ ping_first a b = b) \/
  exists b1 n b2, b = b1 ++ n :: b2 /\ pending_node n = None /\
    get_first_notpinging (bn_id <$> b) k = Ok (Some (bn_id n)) /\
    ping_first a b = b1 ++ Bucknode (bn_addr n) (Some a) :: b2.
Proof.
  induction b as [|n b IH]; intros Hdb; [by left|].
  rewrite fmap_cons. cbn [get_first_notpinging ping_first]. unfold bucknode_at. rewrite Hdb by left.
  cbn [mbind outcome_bind]. destruct (pending_node n) as [a'|] eqn:Hn.
  - replace (ping_in_progress n) with true by (unfold ping_in_progress; by rewrite Hn). cbn [negb].
    destruct IH as [[H1 H2]|(b1 & m & b2 & -> & Hm & H1 & H2)]; [intros; apply Hdb; by right|left|right].
    + by rewrite H1, H2.
    + exists (n :: b1), m, b2. split; [done|]. split; [done|]. split; [done|]. by rewrite H2.
  - replace (ping_in_progress n) with false by (unfold ping_in_progress; by rewrite Hn). cbn [negb].
    right. by exists [], n, b.
Qed.

(* ------------------------------------------------------------------ *)
(** * Lemmas: the operations against the specification *)
(* ------------------------------------------------------------------ *)

Lemma alter_insert {A} (f : A -> A) i (l : list A) b : l !! i = Some b -> alter f i l = <[i := f b]> l.
Proof.
  intros Hb. apply list_eq. intros j. destruct (decide (i = j)) as [->|Hne].
  - rewrite list_lookup_alter_eq, list_lookup_insert_eq by (by eapply lookup_lt_Some). by rewrite Hb.
  - by rewrite list_lookup_alter_ne, list_lookup_insert_ne.
Qed.

Lemma bucket_ok_perm local w h i b b' : b ≡ₚ b' -> bucket_ok local w h i b -> bucket_ok local w h i b'.
Proof. intros Hp [Hlen Hok]. split; by rewrite <- Hp. Qed.

Lemma all_ids_notin p b : p ∉ bn_id <$> b -> p ∉ peerid <$> pendings b -> p ∉ all_ids b.
Proof. intros H1 H2. unfold all_ids. rewrite elem_of_app. by intros []. Qed.

(** The state after a change of the nodes of one bucket only. *)
Definition bucket_changed (S : list (list bucknode_t)) (k : kbucket_t) (i : nat) (b' : list bucknode_t)
    (k' : kbucket_t) : Prop :=
  kb_rep (<[i := b']> S) k' /\ same_base k k'.

Section refine.
Context (S : list (list bucknode_t)) (k : kbucket_t) (p : kad_id) (i : nat) (b : list bucknode_t).
Hypothesis Hrep : kb_rep S k.
Hypothesis Hp : kad_id_ok p.
Hypothesis Hb : in_bucket S k p i b.

Lemma fresh_in_all :
  p ∉ bn_id <$> b -> p ∉ peerid <$> pendings b -> p ∉ all_ids (concat S).
Proof using Hb. intros H1 H2. apply all_ids_notin; by rewrite ?(ib_node _ _ _ _ _ Hb), ?(ib_pending _ _ _ _ _ Hb). Qed.

Lemma update_refines :
  p ∈ bn_id <$> b -> exists k', bucklist_update i p k = Ok k' /\
    bucket_changed S k i (bucket_deleted p b ++ filter (is_id p) b) k'.
Proof using Hrep Hp Hb.
  intros Hin. pose proof Hb as [Hof Hat Hview Hnd Hok _ _ _]. destruct Hok as [Hlen Hok].
  assert (Hnd' : NoDup (bn_id <$> b)) by (by apply NoDup_app in Hnd as [? _]).
  destruct (filter_id p b Hnd' Hin) as (n & Hn & Hid & Hf & Hperm).
  rewrite (bucklist_update_spec _ _ _ _ _ Hview Hp Hof Hin) by (by rewrite length_fmap).
  eexists. split; [done|]. split; [|done].
  assert (Hperm' : b ≡ₚ bucket_deleted p b ++ filter (is_id p) b).
  { rewrite Hperm at 1. rewrite Hf. apply Permutation_cons_append. }
  eapply rep_update; [exact Hrep|exact Hat|done|..].
  - rewrite lru_set_lru by (by eapply lru_view_lt). f_equal.
    rewrite fmap_app, ids_deleted, Hf. simpl. by rewrite Hid.
  - intros rest _. cbn. by apply db_rep_perm, Permutation_app_tail.
  - by eapply bucket_ok_perm.
Qed.

Lemma add_refines a :
  p = peerid a -> p ∉ bn_id <$> b -> p ∉ peerid <$> pendings b -> (length b < kbucket_height k)%nat ->
  exists k1 k', bucknode_ctor a k = Ok k1 /\ bucklist_insert i p k1 = Ok k' /\
    bucket_changed S k i (b ++ [Bucknode a None]) k'.
Proof using Hrep Hp Hb.
  intros Hpa Hn1 Hn2 Hlen. pose proof Hb as [Hof Hat Hview Hnd [Hle Hok] _ _ _].
  pose proof (fresh_in_all Hn1 Hn2) as Hfresh. rewrite Hpa in *. pose proof (rep_db _ _ Hrep) as Hdb.
  unfold bucknode_ctor. rewrite bool_decide_eq_true_2 by (by apply (db_fresh_node Hdb)). cbn [dbg_assert].
  eexists _, _. split; [done|].
  rewrite (bucklist_insert_spec _ (length S) i (bn_id <$> b)) by (done || (by rewrite length_fmap)).
  split; [done|]. split; [|done]. eapply rep_update; [exact Hrep|exact Hat|done|..].
  - rewrite lru_set_lru by (by eapply lru_view_lt). by rewrite fmap_app.
  - intros rest Hperm Hr. cbn. apply (db_rep_perm (Bucknode a None :: b ++ rest)).
    { rewrite <- app_assoc. apply Permutation_middle. }
    apply (db_add Hr). by rewrite <- (all_ids_perm _ _ Hperm).
  - split; [rewrite length_app; simpl; lia|]. apply Forall_app. split; [done|]. apply Forall_singleton. by split.
Qed.

(** [n], of the bucket [b], starts to be pinged for [p]. *)
Lemma ping_refines a b1 n b2 :
  p = peerid a -> b = b1 ++ n :: b2 -> pending_node n = None ->
  p ∉ bn_id <$> b -> p ∉ peerid <$> pendings b ->
  exists k', ping_start (bn_id n) a true k = Ok k' /\
    bucket_changed S k i (b1 ++ Bucknode (bn_addr n) (Some a) :: b2) k'.
Proof using Hrep Hp Hb.
  intros Hpa Hb12 Hpn Hn1 Hn2. pose proof (fresh_in_all Hn1 Hn2) as Hfresh.
  pose proof Hb as [Hof Hat Hview Hnd [Hle Hok] _ _ Hsub]. pose proof (rep_db _ _ Hrep) as Hdb.
  assert (Hn : n ∈ b) by (rewrite Hb12; apply elem_of_app; right; by left).
  unfold ping_start, bucknode_at. rewrite (Hsub n Hn). cbn [mbind outcome_bind].
  unfold ping_in_progress. rewrite Hpn. cbn [negb dbg_assert].
  rewrite bool_decide_eq_true_2 by (cbn; rewrite <- Hpa; by apply (db_fresh_pending Hdb)).
  cbn [dbg_assert]. eexists. split; [done|]. split; [|done].
  eapply rep_update; [exact Hrep|exact Hat|done|..].
  - cbn. rewrite (rep_lru _ _ Hrep). rewrite list_insert_id; [done|]. rewrite list_lookup_fmap, Hat, Hb12.
    simpl. by rewrite !fmap_app.
  - intros rest Hperm Hr. cbn. apply (db_rep_perm (Bucknode (bn_addr n) (Some a) :: (b1 ++ b2) ++ rest)).
    { rewrite <- !app_assoc. apply Permutation_middle. }
    assert (Hm : concat S ≡ₚ n :: (b1 ++ b2) ++ rest).
    { rewrite Hperm, Hb12, <- !app_assoc. symmetry. apply Permutation_middle. }
    apply db_pend; [done| |by apply (db_rep_perm _ _ _ _ Hm)]. rewrite <- Hpa. by rewrite <- (all_ids_perm _ _ Hm).
  - rewrite Hb12 in Hle, Hok. split; [rewrite length_app in *; simpl in *; lia|].
    apply Forall_app in Hok as [H1 H2]. apply Forall_app. split; [done|].
    apply Forall_cons in H2 as [[H2 _] H3]. constructor; [|done]. split; [done|]. simpl. by rewrite <- Hpa.
Qed.

Lemma delete_refines n :
  n ∈ b -> bn_id n = p ->
  exists k1 k', bucklist_remove i p k = Ok k1 /\ bucknode_dtor p k1 = Ok k' /\
    bucket_changed S k i (bucket_deleted p b) k'.
Proof using Hrep Hp Hb.
  intros Hn Hid. pose proof Hb as [Hof Hat Hview Hnd [Hle Hok] _ _ Hsub].
  assert (Hin : p ∈ bn_id <$> b) by (apply list_elem_of_fmap; eauto).
  assert (Hnd' : NoDup (bn_id <$> b)) by (by apply NoDup_app in Hnd as [? _]).
  destruct (filter_id p b Hnd' Hin) as (n' & Hn' & Hid' & Hf & Hperm).
  assert (n' = n) as ->. { pose proof (Hsub _ Hn) as H1. pose proof (Hsub _ Hn') as H2. rewrite Hid in H1. rewrite Hid' in H2. congruence. }
  rewrite (bucklist_remove_spec _ _ _ _ _ Hview Hp Hof Hin). eexists _. 
  pose proof (Hsub n Hn) as Hlook. rewrite Hid in Hlook.
  set (k1 := set_lru i (lru_remove p (bn_id <$> b)) k).
  assert (Hd : exists k', bucknode_dtor p k1 = Ok k' /\ same_base k k' /\ bucklist_db k' = bucklist_db k1 /\
    forall l, db_rep (n :: l) (bucknode_db k) (pending_node_db k) -> db_rep l (bucknode_db k') (pending_node_db k')).
  { unfold bucknode_dtor, bucknode_at, ping_in_progress. cbn [bucknode_db k1 set_lru set_bucklist_db].
    rewrite Hlook. cbn [mbind outcome_bind]. destruct (pending_node n) as [a|] eqn:Hpn.
    - unfold ping_stop, bucknode_at. cbn [bucknode_db k1 set_lru set_bucklist_db]. rewrite Hlook. cbn [mbind outcome_bind].
      rewrite Hpn. eexists. split; [done|]. split; [done|]. split; [done|]. intros l Hl. cbn.
      rewrite <- Hid. rewrite Hid at 1. rewrite <- Hid.
      apply (db_del (reset_pending n)); [done|]. by apply db_unpend.
    - eexists. split; [done|]. split; [done|]. split; [done|]. intros l Hl. cbn. by apply db_del. }
  destruct Hd as (k' & Hd & Hsb & Hbl & Hdb'). exists k'. split; [done|]. split; [done|]. split; [|done].
  eapply rep_update; [exact Hrep|exact Hat|done|..].
  - rewrite Hbl. unfold k1. rewrite lru_set_lru by (by eapply lru_view_lt). by rewrite ids_deleted.
  - intros rest _ Hr. apply Hdb'. eapply db_rep_perm; [|exact Hr]. rewrite Hperm at 1. done.
  - assert (Hsl : Forall (node_ok (local_peerid k) (kbucket_width k) i) (n :: bucket_deleted p b)) by (by rewrite <- Hperm).
    split; [|by inversion Hsl]. pose proof (Permutation_length Hperm). simpl in *. lia.
Qed.
End refine.

Lemma in_bucket_at S k p i b :
  kb_rep S k -> kad_id_ok p -> bucket_of (local_peerid k) (kbucket_width k) p = i -> S !! i = Some b ->
  in_bucket S k p i b.
Proof.
  intros Hrep Hp Hof Hb. destruct (rep_bucket S k p Hrep Hp) as (b' & Hin). rewrite Hof in Hin.
  pose proof (ib_at _ _ _ _ _ Hin) as Hb'. rewrite Hb in Hb'. by injection Hb' as ->.
Qed.

(** A pinged node of a bucket, with its bucket's own list. *)
Lemma pinged_in_bucket S k p n a :
  kb_rep S k -> bucknode_db k !! p = Some n -> pending_node n = Some a ->
  exists b, in_bucket S k p (bucket_of (local_peerid k) (kbucket_width k) p) b /\ n ∈ b /\ bn_id n = p /\
    kad_id_ok p /\ kad_id_ok (peerid a) /\
    bucket_of (local_peerid k) (kbucket_width k) (peerid a) = bucket_of (local_peerid k) (kbucket_width k) p.
Proof.
  intros Hrep Hn Ha. apply (db_lookup (rep_db _ _ Hrep)) in Hn as [Hn Hid].
  apply concat_elem in Hn as (j & b & Hj & Hn). destruct (rep_buckets _ _ Hrep j b Hj) as [_ Hok].
  destruct (proj1 (Forall_forall _ _) Hok n Hn) as [[Hp Hof] Hpa]. rewrite Ha in Hpa. destruct Hpa as [Hpa Hofa].
  rewrite Hid in *. exists b. rewrite Hof, Hofa. split; [by apply in_bucket_at|]. done.
Qed.

Lemma unping_refines S k p i b n a :
  kb_rep S k -> in_bucket S k p i b -> n ∈ b -> bn_id n = p -> pending_node n = Some a ->
  forall b1 b2, b = b1 ++ n :: b2 ->
  exists k', ping_stop p k = Ok k' /\ bucket_changed S k i (b1 ++ reset_pending n :: b2) k'.
Proof.
  intros Hrep Hb Hn Hid Ha b1 b2 Hb12. pose proof Hb as [Hof Hat Hview Hnd [Hle Hok] _ _ Hsub].
  pose proof (Hsub n Hn) as Hlook. rewrite Hid in Hlook.
  unfold ping_stop, bucknode_at. rewrite Hlook. cbn [mbind outcome_bind]. rewrite Ha.
  eexists. split; [done|]. split; [|done]. eapply rep_update; [exact Hrep|exact Hat|done|..].
  - cbn. rewrite (rep_lru _ _ Hrep). rewrite list_insert_id; [done|]. rewrite list_lookup_fmap, Hat, Hb12.
    simpl. by rewrite !fmap_app.
  - intros rest _ Hr. cbn. apply (db_rep_perm (reset_pending n :: (b1 ++ b2) ++ rest)).
    { rewrite <- !app_assoc. apply Permutation_middle. }
    rewrite <- Hid. apply db_unpend; [done|]. eapply db_rep_perm; [|exact Hr].
    rewrite Hb12, <- !app_assoc. symmetry. apply Permutation_middle.
  - rewrite Hb12 in Hle, Hok. split; [rewrite length_app in *; simpl in *; lia|].
    apply Forall_app in Hok as [H1 H2]. apply Forall_app. split; [done|].
    apply Forall_cons in H2 as [[H2 _] H3]. constructor; [|done]. by split.
Qed.

Lemma answered_refines S k p n a :
  kb_rep S k -> bucknode_db k !! p = Some n -> pending_node n = Some a ->
  exists b k', in_bucket S k p (bucket_of (local_peerid k) (kbucket_width k) p) b /\
    neoip_kad_ping_rpc_cb p PingCompleted k = Ok k' /\
    bucket_changed S k (bucket_of (local_peerid k) (kbucket_width k) p) (bucket_answered p b) k'.
Proof.
  intros Hrep Hlook Ha. destruct (pinged_in_bucket S k p n a Hrep Hlook Ha) as (b & Hb & Hn & Hid & Hp & _).
  set (i := bucket_of _ _ p) in *. exists b. unfold neoip_kad_ping_rpc_cb, bucknode_at. rewrite Hlook. cbn [mbind outcome_bind].
  rewrite Hid. rewrite (view_bucket_idx k (length S) i (bn_id <$> b) p) by (done || apply Hb). cbn [mbind outcome_bind].
  assert (Hin : p ∈ bn_id <$> b) by (apply list_elem_of_fmap; eauto).
  destruct (update_refines S k p i b Hrep Hp Hb Hin) as (k1 & -> & Hrep1 & Hsb). cbn [mbind outcome_bind].
  pose proof (ib_nodup _ _ _ _ _ Hb) as Hnd. apply NoDup_app in Hnd as [Hnd _].
  destruct (filter_id p b Hnd Hin) as (n' & Hn' & Hid' & Hf & _).
  assert (n' = n) as ->.
  { pose proof (ib_sub _ _ _ _ _ Hb n' Hn') as H1. rewrite Hid' in H1. congruence. }
  unfold bucket_answered. rewrite Hf in *. destruct Hsb as (El & Ew & Eh & Et).
  assert (Hb1 : in_bucket (<[i := bucket_deleted p b ++ [n]]> S) k1 p i (bucket_deleted p b ++ [n])).
  { apply in_bucket_at; [done|done|by rewrite El, Ew|]. apply list_lookup_insert_eq.
    eapply lookup_lt_Some, Hb. }
  destruct (unping_refines _ k1 p i _ n a Hrep1 Hb1 ltac:(apply elem_of_app; right; by left) Hid Ha
              (bucket_deleted p b) [] eq_refl) as (k2 & Hk2 & Hrep2 & (El2 & Ew2 & Eh2 & Et2)).
  exists k2. split; [done|]. split; [done|]. split; [by rewrite list_insert_insert_eq in Hrep2|].
  unfold same_base. by rewrite El2, Ew2, Eh2, Et2.
Qed.

(** The pinged node [n] is replaced by its pending one. *)
Lemma evict_db n a l db pdb :
  pending_node n = Some a -> db_rep (n :: l) db pdb ->
  db !! peerid a = None /\ bn_id n <> peerid a /\ (peerid a ∉ bn_id <$> l) /\
  db_rep (Bucknode a None :: l)
    (delete (bn_id n) (<[bn_id n := reset_pending n]> (<[peerid a := Bucknode a None]> db)))
    (delete (peerid a) pdb).
Proof.
  intros Ha Hdb. pose proof (proj1 Hdb) as Hnd. rewrite all_ids_cons in Hnd. unfold pending_list in Hnd.
  rewrite Ha in Hnd. simpl in Hnd. apply NoDup_cons in Hnd as [Hn1 Hnd]. apply NoDup_cons in Hnd as [Hn2 Hnd].
  apply not_elem_of_cons in Hn1 as [Hne Hn1].
  assert (Hn3 : peerid a ∉ bn_id <$> l) by (intros Hx; apply Hn2, elem_of_app; by left).
  split_and!; try done.
  - destruct Hdb as (_ & -> & _). cbn. rewrite lookup_insert_ne by done.
    apply not_elem_of_list_to_map_1. by rewrite fst_node_index.
  - rewrite insert_insert_ne by done. rewrite delete_insert_ne by done.
    eapply db_add; [|done]. apply (db_del (reset_pending n)); [done|]. by apply db_unpend.
Qed.

(** The callback of a ping that failed, up to the deletion of the old node. *)
Lemma evict_lists S k p i b n a :
  in_bucket S k p i b -> kad_id_ok p -> n ∈ b -> bn_id n = p -> pending_node n = Some a ->
  kad_id_ok (peerid a) -> bucket_of (local_peerid k) (kbucket_width k) (peerid a) = i ->
  bucknode_db k !! peerid a = None -> peerid a ∉ bn_id <$> bucket_deleted p b -> p <> peerid a ->
  exists k', neoip_kad_ping_rpc_cb p PingFatal k = Ok k' /\ same_base k k' /\
    bucknode_lru <$> bucklist_db k' =
      <[i := bn_id <$> (bucket_deleted p b ++ [Bucknode a None])]> (bucknode_lru <$> bucklist_db k) /\
    bucknode_db k' = delete p (<[p := reset_pending n]> (<[peerid a := Bucknode a None]> (bucknode_db k))) /\
    pending_node_db k' = delete (peerid a) (pending_node_db k).
Proof.
  intros [Hof Hat Hview Hnd [Hle Hok] _ _ Hsub] Hp Hn Hid Ha Hpa Hofa Hnone Hfresh Hne.
  pose proof (Hsub n Hn) as Hlook. rewrite Hid in Hlook.
  assert (Hin : p ∈ bn_id <$> b) by (apply list_elem_of_fmap; eauto).
  unfold neoip_kad_ping_rpc_cb, bucknode_at. rewrite Hlook. cbn [mbind outcome_bind]. rewrite Ha.
  unfold bucknode_ctor. cbn [emit bucknode_db]. rewrite bool_decide_eq_true_2 by done. cbn [dbg_assert mbind outcome_bind].
  match goal with |- context [get_bucket_idx (bn_id n) ?x] => set (k1 := x) end. rewrite Hid.
  assert (Hview1 : lru_view k1 (length S) i (bn_id <$> b)) by exact Hview.
  rewrite (view_bucket_idx k1 _ i _ p Hview1 Hp Hof). cbn [mbind outcome_bind].
  rewrite (bucklist_remove_spec k1 _ i _ p Hview1 Hp Hof Hin), <- ids_deleted. cbn [mbind outcome_bind].
  set (k2 := set_lru i (bn_id <$> bucket_deleted p b) k1).
  pose proof (lru_view_lt _ _ _ _ Hview) as Hlt.
  assert (Hview2 : lru_view k2 (length S) i (bn_id <$> bucket_deleted p b)).
  { destruct Hview as (Hl & Hw & _ & Hids). split; [done|]. split; [done|]. split.
    - unfold k2. rewrite lru_set_lru by done. apply list_lookup_insert_eq. by rewrite length_fmap.
    - rewrite ids_deleted. apply Forall_forall. intros q Hq.
      apply list_elem_of_filter in Hq as [_ Hq]. by eapply Forall_forall in Hids. }
  assert (Hlen : (length (bucket_deleted p b) < kbucket_height k)%nat).
  { apply NoDup_app in Hnd as [Hnd _]. destruct (filter_id p b Hnd Hin) as (n' & _ & _ & _ & Hperm).
    pose proof (Permutation_length Hperm). simpl in *. lia. }
  rewrite (bucklist_insert_spec k2 _ i _ (peerid a) Hview2 Hpa Hofa Hfresh) by (by rewrite length_fmap).
  cbn [mbind outcome_bind]. set (k3 := set_lru i _ k2).
  unfold bucknode_dtor, bucknode_at. change (bucknode_db k3) with (<[peerid a := Bucknode a None]> (bucknode_db k)).
  rewrite lookup_insert_ne by (by apply not_eq_sym). rewrite Hlook. cbn [mbind outcome_bind].
  unfold ping_in_progress. rewrite Ha. unfold ping_stop, bucknode_at.
  change (bucknode_db k3) with (<[peerid a := Bucknode a None]> (bucknode_db k)).
  rewrite lookup_insert_ne by (by apply not_eq_sym). rewrite Hlook. cbn [mbind outcome_bind]. rewrite Ha.
  eexists. split; [done|]. split; [done|]. split; [|by rewrite Hid].
  change (bucknode_lru <$> bucklist_db k3 = <[i := bn_id <$> (bucket_deleted p b ++ [Bucknode a None])]> (bucknode_lru <$> bucklist_db k)).
  unfold k3. rewrite lru_set_lru by (by eapply lru_view_lt). unfold k2. rewrite lru_set_lru by done.
  by rewrite list_insert_insert_eq, fmap_app.
Qed.

Lemma evicted_refines S k p n a :
  kb_rep S k -> bucknode_db k !! p = Some n -> pending_node n = Some a ->
  exists b k', in_bucket S k p (bucket_of (local_peerid k) (kbucket_width k) p) b /\
    neoip_kad_ping_rpc_cb p PingFatal k = Ok k' /\
    bucket_changed S k (bucket_of (local_peerid k) (kbucket_width k) p) (bucket_evicted p b) k'.
Proof.
  intros Hrep Hlook Ha. destruct (pinged_in_bucket S k p n a Hrep Hlook Ha) as (b & Hb & Hn & Hid & Hp & Hpa & Hofa).
  set (i := bucket_of _ _ p) in *. exists b. pose proof Hb as [Hof Hat Hview Hnd [Hle Hok] _ _ Hsub].
  assert (Hin : p ∈ bn_id <$> b) by (apply list_elem_of_fmap; eauto).
  destruct (filter_id p b ltac:(by apply NoDup_app in Hnd as [? _]) Hin) as (n' & Hn' & Hid' & Hf & Hperm).
  assert (n' = n) as ->. { pose proof (Hsub n' Hn') as H1. rewrite Hid' in H1. congruence. }
  destruct (concat_update S i b Hat) as (rest & Hall & _).
  assert (Hm : concat S ≡ₚ n :: bucket_deleted p b ++ rest) by (rewrite Hall; by rewrite Hperm at 1).
  destruct (evict_db n a _ _ _ Ha (db_rep_perm _ _ _ _ Hm (rep_db _ _ Hrep))) as (Hnone & Hne & Hfresh & Hdb).
  rewrite fmap_app, not_elem_of_app in Hfresh. destruct Hfresh as [Hfresh _]. rewrite Hid in *.
  destruct (evict_lists S k p i b n a Hb Hp Hn Hid Ha Hpa Hofa Hnone Hfresh Hne)
    as (k' & Hk' & Hsb & Hlru & Hdb1 & Hpdb1).
  exists k'. split; [done|]. split; [done|]. unfold bucket_evicted. fold (bucket_deleted p b). rewrite Hf. cbn. rewrite Ha. cbn. split; [|done].
  eapply rep_update; [exact Hrep|exact Hat|done|done|..].
  - intros rest' Hall' _. rewrite Hdb1, Hpdb1.
    destruct (evict_db n a (bucket_deleted p b ++ rest') (bucknode_db k) (pending_node_db k) Ha) as (_ & _ & _ & Hdb').
    { eapply db_rep_perm; [|exact (rep_db _ _ Hrep)]. rewrite Hall'. by rewrite Hperm at 1. }
    rewrite Hid in Hdb'. eapply db_rep_perm; [|exact Hdb']. rewrite <- app_assoc. apply Permutation_middle.
  - assert (Hsl : Forall (node_ok (local_peerid k) (kbucket_width k) i) (n :: bucket_deleted p b)) by (by rewrite <- Hperm).
    pose proof (Permutation_length Hperm) as Hlen. cbn [length] in Hlen. split; [rewrite length_app; cbn [length]; lia|].
    apply Forall_app. split; [by inversion Hsl|]. apply Forall_singleton. by split.
Qed.

Lemma deleted_absent p b : p ∉ bn_id <$> b -> bucket_deleted p b = b.
Proof. apply deleted_notin. Qed.

Lemma same_base_trans k k1 k2 : same_base k k1 -> same_base k1 k2 -> same_base k k2.
Proof. intros (?&?&?&?) (?&?&?&?). unfold same_base. split_and!; congruence. Qed.

Section refine_ops.
Context `{InetLib}.

Lemma kad_addr_qualified_id a :
  kad_addr_is_fully_qualified a = Ok true -> ipport_is_fully_qualified (oaddr a) = Ok true.
Proof.
  unfold kad_addr_is_fully_qualified. destruct (ipport_is_fully_qualified (oaddr a)) as [[]| | |]; try done.
Qed.

Lemma seen_refines S k a ping_ok :
  kb_rep S k -> kad_addr_is_fully_qualified a = Ok true -> kad_id_ok (peerid a) ->
  let i := bucket_of (local_peerid k) (kbucket_width k) (peerid a) in
  exists k', notify_srckaddr a ping_ok k = Ok k' /\ same_base k k' /\
    kb_rep (alter (bucket_seen (kbucket_height k) a ping_ok) i S) k'.
Proof.
  intros Hrep Hq Hp i. destruct (rep_bucket S k (peerid a) Hrep Hp) as (b & Hb). fold i in Hb.
  pose proof Hb as [Hof Hat Hview Hnd [Hle Hok] Hnode Hpend Hsub]. pose proof (rep_db _ _ Hrep) as Hdb.
  rewrite (alter_insert _ _ _ _ Hat).
  assert (Hsame : kb_rep (<[i := b]> S) k) by (by rewrite list_insert_id).
  unfold notify_srckaddr. rewrite Hq. cbn [mbind outcome_bind dbg_assert].
  rewrite (view_bucket_idx k _ i _ (peerid a) Hview Hp Hof). cbn [mbind outcome_bind].
  unfold is_pending_node, get_bucknode, bucket_seen.
  destruct (decide (peerid a ∈ peerid <$> pendings b)) as [Hpb|Hpb].
  { rewrite bool_decide_eq_true_2 by (by apply (pdb_lookup_in Hdb), Hpend). by exists k. }
  rewrite bool_decide_eq_false_2 by (by rewrite (pdb_lookup_in Hdb), Hpend).
  pose proof (db_lookup_in Hdb (peerid a)) as Hin. rewrite Hnode in Hin.
  destruct (decide (peerid a ∈ bn_id <$> b)) as [Hb1|Hb1].
  - destruct (proj2 Hin Hb1) as [n Hn]. rewrite Hn.
    destruct (update_refines S k _ i b Hrep Hp Hb Hb1) as (k' & Hk' & Hr & Hs). by exists k'.
  - destruct (bucknode_db k !! peerid a) as [n|] eqn:Hn; [exfalso; apply Hb1, Hin; eauto|].
    destruct (lru_view_at _ _ _ _ Hview) as (bl & Hbl & Hlru & _). rewrite Hbl. cbn [mbind outcome_bind].
    rewrite Hlru, length_fmap. destruct (decide (length b < kbucket_height k)%nat) as [Hlen|Hlen].
    + rewrite bool_decide_eq_true_2 by done.
      destruct (add_refines S k _ i b Hrep Hp Hb a eq_refl Hb1 Hpb Hlen) as (k1 & k' & -> & Hk' & Hr & Hs).
      cbn [mbind outcome_bind]. by exists k'.
    + rewrite bool_decide_eq_false_2 by done.
      destruct (first_notpinging_spec k a b Hsub) as [[-> Hpf]|(b1 & m & b2 & Hb12 & Hm & -> & Hpf)];
        cbn [mbind outcome_bind]; [exists k; rewrite Hpf; by destruct ping_ok|].
      destruct ping_ok.
      * destruct (ping_refines S k _ i b Hrep Hp Hb a b1 m b2 eq_refl Hb12 Hm Hb1 Hpb) as (k' & Hk' & Hr & Hs).
        exists k'. by rewrite Hpf.
      * exists k. split; [|done]. unfold ping_start, bucknode_at.
        rewrite Hsub by (rewrite Hb12; apply elem_of_app; right; by left). cbn [mbind outcome_bind].
        unfold ping_in_progress. by rewrite Hm.
Qed.

(** The deferred deletions. *)
Definition spec_delete_all (local : kad_id) (width : Z) (td : list kad_id) (S : list (list bucknode_t)) :=
  fold_left (fun S p => alter (bucket_deleted p) (bucket_of local width p) S) td S.

Lemma todelete_refines td S k :
  kb_rep S k -> Forall kad_id_ok td ->
  exists k', todelete_loop td k = Ok k' /\ same_base k k' /\
    kb_rep (spec_delete_all (local_peerid k) (kbucket_width k) td S) k'.
Proof.
  intros Hrep Htd. revert S k Hrep. induction Htd as [|p td Hp Htd IH]; intros S k Hrep; [by exists k|].
  cbn [todelete_loop spec_delete_all fold_left]. destruct (rep_bucket S k p Hrep Hp) as (b & Hb).
  set (i := bucket_of _ _ p) in *. pose proof Hb as [Hof Hat Hview Hnd Hok Hnode Hpend Hsub].
  rewrite (view_bucket_idx k _ i _ p Hview Hp Hof). cbn [mbind outcome_bind].
  destruct (lru_view_at _ _ _ _ Hview) as (bl & Hbl & Hlru & _). rewrite Hbl. cbn [mbind outcome_bind].
  rewrite Hlru, bucklist_find_spec by (done || apply Hview). rewrite (alter_insert _ _ _ _ Hat).
  case_decide as Hin.
  - apply list_elem_of_fmap in Hin as (n & Hid & Hn).
    cbn beta iota. destruct (delete_refines S k p i b Hrep Hp Hb n Hn (eq_sym Hid)) as (k1 & k2 & -> & Hd & Hrep2 & Hs2).
    cbn [mbind outcome_bind]. rewrite Hd. cbn [mbind outcome_bind].
    destruct (IH _ _ Hrep2) as (k' & Hk' & Hs' & Hr'). destruct Hs2 as (El & Ew & Eh & Et).
    exists k'. split; [done|]. split; [by eapply same_base_trans|]. rewrite El, Ew in Hr'. done.
  - destruct (IH _ _ Hrep) as (k' & Hk' & Hs' & Hr'). exists k'. split; [done|]. split; [done|].
    rewrite deleted_absent by done. rewrite list_insert_id by done. done.
Qed.

(** Changes that keep the nodes. *)
Lemma rep_same_nodes S k k' :
  kb_rep S k -> local_peerid k' = local_peerid k -> kbucket_width k' = kbucket_width k ->
  kbucket_height k' = kbucket_height k -> bucknode_lru <$> bucklist_db k' = bucknode_lru <$> bucklist_db k ->
  bucknode_db k' = bucknode_db k -> pending_node_db k' = pending_node_db k ->
  Forall kad_id_ok (peerid_todelete_db k') -> kb_rep S k'.
Proof. intros [] El Ew Eh Elru Ed Ep Ht. split; by rewrite ?El, ?Ew, ?Eh, ?Elru, ?Ed, ?Ep. Qed.

(** [rand] holds an identifier whose low bits have their highest bit in the
    bucket's group. *)
Definition rand_ok (width : Z) (idx : nat) (rand : list kad_id) : Prop :=
  Forall kad_id_ok rand /\
  Exists (fun r => Z.log2 (be_value r mod 2 ^ ((Z.of_nat idx + 1) * width)) / width = Z.of_nat idx) rand.

(** The identifier drawn is in the bucket's range, as an identifier. *)
Lemma pick_refresh_spec S k idx rand :
  kb_rep S k -> (idx < length S)%nat -> rand_ok (kbucket_width k) idx rand ->
  exists r, pick_refresh_id idx rand k = Ok r /\ kad_id_ok r /\
    Z.log2 (be_value r) / kbucket_width k = Z.of_nat idx.
Proof.
  intros Hrep Hidx [Hok Hex]. pose proof (rep_width _ _ Hrep) as [Hw Hnb].
  induction Hok as [|r rand Hr Hok IH]; [by inversion Hex|]. cbn [pick_refresh_id].
  set (w := kbucket_width k) in *. set (m := (Z.of_nat idx + 1) * w).
  assert (Hm : 0 < m <= kad_id_nbit) by (unfold m; nia).
  destruct (bit_clear_spec KAD_ID_SIZE r Hr (kad_id_nbit - m)) as (c & Hc & Hcok & Hcv);
    [change (8 * Z.of_nat KAD_ID_SIZE) with kad_id_nbit; lia|].
  change (8 * Z.of_nat KAD_ID_SIZE) with kad_id_nbit in Hcv.
  replace (kad_id_nbit - (kad_id_nbit - m)) with m in Hcv by lia.
  rewrite Hc. cbn [mbind outcome_bind]. rewrite bit_get_highest_set_spec by done. cbn [mbind outcome_bind].
  unfold size_div. rewrite (proj2 (Z.eqb_neq w 0)) by lia. cbn [mbind outcome_bind].
  assert (Hnn : 0 <= Z.log2 (be_value c) / w) by (apply Z.div_pos; [apply Z.log2_nonneg|lia]).
  case_bool_decide as E.
  - exists c. split; [done|]. split; [done|]. lia.
  - apply Exists_cons in Hex as [Hr'|Hex]; [|by apply IH]. exfalso. apply E. fold m in Hr'.
    rewrite Hcv in *. lia.
Qed.
End refine_ops.

(* ------------------------------------------------------------------ *)
(** * Lemmas: runs *)
(* ------------------------------------------------------------------ *)

Section runs.
Context `{InetLib} (profile : kad_kbucket_profile_t).

(** What an event supposes of the state: a received address has been checked
    ([srckaddr_parse]), a ping that answers is in progress, a random draw ends. *)
Definition ev_ok (k : kbucket_t) (e : kb_event) : Prop :=
  let nb := length (bucklist_db k) in
  match e with
  | EvSrcKaddr a _ => kad_addr_is_fully_qualified a = Ok true /\ kad_id_ok (peerid a)
  | EvPing p _ => exists n a, bucknode_db k !! p = Some n /\ pending_node n = Some a
  | EvFailedRpc p _ _ => kad_id_ok p
  | EvZeroTimer | EvClosestnode _ => True
  | EvRefreshTimeout idx rand _ => (idx < nb)%nat /\ rand_ok (kbucket_width k) idx rand
  | EvRefreshAll rand _ | EvRefreshPostBstrap rand _ =>
      forall idx, (idx < nb)%nat -> rand_ok (kbucket_width k) idx (rand idx)
  | EvNsearch target => kad_id_ok target
  end.

Fixpoint events_ok (es : list kb_event) (k : kbucket_t) : Prop :=
  match es with
  | [] => True
  | e :: es' => ev_ok k e /\ forall k', kb_step profile e k = Ok k' -> events_ok es' k'
  end.

(** The abstract table: the buckets and the peers to delete. *)
Section spec.
Context (local : kad_id) (width : Z) (height : nat).

Definition at_bucket (p : kad_id) (f : list bucknode_t -> list bucknode_t) (S : list (list bucknode_t)) :=
  alter f (bucket_of local width p) S.

Definition spec_step (e : kb_event) (st : list (list bucknode_t) * list kad_id)
    : list (list bucknode_t) * list kad_id :=
  let (S, td) := st in
  match e with
  | EvSrcKaddr a ping_ok => (at_bucket (peerid a) (bucket_seen height a ping_ok) S, td)
  | EvPing p PingFatal => (at_bucket p (bucket_evicted p) S, td)
  | EvPing p PingCompleted => (at_bucket p (bucket_answered p) S, td)
  | EvFailedRpc p is_timedout expire_delay =>
    (S, if is_timedout && (expire_delay <? delete_timedout_rpc_min_delay profile) then td else td ++ [p])
  | EvZeroTimer => (spec_delete_all local width td S, [])
  | _ => st
  end.
Definition spec_run (es : list kb_event) (st : list (list bucknode_t) * list kad_id) :=
  fold_left (fun st e => spec_step e st) es st.
End spec.

Definition k_rep (local : kad_id) (width : Z) (height : nat) (st : list (list bucknode_t) * list kad_id)
    (k : kbucket_t) : Prop :=
  kb_rep st.1 k /\ peerid_todelete_db k = st.2 /\
  local_peerid k = local /\ kbucket_width k = width /\ kbucket_height k = height.

Lemma rep_nb S k : kb_rep S k -> length (bucklist_db k) = length S.
Proof. intros Hrep. pose proof (f_equal length (rep_lru _ _ Hrep)) as Hl. by rewrite !length_fmap in Hl. Qed.

Lemma trigger_refresh_rep S k idx rand ok :
  kb_rep S k -> (idx < length S)%nat -> rand_ok (kbucket_width k) idx rand ->
  exists k', trigger_refresh_now idx rand ok k = Ok k' /\ kb_rep S k' /\ same_base k k'.
Proof.
  intros Hrep Hidx Hrand. unfold trigger_refresh_now, bucklist_at.
  destruct (lookup_lt_is_Some_2 (bucklist_db k) idx) as [b ->]; [by rewrite (rep_nb S)|].
  cbn [mbind outcome_bind]. destruct (is_refreshing b); [by exists k|].
  destruct (pick_refresh_spec S k idx rand Hrep Hidx Hrand) as (r & -> & _ & _).
  cbn [mbind outcome_bind]. eexists. split; [done|]. split; [|done].
  apply (rep_same_nodes S k); try done; [by rewrite lru_set_refreshing|]. apply Hrep.
Qed.

Lemma refresh_each_rep S idxs rand ok k :
  kb_rep S k -> Forall (fun i => (i < length S)%nat /\ rand_ok (kbucket_width k) i (rand i)) idxs ->
  exists k', refresh_each idxs rand ok k = Ok k' /\ kb_rep S k' /\ same_base k k'.
Proof.
  intros Hrep Hi. revert k Hrep Hi. induction idxs as [|i idxs IH]; intros k Hrep Hi; [by exists k|].
  apply Forall_cons in Hi as [[Hi1 Hr] Hi]. cbn [refresh_each].
  destruct (trigger_refresh_rep S k i _ ok Hrep Hi1 Hr) as (k1 & -> & Hrep1 & Hs). cbn [mbind outcome_bind].
  destruct (IH k1 Hrep1) as (k2 & Hk2 & Hrep2 & Hs2).
  { destruct Hs as (_ & Ew & _ & _). by rewrite Ew. }
  exists k2. split; [done|]. split; [done|]. by eapply same_base_trans.
Qed.

Lemma refresh_loop_rep S nb rand ok k :
  kb_rep S k -> (nb <= length S)%nat ->
  (forall i, (i < length S)%nat -> rand_ok (kbucket_width k) i (rand i)) ->
  exists k', refresh_loop nb rand ok k = Ok k' /\ kb_rep S k' /\ same_base k k'.
Proof.
  revert k. induction nb as [|i IH]; intros k Hrep Hnb Hr; [by exists k|]. cbn [refresh_loop].
  unfold bucklist_at. destruct (lookup_lt_is_Some_2 (bucklist_db k) i) as [b ->]; [rewrite (rep_nb S); [lia|done]|].
  cbn [mbind outcome_bind]. case_bool_decide; [by exists k|].
  destruct (trigger_refresh_rep S k i _ ok Hrep ltac:(lia) (Hr i ltac:(lia))) as (k1 & -> & Hrep1 & Hs).
  cbn [mbind outcome_bind]. destruct (IH k1 Hrep1 ltac:(lia)) as (k2 & Hk2 & Hrep2 & Hs2).
  { destruct Hs as (_ & Ew & _ & _). by rewrite Ew. }
  exists k2. split; [done|]. split; [done|]. by eapply same_base_trans.
Qed.

Lemma k_rep_intro local width height S S' td k k' :
  k_rep local width height (S, td) k -> kb_rep S' k' -> same_base k k' ->
  k_rep local width height (S', td) k'.
Proof. intros (_ & Ht & El & Ew & Eh) Hr (El' & Ew' & Eh' & Et'). unfold k_rep. simpl in *. split_and!; congruence. Qed.

Lemma kb_step_refines local width height st k e :
  k_rep local width height st k -> ev_ok k e ->
  exists k', kb_step profile e k = Ok k' /\ k_rep local width height (spec_step local width height e st) k'.
Proof.
  destruct st as [S td]. intros Hk He. pose proof Hk as (Hrep & Ht & El & Ew & Eh). simpl in Hrep, Ht.
  destruct e as [a ok|p ev|p t d| |idx rand ok|rand ok|rand ok|idx|target]; cbn [kb_step spec_step].
  - destruct He as [Hq Hp]. destruct (seen_refines S k a ok Hrep Hq Hp) as (k' & Hk' & Hs & Hr).
    exists k'. split; [done|]. rewrite El, Ew, Eh in Hr. by eapply k_rep_intro.
  - destruct He as (n & a & Hn & Ha). unfold at_bucket. rewrite <- El, <- Ew. destruct ev.
    + destruct (evicted_refines S k p n a Hrep Hn Ha) as (b & k' & Hb & Hk' & Hr & Hs).
      exists k'. split; [done|]. rewrite (alter_insert _ _ _ _ (ib_at _ _ _ _ _ Hb)). rewrite El, Ew in *. by eapply k_rep_intro.
    + destruct (answered_refines S k p n a Hrep Hn Ha) as (b & k' & Hb & Hk' & Hr & Hs).
      exists k'. split; [done|]. rewrite (alter_insert _ _ _ _ (ib_at _ _ _ _ _ Hb)). rewrite El, Ew in *. by eapply k_rep_intro.
  - unfold notify_failed_rpc. cbn [dbg_assert]. destruct (t && _); [by exists k|]. eexists. split; [done|].
    split_and!; try done; [|by simpl; rewrite Ht]. apply (rep_same_nodes S k); try done. cbn.
    apply Forall_app. split; [apply Hrep|by apply Forall_singleton].
  - unfold kbucket_zerotimer_expire_cb. rewrite Ht.
    assert (Hrep0 : kb_rep S (set_todelete [] false k)) by (apply (rep_same_nodes S k); try done; constructor).
    destruct (todelete_refines td S _ Hrep0) as (k' & Hk' & Hs & Hr); [rewrite <- Ht; apply Hrep|].
    exists k'. split; [done|]. simpl in Hr. rewrite El, Ew in Hr. destruct Hs as (E1 & E2 & E3 & E4).
    simpl in *. unfold k_rep. simpl. split_and!; try done; congruence.
  - destruct He as [Hi Hr]. rewrite (rep_nb S) in Hi by done.
    destruct (trigger_refresh_rep S k idx rand ok Hrep Hi Hr) as (k' & Hk' & Hr' & Hs).
    exists k'. split; [done|]. by eapply k_rep_intro.
  - unfold refresh_all_bucklist. rewrite (rep_nb S) in * by done.
    destruct (refresh_each_rep S (seq 0 (length S)) rand ok k Hrep) as (k' & Hk' & Hr' & Hs).
    { apply Forall_seq. intros i Hi. split; [lia|]. apply He. rewrite (rep_nb S) by done. lia. }
    exists k'. split; [done|]. by eapply k_rep_intro.
  - unfold refresh_post_bstrap. destruct (refresh_loop_rep S (length S) rand ok k Hrep) as (k' & Hk' & Hr' & Hs); [lia| |].
    { intros i Hi. apply He. by rewrite (rep_nb S). }
    exists k'. rewrite (rep_nb S) by done. split; [done|]. by eapply k_rep_intro.
  - eexists. split; [done|]. eapply k_rep_intro; [done| |done].
    apply (rep_same_nodes S k); try done; [by rewrite lru_set_refreshing|apply Hrep].
  - destruct (rep_bucket S k target Hrep He) as (b & [Hof Hat Hview _ _ _ _ _]).
    unfold kbucket_notify_nsearch. rewrite (view_bucket_idx k _ _ _ target Hview He Hof). cbn [mbind outcome_bind].
    destruct (lru_view_at _ _ _ _ Hview) as (bl & -> & _). cbn [mbind outcome_bind]. eexists. split; [done|].
    eapply k_rep_intro; [done| |done]. apply (rep_same_nodes S k); try done. apply Hrep.
Qed.

Lemma kb_run_refines local width height es st k :
  k_rep local width height st k -> events_ok es k ->
  exists k', kb_run profile es k = Ok k' /\ k_rep local width height (spec_run local width height es st) k'.
Proof.
  revert st k. induction es as [|e es IH]; intros st k Hk; [by exists k|]. cbn [events_ok kb_run]. intros [He Hes].
  destruct (kb_step_refines local width height st k e Hk He) as (k1 & Hk1 & Hr1). rewrite Hk1. cbn [mbind outcome_bind].
  by apply IH, Hes.
Qed.

(** The table as it is built: the local address is its first node. *)
Definition spec_init (local : kad_id) (addr : kad_addr_t) (ping_ok : bool) : list (list bucknode_t) * list kad_id :=
  let width := profile_kbucket_width profile in
  (at_bucket local width local (bucket_seen (nb_replication profile) addr ping_ok)
     (replicate (Z.to_nat (kad_id_nbit / width)) []), []).

Definition local_addr (listen_lview : ipport_addr_t) (any : bool) (local : kad_id) : kad_addr_t :=
  KadAddr (if any then Ipport (ip_of_string "127.0.0.1") (port listen_lview) else listen_lview) local.

Lemma kbucket_ctor_rep lview local ping_ok any :
  kad_id_ok local -> 0 < profile_kbucket_width profile -> kad_id_nbit mod profile_kbucket_width profile = 0 ->
  is_any (ipaddr lview) = Ok any -> kad_addr_is_fully_qualified (local_addr lview any local) = Ok true ->
  exists k, kbucket_ctor profile lview local ping_ok = Ok k /\
    k_rep local (profile_kbucket_width profile) (nb_replication profile)
      (spec_init local (local_addr lview any local) ping_ok) k.
Proof.
  intros Hl Hw Hdiv Hany Hq. unfold kbucket_ctor, size_div.
  set (w := profile_kbucket_width profile) in *. rewrite (proj2 (Z.eqb_neq w 0)) by lia. cbn [mbind outcome_bind].
  pose proof (Z.div_mod kad_id_nbit w ltac:(lia)) as Hdm. rewrite Hdiv in Hdm.
  pass_assert ltac:(apply Z.eqb_eq; lia). rewrite Hany. cbn [mbind outcome_bind].
  set (nb := Z.to_nat (kad_id_nbit / w)). match goal with |- context [notify_srckaddr _ _ ?x] => set (k0 := x) end.
  assert (Hnb : Z.of_nat nb * w = kad_id_nbit).
  { unfold nb. rewrite Z2Nat.id; [lia|]. apply Z.div_pos; [done|lia]. }
  assert (Hc : concat (replicate nb ([] : list bucknode_t)) = []) by (clear; induction nb; simpl; done).
  assert (Hrep0 : kb_rep (replicate nb []) k0).
  { split; try done.
    - split; [done|]. by rewrite length_replicate.
    - cbn. by rewrite !fmap_replicate.
    - rewrite Hc. split; [constructor|done].
    - intros i b Hb. apply lookup_replicate in Hb as [-> _]. split; [simpl; lia|constructor]. }
  fold (local_addr lview any local).
  destruct (seen_refines _ k0 (local_addr lview any local) ping_ok Hrep0 Hq Hl) as (k & Hk & (El & Ew & Eh & Et) & Hr).
  exists k. split; [done|]. unfold k_rep, spec_init, at_bucket. cbn [fst snd]. split_and!; done.
Qed.
End runs.

(* ------------------------------------------------------------------ *)
(** * Lemmas: the invariant, on the table itself *)
(* ------------------------------------------------------------------ *)

Lemma node_in_own_bucket S k n :
  kb_rep S k -> n ∈ concat S ->
  kad_id_ok (bn_id n) /\ exists b, in_bucket S k (bn_id n) (bucket_of (local_peerid k) (kbucket_width k) (bn_id n)) b /\ n ∈ b.
Proof.
  intros Hrep Hn. apply concat_elem in Hn as (j & b & Hj & Hn). destruct (rep_buckets _ _ Hrep j b Hj) as [_ Hok].
  destruct (proj1 (Forall_forall _ _) Hok n Hn) as [[Hp Hof] _]. split; [done|]. exists b. rewrite Hof.
  split; [by apply in_bucket_at|done].
Qed.

Lemma rep_bucket_lru S k idx bl :
  kb_rep S k -> bucklist_db k !! idx = Some bl ->
  NoDup (bucknode_lru bl) /\ (length (bucknode_lru bl) <= kbucket_height k)%nat /\
  forall p, p ∈ bucknode_lru bl <-> is_Some (bucknode_db k !! p) /\ get_bucket_idx p k = Ok idx.
Proof.
  intros Hrep Hbl. pose proof (rep_db _ _ Hrep) as Hdb.
  assert (Hb : exists b, S !! idx = Some b /\ bucknode_lru bl = bn_id <$> b).
  { pose proof (f_equal (fun l => l !! idx) (rep_lru _ _ Hrep)) as Hx. cbn in Hx.
    rewrite !list_lookup_fmap, Hbl in Hx. destruct (S !! idx) as [b|]; [|done]. injection Hx as Hx. eauto. }
  destruct Hb as (b & Hb & ->). destruct (rep_buckets _ _ Hrep idx b Hb) as [Hlen Hok].
  destruct (concat_update S idx b Hb) as (rest & Hperm & _).
  pose proof (proj1 (db_rep_perm _ _ _ _ Hperm Hdb)) as Hnd. rewrite all_ids_app in Hnd.
  apply NoDup_app in Hnd as [Hnd _]. apply NoDup_app in Hnd as [Hnd _].
  split; [done|]. split; [by rewrite length_fmap|]. intros p. rewrite (db_lookup_in Hdb). split.
  - intros (n & -> & Hn)%list_elem_of_fmap. assert (Hin : n ∈ concat S) by (by eapply elem_concat).
    split; [apply list_elem_of_fmap; eauto|].
    destruct (proj1 (Forall_forall _ _) Hok n Hn) as [[Hp Hof] _].
    rewrite (get_bucket_idx_spec k _ (length S)) by (done || apply Hrep). by rewrite Hof.
  - intros [(n & -> & Hn)%list_elem_of_fmap Hidx].
    destruct (node_in_own_bucket S k n Hrep Hn) as (Hp & b' & Hb' & Hn').
    rewrite (get_bucket_idx_spec k _ (length S)) in Hidx by (done || apply Hrep). injection Hidx as Hidx.
    rewrite Hidx in Hb'. pose proof (ib_at _ _ _ _ _ Hb') as Hat. rewrite Hb in Hat. injection Hat as <-.
    apply list_elem_of_fmap. eauto.
Qed.

Lemma NoDup_pending_owner l n n' a a' :
  NoDup (all_ids l) -> n ∈ l -> n' ∈ l -> pending_node n = Some a -> pending_node n' = Some a' ->
  peerid a = peerid a' -> n = n'.
Proof.
  intros Hnd Hn Hn' Ha Ha' Heq. induction l as [|m l IH]; [by apply elem_of_nil in Hn|].
  rewrite all_ids_cons in Hnd. apply NoDup_cons in Hnd as [_ Hnd]. apply NoDup_app in Hnd as (_ & Hdis & Hnd).
  assert (Hx : forall x c, x ∈ l -> pending_node x = Some c -> peerid c ∈ all_ids l).
  { intros x c Hx Hc. apply elem_of_app. right. apply list_elem_of_fmap. exists c. split; [done|].
    apply pendings_elem. eauto. }
  assert (Hm : forall c, pending_node m = Some c -> peerid c ∉ all_ids l).
  { intros c Hc. apply Hdis. unfold pending_list. rewrite Hc. by left. }
  apply elem_of_cons in Hn as [->|Hn]; apply elem_of_cons in Hn' as [->|Hn']; [done| | |by apply IH].
  - exfalso. apply (Hm a Ha). rewrite Heq. by eapply Hx.
  - exfalso. apply (Hm a' Ha'). rewrite <- Heq. by eapply Hx.
Qed.

Lemma rep_pending S k p :
  kb_rep S k -> is_Some (pending_node_db k !! p) ->
  bucknode_db k !! p = None /\
  exists q n a, bucknode_db k !! q = Some n /\ pending_node n = Some a /\ peerid a = p /\
    get_bucket_idx p k = get_bucket_idx q k /\
    forall q' n' a', bucknode_db k !! q' = Some n' -> pending_node n' = Some a' -> peerid a' = p -> q' = q.
Proof.
  intros Hrep Hp. pose proof (rep_db _ _ Hrep) as Hdb. pose proof (proj1 Hdb) as Hnd.
  apply (pdb_lookup_in Hdb) in Hp as Hp'. apply list_elem_of_fmap in Hp' as (a & -> & Ha).
  split.
  - apply eq_None_not_Some. rewrite (db_lookup_in Hdb). apply NoDup_app in Hnd as (_ & Hdis & _).
    intros Hin. apply (Hdis _ Hin). apply list_elem_of_fmap. eauto.
  - apply pendings_elem in Ha as (n & Hn & Ha).
    assert (Hlook : bucknode_db k !! bn_id n = Some n) by (by apply (db_lookup Hdb)).
    destruct (pinged_in_bucket S k _ n a Hrep Hlook Ha) as (b & _ & _ & _ & Hid & Hida & Hof).
    exists (bn_id n), n, a. split; [done|]. split; [done|]. split; [done|]. split.
    + rewrite !(get_bucket_idx_spec k _ (length S)) by (done || apply Hrep). by rewrite Hof.
    + intros q' n' a' Hlook' Ha' Heq. apply (db_lookup Hdb) in Hlook' as [Hn' <-].
      f_equal. by eapply NoDup_pending_owner.
Qed.

(* ------------------------------------------------------------------ *)
(** * Theorems *)
(* ------------------------------------------------------------------ *)

(** C6. The routing table refines its specification: from its construction,
    whatever the messages received, the pings that are answered or not, the
    failed requests, the deferred deletions, the refreshes and the searches, in
    any order, no assertion fails, no deleted node is used, and the buckets
    hold exactly the nodes, in the order and with the pending successors, that
    the rules of the Kademlia paper give. *)
Theorem kbucket_refines `{InetLib} (profile : kad_kbucket_profile_t) (lview : ipport_addr_t)
    (local : kad_id) (ping_ok any : bool) (es : list kb_event)
    (Hl : kad_id_ok local) (Hw : 0 < profile_kbucket_width profile)
    (Hdiv : kad_id_nbit mod profile_kbucket_width profile = 0)
    (Hany : is_any (ipaddr lview) = Ok any)
    (Hq : kad_addr_is_fully_qualified (local_addr lview any local) = Ok true) :
  let width := profile_kbucket_width profile in
  exists k0, kbucket_ctor profile lview local ping_ok = Ok k0 /\
    (events_ok profile es k0 ->
     exists k, kb_run profile es k0 = Ok k /\
       let st := spec_run profile local width (nb_replication profile) es
                   (spec_init profile local (local_addr lview any local) ping_ok) in
       peerid_todelete_db k = st.2 /\
       bucknode_lru <$> bucklist_db k = fmap bn_id <$> st.1 /\
       (forall p n, bucknode_db k !! p = Some n <-> bn_id n = p /\ exists b, b ∈ st.1 /\ n ∈ b) /\
       (forall p, is_Some (pending_node_db k !! p) <->
          exists b n a, b ∈ st.1 /\ n ∈ b /\ pending_node n = Some a /\ peerid a = p)).
Proof.
  intros width.
  destruct (kbucket_ctor_rep profile lview local ping_ok any Hl Hw Hdiv Hany Hq) as (k0 & Hk0 & Hr0).
  exists k0. split; [done|]. intros Hes.
  destruct (kb_run_refines profile local width _ es _ _ Hr0 Hes) as (k & Hk & Hrep & Ht & _).
  exists k. split; [done|]. cbv zeta. split; [done|]. split; [apply Hrep|].
  assert (Hc : forall n, n ∈ concat (spec_run profile local width (nb_replication profile) es
      (spec_init profile local (local_addr lview any local) ping_ok)).1 <->
    exists b, b ∈ (spec_run profile local width (nb_replication profile) es
      (spec_init profile local (local_addr lview any local) ping_ok)).1 /\ n ∈ b).
  { intros n. rewrite list_elem_of_In, in_concat. by setoid_rewrite list_elem_of_In. }
  split.
  - intros p n. rewrite (db_lookup (rep_db _ _ Hrep)), Hc. tauto.
  - intros p. rewrite (pdb_lookup_in (rep_db _ _ Hrep)), list_elem_of_fmap. setoid_rewrite pendings_elem.
    setoid_rewrite Hc. split; [intros (a & -> & n & (b & ? & ?) & ?)|intros (b & n & a & ? & ? & ? & <-)]; eauto 10.
Qed.

(** C21. The invariant of the routing table, after any such run: no bucket holds
    more than [nb_replication] nodes nor one twice; a node is in a bucket
    exactly when it is in the database and its distance to the local identifier
    has its highest bit in the bucket's group; and a pending address belongs to
    one pinged node, of the bucket it would be put in, and is not in the table. *)
Theorem kbucket_invariant `{InetLib} (profile : kad_kbucket_profile_t) (lview : ipport_addr_t)
    (local : kad_id) (ping_ok any : bool) (es : list kb_event) (k0 k : kbucket_t)
    (Hl : kad_id_ok local) (Hw : 0 < profile_kbucket_width profile)
    (Hdiv : kad_id_nbit mod profile_kbucket_width profile = 0)
    (Hany : is_any (ipaddr lview) = Ok any)
    (Hq : kad_addr_is_fully_qualified (local_addr lview any local) = Ok true)
    (Hk0 : kbucket_ctor profile lview local ping_ok = Ok k0)
    (Hes : events_ok profile es k0) (Hk : kb_run profile es k0 = Ok k) :
  (forall idx b, bucklist_db k !! idx = Some b ->
     NoDup (bucknode_lru b) /\ (length (bucknode_lru b) <= nb_replication profile)%nat /\
     forall p, p ∈ bucknode_lru b <-> is_Some (bucknode_db k !! p) /\ get_bucket_idx p k = Ok idx) /\
  (forall p, is_Some (pending_node_db k !! p) ->
     bucknode_db k !! p = None /\
     exists q n a, bucknode_db k !! q = Some n /\ pending_node n = Some a /\ peerid a = p /\
       get_bucket_idx p k = get_bucket_idx q k /\
       forall q' n' a', bucknode_db k !! q' = Some n' -> pending_node n' = Some a' -> peerid a' = p -> q' = q).
Proof.
  destruct (kbucket_ctor_rep profile lview local ping_ok any Hl Hw Hdiv Hany Hq) as (k0' & Hk0' & Hr0).
  rewrite Hk0 in Hk0'. injection Hk0' as <-.
  destruct (kb_run_refines profile local _ _ es _ _ Hr0 Hes) as (k' & Hk' & Hrep & _ & _ & _ & Eh).
  rewrite Hk in Hk'. injection Hk' as <-. destruct (spec_run _ _ _ _ _ _) as [S td]. simpl in Hrep. clear Hr0.
  rewrite <- Eh. split.
  - intros idx bl Hbl. apply (rep_bucket_lru S k idx bl Hrep Hbl).
  - intros p Hp. by apply (rep_pending S k p Hrep).
Qed.

(* ------------------------------------------------------------------ *)
(** * Witnesses *)
(* ------------------------------------------------------------------ *)

#[local] Existing Instances quad_lib quad_lib_laws.

Definition kad_id_okb (p : kad_id) : bool :=
  bool_decide (length p = KAD_ID_SIZE) && forallb (fun b => (0 <=? b) && (b <? 256)) p.
Lemma kad_id_okb_ok p : kad_id_okb p = true -> kad_id_ok p.
Proof.
  unfold kad_id_okb. rewrite andb_true_iff, bool_decide_eq_true, forallb_forall. intros [Hl Hb]. split; [done|].
  apply Forall_forall. intros x Hx. apply list_elem_of_In, Hb, andb_true_iff in Hx as [H1 H2].
  unfold is_byte, in_range. apply Z.leb_le in H1. apply Z.ltb_lt in H2. done.
Qed.

(** A check that is enough for [events_ok]. *)
Definition ev_okb `{InetLib} (k : kbucket_t) (e : kb_event) : bool :=
  match e with
  | EvSrcKaddr a _ =>
    match kad_addr_is_fully_qualified a with Ok q => q && kad_id_okb (peerid a) | _ => false end
  | EvPing p _ => match bucknode_db k !! p with Some n => ping_in_progress n | None => false end
  | EvFailedRpc p _ _ | EvNsearch p => kad_id_okb p
  | EvZeroTimer | EvClosestnode _ => true
  | _ => false
  end.
Fixpoint events_okb `{InetLib} (profile : kad_kbucket_profile_t) (es : list kb_event) (k : kbucket_t) : bool :=
  match es with
  | [] => true
  | e :: es' =>
    ev_okb k e && match kb_step profile e k with Ok k' => events_okb profile es' k' | _ => false end
  end.

Lemma ev_okb_ok `{InetLib} k e : ev_okb k e = true -> ev_ok k e.
Proof.
  destruct e as [a ok|p ev|p t d| |idx rand ok|rand ok|rand ok|idx|target]; simpl; try done.
  - destruct (kad_addr_is_fully_qualified a) as [[]| | |]; try done. intros Hp. split; [done|by apply kad_id_okb_ok].
  - destruct (bucknode_db k !! p) as [n|]; [|done]. unfold ping_in_progress.
    destruct (pending_node n) as [a|] eqn:Ha; [|done]. eauto.
  - apply kad_id_okb_ok.
  - apply kad_id_okb_ok.
Qed.

Lemma events_okb_ok `{InetLib} profile es k : events_okb profile es k = true -> events_ok profile es k.
Proof.
  revert k. induction es as [|e es IH]; intros k; simpl; [done|]. rewrite andb_true_iff. intros [He Hes].
  split; [by apply ev_okb_ok|]. intros k' Hk'. rewrite Hk' in Hes. by apply IH.
Qed.

(** A table of 8-bit wide buckets of two nodes, and identifiers that differ from
    the local one in their last byte only. *)
Definition ex_profile : kad_kbucket_profile_t := KbucketProfile 8 2 60000.
Definition ex_id (b : Z) : kad_id := replicate 19 7 ++ [b].
Definition ex_addr (b : Z) : kad_addr_t := KadAddr (Ipport (V4 (0x01020300 + b)) 4000) (ex_id b).
Definition ex_events : list kb_event :=
  [EvSrcKaddr (ex_addr 1) true; EvSrcKaddr (ex_addr 2) true; EvSrcKaddr (ex_addr 3) true;
   EvPing (ex_id 0) PingCompleted; EvSrcKaddr (ex_addr 4) true; EvPing (ex_id 1) PingFatal;
   EvFailedRpc (ex_id 0) true 61000; EvZeroTimer].

Lemma ex_id_ok : kad_id_ok (ex_id 0).
Proof. by apply kad_id_okb_ok. Qed.
Lemma ex_any : is_any (ipaddr (Ipport (V4 0) 4000)) = Ok true.
Proof. vm_compute. reflexivity. Qed.
Lemma ex_qualified : kad_addr_is_fully_qualified (local_addr (Ipport (V4 0) 4000) true (ex_id 0)) = Ok true.
Proof. vm_compute. reflexivity. Qed.

(** The local node fills the bucket with 1; 2 has it pinged, 3 has 1 pinged;
    the local node answers and 4 has it pinged again; 1 does not and leaves its
    place to 3; the local node is deleted. *)
Lemma kbucket_refines_witness :
  exists k0 k, kbucket_ctor ex_profile (Ipport (V4 0) 4000) (ex_id 0) true = Ok k0 /\
    kb_run ex_profile ex_events k0 = Ok k /\
    (spec_run ex_profile (ex_id 0) 8 2 ex_events
       (spec_init ex_profile (ex_id 0) (local_addr (Ipport (V4 0) 4000) true (ex_id 0)) true)).1
      = [Bucknode (ex_addr 3) None] :: replicate 19 [] /\
    bucknode_lru <$> bucklist_db k = [ex_id 3] :: replicate 19 [].
Proof.
  assert (Hspec : (spec_run ex_profile (ex_id 0) 8 2 ex_events
       (spec_init ex_profile (ex_id 0) (local_addr (Ipport (V4 0) 4000) true (ex_id 0)) true)).1
      = [Bucknode (ex_addr 3) None] :: replicate 19 []) by (vm_compute; reflexivity).
  destruct (kbucket_refines ex_profile (Ipport (V4 0) 4000) (ex_id 0) true true ex_events
    ex_id_ok eq_refl eq_refl ex_any ex_qualified) as (k0 & Hk0 & H).
  destruct H as (k & Hk & _ & Hlru & _).
  { apply events_okb_ok. vm_compute in Hk0. injection Hk0 as <-. vm_compute. reflexivity. }
  exists k0, k. split; [exact Hk0|]. split; [exact Hk|]. split; [exact Hspec|].
  rewrite Hlru. change (profile_kbucket_width ex_profile) with 8. change (nb_replication ex_profile) with 2%nat.
  rewrite Hspec. reflexivity.
Defined.

Lemma kbucket_invariant_witness :
  exists k0 k, kbucket_ctor ex_profile (Ipport (V4 0) 4000) (ex_id 0) true = Ok k0 /\
    kb_run ex_profile ex_events k0 = Ok k /\
    exists b, bucklist_db k !! 0%nat = Some b /\ bucknode_lru b = [ex_id 3] /\
      get_bucket_idx (ex_id 3) k = Ok 0%nat.
Proof.
  destruct (kbucket_ctor ex_profile (Ipport (V4 0) 4000) (ex_id 0) true) as [k0| | |] eqn:Hk0;
    [|vm_compute in Hk0; discriminate..].
  destruct (kb_run ex_profile ex_events k0) as [k| | |] eqn:Hk;
    [|vm_compute in Hk0; injection Hk0 as <-; vm_compute in Hk; discriminate..].
  destruct (kbucket_invariant ex_profile (Ipport (V4 0) 4000) (ex_id 0) true true ex_events k0 k
    ex_id_ok eq_refl eq_refl ex_any ex_qualified Hk0) as [H _]; [|exact Hk|].
  { apply events_okb_ok. vm_compute in Hk0. injection Hk0 as <-. vm_compute. reflexivity. }
  exists k0, k. split; [reflexivity|]. split; [exact Hk|].
  assert (Hb : exists b, bucklist_db k !! 0%nat = Some b /\ bucknode_lru b = [ex_id 3]).
  { clear H. vm_compute in Hk0. injection Hk0 as <-. vm_compute in Hk. injection Hk as <-.
    eexists. split; reflexivity. }
  destruct Hb as (b & Hb & Hlru). exists b. split; [exact Hb|]. split; [exact Hlru|].
  apply (H 0%nat b Hb). rewrite Hlru. left.
Defined.
