(* ===== verification/KbucketNear.v ===== *)
(** The closest and the oldest nodes of the routing table, and the targets of
    its refreshes. *)
From stdpp Require Import gmap sorting.
From S2P Require Import Prelude GenId InetAddr ItemArr KadAddr Kbucket KbucketRep.

(* ------------------------------------------------------------------ *)
(** * Distances and buckets *)
(* ------------------------------------------------------------------ *)

Definition xdist (a b : kad_id) : Z := Z.lxor (be_value a) (be_value b).

Section dist.
Context (local : kad_id) (width : Z).
Hypothesis Hl : kad_id_ok local.
Hypothesis Hw : 0 < width.

Lemma xdist_nonneg a b : kad_id_ok a -> kad_id_ok b -> 0 <= xdist a b.
Proof using.
  clear. intros Ha Hb. pose proof (id_value_bound _ _ Ha). pose proof (id_value_bound _ _ Hb).
  apply Z.lxor_nonneg. lia.
Qed.

Lemma xdist_via a b : xdist a b = Z.lxor (xdist local a) (xdist local b).
Proof using.
  clear. unfold xdist. rewrite (Z.lxor_comm (be_value local)), Z.lxor_assoc, <- (Z.lxor_assoc (be_value local)).
  by rewrite Z.lxor_nilpotent, Z.lxor_0_l.
Qed.

Lemma bucket_log2 p i :
  kad_id_ok p -> bucket_of local width p = i ->
  Z.of_nat i * width <= Z.log2 (xdist local p) < (Z.of_nat i + 1) * width.
Proof using Hl Hw.
  intros Hp <-. unfold bucket_of. fold (xdist local p). pose proof (Z.log2_nonneg (xdist local p)).
  rewrite Z2Nat.id by (apply Z.div_pos; lia).
  pose proof (Z.mul_div_le (Z.log2 (xdist local p)) width Hw).
  pose proof (Z.mul_succ_div_gt (Z.log2 (xdist local p)) width Hw). lia.
Qed.

(** Nodes of the buckets below [m] and above the target's. *)
Lemma dist_below t x i j m :
  kad_id_ok t -> kad_id_ok x -> bucket_of local width t = i -> bucket_of local width x = j ->
  (i < m)%nat -> (j < m)%nat -> xdist t x < 2 ^ (Z.of_nat m * width).
Proof using Hl Hw.
  intros Ht Hx Hi Hj Him Hjm. pose proof (bucket_log2 t i Ht Hi). pose proof (bucket_log2 x j Hx Hj).
  pose proof (xdist_nonneg t x Ht Hx) as Hnn. pose proof (xdist_nonneg local t Hl Ht). pose proof (xdist_nonneg local x Hl Hx).
  destruct (decide (xdist t x = 0)) as [->|Hne]; [apply Z.pow_pos_nonneg; nia|].
  apply Z.log2_lt_pow2; [lia|]. rewrite xdist_via.
  pose proof (Z.log2_lxor (xdist local t) (xdist local x) ltac:(done) ltac:(done)). nia.
Qed.

Lemma dist_above t x i j :
  kad_id_ok t -> kad_id_ok x -> bucket_of local width t = i -> bucket_of local width x = j ->
  (i < j)%nat -> 2 ^ (Z.of_nat j * width) <= xdist t x.
Proof using Hl Hw.
  intros Ht Hx Hi Hj Hij. pose proof (bucket_log2 t i Ht Hi). pose proof (bucket_log2 x j Hx Hj) as Hc.
  pose proof (xdist_nonneg t x Ht Hx) as Hnn. pose proof (xdist_nonneg local t Hl Ht) as Hnt.
  pose proof (xdist_nonneg local x Hl Hx) as Hnx.
  set (b := Z.log2 (xdist local x)) in *. assert (Hpos : 0 < xdist local x).
  { destruct (decide (xdist local x = 0)) as [E|]; [|lia]. unfold b in Hc. rewrite E in Hc. simpl in Hc. nia. }
  assert (Hbit : Z.testbit (xdist t x) b = true).
  { rewrite xdist_via, Z.lxor_spec. unfold b at 2. rewrite Z.bit_log2 by done.
    rewrite Z.bits_above_log2; [done|done|]. nia. }
  apply Z.le_trans with (2 ^ b); [apply Z.pow_le_mono_r; lia|].
  destruct (Z.le_gt_cases (2 ^ b) (xdist t x)) as [|Hlt]; [done|exfalso].
  destruct (decide (xdist t x = 0)) as [E|]; [rewrite E, Z.testbit_0_l in Hbit; done|].
  rewrite Z.bits_above_log2 in Hbit; [done|done|]. apply Z.log2_lt_pow2; lia.
Qed.
End dist.

(* ------------------------------------------------------------------ *)
(** * The nodes a search looks at *)
(* ------------------------------------------------------------------ *)

(** What a filter leaves of a bucket: [drop a] is its answer. *)
Definition filter_drops (flt : option (kad_addr_t -> outcome bool)) (drop : kad_addr_t -> bool)
    (S : list (list bucknode_t)) : Prop :=
  forall n, n ∈ concat S ->
    match flt with Some f => f (bn_addr n) = Ok (drop (bn_addr n)) | None => drop (bn_addr n) = false end.

Section near.
Context (S : list (list bucknode_t)) (k : kbucket_t) (flt : option (kad_addr_t -> outcome bool))
  (drop_addr : kad_addr_t -> bool).
Hypothesis Hrep : kb_rep S k.
Hypothesis Hflt : filter_drops flt drop_addr S.

Definition kept (b : list bucknode_t) : list kad_addr_t :=
  filter (fun a => drop_addr a = false) (bn_addr <$> b).

(** The nodes kept of the buckets [lo] to [hi - 1]. *)
Definition window (lo hi : nat) : list kad_addr_t := concat (kept <$> take (hi - lo) (drop lo S)).

Lemma copy_to_spec b arr :
  (forall n, n ∈ b -> n ∈ concat S) -> copy_to (bn_id <$> b) flt k arr = Ok (arr ++ kept b).
Proof using Hrep Hflt.
  revert arr. induction b as [|n b IH]; intros arr Hb.
  { cbn. by rewrite app_nil_r. }
  rewrite fmap_cons. cbn [copy_to]. unfold bucknode_at.
  rewrite (proj2 (db_lookup (rep_db _ _ Hrep) (bn_id n) n)) by (split; [apply Hb; by left|done]).
  cbn [mbind outcome_bind]. pose proof (Hflt n (Hb n ltac:(by left))) as Hn.
  assert (Hout : match flt with Some f => f (bn_addr n) | None => Ok false end = Ok (drop_addr (bn_addr n))).
  { destruct flt; [done|by rewrite Hn]. }
  rewrite Hout. cbn [mbind outcome_bind]. unfold kept in *. rewrite fmap_cons.
  destruct (drop_addr (bn_addr n)) eqn:E.
  - rewrite filter_cons_False by congruence. apply IH. intros; apply Hb; by right.
  - rewrite filter_cons_True by done. rewrite IH by (intros; apply Hb; by right).
    unfold item_append. by rewrite <- app_assoc.
Qed.

Lemma window_right lo hi b :
  (lo <= hi)%nat -> S !! hi = Some b -> window lo (Datatypes.S hi) = window lo hi ++ kept b.
Proof using.
  clear. intros Hle Hb. unfold window. replace (Datatypes.S hi - lo)%nat with (Datatypes.S (hi - lo)) by lia.
  rewrite (take_S_r _ _ b) by (rewrite lookup_drop; by replace (lo + (hi - lo))%nat with hi by lia).
  rewrite fmap_app, concat_app. simpl. by rewrite app_nil_r.
Qed.

Lemma window_left lo hi b :
  (Datatypes.S lo <= hi)%nat -> S !! lo = Some b -> window lo hi = kept b ++ window (Datatypes.S lo) hi.
Proof using.
  clear. intros Hle Hb. unfold window. rewrite (drop_S _ b) by done.
  replace (hi - lo)%nat with (Datatypes.S (hi - Datatypes.S lo)) by lia. done.
Qed.

Lemma bucket_copied j :
  (j < length S)%nat -> exists b bl, S !! j = Some b /\ bucklist_at j k = Ok bl /\
    forall arr, copy_to (bucknode_lru bl) flt k arr = Ok (arr ++ kept b).
Proof using Hrep Hflt.
  intros Hj. destruct (lookup_lt_is_Some_2 S j Hj) as [b Hbj].
  pose proof (f_equal (fun l => l !! j) (rep_lru _ _ Hrep)) as Hx. cbn in Hx. rewrite !list_lookup_fmap, Hbj in Hx.
  unfold bucklist_at. destruct (bucklist_db k !! j) as [bl|]; [|done]. injection Hx as Hx.
  exists b, bl. split; [done|]. split; [done|]. intros arr. rewrite Hx. apply copy_to_spec.
  intros n Hn. by eapply elem_concat.
Qed.

(** The two halves of a turn of the loop. *)
Definition next_right (hi : nat) : nat := if decide (hi < length S)%nat then Datatypes.S hi else hi.

Lemma step_right lo hi tmp :
  (lo <= hi)%nat -> tmp ≡ₚ window lo hi ->
  exists tmp1, tmp1 ≡ₚ window lo (next_right hi) /\
    (if Z.of_nat hi <? Z.of_nat (length S) then
       let* b := bucklist_at (Z.to_nat (Z.of_nat hi)) k in
       let* t := copy_to (bucknode_lru b) flt k tmp in Ok (t, Z.of_nat hi + 1)
     else Ok (tmp, Z.of_nat hi)) = Ok (tmp1, Z.of_nat (next_right hi)).
Proof using Hrep Hflt.
  intros Hle Htmp. unfold next_right. destruct (decide (hi < length S)%nat) as [Hhi|Hhi].
  - rewrite (proj2 (Z.ltb_lt _ _)) by lia. rewrite Nat2Z.id.
    destruct (bucket_copied hi Hhi) as (b & bl & Hbj & -> & Hc).
    cbn [mbind outcome_bind]. rewrite Hc. cbn [mbind outcome_bind]. exists (tmp ++ kept b).
    split; [rewrite window_right with (b := b) by (done || lia); by rewrite Htmp|]. do 2 f_equal. lia.
  - rewrite (proj2 (Z.ltb_ge _ _)) by lia. by exists tmp.
Qed.

Lemma step_left lo hi tmp :
  (lo <= hi <= length S)%nat -> tmp ≡ₚ window lo hi ->
  exists tmp2, tmp2 ≡ₚ window (lo - 1) hi /\
    (if 0 <=? Z.of_nat lo - 1 then
       let* b := bucklist_at (Z.to_nat (Z.of_nat lo - 1)) k in
       let* t := copy_to (bucknode_lru b) flt k tmp in Ok (t, Z.of_nat lo - 1 - 1)
     else Ok (tmp, Z.of_nat lo - 1)) = Ok (tmp2, Z.of_nat (lo - 1) - 1).
Proof using Hrep Hflt.
  intros Hle Htmp. destruct (decide (lo = 0)%nat) as [->|Hlo].
  - exists tmp. done.
  - rewrite (proj2 (Z.leb_le _ _)) by lia. replace (Z.to_nat (Z.of_nat lo - 1)) with (lo - 1)%nat by lia.
    destruct (bucket_copied (lo - 1)%nat ltac:(lia)) as (b & bl & Hbj & -> & Hc). cbn [mbind outcome_bind].
    rewrite Hc. cbn [mbind outcome_bind]. exists (tmp ++ kept b). split; [|do 2 f_equal; lia].
    rewrite window_left with (b := b) by (done || lia). replace (Datatypes.S (lo - 1)) with lo by lia.
    rewrite Htmp. apply Permutation_app_comm.
Qed.

(** The loop from the window [lo, hi): it ends on a larger one. *)
Lemma nclosest_loop_spec max fuel lo hi tmp :
  (lo <= hi <= length S)%nat -> tmp ≡ₚ window lo hi -> (lo < fuel)%nat -> (length S - hi < fuel)%nat ->
  exists lo' hi' tmp', nclosest_loop fuel (Z.of_nat hi) (Z.of_nat lo - 1) max flt k tmp = Ok tmp' /\
    (lo' <= lo)%nat /\ (hi <= hi' <= length S)%nat /\ tmp' ≡ₚ window lo' hi' /\
    ((max <= length tmp')%nat \/ lo' = 0%nat /\ hi' = length S) /\
    (lo' = lo /\ hi' = hi \/ (hi < hi')%nat \/ hi = length S).
Proof using Hrep Hflt.
  revert lo hi tmp. induction fuel as [|fuel IH]; intros lo hi tmp Hb Htmp Hf1 Hf2; [lia|].
  cbn [nclosest_loop]. rewrite (rep_nb S k) by done.
  case_bool_decide as Hlen; [|exists lo, hi, tmp; split_and!; try done; try lia; left; done].
  destruct ((Z.of_nat lo - 1 <? 0) && (Z.of_nat (length S) <=? Z.of_nat hi)) eqn:E.
  { bool_to_prop. exists lo, hi, tmp. split; [done|]. split; [lia|]. split; [lia|]. split; [done|]. split; [right; lia|by left]. }
  destruct (step_right lo hi tmp ltac:(lia) Htmp) as (tmp1 & Htmp1 & ->). cbn [mbind outcome_bind].
  assert (Hh : (hi <= next_right hi <= length S)%nat) by (unfold next_right; destruct (decide _); lia).
  destruct (step_left lo (next_right hi) tmp1 ltac:(lia) Htmp1) as (tmp2 & Htmp2 & ->). cbn [mbind outcome_bind].
  assert (Hprog : (lo <> 0 \/ hi < length S)%nat) by (apply andb_false_iff in E as [E|E]; bool_to_prop; lia).
  destruct (IH (lo - 1)%nat (next_right hi) tmp2) as (lo' & hi' & tmp' & Hl & Hlo' & Hhi' & Hp & Hend & Hgrow); try done; try lia.
  - unfold next_right. destruct (decide _); lia.
  - exists lo', hi', tmp'. split; [done|]. split; [lia|]. split; [lia|]. split; [done|]. split; [done|].
    unfold next_right in *. destruct (decide (hi < length S)%nat); lia.
Qed.

Lemma kept_elem b x : x ∈ kept b <-> drop_addr x = false /\ exists n, n ∈ b /\ bn_addr n = x.
Proof using.
  clear. unfold kept. rewrite list_elem_of_filter, list_elem_of_fmap. firstorder.
Qed.

Lemma window_elem lo hi x :
  x ∈ window lo hi <-> exists j b, S !! j = Some b /\ (lo <= j < hi)%nat /\ x ∈ kept b.
Proof using.
  clear. unfold window. rewrite list_elem_of_In, in_concat. split.
  - intros (l & Hl & Hx). apply list_elem_of_In, list_elem_of_fmap in Hl as (b & -> & Hb).
    apply list_elem_of_lookup in Hb as [i Hi]. apply lookup_take_Some in Hi as [Hi Hlt].
    rewrite lookup_drop in Hi. exists (lo + i)%nat, b. split; [done|]. split; [lia|]. by apply list_elem_of_In.
  - intros (j & b & Hj & Hlt & Hx). exists (kept b). split; [|by apply list_elem_of_In].
    apply list_elem_of_In, list_elem_of_fmap. exists b. split; [done|]. apply (list_elem_of_lookup_2 _ (j - lo)).
    apply lookup_take_Some. rewrite lookup_drop. replace (lo + (j - lo))%nat with j by lia. split; [done|lia].
Qed.

Lemma window_all : window 0 (length S) = kept (concat S).
Proof using.
  clear. unfold window. rewrite Nat.sub_0_r, drop_0, take_ge by lia. unfold kept.
  induction S as [|b S' IH]; [done|]. rewrite fmap_cons. simpl. rewrite fmap_app, filter_app. by f_equal.
Qed.

Lemma window_sub lo hi : (hi <= length S)%nat -> exists rest, window lo hi ++ rest ≡ₚ kept (concat S).
Proof using.
  clear. intros Hhi. rewrite <- window_all. unfold window. rewrite Nat.sub_0_r, drop_0, (take_ge _ (length S)) by lia.
  exists (concat (kept <$> take lo S) ++ concat (kept <$> drop (hi - lo) (drop lo S))).
  transitivity (concat (kept <$> take lo S ++ take (hi - lo) (drop lo S) ++ drop (hi - lo) (drop lo S)));
    [|by rewrite !take_drop].
  rewrite !fmap_app, !concat_app, !app_assoc. apply Permutation_app_tail, Permutation_app_comm.
Qed.

Lemma kept_addrs_ok : addrs_ok (kept (concat S)).
Proof using Hrep.
  apply Forall_forall. intros x Hx. apply kept_elem in Hx as (_ & n & Hn & <-).
  destruct (node_in_own_bucket S k n Hrep Hn) as [Hp _]. exact Hp.
Qed.

(** The bucket of a kept node. *)
Lemma kept_bucket j b x :
  S !! j = Some b -> x ∈ kept b ->
  kad_id_ok (peerid x) /\ bucket_of (local_peerid k) (kbucket_width k) (peerid x) = j.
Proof using Hrep.
  intros Hj Hx. apply kept_elem in Hx as (_ & n & Hn & <-). destruct (rep_buckets _ _ Hrep j b Hj) as [_ Hok].
  destruct (proj1 (Forall_forall _ _) Hok n Hn) as [H _]. exact H.
Qed.

(** Nodes of the target's bucket and below are closer than those above. *)
Lemma far_bucket t x y j j' b b' :
  kad_id_ok t -> S !! j = Some b -> x ∈ kept b -> S !! j' = Some b' -> y ∈ kept b' ->
  (bucket_of (local_peerid k) (kbucket_width k) t < j)%nat -> (j' < j)%nat -> nearer_eq t y x.
Proof using Hrep.
  intros Ht Hj Hx Hj' Hy Hlt Hlt'. destruct (kept_bucket j b x Hj Hx) as [Hxok Hxb].
  destruct (kept_bucket j' b' y Hj' Hy) as [Hyok Hyb]. unfold nearer_eq.
  pose proof (rep_width _ _ Hrep) as [Hw _]. pose proof (rep_local _ _ Hrep) as Hl.
  pose proof (dist_below _ _ Hl Hw t (peerid y) _ j' j Ht Hyok eq_refl Hyb Hlt Hlt').
  pose proof (dist_above _ _ Hl Hw t (peerid x) _ j Ht Hxok eq_refl Hxb Hlt).
  unfold xdist in *. lia.
Qed.

Lemma get_nclosest_spec t max :
  kad_id_ok t ->
  let i := bucket_of (local_peerid k) (kbucket_width k) t in
  exists lo hi tmp, get_nclosest_addr t max flt k = Ok (take max (sort_by_dist t tmp)) /\
    (lo <= i)%nat /\ (i <= hi <= length S)%nat /\ tmp ≡ₚ window lo hi /\
    ((max <= length tmp)%nat \/ lo = 0%nat /\ hi = length S) /\ (lo = hi \/ (i < hi)%nat).
Proof using Hrep Hflt.
  intros Ht i. pose proof (rep_width _ _ Hrep) as Hw. pose proof (rep_local _ _ Hrep) as Hl.
  assert (Hi : (i < length S)%nat) by (by apply bucket_of_bound).
  assert (Hnil : [] ≡ₚ window i i) by (unfold window; by rewrite Nat.sub_diag).
  destruct (nclosest_loop_spec max (Datatypes.S (length (bucklist_db k))) i i [])
    as (lo & hi & tmp & Hloop & Hlo & Hhi & Hp & Hend & Hgrow); try done; rewrite ?(rep_nb S k) by done; try lia.
  rewrite (rep_nb S k) in Hloop by done.
  exists lo, hi, tmp. unfold get_nclosest_addr. rewrite (get_bucket_idx_spec k t (length S)) by done.
  cbn [mbind outcome_bind]. fold i. rewrite (rep_nb S k) by done. rewrite Hloop. cbn [mbind outcome_bind].
  split; [done|]. split; [done|]. split; [lia|]. split; [done|]. split; [done|]. lia.
Qed.
End near.

#[local] Existing Instances quad_lib quad_lib_laws.

Lemma sorted_split {A} (R : A -> A -> Prop) n l x y :
  StronglySorted R l -> x ∈ take n l -> y ∈ l -> y ∉ take n l -> R x y.
Proof.
  intros Hs Hx Hy Hny. rewrite <- (take_drop n l) in Hs, Hy. apply elem_of_app in Hy as [?|Hy]; [done|].
  by eapply StronglySorted_app_1_elem_of.
Qed.

(* ------------------------------------------------------------------ *)
(** * Theorems *)
(* ------------------------------------------------------------------ *)

(** C25. The nodes given in answer to a request: at most the number asked,
    fewer only when the whole table has fewer; each a node of the table that
    the filter keeps, none twice, sorted by their distance to the target; and
    no node left out is closer than one given, if it is in the target's own
    bucket or in one further away.  (A node of a nearer bucket may be left out:
    [nclosest_misses_closer].) *)
Theorem nclosest_correct (S : list (list bucknode_t)) (k : kbucket_t) (t : kad_id) (max : nat)
    (flt : option (kad_addr_t -> outcome bool)) (drop_addr : kad_addr_t -> bool)
    (Hrep : kb_rep S k) (Hflt : filter_drops flt drop_addr S) (Ht : kad_id_ok t) :
  let all := kept drop_addr (concat S) in
  exists r, get_nclosest_addr t max flt k = Ok r /\
    length r = Nat.min max (length all) /\
    (exists rest, r ++ rest ≡ₚ all) /\
    StronglySorted (nearer_eq t) r /\
    forall j b x y, S !! j = Some b -> x ∈ kept drop_addr b -> x ∉ r -> y ∈ r ->
      (bucket_of (local_peerid k) (kbucket_width k) t <= j)%nat -> nearer_eq t y x.
Proof.
  intros all. destruct (get_nclosest_spec S k flt drop_addr Hrep Hflt t max Ht)
    as (lo & hi & tmp & Hr & Hlo & Hhi & Hp & Hend & Hgrow).
  set (i := bucket_of _ _ t) in *. exists (take max (sort_by_dist t tmp)). split; [done|].
  destruct (window_sub S drop_addr lo hi ltac:(lia)) as (rest & Hrest). fold all in Hrest. rewrite <- Hp in Hrest.
  assert (Hok : addrs_ok tmp).
  { pose proof (kept_addrs_ok S k drop_addr Hrep) as Hall. fold all in Hall. unfold addrs_ok in *.
    rewrite <- Hrest in Hall. by apply Forall_app in Hall as [? _]. }
  destruct (sort_by_dist_spec t tmp Ht Hok) as [Hperm Hsorted].
  assert (Hlen : (length tmp <= length all)%nat) by (rewrite <- (Permutation_length Hrest), length_app; lia).
  split.
  { rewrite length_take, (Permutation_length Hperm). destruct Hend as [|[-> ->]]; [lia|].
    rewrite window_all in Hp. fold all in Hp. rewrite (Permutation_length Hp). done. }
  split.
  { exists (drop max (sort_by_dist t tmp) ++ rest). by rewrite app_assoc, take_drop, Hperm. }
  split.
  { rewrite <- (take_drop max (sort_by_dist t tmp)) in Hsorted. by eapply StronglySorted_app_1_l. }
  intros j b x y Hj Hx Hnx Hy Hij. destruct (decide (j < hi)%nat) as [Hjhi|Hjhi].
  - apply (sorted_split _ max (sort_by_dist t tmp)); try done. rewrite Hperm, Hp. apply window_elem.
    exists j, b. split; [done|]. split; [lia|done].
  - assert (Hy' : y ∈ window S drop_addr lo hi).
    { rewrite <- Hp, <- Hperm. rewrite <- (take_drop max (sort_by_dist t tmp)). apply elem_of_app. by left. }
    apply window_elem in Hy' as (j' & b' & Hj' & Hlt & Hy'). apply (far_bucket S k drop_addr Hrep t x y j j' b b'); try done; lia.
Qed.

Lemma log2_lxor_dom a b : 0 <= a -> 0 <= b -> Z.log2 b < Z.log2 a -> Z.log2 (Z.lxor a b) = Z.log2 a.
Proof.
  intros Ha Hb Hlt. pose proof (Z.log2_nonneg b). assert (Hpos : 0 < a).
  { destruct (decide (a = 0)) as [->|]; [simpl in Hlt; lia|lia]. }
  pose proof (Z.log2_lxor a b Ha Hb) as Hub.
  assert (Hbit : Z.testbit (Z.lxor a b) (Z.log2 a) = true).
  { rewrite Z.lxor_spec, Z.bit_log2 by done. by rewrite (Z.bits_above_log2 b). }
  assert (Hnn : 0 <= Z.lxor a b) by (apply Z.lxor_nonneg; lia).
  destruct (Z.lt_ge_cases (Z.log2 (Z.lxor a b)) (Z.log2 a)) as [Hl|]; [|lia].
  rewrite Z.bits_above_log2 in Hbit; done.
Qed.

(** The refresh of a bucket searches the wrong identifiers: the identifier
    drawn has its own highest bit in the bucket's group, where its distance to
    the local identifier should.  With [h] the group of the highest bit of the
    local identifier, refreshing a bucket below [h] always searches in bucket
    [h]; only the buckets above [h] are refreshed as intended. *)
Theorem refresh_targets (S : list (list bucknode_t)) (k : kbucket_t) (idx : nat) (rand : list kad_id)
    (Hrep : kb_rep S k) (Hidx : (idx < length S)%nat) (Hrand : rand_ok (kbucket_width k) idx rand)
    (Hnot : exists b, bucklist_db k !! idx = Some b /\ is_refreshing b = false) :
  let h := Z.to_nat (Z.log2 (be_value (local_peerid k)) / kbucket_width k) in
  exists r k', trigger_refresh_now idx rand true k = Ok k' /\
    kb_out k' = kb_out k ++ [SearchNode r idx] /\
    ((idx < h)%nat -> get_bucket_idx r k = Ok h) /\
    ((h < idx)%nat -> get_bucket_idx r k = Ok idx).
Proof.
  intros h. pose proof (rep_width _ _ Hrep) as Hw. pose proof (rep_local _ _ Hrep) as Hl.
  destruct Hnot as (b & Hb & Hnr). destruct (pick_refresh_spec S k idx rand Hrep Hidx Hrand) as (r & Hr & Hrok & Hri).
  exists r. eexists. split.
  { unfold trigger_refresh_now, bucklist_at. rewrite Hb. cbn [mbind outcome_bind]. rewrite Hnr, Hr. done. }
  split; [done|]. rewrite (get_bucket_idx_spec k r (length S)) by done. destruct Hw as [Hw _].
  unfold bucket_of. set (l := be_value (local_peerid k)) in *. set (v := be_value r) in *. set (w := kbucket_width k) in *.
  assert (Hl0 : 0 <= l) by (apply id_value_bound in Hl; apply Hl).
  assert (Hv0 : 0 <= v) by (apply id_value_bound in Hrok; apply Hrok).
  pose proof (Z.log2_nonneg l). pose proof (Z.log2_nonneg v). pose proof (Z.div_pos (Z.log2 l) w).
  pose proof (Z.mul_div_le (Z.log2 l) w Hw). pose proof (Z.mul_succ_div_gt (Z.log2 l) w Hw).
  pose proof (Z.mul_div_le (Z.log2 v) w Hw). pose proof (Z.mul_succ_div_gt (Z.log2 v) w Hw).
  split; intros Hlt.
  - rewrite log2_lxor_dom; [done|done|done|]. unfold h in Hlt. nia.
  - rewrite Z.lxor_comm, log2_lxor_dom; [|done|done|unfold h in Hlt; nia]. f_equal. lia.
Qed.

(** A closer node is left out, in a table built by messages received: the
    buckets are searched by turns on both sides of the target's, and a far one
    that has enough nodes stops the search before the nearer ones are looked
    at, although all their nodes are closer. *)
Theorem nclosest_misses_closer :
  exists (H : InetLib) profile k t a b,
    (exists lview local es k0, kbucket_ctor profile lview local true = Ok k0 /\
       events_ok profile es k0 /\ kb_run profile es k0 = Ok k) /\
    get_nclosest_addr t 1 None k = Ok [a] /\
    bucknode_db k !! peerid b = Some (Bucknode b None) /\
    xdist t (peerid b) < xdist t (peerid a).
Proof.
  set (id (i : nat) (v : Z) := <[(19 - i)%nat := v]> (ex_id 0)).
  set (addr i v := KadAddr (Ipport (V4 0x01020304) 4000) (id i v)).
  set (es := [EvSrcKaddr (addr 5%nat 1) true; EvSrcKaddr (addr 1%nat 1) true]).
  destruct (kbucket_ctor ex_profile (Ipport (V4 0) 4000) (ex_id 0) true) as [k0| | |] eqn:Hk0;
    [|vm_compute in Hk0; discriminate..].
  assert (Hes : events_ok ex_profile es k0).
  { apply events_okb_ok. vm_compute in Hk0. injection Hk0 as <-. vm_compute. reflexivity. }
  destruct (kb_run ex_profile es k0) as [k| | |] eqn:Hk;
    [|vm_compute in Hk0; injection Hk0 as <-; vm_compute in Hk; discriminate..].
  exists quad_lib, ex_profile, k, (id 4%nat 1), (addr 5%nat 1), (addr 1%nat 1).
  split; [exists (Ipport (V4 0) 4000), (ex_id 0), es, k0; done|].
  vm_compute in Hk0. injection Hk0 as <-. vm_compute in Hk. injection Hk as <-.
  split; [vm_compute; reflexivity|]. split; [vm_compute; reflexivity|]. vm_compute. reflexivity.
Qed.

(* ------------------------------------------------------------------ *)
(** * Witnesses *)
(* ------------------------------------------------------------------ *)

Lemma ex_table_rep : exists k0 k, kbucket_ctor ex_profile (Ipport (V4 0) 4000) (ex_id 0) true = Ok k0 /\
  kb_run ex_profile ex_events k0 = Ok k /\
  kb_rep ([Bucknode (ex_addr 3) None] :: replicate 19 []) k.
Proof.
  destruct (kbucket_ctor_rep ex_profile (Ipport (V4 0) 4000) (ex_id 0) true true ex_id_ok eq_refl eq_refl
    ex_any ex_qualified) as (k0 & Hk0 & Hr0).
  assert (Hes : events_ok ex_profile ex_events k0).
  { apply events_okb_ok. vm_compute in Hk0. injection Hk0 as <-. vm_compute. reflexivity. }
  destruct (kb_run_refines ex_profile _ _ _ ex_events _ _ Hr0 Hes) as (k & Hk & Hrep & _).
  exists k0, k. split; [done|]. split; [done|].
  replace ([Bucknode (ex_addr 3) None] :: replicate 19 []) with
    (spec_run ex_profile (ex_id 0) (profile_kbucket_width ex_profile) (nb_replication ex_profile) ex_events
       (spec_init ex_profile (ex_id 0) (local_addr (Ipport (V4 0) 4000) true (ex_id 0)) true)).1
    by (vm_compute; reflexivity). exact Hrep.
Qed.

Lemma nclosest_correct_witness :
  exists k r, get_nclosest_addr (ex_id 9) 20 None k = Ok r /\ length r = 1%nat.
Proof.
  destruct ex_table_rep as (k0 & k & _ & _ & Hrep). exists k.
  destruct (nclosest_correct _ k (ex_id 9) 20 None (fun _ => false) Hrep) as (r & Hr & Hlen & _).
  - intros n _. reflexivity.
  - apply kad_id_okb_ok. reflexivity.
  - exists r. split; [exact Hr|]. rewrite Hlen. reflexivity.
Defined.

(** The local identifier has its highest bit in the last bucket: refreshing
    the first one searches in the last. *)
Lemma refresh_targets_witness :
  exists k r k', trigger_refresh_now 0 [ex_id 1] true k = Ok k' /\
    kb_out k' = kb_out k ++ [SearchNode r 0] /\ get_bucket_idx r k = Ok 19%nat.
Proof.
  destruct ex_table_rep as (k0 & k & Hk0 & Hk & Hrep).
  assert (Hk' : local_peerid k = ex_id 0 /\ kbucket_width k = 8 /\
    exists b, bucklist_db k !! 0%nat = Some b /\ is_refreshing b = false).
  { clear Hrep. vm_compute in Hk0. injection Hk0 as <-. vm_compute in Hk. injection Hk as <-.
    split; [reflexivity|]. split; [reflexivity|]. eexists. split; reflexivity. }
  destruct Hk' as (Hl & Hw & Hb).
  destruct (refresh_targets _ k 0 [ex_id 1] Hrep) as (r & k' & Hr & Hout & Hlow & _).
  - simpl. lia.
  - rewrite Hw. split; [|by left]. apply Forall_singleton, kad_id_okb_ok. reflexivity.
  - exact Hb.
  - exists k, r, k'. split; [exact Hr|]. split; [exact Hout|]. rewrite Hl, Hw in Hlow. apply Hlow. vm_compute. lia.
Defined.
