(* ===== verification/KadRec.v ===== *)
(** Records of the distributed database and sets of records with one key:
    [kad_rec_t] and [kad_recdups_t] (src/src/neoip_kad/base/record/).

    The specification of a [kad_recdups_t] is the update of a map from record
    identifiers to values where the longest lifetime wins.  Its wire form does
    not satisfy [CodecLaws]: an empty set does not come back alone. *)
From S2P Require Import Prelude Serial Codec GenId InetAddr ItemArr KadAddr.

(* ------------------------------------------------------------------ *)
(** * kad_rec_t *)
(* ------------------------------------------------------------------ *)

(** [ttl] is a [delay_t]: milliseconds in 64 bits. *)
Record kad_rec_t := KadRec { recid : kad_id; keyid : kad_id; rec_payload : list Z; rec_ttl : Z }.

Definition rec_is_null (r : kad_rec_t) : bool := id_is_null KAD_ID_SIZE (keyid r).

Definition is_tie_winner_against (r other : kad_rec_t) : outcome bool :=
  assert! id_eq KAD_ID_SIZE (recid r) (recid other) in
  if rec_ttl r <? rec_ttl other then Ok false else Ok true.

Definition delay_codec : codec Z := u64_codec.

Definition put_kad_rec (r : kad_rec_t) (s : serial_t) : outcome serial_t :=
  let* s1 := put_id (recid r) s in
  let* s2 := put_id (keyid r) s1 in
  let* s3 := put_datum (rec_payload r) s2 in
  put_u64 (rec_ttl r) s3.
Definition get_kad_rec (s : serial_t) : outcome (kad_rec_t * serial_t) :=
  let* (recid, s1) := get_id KAD_ID_SIZE s in
  let* (keyid, s2) := get_id KAD_ID_SIZE s1 in
  let* (payload, s3) := get_datum s2 in
  let* (ttl, s4) := get_u64 s3 in
  Ok (KadRec recid keyid payload ttl, s4).

(* ------------------------------------------------------------------ *)
(** * kad_recdups_t *)
(* ------------------------------------------------------------------ *)

Record recval_t := Recval { rv_recid : kad_id; rv_payload : list Z; rv_ttl : Z }.
Definition recval_of (r : kad_rec_t) : recval_t := Recval (recid r) (rec_payload r) (rec_ttl r).
Definition recval_lt (a b : recval_t) : bool := id_compare KAD_ID_SIZE (rv_recid a) (rv_recid b) <? 0.

Record kad_recdups_t := Recdups { rd_keyid : kad_id; recval_db : list recval_t }.
Definition recdups_null : kad_recdups_t := Recdups kad_id_null [].
Definition recdups_size (d : kad_recdups_t) : nat := length (recval_db d).

Definition sort_by_recid (d : kad_recdups_t) : kad_recdups_t :=
  Recdups (rd_keyid d) (std_sort recval_lt (recval_db d)).

(** The position of the first record with this identifier. *)
Fixpoint get_by_recid (recid : kad_id) (db : list recval_t) : option nat :=
  match db with
  | [] => None
  | rv :: db' =>
    if id_eq KAD_ID_SIZE (rv_recid rv) recid then Some O else S <$> get_by_recid recid db'
  end.

(** [kad_rec_t(recval.recid, keyid, recval.ttl, recval.payload)]. *)
Definition rec_of (keyid : kad_id) (rv : recval_t) : kad_rec_t :=
  KadRec (rv_recid rv) keyid (rv_payload rv) (rv_ttl rv).

(** [operator[]] *)
Definition recdups_get (idx : nat) (d : kad_recdups_t) : outcome kad_rec_t :=
  match recval_db d !! idx with Some rv => Ok (rec_of (rd_keyid d) rv) | None => AssertFail end.

Definition recdups_push (r : kad_rec_t) (d : kad_recdups_t) : outcome kad_recdups_t :=
  let k := if id_is_null KAD_ID_SIZE (rd_keyid d) then keyid r else rd_keyid d in
  assert! id_eq KAD_ID_SIZE k (keyid r) in
  Ok (Recdups k (recval_db d ++ [recval_of r])).

Definition recdups_update (r : kad_rec_t) (d : kad_recdups_t) : outcome kad_recdups_t :=
  match get_by_recid (recid r) (recval_db d) with
  | Some i =>
    let* local := recdups_get i d in
    let* winner := is_tie_winner_against local r in
    if (winner : bool) then Ok d else recdups_push r (Recdups (rd_keyid d) (delete i (recval_db d)))
  | None => recdups_push r d
  end.

Fixpoint recdups_update_loop (rs : list kad_rec_t) (d : kad_recdups_t) : outcome kad_recdups_t :=
  match rs with
  | [] => Ok d
  | r :: rs' => let* d1 := recdups_update r d in recdups_update_loop rs' d1
  end.
(** [other[0]], [other[1]], ... *)
Definition recdups_recs (d : kad_recdups_t) : list kad_rec_t := rec_of (rd_keyid d) <$> recval_db d.
Definition recdups_update_all (other d : kad_recdups_t) : outcome kad_recdups_t :=
  recdups_update_loop (recdups_recs other) d.

(** [pop_back] of an empty vector is undefined. *)
Fixpoint pop_backs {A} (nb : nat) (l : list A) : outcome (list A) :=
  match nb with
  | O => Ok l
  | S nb' => match l with [] => Fault | _ => pop_backs nb' (removelast l) end
  end.
Definition truncate_at_tail (nb_rec_to_del : nat) (d : kad_recdups_t) : outcome kad_recdups_t :=
  let* db := pop_backs nb_rec_to_del (recval_db d) in Ok (Recdups (rd_keyid d) db).

(** One pair of random positions per record; [neoip_rand(n)] is below [n]. *)
Fixpoint swap_loop {A} (idxs : list (nat * nat)) (l : list A) : outcome (list A) :=
  match idxs with
  | [] => Ok l
  | (idx1, idx2) :: idxs' =>
    match l !! idx1, l !! idx2 with
    | Some a, Some b => swap_loop idxs' (<[idx2 := a]> (<[idx1 := b]> l))
    | _, _ => Fault
    end
  end.
Definition randomize_order (rand : nat -> nat * nat) (d : kad_recdups_t) : outcome kad_recdups_t :=
  let* db := swap_loop (rand <$> seq 0 (length (recval_db d))) (recval_db d) in
  Ok (Recdups (rd_keyid d) db).

(* ------------------------------------------------------------------ *)
(** * The length of the wire form *)
(* ------------------------------------------------------------------ *)

(** They serialize null values in a fresh [serial_t] and take its length. *)
Definition get_serial_hd_main : outcome nat :=
  let* s1 := put_u32 0 serial_null in
  let* s2 := put_id kad_id_null s1 in
  Ok (used_length s2).
Definition get_serial_hd_per_rec : outcome nat :=
  let* s1 := put_id kad_id_null serial_null in
  let* s2 := put_datum [] s1 in
  let* s3 := put_u64 0xFFFFFFFFFFFFFFF s2 in
  Ok (used_length s3).

(** The loop shared by the two functions below; [0] is no limit. *)
Fixpoint count_fitting (hd max_len cur_len : nat) (db : list recval_t) : nat :=
  match db with
  | [] => O
  | rv :: db' =>
    let rec_len := (hd + length (rv_payload rv))%nat in
    if bool_decide (max_len <> 0)%nat && bool_decide (max_len < cur_len + rec_len)%nat then O
    else S (count_fitting hd max_len (cur_len + rec_len) db')
  end.

Definition nb_serialized_rec_in_size (max_len : nat) (d : kad_recdups_t) : outcome nat :=
  let* cur_len := get_serial_hd_main in
  assert! bool_decide (max_len = 0 \/ cur_len <= max_len)%nat in
  let* hd := get_serial_hd_per_rec in
  Ok (count_fitting hd max_len cur_len (recval_db d)).

Definition truncate_to_serial_len (max_len : nat) (d : kad_recdups_t) : outcome (nat * kad_recdups_t) :=
  let* cur_len := get_serial_hd_main in
  assert! bool_decide (max_len = 0 \/ cur_len <= max_len)%nat in
  let* hd := get_serial_hd_per_rec in
  let nb_rec := count_fitting hd max_len cur_len (recval_db d) in
  let nb_to_remove := (length (recval_db d) - nb_rec)%nat in
  let* db := pop_backs nb_to_remove (recval_db d) in
  Ok (nb_to_remove, Recdups (rd_keyid d) db).

(* ------------------------------------------------------------------ *)
(** * Serialization *)
(* ------------------------------------------------------------------ *)

Definition recval_codec : codec recval_t :=
  map_codec (pair_codec (id_codec KAD_ID_SIZE) (pair_codec datum_codec delay_codec))
    (fun p => Recval p.1 p.2.1 p.2.2) (fun rv => (rv_recid rv, (rv_payload rv, rv_ttl rv))).
#[export] Instance delay_laws : CodecLaws delay_codec := u64_laws.
#[export] Instance recval_laws : CodecLaws recval_codec.
Proof. apply (map_laws _ _ _); [by intros []|by intros [? []]]. Qed.

Definition kad_rec_codec : codec kad_rec_t :=
  map_codec (pair_codec (id_codec KAD_ID_SIZE) (pair_codec (id_codec KAD_ID_SIZE) (pair_codec datum_codec delay_codec)))
    (fun p => KadRec p.1 p.2.1 p.2.2.1 p.2.2.2)
    (fun r => (recid r, (keyid r, (rec_payload r, rec_ttl r)))).
Definition put_recval (rv : recval_t) (s : serial_t) : outcome serial_t :=
  let* s1 := put_id (rv_recid rv) s in
  let* s2 := put_datum (rv_payload rv) s1 in
  put_u64 (rv_ttl rv) s2.
Fixpoint put_recvals (db : list recval_t) (s : serial_t) : outcome serial_t :=
  match db with
  | [] => Ok s
  | rv :: db' => let* s1 := put_recval rv s in put_recvals db' s1
  end.
Definition put_recdups (d : kad_recdups_t) (s : serial_t) : outcome serial_t :=
  let* s1 := put_u32 (wrap 32 (Z.of_nat (recdups_size d))) s in
  let* s2 := put_id (rd_keyid d) s1 in
  put_recvals (recval_db d) s2.

Definition get_recval (s : serial_t) : outcome (recval_t * serial_t) :=
  let* (recid, s1) := get_id KAD_ID_SIZE s in
  let* (payload, s2) := get_datum s1 in
  let* (ttl, s3) := get_u64 s2 in
  Ok (Recval recid payload ttl, s3).
Fixpoint get_recvals (nb_rec : nat) (keyid : kad_id) (d : kad_recdups_t) (s : serial_t)
    : outcome (kad_recdups_t * serial_t) :=
  match nb_rec with
  | O => Ok (d, s)
  | S n =>
    let* (rv, s1) := get_recval s in
    let* d1 := recdups_update (rec_of keyid rv) d in
    get_recvals n keyid d1 s1
  end.
Definition get_recdups (s : serial_t) : outcome (kad_recdups_t * serial_t) :=
  let* (nb_rec, s1) := get_u32 s in
  if nb_rec =? 0 then Ok (recdups_null, s1)
  else
    let* (keyid, s2) := get_id KAD_ID_SIZE s1 in
    get_recvals (Z.to_nat nb_rec) keyid recdups_null s2.

(** The same on byte strings. *)
Definition wire_put_recdups (d : kad_recdups_t) : list Z :=
  be_bytes 4 (Z.of_nat (recdups_size d)) ++ rd_keyid d ++ concat (wire_put recval_codec <$> recval_db d).
Definition wire_get_recdups (l : list Z) : outcome (kad_recdups_t * list Z) :=
  let* (nb_rec, l1) := wire_get u32_codec l in
  if nb_rec =? 0 then Ok (recdups_null, l1)
  else
    let* (keyid, l2) := wire_get (id_codec KAD_ID_SIZE) l1 in
    let* (db, l3) := wire_get_item_list recval_codec (Z.to_nat nb_rec) l2 in
    let* d := recdups_update_loop (rec_of keyid <$> db) recdups_null in
    Ok (d, l3).

(* ------------------------------------------------------------------ *)
(** * Lemmas: updates *)
(* ------------------------------------------------------------------ *)

Definition rv_ok (rv : recval_t) : Prop := codec_ok recval_codec rv.
Definition recdups_ok (d : kad_recdups_t) : Prop :=
  kad_id_ok (rd_keyid d) /\ Forall rv_ok (recval_db d) /\ NoDup (rv_recid <$> recval_db d).

Lemma kad_id_null_ok : kad_id_ok kad_id_null.
Proof. apply build_null_ok. Qed.
Lemma recdups_null_ok : recdups_ok recdups_null.
Proof. split; [apply kad_id_null_ok|]. split; [done|constructor]. Qed.

Lemma rec_of_recval k r : keyid r = k -> rec_of k (recval_of r) = r.
Proof. intros <-. by destruct r. Qed.

Lemma get_by_recid_spec i db :
  kad_id_ok i -> Forall (fun rv => kad_id_ok (rv_recid rv)) db ->
  match get_by_recid i db with
  | Some j => exists rv, db !! j = Some rv /\ rv_recid rv = i
  | None => i ∉ rv_recid <$> db
  end.
Proof.
  intros Hi. induction 1 as [|rv db Hrv Hdb IH]; cbn [get_by_recid]; [apply not_elem_of_nil|].
  rewrite id_eq_spec by done. case_bool_decide as E; [by exists rv|].
  destruct (get_by_recid i db) as [j|]; [exact IH|]. cbn. by rewrite not_elem_of_cons.
Qed.

(** [rs] were given in this order, all with the key [k]: the set has, for each
    identifier, the first of the longest-lived records. *)
Definition longest_first (rs : list kad_rec_t) (r : kad_rec_t) : Prop :=
  exists rs1 rs2, rs = rs1 ++ r :: rs2 /\
    Forall (fun r' => recid r' = recid r -> rec_ttl r' < rec_ttl r) rs1 /\
    Forall (fun r' => recid r' = recid r -> rec_ttl r' <= rec_ttl r) rs2.
Definition dups_of (k : kad_id) (rs : list kad_rec_t) (d : kad_recdups_t) : Prop :=
  NoDup (rv_recid <$> recval_db d) /\
  Forall (fun rv => longest_first rs (rec_of k rv)) (recval_db d) /\
  (forall i, i ∈ recid <$> rs -> i ∈ rv_recid <$> recval_db d) /\
  rd_keyid d = (if decide (rs = []) then kad_id_null else k).

Lemma longest_app rs r r' :
  longest_first rs r -> (recid r' = recid r -> rec_ttl r' <= rec_ttl r) -> longest_first (rs ++ [r']) r.
Proof.
  intros (rs1 & rs2 & -> & H1 & H2) H. exists rs1, (rs2 ++ [r']).
  split; [by rewrite <- app_assoc|]. split; [done|]. by apply Forall_app_2; [|constructor].
Qed.

Lemma longest_new rs r :
  Forall (fun r' => recid r' = recid r -> rec_ttl r' < rec_ttl r) rs -> longest_first (rs ++ [r]) r.
Proof. intros H. exists rs, []. done. Qed.

Lemma longest_bound rs r :
  longest_first rs r -> Forall (fun r' => recid r' = recid r -> rec_ttl r' <= rec_ttl r) rs.
Proof.
  intros (rs1 & rs2 & -> & H1 & H2). apply Forall_app. split; [|by constructor].
  eapply Forall_impl; [exact H1|]. simpl. intros x Hx E. specialize (Hx E). lia.
Qed.

Lemma longest_key rs r i : longest_first rs r -> recid r = i -> i ∈ recid <$> rs.
Proof. intros (rs1 & rs2 & -> & _) <-. rewrite fmap_app, fmap_cons. apply elem_of_app. right. constructor. Qed.

Lemma push_spec k r d :
  kad_id_ok k -> keyid r = k -> rd_keyid d = kad_id_null \/ rd_keyid d = k ->
  recdups_push r d = Ok (Recdups k (recval_db d ++ [recval_of r])).
Proof.
  intros Hk <- Hd. unfold recdups_push.
  assert ((if id_is_null KAD_ID_SIZE (rd_keyid d) then keyid r else rd_keyid d) = keyid r) as ->.
  { destruct Hd as [->| ->]; [by vm_compute|]. by case_match. }
  by rewrite id_eq_spec, bool_decide_eq_true_2 by done.
Qed.

Lemma dups_push k rs r db :
  keyid r = k -> NoDup (rv_recid <$> db) -> recid r ∉ rv_recid <$> db ->
  Forall (fun r' => recid r' = recid r -> rec_ttl r' < rec_ttl r) rs ->
  Forall (fun rv => longest_first rs (rec_of k rv)) db ->
  (forall i, i ∈ recid <$> rs -> i <> recid r -> i ∈ rv_recid <$> db) ->
  dups_of k (rs ++ [r]) (Recdups k (db ++ [recval_of r])).
Proof.
  intros Hk Hnd Hnew Hlt Hall Hin. split; [|split; [|split]]; cbn [recval_db rd_keyid].
  - rewrite fmap_app. apply NoDup_app. split; [done|]. split; [|apply NoDup_singleton].
    intros i Hi ->%list_elem_of_singleton. done.
  - apply Forall_app. split.
    + rewrite Forall_forall in Hall |- *. intros rv Hrv. apply longest_app; [by apply Hall|].
      intros E. contradict Hnew. rewrite E. exact (list_elem_of_fmap_2 rv_recid db rv Hrv).
    + constructor; [|done]. replace (rec_of k (recval_of r)) with r by (destruct r; simpl in *; by subst).
      by apply longest_new.
  - intros i. rewrite !fmap_app. intros [Hi|Hi]%elem_of_app; [|by apply elem_of_app; right].
    destruct (decide (i = recid r)) as [->|Hne]; [apply elem_of_app; right; constructor|]. apply elem_of_app. left. by apply Hin.
  - rewrite decide_False; [done|]. by destruct rs.
Qed.

Lemma dups_ids k rs d :
  Forall (fun r => kad_id_ok (recid r)) rs -> dups_of k rs d -> Forall (fun rv => kad_id_ok (rv_recid rv)) (recval_db d).
Proof.
  intros Hrs (_ & Hall & _). eapply Forall_impl; [exact Hall|]. intros rv (rs1 & rs2 & -> & _).
  apply Forall_app in Hrs as [_ Hrs]. by inversion Hrs.
Qed.

Lemma dups_same_id k rs d rv r :
  dups_of k rs d -> rv ∈ recval_db d -> rec_ttl r <= rv_ttl rv -> rv_recid rv = recid r ->
  dups_of k (rs ++ [r]) d.
Proof.
  intros (Hnd & Hall & Hin & Hk) Hrv Httl Hid. split; [done|]. split; [|split].
  - rewrite Forall_forall in Hall |- *. intros rv' Hrv'. apply longest_app; [by apply Hall|]. intros E.
    replace rv' with rv; [done|].
    apply list_elem_of_lookup in Hrv as [i Hi]. apply list_elem_of_lookup in Hrv' as [i' Hi'].
    assert (i = i') as <-; [|congruence].
    apply (NoDup_lookup _ _ _ (rv_recid rv) Hnd); rewrite list_lookup_fmap; [by rewrite Hi|].
    rewrite Hi'. simpl in *. congruence.
  - intros i. rewrite fmap_app. intros [Hi|Hi]%elem_of_app; [by apply Hin|].
    apply list_elem_of_singleton in Hi as ->. rewrite <- Hid. by apply list_elem_of_fmap_2.
  - rewrite Forall_forall in Hall. destruct (Hall rv Hrv) as (rs1 & rs2 & E & _).
    rewrite Hk, !decide_False; [done|by destruct rs|by destruct rs1; subst].
Qed.

Lemma dups_update k rs r d :
  kad_id_ok k -> keyid r = k -> kad_id_ok (recid r) -> Forall (fun r => kad_id_ok (recid r)) rs ->
  dups_of k rs d -> exists d', recdups_update r d = Ok d' /\ dups_of k (rs ++ [r]) d'.
Proof.
  intros Hk Hr Hid Hrs Hd. pose proof Hd as (Hnd & Hall & Hin & Hkey).
  assert (Hkey' : rd_keyid d = kad_id_null \/ rd_keyid d = k) by (rewrite Hkey; case_decide; auto).
  unfold recdups_update. pose proof (get_by_recid_spec (recid r) _ Hid (dups_ids k rs d Hrs Hd)) as Hg.
  destruct (get_by_recid _ _) as [j|].
  - destruct Hg as (rv & Hj & Hrv). unfold recdups_get. rewrite Hj. cbn [mbind outcome_bind].
    unfold is_tie_winner_against. cbn [rec_of recid rec_ttl].
    rewrite Hrv, id_eq_spec, bool_decide_eq_true_2 by done. cbn [dbg_assert].
    destruct (Z.ltb_spec (rv_ttl rv) (rec_ttl r)) as [Hlt|Hge]; cbn [mbind outcome_bind].
    + rewrite (push_spec k) by done. eexists. split; [done|]. cbn [recval_db rd_keyid].
      rewrite delete_take_drop. pose proof (take_drop_middle _ _ _ Hj) as E.
      set (l1 := take j (recval_db d)) in *. set (l2 := drop (S j) (recval_db d)) in *.
      rewrite <- E in Hnd, Hall, Hin. rewrite fmap_app, fmap_cons in Hnd. rewrite Hrv in Hnd.
      apply Forall_app in Hall as [Ha1 [Ha2 Ha3]%Forall_cons].
      apply dups_push; [done| | | |by apply Forall_app_2|].
      * rewrite fmap_app. apply NoDup_app in Hnd as (? & Hd2 & [_ ?]%NoDup_cons). apply NoDup_app.
        split; [done|]. split; [|done]. intros i Hi Hi2. apply (Hd2 i Hi). by constructor.
      * rewrite fmap_app. intros [Hi|Hi]%elem_of_app; apply NoDup_app in Hnd as (_ & Hd2 & [Hd3 _]%NoDup_cons); [|done].
        apply (Hd2 _ Hi). constructor.
      * eapply Forall_impl; [exact (longest_bound _ _ Ha2)|]. cbn. rewrite Hrv. intros r' Hr' Ei. specialize (Hr' Ei). lia.
      * intros i Hi Hne. specialize (Hin i Hi). rewrite fmap_app, fmap_cons in Hin. rewrite fmap_app.
        apply elem_of_app. apply elem_of_app in Hin as [?|Hin]; [by left|].
        apply elem_of_cons in Hin as [?|?]; [congruence|by right].
    + exists d. split; [done|]. apply (dups_same_id k rs d rv); [done|by eapply list_elem_of_lookup_2|lia|done].
  - rewrite (push_spec k) by done. eexists. split; [done|]. apply dups_push; [done|done|done| |done|].
    + apply Forall_forall. intros r' Hr' E. destruct Hg. rewrite <- E. apply Hin. by apply list_elem_of_fmap_2.
    + intros i Hi _. by apply Hin.
Qed.

Lemma dups_update_loop k rs0 rs d :
  kad_id_ok k -> Forall (fun r => keyid r = k /\ kad_id_ok (recid r)) rs ->
  Forall (fun r => kad_id_ok (recid r)) rs0 -> dups_of k rs0 d ->
  exists d', recdups_update_loop rs d = Ok d' /\ dups_of k (rs0 ++ rs) d'.
Proof.
  intros Hk Hrs. revert rs0 d. induction Hrs as [|r rs [Hkr Hr] Hrs IH]; intros rs0 d Hrs0 Hd.
  { exists d. by rewrite app_nil_r. }
  cbn [recdups_update_loop]. destruct (dups_update k rs0 r d) as (d1 & -> & Hd1); [done..|].
  cbn [mbind outcome_bind]. destruct (IH (rs0 ++ [r]) d1) as (d2 & -> & Hd2); [by apply Forall_app_2; [|constructor]|done|].
  exists d2. by rewrite <- app_assoc in Hd2.
Qed.

Lemma dups_null k : dups_of k [] recdups_null.
Proof. split; [constructor|]. split; [done|]. split; [|done]. intros i Hi. by apply not_elem_of_nil in Hi. Qed.

(* ------------------------------------------------------------------ *)
(** * Lemmas: the wire form *)
(* ------------------------------------------------------------------ *)

(** Records with new identifiers are appended. *)
Lemma update_one k rv k0 db0 :
  kad_id_ok k -> kad_id_ok (rv_recid rv) -> Forall (fun rv => kad_id_ok (rv_recid rv)) db0 ->
  rv_recid rv ∉ rv_recid <$> db0 -> k0 = kad_id_null \/ k0 = k ->
  recdups_update (rec_of k rv) (Recdups k0 db0) = Ok (Recdups k (db0 ++ [rv])).
Proof.
  intros Hk Hrv Hdb Hnew Hk0. unfold recdups_update. cbn [rec_of recid recval_db].
  pose proof (get_by_recid_spec (rv_recid rv) db0 Hrv Hdb) as Hg.
  destruct (get_by_recid _ _) as [j|].
  { destruct Hg as (rv' & Hj & E). destruct Hnew. rewrite <- E. apply list_elem_of_fmap_2. by eapply list_elem_of_lookup_2. }
  fold (rec_of k rv). rewrite (push_spec k) by done. cbn [recval_db]. by destruct rv.
Qed.

Lemma update_fresh k db k0 db0 :
  kad_id_ok k -> Forall (fun rv => kad_id_ok (rv_recid rv)) (db0 ++ db) -> NoDup (rv_recid <$> db0 ++ db) ->
  k0 = kad_id_null \/ k0 = k ->
  recdups_update_loop (rec_of k <$> db) (Recdups k0 db0) =
    Ok (Recdups (if decide (db = []) then k0 else k) (db0 ++ db)).
Proof.
  intros Hk. revert k0 db0. induction db as [|rv db IH]; intros k0 db0 Hok Hnd Hk0.
  { by rewrite app_nil_r. }
  cbn [fmap list_fmap recdups_update_loop]. pose proof Hok as [Hok0 [Hrv Hdb]%Forall_cons]%Forall_app.
  rewrite update_one; [|done..| |done].
  - cbn [mbind outcome_bind]. assert (Eapp : db0 ++ rv :: db = (db0 ++ [rv]) ++ db) by (by rewrite <- app_assoc).
    rewrite Eapp in *. rewrite IH by auto. f_equal. case_decide; [|done]. by subst.
  - rewrite fmap_app, fmap_cons in Hnd. apply NoDup_app in Hnd as (_ & H & _). intros Hin. apply (H _ Hin). constructor.
Qed.

Lemma recdups_update_valid k db :
  kad_id_ok k -> Forall rv_ok db ->
  exists d, recdups_update_loop (rec_of k <$> db) recdups_null = Ok d /\ recdups_ok d.
Proof.
  intros Hk Hdb. destruct (dups_update_loop k [] (rec_of k <$> db) recdups_null) as (d & Hd & Hdups).
  - done.
  - apply Forall_fmap. eapply Forall_impl; [exact Hdb|]. intros rv Hrv. split; [done|apply Hrv].
  - done.
  - apply dups_null.
  - exists d. split; [done|]. destruct Hdups as (Hnd & Hall & _ & Hkey). split; [|split; [|done]].
    + rewrite Hkey. case_decide; [apply kad_id_null_ok|done].
    + rewrite Forall_forall in Hall |- *. intros rv Hrv. destruct (Hall rv Hrv) as (rs1 & rs2 & E & _).
      assert (Hin : rec_of k rv ∈ rec_of k <$> db).
      { simpl in E. rewrite E. apply elem_of_app. right. constructor. }
      apply list_elem_of_fmap in Hin as (rv' & E' & Hrv'). rewrite Forall_forall in Hdb.
      replace rv with rv'; [by apply Hdb|]. injection E'. destruct rv, rv'. simpl. congruence.
Qed.

Lemma put_recvals_items db s : put_recvals db s = put_items recval_codec db s.
Proof.
  revert s. induction db as [|rv db IH]; intros s; [done|]. cbn [put_recvals put_items].
  change (put recval_codec rv s) with (put_recval rv s).
  destruct (put_recval rv s) as [s1| | |]; cbn [mbind outcome_bind]; auto.
Qed.

Lemma get_recval_codec s : get_recval s = get recval_codec s.
Proof.
  unfold get_recval, recval_codec, delay_codec.
  cbn [get map_codec pair_codec id_codec datum_codec u64_codec].
  destruct (get_id _ s) as [[i s1]| | |]; cbn [mbind outcome_bind fst snd]; try reflexivity.
  destruct (get_datum s1) as [[p s2]| | |]; cbn [mbind outcome_bind fst snd]; try reflexivity.
  by destruct (get_u64 s2) as [[x s3]| | |].
Qed.

Lemma get_recvals_spec n k rs0 d s l :
  kad_id_ok k -> Forall (fun r => kad_id_ok (recid r)) rs0 -> dups_of k rs0 d ->
  wf s -> bytes_ok l -> contents s = Some <$> l ->
  match wire_get_item_list recval_codec n l with
  | Ok (db, rest) => exists d' s', get_recvals n k d s = Ok (d', s') /\ wf s' /\ contents s' = Some <$> rest /\
      recdups_update_loop (rec_of k <$> db) d = Ok d'
  | Throw e => get_recvals n k d s = Throw e
  | AssertFail | Fault => False
  end.
Proof.
  intros Hk. revert rs0 d s l. induction n as [|n IH]; intros rs0 d s l Hrs Hd Hwf Hl Hc.
  { by exists d, s. }
  cbn [get_recvals wire_get_item_list]. rewrite get_recval_codec.
  pose proof (get_spec (c := recval_codec) l s Hwf Hl Hc) as Hg. unfold get_refines in Hg.
  destruct (wire_get recval_codec l) as [[rv l1]|e| |] eqn:E; cbn [mbind outcome_bind]; try done; [|by rewrite Hg].
  destruct Hg as (s1 & -> & Hwf1 & Hc1). cbn [mbind outcome_bind].
  apply (wire_get_valid (c := recval_codec)) in E as [Hrv Hl1]; [|done].
  assert (Hid : kad_id_ok (rv_recid rv)) by apply Hrv.
  destruct (dups_update k rs0 (rec_of k rv) d) as (d1 & Hd1 & Hdups1); [done..|]. rewrite Hd1. cbn [mbind outcome_bind].
  specialize (IH (rs0 ++ [rec_of k rv]) d1 s1 l1). specialize (IH ltac:(by apply Forall_app_2; [|constructor])).
  specialize (IH Hdups1 Hwf1 Hl1 Hc1).
  destruct (wire_get_item_list recval_codec n l1) as [[db l2]|e| |]; cbn [mbind outcome_bind]; try done.
  destruct IH as (d' & s' & -> & ? & ? & Hloop). exists d', s'.
  cbn [fmap list_fmap recdups_update_loop]. rewrite Hd1. by cbn [mbind outcome_bind].
Qed.

(* ------------------------------------------------------------------ *)
(** * Lemmas: lengths, order *)
(* ------------------------------------------------------------------ *)

Lemma removelast_take {A} (l : list A) : removelast l = take (length l - 1) l.
Proof. rewrite removelast_firstn_len. f_equal. lia. Qed.

Lemma pop_backs_spec {A} nb (l : list A) :
  (nb <= length l)%nat -> pop_backs nb l = Ok (take (length l - nb) l).
Proof.
  revert l. induction nb as [|nb IH]; intros l Hnb; cbn [pop_backs].
  { by rewrite take_ge by lia. }
  destruct l as [|a l]; [simpl in Hnb; lia|].
  rewrite removelast_take, IH by (rewrite length_take; simpl in *; lia).
  rewrite take_take, length_take. do 2 f_equal. simpl in *. lia.
Qed.

(** The bytes the first [n] records take. *)
Definition recs_len (n : nat) (db : list recval_t) : nat :=
  sum_list ((fun rv => 32 + length (rv_payload rv))%nat <$> take n db).

Lemma recs_len_S n rv db : recs_len (S n) (rv :: db) = (32 + length (rv_payload rv) + recs_len n db)%nat.
Proof. done. Qed.
Lemma recs_len_mono a b db : (a <= b)%nat -> (recs_len a db <= recs_len b db)%nat.
Proof.
  revert a b. induction db as [|rv db IH]; intros [|a] [|b] Hab; try (unfold recs_len; simpl; lia).
  rewrite !recs_len_S. specialize (IH a b). lia.
Qed.
Lemma recs_len_count n db : (n <= length db)%nat -> (32 * n <= recs_len n db)%nat.
Proof.
  revert n. induction db as [|rv db IH]; intros [|n] Hn; cbn [length] in Hn; try (unfold recs_len; simpl; lia).
  rewrite recs_len_S. specialize (IH n). lia.
Qed.

Lemma count_fitting_spec max cur db :
  let n := count_fitting 32 max cur db in
  (n <= length db)%nat /\ (max = 0%nat -> n = length db) /\
  (max <> 0%nat -> (cur <= max)%nat -> (cur + recs_len n db <= max)%nat) /\
  ((n < length db)%nat -> (max < cur + recs_len (S n) db)%nat).
Proof.
  revert cur. induction db as [|rv db IH]; intros cur n; [subst n; unfold recs_len; simpl; lia|].
  subst n. cbn [count_fitting]. specialize (IH (cur + (32 + length (rv_payload rv)))%nat). cbv zeta in IH.
  destruct (bool_decide (max <> 0)%nat && bool_decide (max < _)%nat) eqn:E; bool_to_prop.
  { split; [lia|]. split; [lia|]. split; [unfold recs_len; simpl; lia|]. unfold recs_len.
    intros _. cbn [take fmap list_fmap sum_list length]. rewrite take_0. simpl. lia. }
  set (n := count_fitting 32 max _ db) in *. destruct IH as (I1 & I2 & I3 & I4).
  cbn [length]. rewrite !recs_len_S. split; [lia|]. split; [intros; rewrite I2; lia|]. split.
  - intros Hm Hcur. apply andb_false_iff in E as [E|E]; bool_to_prop; [lia|]. specialize (I3 Hm). lia.
  - intros Hn. specialize (I4 ltac:(lia)). lia.
Qed.

Lemma wire_recdups_length k db :
  length k = KAD_ID_SIZE -> Forall rv_ok db -> length (wire_put_recdups (Recdups k db)) = (24 + recs_len (length db) db)%nat.
Proof.
  intros Hk Hdb. unfold wire_put_recdups, recs_len. cbn [rd_keyid recval_db]. rewrite !length_app, be_bytes_length, Hk, firstn_all.
  change KAD_ID_SIZE with 20%nat. enough (length (concat (wire_put recval_codec <$> db)) = sum_list ((fun rv => 32 + length (rv_payload rv)) <$> db)%nat) by lia.
  induction Hdb as [|rv db [[Hid _] _] Hdb IH]; [done|]. cbn [fmap list_fmap concat sum_list].
  cbn in Hid. rewrite length_app, IH. unfold id.
  change (wire_put recval_codec rv) with (rv_recid rv ++ (be_bytes 4 (Z.of_nat (length (rv_payload rv))) ++ rv_payload rv) ++ be_bytes 8 (rv_ttl rv)).
  rewrite !length_app, !be_bytes_length, Hid. change KAD_ID_SIZE with 20%nat. lia.
Qed.

(** The shared start of the two functions. *)
Lemma serial_hd : get_serial_hd_main = Ok 24%nat /\ get_serial_hd_per_rec = Ok 32%nat.
Proof. by vm_compute. Qed.

Lemma swap_perm {A} (l : list A) i j a b :
  l !! i = Some a -> l !! j = Some b -> <[j := a]> (<[i := b]> l) ≡ₚ l.
Proof.
  revert i j. induction l as [|x l IH]; intros i j Hi Hj; [done|].
  destruct i as [|i], j as [|j]; simpl in Hi, Hj; simplify_eq; simpl.
  - done.
  - apply list_elem_of_split_length in Hj as (l1 & l2 & -> & ->).
    rewrite insert_app_r_alt, Nat.sub_diag by lia. simpl. rewrite <- !Permutation_middle. constructor.
  - apply list_elem_of_split_length in Hi as (l1 & l2 & -> & ->).
    rewrite insert_app_r_alt, Nat.sub_diag by lia. simpl. rewrite <- !Permutation_middle. constructor.
  - constructor. by apply IH.
Qed.

Lemma swap_loop_perm {A} idxs (l : list A) :
  Forall (fun ij => ij.1 < length l /\ ij.2 < length l)%nat idxs ->
  exists l', swap_loop idxs l = Ok l' /\ l' ≡ₚ l.
Proof.
  intros H. revert l H. induction idxs as [|[i j] idxs IH]; intros l H; [by exists l|].
  apply Forall_cons in H as [[Hi Hj] H]. simpl in Hi, Hj. cbn [swap_loop].
  destruct (lookup_lt_is_Some_2 l i Hi) as [a Ha]. destruct (lookup_lt_is_Some_2 l j Hj) as [b Hb].
  rewrite Ha, Hb. destruct (IH (<[j := a]> (<[i := b]> l))) as (l' & -> & Hl'); [by rewrite !length_insert|].
  exists l'. split; [done|]. rewrite Hl'. by apply swap_perm.
Qed.

Lemma put_recdups_spec d s :
  recdups_ok d -> Z.of_nat (recdups_size d) < 2 ^ 32 -> wf s ->
  exists s', put_recdups d s = Ok s' /\ wf s' /\ contents s' = contents s ++ (Some <$> wire_put_recdups d).
Proof.
  intros (Hk & Hdb & _) Hlen Hwf. unfold put_recdups. rewrite wrap_small by (split; [lia|done]).
  destruct (put_spec (c := pair_codec u32_codec (id_codec KAD_ID_SIZE)) (Z.of_nat (recdups_size d), rd_keyid d) s)
    as (s1 & E & Hwf1 & Hc1); [split; [split; cbn [fst]; [lia|done]|done]|done|].
  cbn [put pair_codec u32_codec id_codec fst snd] in E.
  destruct (put_u32 _ s) as [s0| | |]; try done. cbn [mbind outcome_bind] in *. rewrite E. cbn [mbind outcome_bind].
  rewrite put_recvals_items. destruct (put_items_spec recval_codec (recval_db d) s1 Hdb Hwf1) as (s2 & -> & Hwf2 & Hc2).
  exists s2. split; [done|]. split; [done|]. rewrite Hc2, Hc1. unfold wire_put_recdups.
  cbn [wire_put pair_codec u32_codec id_codec fst snd]. unfold wire_put_id. by rewrite !fmap_app, !app_assoc.
Qed.

Lemma get_recdups_spec l s :
  wf s -> bytes_ok l -> contents s = Some <$> l ->
  match wire_get_recdups l with
  | Ok (d, rest) => recdups_ok d /\ exists s', get_recdups s = Ok (d, s') /\ wf s' /\ contents s' = Some <$> rest
  | Throw e => get_recdups s = Throw e
  | AssertFail | Fault => False
  end.
Proof.
  intros Hwf Hl Hc. unfold wire_get_recdups, get_recdups.
  pose proof (get_spec (c := u32_codec) l s Hwf Hl Hc) as Hg. unfold get_refines in Hg.
  change (get u32_codec s) with (get_u32 s) in Hg.
  destruct (wire_get u32_codec l) as [[n l1]|e| |] eqn:En; cbn [mbind outcome_bind]; try done; [|by rewrite Hg].
  destruct Hg as (s1 & -> & Hwf1 & Hc1). cbn [mbind outcome_bind].
  apply (wire_get_valid (c := u32_codec)) in En as [_ Hl1]; [|done].
  destruct (n =? 0); [split; [apply recdups_null_ok|by exists s1]|].
  pose proof (get_spec (c := id_codec KAD_ID_SIZE) l1 s1 Hwf1 Hl1 Hc1) as Hg. unfold get_refines in Hg.
  change (get (id_codec KAD_ID_SIZE) s1) with (get_id KAD_ID_SIZE s1) in Hg.
  destruct (wire_get (id_codec _) l1) as [[k l2]|e| |] eqn:Ek; cbn [mbind outcome_bind]; try done; [|by rewrite Hg].
  destruct Hg as (s2 & -> & Hwf2 & Hc2). cbn [mbind outcome_bind].
  apply (wire_get_valid (c := id_codec KAD_ID_SIZE)) in Ek as [Hk Hl2]; [|done].
  pose proof (get_recvals_spec (Z.to_nat n) k [] recdups_null s2 l2 Hk (Forall_nil_2 _) (dups_null k) Hwf2 Hl2 Hc2) as Hr.
  destruct (wire_get_item_list _ _ l2) as [[db l3]|e| |] eqn:Edb; cbn [mbind outcome_bind]; try done.
  apply (wire_items_valid recval_codec) in Edb as (Hdb & _ & _); [|done].
  destruct Hr as (d & s3 & -> & Hwf3 & Hc3 & Hd). rewrite Hd. cbn [mbind outcome_bind].
  destruct (recdups_update_valid k db Hk Hdb) as (d' & Hd' & Hok). split; [|by exists s3]. congruence.
Qed.

Lemma wire_recdups_roundtrip d rest :
  recdups_ok d -> Z.of_nat (recdups_size d) < 2 ^ 32 ->
  wire_get_recdups (wire_put_recdups d ++ rest) =
    match recval_db d with [] => Ok (recdups_null, rd_keyid d ++ rest) | _ => Ok (d, rest) end.
Proof.
  destruct d as [k db]. intros (Hk & Hdb & Hnd) Hlen. cbn [rd_keyid recval_db recdups_size] in *.
  unfold wire_get_recdups, wire_put_recdups. cbn [rd_keyid recval_db recdups_size] in *. rewrite <- !app_assoc.
  change (be_bytes 4) with (wire_put u32_codec). rewrite wire_get_put by (split; [lia|done]). cbn [mbind outcome_bind].
  destruct db as [|rv db]; [done|]. rewrite (proj2 (Z.eqb_neq _ 0)) by (unfold recdups_size; cbn [recval_db length]; lia).
  change (k ++ ?x) with (wire_put (id_codec KAD_ID_SIZE) k ++ x). rewrite wire_get_put by done. cbn [mbind outcome_bind].
  rewrite Nat2Z.id. change (recdups_size (Recdups k (rv :: db))) with (length (rv :: db)). 
  rewrite (wire_items_put recval_codec (rv :: db) rest Hdb). cbn [mbind outcome_bind].
  unfold recdups_null. rewrite update_fresh; [by rewrite decide_False|done| |done|by left].
  eapply Forall_impl; [exact Hdb|]. by intros x [Hx _].
Qed.

(* ------------------------------------------------------------------ *)
(** * Properties *)
(* ------------------------------------------------------------------ *)

(** Records of one key put one by one into an empty set: no assertion
    fails, and the set has exactly one value for each record identifier given,
    the value of the first among the longest-lived records with it. *)
Theorem recdups_update_correct k rs :
  kad_id_ok k -> Forall (fun r => keyid r = k /\ kad_id_ok (recid r)) rs ->
  exists d, recdups_update_loop rs recdups_null = Ok d /\
    NoDup (rv_recid <$> recval_db d) /\
    (forall i, i ∈ rv_recid <$> recval_db d <-> i ∈ recid <$> rs) /\
    Forall (longest_first rs) (recdups_recs d).
Proof.
  intros Hk Hrs. destruct (dups_update_loop k [] rs recdups_null Hk Hrs) as (d & Hd & Hnd & Hall & Hin & Hkey);
    [done|apply dups_null|].
  exists d. split; [done|]. split; [done|]. split.
  - intros i. split; [|apply Hin]. intros (rv & -> & Hrv)%list_elem_of_fmap.
    rewrite Forall_forall in Hall. by apply (longest_key _ _ _ (Hall rv Hrv)).
  - unfold recdups_recs. apply Forall_fmap. destruct (decide (rs = [])) as [E|E]; simpl in Hkey.
    + eapply Forall_impl; [exact Hall|]. intros rv (rs1 & rs2 & E' & _). simpl in E'. rewrite E in E'. by destruct rs1.
    + rewrite Hkey, decide_False by done. exact Hall.
Qed.

(** The wire form of a set of records: writing never fails; reading is the
    abstract decoder, which fails no assertion whatever the bytes and gives
    sets without duplicates; a non-empty set is read back with what follows it,
    but of an empty one the reader leaves the 20 bytes of its key unread. *)
Theorem recdups_wire_roundtrip :
  (forall d s, recdups_ok d -> Z.of_nat (recdups_size d) < 2 ^ 32 -> wf s ->
     exists s', put_recdups d s = Ok s' /\ wf s' /\ contents s' = contents s ++ (Some <$> wire_put_recdups d)) /\
  (forall l s, wf s -> bytes_ok l -> contents s = Some <$> l ->
     match wire_get_recdups l with
     | Ok (d, rest) => recdups_ok d /\ exists s', get_recdups s = Ok (d, s') /\ wf s' /\ contents s' = Some <$> rest
     | Throw e => get_recdups s = Throw e
     | AssertFail | Fault => False
     end) /\
  (forall d rest, recdups_ok d -> Z.of_nat (recdups_size d) < 2 ^ 32 ->
     wire_get_recdups (wire_put_recdups d ++ rest) =
       match recval_db d with [] => Ok (recdups_null, rd_keyid d ++ rest) | _ => Ok (d, rest) end).
Proof. split; [apply put_recdups_spec|]. split; [apply get_recdups_spec|apply wire_recdups_roundtrip]. Qed.

(** C35. How many records a reply holds: [nb_serialized_rec_in_size] is the
    largest number of leading records whose wire form has at most [max_len]
    bytes (all of them for no limit), and both truncations keep those. *)
Theorem recdups_fit_maximal max_len d :
  recdups_ok d -> (max_len = 0 \/ 24 <= max_len)%nat ->
  exists n, nb_serialized_rec_in_size max_len d = Ok n /\
    (n <= recdups_size d)%nat /\ (max_len = 0%nat -> n = recdups_size d) /\
    (let keep m := Recdups (rd_keyid d) (take m (recval_db d)) in
     truncate_at_tail (recdups_size d - n) d = Ok (keep n) /\
     truncate_to_serial_len max_len d = Ok ((recdups_size d - n)%nat, keep n) /\
     (max_len <> 0%nat -> (length (wire_put_recdups (keep n)) <= max_len)%nat) /\
     ((n < recdups_size d)%nat -> (max_len < length (wire_put_recdups (keep (S n))))%nat)).
Proof.
  intros (Hk & Hdb & _) Hmax. destruct serial_hd as [Hm Hp].
  unfold nb_serialized_rec_in_size, truncate_to_serial_len, truncate_at_tail, recdups_size.
  rewrite Hm, Hp. cbn [mbind outcome_bind]. rewrite bool_decide_eq_true_2 by lia. cbn [dbg_assert mbind outcome_bind].
  pose proof (count_fitting_spec max_len 24 (recval_db d)) as Hspec. cbv zeta in Hspec.
  set (n := count_fitting 32 max_len 24 (recval_db d)) in *. destruct Hspec as (H1 & H2 & H3 & H4).
  exists n. split; [done|]. split; [done|]. split; [done|]. cbv zeta.
  rewrite pop_backs_spec by lia. cbn [mbind outcome_bind].
  replace (length (recval_db d) - (length (recval_db d) - n))%nat with n by lia.
  assert (Hlen : forall m, (m <= length (recval_db d))%nat ->
    length (wire_put_recdups (Recdups (rd_keyid d) (take m (recval_db d)))) = (24 + recs_len m (recval_db d))%nat).
  { intros m Hm'. rewrite wire_recdups_length by first [apply Hk|by apply Forall_take].
    unfold recs_len. rewrite length_take, take_take. do 4 f_equal. lia. }
  split; [done|]. split; [done|]. rewrite Hlen by lia. split; [lia|]. intros Hn. rewrite Hlen by lia. by apply H4.
Qed.

(* ------------------------------------------------------------------ *)
(** * Witnesses *)
(* ------------------------------------------------------------------ *)

Definition rid (v : Z) : kad_id := be_bytes KAD_ID_SIZE v.
Lemma rid_ok v : kad_id_ok (rid v).
Proof. split; [apply be_bytes_length|apply be_bytes_ok]. Qed.
Definition ex_recs : list kad_rec_t :=
  [KadRec (rid 1) (rid 9) [65] 100; KadRec (rid 2) (rid 9) [66] 100; KadRec (rid 1) (rid 9) [67] 200;
   KadRec (rid 2) (rid 9) [68] 100].
Definition ex_recdups : kad_recdups_t := Recdups (rid 9) [Recval (rid 2) [66] 100; Recval (rid 1) [67] 200].
Lemma ex_recdups_ok : recdups_ok ex_recdups.
Proof.
  split; [apply rid_ok|]. split.
  - repeat constructor; try (split; vm_compute; congruence); vm_compute; intuition congruence.
  - apply (bool_decide_unpack _). by vm_compute.
Qed.

Lemma recdups_update_correct_witness :
  recdups_update_loop ex_recs recdups_null = Ok ex_recdups /\
  exists d, recdups_update_loop ex_recs recdups_null = Ok d /\ Forall (longest_first ex_recs) (recdups_recs d).
Proof.
  split; [by vm_compute|].
  destruct (recdups_update_correct (rid 9) ex_recs) as (d & Hd & _ & _ & H);
    [apply rid_ok|repeat (constructor; [split; [reflexivity|apply rid_ok]|]); constructor|].
  by exists d.
Defined.

Lemma recdups_fit_maximal_witness :
  nb_serialized_rec_in_size 80 ex_recdups = Ok 1%nat /\
  exists n, nb_serialized_rec_in_size 80 ex_recdups = Ok n /\ (n <= recdups_size ex_recdups)%nat.
Proof.
  split; [by vm_compute|].
  assert (H80 : (80 = 0 \/ 24 <= 80)%nat) by lia.
  pose proof (recdups_fit_maximal 80 ex_recdups ex_recdups_ok H80) as (n & Hn & Hle & _).
  exists n. split; [exact Hn|exact Hle].
Defined.

Lemma recdups_wire_roundtrip_witness :
  wire_get_recdups (wire_put_recdups ex_recdups ++ [7]) = Ok (ex_recdups, [7]).
Proof.
  destruct recdups_wire_roundtrip as (_ & _ & H).
  refine (H ex_recdups [7] ex_recdups_ok _). reflexivity.
Defined.
