(* ===== verification/KadDb.v ===== *)
(** The record database of a kademlia peer: [kad_db_t] with its nested [rec_t]
    (src/src/neoip_kad/service/db/).

    A [rec_t *] is the record identifier its record is indexed by in [recid_db],
    which is unique there.  [distid_db] is a [std::multimap]: its entries in the
    order of the keys, those of one key in the order of insertion.  What the
    database asks of the rest of the peer (replications to one node,
    republications to the closest ones) is the list [db_out].  Multiplications
    of delays by floating-point factors are arguments. *)
From stdpp Require Import gmap sorting.
From S2P Require Import Prelude Codec Text Time Timeout GenId InetAddr ItemArr KadAddr KadRec.

(* ------------------------------------------------------------------ *)
(** * std::multimap *)
(* ------------------------------------------------------------------ *)

Section multimap.
Context {K V : Type} (ltb : K -> K -> bool).
Implicit Types (l : list (K * V)).

Fixpoint mm_insert (k : K) (v : V) l : list (K * V) :=
  match l with
  | [] => [(k, v)]
  | (k', v') :: l' => if ltb k k' then (k, v) :: l else (k', v') :: mm_insert k v l'
  end.

(** The suffix from the iterator on. *)
Fixpoint lower_bound (k : K) l : list (K * V) :=
  match l with
  | [] => []
  | (k', v') :: l' => if ltb k' k then lower_bound k l' else l
  end.
Fixpoint upper_bound (k : K) l : list (K * V) :=
  match l with
  | [] => []
  | (k', v') :: l' => if ltb k k' then l else upper_bound k l'
  end.
End multimap.

(* ------------------------------------------------------------------ *)
(** * State *)
(* ------------------------------------------------------------------ *)

Record kad_db_profile_t := DbProfile {
  keyid_nodups_ok : bool;
  db_max_len : nat;                      (* 0: no limit *)
  rec_max_len : nat;
  rec_max_ttl : Z;
  rec_republish_period : Z;
  republish_store_timeout : Z
}.

Record db_rec_t := DbRec { dr_rec : kad_rec_t; republish_timeout : timeout_t; expire_timeout : timeout_t }.

Inductive db_out_t :=
| ReplicateIn (recs : kad_recdups_t) (remote_addr : kad_addr_t)
| RepublishRec (r : kad_rec_t).

(** The two databases of a peer differ by [is_remote_db] and by their profile. *)
Record kad_db_t := KadDb {
  db_local_peerid : kad_id;
  is_remote_db : bool;
  db_profile : kad_db_profile_t;
  distid_db : list (kad_id * kad_id);
  recid_db : gmap kad_id db_rec_t;
  db_size : nat;
  db_out : list db_out_t
}.

Definition set_db (dist : list (kad_id * kad_id)) (recs : gmap kad_id db_rec_t) (size : nat) (d : kad_db_t) : kad_db_t :=
  KadDb (db_local_peerid d) (is_remote_db d) (db_profile d) dist recs size (db_out d).
Definition db_emit (o : db_out_t) (d : kad_db_t) : kad_db_t :=
  KadDb (db_local_peerid d) (is_remote_db d) (db_profile d) (distid_db d) (recid_db d) (db_size d) (db_out d ++ [o]).

Definition kad_db_ctor (local : kad_id) (remote : bool) (profile : kad_db_profile_t) : kad_db_t :=
  KadDb local remote profile [] ∅ 0 [].

Definition dr_len (r : db_rec_t) : nat := length (rec_payload (dr_rec r)).

Definition get_distid (targetid : kad_id) (d : kad_db_t) : kad_id := id_dist (db_local_peerid d) targetid.

(* ------------------------------------------------------------------ *)
(** * Links *)
(* ------------------------------------------------------------------ *)

Definition rec_dolink (r : db_rec_t) (d : kad_db_t) : outcome kad_db_t :=
  let p := recid (dr_rec r) in
  let size := (db_size d + dr_len r)%nat in
  let dist := mm_insert kad_id_lt (get_distid (keyid (dr_rec r)) d) p (distid_db d) in
  assert! bool_decide (recid_db d !! p = None) in
  Ok (set_db dist (<[p := r]> (recid_db d)) size d).

(** The first of the entries with the key [map_key] that holds the pointer [p],
    in the suffix given; [erase] of the multimap there. *)
Fixpoint erase_ptr (map_key p : kad_id) (l : list (kad_id * kad_id)) : outcome (list (kad_id * kad_id)) :=
  match l with
  | [] => AssertFail
  | (k, q) :: l' =>
    if id_eq KAD_ID_SIZE k map_key then
      if decide (q = p) then Ok l' else let* r := erase_ptr map_key p l' in Ok ((k, q) :: r)
    else AssertFail
  end.

(** [distid_db.erase(get_iter_from_ptr(rec_ptr))]. *)
Definition distid_erase (map_key p : kad_id) (l : list (kad_id * kad_id)) : outcome (list (kad_id * kad_id)) :=
  let iter := lower_bound kad_id_lt map_key l in
  assert! bool_decide (iter <> []) in
  assert! match iter with (k, _) :: _ => id_eq KAD_ID_SIZE k map_key | [] => false end in
  let* rest := erase_ptr map_key p iter in
  Ok (take (length l - length iter) l ++ rest).

Definition rec_unlink (r : db_rec_t) (d : kad_db_t) : outcome kad_db_t :=
  assert! bool_decide (dr_len r <= db_size d)%nat in
  let size := (db_size d - dr_len r)%nat in
  let recs := delete (recid (dr_rec r)) (recid_db d) in
  let* dist := distid_erase (get_distid (keyid (dr_rec r)) d) (recid (dr_rec r)) (distid_db d) in
  Ok (set_db dist recs size d).

(* ------------------------------------------------------------------ *)
(** * rec_t *)
(* ------------------------------------------------------------------ *)

(** [scale]: the multiplication of a delay by [delta_ratio]. *)
Definition a_bit_less (scale : Z -> outcome Z) (delta_max d : Z) : outcome Z :=
  if d =? INFINITE_VAL then Ok d
  else
    let* tmp := scale d in
    let* s := delay_add tmp delta_max in
    if d <? s then Ok tmp else delay_sub d delta_max.

(** [scale_rand]: by [neoip_rand(0.7, 1.0)]; [scale_ratio]: by [2.0/3.0]. *)
Definition cpu_republish_delay (scale_rand scale_ratio : Z -> outcome Z) (r : kad_rec_t) (d : kad_db_t) : outcome Z :=
  let profile := db_profile d in
  if is_remote_db d then scale_rand (rec_republish_period profile)
  else
    let* from_ttl := a_bit_less scale_ratio (republish_store_timeout profile) (rec_ttl r) in
    let* from_db := (if negb (delay_is_special (rec_republish_period profile))
                     then scale_rand (rec_republish_period profile) else Ok INFINITE_VAL) in
    Ok (if from_db <? from_ttl then from_db else from_ttl).

Definition cpu_expire_delay (r : kad_rec_t) (d : kad_db_t) : Z :=
  if is_remote_db d then rec_ttl r else INFINITE_VAL.

(** The floating-point factors and the time of a handler. *)
Record db_env_t := DbEnv { de_now : Z; de_rand : Z -> outcome Z; de_ratio : Z -> outcome Z }.

Definition rec_ctor (env : db_env_t) (kad_rec : kad_rec_t) (d : kad_db_t) : outcome kad_db_t :=
  let* republish := cpu_republish_delay (de_rand env) (de_ratio env) kad_rec d in
  let* t1 := timeout_start (de_now env) republish timeout_ctor in
  let* t2 := timeout_start (de_now env) (cpu_expire_delay kad_rec d) timeout_ctor in
  rec_dolink (DbRec kad_rec t1 t2) d.

Definition set_ttl (ttl : Z) (r : kad_rec_t) : kad_rec_t := KadRec (recid r) (keyid r) (rec_payload r) ttl.
Definition get_kad_rec (now : Z) (remote : bool) (r : db_rec_t) : outcome kad_rec_t :=
  if remote then let* ttl := get_expire_delay now (expire_timeout r) in Ok (set_ttl ttl (dr_rec r))
  else Ok (dr_rec r).

(* ------------------------------------------------------------------ *)
(** * kad_db_t *)
(* ------------------------------------------------------------------ *)

Definition contain_recid (i : kad_id) (d : kad_db_t) : bool := bool_decide (is_Some (recid_db d !! i)).
Definition contain_keyid (k : kad_id) (d : kad_db_t) : bool :=
  match lower_bound kad_id_lt (get_distid k d) (distid_db d) with
  | (k', _) :: _ => negb (kad_id_lt (get_distid k d) k')
  | [] => false
  end.

Definition may_accept (r : kad_rec_t) (d : kad_db_t) : bool :=
  let profile := db_profile d in
  let rec_len := length (rec_payload r) in
  if keyid_nodups_ok profile && contain_keyid (keyid r) d then false
  else if rec_max_ttl profile <? rec_ttl r then false
  else if bool_decide (rec_max_len profile <> 0)%nat && bool_decide (rec_max_len profile < rec_len)%nat then false
  else if bool_decide (db_max_len profile <> 0)%nat && bool_decide (db_max_len profile < db_size d + rec_len)%nat then false
  else true.

Definition may_accept_recdups (rs : kad_recdups_t) (d : kad_db_t) : bool :=
  let recdups_len := sum_list ((fun r => length (rec_payload r)) <$> recdups_recs rs) in
  if bool_decide (db_max_len (db_profile d) <> 0)%nat &&
     bool_decide (db_max_len (db_profile d) < db_size d + recdups_len)%nat then false
  else forallb (fun r => may_accept r d) (recdups_recs rs).

(** [nipmem_delete] of a [rec_t]. *)
Definition rec_dtor (r : db_rec_t) (d : kad_db_t) : outcome kad_db_t := rec_unlink r d.

Definition db_update (env : db_env_t) (kad_rec : kad_rec_t) (d : kad_db_t) : outcome kad_db_t :=
  assert! may_accept kad_rec d in
  match recid_db d !! recid kad_rec with
  | Some r =>
    let* local := get_kad_rec (de_now env) (is_remote_db d) r in
    let* winner := is_tie_winner_against local kad_rec in
    if (winner : bool) then Ok d
    else let* d1 := rec_dtor r d in rec_ctor env kad_rec d1
  | None => rec_ctor env kad_rec d
  end.

Fixpoint db_update_loop (env : db_env_t) (rs : list kad_rec_t) (d : kad_db_t) : outcome kad_db_t :=
  match rs with
  | [] => Ok d
  | r :: rs' => let* d1 := db_update env r d in db_update_loop env rs' d1
  end.
Definition db_update_recdups (env : db_env_t) (rs : kad_recdups_t) (d : kad_db_t) : outcome kad_db_t :=
  db_update_loop env (recdups_recs rs) d.

Definition db_remove (i : kad_id) (d : kad_db_t) : outcome kad_db_t :=
  match recid_db d !! i with
  | None => Ok d
  | Some r => rec_dtor r d
  end.

Definition deref_rec (p : kad_id) (d : kad_db_t) : outcome db_rec_t :=
  match recid_db d !! p with Some r => Ok r | None => Fault end.

Fixpoint find_loop (now : Z) (map_key recid_gt : kad_id) (iter : list (kad_id * kad_id)) (d : kad_db_t)
    (result : kad_recdups_t) : outcome kad_recdups_t :=
  match iter with
  | [] => Ok result
  | (k, p) :: iter' =>
    if id_eq KAD_ID_SIZE k map_key then
      let* r := deref_rec p d in
      if negb (id_is_null KAD_ID_SIZE recid_gt) && id_le KAD_ID_SIZE (recid (dr_rec r)) recid_gt
      then find_loop now map_key recid_gt iter' d result
      else
        let* kr := get_kad_rec now (is_remote_db d) r in
        let* result1 := recdups_update kr result in
        find_loop now map_key recid_gt iter' d result1
    else Ok result
  end.
Definition find_by_keyid (now : Z) (k recid_gt : kad_id) (d : kad_db_t) : outcome kad_recdups_t :=
  let map_key := get_distid k d in
  find_loop now map_key recid_gt (lower_bound kad_id_lt map_key (distid_db d)) d recdups_null.

Definition get_next_keyid (k : kad_id) (d : kad_db_t) : outcome kad_id :=
  match upper_bound kad_id_lt (get_distid k d) (distid_db d) with
  | [] => Ok kad_id_null
  | (_, p) :: _ => let* r := deref_rec p d in Ok (keyid (dr_rec r))
  end.

(* ------------------------------------------------------------------ *)
(** * Replication, republication, expiration *)
(* ------------------------------------------------------------------ *)

Section replicate.
Context `{InetLib}.

(** [kad_db_replicate_t::replicate_in]: the rpcs it starts are an output. *)
Definition replicate_in (rs : kad_recdups_t) (remote_addr : kad_addr_t) (d : kad_db_t) : outcome kad_db_t :=
  let* q := kad_addr_is_fully_qualified remote_addr in
  assert! q in Ok (db_emit (ReplicateIn rs remote_addr) d).
Definition replicate_in_rec (r : kad_rec_t) (remote_addr : kad_addr_t) (d : kad_db_t) : outcome kad_db_t :=
  let* rs := recdups_update r recdups_null in replicate_in rs remote_addr d.

Fixpoint new_node_loop (now : Z) (iter : list (kad_id * kad_id)) (a : kad_addr_t) (d : kad_db_t) : outcome kad_db_t :=
  match iter with
  | [] => Ok d
  | (_, p) :: iter' =>
    let* r := deref_rec p d in
    let* kr := get_kad_rec now (is_remote_db d) r in
    let* d1 := replicate_in_rec kr a d in
    new_node_loop now iter' a d1
  end.
Definition notify_new_node (now : Z) (a : kad_addr_t) (d : kad_db_t) : outcome kad_db_t :=
  let node_dist := id_dist (db_local_peerid d) (peerid a) in
  let mid_dist := id_shiftr KAD_ID_SIZE node_dist 1 in
  new_node_loop now (lower_bound kad_id_lt mid_dist (distid_db d)) a d.
End replicate.

(** The timer [republish_timeout] of the record [p] fires. *)
Definition republish_timeout_cb (env : db_env_t) (p : kad_id) (d : kad_db_t) : outcome kad_db_t :=
  let* r := deref_rec p d in
  let d1 := db_emit (RepublishRec (dr_rec r)) d in
  let cb t := (let* delay := cpu_republish_delay (de_rand env) (de_ratio env) (dr_rec r) d1 in
               let* t' := change_period delay t in Ok (Some t')) in
  let* t := cpp_expired_cb (de_now env) cb (republish_timeout r) in
  match t with
  | None => AssertFail
  | Some t' => Ok (set_db (distid_db d1) (<[p := DbRec (dr_rec r) t' (expire_timeout r)]> (recid_db d1)) (db_size d1) d1)
  end.

(** The timer [expire_timeout] of the record [p] fires. *)
Definition expire_timeout_cb (p : kad_id) (d : kad_db_t) : outcome kad_db_t :=
  let* r := deref_rec p d in rec_dtor r d.

(* ------------------------------------------------------------------ *)
(** * Events *)
(* ------------------------------------------------------------------ *)

(** [EvStore] is one turn of the loop of [handle_store_request]. *)
Inductive db_event :=
| EvStore (env : db_env_t) (r : kad_rec_t)
| EvRemove (i : kad_id)
| EvExpire (i : kad_id)
| EvRepublish (env : db_env_t) (i : kad_id)
| EvNewNode (now : Z) (a : kad_addr_t).

Section run.
Context `{InetLib}.

Definition db_step (e : db_event) (d : kad_db_t) : outcome kad_db_t :=
  match e with
  | EvStore env r => if may_accept r d then db_update env r d else Ok d
  | EvRemove i => db_remove i d
  | EvExpire i => expire_timeout_cb i d
  | EvRepublish env i => republish_timeout_cb env i d
  | EvNewNode now a => notify_new_node now a d
  end.
Fixpoint db_run (es : list db_event) (d : kad_db_t) : outcome kad_db_t :=
  match es with
  | [] => Ok d
  | e :: es' => let* d1 := db_step e d in db_run es' d1
  end.
End run.

(* ------------------------------------------------------------------ *)
(** * Lemmas: the multimap *)
(* ------------------------------------------------------------------ *)

Notation "'entry'" := (kad_id * kad_id)%type.
Definition entry_le (a b : entry) : Prop := be_value a.1 <= be_value b.1.
Notation "'entries_ok'" := (Forall (fun e : entry => kad_id_ok e.1)).

Lemma mm_insert_perm k v (l : list entry) : mm_insert kad_id_lt k v l ≡ₚ (k, v) :: l.
Proof.
  induction l as [|[k' v'] l IH]; [done|]. cbn [mm_insert]. destruct (kad_id_lt k k'); [done|].
  rewrite IH. constructor.
Qed.

Lemma mm_insert_sorted k v (l : list entry) :
  kad_id_ok k -> entries_ok l -> StronglySorted entry_le l -> StronglySorted entry_le (mm_insert kad_id_lt k v l).
Proof.
  intros Hk Hl. induction Hl as [|[k' v'] l Hk' Hl IH]; intros Hs; cbn [mm_insert]; [by repeat constructor|].
  pose proof Hs as [Hs' Hle]%StronglySorted_cons. simpl in Hk'. rewrite kad_id_lt_spec by done.
  destruct (Z.ltb_spec (be_value k) (be_value k')).
  - constructor; [done|]. constructor; [unfold entry_le; simpl; lia|]. eapply Forall_impl; [exact Hs'|].
    intros e He. unfold entry_le in *; simpl in *. lia.
  - constructor; [by apply IH|]. rewrite mm_insert_perm. constructor; [unfold entry_le; simpl; lia|done].
Qed.

Lemma lower_bound_spec k (l : list entry) :
  kad_id_ok k -> entries_ok l -> StronglySorted entry_le l ->
  exists pre, l = pre ++ lower_bound kad_id_lt k l /\
    Forall (fun e : entry => be_value e.1 < be_value k) pre /\
    Forall (fun e : entry => be_value k <= be_value e.1) (lower_bound kad_id_lt k l).
Proof.
  intros Hk Hl. induction Hl as [|[k' v'] l Hk' Hl IH]; intros Hs; cbn [lower_bound]; [by exists []|].
  pose proof Hs as [Hs' Hle]%StronglySorted_cons. simpl in Hk'. rewrite kad_id_lt_spec by done.
  destruct (Z.ltb_spec (be_value k') (be_value k)).
  - destruct (IH Hle) as (pre & E & Hp & Hb). exists ((k', v') :: pre). split; [by rewrite <- app_comm_cons, <- E|].
    split; [by constructor|done].
  - exists []. split; [done|]. split; [done|]. constructor; [done|]. eapply Forall_impl; [exact Hs'|].
    intros e He. unfold entry_le in He; simpl in He. lia.
Qed.

Lemma upper_bound_spec k (l : list entry) :
  kad_id_ok k -> entries_ok l -> StronglySorted entry_le l ->
  exists pre, l = pre ++ upper_bound kad_id_lt k l /\
    Forall (fun e : entry => be_value e.1 <= be_value k) pre /\
    Forall (fun e : entry => be_value k < be_value e.1) (upper_bound kad_id_lt k l).
Proof.
  intros Hk Hl. induction Hl as [|[k' v'] l Hk' Hl IH]; intros Hs; cbn [upper_bound]; [by exists []|].
  pose proof Hs as [Hs' Hle]%StronglySorted_cons. simpl in Hk'. rewrite kad_id_lt_spec by done.
  destruct (Z.ltb_spec (be_value k) (be_value k')).
  - exists []. split; [done|]. split; [done|]. constructor; [done|]. eapply Forall_impl; [exact Hs'|].
    intros e He. unfold entry_le in He; simpl in He. lia.
  - destruct (IH Hle) as (pre & E & Hp & Hb). exists ((k', v') :: pre). split; [by rewrite <- app_comm_cons, <- E|].
    split; [by constructor|done].
Qed.

(** A suffix that starts at the first entry with the key [k] of [(k, p)]. *)
Lemma erase_ptr_spec k p (l : list entry) :
  kad_id_ok k -> entries_ok l -> StronglySorted entry_le l -> Forall (fun e : entry => be_value k <= be_value e.1) l ->
  (k, p) ∈ l ->
  exists l', erase_ptr k p l = Ok l' /\ l ≡ₚ (k, p) :: l' /\ sublist l' l.
Proof.
  intros Hk Hl. induction Hl as [|[k' q] l Hk' Hl IH]; intros Hs Hge Hin; [by apply not_elem_of_nil in Hin|].
  pose proof Hs as [Hs' Hle]%StronglySorted_cons. apply Forall_cons in Hge as [Hge Hge']. simpl in Hk', Hge.
  assert (k' = k) as ->.
  { apply (id_value_inj KAD_ID_SIZE); [done..|]. apply elem_of_cons in Hin as [[= <- <-]|Hin]; [done|].
    rewrite Forall_forall in Hs'. specialize (Hs' _ Hin). unfold entry_le in Hs'. simpl in Hs'. lia. }
  cbn [erase_ptr]. rewrite id_eq_spec, bool_decide_eq_true_2 by done.
  destruct (decide (q = p)) as [->|Hne]; [exists l; split; [done|]; split; [done|by apply sublist_cons]|].
  apply elem_of_cons in Hin as [[= ->]|Hin]; [done|].
  destruct (IH Hle Hge' Hin) as (l' & -> & Hp & Hsub). cbn [mbind outcome_bind]. exists ((k, q) :: l').
  split; [done|]. split; [rewrite Hp; constructor|by apply sublist_skip].
Qed.

Lemma sorted_sublist {A} (R : A -> A -> Prop) l l' : sublist l' l -> StronglySorted R l -> StronglySorted R l'.
Proof.
  induction 1 as [|x l1 l2 Hsub IH|x l1 l2 Hsub IH]; intros Hs; [constructor|..].
  - apply StronglySorted_inv in Hs as [Hs Hx]. constructor; [by apply IH|].
    rewrite Forall_forall in Hx |- *. intros y Hy. apply Hx. by eapply elem_of_sublist.
  - apply StronglySorted_inv in Hs as [Hs _]. by apply IH.
Qed.

Lemma distid_erase_spec k p (l : list entry) :
  kad_id_ok k -> entries_ok l -> StronglySorted entry_le l -> (k, p) ∈ l ->
  exists l', distid_erase k p l = Ok l' /\ l ≡ₚ (k, p) :: l' /\ StronglySorted entry_le l'.
Proof.
  intros Hk Hl Hs Hin. unfold distid_erase. destruct (lower_bound_spec k l Hk Hl Hs) as (pre & E & Hpre & Hge).
  set (iter := lower_bound kad_id_lt k l) in *.
  assert (Hiter : (k, p) ∈ iter).
  { rewrite E in Hin. apply elem_of_app in Hin as [Hin|]; [|done]. rewrite Forall_forall in Hpre.
    specialize (Hpre _ Hin). simpl in Hpre. lia. }
  rewrite E in Hl, Hs. apply Forall_app in Hl as [_ Hl].
  apply StronglySorted_app_1_r in Hs as Hs2.
  destruct (erase_ptr_spec k p iter Hk Hl Hs2 Hge Hiter) as (l' & Hl' & Hp & Hsub).
  rewrite bool_decide_eq_true_2 by (intros E'; rewrite E' in Hiter; by apply not_elem_of_nil in Hiter).
  cbn [dbg_assert]. assert (Hfirst : match iter with (k', _) :: _ => id_eq KAD_ID_SIZE k' k | [] => false end = true).
  { destruct iter as [|[k' q] it]; [by apply not_elem_of_nil in Hiter|]. cbn [erase_ptr] in Hl'.
    by destruct (id_eq KAD_ID_SIZE k' k). }
  rewrite Hfirst, Hl'. cbn [dbg_assert mbind outcome_bind].
  assert (Htake : take (length l - length iter) l = pre).
  { rewrite E at 2. rewrite E at 1. rewrite length_app. rewrite Nat.add_sub. by rewrite take_app_length. }
  rewrite Htake. exists (pre ++ l'). split; [done|]. split.
  - rewrite E at 1. rewrite Hp. by rewrite Permutation_middle.
  - eapply sorted_sublist; [|exact Hs]. by apply sublist_app.
Qed.

(* ------------------------------------------------------------------ *)
(** * The invariant *)
(* ------------------------------------------------------------------ *)

Definition rec_ids_ok (r : kad_rec_t) : Prop := kad_id_ok (recid r) /\ kad_id_ok (keyid r).
Definition entry_of (local : kad_id) (p : kad_id * db_rec_t) : entry := (id_dist local (keyid (dr_rec p.2)), p.1).

Definition profile_ok (p : kad_db_profile_t) : Prop :=
  ordinary (rec_max_ttl p) /\ delay_ok (rec_republish_period p) /\ ordinary (republish_store_timeout p).

(** A remote record expires its lifetime after it was stored, a local one never. *)
Definition timers_ok (remote : bool) (r : db_rec_t) : Prop :=
  to_callback (republish_timeout r) = true /\ to_callback (expire_timeout r) = true /\
  ordinary (rec_ttl (dr_rec r)) /\
  if remote then exists t0, ordinary t0 /\ next_expire_date (expire_timeout r) = t0 + rec_ttl (dr_rec r)
  else next_expire_date (expire_timeout r) = INFINITE_VAL.
Definition rec_ok (remote : bool) (i : kad_id) (r : db_rec_t) : Prop :=
  recid (dr_rec r) = i /\ rec_ids_ok (dr_rec r) /\ timers_ok remote r.

(** The two indices hold the same records, the first sorted by distance to the
    local peer; [db_size] is what they weigh; their timers run. *)
Record db_wf (d : kad_db_t) : Prop := {
  wf_local : kad_id_ok (db_local_peerid d);
  wf_profile : profile_ok (db_profile d);
  wf_recs : map_Forall (rec_ok (is_remote_db d)) (recid_db d);
  wf_perm : distid_db d ≡ₚ entry_of (db_local_peerid d) <$> map_to_list (recid_db d);
  wf_sorted : StronglySorted entry_le (distid_db d);
  wf_size : db_size d = sum_list (dr_len <$> (map_to_list (recid_db d)).*2)
}.

Lemma ctor_wf local remote profile : kad_id_ok local -> profile_ok profile -> db_wf (kad_db_ctor local remote profile).
Proof.
  intros Hl Hp. split; [done|done|apply map_Forall_empty| | |].
  - cbn [kad_db_ctor distid_db recid_db db_local_peerid]. by rewrite map_to_list_empty.
  - constructor.
  - cbn [kad_db_ctor recid_db]. by rewrite map_to_list_empty.
Qed.

Lemma wf_entries d : db_wf d -> entries_ok (distid_db d).
Proof.
  intros [Hl _ Hr Hp _ _]. rewrite Hp. apply Forall_fmap, Forall_forall. intros [i r] Hin.
  apply elem_of_map_to_list in Hin. destruct (Hr i r Hin) as (_ & [_ Hk] & _). by apply id_dist_ok.
Qed.

Lemma wf_entry d k i : db_wf d -> (k, i) ∈ distid_db d <->
  exists r, recid_db d !! i = Some r /\ k = id_dist (db_local_peerid d) (keyid (dr_rec r)).
Proof.
  intros [_ _ _ Hp _ _]. rewrite Hp. rewrite list_elem_of_fmap. split.
  - intros ([i' r] & [= -> ->] & Hin%elem_of_map_to_list). by exists r.
  - intros (r & Hr & ->). exists (i, r). split; [done|]. by apply elem_of_map_to_list.
Qed.

Lemma rec_dolink_spec r d :
  db_wf d -> recid_db d !! recid (dr_rec r) = None -> rec_ok (is_remote_db d) (recid (dr_rec r)) r ->
  exists dist size, rec_dolink r d = Ok (set_db dist (<[recid (dr_rec r) := r]> (recid_db d)) size d) /\
    db_wf (set_db dist (<[recid (dr_rec r) := r]> (recid_db d)) size d).
Proof.
  intros Hwf Hnew Hok. unfold rec_dolink. rewrite bool_decide_eq_true_2 by done. cbn [dbg_assert].
  eexists _, _. split; [reflexivity|]. pose proof (wf_entries d Hwf) as He. destruct Hwf as [Hl Hp Hr Hperm Hs Hsz].
  destruct Hok as (? & [Hi Hk] & Ht). split; cbn [set_db db_local_peerid db_profile recid_db distid_db db_size is_remote_db]; [done|done| | | |].
  - apply map_Forall_insert_2; [|done]. done.
  - rewrite map_to_list_insert by done. cbn [fmap list_fmap]. rewrite mm_insert_perm, Hperm. done.
  - apply mm_insert_sorted; [by apply id_dist_ok|done|done].
  - rewrite map_to_list_insert by done. cbn [fmap list_fmap sum_list]. rewrite Hsz. unfold id. cbn [snd]. lia.
Qed.

Lemma rec_unlink_spec i r d :
  db_wf d -> recid_db d !! i = Some r ->
  exists dist size, rec_unlink r d = Ok (set_db dist (delete i (recid_db d)) size d) /\
    db_wf (set_db dist (delete i (recid_db d)) size d).
Proof.
  intros Hwf Hi. pose proof (wf_entries d Hwf) as He. pose proof (wf_entry d (id_dist (db_local_peerid d) (keyid (dr_rec r))) i Hwf) as Hin.
  destruct Hwf as [Hl Hp Hr Hperm Hs Hsz]. destruct (Hr i r Hi) as (<- & [Hid Hk] & Ht). set (i := recid (dr_rec r)) in *.
  assert (Hm : (i, r) :: map_to_list (delete i (recid_db d)) ≡ₚ map_to_list (recid_db d)) by (by apply map_to_list_delete).
  unfold rec_unlink. assert (Hlen : db_size d = (dr_len r + sum_list (dr_len <$> (map_to_list (delete i (recid_db d))).*2))%nat).
  { rewrite Hsz, <- Hm. done. }
  rewrite bool_decide_eq_true_2 by lia. cbn [dbg_assert].
  destruct (distid_erase_spec (id_dist (db_local_peerid d) (keyid (dr_rec r))) i (distid_db d)) as (dist & Hd & Hdp & Hds).
  { by apply id_dist_ok. } { done. } { done. } { apply Hin. by exists r. }
  unfold get_distid. fold i. rewrite Hd. cbn [mbind outcome_bind]. eexists _, _. split; [reflexivity|].
  split; cbn [set_db db_local_peerid db_profile recid_db distid_db db_size is_remote_db]; [done|done| | |done|].
  - by apply map_Forall_delete.
  - rewrite Hdp, <- Hm in Hperm. cbn [fmap list_fmap] in Hperm. by apply (Permutation_cons_inv (l := dist)) in Hperm.
  - lia.
Qed.

(* ------------------------------------------------------------------ *)
(** * Lemmas: records *)
(* ------------------------------------------------------------------ *)

(** What the code relies on for a multiplication by a factor between 0 and 1. *)
Definition scale_ok (f : Z -> outcome Z) : Prop :=
  f INFINITE_VAL = Ok INFINITE_VAL /\ forall d, ordinary d -> exists q, f d = Ok q /\ 0 <= q <= d.
Definition env_ok (env : db_env_t) : Prop :=
  ordinary (de_now env) /\ scale_ok (de_rand env) /\ scale_ok (de_ratio env).

Lemma scale_delay f d : scale_ok f -> delay_ok d -> exists q, f d = Ok q /\ delay_ok q.
Proof.
  intros [Hi Hf] [Hd| ->]; [|rewrite Hi; eexists; split; [done|by right]].
  destruct (Hf d Hd) as (q & Hq & Hle). exists q. split; [done|]. left. unfold ordinary in *. lia.
Qed.

Lemma a_bit_less_ok f m d :
  scale_ok f -> ordinary m -> ordinary d -> exists q, a_bit_less f m d = Ok q /\ delay_ok q.
Proof.
  intros [_ Hf] Hm Hd. destruct (Hf d Hd) as (q & Hq & Hle). unfold a_bit_less.
  pose proof (ordinary_below d Hd) as Hb. rewrite (proj2 (Z.eqb_neq _ _)) by lia. rewrite Hq. cbn [mbind outcome_bind].
  assert (ordinary q) by (unfold ordinary in *; lia). rewrite delay_add_ordinary by done. cbn [mbind outcome_bind].
  destruct (Z.ltb_spec d (q + m)); [exists q; split; [done|by left]|].
  rewrite delay_sub_ordinary by done. exists (d - m).
  assert (Ho : ordinary (d - m)) by (unfold ordinary in *; lia). split; [|by left].
  f_equal. apply wrap_small. pose proof (ordinary_below _ Ho). unfold in_range, INFINITE_VAL in *. lia.
Qed.

Lemma cpu_republish_ok env r d :
  env_ok env -> profile_ok (db_profile d) -> ordinary (rec_ttl r) ->
  exists q, cpu_republish_delay (de_rand env) (de_ratio env) r d = Ok q /\ delay_ok q.
Proof.
  intros (Hn & Hrand & Hratio) (Hm & Hp & Hs) Ht. unfold cpu_republish_delay.
  destruct (is_remote_db d); [by apply scale_delay|].
  destruct (a_bit_less_ok (de_ratio env) (republish_store_timeout (db_profile d)) (rec_ttl r)) as (q1 & -> & Hq1); [done..|].
  cbn [mbind outcome_bind].
  assert (exists q2, (if negb (delay_is_special (rec_republish_period (db_profile d)))
    then de_rand env (rec_republish_period (db_profile d)) else Ok INFINITE_VAL) = Ok q2 /\ delay_ok q2) as (q2 & -> & Hq2).
  { destruct (negb _); [by apply scale_delay|]. eexists. split; [done|by right]. }
  cbn [mbind outcome_bind]. eexists. split; [done|]. by destruct (q2 <? q1).
Qed.

(** The date a record stored at [now] expires. *)
Definition expiry (remote : bool) (now : Z) (r : kad_rec_t) : Z := if remote then now + rec_ttl r else INFINITE_VAL.

Lemma rec_ctor_spec env r d :
  env_ok env -> db_wf d -> rec_ids_ok r -> ordinary (rec_ttl r) -> recid_db d !! recid r = None ->
  exists dist size dr, rec_ctor env r d = Ok (set_db dist (<[recid r := dr]> (recid_db d)) size d) /\
    dr_rec dr = r /\ next_expire_date (expire_timeout dr) = expiry (is_remote_db d) (de_now env) r /\
    db_wf (set_db dist (<[recid r := dr]> (recid_db d)) size d).
Proof.
  intros Henv Hwf Hids Ht Hnew. pose proof Henv as (Hn & _).
  destruct (cpu_republish_ok env r d Henv (wf_profile d Hwf) Ht) as (q & Hq & Hqok). unfold rec_ctor. rewrite Hq. cbn [mbind outcome_bind].
  destruct (start_ok (de_now env) q timeout_ctor Hn Hqok) as (t1 & -> & Hc1 & _). cbn [mbind outcome_bind].
  destruct (start_ok (de_now env) (cpu_expire_delay r d) timeout_ctor Hn) as (t2 & -> & Hc2 & Hd2 & Hi2).
  { unfold cpu_expire_delay. destruct (is_remote_db d); [by left|by right]. }
  cbn [mbind outcome_bind]. unfold cpu_expire_delay in Hd2, Hi2.
  assert (Hexp : next_expire_date t2 = expiry (is_remote_db d) (de_now env) r).
  { unfold expiry. destruct (is_remote_db d); auto. }
  destruct (rec_dolink_spec (DbRec r t1 t2) d) as (dist & size & E & Hwf'); [done|done| |].
  - split; [done|]. split; [done|]. split; [done|]. split; [done|]. split; [done|]. cbn [expire_timeout dr_rec].
    rewrite Hexp. unfold expiry. destruct (is_remote_db d); [by exists (de_now env)|done].
  - cbn [dr_rec] in E, Hwf'. by exists dist, size, (DbRec r t1 t2).
Qed.

(** The lifetime a record that expires at [date] is given out with at [now];
    a date that is past wraps. *)
Definition remaining (now date : Z) : Z := if date =? INFINITE_VAL then INFINITE_VAL else wrap 64 (date - now).
Definition current (remote : bool) (now : Z) (r : kad_rec_t) (date : Z) : kad_rec_t :=
  if remote then set_ttl (remaining now date) r else r.

Lemma get_kad_rec_spec now remote i r :
  ordinary now -> rec_ok remote i r ->
  get_kad_rec now remote r = Ok (current remote now (dr_rec r) (next_expire_date (expire_timeout r))).
Proof.
  intros Hn (_ & _ & _ & Hc & Httl & Hdate). unfold get_kad_rec, current. destruct remote; [|done].
  destruct Hdate as (t0 & Ht0 & Hdate). pose proof (ordinary_sum _ _ Ht0 Httl) as Hs.
  unfold get_expire_delay, timeout_is_started, timeout_is_null. rewrite Hc, Hdate. cbn [negb dbg_assert].
  destruct (ordinary_special _ Hs) as [E1 E2]. rewrite E1. cbn [negb dbg_assert].
  unfold delay_is_special, delay_is_always, delay_is_never, remaining. change (?d =? INFINITE_VAL) with (delay_is_infinite d).
  rewrite E2. cbn [orb]. unfold delay_sub, delay_op. apply ordinary_below in Hn.
  destruct (ordinary_special now Hn) as [-> ->]. by rewrite E1, E2.
Qed.

(* ------------------------------------------------------------------ *)
(** * Specification: a map from identifiers to records and expiry dates *)
(* ------------------------------------------------------------------ *)

Notation "'db_spec'" := (gmap kad_id (kad_rec_t * Z)).
Definition db_abs (d : kad_db_t) : db_spec :=
  (fun r => (dr_rec r, next_expire_date (expire_timeout r))) <$> recid_db d.

Definition spec_size (S : db_spec) : nat := sum_list ((fun p => length (rec_payload p.1)) <$> (map_to_list S).*2).
Definition spec_accept (p : kad_db_profile_t) (r : kad_rec_t) (S : db_spec) : Prop :=
  (keyid_nodups_ok p = true -> map_Forall (fun _ q => keyid q.1 <> keyid r) S) /\
  rec_ttl r <= rec_max_ttl p /\
  (rec_max_len p = 0 \/ length (rec_payload r) <= rec_max_len p)%nat /\
  (db_max_len p = 0 \/ spec_size S + length (rec_payload r) <= db_max_len p)%nat.
#[export] Instance spec_accept_dec p r S : Decision (spec_accept p r S).
Proof. unfold spec_accept. apply _. Defined.

(** A record replaces the one with its identifier if it lives longer. *)
Definition spec_store (p : kad_db_profile_t) (remote : bool) (now : Z) (r : kad_rec_t) (S : db_spec) : db_spec :=
  if decide (spec_accept p r S) then
    match S !! recid r with
    | Some (old, date) =>
      if rec_ttl (current remote now old date) <? rec_ttl r then <[recid r := (r, expiry remote now r)]> S else S
    | None => <[recid r := (r, expiry remote now r)]> S
    end
  else S.

Definition spec_step (p : kad_db_profile_t) (remote : bool) (e : db_event) (S : db_spec) : db_spec :=
  match e with
  | EvStore env r => spec_store p remote (de_now env) r S
  | EvRemove i | EvExpire i => delete i S
  | EvRepublish _ _ | EvNewNode _ _ => S
  end.

Section refine.
Context `{InetLib}.

(** A timer fires for a record that is there; a node that is notified is fully
    qualified ([notify_srckaddr] asserts it). *)
Definition db_ev_ok (e : db_event) (S : db_spec) : Prop :=
  match e with
  | EvStore env r => env_ok env /\ rec_ids_ok r /\ 0 <= rec_ttl r
  | EvRemove _ => True
  | EvExpire i => is_Some (S !! i)
  | EvRepublish env i => env_ok env /\ is_Some (S !! i)
  | EvNewNode now a => ordinary now /\ kad_id_ok (peerid a) /\ kad_addr_is_fully_qualified a = Ok true
  end.
Fixpoint db_events_ok (p : kad_db_profile_t) (remote : bool) (es : list db_event) (S : db_spec) : Prop :=
  match es with
  | [] => True
  | e :: es' => db_ev_ok e S /\ db_events_ok p remote es' (spec_step p remote e S)
  end.
Definition db_spec_run (p : kad_db_profile_t) (remote : bool) (es : list db_event) (S : db_spec) : db_spec :=
  fold_left (fun S e => spec_step p remote e S) es S.

Lemma spec_size_abs d : db_wf d -> spec_size (db_abs d) = db_size d.
Proof using.
  clear. intros Hwf. rewrite (wf_size d Hwf). unfold spec_size, db_abs. rewrite map_to_list_fmap.
  rewrite <- !list_fmap_compose. by f_equal.
Qed.

Lemma contain_keyid_spec k d :
  db_wf d -> kad_id_ok k -> contain_keyid k d = negb (bool_decide (map_Forall (fun _ q => keyid q.1 <> k) (db_abs d))).
Proof using.
  clear. intros Hwf Hk. pose proof (wf_entries d Hwf) as He. pose proof (wf_local d Hwf) as Hl.
  assert (Hdk : kad_id_ok (get_distid k d)) by (by apply id_dist_ok).
  destruct (lower_bound_spec (get_distid k d) (distid_db d) Hdk He (wf_sorted d Hwf)) as (pre & E & Hpre & Hge).
  assert (Hex : forall i, (get_distid k d, i) ∈ distid_db d <-> exists r, recid_db d !! i = Some r /\ keyid (dr_rec r) = k).
  { intros i. rewrite wf_entry by done. split; intros (r & Hr & Hkr); exists r; split; try done.
    - destruct (wf_recs d Hwf i r Hr) as (_ & [_ ?] & _). symmetry. by apply (id_dist_inj (db_local_peerid d)).
    - by rewrite Hkr. }
  unfold contain_keyid. set (iter := lower_bound kad_id_lt (get_distid k d) (distid_db d)) in *.
  case_bool_decide as Hall; cbn [negb].
  - destruct iter as [|[k' i] it]; [done|]. apply negb_false_iff. rewrite E in He. apply Forall_app in He as [_ He].
    apply Forall_cons in He as [Hk' _]. simpl in Hk'. rewrite kad_id_lt_spec by done. apply Z.ltb_lt.
    apply Forall_cons in Hge as [Hge _]. simpl in Hge. destruct (decide (k' = get_distid k d)) as [->|Hne].
    + assert (Hin : (get_distid k d, i) ∈ distid_db d) by (rewrite E; apply elem_of_app; right; constructor).
      apply Hex in Hin as (r & Hr & Hkr). exfalso. apply (Hall i (dr_rec r, next_expire_date (expire_timeout r))); [|done].
      unfold db_abs. by rewrite lookup_fmap, Hr.
    + enough (be_value k' <> be_value (get_distid k d)) by lia. intros Ev. apply Hne. by apply (id_value_inj KAD_ID_SIZE).
  - apply map_not_Forall in Hall as (i & q & Hq & Hkq); [|intros; apply _]. unfold db_abs in Hq.
    apply lookup_fmap_Some in Hq as (r & <- & Hr). simpl in Hkq. apply dec_stable in Hkq.
    assert (Hin : (get_distid k d, i) ∈ iter).
    { assert (Hin : (get_distid k d, i) ∈ distid_db d) by (apply Hex; by exists r). rewrite E in Hin.
      apply elem_of_app in Hin as [Hin|]; [|done]. rewrite Forall_forall in Hpre. specialize (Hpre _ Hin). simpl in Hpre. lia. }
    pose proof (wf_sorted d Hwf) as Hs. rewrite E in Hs, He. apply StronglySorted_app_1_r in Hs. apply Forall_app in He as [_ He].
    destruct iter as [|[k' j] it]; [by apply not_elem_of_nil in Hin|]. apply negb_true_iff.
    apply Forall_cons in He as [Hk' _]. simpl in Hk'. rewrite kad_id_lt_spec by done. apply Z.ltb_ge.
    apply elem_of_cons in Hin as [[= -> _]|Hin]; [lia|]. apply StronglySorted_inv in Hs as [_ Hs].
    rewrite Forall_forall in Hs. specialize (Hs _ Hin). unfold entry_le in Hs. simpl in Hs. lia.
Qed.

Lemma may_accept_spec r d :
  db_wf d -> kad_id_ok (keyid r) -> may_accept r d = bool_decide (spec_accept (db_profile d) r (db_abs d)).
Proof using.
  clear. intros Hwf Hk. unfold may_accept, spec_accept. rewrite (contain_keyid_spec (keyid r) d Hwf Hk).
  pose proof (spec_size_abs d Hwf) as Hsz. symmetry. destruct (keyid_nodups_ok _ && _) eqn:E1; bool_to_prop.
  { apply bool_decide_eq_false. intros (Hn & _). auto. }
  destruct (Z.ltb_spec (rec_max_ttl (db_profile d)) (rec_ttl r)); [apply bool_decide_eq_false; lia|].
  destruct (bool_decide (rec_max_len _ <> 0)%nat && _) eqn:E2; bool_to_prop; [apply bool_decide_eq_false; lia|].
  destruct (bool_decide (db_max_len _ <> 0)%nat && _) eqn:E3; bool_to_prop; [apply bool_decide_eq_false; lia|].
  apply bool_decide_eq_true. apply andb_false_iff in E1, E2, E3. rewrite !bool_decide_eq_false in E2, E3.
  split; [|lia]. intros Hn. destruct E1 as [E1|E1]; [congruence|]. by bool_to_prop.
Qed.

(** The operations keep the identity and the profile. *)
Definition same_cfg (d d' : kad_db_t) : Prop :=
  db_local_peerid d' = db_local_peerid d /\ is_remote_db d' = is_remote_db d /\ db_profile d' = db_profile d.
Definition gives (S' : db_spec) (d : kad_db_t) (m : outcome kad_db_t) : Prop :=
  exists d', m = Ok d' /\ db_wf d' /\ db_abs d' = S' /\ same_cfg d d'.

Lemma ctor_gives env r d :
  env_ok env -> db_wf d -> rec_ids_ok r -> ordinary (rec_ttl r) -> recid_db d !! recid r = None ->
  gives (<[recid r := (r, expiry (is_remote_db d) (de_now env) r)]> (db_abs d)) d (rec_ctor env r d).
Proof using.
  clear. intros Henv Hwf Hids Ht Hnew.
  destruct (rec_ctor_spec env r d Henv Hwf Hids Ht Hnew) as (dist & size & dr & E & Hr & Hdate & Hwf').
  eexists. split; [exact E|]. split; [exact Hwf'|]. split; [|done]. unfold db_abs. cbn [set_db recid_db].
  by rewrite fmap_insert, Hr, Hdate.
Qed.

Lemma dtor_gives i r d :
  db_wf d -> recid_db d !! i = Some r -> gives (delete i (db_abs d)) d (rec_dtor r d).
Proof using.
  clear. intros Hwf Hi. destruct (rec_unlink_spec i r d Hwf Hi) as (dist & size & E & Hwf').
  eexists. split; [exact E|]. split; [exact Hwf'|]. split; [|done]. unfold db_abs. cbn [set_db recid_db].
  by rewrite fmap_delete.
Qed.

Lemma store_gives env r d :
  env_ok env -> db_wf d -> rec_ids_ok r -> 0 <= rec_ttl r ->
  gives (spec_store (db_profile d) (is_remote_db d) (de_now env) r (db_abs d)) d
    (if may_accept r d then db_update env r d else Ok d).
Proof using.
  clear. intros Henv Hwf Hids Ht. rewrite may_accept_spec by first [done|apply Hids]. unfold spec_store.
  assert (Hsame : gives (db_abs d) d (Ok d)) by (by exists d).
  case_bool_decide as Hacc; [rewrite decide_True by done|by rewrite decide_False].
  assert (Hord : ordinary (rec_ttl r)).
  { destruct Hacc as (_ & H & _). destruct (wf_profile d Hwf) as (Hm & _). unfold ordinary in *. lia. }
  unfold db_update. rewrite may_accept_spec, bool_decide_eq_true_2 by first [done|apply Hids]. cbn [dbg_assert].
  replace (db_abs d !! recid r) with ((fun dr => (dr_rec dr, next_expire_date (expire_timeout dr))) <$> recid_db d !! recid r)
    by (unfold db_abs; by rewrite lookup_fmap).
  destruct (recid_db d !! recid r) as [dr|] eqn:Hdr; cbn [fmap option_fmap option_map]; [|by apply ctor_gives].
  pose proof (wf_recs d Hwf _ _ Hdr) as Hok. pose proof Hok as (Hid & _).
  rewrite (get_kad_rec_spec _ _ (recid r)) by first [done|apply Henv]. cbn [mbind outcome_bind].
  set (cur := current _ _ _ _). assert (Hcur : recid cur = recid r) by (subst cur; unfold current; by destruct (is_remote_db d)).
  unfold is_tie_winner_against. rewrite Hcur, id_eq_spec, bool_decide_eq_true_2 by first [done|apply Hids]. cbn [dbg_assert].
  destruct (rec_ttl cur <? rec_ttl r); cbn [mbind outcome_bind]; [|exact Hsame].
  destruct (dtor_gives (recid r) dr d Hwf Hdr) as (d1 & E & Hwf1 & Habs & Hloc & Hrem & Hprof). rewrite E. cbn [mbind outcome_bind].
  assert (Hnone : recid_db d1 !! recid r = None).
  { apply (f_equal (lookup (recid r))) in Habs. unfold db_abs in Habs.
    rewrite lookup_delete_eq, lookup_fmap in Habs. by destruct (recid_db d1 !! recid r). }
  destruct (ctor_gives env r d1 Henv Hwf1 Hids Hord Hnone) as (d2 & E2 & Hwf2 & Habs2 & ? & ? & ?).
  exists d2. split; [exact E2|]. split; [exact Hwf2|]. split; [|unfold same_cfg; intuition congruence].
  by rewrite Habs2, Hrem, Habs, insert_delete_eq.
Qed.

Lemma remove_gives i d : db_wf d -> gives (delete i (db_abs d)) d (db_remove i d).
Proof using.
  clear. intros Hwf. unfold db_remove. destruct (recid_db d !! i) as [r|] eqn:Hi; [by apply dtor_gives|].
  exists d. split; [done|]. split; [done|]. split; [|done].
  rewrite delete_id; [done|]. unfold db_abs. by rewrite lookup_fmap, Hi.
Qed.

Lemma abs_lookup i d : is_Some (db_abs d !! i) -> exists r, recid_db d !! i = Some r.
Proof using. clear. unfold db_abs. rewrite lookup_fmap. destruct (recid_db d !! i) as [r|]; [by exists r|]. by intros []. Qed.

Lemma republish_gives env i d :
  env_ok env -> db_wf d -> is_Some (db_abs d !! i) -> gives (db_abs d) d (republish_timeout_cb env i d).
Proof using.
  clear. intros Henv Hwf (r & Hr)%abs_lookup. pose proof (wf_recs d Hwf i r Hr) as (Hid & Hids & Hcb & Htim & Httl & Hexp).
  unfold republish_timeout_cb, deref_rec. rewrite Hr. cbn [mbind outcome_bind].
  destruct (cpu_republish_ok env (dr_rec r) (db_emit (RepublishRec (dr_rec r)) d) Henv (wf_profile d Hwf) Httl) as (q & Hq & Hqok).
  assert (E : forall t, (let* delay := cpu_republish_delay (de_rand env) (de_ratio env) (dr_rec r) (db_emit (RepublishRec (dr_rec r)) d) in
    let* t' := change_period delay t in Ok (Some t')) = (let* t' := change_period q t in Ok (Some t'))) by (intros t; by rewrite Hq).
  unfold cpp_expired_cb. rewrite E.
  destruct (expired_ok (de_now env) q (republish_timeout r)) as (t1 & Ht1 & Hc1); [apply Henv|done|done|].
  unfold cpp_expired_cb in Ht1. rewrite Ht1. cbn [mbind outcome_bind]. eexists. split; [reflexivity|].
  assert (Habs : db_abs (set_db (distid_db d) (<[i := DbRec (dr_rec r) t1 (expire_timeout r)]> (recid_db d)) (db_size d) (db_emit (RepublishRec (dr_rec r)) d)) = db_abs d).
  { unfold db_abs. cbn [set_db recid_db]. rewrite fmap_insert. apply insert_id. by rewrite lookup_fmap, Hr. }
  split; [|by split]. destruct Hwf as [Hl Hp Hrs Hperm Hs Hsz].
  assert (Hm : entry_of (db_local_peerid d) <$> map_to_list (<[i := DbRec (dr_rec r) t1 (expire_timeout r)]> (recid_db d)) ≡ₚ
    entry_of (db_local_peerid d) <$> map_to_list (recid_db d) /\
    sum_list (dr_len <$> (map_to_list (<[i := DbRec (dr_rec r) t1 (expire_timeout r)]> (recid_db d))).*2) =
    sum_list (dr_len <$> (map_to_list (recid_db d)).*2)).
  { rewrite <- insert_delete_eq, map_to_list_insert by apply lookup_delete_eq.
    assert (Hperm' : (i, r) :: map_to_list (delete i (recid_db d)) ≡ₚ map_to_list (recid_db d)) by (by apply map_to_list_delete).
    rewrite <- Hperm'. by split. }
  split; cbn [set_db db_emit db_local_peerid db_profile recid_db distid_db db_size is_remote_db]; [done|done| | |done|].
  - apply map_Forall_insert_2; [|done]. by split.
  - by rewrite (proj1 Hm).
  - by rewrite (proj2 Hm).
Qed.

(** What [notify_new_node] asks for, entry by entry. *)
Definition replication (now : Z) (a : kad_addr_t) (d : kad_db_t) (e : entry) : option db_out_t :=
  (fun r => let kr := current (is_remote_db d) now (dr_rec r) (next_expire_date (expire_timeout r)) in
            ReplicateIn (Recdups (keyid kr) [recval_of kr]) a) <$> recid_db d !! e.2.
Definition emit_all (os : list db_out_t) (d : kad_db_t) : kad_db_t :=
  KadDb (db_local_peerid d) (is_remote_db d) (db_profile d) (distid_db d) (recid_db d) (db_size d) (db_out d ++ os).

Lemma new_node_loop_spec now a d iter :
  ordinary now -> db_wf d -> kad_addr_is_fully_qualified a = Ok true -> Forall (fun e => e ∈ distid_db d) iter ->
  new_node_loop now iter a d = Ok (emit_all (omap (replication now a d) iter) d).
Proof.
  intros Hn Hwf Ha Hit. assert (forall os, new_node_loop now iter a (emit_all os d) = Ok (emit_all (os ++ omap (replication now a d) iter) d)) as H1.
  2:{ specialize (H1 []). unfold emit_all at 1 in H1. rewrite app_nil_r in H1. by destruct d. }
  induction Hit as [|[k p] iter Hin Hit IH]; intros os; [by rewrite app_nil_r|].
  apply wf_entry in Hin as (r & Hr & _); [|done]. pose proof (wf_recs d Hwf p r Hr) as Hok. pose proof Hok as (_ & (Hid & Hkid) & _).
  cbn [new_node_loop omap list_omap]. unfold deref_rec. cbn [emit_all recid_db is_remote_db]. rewrite Hr. cbn [mbind outcome_bind].
  rewrite (get_kad_rec_spec now _ p) by done. cbn [mbind outcome_bind].
  set (kr := current _ _ _ _). assert (Hkr : recid kr = recid (dr_rec r) /\ keyid kr = keyid (dr_rec r)).
  { subst kr. unfold current. by destruct (is_remote_db d). }
  assert (Hrep : replication now a d (k, p) = Some (ReplicateIn (Recdups (keyid kr) [recval_of kr]) a)).
  { unfold replication. cbn [snd]. by rewrite Hr. }
  rewrite Hrep. unfold replicate_in_rec.
  assert (Hup : recdups_update kr recdups_null = Ok (Recdups (keyid kr) [recval_of kr])).
  { rewrite <- (rec_of_recval (keyid kr) kr eq_refl) at 1.
    apply update_one; [by rewrite (proj2 Hkr)|cbn [recval_of rv_recid]; by rewrite (proj1 Hkr)|done|by apply not_elem_of_nil|by left]. }
  rewrite Hup. cbn [mbind outcome_bind]. unfold replicate_in. rewrite Ha. cbn [mbind outcome_bind dbg_assert].
  specialize (IH (os ++ [ReplicateIn (Recdups (keyid kr) [recval_of kr]) a])). rewrite <- app_assoc in IH. cbn [app] in IH.
  rewrite <- IH. unfold db_emit, emit_all. cbn [db_local_peerid is_remote_db db_profile distid_db recid_db db_size db_out].
  by rewrite app_assoc.
Qed.
End refine.

(* ------------------------------------------------------------------ *)
(** * Lemmas: queries *)
(* ------------------------------------------------------------------ *)

Section queries.
Context (now : Z) (k gt : kad_id) (d : kad_db_t).
Hypothesis Hnow : ordinary now.
Hypothesis Hk : kad_id_ok k.
Hypothesis Hgt : kad_id_ok gt.
Hypothesis Hwf : db_wf d.

Definition after_gt (i : kad_id) : Prop := gt = kad_id_null \/ be_value gt < be_value i.

Lemma skip_spec i : kad_id_ok i -> negb (id_is_null KAD_ID_SIZE gt) && id_le KAD_ID_SIZE i gt = negb (bool_decide (after_gt i)).
Proof using Hgt.
  intros Hi. unfold after_gt, id_le. rewrite id_is_null_spec, id_compare_spec by done.
  assert (Hn : gt = kad_id_null <-> be_value gt = 0).
  { split; [intros ->; apply be_value_build_null|]. intros E. apply (id_value_inj KAD_ID_SIZE); [done|apply kad_id_null_ok|].
    rewrite E. symmetry. apply be_value_build_null. }
  destruct (Z.eqb_spec (be_value gt) 0) as [E|E]; cbn [negb andb].
  - by rewrite bool_decide_eq_true_2 by (left; by apply Hn).
  - case_bool_decide as Hd; cbn [negb].
    + apply Z.leb_gt. destruct Hd as [Hd|]; [by apply Hn in Hd|lia].
    + apply Z.leb_le. assert (~ be_value gt < be_value i) by auto. lia.
Qed.

Definition found (e : entry) : option recval_t :=
  match recid_db d !! e.2 with
  | Some r => if decide (keyid (dr_rec r) = k /\ after_gt e.2)
              then Some (recval_of (current (is_remote_db d) now (dr_rec r) (next_expire_date (expire_timeout r)))) else None
  | None => None
  end.

Lemma found_id e rv : found e = Some rv -> rv_recid rv = e.2.
Proof using Hwf.
  unfold found. destruct (recid_db d !! e.2) as [r|] eqn:Hr; [|done]. case_decide; [|done]. intros [= <-].
  destruct (wf_recs d Hwf _ _ Hr) as (Hi & _). unfold current. by destruct (is_remote_db d).
Qed.

Lemma found_far e : e ∈ distid_db d -> e.1 <> get_distid k d -> found e = None.
Proof using Hwf Hk.
  destruct e as [ke i]. intros (r & Hr & ->)%wf_entry Hne; [|done]. unfold found. cbn [snd fst] in *. rewrite Hr.
  rewrite decide_False; [done|]. intros [E _]. apply Hne. unfold get_distid. by rewrite E.
Qed.

Lemma found_none iter ke i :
  Forall (fun e => e ∈ distid_db d) ((ke, i) :: iter) -> Forall (entry_le (ke, i)) iter ->
  be_value (get_distid k d) <= be_value ke -> ke <> get_distid k d -> kad_id_ok ke ->
  omap found ((ke, i) :: iter) = [].
Proof using Hk Hwf.
  intros Hin Hle Hge Hne Hke. assert (Hdk : kad_id_ok (get_distid k d)) by (apply id_dist_ok; [apply (wf_local d Hwf)|done]).
  apply elem_of_nil_inv. intros rv (e & Hein & Hrv)%list_elem_of_omap. rewrite Forall_forall in Hin, Hle.
  rewrite (found_far e (Hin e Hein)) in Hrv; [done|]. intros E1. apply Hne. apply (id_value_inj KAD_ID_SIZE); [done..|].
  apply elem_of_cons in Hein as [->|Hein]; [by rewrite <- E1|]. specialize (Hle _ Hein).
  unfold entry_le in Hle. cbn [fst] in Hle. rewrite E1 in Hle. lia.
Qed.

Lemma found_some ke i r :
  recid_db d !! i = Some r -> keyid (dr_rec r) = k -> after_gt i ->
  exists kr, get_kad_rec now (is_remote_db d) r = Ok kr /\ found (ke, i) = Some (recval_of kr) /\
    recid kr = i /\ keyid kr = k.
Proof using Hnow Hwf.
  intros Hr Hkr Ha. pose proof (wf_recs d Hwf i r Hr) as Hok. pose proof Hok as (Hi & _).
  exists (current (is_remote_db d) now (dr_rec r) (next_expire_date (expire_timeout r))).
  split; [by apply (get_kad_rec_spec now _ i)|]. unfold found, current. cbn [snd]. rewrite Hr, decide_True by done.
  by destruct (is_remote_db d).
Qed.

Lemma find_loop_spec iter k0 db0 :
  Forall (fun e => e ∈ distid_db d) iter -> StronglySorted entry_le iter ->
  Forall (fun e : entry => be_value (get_distid k d) <= be_value e.1) iter ->
  Forall (fun rv => kad_id_ok (rv_recid rv)) db0 -> NoDup ((rv_recid <$> db0) ++ iter.*2) ->
  k0 = kad_id_null \/ k0 = k ->
  exists k1, find_loop now (get_distid k d) gt iter d (Recdups k0 db0) = Ok (Recdups k1 (db0 ++ omap found iter)) /\
    (k0 = k \/ omap found iter <> [] -> k1 = k) /\ (k1 = k0 \/ k1 = k).
Proof using Hnow Hk Hgt Hwf.
  intros Hin. revert k0 db0. induction Hin as [|[ke i] iter He Hin IH]; intros k0 db0 Hs Hge Hdb Hnd Hk0.
  { exists k0. rewrite app_nil_r. split; [done|]. split; [by intros []|by left]. }
  pose proof (wf_local d Hwf) as Hl. assert (Hdk : kad_id_ok (get_distid k d)) by (by apply id_dist_ok).
  pose proof He as (r & Hr & Eke)%wf_entry; [|done]. destruct (wf_recs d Hwf i r Hr) as (Hi & [Hid Hkr] & _). rewrite Hi in Hid.
  apply StronglySorted_inv in Hs as [Hs Hle]. pose proof Hge as [Hge1 Hge2]%Forall_cons. cbn [fst] in Hge1.
  assert (Hke : kad_id_ok ke) by (subst ke; by apply id_dist_ok). cbn [find_loop]. rewrite id_eq_spec by done.
  case_bool_decide as Ek.
  2:{ exists k0. rewrite (found_none iter ke i) by (try done; by constructor). rewrite app_nil_r. split; [done|]. split; [by intros []|by left]. }
  assert (Hkk : keyid (dr_rec r) = k).
  { rewrite Eke in Ek. unfold get_distid in Ek. by apply (id_dist_inj (db_local_peerid d)) in Ek. }
  unfold deref_rec. rewrite Hr. cbn [mbind outcome_bind]. rewrite Hi, skip_spec by done.
  change (omap found ((ke, i) :: iter)) with (match found (ke, i) with Some rv => rv :: omap found iter | None => omap found iter end).
  rewrite fmap_cons in Hnd. cbn [snd] in Hnd. rewrite <- Permutation_middle in Hnd. apply NoDup_cons in Hnd as [Hnew Hnd].
  case_bool_decide as Ha; cbn [negb].
  - destruct (found_some ke i r Hr Hkk Ha) as (kr & -> & -> & Hkri & Hkrk). cbn [mbind outcome_bind].
    assert (Hup : recdups_update kr (Recdups k0 db0) = Ok (Recdups k (db0 ++ [recval_of kr]))).
    { rewrite <- (rec_of_recval k kr Hkrk) at 1.
      apply update_one; [done| |done| |done]; cbn [recval_of rv_recid]; rewrite Hkri; [done|].
      intros Hd. apply Hnew. apply elem_of_app. by left. }
    rewrite Hup. cbn [mbind outcome_bind].
    destruct (IH k (db0 ++ [recval_of kr])) as (k1 & E1 & H2); [done|done| | |by right|].
    + apply Forall_app. split; [done|]. constructor; [|done]. cbn [recval_of rv_recid]. by rewrite Hkri.
    + rewrite fmap_app, <- app_assoc. cbn [fmap list_fmap app recval_of rv_recid]. rewrite Hkri, <- Permutation_middle.
      by constructor.
    + exists k1. rewrite E1, <- app_assoc. split; [done|]. assert (k1 = k) as -> by (apply H2; by left). split; [done|by right].
  - assert (Hf : found (ke, i) = None).
    { unfold found. cbn [snd]. rewrite Hr, decide_False; [done|by intros []]. }
    rewrite Hf. by apply IH.
Qed.
End queries.

Lemma wf_ids d : db_wf d -> NoDup (distid_db d).*2.
Proof.
  intros Hwf. rewrite (wf_perm d Hwf), <- list_fmap_compose. apply (NoDup_fst_map_to_list (recid_db d)).
Qed.

Lemma find_by_keyid_spec now k gt d :
  ordinary now -> kad_id_ok k -> kad_id_ok gt -> db_wf d ->
  exists iter k1, find_by_keyid now k gt d = Ok (Recdups k1 (omap (found now k gt d) iter)) /\
    (omap (found now k gt d) iter <> [] -> k1 = k) /\ (k1 = kad_id_null \/ k1 = k) /\ sublist iter (distid_db d) /\
    (forall e, e ∈ distid_db d -> e.1 = get_distid k d -> e ∈ iter).
Proof.
  intros Hn Hk Hgt Hwf. assert (Hdk : kad_id_ok (get_distid k d)) by (apply id_dist_ok; [apply (wf_local d Hwf)|done]).
  destruct (lower_bound_spec (get_distid k d) (distid_db d) Hdk (wf_entries d Hwf) (wf_sorted d Hwf)) as (pre & E & Hpre & Hge).
  set (iter := lower_bound kad_id_lt (get_distid k d) (distid_db d)) in *.
  assert (Hsub : sublist iter (distid_db d)) by (rewrite E; by apply sublist_inserts_l).
  destruct (find_loop_spec now k gt d Hn Hk Hgt Hwf iter kad_id_null []) as (k1 & E1 & H1).
  - apply Forall_forall. intros e He. by eapply elem_of_sublist.
  - apply (sorted_sublist _ _ _ Hsub (wf_sorted d Hwf)).
  - done.
  - done.
  - cbn [fmap list_fmap app]. eapply sublist_NoDup; [by apply (wf_ids d)|].
    rewrite E, fmap_app. by apply sublist_inserts_l.
  - by left.
  - exists iter, k1. split; [exact E1|]. split; [intros Hne; apply H1; by right|]. split; [apply H1|]. split; [done|].
    intros e He Hkey. rewrite E in He. apply elem_of_app in He as [He|]; [|done].
    rewrite Forall_forall in Hpre. specialize (Hpre e He). rewrite Hkey in Hpre. lia.
Qed.

Section props.
Context `{InetLib}.

Lemma step_gives e d :
  db_wf d -> db_ev_ok e (db_abs d) -> gives (spec_step (db_profile d) (is_remote_db d) e (db_abs d)) d (db_step e d).
Proof.
  intros Hwf Hok. destruct e as [env r|i|i|env i|now a]; cbn [db_step spec_step db_ev_ok] in *.
  - destruct Hok as (? & ? & ?). by apply store_gives.
  - by apply remove_gives.
  - apply abs_lookup in Hok as (r & Hr). unfold expire_timeout_cb, deref_rec. rewrite Hr. cbn [mbind outcome_bind].
    by apply dtor_gives.
  - destruct Hok. by apply republish_gives.
  - destruct Hok as (Hn & Hid & Ha). unfold notify_new_node. rewrite new_node_loop_spec; [|done..|].
    + eexists. split; [done|]. split; [by destruct Hwf|]. by split.
    + assert (Hm : kad_id_ok (id_shiftr KAD_ID_SIZE (id_dist (db_local_peerid d) (peerid a)) 1)).
      { apply id_shiftr_spec; [by apply id_dist_ok; [apply (wf_local d Hwf)|]|lia]. }
      destruct (lower_bound_spec _ (distid_db d) Hm (wf_entries d Hwf) (wf_sorted d Hwf)) as (pre & E & _).
      apply Forall_forall. intros e He. rewrite E. apply elem_of_app. by right.
Qed.

Lemma run_gives es d :
  db_wf d -> db_events_ok (db_profile d) (is_remote_db d) es (db_abs d) ->
  gives (db_spec_run (db_profile d) (is_remote_db d) es (db_abs d)) d (db_run es d).
Proof.
  revert d. induction es as [|e es IH]; intros d Hwf Hok.
  { exists d. split; [done|]. split; [exact Hwf|]. by split. }
  destruct Hok as [He Hes]. cbn [db_run]. destruct (step_gives e d Hwf He) as (d1 & -> & Hwf1 & Habs & Hl & Hr & Hp).
  cbn [mbind outcome_bind]. rewrite <- Habs, <- Hr, <- Hp in Hes.
  destruct (IH d1 Hwf1 Hes) as (d2 & E & Hwf2 & Habs2 & Hl2 & Hr2 & Hp2). exists d2. split; [exact E|]. split; [exact Hwf2|].
  split; [|unfold same_cfg; intuition congruence]. by rewrite Habs2, Habs, Hr, Hp.
Qed.

(** The limits of the profile, on the specification. *)
Definition within (p : kad_db_profile_t) (S : db_spec) : Prop :=
  (db_max_len p = 0 \/ spec_size S <= db_max_len p)%nat /\
  map_Forall (fun _ q => rec_ttl q.1 <= rec_max_ttl p /\ (rec_max_len p = 0 \/ length (rec_payload q.1) <= rec_max_len p)%nat) S /\
  (keyid_nodups_ok p = true -> forall i j q q', S !! i = Some q -> S !! j = Some q' -> keyid q.1 = keyid q'.1 -> i = j).

Lemma spec_size_delete i S : (spec_size (delete i S) <= spec_size S)%nat.
Proof using.
  clear. unfold spec_size. destruct (S !! i) as [q|] eqn:E; [|by rewrite delete_id].
  rewrite <- (map_to_list_delete S i q E). cbn [fmap list_fmap sum_list]. lia.
Qed.

Lemma spec_size_insert i q S : (spec_size (<[i := q]> S) <= length (rec_payload q.1) + spec_size S)%nat.
Proof using.
  clear. pose proof (spec_size_delete i S) as H. rewrite <- insert_delete_eq. unfold spec_size in *.
  rewrite map_to_list_insert by apply lookup_delete_eq. cbn [fmap list_fmap sum_list]. by apply Nat.add_le_mono_l.
Qed.

Lemma within_delete p i S : within p S -> within p (delete i S).
Proof using.
  clear. intros (H1 & H2 & H3). split; [|split].
  - pose proof (spec_size_delete i S). lia.
  - by apply map_Forall_delete.
  - intros Hn i1 j1 q q' Hi%lookup_delete_Some Hj%lookup_delete_Some. by apply (H3 Hn i1 j1 q q'); destruct_and?.
Qed.

Lemma within_insert p r date S : within p S -> spec_accept p r S -> within p (<[recid r := (r, date)]> S).
Proof using.
  clear. intros (H1 & H2 & H3) (A1 & A2 & A3 & A4). split; [|split].
  - pose proof (spec_size_insert (recid r) (r, date) S). cbn [fst] in *. lia.
  - by apply map_Forall_insert_2.
  - intros Hn i j q q'. specialize (A1 Hn).
    rewrite !lookup_insert_Some. intros [[<- <-]|[Hi Hq]] [[<- <-]|[Hj Hq']] Ek; [done| | |by apply (H3 Hn i j q q')].
    + exfalso. by apply (A1 j q' Hq').
    + exfalso. by apply (A1 i q Hq).
Qed.

Lemma within_run p remote es S : within p S -> within p (db_spec_run p remote es S).
Proof using.
  clear. revert S. induction es as [|e es IH]; intros S HS; [done|]. apply IH.
  destruct e as [env r|i|i|env i|now a]; cbn [spec_step]; try done; [|by apply within_delete..].
  unfold spec_store. destruct (decide (spec_accept p r S)) as [Ha|]; [|done]. pose proof (within_insert p r (expiry remote (de_now env) r) S HS Ha).
  destruct (S !! recid r) as [[old date]|]; [|done]. by destruct (_ <? _).
Qed.
End props.

(* ------------------------------------------------------------------ *)
(** * Lemmas: the new node, the next key *)
(* ------------------------------------------------------------------ *)

(** A record closer to the new node is at least half the distance between the
    nodes away. *)
Lemma closer_half x n : 0 <= x -> 0 <= n -> Z.lxor x n < x -> Z.shiftr n 1 <= x.
Proof.
  intros Hx Hn Hlt. destruct (Z.le_gt_cases (Z.shiftr n 1) x) as [|Hsm]; [done|exfalso].
  rewrite Z.shiftr_div_pow2 in Hsm by lia. change (2 ^ 1) with 2 in Hsm.
  assert (Hn0 : 0 < n) by (destruct (Z.eq_dec n 0) as [->|]; [change (0 / 2) with 0 in Hsm; lia|lia]).
  pose proof (Z.log2_spec n Hn0) as [Hlo Hhi]. pose proof (Z.log2_nonneg n) as Hm.
  assert (Hxm : x < 2 ^ Z.log2 n).
  { rewrite Z.pow_succ_r in Hhi by done. assert (n / 2 < 2 ^ Z.log2 n) by (apply Z.div_lt_upper_bound; lia). lia. }
  assert (Hbit : Z.testbit (Z.lxor x n) (Z.log2 n) = true).
  { rewrite Z.lxor_spec, Z.bit_log2 by done. rewrite Z.testbit_eqb, Z.div_small by lia. done. }
  assert (Hnn : 0 <= Z.lxor x n) by (by apply Z.lxor_nonneg).
  destruct (Z.le_gt_cases (2 ^ Z.log2 n) (Z.lxor x n)) as [|Hs]; [lia|].
  rewrite Z.testbit_eqb, Z.div_small in Hbit by lia. done.
Qed.

Lemma lxor_via l k a : Z.lxor (Z.lxor l k) (Z.lxor l a) = Z.lxor a k.
Proof. by rewrite (Z.lxor_comm l k), Z.lxor_assoc, <- (Z.lxor_assoc l l a), Z.lxor_nilpotent, Z.lxor_0_l, Z.lxor_comm. Qed.

(** Pairs with distinct second components whose first determines the second. *)
Lemma nodup_fst_by_snd {A B} (l : list (A * B)) :
  NoDup l.*2 -> (forall a i j, (a, i) ∈ l -> (a, j) ∈ l -> i = j) -> NoDup l.*1.
Proof.
  induction l as [|[a i] l IH]; intros Hnd Hf; [constructor|]. cbn [fmap list_fmap fst snd] in *.
  apply NoDup_cons in Hnd as [Hi Hnd]. constructor.
  - intros ((a' & j) & -> & Hj)%list_elem_of_fmap. apply Hi. cbn [fst] in Hf.
    rewrite (Hf a' i j); [|by constructor|by constructor]. apply list_elem_of_fmap. by exists (a', j).
  - apply IH; [done|]. intros b x y Hx Hy. apply (Hf b); by constructor.
Qed.

Lemma abs_some i r date d :
  db_abs d !! i = Some (r, date) <->
  exists dr, recid_db d !! i = Some dr /\ dr_rec dr = r /\ next_expire_date (expire_timeout dr) = date.
Proof.
  unfold db_abs. rewrite lookup_fmap, fmap_Some. split.
  - intros (dr & H & [= -> ->]). by exists dr.
  - intros (dr & H & <- & <-). by exists dr.
Qed.

Lemma abs_ids i r date d : db_wf d -> db_abs d !! i = Some (r, date) -> recid r = i /\ rec_ids_ok r.
Proof.
  intros Hwf (dr & Hdr & <- & _)%abs_some. destruct (wf_recs d Hwf i dr Hdr) as (? & ? & _). done.
Qed.

Lemma found_spec now k gt d e rv :
  found now k gt d e = Some rv <->
  exists r date, db_abs d !! e.2 = Some (r, date) /\ keyid r = k /\ after_gt gt e.2 /\
    rv = recval_of (current (is_remote_db d) now r date).
Proof.
  unfold found. split.
  - destruct (recid_db d !! e.2) as [dr|] eqn:Hdr; [|done]. case_decide as Hd; [|done]. intros [= <-].
    eexists _, _. split; [apply abs_some; by exists dr|]. by destruct Hd.
  - intros (r & date & (dr & -> & <- & <-)%abs_some & Hk & Ha & ->). by rewrite decide_True.
Qed.

Lemma upper_found k d :
  db_wf d -> kad_id_ok k ->
  (upper_bound kad_id_lt (get_distid k d) (distid_db d) = [] /\
   forall i r date, db_abs d !! i = Some (r, date) -> be_value (get_distid (keyid r) d) <= be_value (get_distid k d)) \/
  exists i r date rest, upper_bound kad_id_lt (get_distid k d) (distid_db d) = (get_distid (keyid r) d, i) :: rest /\
    db_abs d !! i = Some (r, date) /\ be_value (get_distid k d) < be_value (get_distid (keyid r) d) /\
    forall i' r' date', db_abs d !! i' = Some (r', date') -> be_value (get_distid k d) < be_value (get_distid (keyid r') d) ->
      be_value (get_distid (keyid r) d) <= be_value (get_distid (keyid r') d).
Proof.
  intros Hwf Hk. assert (Hdk : kad_id_ok (get_distid k d)) by (apply id_dist_ok; [apply (wf_local d Hwf)|done]).
  destruct (upper_bound_spec (get_distid k d) (distid_db d) Hdk (wf_entries d Hwf) (wf_sorted d Hwf)) as (pre & E & Hpre & Hgt).
  set (iter := upper_bound kad_id_lt (get_distid k d) (distid_db d)) in *.
  assert (Hin : forall i r date, db_abs d !! i = Some (r, date) -> (get_distid (keyid r) d, i) ∈ pre ++ iter).
  { intros i r date (dr & Hdr & <- & _)%abs_some. rewrite <- E. apply wf_entry; [done|]. by exists dr. }
  rewrite !Forall_forall in Hpre, Hgt. destruct iter as [|[k1 i] rest] eqn:Hiter; [left|right].
  - split; [done|]. intros i r date Hr%Hin. rewrite app_nil_r in Hr. apply (Hpre _ Hr).
  - assert (Hi : (k1, i) ∈ distid_db d) by (rewrite E; apply elem_of_app; right; constructor).
    apply wf_entry in Hi as (dr & Hdr & ->); [|done].
    exists i, (dr_rec dr), (next_expire_date (expire_timeout dr)), rest. split; [done|]. split; [apply abs_some; by exists dr|].
    split; [apply (Hgt (id_dist (db_local_peerid d) (keyid (dr_rec dr)), i)); constructor|].
    intros i' r' date' Hr' Hlt. apply Hin in Hr'. pose proof (wf_sorted d Hwf) as Hs. rewrite E in Hs.
    apply StronglySorted_app_1_r, StronglySorted_inv in Hs as [_ Hs]. rewrite Forall_forall in Hs.
    apply elem_of_app in Hr' as [Hr'%Hpre|Hr']; [cbn [fst] in Hr'; lia|].
    apply elem_of_cons in Hr' as [E1|Hr'%Hs]; [|exact Hr']. apply (f_equal fst) in E1. cbn [fst] in E1.
    rewrite E1. apply Z.le_refl.
Qed.

(* ------------------------------------------------------------------ *)
(** * Properties *)
(* ------------------------------------------------------------------ *)

(** C7. The database of a peer implements a map from identifiers to records and
    expiry dates: whatever stores, removals, timers and notifications of new
    nodes it handles, no assertion fails, no pointer of an index dangles, and it
    holds what the map holds: a record is refused outside the limits of the
    profile, replaces the one with its identifier when it lives strictly longer,
    and a removed or expired record is gone. *)
Theorem kad_db_refines `{InetLib} local remote profile es :
  kad_id_ok local -> profile_ok profile -> db_events_ok profile remote es ∅ ->
  exists d, db_run es (kad_db_ctor local remote profile) = Ok d /\
    db_abs d = db_spec_run profile remote es ∅ /\
    (forall i, contain_recid i d = bool_decide (is_Some (db_spec_run profile remote es ∅ !! i))) /\
    (forall k, kad_id_ok k -> contain_keyid k d =
       negb (bool_decide (map_Forall (fun _ q => keyid q.1 <> k) (db_spec_run profile remote es ∅)))).
Proof.
  intros Hl Hp Hes. destruct (run_gives es (kad_db_ctor local remote profile)) as (d & Hd & Hwf & Habs & _); [by apply ctor_wf|done|].
  change (db_abs (kad_db_ctor local remote profile)) with (∅ : db_spec) in Habs.
  exists d. split; [exact Hd|]. split; [exact Habs|]. cbn [kad_db_ctor db_profile is_remote_db] in Habs. split.
  - intros i. rewrite <- Habs. unfold contain_recid, db_abs. rewrite lookup_fmap. apply bool_decide_ext.
    by rewrite fmap_is_Some.
  - intros k Hk. rewrite <- Habs. by apply contain_keyid_spec.
Qed.


(** What a query finds. *)
Lemma find_correct now k gt d :
  ordinary now -> kad_id_ok k -> kad_id_ok gt -> db_wf d ->
  exists rs, find_by_keyid now k gt d = Ok rs /\ (recval_db rs <> [] -> rd_keyid rs = k) /\
    (rd_keyid rs = kad_id_null \/ rd_keyid rs = k) /\ NoDup (rv_recid <$> recval_db rs) /\
    forall rv, rv ∈ recval_db rs <-> exists r date, db_abs d !! rv_recid rv = Some (r, date) /\ keyid r = k /\
      after_gt gt (rv_recid rv) /\ rv = recval_of (current (is_remote_db d) now r date).
Proof.
  intros Hn Hk Hgt Hwf.
  destruct (find_by_keyid_spec now k gt d Hn Hk Hgt Hwf) as (iter & k1 & E & Hk1 & Hk2 & Hsub & Hall).
  assert (Hids : (rv_recid <$> omap (found now k gt d) iter) `sublist_of` iter.*2).
  { clear -Hwf. induction iter as [|e iter IH]; [done|]. cbn [omap list_omap]. destruct (found now k gt d e) as [rv|] eqn:Hf.
    - cbn [fmap list_fmap]. rewrite (found_id now k gt d Hwf e rv Hf). by apply sublist_skip.
    - by apply sublist_cons. }
  eexists. split; [exact E|]. split; [exact Hk1|]. split; [exact Hk2|]. split.
  { eapply sublist_NoDup; [apply (wf_ids d Hwf)|]. etrans; [exact Hids|]. by apply fmap_sublist. }
  intros rv. cbn [recval_db]. rewrite list_elem_of_omap. split.
  - intros (e & _ & Hf). pose proof (found_id now k gt d Hwf e rv Hf) as ->. by apply found_spec in Hf.
  - intros (r & date & Hr & Hkr & Hf). exists (get_distid k d, rv_recid rv). split; [|apply found_spec; by exists r, date].
    apply Hall; [|done]. apply wf_entry; [done|]. apply abs_some in Hr as (dr & Hdr & <- & _). exists dr. by rewrite Hkr.
Qed.

(** C26. Queries: [find_by_keyid] returns exactly the records of the key whose
    identifier is above [recid_gt] (all of them if it is null), once each, with
    the lifetime they have left in a remote database and their own in a local
    one; [get_next_keyid] returns a key held at the least distance from the local
    peer that is greater than that of its argument, null if there is none. *)
Theorem kad_db_queries now k gt d :
  ordinary now -> kad_id_ok k -> kad_id_ok gt -> db_wf d ->
  (exists rs, find_by_keyid now k gt d = Ok rs /\ (recval_db rs <> [] -> rd_keyid rs = k) /\
    NoDup (rv_recid <$> recval_db rs) /\
    forall rv, rv ∈ recval_db rs <-> exists r date, db_abs d !! rv_recid rv = Some (r, date) /\ keyid r = k /\
      after_gt gt (rv_recid rv) /\ rv = recval_of (current (is_remote_db d) now r date)) /\
  (exists q, get_next_keyid k d = Ok q /\
    ((q = kad_id_null /\ forall i r date, db_abs d !! i = Some (r, date) ->
        be_value (get_distid (keyid r) d) <= be_value (get_distid k d)) \/
     ((exists i r date, db_abs d !! i = Some (r, date) /\ keyid r = q) /\ be_value (get_distid k d) < be_value (get_distid q d) /\
      forall i r date, db_abs d !! i = Some (r, date) -> be_value (get_distid k d) < be_value (get_distid (keyid r) d) ->
        be_value (get_distid q d) <= be_value (get_distid (keyid r) d)))).
Proof.
  intros Hn Hk Hgt Hwf. split.
  { destruct (find_correct now k gt d Hn Hk Hgt Hwf) as (rs & E & H1 & _ & H2). by exists rs. }
  unfold get_next_keyid. destruct (upper_found k d Hwf Hk) as [[-> Hle]|(i & r & date & rest & -> & Hr & Hlt & Hmin)].
  - exists kad_id_null. split; [done|]. by left.
  - pose proof Hr as (dr & Hdr & <- & _)%abs_some. unfold deref_rec. rewrite Hdr. cbn [mbind outcome_bind].
    eexists. split; [done|]. right. split; [by exists i, (dr_rec dr), date|]. done.
Qed.

(** A node newly seen is sent every record whose key is closer to it than to
    the local peer, with the lifetime it has left, and nothing is stored or lost;
    what it is sent are the records whose key is at least half the distance
    between the two nodes away from the local peer, closer to the node or not. *)
Theorem new_node_gets_closer `{InetLib} now a d :
  ordinary now -> db_wf d -> kad_id_ok (peerid a) -> kad_addr_is_fully_qualified a = Ok true ->
  exists d' outs, notify_new_node now a d = Ok d' /\ db_abs d' = db_abs d /\ db_out d' = db_out d ++ outs /\
    (forall i r date, db_abs d !! i = Some (r, date) ->
       be_value (id_dist (peerid a) (keyid r)) < be_value (get_distid (keyid r) d) ->
       ReplicateIn (Recdups (keyid r) [recval_of (current (is_remote_db d) now r date)]) a ∈ outs) /\
    (forall o, o ∈ outs -> exists i r date, db_abs d !! i = Some (r, date) /\
       be_value (id_dist (db_local_peerid d) (peerid a)) / 2 <= be_value (get_distid (keyid r) d) /\
       o = ReplicateIn (Recdups (keyid r) [recval_of (current (is_remote_db d) now r date)]) a).
Proof.
  intros Hn Hwf Ha Hq. pose proof (wf_local d Hwf) as Hl. pose proof (id_dist_ok _ _ Hl Ha) as Hnd.
  set (node := id_dist (db_local_peerid d) (peerid a)) in *.
  destruct (id_shiftr_spec KAD_ID_SIZE node Hnd 1 ltac:(lia)) as [Hmid Hmv].
  destruct (lower_bound_spec _ (distid_db d) Hmid (wf_entries d Hwf) (wf_sorted d Hwf)) as (pre & E & Hpre & Hge).
  unfold notify_new_node. fold node. set (iter := lower_bound kad_id_lt _ (distid_db d)) in *.
  rewrite new_node_loop_spec; [|done..|apply Forall_forall; intros e He; rewrite E; apply elem_of_app; by right].
  eexists _, _. split; [reflexivity|]. split; [reflexivity|]. split; [reflexivity|]. rewrite Hmv in Hpre, Hge. split.
  - intros i r date Hr Hcl. pose proof (abs_ids i r date d Hwf Hr) as (Hi & _ & Hkr). unfold get_distid in Hcl.
    rewrite !id_dist_value in Hcl by done. apply list_elem_of_omap. exists (id_dist (db_local_peerid d) (keyid r), i).
    apply abs_some in Hr as (dr & Hdr & <- & <-). split.
    + assert (Hin : (id_dist (db_local_peerid d) (keyid (dr_rec dr)), i) ∈ distid_db d) by (apply wf_entry; [done|by exists dr]).
      rewrite E in Hin. apply elem_of_app in Hin as [Hin|]; [|done]. rewrite Forall_forall in Hpre. apply Hpre in Hin.
      cbn [fst] in Hin. exfalso. apply Z.lt_nge in Hin. apply Hin. subst node. rewrite !id_dist_value by done. apply closer_half.
      * apply Z.lxor_nonneg. split; intros _; apply (id_value_bound KAD_ID_SIZE); done.
      * apply Z.lxor_nonneg. split; intros _; apply (id_value_bound KAD_ID_SIZE); done.
      * by rewrite lxor_via.
    + unfold replication. cbn [snd]. rewrite Hdr. cbn [fmap option_fmap option_map]. unfold current. by destruct (is_remote_db d).
  - intros o (e & He & Ho)%list_elem_of_omap. unfold replication in Ho.
    destruct (recid_db d !! e.2) as [dr|] eqn:Hdr; [|done]. injection Ho as <-.
    exists e.2, (dr_rec dr), (next_expire_date (expire_timeout dr)). split; [apply abs_some; by exists dr|].
    rewrite Forall_forall in Hge. pose proof (Hge e He) as Hge'. rewrite Z.shiftr_div_pow2 in Hge' by lia. split.
    + assert (Hin : (e.1, e.2) ∈ distid_db d) by (destruct e; rewrite E; apply elem_of_app; by right).
      apply wf_entry in Hin as (r & Hr & E1); [|done]. rewrite Hdr in Hr. injection Hr as <-. unfold get_distid. rewrite <- E1. exact Hge'.
    + unfold current. by destruct (is_remote_db d).
Qed.

Lemma republish_out env i dr d d' :
  recid_db d !! i = Some dr -> republish_timeout_cb env i d = Ok d' -> db_out d' = db_out d ++ [RepublishRec (dr_rec dr)].
Proof.
  intros Hdr. unfold republish_timeout_cb, deref_rec. rewrite Hdr. cbn [mbind outcome_bind].
  destruct (cpp_expired_cb _ _ _) as [[t|]| | |]; [|done..]. cbn [mbind outcome_bind]. by intros [= <-].
Qed.

(** A remote copy is republished with the lifetime it was stored with, not
    the one it has left: a peer that holds the same copy and takes it again
    moves its expiry from [date] to the time of the republication plus that
    lifetime, so that peers that republish to each other keep a record beyond
    its lifetime. *)
Theorem republish_renews_ttl `{InetLib} env i r date d d2 :
  env_ok env -> db_wf d -> is_remote_db d = true -> db_abs d !! i = Some (r, date) ->
  db_wf d2 -> is_remote_db d2 = true -> db_abs d2 !! i = Some (r, date) -> spec_accept (db_profile d2) r (db_abs d2) ->
  de_now env <= date -> date < de_now env + rec_ttl r ->
  (exists d', republish_timeout_cb env i d = Ok d' /\ db_out d' = db_out d ++ [RepublishRec r]) /\
  rec_ttl (current true (de_now env) r date) = date - de_now env /\
  exists d2', db_update env r d2 = Ok d2' /\ db_abs d2' = <[i := (r, de_now env + rec_ttl r)]> (db_abs d2).
Proof.
  intros Henv Hwf Hrem Hr Hwf2 Hrem2 Hr2 Hacc Hle Hlt. pose proof Hr as (dr & Hdr & Hdrr & Hdate)%abs_some.
  destruct (wf_recs d Hwf i dr Hdr) as (_ & _ & _ & _ & Httl & Hexp). rewrite Hrem, Hdate, Hdrr in Hexp. rewrite Hdrr in Httl.
  destruct Hexp as (t0 & Ht0 & ->). pose proof (ordinary_sum _ _ Ht0 Httl) as Hsum. pose proof (proj1 Henv) as Hn.
  assert (Hcur : rec_ttl (current true (de_now env) r (t0 + rec_ttl r)) = t0 + rec_ttl r - de_now env).
  { cbn [current set_ttl rec_ttl]. unfold remaining. rewrite (proj2 (Z.eqb_neq _ _)) by lia. apply wrap_small.
    apply ordinary_below in Hn. unfold in_range, INFINITE_VAL in *. lia. }
  split; [|split; [exact Hcur|]].
  - destruct (republish_gives env i d Henv Hwf) as (d' & Hd' & _); [by eexists|].
    exists d'. split; [exact Hd'|]. rewrite (republish_out env i dr d d' Hdr Hd'). by rewrite Hdrr.
  - destruct (abs_ids i r _ d2 Hwf2 Hr2) as [Hi Hids].
    destruct (store_gives env r d2 Henv Hwf2 Hids) as (d2' & E & _ & Habs & _); [apply ordinary_below in Httl; lia|].
    rewrite may_accept_spec, bool_decide_eq_true_2 in E by first [done|apply Hids].
    exists d2'. split; [exact E|]. rewrite Habs. unfold spec_store. rewrite decide_True by done. rewrite Hi, Hr2, Hrem2, Hcur.
    rewrite (proj2 (Z.ltb_lt _ _)) by lia. done.
Qed.

(* ------------------------------------------------------------------ *)
(** * Witnesses *)
(* ------------------------------------------------------------------ *)

Definition ex_scale (d : Z) : outcome Z := Ok (if d =? INFINITE_VAL then d else d * 7 / 10).
Lemma ex_scale_ok : scale_ok ex_scale.
Proof.
  split; [done|]. intros d Hd. apply ordinary_below in Hd. unfold ex_scale.
  rewrite (proj2 (Z.eqb_neq _ _)) by lia. eexists. split; [done|].
  split; [apply Z.div_pos; lia|apply Z.div_le_upper_bound; lia].
Qed.
Definition ex_env (now : Z) : db_env_t := DbEnv now ex_scale ex_scale.
Lemma ex_env_ok now : ordinary now -> env_ok (ex_env now).
Proof. intros Hn. split; [done|]. split; apply ex_scale_ok. Qed.

Definition ex_db_profile : kad_db_profile_t := DbProfile false 10 5 1000 500 50.
Lemma ex_db_profile_ok : profile_ok ex_db_profile.
Proof. split; [done|]. split; [by left|done]. Qed.
Definition ex_rec1 : kad_rec_t := KadRec (rid 1) (rid 9) [65] 200.
Definition ex_rec2 : kad_rec_t := KadRec (rid 2) (rid 12) [66] 300.
Lemma ex_rec_ok : rec_ids_ok ex_rec1 /\ rec_ids_ok ex_rec2.
Proof. repeat split; apply rid_ok. Qed.
Definition ex_node (v : Z) : kad_addr_t := KadAddr (Ipport (V4 0x01020304) 4000) (rid v).
#[local] Existing Instance quad_lib.

(** A record is stored, another one, one that is too long, the first one again
    but shorter lived; timers and a new node follow. *)
Definition ex_db_events : list db_event :=
  [EvStore (ex_env 100) ex_rec1; EvStore (ex_env 110) ex_rec2;
   EvStore (ex_env 110) (KadRec (rid 3) (rid 12) [1; 2; 3; 4; 5; 6] 200); EvNewNode 120 (ex_node 13);
   EvRepublish (ex_env 130) (rid 1); EvStore (ex_env 140) (set_ttl 100 ex_rec1); EvExpire (rid 2)].

Lemma ex_db_events_ok : db_events_ok ex_db_profile true ex_db_events ∅.
Proof.
  pose proof ex_rec_ok as [H1 H2].
  split; [split; [by apply ex_env_ok|by split]|]. split; [split; [by apply ex_env_ok|by split]|].
  split; [split; [by apply ex_env_ok|split; [split; apply rid_ok|done]]|]. split; [split; [done|split; [apply rid_ok|by vm_compute]]|].
  split; [split; [by apply ex_env_ok|apply (bool_decide_unpack _); by vm_compute]|].
  split; [split; [by apply ex_env_ok|by split]|]. split; [apply (bool_decide_unpack _); by vm_compute|done].
Qed.

Lemma kad_db_refines_witness :
  exists d, db_run ex_db_events (kad_db_ctor (rid 0) true ex_db_profile) = Ok d /\
    db_abs d = {[rid 1 := (ex_rec1, 300)]} /\ length (db_out d) = 3%nat.
Proof.
  destruct (kad_db_refines (rid 0) true ex_db_profile ex_db_events (rid_ok 0) ex_db_profile_ok ex_db_events_ok) as (d & Hd & Habs & _).
  exists d. split; [exact Hd|]. split; [rewrite Habs; by vm_compute|]. vm_compute in Hd. by injection Hd as <-.
Defined.


(** The peer [rid 0] with two records. *)
Definition ex_db : kad_db_t :=
  match db_run (take 2 ex_db_events) (kad_db_ctor (rid 0) true ex_db_profile) with Ok d => d | _ => kad_db_ctor (rid 0) true ex_db_profile end.
Lemma ex_db_wf : db_wf ex_db.
Proof.
  pose proof ex_rec_ok as [H1 H2].
  destruct (run_gives (take 2 ex_db_events) (kad_db_ctor (rid 0) true ex_db_profile)) as (d & Hd & Hwf & _).
  - apply ctor_wf; [apply rid_ok|apply ex_db_profile_ok].
  - split; [split; [by apply ex_env_ok|by split]|]. split; [split; [by apply ex_env_ok|by split]|done].
  - unfold ex_db. by rewrite Hd.
Qed.

Lemma kad_db_queries_witness :
  find_by_keyid 150 (rid 9) kad_id_null ex_db = Ok (Recdups (rid 9) [Recval (rid 1) [65] 150]) /\
  get_next_keyid (rid 9) ex_db = Ok (rid 12) /\
  exists rs, find_by_keyid 150 (rid 9) kad_id_null ex_db = Ok rs /\ NoDup (rv_recid <$> recval_db rs).
Proof.
  split; [by vm_compute|]. split; [by vm_compute|].
  assert (Hn : ordinary 150) by done.
  pose proof (kad_db_queries 150 (rid 9) kad_id_null ex_db Hn (rid_ok 9) kad_id_null_ok ex_db_wf) as [(rs & H1 & _ & H2 & _) _].
  exists rs. split; [exact H1|exact H2].
Defined.

(** The record with key 9 = 1001b is at distance 9 of the local peer and 4 of the
    new node 13 = 1101b, that with key 12 is at distances 12 and 1; a new node
    15 at the distance 15 halves to 7 and gets the record with key 9, which is
    closer to it (6) too; for the node 17 the half is 8, and both records are
    sent, though they are closer to the local peer. *)
Lemma new_node_gets_closer_witness :
  be_value (id_dist (rid 0) (rid 9)) < be_value (id_dist (rid 17) (rid 9)) /\
  exists d', notify_new_node 150 (ex_node 17) ex_db = Ok d' /\ db_abs d' = db_abs ex_db /\
    db_out d' = [ReplicateIn (Recdups (rid 9) [Recval (rid 1) [65] 150]) (ex_node 17);
                 ReplicateIn (Recdups (rid 12) [Recval (rid 2) [66] 260]) (ex_node 17)].
Proof.
  split; [by vm_compute|]. assert (Hn : ordinary 150) by done.
  assert (Hq : kad_addr_is_fully_qualified (ex_node 17) = Ok true) by (by vm_compute).
  pose proof (new_node_gets_closer 150 (ex_node 17) ex_db Hn ex_db_wf (rid_ok 17) Hq) as (d' & outs & H1 & H2 & _).
  exists d'. split; [exact H1|]. split; [exact H2|]. vm_compute in H1. injection H1 as <-. by vm_compute.
Defined.

Lemma republish_renews_ttl_witness :
  exists d2', db_update (ex_env 250) ex_rec1 ex_db = Ok d2' /\ db_abs ex_db !! rid 1 = Some (ex_rec1, 300) /\
    db_abs d2' !! rid 1 = Some (ex_rec1, 450).
Proof.
  assert (Hn : env_ok (ex_env 250)) by (by apply ex_env_ok).
  assert (Hr : db_abs ex_db !! rid 1 = Some (ex_rec1, 300)) by (by vm_compute).
  assert (Hacc : spec_accept (db_profile ex_db) ex_rec1 (db_abs ex_db)) by (apply (bool_decide_unpack _); by vm_compute).
  pose proof (republish_renews_ttl (ex_env 250) (rid 1) ex_rec1 300 ex_db ex_db Hn ex_db_wf eq_refl Hr ex_db_wf eq_refl Hr Hacc
    ltac:(by vm_compute) ltac:(by vm_compute)) as (_ & _ & d2' & H1 & H2).
  exists d2'. split; [exact H1|]. split; [exact Hr|]. rewrite H2. by apply lookup_insert_eq.
Defined.
