(* ===== verification/KadEvent.v ===== *)
(** [kad_event_t] (src/src/neoip_kad/base/event/): what the connections, the
    rpcs and the commands of Kademlia tell their callers, with the tests each
    caller asserts of what it is told; and [kad_caddr_t], an address with the
    cookie its peer gave. *)
From S2P Require Import Prelude GenId Cookie ItemArr KadAddr KadRec.

Definition kad_caddr_t : Type := kad_addr_t * cookie_id_t.

(** The texts of the reasons are left out. *)
Inductive kad_event_t :=
| KeNone
| KeCnxClosed
| KeCnxRefused
| KeTimedout
| KeRecvedData (pkt : list Z)
| KeCompleted
| KeRecdups (recdups : kad_recdups_t) (has_more_record : bool)
| KeAddrArr (addr_arr : list kad_addr_t) (resp_cookie : cookie_id_t)
| KeCaddrArr (caddr_arr : list kad_caddr_t).

Definition kad_event_is_null (e : kad_event_t) : bool := match e with KeNone => true | _ => false end.
Definition is_cnx_closed (e : kad_event_t) : bool := match e with KeCnxClosed => true | _ => false end.
Definition is_cnx_refused (e : kad_event_t) : bool := match e with KeCnxRefused => true | _ => false end.
Definition is_timedout (e : kad_event_t) : bool := match e with KeTimedout => true | _ => false end.
Definition is_recved_data (e : kad_event_t) : bool := match e with KeRecvedData _ => true | _ => false end.
Definition is_completed (e : kad_event_t) : bool := match e with KeCompleted => true | _ => false end.
Definition is_recdups (e : kad_event_t) : bool := match e with KeRecdups _ _ => true | _ => false end.
Definition is_addr_arr (e : kad_event_t) : bool := match e with KeAddrArr _ _ => true | _ => false end.
Definition is_caddr_arr (e : kad_event_t) : bool := match e with KeCaddrArr _ => true | _ => false end.

Definition is_fatal (e : kad_event_t) : bool := is_cnx_closed e || is_cnx_refused e || is_timedout e.
Definition is_cnx_ok (e : kad_event_t) : bool := is_cnx_closed e || is_cnx_refused e || is_timedout e || is_recved_data e.
Definition is_cnx_err_ok (e : kad_event_t) : bool := is_cnx_closed e || is_cnx_refused e || is_timedout e.
Definition is_ping_rpc_ok (e : kad_event_t) : bool := is_cnx_err_ok e || is_completed e.
Definition is_store_rpc_ok (e : kad_event_t) : bool := is_cnx_err_ok e || is_completed e.
Definition is_findnode_rpc_ok (e : kad_event_t) : bool := is_cnx_err_ok e || is_addr_arr e.
Definition is_findsomeval_rpc_ok (e : kad_event_t) : bool := is_cnx_err_ok e || is_addr_arr e || is_recdups e.
Definition is_findallval_rpc_ok (e : kad_event_t) : bool := is_cnx_err_ok e || is_recdups e.
Definition is_delete_rpc_ok (e : kad_event_t) : bool := is_cnx_err_ok e || is_completed e.
Definition is_nsearch_findnode_ok (e : kad_event_t) : bool := is_timedout e || is_caddr_arr e.
Definition is_closestnode_ok (e : kad_event_t) : bool := is_nsearch_findnode_ok e.
Definition is_nsearch_findsomeval_ok (e : kad_event_t) : bool := is_timedout e || is_recdups e.
Definition is_query_some_ok (e : kad_event_t) : bool := is_nsearch_findsomeval_ok e.
Definition is_store_ok (e : kad_event_t) : bool := is_timedout e || is_completed e.
Definition is_delete_ok (e : kad_event_t) : bool := is_timedout e || is_completed e.
Definition is_query_ok (e : kad_event_t) : bool := is_timedout e || is_recdups e.

(** The accessors assert the type of the event. *)
Definition get_recved_data (e : kad_event_t) : outcome (list Z) :=
  match e with KeRecvedData p => Ok p | _ => AssertFail end.
Definition get_addr_arr (e : kad_event_t) : outcome (list kad_addr_t * cookie_id_t) :=
  match e with KeAddrArr a c => Ok (a, c) | _ => AssertFail end.
Definition get_recdups (e : kad_event_t) : outcome (kad_recdups_t * bool) :=
  match e with KeRecdups r m => Ok (r, m) | _ => AssertFail end.
Definition get_caddr_arr (e : kad_event_t) : outcome (list kad_caddr_t) :=
  match e with KeCaddrArr a => Ok a | _ => AssertFail end.
