(* ===== verification/Nsearch.v ===== *)
(** The node search of Kademlia: [kad_nsearch_t] with its list of learned nodes
    [kad_nsearch_llist_t] and their [kad_nsearch_lnode_t]
    (src/src/neoip_kad/cmd/base/nsearch/).

    A [kad_nsearch_lnode_t *] is the distance its node is indexed by in
    [lnode_db].  What a search asks of the rest of the peer and tells its caller
    is the list [ns_out]; whether a rpc could be started, what the rpcs answer
    and whether the caller deletes the search when it is notified are arguments.
    The present is read once per handler. *)
From S2P Require Import Prelude Omap Text Time Timeout GenId Cookie InetAddr ItemArr KadAddr Kbucket KadRec KadEvent.

(* ------------------------------------------------------------------ *)
(** * State *)
(* ------------------------------------------------------------------ *)

(** A null state is [LNULL]. *)
Inductive lnode_state_t := LNULL | QUERYING | SUCCEED | FAILED.
#[export] Instance lnode_state_eq_dec : EqDecision lnode_state_t.
Proof. solve_decision. Defined.

(** The two rpc pointers: not NULL. *)
Record lnode_t := Lnode {
  m_kad_addr : kad_addr_t;
  m_cookie_id : cookie_id_t;
  m_current_state : lnode_state_t;
  rpc_birthdate : Z;
  findnode_rpc : bool;
  findsomeval_rpc : bool
}.

(** The types of request a search can make; null before it is started. *)
Inductive query_type_t := QNULL | FINDNODE_REQUEST | FINDSOMEVAL_REQUEST.

Record kad_nsearch_profile_t := NsProfile {
  rpccli_soft_timeout : Z;
  rpccli_hard_timeout : Z;
  nb_concurrent_req : nat;
  caching_enable : bool
}.

Inductive ns_out_t :=
| StartFindnode (targetid : kad_id) (a : kad_addr_t) (expire_delay : Z)
| StartFindsomeval (keyid : kad_id) (max_nb_rec : nat) (a : kad_addr_t) (expire_delay : Z)
| CacheRec (recs : kad_recdups_t) (a : kad_addr_t)   (* remote_db->replicate_in *)
| NotifyCaller (e : kad_event_t).

Record nsearch_t := Nsearch {
  target_id : kad_id;
  n_closest : nat;
  query_type : query_type_t;
  nb_succ_useless_query : nat;
  findsome_max_nb_rec : nat;
  caching_candidate : kad_addr_t;
  lnode_db : list (kad_id * lnode_t);
  ns_timeout : timeout_t;
  ns_out : list ns_out_t
}.

Definition set_lnode_db (db : list (kad_id * lnode_t)) (ns : nsearch_t) : nsearch_t :=
  Nsearch (target_id ns) (n_closest ns) (query_type ns) (nb_succ_useless_query ns) (findsome_max_nb_rec ns)
    (caching_candidate ns) db (ns_timeout ns) (ns_out ns).
Definition set_useless (n : nat) (ns : nsearch_t) : nsearch_t :=
  Nsearch (target_id ns) (n_closest ns) (query_type ns) n (findsome_max_nb_rec ns)
    (caching_candidate ns) (lnode_db ns) (ns_timeout ns) (ns_out ns).
Definition set_candidate (a : kad_addr_t) (ns : nsearch_t) : nsearch_t :=
  Nsearch (target_id ns) (n_closest ns) (query_type ns) (nb_succ_useless_query ns) (findsome_max_nb_rec ns)
    a (lnode_db ns) (ns_timeout ns) (ns_out ns).
Definition set_ns_timeout (t : timeout_t) (ns : nsearch_t) : nsearch_t :=
  Nsearch (target_id ns) (n_closest ns) (query_type ns) (nb_succ_useless_query ns) (findsome_max_nb_rec ns)
    (caching_candidate ns) (lnode_db ns) t (ns_out ns).
Definition ns_emit (o : ns_out_t) (ns : nsearch_t) : nsearch_t :=
  Nsearch (target_id ns) (n_closest ns) (query_type ns) (nb_succ_useless_query ns) (findsome_max_nb_rec ns)
    (caching_candidate ns) (lnode_db ns) (ns_timeout ns) (ns_out ns ++ [o]).
Definition set_query (t : kad_id) (n max_rec : nat) (q : query_type_t) (ns : nsearch_t) : nsearch_t :=
  Nsearch t n q (nb_succ_useless_query ns) max_rec (caching_candidate ns) (lnode_db ns) (ns_timeout ns) (ns_out ns).

Definition nsearch_ctor : nsearch_t :=
  Nsearch kad_id_null 0 QNULL 0 0 kad_addr_null [] timeout_ctor [].

(** Assignments to the fields of a node, through its pointer. *)
Definition set_state (st : lnode_state_t) (n : lnode_t) : lnode_t :=
  Lnode (m_kad_addr n) (m_cookie_id n) st (rpc_birthdate n) (findnode_rpc n) (findsomeval_rpc n).
Definition set_birthdate (d : Z) (n : lnode_t) : lnode_t :=
  Lnode (m_kad_addr n) (m_cookie_id n) (m_current_state n) d (findnode_rpc n) (findsomeval_rpc n).
Definition set_rpcs (fn fs : bool) (n : lnode_t) : lnode_t :=
  Lnode (m_kad_addr n) (m_cookie_id n) (m_current_state n) (rpc_birthdate n) fn fs.
Definition set_cookie (c : cookie_id_t) (n : lnode_t) : lnode_t :=
  Lnode (m_kad_addr n) c (m_current_state n) (rpc_birthdate n) (findnode_rpc n) (findsomeval_rpc n).

Definition lnode_at (p : kad_id) (ns : nsearch_t) : outcome lnode_t :=
  match om_find kad_id_lt p (lnode_db ns) with Some n => Ok n | None => Fault end.
Definition lnode_update (p : kad_id) (f : lnode_t -> lnode_t) (ns : nsearch_t) : nsearch_t :=
  set_lnode_db (om_update kad_id_lt p f (lnode_db ns)) ns.

(** The time of a handler, whether a rpc to an address can be started, and
    whether the caller keeps the search when it is notified. *)
Record ns_env_t := NsEnv { ne_now : Z; ne_start_ok : kad_addr_t -> bool; ne_tokeep : bool }.

Section nsearch.
Context `{InetLib} (profile : kad_nsearch_profile_t).

(* ------------------------------------------------------------------ *)
(** * Nodes *)
(* ------------------------------------------------------------------ *)

Definition lnode_present (p : kad_id) (ns : nsearch_t) : bool :=
  let distid := id_dist p (target_id ns) in
  match om_find kad_id_lt distid (lnode_db ns) with Some _ => true | None => false end.

Definition lnode_link (n : lnode_t) (ns : nsearch_t) : outcome nsearch_t :=
  let p := peerid (m_kad_addr n) in
  assert! negb (lnode_present p ns) in
  let distid := id_dist p (target_id ns) in
  let (db, succeed) := om_insert kad_id_lt distid n (lnode_db ns) in
  assert! succeed in
  Ok (set_lnode_db db ns).
Definition lnode_unlink (n : lnode_t) (ns : nsearch_t) : outcome nsearch_t :=
  let p := peerid (m_kad_addr n) in
  assert! lnode_present p ns in
  let distid := id_dist p (target_id ns) in
  Ok (set_lnode_db (om_erase kad_id_lt distid (lnode_db ns)) ns).

Definition lnode_ctor (a : kad_addr_t) (ns : nsearch_t) : outcome nsearch_t :=
  let* q := ipport_is_fully_qualified (oaddr a) in
  assert! q in
  lnode_link (Lnode a cookie_id_null LNULL NONE_VAL false false) ns.
Definition lnode_dtor (n : lnode_t) (ns : nsearch_t) : outcome nsearch_t := lnode_unlink n ns.

Definition is_online (n : lnode_t) : bool := bool_decide (m_current_state n = SUCCEED).

Definition rpc_age (now : Z) (n : lnode_t) : outcome Z :=
  assert! negb (delay_is_null (rpc_birthdate n)) in delay_sub now (rpc_birthdate n).
Definition is_offline (now : Z) (n : lnode_t) : outcome bool :=
  match m_current_state n with
  | FAILED => Ok true
  | QUERYING => let* age := rpc_age now n in Ok (rpccli_soft_timeout profile <? age)
  | _ => Ok false
  end.

(** [start()] of the node [p]: false on an error. *)
Definition lnode_start (env : ns_env_t) (p : kad_id) (ns : nsearch_t) : outcome (bool * nsearch_t) :=
  let* n := lnode_at p ns in
  assert! bool_decide (m_current_state n = LNULL) in
  let ns1 := lnode_update p (fun n => set_birthdate (ne_now env) (set_state QUERYING n)) ns in
  let a := m_kad_addr n in
  let* ns2 :=
    match query_type ns with
    | FINDNODE_REQUEST =>
      Ok (ns_emit (StartFindnode (target_id ns) a (rpccli_hard_timeout profile)) (lnode_update p (set_rpcs true false) ns1))
    | FINDSOMEVAL_REQUEST =>
      Ok (ns_emit (StartFindsomeval (target_id ns) (findsome_max_nb_rec ns) a (rpccli_hard_timeout profile))
            (lnode_update p (set_rpcs false true) ns1))
    | QNULL => AssertFail
    end in
  if ne_start_ok env a then Ok (true, ns2)
  else Ok (false, lnode_update p (fun n => set_state FAILED (set_rpcs false false n)) ns2).

(* ------------------------------------------------------------------ *)
(** * The list of learned nodes *)
(* ------------------------------------------------------------------ *)

(** The loops over [lnode_db], from the closest node to the farthest. *)
Fixpoint nclosest_distid_loop (now : Z) (n nb_considered : nat) (db : list (kad_id * lnode_t))
    (distid_db : list (kad_id * unit)) : outcome (list (kad_id * unit)) :=
  match db with
  | [] => Ok distid_db
  | (key, node) :: db' =>
    let* off := is_offline now node in
    if (off : bool) then nclosest_distid_loop now n nb_considered db' distid_db
    else
      let nb_considered := S nb_considered in
      if bool_decide (n < nb_considered)%nat then Ok distid_db
      else
        let (distid_db1, succeed) := om_insert kad_id_lt key tt distid_db in
        assert! succeed in
        nclosest_distid_loop now n nb_considered db' distid_db1
  end.
Definition get_nclosest_distid (now : Z) (ns : nsearch_t) : outcome (list (kad_id * unit)) :=
  nclosest_distid_loop now (n_closest ns) 0 (lnode_db ns) [].

Fixpoint next_lnode_loop (now : Z) (n nb_considered : nat) (db : list (kad_id * lnode_t)) : outcome (option kad_id) :=
  match db with
  | [] => Ok None
  | (key, node) :: db' =>
    let* off := is_offline now node in
    if (off : bool) then next_lnode_loop now n nb_considered db'
    else
      let nb_considered := S nb_considered in
      if bool_decide (n < nb_considered)%nat then Ok None
      else if bool_decide (m_current_state node <> LNULL) then next_lnode_loop now n nb_considered db'
      else Ok (Some key)
  end.
Definition get_next_lnode_to_query (now : Z) (ns : nsearch_t) : outcome (option kad_id) :=
  next_lnode_loop now (n_closest ns) 0 (lnode_db ns).

Fixpoint nb_querying_loop (now : Z) (n nb_considered nb_querying : nat) (db : list (kad_id * lnode_t)) : outcome nat :=
  match db with
  | [] => Ok nb_querying
  | (key, node) :: db' =>
    let* off := is_offline now node in
    if (off : bool) then nb_querying_loop now n nb_considered nb_querying db'
    else
      let nb_considered := S nb_considered in
      if bool_decide (n < nb_considered)%nat then Ok nb_querying
      else nb_querying_loop now n nb_considered
             (if bool_decide (m_current_state node = QUERYING) then S nb_querying else nb_querying) db'
  end.
Definition get_nb_querying_node (now : Z) (ns : nsearch_t) : outcome nat :=
  nb_querying_loop now (n_closest ns) 0 0 (lnode_db ns).

Fixpoint completed_loop (now : Z) (n nb_considered : nat) (db : list (kad_id * lnode_t)) : outcome bool :=
  match db with
  | [] => Ok true
  | (key, node) :: db' =>
    let* off := is_offline now node in
    if (off : bool) then completed_loop now n nb_considered db'
    else
      let nb_considered := S nb_considered in
      if bool_decide (n < nb_considered)%nat then Ok true
      else if bool_decide (m_current_state node <> SUCCEED) then Ok false
      else completed_loop now n nb_considered db'
  end.
Definition nsearch_is_completed (now : Z) (ns : nsearch_t) : outcome bool :=
  completed_loop now (n_closest ns) 0 (lnode_db ns).

Fixpoint merge_loop (kad_addr_arr : list kad_addr_t) (ns : nsearch_t) : outcome nsearch_t :=
  match kad_addr_arr with
  | [] => Ok ns
  | a :: arr' =>
    if lnode_present (peerid a) ns then merge_loop arr' ns
    else let* ns1 := lnode_ctor a ns in merge_loop arr' ns1
  end.
(** The comparison of the two sets is that of their elements. *)
Definition merge_addr_arr (now : Z) (kad_addr_arr : list kad_addr_t) (ns : nsearch_t) : outcome (bool * nsearch_t) :=
  let* before := get_nclosest_distid now ns in
  let* ns1 := merge_loop kad_addr_arr ns in
  let* after := get_nclosest_distid now ns1 in
  if bool_decide (before = after) then Ok (false, ns1) else Ok (true, ns1).

(** One turn of the outer loop of [launch_queries]: until a query starts or no
    node is left.  Each failed start leaves one node less. *)
Fixpoint launch_one (fuel : nat) (env : ns_env_t) (ns : nsearch_t) : outcome nsearch_t :=
  match fuel with
  | O => Fault
  | S fuel' =>
    let* node := get_next_lnode_to_query (ne_now env) ns in
    match node with
    | None => Ok ns
    | Some p =>
      let* (ok, ns1) := lnode_start env p ns in
      if (ok : bool) then Ok ns1 else launch_one fuel' env ns1
    end
  end.
Fixpoint launch_queries (env : ns_env_t) (max_nb_query : nat) (ns : nsearch_t) : outcome nsearch_t :=
  match max_nb_query with
  | O => Ok ns
  | S nb => let* ns1 := launch_one (S (length (lnode_db ns))) env ns in launch_queries env nb ns1
  end.

(* ------------------------------------------------------------------ *)
(** * Notifications *)
(* ------------------------------------------------------------------ *)

(** The destructors, of the search and of its list. *)
Fixpoint llist_dtor (fuel : nat) (ns : nsearch_t) : outcome nsearch_t :=
  match lnode_db ns, fuel with
  | [], _ => Ok ns
  | _, O => Fault
  | (_, n) :: _, S fuel' => let* ns1 := lnode_dtor n ns in llist_dtor fuel' ns1
  end.
Definition nsearch_dtor (ns : nsearch_t) : outcome nsearch_t := llist_dtor (length (lnode_db ns)) ns.

(** The boolean is the [tokeep] of the code: false when the search is deleted. *)
Definition notify_callback (env : ns_env_t) (e : kad_event_t) (ns : nsearch_t) : outcome (bool * nsearch_t) :=
  let ns1 := ns_emit (NotifyCaller e) ns in
  if ne_tokeep env then Ok (true, ns1) else let* ns2 := nsearch_dtor ns1 in Ok (false, ns2).

Fixpoint findnode_result_loop (now : Z) (n : nat) (db : list (kad_id * lnode_t)) (result : list kad_caddr_t)
    : outcome (list kad_caddr_t) :=
  match db with
  | [] => Ok result
  | (_, node) :: db' =>
    let* off := is_offline now node in
    if (off : bool) then findnode_result_loop now n db' result
    else
      assert! is_online node in
      let result := result ++ [(m_kad_addr node, m_cookie_id node)] in
      if bool_decide (length result = n) then Ok result else findnode_result_loop now n db' result
  end.
Definition notify_findnode_result (env : ns_env_t) (ns : nsearch_t) : outcome (bool * nsearch_t) :=
  let* c := nsearch_is_completed (ne_now env) ns in
  assert! c in
  let* result := findnode_result_loop (ne_now env) (n_closest ns) (lnode_db ns) [] in
  notify_callback env (KeCaddrArr result) ns.
Definition notify_findsomeval_result (env : ns_env_t) (ns : nsearch_t) : outcome (bool * nsearch_t) :=
  notify_callback env (KeRecdups recdups_null false) ns.
Definition notify_end_result (env : ns_env_t) (ns : nsearch_t) : outcome (bool * nsearch_t) :=
  let* c := nsearch_is_completed (ne_now env) ns in
  assert! c in
  match query_type ns with
  | FINDNODE_REQUEST => notify_findnode_result env ns
  | FINDSOMEVAL_REQUEST => notify_findsomeval_result env ns
  | QNULL => AssertFail
  end.

(* ------------------------------------------------------------------ *)
(** * Replies *)
(* ------------------------------------------------------------------ *)

Definition process_replied_addr_arr (now : Z) (replied : list kad_addr_t) (ns : nsearch_t) : outcome nsearch_t :=
  let* (got_closer_node, ns1) := merge_addr_arr now replied ns in
  Ok (set_useless (if (got_closer_node : bool) then O else S (nb_succ_useless_query ns1)) ns1).

Definition handle_findnode_reply (env : ns_env_t) (p : kad_id) (e : kad_event_t) (ns : nsearch_t) : outcome (bool * nsearch_t) :=
  assert! is_findnode_rpc_ok e in
  assert! negb (is_fatal e) in
  let* (arr, cookie) := get_addr_arr e in
  let* ns1 := process_replied_addr_arr (ne_now env) arr (lnode_update p (set_cookie cookie) ns) in
  Ok (true, ns1).

(** [remote_db->replicate_in] asserts that the address is fully qualified. *)
Definition cache_rec (rs : kad_recdups_t) (a : kad_addr_t) (ns : nsearch_t) : outcome nsearch_t :=
  let* q := kad_addr_is_fully_qualified a in
  assert! q in Ok (ns_emit (CacheRec rs a) ns).

Definition update_candidate (curr : kad_addr_t) (ns : nsearch_t) : nsearch_t :=
  let prev := caching_candidate ns in
  let curr_dist := id_dist (target_id ns) (peerid curr) in
  if kad_addr_is_null prev || kad_id_lt curr_dist (id_dist (target_id ns) (peerid prev))
  then set_candidate curr ns else ns.

Definition handle_findsomeval_reply (env : ns_env_t) (p : kad_id) (e : kad_event_t) (ns : nsearch_t)
    : outcome (bool * nsearch_t) :=
  assert! is_findsomeval_rpc_ok e in
  assert! negb (is_fatal e) in
  if is_recdups e then
    let* ns1 := (if caching_enable profile && negb (kad_addr_is_null (caching_candidate ns))
                 then let* (rs, _) := get_recdups e in cache_rec rs (caching_candidate ns) ns else Ok ns) in
    notify_callback env e ns1
  else
    let* (arr, cookie) := get_addr_arr e in
    let* ns1 := process_replied_addr_arr (ne_now env) arr (lnode_update p (set_cookie cookie) ns) in
    let* n := lnode_at p ns1 in
    Ok (true, if caching_enable profile then update_candidate (m_kad_addr n) ns1 else ns1).

Definition handle_reply (env : ns_env_t) (p : kad_id) (e : kad_event_t) (ns : nsearch_t) : outcome (bool * nsearch_t) :=
  match query_type ns with
  | FINDNODE_REQUEST => handle_findnode_reply env p e ns
  | FINDSOMEVAL_REQUEST => handle_findsomeval_reply env p e ns
  | QNULL => AssertFail
  end.

(** [rpc_event_cb] up to the test of completion. *)
Definition rpc_reply (env : ns_env_t) (p : kad_id) (e : kad_event_t) (ns : nsearch_t) : outcome (bool * nsearch_t) :=
  let* n := lnode_at p ns in
  assert! bool_decide (m_current_state n = QUERYING) in
  let ns1 := lnode_update p (set_rpcs false false) ns in
  if is_fatal e then Ok (true, lnode_update p (set_state FAILED) ns1)
  else handle_reply env p e (lnode_update p (set_state SUCCEED) ns1).
(** The rest of it. *)
Definition rpc_finish (env : ns_env_t) (ns : nsearch_t) : outcome (bool * nsearch_t) :=
  let now := ne_now env in
  let* c := nsearch_is_completed now ns in
  if (c : bool) then notify_end_result env ns
  else
    let nb_wished_query :=
      if bool_decide (nb_concurrent_req profile <= nb_succ_useless_query ns)%nat then n_closest ns
      else nb_concurrent_req profile in
    let* nb_querying := get_nb_querying_node now ns in
    if bool_decide (nb_wished_query <= nb_querying)%nat then Ok (true, ns)
    else let* ns1 := launch_queries env (nb_wished_query - nb_querying) ns in Ok (true, ns1).
Definition rpc_event_cb (env : ns_env_t) (p : kad_id) (e : kad_event_t) (ns : nsearch_t) : outcome (bool * nsearch_t) :=
  let* (tokeep, ns1) := rpc_reply env p e ns in
  if (tokeep : bool) then rpc_finish env ns1 else Ok (false, ns1).

(* ------------------------------------------------------------------ *)
(** * Start, expiration *)
(* ------------------------------------------------------------------ *)

Definition post_start (env : ns_env_t) (timeout_delay : Z) (base_addr_arr : list kad_addr_t) (ns : nsearch_t) (k : kbucket_t)
    : outcome (nsearch_t * kbucket_t) :=
  assert! match query_type ns with QNULL => false | _ => true end in
  let* k1 := kbucket_notify_nsearch (target_id ns) k in
  let* init_addr_arr :=
    match base_addr_arr with
    | [] => get_nclosest_addr (target_id ns) (n_closest ns) None k1
    | _ => Ok base_addr_arr
    end in
  let* (_, ns1) := merge_addr_arr (ne_now env) init_addr_arr ns in
  let* t := timeout_start (ne_now env) timeout_delay (ns_timeout ns1) in
  let* ns2 := launch_queries env (nb_concurrent_req profile) (set_ns_timeout t ns1) in
  Ok (ns2, k1).
(** On a search just built. *)
Definition start_findnode (env : ns_env_t) (target : kad_id) (n : nat) (timeout_delay : Z) (base_addr_arr : list kad_addr_t)
    (k : kbucket_t) : outcome (nsearch_t * kbucket_t) :=
  post_start env timeout_delay base_addr_arr (set_query target n 0 FINDNODE_REQUEST nsearch_ctor) k.
Definition start_findsomeval (env : ns_env_t) (keyid : kad_id) (max_nb_record n : nat) (timeout_delay : Z)
    (base_addr_arr : list kad_addr_t) (k : kbucket_t) : outcome (nsearch_t * kbucket_t) :=
  post_start env timeout_delay base_addr_arr (set_query keyid n max_nb_record FINDSOMEVAL_REQUEST nsearch_ctor) k.

(** The timer [expire_timeout] fires. *)
Definition nsearch_timeout_cb (env : ns_env_t) (ns : nsearch_t) : outcome (bool * nsearch_t) :=
  let* (tokeep, ns1) := notify_callback env KeTimedout ns in
  if (tokeep : bool) then
    let* t := cpp_expired_cb (ne_now env) (fun t => Ok (Some t)) (ns_timeout ns1) in
    match t with Some t' => Ok (true, set_ns_timeout t' ns1) | None => AssertFail end
  else Ok (false, ns1).

Inductive ns_event := EvRpc (p : kad_id) (e : kad_event_t) | EvTimeout.

Definition ns_step (ev : ns_env_t * ns_event) (ns : nsearch_t) : outcome (bool * nsearch_t) :=
  match ev.2 with
  | EvRpc p e => rpc_event_cb ev.1 p e ns
  | EvTimeout => nsearch_timeout_cb ev.1 ns
  end.
(** Nothing calls a deleted search. *)
Fixpoint ns_run (evs : list (ns_env_t * ns_event)) (ns : nsearch_t) : outcome (bool * nsearch_t) :=
  match evs with
  | [] => Ok (true, ns)
  | ev :: evs' =>
    let* (alive, ns1) := ns_step ev ns in
    if (alive : bool) then ns_run evs' ns1
    else match evs' with [] => Ok (false, ns1) | _ => Fault end
  end.
End nsearch.

(* ------------------------------------------------------------------ *)
(** * Lemmas: maps keyed by identifiers *)
(* ------------------------------------------------------------------ *)

(** Keys in increasing order. *)
Definition id_sorted {V} (l : list (kad_id * V)) : Prop :=
  StronglySorted (fun a b => be_value a < be_value b) l.*1 /\ Forall kad_id_ok l.*1.

Lemma id_sorted_cons {V} k (v : V) l :
  id_sorted ((k, v) :: l) <-> kad_id_ok k /\ Forall (fun q => be_value k < be_value q.1) l /\ id_sorted l.
Proof.
  unfold id_sorted. rewrite fmap_cons, StronglySorted_cons, Forall_cons, Forall_fmap. cbn [fst]. unfold compose. tauto.
Qed.

Lemma id_lt_refl k : kad_id_ok k -> kad_id_lt k k = false.
Proof. intros Hk. rewrite kad_id_lt_spec by done. apply Z.ltb_irrefl. Qed.

Lemma id_lt_true a b : kad_id_ok a -> kad_id_ok b -> be_value a < be_value b -> kad_id_lt a b = true /\ kad_id_lt b a = false.
Proof. intros Ha Hb Hlt. rewrite !kad_id_lt_spec by done. rewrite Z.ltb_lt, Z.ltb_ge. lia. Qed.

Section id_maps.
Context {V : Type}.
Implicit Types (l : list (kad_id * V)).

Lemma id_head k k' v l : id_sorted ((k', v) :: l) -> kad_id_ok k ->
  (be_value k' < be_value k /\ kad_id_lt k' k = true) \/ (k = k' /\ kad_id_lt k' k = false /\ kad_id_lt k k' = false) \/
  (be_value k < be_value k' /\ kad_id_lt k' k = false /\ kad_id_lt k k' = true /\ k ∉ k' :: l.*1).
Proof.
  intros (Hk' & Hl & Hs)%id_sorted_cons Hk. destruct (Z.lt_trichotomy (be_value k') (be_value k)) as [Hlt|[Heq|Hlt]].
  - left. split; [done|]. by apply id_lt_true.
  - right; left. apply (id_value_inj KAD_ID_SIZE) in Heq as ->; [|done..]. split; [done|]. by rewrite id_lt_refl.
  - right; right. destruct (id_lt_true k k' Hk Hk' Hlt). repeat split; [done..|].
    intros [->|Hin]%elem_of_cons; [lia|]. apply list_elem_of_fmap in Hin as ([q w] & -> & Hin).
    rewrite Forall_forall in Hl. specialize (Hl _ Hin). cbn [fst] in *. lia.
Qed.

Lemma id_find_spec k l v : id_sorted l -> kad_id_ok k -> om_find kad_id_lt k l = Some v <-> (k, v) ∈ l.
Proof.
  intros Hs Hk. induction l as [|[k' v'] l IH]; cbn [om_find]; [split; [done|by intros ?%not_elem_of_nil]|].
  pose proof Hs as (Hk' & Hl & Hs')%id_sorted_cons. specialize (IH Hs').
  destruct (id_head k k' v' l Hs Hk) as [[Hlt ->]|[(-> & -> & _)|(Hlt & -> & -> & Hni)]]; rewrite elem_of_cons.
  - rewrite IH. split; [by right|]. intros [[= -> _]|]; [lia|done].
  - split; [intros [= ->]; by left|]. intros [[= ->]|Hin]; [done|].
    rewrite Forall_forall in Hl. specialize (Hl _ Hin). cbn [fst] in Hl. lia.
  - split; [done|]. intros Hin. exfalso. apply Hni. apply elem_of_cons. destruct Hin as [[= -> _]|Hin]; [by left|].
    right. apply list_elem_of_fmap. by exists (k, v).
Qed.

Lemma id_find_none k l : id_sorted l -> kad_id_ok k -> om_find kad_id_lt k l = None <-> k ∉ l.*1.
Proof.
  intros Hs Hk. destruct (om_find kad_id_lt k l) as [v|] eqn:E.
  - apply id_find_spec in E; [|done..]. split; [done|]. intros Hn. exfalso. apply Hn. apply list_elem_of_fmap. by exists (k, v).
  - split; [|done]. intros _ ([k' v] & -> & Hin)%list_elem_of_fmap. apply id_find_spec in Hin; [|done|done]. cbn [fst] in E. congruence.
Qed.

Lemma id_insert_spec k v l : id_sorted l -> kad_id_ok k -> k ∉ l.*1 ->
  exists l', om_insert kad_id_lt k v l = (l', true) /\ l' ≡ₚ (k, v) :: l /\ id_sorted l'.
Proof.
  intros Hs Hk. induction l as [|[k' v'] l IH]; intros Hn; cbn [om_insert].
  { eexists. split; [done|]. split; [done|]. by apply id_sorted_cons. }
  pose proof Hs as (Hk' & Hl & Hs')%id_sorted_cons. cbn [fmap list_fmap fst] in Hn. apply not_elem_of_cons in Hn as [Hne Hn].
  destruct (id_head k k' v' l Hs Hk) as [[Hlt ->]|[(-> & _)|(Hlt & -> & -> & _)]]; [|done|].
  - destruct (IH Hs' Hn) as (l2 & -> & Hp & Hs2). eexists. split; [done|]. split; [rewrite Hp; constructor|].
    apply id_sorted_cons. split; [done|]. split; [|done]. rewrite Hp. by constructor.
  - eexists. split; [done|]. split; [done|]. apply id_sorted_cons. split; [done|]. split; [|done].
    constructor; [done|]. eapply Forall_impl; [exact Hl|]. intros q Hq. cbn [fst] in *. lia.
Qed.

Lemma id_insert_last k v l : id_sorted (l ++ [(k, v)]) -> om_insert kad_id_lt k v l = (l ++ [(k, v)], true).
Proof.
  induction l as [|[k' v'] l IH]; [done|]. rewrite <- app_comm_cons. intros (Hk' & Hl & Hs)%id_sorted_cons. cbn [om_insert].
  apply Forall_app in Hl as [_ Hl]. apply Forall_cons in Hl as [Hlt _]. cbn [fst] in Hlt.
  assert (Hk : kad_id_ok k).
  { destruct Hs as [_ Hs]. rewrite fmap_app in Hs. apply Forall_app in Hs as [_ Hs]. by apply Forall_cons in Hs as [? _]. }
  destruct (id_lt_true k' k Hk' Hk Hlt) as [-> _]. by rewrite (IH Hs).
Qed.

Lemma id_update_spec k f l : id_sorted l -> kad_id_ok k ->
  om_update kad_id_lt k f l = (fun q => if decide (q.1 = k) then (q.1, f q.2) else q) <$> l.
Proof.
  intros Hs Hk. induction l as [|[k' v'] l IH]; cbn [om_update]; [done|].
  pose proof Hs as (Hk' & Hl & Hs')%id_sorted_cons. cbn [fmap list_fmap fst snd].
  assert (Hsame : k ∉ l.*1 -> (fun q : kad_id * V => if decide (q.1 = k) then (q.1, f q.2) else q) <$> l = l).
  { intros Hn. rewrite <- (list_fmap_id l) at 2. apply list_fmap_ext. intros i q Hq. rewrite decide_False; [done|].
    intros <-. apply Hn. apply list_elem_of_fmap. exists q. split; [done|]. by apply list_elem_of_lookup_2 in Hq. }
  destruct (id_head k k' v' l Hs Hk) as [[Hlt ->]|[(-> & -> & _)|(Hlt & -> & -> & Hni)]].
  - rewrite decide_False by (intros ->; lia). f_equal. by apply IH.
  - rewrite decide_True by done. f_equal. symmetry. apply Hsame. intros ([q w] & -> & Hin)%list_elem_of_fmap.
    rewrite Forall_forall in Hl. specialize (Hl _ Hin). cbn [fst] in *. lia.
  - apply not_elem_of_cons in Hni as [Hne Hni]. rewrite decide_False by (intros ->; lia). f_equal. symmetry. by apply Hsame.
Qed.

Lemma id_update_keys k f l : (om_update kad_id_lt k f l).*1 = l.*1.
Proof.
  induction l as [|[k' v'] l IH]; cbn [om_update]; [done|].
  destruct (kad_id_lt k' k); [cbn [fmap list_fmap fst]; by rewrite IH|]. by destruct (kad_id_lt k k').
Qed.
Lemma id_update_sorted k f l : id_sorted l -> id_sorted (om_update kad_id_lt k f l).
Proof. unfold id_sorted. by rewrite id_update_keys. Qed.

Lemma id_erase_head k v l : id_sorted ((k, v) :: l) -> om_erase kad_id_lt k ((k, v) :: l) = l.
Proof. intros (Hk & _)%id_sorted_cons. cbn [om_erase]. by rewrite id_lt_refl. Qed.
End id_maps.

(* ------------------------------------------------------------------ *)
(** * Lemmas: the nodes considered *)
(* ------------------------------------------------------------------ *)

Notation "'lnodes'" := (list (kad_id * lnode_t)).

(** A node that failed, or that is queried for longer than the soft timeout. *)
Definition offline (profile : kad_nsearch_profile_t) (now : Z) (n : lnode_t) : bool :=
  match m_current_state n with
  | FAILED => true
  | QUERYING => rpccli_soft_timeout profile <? wrap 64 (now - rpc_birthdate n)
  | _ => false
  end.
Definition lnode_time_ok (n : lnode_t) : Prop := m_current_state n = QUERYING -> ordinary (rpc_birthdate n).
Definition times_ok (db : lnodes) : Prop := Forall (fun q => lnode_time_ok q.2) db.

Section loops.
Context (profile : kad_nsearch_profile_t) (now : Z).
Hypothesis Hnow : ordinary now.
Implicit Types (db : lnodes).

Definition live db : lnodes := filter (fun q => offline profile now q.2 = false) db.
(** The closest nodes that are not offline. *)
Definition considered (n : nat) db : lnodes := take n (live db).

Lemma is_offline_spec n : lnode_time_ok n -> is_offline profile now n = Ok (offline profile now n).
Proof using Hnow.
  intros Ht. unfold is_offline, offline. unfold lnode_time_ok in Ht. destruct (m_current_state n) eqn:E; [done| |done|done].
  unfold rpc_age. destruct (ordinary_special (rpc_birthdate n)) as [-> _]; [by apply ordinary_below, Ht|].
  cbn [negb dbg_assert]. rewrite delay_sub_ordinary by auto. done.
Qed.

Lemma live_nil : live [] = [].
Proof. done. Qed.

(** One step of a loop: the node is skipped, the last one, or taken. *)
Lemma live_cons k n db :
  live ((k, n) :: db) = if offline profile now n then live db else (k, n) :: live db.
Proof. unfold live. rewrite filter_cons. cbn [snd]. by destruct (offline profile now n). Qed.

Lemma take_step {A} c m (x : A) l : (S c <= m)%nat -> take (m - c) (x :: l) = x :: take (m - S c) l.
Proof. intros. replace (m - c)%nat with (S (m - S c)) by lia. done. Qed.
Lemma take_stop {A} c m (l : list A) : (m < S c)%nat -> take (m - c) l = [].
Proof. intros. replace (m - c)%nat with O by lia. done. Qed.

Ltac loop_step :=
  match goal with H : times_ok _ |- _ => apply Forall_cons in H as [? ?] end; cbn [snd] in *;
  rewrite is_offline_spec by done; cbn [mbind outcome_bind]; rewrite live_cons;
  destruct (offline profile now _); [auto|].

Lemma completed_spec n c db : times_ok db ->
  completed_loop profile now n c db =
    Ok (forallb (fun q => bool_decide (m_current_state q.2 = SUCCEED)) (take (n - c) (live db))).
Proof using Hnow.
  revert c. induction db as [|[k nd] db IH]; intros c Ht; cbn [completed_loop]; [by rewrite live_nil, take_nil|]. loop_step.
  destruct (decide (n < S c)%nat) as [Hlt|Hge]; [by rewrite bool_decide_eq_true_2, take_stop|].
  rewrite bool_decide_eq_false_2, take_step by lia. cbn [forallb snd].
  destruct (decide (m_current_state nd = SUCCEED)) as [E|E].
  - rewrite bool_decide_eq_false_2 by auto. rewrite (bool_decide_eq_true_2 (_ = SUCCEED)) by done. cbn [andb]. auto.
  - rewrite bool_decide_eq_true_2 by done. by rewrite (bool_decide_eq_false_2 (_ = SUCCEED)).
Qed.

Lemma next_lnode_spec n c db : times_ok db ->
  next_lnode_loop profile now n c db =
    Ok (fst <$> head (filter (fun q => m_current_state q.2 = LNULL) (take (n - c) (live db)))).
Proof using Hnow.
  revert c. induction db as [|[k nd] db IH]; intros c Ht; cbn [next_lnode_loop]; [by rewrite live_nil, take_nil|]. loop_step.
  destruct (decide (n < S c)%nat) as [Hlt|Hge]; [by rewrite bool_decide_eq_true_2, take_stop|].
  rewrite bool_decide_eq_false_2, take_step by lia. rewrite filter_cons. cbn [snd].
  destruct (decide (m_current_state nd = LNULL)) as [E|E].
  - by rewrite bool_decide_eq_false_2 by auto.
  - rewrite bool_decide_eq_true_2 by done. auto.
Qed.

Lemma nb_querying_spec n c acc db : times_ok db ->
  nb_querying_loop profile now n c acc db =
    Ok (acc + length (filter (fun q => m_current_state q.2 = QUERYING) (take (n - c) (live db))))%nat.
Proof using Hnow.
  revert c acc. induction db as [|[k nd] db IH]; intros c acc Ht; cbn [nb_querying_loop].
  { rewrite live_nil, take_nil. cbn. by rewrite Nat.add_0_r. }
  loop_step. destruct (decide (n < S c)%nat) as [Hlt|Hge].
  { rewrite bool_decide_eq_true_2, take_stop by done. cbn. by rewrite Nat.add_0_r. }
  rewrite bool_decide_eq_false_2, take_step by lia. rewrite filter_cons, IH by done. cbn [snd].
  case_bool_decide as E; [rewrite decide_True by done; cbn [length]; f_equal; lia|by rewrite decide_False].
Qed.

Lemma nclosest_distid_spec n c db acc :
  times_ok db -> id_sorted db -> id_sorted (acc ++ ((fun q : kad_id * lnode_t => (q.1, tt)) <$> live db)) ->
  nclosest_distid_loop profile now n c db acc =
    Ok (acc ++ ((fun q : kad_id * lnode_t => (q.1, tt)) <$> take (n - c) (live db))).
Proof using Hnow.
  revert c acc. induction db as [|[k nd] db IH]; intros c acc Ht Hs Ha; cbn [nclosest_distid_loop].
  { rewrite live_nil, take_nil. cbn. by rewrite app_nil_r. }
  apply id_sorted_cons in Hs as (Hk & Hlt & Hs). revert Ha. loop_step. intros Ha.
  destruct (decide (n < S c)%nat) as [Hc|Hc].
  { rewrite bool_decide_eq_true_2, take_stop by done. cbn. by rewrite app_nil_r. }
  rewrite bool_decide_eq_false_2, take_step by lia. cbn [fmap list_fmap fst] in Ha |- *.
  assert (Hlast : id_sorted (acc ++ [(k, tt)])).
  { change ((k, tt) :: ?l) with ([(k, tt)] ++ l) in Ha. rewrite app_assoc in Ha. unfold id_sorted in *. rewrite fmap_app in Ha.
    destruct Ha as [Ha1 Ha2]. split; [by apply StronglySorted_app_1_l in Ha1|by apply Forall_app in Ha2 as [? _]]. }
  rewrite id_insert_last by done. cbn [dbg_assert]. rewrite IH; [by rewrite <- app_assoc|done|done|by rewrite <- app_assoc].
Qed.

Lemma findnode_result_spec n result db :
  times_ok db -> (length result < n)%nat ->
  Forall (fun q => m_current_state q.2 = SUCCEED) (take (n - length result) (live db)) ->
  findnode_result_loop profile now n db result =
    Ok (result ++ ((fun q : kad_id * lnode_t => (m_kad_addr q.2, m_cookie_id q.2)) <$> take (n - length result) (live db))).
Proof using Hnow.
  revert result. induction db as [|[k nd] db IH]; intros result Ht Hlen; cbn [findnode_result_loop].
  { rewrite live_nil, take_nil. cbn. by rewrite app_nil_r. }
  loop_step. rewrite take_step by lia. intros [Hst Hrest]%Forall_cons. cbn [snd] in Hst.
  unfold is_online. rewrite bool_decide_eq_true_2 by done. cbn [dbg_assert fmap list_fmap snd].
  destruct (decide (length (result ++ [(m_kad_addr nd, m_cookie_id nd)]) = n)) as [E|E]; rewrite length_app in E; cbn [length] in E.
  - rewrite bool_decide_eq_true_2 by (rewrite length_app; cbn [length]; lia).
    replace (n - S (length result))%nat with O by lia. done.
  - rewrite bool_decide_eq_false_2 by (rewrite length_app; cbn [length]; lia). rewrite IH.
    + rewrite length_app. cbn [length]. rewrite <- app_assoc. replace (length result + 1)%nat with (S (length result)) by lia. done.
    + done.
    + rewrite length_app. cbn [length]. lia.
    + rewrite length_app. cbn [length]. by replace (length result + 1)%nat with (S (length result)) by lia.
Qed.
End loops.

(* ------------------------------------------------------------------ *)
(** * The invariant *)
(* ------------------------------------------------------------------ *)

Section invariant.
Context `{InetLib}.

(** What the code asserts of the addresses it is given. *)
Definition addr_ok (a : kad_addr_t) : Prop := kad_id_ok (peerid a) /\ kad_addr_is_fully_qualified a = Ok true.

Lemma addr_ok_oaddr a : addr_ok a -> ipport_is_fully_qualified (oaddr a) = Ok true /\ kad_addr_is_null a = false.
Proof.
  intros [_ Hq]. unfold kad_addr_is_fully_qualified in Hq. destruct (ipport_is_fully_qualified (oaddr a)) as [b| | |]; [|done..].
  cbn [mbind outcome_bind] in Hq. injection Hq as [-> Hf]%andb_true_iff. split; [done|].
  unfold is_fully_qualified in Hf. apply andb_true_iff in Hf as [Hf _]. apply negb_true_iff in Hf.
  unfold kad_addr_is_null. rewrite Hf. apply andb_false_r.
Qed.

(** A rpc runs exactly while the node is queried, of the type of the search. *)
Definition rpcs_ok (qt : query_type_t) (n : lnode_t) : Prop :=
  findnode_rpc n = match qt, m_current_state n with FINDNODE_REQUEST, QUERYING => true | _, _ => false end /\
  findsomeval_rpc n = match qt, m_current_state n with FINDSOMEVAL_REQUEST, QUERYING => true | _, _ => false end.

(** An entry of [lnode_db]: its key is the distance to the target. *)
Definition lnode_ok (qt : query_type_t) (target : kad_id) (q : kad_id * lnode_t) : Prop :=
  q.1 = id_dist (peerid (m_kad_addr q.2)) target /\ addr_ok (m_kad_addr q.2) /\ lnode_time_ok q.2 /\ rpcs_ok qt q.2.

Record ns_wf (ns : nsearch_t) : Prop := {
  wf_query : query_type ns <> QNULL;
  wf_target : kad_id_ok (target_id ns);
  wf_db : id_sorted (lnode_db ns);
  wf_nodes : Forall (lnode_ok (query_type ns) (target_id ns)) (lnode_db ns);
  wf_candidate : kad_addr_is_null (caching_candidate ns) = true \/ addr_ok (caching_candidate ns);
  wf_timer : to_callback (ns_timeout ns) = true -> delay_ok (to_period (ns_timeout ns))
}.

Lemma wf_times ns : ns_wf ns -> times_ok (lnode_db ns).
Proof. intros Hwf. eapply Forall_impl; [apply (wf_nodes ns Hwf)|]. by intros q (_ & _ & ? & _). Qed.

Lemma wf_set_db db ns :
  ns_wf ns -> id_sorted db -> Forall (lnode_ok (query_type ns) (target_id ns)) db -> ns_wf (set_lnode_db db ns).
Proof. intros [? ? _ _ ? ?] Hs Hn. by split. Qed.

Lemma wf_key ns p n : ns_wf ns -> (p, n) ∈ lnode_db ns -> kad_id_ok p /\ lnode_ok (query_type ns) (target_id ns) (p, n).
Proof.
  intros Hwf Hin. split.
  - destruct (wf_db ns Hwf) as [_ Hk]. rewrite Forall_forall in Hk. apply Hk, list_elem_of_fmap. by exists (p, n).
  - pose proof (wf_nodes ns Hwf) as Hn. rewrite Forall_forall in Hn. by apply (Hn (p, n)).
Qed.

Lemma lnode_at_spec ns p n : ns_wf ns -> (p, n) ∈ lnode_db ns -> lnode_at p ns = Ok n.
Proof.
  intros Hwf Hin. destruct (wf_key ns p n Hwf Hin) as [Hp _]. unfold lnode_at.
  by rewrite (proj2 (id_find_spec p (lnode_db ns) n (wf_db ns Hwf) Hp) Hin).
Qed.

(** The node [p] after [f]. *)
Definition upd (p : kad_id) (f : lnode_t -> lnode_t) (db : lnodes) : lnodes :=
  (fun q => if decide (q.1 = p) then (q.1, f q.2) else q) <$> db.

Lemma lnode_update_spec p f ns : ns_wf ns -> kad_id_ok p -> lnode_update p f ns = set_lnode_db (upd p f (lnode_db ns)) ns.
Proof. intros Hwf Hp. unfold lnode_update. by rewrite id_update_spec by (done || apply (wf_db ns Hwf)). Qed.

Lemma upd_keys p f (db : lnodes) : (upd p f db).*1 = db.*1.
Proof. unfold upd. rewrite <- list_fmap_compose. apply list_fmap_ext. intros _ q _. cbn. by case_decide. Qed.
Lemma upd_sorted p f (db : lnodes) : id_sorted db -> id_sorted (upd p f db).
Proof. unfold id_sorted. by rewrite upd_keys. Qed.

Lemma upd_twice p f g (db : lnodes) : upd p f (upd p g db) = upd p (f ∘ g) db.
Proof.
  unfold upd. rewrite <- list_fmap_compose. apply list_fmap_ext. intros _ [k n] _. unfold compose. cbn [fst snd].
  destruct (decide (k = p)) as [E|E]; cbn [fst snd]; [by rewrite decide_True|by rewrite decide_False].
Qed.

Lemma lnode_update_twice p f g ns :
  ns_wf ns -> kad_id_ok p -> lnode_update p f (lnode_update p g ns) = lnode_update p (f ∘ g) ns.
Proof.
  intros Hwf Hp. rewrite !(lnode_update_spec p _ ns) by done. unfold lnode_update. cbn [set_lnode_db lnode_db].
  rewrite id_update_spec by first [done|apply upd_sorted, (wf_db ns Hwf)]. transitivity (set_lnode_db (upd p f (upd p g (lnode_db ns))) ns); [reflexivity|by rewrite upd_twice].
Qed.

Lemma wf_update p f ns :
  ns_wf ns -> kad_id_ok p ->
  (forall n, (p, n) ∈ lnode_db ns -> lnode_ok (query_type ns) (target_id ns) (p, n) -> lnode_ok (query_type ns) (target_id ns) (p, f n)) ->
  ns_wf (lnode_update p f ns).
Proof.
  intros Hwf Hp Hf. rewrite lnode_update_spec by done. apply wf_set_db; [done|apply upd_sorted, (wf_db ns Hwf)|].
  pose proof (wf_nodes ns Hwf) as Hn. unfold upd. apply Forall_fmap. rewrite !Forall_forall in Hn |- *. intros [k n] Hin.
  specialize (Hn _ Hin). cbn. case_decide as E; [|done]. cbn in *. subst k. by apply Hf.
Qed.

Lemma upd_elem p f (db : lnodes) k n : (k, n) ∈ upd p f db <->
  (k <> p /\ (k, n) ∈ db) \/ (k = p /\ exists n0, (p, n0) ∈ db /\ n = f n0).
Proof.
  unfold upd. rewrite list_elem_of_fmap. split.
  - intros ([k0 n0] & E & Hin). cbn in E. case_decide as Ek; injection E as -> ->; [|left; done].
    right. split; [done|]. exists n0. by subst k0.
  - intros [[Hne Hin]|(-> & n0 & Hin & ->)].
    + exists (k, n). cbn. by rewrite decide_False.
    + exists (p, n0). cbn. by rewrite decide_True.
Qed.

(** Specifications of the queries over the list. *)
Lemma completed_ok profile now ns : ordinary now -> ns_wf ns ->
  nsearch_is_completed profile now ns =
    Ok (forallb (fun q => bool_decide (m_current_state q.2 = SUCCEED)) (considered profile now (n_closest ns) (lnode_db ns))).
Proof.
  intros Hn Hwf. unfold nsearch_is_completed. rewrite completed_spec by (done || by apply wf_times). by rewrite Nat.sub_0_r.
Qed.
Lemma next_ok profile now ns : ordinary now -> ns_wf ns ->
  get_next_lnode_to_query profile now ns =
    Ok (fst <$> head (filter (fun q => m_current_state q.2 = LNULL) (considered profile now (n_closest ns) (lnode_db ns)))).
Proof.
  intros Hn Hwf. unfold get_next_lnode_to_query. rewrite next_lnode_spec by (done || by apply wf_times). by rewrite Nat.sub_0_r.
Qed.
Lemma nb_querying_ok profile now ns : ordinary now -> ns_wf ns ->
  get_nb_querying_node profile now ns =
    Ok (length (filter (fun q => m_current_state q.2 = QUERYING) (considered profile now (n_closest ns) (lnode_db ns)))).
Proof.
  intros Hn Hwf. unfold get_nb_querying_node. rewrite nb_querying_spec by (done || by apply wf_times). by rewrite Nat.sub_0_r.
Qed.

Lemma sorted_sub_keys (l l' : lnodes) : sublist l' l -> id_sorted l -> id_sorted l'.
Proof.
  intros Hsub [Hs Hk]. split.
  - clear Hk. revert Hs. induction Hsub as [|[k n] l1 l2 Hsub IH|[k n] l1 l2 Hsub IH]; cbn [fmap list_fmap fst]; intros Hs; [constructor|..].
    + apply StronglySorted_inv in Hs as [Hs Hx]. constructor; [by apply IH|]. rewrite Forall_forall in Hx |- *. intros y Hy. apply Hx.
      apply list_elem_of_fmap in Hy as (q & -> & Hq). apply list_elem_of_fmap. exists q. split; [done|]. by eapply elem_of_sublist.
    + apply StronglySorted_inv in Hs as [Hs _]. by apply IH.
  - rewrite !Forall_forall in *. intros x (q & -> & Hq)%list_elem_of_fmap. apply Hk. apply list_elem_of_fmap. exists q.
    split; [done|]. by eapply elem_of_sublist.
Qed.

Lemma nclosest_distid_ok profile now ns : ordinary now -> ns_wf ns ->
  get_nclosest_distid profile now ns =
    Ok ((fun q : kad_id * lnode_t => (q.1, tt)) <$> considered profile now (n_closest ns) (lnode_db ns)).
Proof.
  intros Hn Hwf. unfold get_nclosest_distid. rewrite nclosest_distid_spec; [by rewrite Nat.sub_0_r|done|by apply wf_times|by apply wf_db|].
  cbn [app]. assert (Hs : id_sorted (live profile now (lnode_db ns))).
    { eapply sorted_sub_keys; [|apply (wf_db ns Hwf)]. apply sublist_filter. }
    unfold id_sorted in *. rewrite <- list_fmap_compose. exact Hs.
Qed.
End invariant.

(* ------------------------------------------------------------------ *)
(** * Lemmas: learning nodes *)
(* ------------------------------------------------------------------ *)

Section merge.
Context `{InetLib} (profile : kad_nsearch_profile_t).

Definition fresh_node (a : kad_addr_t) : lnode_t := Lnode a cookie_id_null LNULL NONE_VAL false false.
Definition fresh_entry (target : kad_id) (a : kad_addr_t) : kad_id * lnode_t := (id_dist (peerid a) target, fresh_node a).

Lemma lnode_present_spec p ns :
  ns_wf ns -> kad_id_ok p -> lnode_present p ns = bool_decide (id_dist p (target_id ns) ∈ (lnode_db ns).*1).
Proof.
  intros Hwf Hp. assert (Hd : kad_id_ok (id_dist p (target_id ns))) by (apply id_dist_ok; [done|apply (wf_target ns Hwf)]).
  unfold lnode_present. destruct (om_find _ _ _) as [n|] eqn:E.
  - apply id_find_spec in E; [|apply (wf_db ns Hwf)|done]. symmetry. apply bool_decide_eq_true, list_elem_of_fmap. by exists (id_dist p (target_id ns), n).
  - apply id_find_none in E; [|apply (wf_db ns Hwf)|done]. symmetry. by apply bool_decide_eq_false.
Qed.

Lemma lnode_ctor_spec a ns :
  ns_wf ns -> addr_ok a -> id_dist (peerid a) (target_id ns) ∉ (lnode_db ns).*1 ->
  exists db, lnode_ctor a ns = Ok (set_lnode_db db ns) /\ db ≡ₚ fresh_entry (target_id ns) a :: lnode_db ns /\
    ns_wf (set_lnode_db db ns).
Proof.
  intros Hwf Ha Hnew. pose proof Ha as [Hp _]. destruct (addr_ok_oaddr a Ha) as [Hq _].
  assert (Hd : kad_id_ok (id_dist (peerid a) (target_id ns))) by (apply id_dist_ok; [done|apply (wf_target ns Hwf)]).
  unfold lnode_ctor, lnode_link. rewrite Hq. cbn [mbind outcome_bind dbg_assert m_kad_addr].
  rewrite lnode_present_spec, bool_decide_eq_false_2 by done. cbn [negb dbg_assert].
  destruct (id_insert_spec (id_dist (peerid a) (target_id ns)) (fresh_node a) (lnode_db ns) (wf_db ns Hwf) Hd Hnew) as (db & E & Hperm & Hs).
  unfold fresh_node in E. rewrite E. cbn [dbg_assert]. exists db. split; [done|]. split; [exact Hperm|].
  apply wf_set_db; [done|done|]. rewrite Hperm. constructor; [|apply (wf_nodes ns Hwf)].
  split; [done|]. split; [done|]. split; [done|]. split; cbn; by destruct (query_type ns).
Qed.

(** The new addresses are added, once each; [added] are the entries. *)
Lemma merge_loop_spec arr ns :
  ns_wf ns -> Forall addr_ok arr ->
  exists db added, merge_loop arr ns = Ok (set_lnode_db db ns) /\ ns_wf (set_lnode_db db ns) /\
    db ≡ₚ added ++ lnode_db ns /\ Forall (fun q => exists a, a ∈ arr /\ q = fresh_entry (target_id ns) a) added /\
    Forall (fun a => id_dist (peerid a) (target_id ns) ∈ db.*1) arr.
Proof.
  intros Hwf Harr. revert ns Hwf. induction Harr as [|a arr Ha Harr IH]; intros ns Hwf; cbn [merge_loop].
  { exists (lnode_db ns), []. split; [by destruct ns|]. split; [|done]. by destruct ns. }
  rewrite lnode_present_spec by (done || apply Ha). case_bool_decide as Hin.
  - destruct (IH ns Hwf) as (db & added & E & Hwf' & Hp & Hadd & Hall). exists db, added. split; [exact E|]. split; [exact Hwf'|].
    split; [done|]. split.
    + eapply Forall_impl; [exact Hadd|]. intros q (b & Hb & ->). exists b. split; [by right|done].
    + constructor; [|done]. rewrite Hp, fmap_app. apply elem_of_app. by right.
  - destruct (lnode_ctor_spec a ns Hwf Ha Hin) as (db1 & -> & Hp1 & Hwf1). cbn [mbind outcome_bind].
    destruct (IH _ Hwf1) as (db & added & E & Hwf' & Hp & Hadd & Hall). cbn [set_lnode_db target_id lnode_db] in *.
    exists db, (added ++ [fresh_entry (target_id ns) a]). split; [exact E|]. split; [exact Hwf'|].
    split; [rewrite Hp, Hp1, <- app_assoc; done|]. split.
    + apply Forall_app. split; [|constructor; [|done]; exists a; split; [by left|done]].
      eapply Forall_impl; [exact Hadd|]. intros q (b & Hb & ->). exists b. split; [by right|done].
    + constructor; [|done]. rewrite Hp, Hp1, fmap_app. apply elem_of_app. right. by left.
Qed.

Lemma merge_addr_arr_spec now arr ns :
  ordinary now -> ns_wf ns -> Forall addr_ok arr ->
  exists db added, merge_addr_arr profile now arr ns =
      Ok (negb (bool_decide ((considered profile now (n_closest ns) (lnode_db ns)).*1 = (considered profile now (n_closest ns) db).*1)),
          set_lnode_db db ns) /\ ns_wf (set_lnode_db db ns) /\
    db ≡ₚ added ++ lnode_db ns /\ Forall (fun q => exists a, a ∈ arr /\ q = fresh_entry (target_id ns) a) added /\
    Forall (fun a => id_dist (peerid a) (target_id ns) ∈ db.*1) arr.
Proof.
  intros Hn Hwf Harr. destruct (merge_loop_spec arr ns Hwf Harr) as (db & added & E & Hwf' & Hrest).
  exists db, added. split; [|split; [exact Hwf'|exact Hrest]]. unfold merge_addr_arr.
  rewrite nclosest_distid_ok by done. cbn [mbind outcome_bind]. rewrite E. cbn [mbind outcome_bind].
  rewrite nclosest_distid_ok by done. cbn [mbind outcome_bind set_lnode_db lnode_db n_closest].
  set (l1 := considered _ _ _ (lnode_db ns)). set (l2 := considered _ _ _ db).
  assert (Hiff : (fun q : kad_id * lnode_t => (q.1, tt)) <$> l1 = ((fun q : kad_id * lnode_t => (q.1, tt)) <$> l2) <-> l1.*1 = l2.*1).
  { split; intros Heq.
    - apply (f_equal (fmap fst)) in Heq. rewrite <- !list_fmap_compose in Heq. exact Heq.
    - apply (f_equal (fmap (fun k : kad_id => (k, tt)))) in Heq. rewrite <- !list_fmap_compose in Heq. exact Heq. }
  case_bool_decide as H1; case_bool_decide as H2; [done|tauto|tauto|done].
Qed.
End merge.

(* ------------------------------------------------------------------ *)
(** * Lemmas: queries *)
(* ------------------------------------------------------------------ *)

Section launch.
Context `{InetLib} (profile : kad_nsearch_profile_t) (env : ns_env_t).
Hypothesis Hnow : ordinary (ne_now env).

(** What starting queries may do to a node: a null one is queried or failed. *)
Definition evolve (q q' : kad_id * lnode_t) : Prop :=
  q' = q \/ (m_current_state q.2 = LNULL /\ q'.1 = q.1 /\ m_kad_addr q'.2 = m_kad_addr q.2 /\
             (m_current_state q'.2 = QUERYING \/ m_current_state q'.2 = FAILED)).
Definition is_start (o : ns_out_t) : Prop :=
  match o with StartFindnode _ _ _ | StartFindsomeval _ _ _ _ => True | _ => False end.

(** [ns'] is [ns] after starting queries. *)
Definition launched (ns ns' : nsearch_t) : Prop :=
  exists db outs, ns' = Nsearch (target_id ns) (n_closest ns) (query_type ns) (nb_succ_useless_query ns) (findsome_max_nb_rec ns)
      (caching_candidate ns) db (ns_timeout ns) (ns_out ns ++ outs) /\
    Forall2 evolve (lnode_db ns) db /\ Forall is_start outs /\ ns_wf ns'.

Lemma evolve_trans q1 q2 q3 : evolve q1 q2 -> evolve q2 q3 -> evolve q1 q3.
Proof.
  unfold evolve. intros [->|(H1 & H2 & H3 & H4)] [->|(H5 & H6 & H7 & H8)]; [by left|by right| |].
  - right. done.
  - rewrite H5 in H4. by destruct H4.
Qed.

Lemma launched_refl ns : ns_wf ns -> launched ns ns.
Proof.
  intros Hwf. exists (lnode_db ns), []. rewrite app_nil_r. split; [by destruct ns|]. split; [|by split].
  apply Forall_Forall2_diag, Forall_forall. intros q _. by left.
Qed.

Lemma launched_trans ns1 ns2 ns3 : launched ns1 ns2 -> launched ns2 ns3 -> launched ns1 ns3.
Proof.
  intros (db & outs & -> & Hdb & Houts & _) (db' & outs' & -> & Hdb' & Houts' & Hwf). cbn in *.
  exists db', (outs ++ outs'). rewrite app_assoc. split; [done|]. split; [|by rewrite Forall_app].
  eapply Forall2_trans; [apply evolve_trans|exact Hdb|exact Hdb'].
Qed.

Definition null_nodes (db : lnodes) : nat := length (filter (fun q => m_current_state q.2 = LNULL) db).
Definition some_querying (db : lnodes) : Prop := Exists (fun q => m_current_state q.2 = QUERYING) db.

Lemma evolve_querying db db' : Forall2 evolve db db' -> some_querying db -> some_querying db'.
Proof.
  intros Hev Hq. apply Exists_exists in Hq as (q & Hin & Hq). apply list_elem_of_lookup in Hin as [i Hi].
  destruct (Forall2_lookup_l _ _ _ _ _ Hev Hi) as (q' & Hi' & He). apply Exists_exists. exists q'.
  split; [by eapply list_elem_of_lookup_2|]. destruct He as [->|(Hn & _)]; [done|congruence].
Qed.

Lemma upd_evolve p f db :
  (forall n, (p, n) ∈ db -> evolve (p, n) (p, f n)) -> Forall2 evolve db (upd p f db).
Proof.
  intros Hf. unfold upd. apply Forall2_fmap_r, Forall_Forall2_diag, Forall_forall. intros [k n] Hin. unfold compose. cbv beta. cbn [fst snd].
  destruct (decide (k = p)) as [->|]; [by apply Hf|by left].
Qed.

Lemma filter_le {A} (P Q : A -> Prop) `{!forall x, Decision (P x)} `{!forall x, Decision (Q x)} (l l' : list A) :
  Forall2 (fun x x' => Q x' -> P x) l l' -> (length (filter Q l') <= length (filter P l))%nat.
Proof.
  induction 1 as [|x x' l l' Hx Hl IH]; [done|]. rewrite !filter_cons. destruct (decide (Q x')) as [HQ|].
  - rewrite decide_True by auto. cbn [length]. lia.
  - destruct (decide (P x)); cbn [length]; lia.
Qed.
Lemma filter_lt {A} (P Q : A -> Prop) `{!forall x, Decision (P x)} `{!forall x, Decision (Q x)} (l l' : list A) :
  Forall2 (fun x x' => Q x' -> P x) l l' -> (exists i x x', l !! i = Some x /\ l' !! i = Some x' /\ P x /\ ~ Q x') ->
  (length (filter Q l') < length (filter P l))%nat.
Proof.
  induction 1 as [|x x' l l' Hx Hl IH]; intros (i & y & y' & Hi & Hi' & HP & HQ); [done|]. rewrite !filter_cons.
  destruct i as [|i]; cbn in Hi, Hi'.
  - injection Hi as ->. injection Hi' as ->. rewrite decide_False, decide_True by done. cbn [length].
    pose proof (filter_le P Q l l' Hl). lia.
  - assert (length (filter Q l') < length (filter P l))%nat by (apply IH; by exists i, y, y').
    destruct (decide (P x)) as [|Hn]; destruct (decide (Q x')) as [HQx|]; cbn [length]; try lia. by destruct (Hn (Hx HQx)).
Qed.

Lemma wf_emit o ns : ns_wf ns -> ns_wf (ns_emit o ns).
Proof using. clear. intros [? ? ? ? ? ?]. by split. Qed.

(** One node changed, and a query emitted. *)
Lemma launched_upd o p f ns :
  ns_wf ns -> kad_id_ok p -> is_start o ->
  (forall n, (p, n) ∈ lnode_db ns -> evolve (p, n) (p, f n)) ->
  (forall n, (p, n) ∈ lnode_db ns -> lnode_ok (query_type ns) (target_id ns) (p, n) -> lnode_ok (query_type ns) (target_id ns) (p, f n)) ->
  launched ns (ns_emit o (lnode_update p f ns)) /\ lnode_db (ns_emit o (lnode_update p f ns)) = upd p f (lnode_db ns).
Proof using.
  clear. intros Hwf Hp Ho Hev Hok. assert (Hwf' : ns_wf (ns_emit o (lnode_update p f ns))) by (by apply wf_emit, wf_update).
  rewrite (lnode_update_spec p f ns) in * by done. split; [|done].
  exists (upd p f (lnode_db ns)), [o]. split; [done|]. split; [by apply upd_evolve|]. split; [by constructor|done].
Qed.

Lemma db_unique ns p n n' : ns_wf ns -> (p, n) ∈ lnode_db ns -> (p, n') ∈ lnode_db ns -> n' = n.
Proof using.
  clear. intros Hwf Hin Hin'. destruct (wf_key ns p n Hwf Hin) as [Hp _].
  apply (id_find_spec _ _ _ (wf_db ns Hwf) Hp) in Hin, Hin'. congruence.
Qed.

Lemma lnode_start_spec p n ns :
  ns_wf ns -> (p, n) ∈ lnode_db ns -> m_current_state n = LNULL ->
  exists ns' f, lnode_start profile env p ns = Ok (ne_start_ok env (m_kad_addr n), ns') /\ launched ns ns' /\
    lnode_db ns' = upd p f (lnode_db ns) /\
    m_current_state (f n) = if ne_start_ok env (m_kad_addr n) then QUERYING else FAILED.
Proof using Hnow.
  intros Hwf Hin Hst. destruct (wf_key ns p n Hwf Hin) as [Hp Hok]. unfold lnode_start.
  rewrite (lnode_at_spec ns p n) by done. cbn [mbind outcome_bind]. rewrite bool_decide_eq_true_2 by done. cbn [dbg_assert].
  rewrite !lnode_update_twice by done.
  set (g := fun n => set_birthdate (ne_now env) (set_state QUERYING n)).
  set (h := match query_type ns with FINDNODE_REQUEST => set_rpcs true false | _ => set_rpcs false true end).
  set (o := match query_type ns with
            | FINDNODE_REQUEST => StartFindnode (target_id ns) (m_kad_addr n) (rpccli_hard_timeout profile)
            | _ => StartFindsomeval (target_id ns) (findsome_max_nb_rec ns) (m_kad_addr n) (rpccli_hard_timeout profile) end).
  match goal with |- context [mbind ?k ?m] => assert (E : m = Ok (ns_emit o (lnode_update p (h ∘ g) ns))) end.
  { subst h o. destruct (query_type ns) eqn:Eq; [by destruct (wf_query ns Hwf)|done|done]. }
  rewrite E. cbn [mbind outcome_bind].
  assert (Ho : is_start o) by (subst o; by destruct (query_type ns)).
  destruct (ne_start_ok env (m_kad_addr n)).
  - eexists _, (h ∘ g). split; [reflexivity|]. apply and_assoc. split; [|subst h; by destruct (query_type ns)].
    apply launched_upd; [done|done|done| |].
    + intros n' Hin'. pose proof (db_unique ns p n n' Hwf Hin Hin') as ->. right. subst h. destruct (query_type ns); cbn; auto.
    + intros n' _ (Hk & Ha & _). split; [|split; [|split]].
      * subst h; by destruct (query_type ns).
      * subst h; by destruct (query_type ns).
      * intros _. subst h; by destruct (query_type ns).
      * pose proof (wf_query ns Hwf). subst h g; unfold rpcs_ok; by destruct (query_type ns).
  - change (lnode_update p ?f (ns_emit o ?x)) with (ns_emit o (lnode_update p f x)). rewrite lnode_update_twice by done.
    eexists _, ((fun n => set_state FAILED (set_rpcs false false n)) ∘ (h ∘ g)). split; [reflexivity|]. apply and_assoc. split; [|subst h; by destruct (query_type ns)].
    apply launched_upd; [done|done|done| |].
    + intros n' Hin'. pose proof (db_unique ns p n n' Hwf Hin Hin') as ->. right. subst h. destruct (query_type ns); cbn; auto.
    + intros n' _ (Hk & Ha & _). split; [|split; [|split]].
      * subst h; by destruct (query_type ns).
      * subst h; by destruct (query_type ns).
      * subst h; by destruct (query_type ns).
      * subst h g; unfold rpcs_ok; by destruct (query_type ns).
Qed.

Lemma considered_sub now n db q : q ∈ considered profile now n db -> q ∈ db /\ offline profile now q.2 = false.
Proof using.
  clear. unfold considered, live. intros Hq. apply elem_of_take in Hq as (i & Hi & _). apply list_elem_of_lookup_2 in Hi.
  apply list_elem_of_filter in Hi. tauto.
Qed.

(** No node is left to query. *)
Definition exhausted (ns : nsearch_t) : Prop :=
  filter (fun q => m_current_state q.2 = LNULL) (considered profile (ne_now env) (n_closest ns) (lnode_db ns)) = [].
Definition all_start : Prop := forall a, ne_start_ok env a = true.

Lemma launch_one_spec fuel ns :
  ns_wf ns -> (null_nodes (lnode_db ns) < fuel)%nat ->
  exists ns', launch_one profile fuel env ns = Ok ns' /\ launched ns ns' /\
    (exhausted ns' \/ some_querying (lnode_db ns')) /\ (all_start -> exhausted ns \/ some_querying (lnode_db ns')).
Proof using Hnow.
  revert ns. induction fuel as [|fuel IH]; intros ns Hwf Hfuel; [lia|]. cbn [launch_one].
  rewrite next_ok by done. cbn [mbind outcome_bind].
  destruct (filter _ (considered _ _ _ _)) as [|[p n] rest] eqn:E; cbn [head fmap option_fmap option_map fst].
  { exists ns. split; [done|]. split; [by apply launched_refl|]. split; [by left|]. intros _. by left. }
  assert (Hin : (p, n) ∈ lnode_db ns /\ m_current_state n = LNULL).
  { assert (Hq : (p, n) ∈ (p, n) :: rest) by (by left). rewrite <- E in Hq. apply list_elem_of_filter in Hq as [Hst Hq].
    apply considered_sub in Hq as [Hq _]. by split. }
  destruct Hin as [Hin Hst]. destruct (lnode_start_spec p n ns Hwf Hin Hst) as (ns1 & f & E1 & Hl & Hdb & Hf). rewrite E1.
  cbn [mbind outcome_bind]. assert (Hp1 : (p, f n) ∈ lnode_db ns1) by (rewrite Hdb; apply upd_elem; right; split; [done|by exists n]).
  destruct (ne_start_ok env (m_kad_addr n)) eqn:Eok.
  - exists ns1. split; [done|]. split; [done|].
    assert (Hq : some_querying (lnode_db ns1)) by (apply Exists_exists; by exists (p, f n)). split; [by right|]. intros _. by right.
  - pose proof Hl as (db & outs & -> & Hev & _ & Hwf1). cbn [lnode_db] in Hdb, Hp1.
    destruct (IH _ Hwf1) as (ns' & E2 & Hl2 & Hend & _).
    + cbn [lnode_db]. apply (Nat.lt_le_trans _ (null_nodes (lnode_db ns))); [|lia]. apply filter_lt.
      * eapply Forall2_impl; [exact Hev|]. intros q q' [->|(Hn & _)]; [done|by intros _].
      * apply list_elem_of_lookup in Hin as [i Hi]. exists i, (p, n), (p, f n). split; [done|]. rewrite Hdb. unfold upd.
        rewrite list_lookup_fmap, Hi. cbn [fmap option_fmap option_map fst snd]. rewrite decide_True by done. rewrite Hf. by repeat split.
    + exists ns'. split; [exact E2|]. split; [by eapply launched_trans|].
      split; [done|]. intros Hall. rewrite Hall in Eok. done.
Qed.

Lemma launched_keys ns ns' : launched ns ns' -> (lnode_db ns').*1 = (lnode_db ns).*1.
Proof using.
  clear. intros (db & outs & -> & Hev & _). cbn [lnode_db]. induction Hev as [|q q' l l' He Hl IH]; [done|].
  cbn [fmap list_fmap]. rewrite IH. by destruct He as [->|(_ & -> & _)].
Qed.

Lemma null_le db : (null_nodes db < S (length db))%nat.
Proof using. clear. unfold null_nodes. pose proof (length_filter (fun q : kad_id * lnode_t => m_current_state q.2 = LNULL) db). lia. Qed.

Lemma launch_one_exhausted fuel ns : ns_wf ns -> exhausted ns -> launch_one profile (S fuel) env ns = Ok ns.
Proof using Hnow. intros Hwf He. cbn [launch_one]. rewrite next_ok by done. unfold exhausted in He. rewrite He. done. Qed.

Lemma launch_queries_exhausted nb ns : ns_wf ns -> exhausted ns -> launch_queries profile env nb ns = Ok ns.
Proof using Hnow.
  intros Hwf He. induction nb as [|nb IH]; [done|]. cbn [launch_queries]. by rewrite launch_one_exhausted.
Qed.

Lemma launch_queries_spec nb ns :
  ns_wf ns -> exists ns', launch_queries profile env nb ns = Ok ns' /\ launched ns ns' /\
    ((0 < nb)%nat -> (exhausted ns' \/ some_querying (lnode_db ns')) /\
                     (all_start -> exhausted ns \/ some_querying (lnode_db ns'))).
Proof using Hnow.
  revert ns. induction nb as [|nb IH]; intros ns Hwf; cbn [launch_queries].
  { exists ns. split; [done|]. split; [by apply launched_refl|lia]. }
  destruct (launch_one_spec (S (length (lnode_db ns))) ns Hwf (null_le _)) as (ns1 & -> & Hl & Hend & Hall). cbn [mbind outcome_bind].
  pose proof Hl as (db1 & o1 & E1 & _ & _ & Hwf1). destruct (IH ns1 Hwf1) as (ns' & Hns' & Hl2 & _).
  exists ns'. split; [done|]. split; [by eapply launched_trans|]. intros _.
  assert (Hkeep : some_querying (lnode_db ns1) -> some_querying (lnode_db ns')).
  { pose proof Hl2 as (db2 & o2 & E2 & Hev & _). rewrite E2. cbn [lnode_db]. by apply evolve_querying. }
  split; [|intros Ha; destruct (Hall Ha); auto]. destruct Hend as [He|]; [|auto].
  rewrite launch_queries_exhausted in Hns' by done. injection Hns' as <-. by left.
Qed.

(* ------------------------------------------------------------------ *)
(** * Lemmas: the end of a handler *)
(* ------------------------------------------------------------------ *)

Lemma llist_dtor_spec ns : ns_wf ns -> llist_dtor (length (lnode_db ns)) ns = Ok (set_lnode_db [] ns).
Proof using.
  clear. remember (lnode_db ns) as db eqn:Edb. revert ns Edb.
  induction db as [|[k n] db IH]; intros ns Edb Hwf; cbn [length llist_dtor]; rewrite <- Edb; [by destruct ns; cbn in Edb; subst|].
  assert (Hin : (k, n) ∈ lnode_db ns) by (rewrite <- Edb; by left).
  destruct (wf_key ns k n Hwf Hin) as [Hk (Hkey & [Hp _] & _)]. cbn [fst snd] in Hkey, Hp.
  unfold lnode_dtor, lnode_unlink. rewrite lnode_present_spec by done. rewrite <- Hkey, <- Edb.
  rewrite bool_decide_eq_true_2 by (cbn [fmap list_fmap fst]; by left). cbn [dbg_assert].
  pose proof (wf_db ns Hwf) as Hs. rewrite <- Edb in Hs. rewrite id_erase_head by done. cbn [mbind outcome_bind].
  rewrite (IH (set_lnode_db db ns)); [done|done|]. apply id_sorted_cons in Hs as (_ & _ & Hs). apply wf_set_db; [done|done|].
  pose proof (wf_nodes ns Hwf) as Hn. rewrite <- Edb in Hn. by apply Forall_cons in Hn as [_ ?].
Qed.

(** The search after a notification: deleted, or not. *)
Definition cleanup (tokeep : bool) (ns : nsearch_t) : nsearch_t := if tokeep then ns else set_lnode_db [] ns.

Lemma wf_cleanup tk ns : ns_wf ns -> ns_wf (cleanup tk ns).
Proof using. clear. intros Hwf. destruct tk; [done|]. apply wf_set_db; [done|by split; constructor|constructor]. Qed.

Lemma notify_callback_spec e ns :
  ns_wf ns -> notify_callback env e ns = Ok (ne_tokeep env, cleanup (ne_tokeep env) (ns_emit (NotifyCaller e) ns)).
Proof using.
  clear. intros Hwf. unfold notify_callback. destruct (ne_tokeep env); [done|]. unfold nsearch_dtor.
  by rewrite llist_dtor_spec by by apply wf_emit.
Qed.

(** What a completed search reports. *)
Definition all_succeed (ns : nsearch_t) : Prop :=
  Forall (fun q => m_current_state q.2 = SUCCEED) (considered profile (ne_now env) (n_closest ns) (lnode_db ns)).
Definition end_result (ns : nsearch_t) : kad_event_t :=
  match query_type ns with
  | FINDNODE_REQUEST =>
    KeCaddrArr ((fun q : kad_id * lnode_t => (m_kad_addr q.2, m_cookie_id q.2)) <$>
                  considered profile (ne_now env) (n_closest ns) (lnode_db ns))
  | _ => KeRecdups recdups_null false
  end.

Lemma completed_iff ns : ns_wf ns -> nsearch_is_completed profile (ne_now env) ns = Ok true /\ all_succeed ns \/
  nsearch_is_completed profile (ne_now env) ns = Ok false /\ ~ all_succeed ns.
Proof using Hnow.
  intros Hwf. rewrite completed_ok by done. unfold all_succeed. destruct (forallb _ _) eqn:E.
  - left. split; [done|]. apply Forall_forall. intros q Hq. rewrite forallb_forall in E.
    apply list_elem_of_In, E in Hq. by apply bool_decide_eq_true in Hq.
  - right. split; [done|]. intros Hall. apply not_true_iff_false in E. apply E, forallb_forall. intros q Hq%list_elem_of_In.
    rewrite Forall_forall in Hall. apply bool_decide_eq_true. by apply Hall.
Qed.

Lemma notify_end_spec ns :
  ns_wf ns -> (0 < n_closest ns)%nat -> all_succeed ns ->
  notify_end_result profile env ns = Ok (ne_tokeep env, cleanup (ne_tokeep env) (ns_emit (NotifyCaller (end_result ns)) ns)).
Proof using Hnow.
  intros Hwf Hn Hall. destruct (completed_iff ns Hwf) as [[Hc _]|[_ Hc]]; [|done].
  unfold notify_end_result, end_result. rewrite Hc. cbn [mbind outcome_bind dbg_assert].
  destruct (query_type ns) eqn:Eq; [by destruct (wf_query ns Hwf)| |].
  - unfold notify_findnode_result. rewrite Hc. cbn [mbind outcome_bind dbg_assert].
    rewrite (findnode_result_spec profile (ne_now env) Hnow (n_closest ns) []) by first [by apply wf_times|exact Hn|cbn [length]; by rewrite Nat.sub_0_r].
    cbn [mbind outcome_bind app length]. rewrite Nat.sub_0_r. by apply notify_callback_spec.
  - by apply notify_callback_spec.
Qed.

Lemma rpc_finish_spec ns :
  ns_wf ns -> (0 < n_closest ns)%nat ->
  exists alive ns', rpc_finish profile env ns = Ok (alive, ns') /\
    (all_succeed ns /\ alive = ne_tokeep env /\ ns' = cleanup (ne_tokeep env) (ns_emit (NotifyCaller (end_result ns)) ns) \/
     ~ all_succeed ns /\ alive = true /\ launched ns ns' /\
       ((0 < nb_concurrent_req profile)%nat -> (some_querying (lnode_db ns') \/ exhausted ns') /\
          (all_start -> some_querying (lnode_db ns')))).
Proof using Hnow.
  intros Hwf Hn. unfold rpc_finish. destruct (completed_iff ns Hwf) as [[-> Hall]|[-> Hall]]; cbn [mbind outcome_bind].
  { rewrite notify_end_spec by done. eexists _, _. split; [done|]. left. by repeat split. }
  set (wished := if bool_decide _ then _ else _). rewrite nb_querying_ok by done. cbn [mbind outcome_bind].
  set (qs := filter _ _). assert (Hqs : forall q, q ∈ qs -> q ∈ lnode_db ns /\ m_current_state q.2 = QUERYING).
  { intros q Hq. subst qs. apply list_elem_of_filter in Hq as [Hst Hq]. apply considered_sub in Hq as [Hq _]. by split. }
  case_bool_decide as Hw.
  - exists true, ns. split; [done|]. right. split; [done|]. split; [done|]. split; [by apply launched_refl|]. intros Ha.
    assert (Hq : some_querying (lnode_db ns)).
    { destruct qs as [|q rest] eqn:E; [exfalso; cbn [length] in Hw; subst wished; case_bool_decide; lia|].
      destruct (Hqs q) as [Hin Hst]; [by left|]. apply Exists_exists. by exists q. }
    split; [by left|done].
  - destruct (launch_queries_spec (wished - length qs) ns Hwf) as (ns' & -> & Hl & Hend). cbn [mbind outcome_bind].
    exists true, ns'. split; [done|]. right. split; [done|]. split; [done|]. split; [done|]. intros Ha.
    destruct Hend as [Hend Hend']; [lia|]. split; [tauto|]. intros Hs. destruct (Hend' Hs) as [He|]; [|done].
    assert (Hq : some_querying (lnode_db ns)).
    { apply not_Forall_Exists in Hall; [|apply _]. apply Exists_exists in Hall as (q & Hq & Hst).
      apply Exists_exists. exists q. split; [by apply considered_sub in Hq as [? _]|].
      destruct (m_current_state q.2) eqn:E; [|done|done|].
      - exfalso. assert (Hin : q ∈ filter (fun q => m_current_state q.2 = LNULL) (considered profile (ne_now env) (n_closest ns) (lnode_db ns))).
        { by apply list_elem_of_filter. } unfold exhausted in He. rewrite He in Hin. by apply not_elem_of_nil in Hin.
      - exfalso. apply considered_sub in Hq as [_ Hoff]. unfold offline in Hoff. by rewrite E in Hoff. }
    pose proof Hl as (db & outs & -> & Hev & _). cbn [lnode_db]. by eapply evolve_querying.
Qed.

(* ------------------------------------------------------------------ *)
(** * Lemmas: replies *)
(* ------------------------------------------------------------------ *)

Definition settled (st : lnode_state_t) : Prop := st = SUCCEED \/ st = FAILED.

(** The node that answered, before its reply is read. *)
Lemma settle_wf p n st ns :
  ns_wf ns -> (p, n) ∈ lnode_db ns -> settled st ->
  lnode_update p (set_state st) (lnode_update p (set_rpcs false false) ns) = lnode_update p (set_state st ∘ set_rpcs false false) ns /\
  ns_wf (lnode_update p (set_state st ∘ set_rpcs false false) ns).
Proof using.
  clear. intros Hwf Hin Hst. destruct (wf_key ns p n Hwf Hin) as [Hp _]. split; [by apply lnode_update_twice|].
  apply wf_update; [done|done|]. intros n' _ (Hk & Ha & _). split; [done|]. split; [done|]. split.
  - intros Hq. cbn in Hq. destruct Hst as [-> | ->]; done.
  - destruct Hst as [-> | ->]; split; by destruct (query_type ns).
Qed.

Lemma reply_fatal p n e ns :
  ns_wf ns -> (p, n) ∈ lnode_db ns -> m_current_state n = QUERYING -> is_fatal e = true ->
  rpc_reply profile env p e ns = Ok (true, lnode_update p (set_state FAILED ∘ set_rpcs false false) ns).
Proof using.
  clear. intros Hwf Hin Hst Hf. unfold rpc_reply. rewrite (lnode_at_spec ns p n) by done. cbn [mbind outcome_bind].
  rewrite bool_decide_eq_true_2 by done. cbn [dbg_assert]. rewrite Hf.
  by rewrite (proj1 (settle_wf p n FAILED ns Hwf Hin (or_intror eq_refl))).
Qed.

(** The candidate for caching, of a search for a value. *)
Definition new_candidate (n : lnode_t) (ns : nsearch_t) : kad_addr_t :=
  if match query_type ns with FINDSOMEVAL_REQUEST => true | _ => false end && caching_enable profile &&
     (kad_addr_is_null (caching_candidate ns) ||
      kad_id_lt (id_dist (target_id ns) (peerid (m_kad_addr n))) (id_dist (target_id ns) (peerid (caching_candidate ns))))
  then m_kad_addr n else caching_candidate ns.

Definition answered (c : cookie_id_t) (n : lnode_t) : lnode_t := set_cookie c (set_state SUCCEED (set_rpcs false false n)).

Lemma process_spec p n c arr ns :
  ns_wf ns -> (p, n) ∈ lnode_db ns -> Forall addr_ok arr ->
  exists db added useless,
    process_replied_addr_arr profile (ne_now env) arr (lnode_update p (set_cookie c) (lnode_update p (set_state SUCCEED ∘ set_rpcs false false) ns)) =
      Ok (set_useless useless (set_lnode_db db ns)) /\ ns_wf (set_useless useless (set_lnode_db db ns)) /\
    db ≡ₚ added ++ upd p (answered c) (lnode_db ns) /\
    Forall (fun q => exists a, a ∈ arr /\ q = fresh_entry (target_id ns) a) added /\
    Forall (fun a => id_dist (peerid a) (target_id ns) ∈ db.*1) arr.
Proof using Hnow.
  intros Hwf Hin Harr. destruct (wf_key ns p n Hwf Hin) as [Hp _].
  rewrite lnode_update_twice by done. fold (answered c). change (set_cookie c ∘ (set_state SUCCEED ∘ set_rpcs false false)) with (answered c).
  assert (Hwf1 : ns_wf (lnode_update p (answered c) ns)).
  { apply wf_update; [done|done|]. intros n' _ (Hk & Ha & _). split; [done|]. split; [done|]. split; [done|].
    split; by destruct (query_type ns). }
  rewrite (lnode_update_spec p (answered c) ns) in * by done.
  destruct (merge_addr_arr_spec profile (ne_now env) arr _ Hnow Hwf1 Harr) as (db & added & E & Hwf2 & Hp2 & Hadd & Hall).
  unfold process_replied_addr_arr. rewrite E. cbn [mbind outcome_bind]. eexists db, added, _. split; [reflexivity|].
  split; [by destruct Hwf2|done].
Qed.

Lemma reply_addrs p n arr c ns :
  ns_wf ns -> (p, n) ∈ lnode_db ns -> m_current_state n = QUERYING -> Forall addr_ok arr ->
  exists db added useless,
    rpc_reply profile env p (KeAddrArr arr c) ns =
      Ok (true, set_candidate (new_candidate n ns) (set_useless useless (set_lnode_db db ns))) /\
    ns_wf (set_candidate (new_candidate n ns) (set_useless useless (set_lnode_db db ns))) /\
    db ≡ₚ added ++ upd p (answered c) (lnode_db ns) /\
    Forall (fun q => exists a, a ∈ arr /\ q = fresh_entry (target_id ns) a) added /\
    Forall (fun a => id_dist (peerid a) (target_id ns) ∈ db.*1) arr.
Proof using Hnow.
  intros Hwf Hin Hst Harr. destruct (process_spec p n c arr ns Hwf Hin Harr) as (db & added & useless & E & Hwf' & Hdb & Hadd & Hall).
  destruct (wf_key ns p n Hwf Hin) as [Hp (_ & Ha & _)].
  exists db, added, useless. split; [|split; [|done]].
  - unfold rpc_reply. rewrite (lnode_at_spec ns p n) by done. cbn [mbind outcome_bind].
    rewrite bool_decide_eq_true_2 by done. cbn [dbg_assert]. change (is_fatal _) with false. cbv iota.
    rewrite (proj1 (settle_wf p n SUCCEED ns Hwf Hin (or_introl eq_refl))).
    assert (Hq : query_type (lnode_update p (set_state SUCCEED ∘ set_rpcs false false) ns) = query_type ns) by done.
    unfold handle_reply. rewrite Hq. unfold new_candidate. destruct (query_type ns) eqn:Eq; [by destruct (wf_query ns Hwf)| |].
    + unfold handle_findnode_reply. change (is_findnode_rpc_ok _) with true. change (is_fatal _) with false.
      cbn [dbg_assert negb get_addr_arr mbind outcome_bind]. rewrite E. cbn [mbind outcome_bind]. cbn [andb]. by destruct ns.
    + unfold handle_findsomeval_reply. change (is_findsomeval_rpc_ok _) with true. change (is_fatal _) with false.
      change (is_recdups _) with false. cbn [dbg_assert negb get_addr_arr mbind outcome_bind]. cbv iota. rewrite E. cbn [mbind outcome_bind].
      rewrite (lnode_at_spec _ p (answered c n)); [|exact Hwf'|cbn [set_useless set_lnode_db lnode_db]; rewrite Hdb; apply elem_of_app; right; apply upd_elem; right; split; [done|by exists n]].
      cbn [mbind outcome_bind]. do 2 f_equal. unfold update_candidate.
      cbn [set_useless set_lnode_db caching_candidate target_id answered set_cookie set_state set_rpcs m_kad_addr].
      destruct (caching_enable profile); cbn [andb]; [|by destruct ns]. destruct (_ || _); [done|]. by destruct ns.
  - destruct Hwf' as [? ? ? ? Hc ?]. split; [done..| |done]. cbn. unfold new_candidate. destruct (_ && _); [by right|exact Hc].
Qed.

Definition cached (rs : kad_recdups_t) (ns : nsearch_t) : nsearch_t :=
  if caching_enable profile && negb (kad_addr_is_null (caching_candidate ns))
  then ns_emit (CacheRec rs (caching_candidate ns)) ns else ns.

Lemma reply_recs p n rs more ns :
  ns_wf ns -> (p, n) ∈ lnode_db ns -> m_current_state n = QUERYING -> query_type ns = FINDSOMEVAL_REQUEST ->
  let ns1 := lnode_update p (set_state SUCCEED ∘ set_rpcs false false) ns in
  rpc_reply profile env p (KeRecdups rs more) ns =
    Ok (ne_tokeep env, cleanup (ne_tokeep env) (ns_emit (NotifyCaller (KeRecdups rs more)) (cached rs ns1))) /\
  ns_wf (cached rs ns1).
Proof using.
  clear. intros Hwf Hin Hst Hq ns1. destruct (settle_wf p n SUCCEED ns Hwf Hin (or_introl eq_refl)) as [Es Hwf1]. fold ns1 in Es, Hwf1.
  assert (Hwf2 : ns_wf (cached rs ns1)) by (unfold cached; destruct (_ && _); [by apply wf_emit|done]). split; [|done].
  unfold rpc_reply. rewrite (lnode_at_spec ns p n) by done. cbn [mbind outcome_bind].
  rewrite bool_decide_eq_true_2 by done. cbn [dbg_assert]. change (is_fatal _) with false. cbv iota. rewrite Es.
  unfold handle_reply. change (query_type ns1) with (query_type ns). rewrite Hq. unfold handle_findsomeval_reply.
  change (is_findsomeval_rpc_ok _) with true. change (is_fatal _) with false. change (is_recdups _) with true.
  cbn [dbg_assert negb get_recdups mbind outcome_bind]. cbv iota.
  assert (Ec : (if caching_enable profile && negb (kad_addr_is_null (caching_candidate ns1))
                then cache_rec rs (caching_candidate ns1) ns1 else Ok ns1) = Ok (cached rs ns1)).
  { unfold cached. destruct (caching_enable profile && _) eqn:E; [|done]. apply andb_true_iff in E as [_ E].
    unfold cache_rec. destruct (wf_candidate ns1 Hwf1) as [Hn|[_ Ha]]; [by rewrite Hn in E|]. rewrite Ha. done. }
  rewrite Ec. cbn [mbind outcome_bind]. by apply notify_callback_spec.
Qed.

(** What the caller may be told: the events it asserts, and checked addresses. *)
Definition caddrs_ok (e : kad_event_t) : Prop := match e with KeCaddrArr arr => Forall (fun c => addr_ok c.1) arr | _ => True end.
Definition notify_ok (qt : query_type_t) (o : ns_out_t) : Prop :=
  match o with
  | NotifyCaller e =>
    (match qt with FINDNODE_REQUEST => is_nsearch_findnode_ok e | _ => is_nsearch_findsomeval_ok e end) = true /\ caddrs_ok e
  | _ => True
  end.
Definition told (outs : list ns_out_t) : Prop := exists e, NotifyCaller e ∈ outs.

Definition nb_settled (db : lnodes) : nat :=
  length (filter (fun q => m_current_state q.2 = SUCCEED \/ m_current_state q.2 = FAILED) db).

Lemma evolve_settled db db' : Forall2 evolve db db' -> (nb_settled db <= nb_settled db')%nat.
Proof using.
  clear. unfold nb_settled. intros Hev. apply filter_le. apply Forall2_flip. eapply Forall2_impl; [exact Hev|].
  intros q q' [->|(Hn & _)]; [done|]. rewrite Hn. by intros [|].
Qed.

Lemma upd_settled p n f db :
  (p, n) ∈ db -> m_current_state n = QUERYING -> (forall n', settled (m_current_state (f n'))) ->
  (nb_settled db < nb_settled (upd p f db))%nat.
Proof using.
  clear. intros Hin Hst Hf. unfold nb_settled. apply filter_lt.
  - unfold upd. apply Forall2_fmap_l, Forall_Forall2_diag, Forall_forall. intros q _. unfold compose.
    destruct (decide (q.1 = p)); [intros _; apply Hf|done].
  - apply list_elem_of_lookup in Hin as [i Hi]. exists i, (p, f n), (p, n). split; [|split; [done|]].
    + unfold upd. rewrite list_lookup_fmap, Hi. cbn [fmap option_fmap option_map fst snd]. by rewrite decide_True.
    + split; [apply Hf|]. cbn [snd]. rewrite Hst. by intros [|].
Qed.
End launch.

(* ------------------------------------------------------------------ *)
(** * Lemmas: steps and runs *)
(* ------------------------------------------------------------------ *)

Section steps.
Context `{InetLib} (profile : kad_nsearch_profile_t).

(** The event of a rpc that runs, of one of the types the rpc gives. *)
Definition rpc_ev_ok (qt : query_type_t) (e : kad_event_t) : Prop :=
  match e with
  | KeCnxClosed | KeCnxRefused | KeTimedout => True
  | KeAddrArr arr _ => Forall addr_ok arr
  | KeRecdups _ _ => qt = FINDSOMEVAL_REQUEST
  | _ => False
  end.
Definition ns_ev_ok (ev : ns_env_t * ns_event) (ns : nsearch_t) : Prop :=
  ordinary (ne_now ev.1) /\
  match ev.2 with
  | EvTimeout => to_callback (ns_timeout ns) = true
  | EvRpc p e => (exists n, (p, n) ∈ lnode_db ns /\ m_current_state n = QUERYING) /\ rpc_ev_ok (query_type ns) e
  end.
Fixpoint ns_events_ok (evs : list (ns_env_t * ns_event)) (ns : nsearch_t) : Prop :=
  match evs with
  | [] => True
  | ev :: evs' => ns_ev_ok ev ns /\ forall alive ns', ns_step profile ev ns = Ok (alive, ns') ->
      if alive : bool then ns_events_ok evs' ns' else evs' = []
  end.

(** The nodes an event makes known. *)
Definition learned (ev : ns_env_t * ns_event) : list kad_addr_t :=
  match ev.2 with EvRpc _ (KeAddrArr arr _) => arr | _ => [] end.
Definition is_rpc (ev : ns_env_t * ns_event) : bool := match ev.2 with EvRpc _ _ => true | EvTimeout => false end.

Definition same_query (ns ns' : nsearch_t) : Prop :=
  target_id ns' = target_id ns /\ n_closest ns' = n_closest ns /\ query_type ns' = query_type ns.

(** What a step keeps and gives. *)
Record step_ok (ev : ns_env_t * ns_event) (ns ns' : nsearch_t) (alive : bool) (outs : list ns_out_t) : Prop := {
  so_wf : ns_wf ns';
  so_same : same_query ns ns';
  so_out : ns_out ns' = ns_out ns ++ outs;
  so_notify : Forall (notify_ok (query_type ns)) outs;
  so_alive : alive = false -> ne_tokeep ev.1 = false /\ exists outs0 e, outs = outs0 ++ [NotifyCaller e];
  so_quiet : alive = true -> ne_tokeep ev.1 = false -> ~ told outs;
  so_timer : is_rpc ev = true -> ns_timeout ns' = ns_timeout ns;
  so_settled : alive = true -> (nb_settled (lnode_db ns) + (if is_rpc ev then 1 else 0) <= nb_settled (lnode_db ns'))%nat;
  so_keys : alive = true -> forall k, k ∈ (lnode_db ns').*1 ->
    k ∈ (lnode_db ns).*1 \/ exists a, a ∈ learned ev /\ k = id_dist (peerid a) (target_id ns);
  so_progress : (0 < nb_concurrent_req profile)%nat -> all_start ev.1 -> some_querying (lnode_db ns) ->
    some_querying (lnode_db ns') \/ told outs
}.

Lemma start_notify_ok qt outs : Forall is_start outs -> Forall (notify_ok qt) outs.
Proof. intros Hs. eapply Forall_impl; [exact Hs|]. by intros []. Qed.

Lemma told_last outs e : told (outs ++ [NotifyCaller e]).
Proof. exists e. apply elem_of_app. right. by left. Qed.
Lemma told_app outs1 outs2 : told (outs1 ++ outs2) -> told outs1 \/ told outs2.
Proof. intros [e [He|He]%elem_of_app]; [left|right]; by exists e. Qed.
Lemma starts_quiet outs : Forall is_start outs -> ~ told outs.
Proof. intros Hs [e He]. rewrite Forall_forall in Hs. by apply (Hs _ He). Qed.

Lemma end_result_ok env ns : ns_wf ns -> notify_ok (query_type ns) (NotifyCaller (end_result profile env ns)).
Proof.
  intros Hwf. unfold notify_ok, end_result. destruct (query_type ns); try done. split; [done|]. cbn [caddrs_ok].
  apply Forall_fmap, Forall_forall. intros [k n] [Hin _]%considered_sub. cbn. by destruct (wf_key ns k n Hwf Hin) as (_ & _ & ? & _).
Qed.

(** The end of the handler, after a reply that left the search [ns1]. *)
Lemma finish_step env p e ns ns1 outs0 :
  ordinary (ne_now env) -> ns_wf ns1 -> (0 < n_closest ns)%nat -> same_query ns ns1 -> ns_out ns1 = ns_out ns ++ outs0 ->
  Forall (notify_ok (query_type ns)) outs0 -> (ne_tokeep env = false -> ~ told outs0) -> ns_timeout ns1 = ns_timeout ns ->
  (nb_settled (lnode_db ns) < nb_settled (lnode_db ns1))%nat ->
  (forall k, k ∈ (lnode_db ns1).*1 -> k ∈ (lnode_db ns).*1 \/ exists a, a ∈ learned (env, EvRpc p e) /\ k = id_dist (peerid a) (target_id ns)) ->
  exists alive ns' outs, rpc_finish profile env ns1 = Ok (alive, ns') /\ step_ok (env, EvRpc p e) ns ns' alive outs.
Proof.
  intros Hnow Hwf Hn (E1 & E2 & E3) Eo Hno Hquiet Htimer Hset Hkeys. rewrite <- E2 in Hn.
  destruct (rpc_finish_spec profile env Hnow ns1 Hwf Hn) as (alive & ns' & E & [(Hall & -> & ->)|(_ & -> & Hl & Hprog)]).
  - set (o := NotifyCaller (end_result profile env ns1)) in *.
    exists (ne_tokeep env), (cleanup (ne_tokeep env) (ns_emit o ns1)), (outs0 ++ [o]). split; [exact E|].
    assert (Ht : told (outs0 ++ [o])) by apply told_last.
    split.
    + by apply wf_cleanup, wf_emit.
    + by destruct (ne_tokeep env).
    + rewrite app_assoc, <- Eo. by destruct (ne_tokeep env).
    + apply Forall_app. split; [done|]. constructor; [|done]. rewrite <- E3. by apply end_result_ok.
    + intros Hf. split; [done|]. by eexists _, _.
    + intros Ha Hk. cbn [fst] in Hk. exfalso. congruence.
    + intros _. by destruct (ne_tokeep env).
    + intros ->. cbn [is_rpc fst snd cleanup ns_emit lnode_db]. lia.
    + intros ->. exact Hkeys.
    + by right.
  - pose proof Hl as (db & outs & -> & Hev & Hst & Hwf'). pose proof (launched_keys _ _ Hl) as Hk. cbn [lnode_db] in Hk.
    eexists true, _, (outs0 ++ outs). split; [exact E|]. split.
    + done.
    + done.
    + cbn [ns_out]. by rewrite Eo, app_assoc.
    + apply Forall_app. split; [done|]. by apply start_notify_ok.
    + done.
    + intros _ Hkeep [Ht|Ht]%told_app; [by apply Hquiet|by apply (starts_quiet outs)].
    + done.
    + intros _. cbn [is_rpc fst snd lnode_db]. pose proof (evolve_settled _ _ Hev). lia.
    + intros _ k. cbn [lnode_db]. rewrite Hk. apply Hkeys.
    + intros Ha Hs _. left. by apply Hprog.
Qed.

Lemma keys_upd p f added ns (arr : list kad_addr_t) (db : lnodes) :
  db ≡ₚ added ++ upd p f (lnode_db ns) -> Forall (fun q => exists a, a ∈ arr /\ q = fresh_entry (target_id ns) a) added ->
  forall k, k ∈ db.*1 -> k ∈ (lnode_db ns).*1 \/ exists a, a ∈ arr /\ k = id_dist (peerid a) (target_id ns).
Proof.
  intros Hp Hadd k. rewrite Hp, fmap_app, elem_of_app, upd_keys. intros [Hk|Hk]; [right|by left].
  apply list_elem_of_fmap in Hk as (q & -> & Hq). rewrite Forall_forall in Hadd. destruct (Hadd q Hq) as (a & Ha & ->). by exists a.
Qed.

Lemma settled_app (l l' db : lnodes) : db ≡ₚ l ++ l' -> (nb_settled l' <= nb_settled db)%nat.
Proof. unfold nb_settled. intros ->. rewrite filter_app, length_app. lia. Qed.

(** The deletion by the caller during a handler. *)
Lemma deleted_step ev ns ns1 outs :
  ns_wf ns1 -> same_query ns ns1 -> ns_out ns1 = ns_out ns ++ outs -> Forall (notify_ok (query_type ns)) outs ->
  ne_tokeep ev.1 = false -> ns_timeout ns1 = ns_timeout ns -> (exists outs0 e, outs = outs0 ++ [NotifyCaller e]) ->
  step_ok ev ns (set_lnode_db [] ns1) false outs.
Proof.
  intros Hwf Hs Eo Hno Hk Ht He. split; try done; [apply (wf_cleanup false ns1 Hwf)|].
  right. destruct He as (outs0 & e & ->). apply told_last.
Qed.

Lemma rpc_step env p e ns :
  ns_wf ns -> (0 < n_closest ns)%nat -> ns_ev_ok (env, EvRpc p e) ns ->
  exists alive ns' outs, rpc_event_cb profile env p e ns = Ok (alive, ns') /\ step_ok (env, EvRpc p e) ns ns' alive outs.
Proof.
  intros Hwf Hn (Hnow & (n & Hin & Hst) & He). destruct (wf_key ns p n Hwf Hin) as [Hp _]. unfold rpc_event_cb.
  assert (Hfatal : is_fatal e = true -> exists alive ns' outs, (let* (tokeep, ns1) := rpc_reply profile env p e ns in
      if (tokeep : bool) then rpc_finish profile env ns1 else Ok (false, ns1)) = Ok (alive, ns') /\ step_ok (env, EvRpc p e) ns ns' alive outs).
  { intros Hf. rewrite (reply_fatal profile env p n e ns) by done. cbn [mbind outcome_bind].
    destruct (settle_wf p n FAILED ns Hwf Hin (or_intror eq_refl)) as [_ Hwf1].
    rewrite (lnode_update_spec p _ ns) in * by done. apply (finish_step _ _ _ _ _ []); try done; cbn [set_lnode_db lnode_db ns_out].
    - by rewrite app_nil_r.
    - by intros _ [? ?%not_elem_of_nil].
    - apply (upd_settled p n); [done|done|]. intros n'. by right.
    - intros k. rewrite upd_keys. by left. }
  destruct e as [| | | | | |rs more|arr c|]; try done; try (by apply Hfatal); clear Hfatal.
  - destruct (reply_recs profile env p n rs more ns Hwf Hin Hst He) as [-> Hwf1]. cbn [mbind outcome_bind].
    set (ns1 := cached _ _ _) in *. set (o := NotifyCaller (KeRecdups rs more)).
    assert (H1 : exists outs, ns_out ns1 = ns_out ns ++ outs /\ Forall (notify_ok (query_type ns)) outs /\ same_query ns ns1 /\
      lnode_db ns1 = upd p (set_state SUCCEED ∘ set_rpcs false false) (lnode_db ns) /\ ns_timeout ns1 = ns_timeout ns).
    { subst ns1. unfold cached. rewrite (lnode_update_spec p _ ns) by done. destruct (_ && _).
      - eexists. split; [reflexivity|]. split; [by constructor|done].
      - exists []. rewrite app_nil_r. by repeat split. }
    destruct H1 as (outs1 & Eo & Hno & Hsame & Hdb & Htimer).
    assert (Ho : ns_out (ns_emit o ns1) = ns_out ns ++ outs1 ++ [o]) by (cbn [ns_emit ns_out]; by rewrite Eo, <- app_assoc).
    assert (Hall : Forall (notify_ok (query_type ns)) (outs1 ++ [o])).
    { apply Forall_app. split; [done|]. constructor; [|done]. cbn in He |- *. rewrite He. by split. }
    destruct (ne_tokeep env) eqn:Et; cbn [cleanup].
    + apply (finish_step _ _ _ _ _ (outs1 ++ [o])); try done; cbn [ns_emit lnode_db]; rewrite ?Hdb.
      * by apply wf_emit.
      * congruence.
      * apply (upd_settled p n); [done|done|]. intros n'. by left.
      * intros k. rewrite upd_keys. by left.
    + eexists false, _, (outs1 ++ [o]). split; [reflexivity|]. apply deleted_step; try done.
      * by apply wf_emit.
      * by eexists _, _.
  - destruct (reply_addrs profile env Hnow p n arr c ns Hwf Hin Hst He) as (db & added & useless & -> & Hwf1 & Hdb & Hadd & _).
    cbn [mbind outcome_bind]. apply (finish_step _ _ _ _ _ []); try done; cbn [set_candidate set_useless set_lnode_db lnode_db ns_out].
    + by rewrite app_nil_r.
    + by intros _ [? ?%not_elem_of_nil].
    + eapply Nat.lt_le_trans; [|by eapply settled_app]. apply (upd_settled p n); [done|done|]. intros n'. by left.
    + by eapply keys_upd.
Qed.

Lemma timeout_step env ns :
  ordinary (ne_now env) -> to_callback (ns_timeout ns) = true -> ns_wf ns ->
  exists alive ns' outs, nsearch_timeout_cb env ns = Ok (alive, ns') /\ step_ok (env, EvTimeout) ns ns' alive outs.
Proof.
  intros Hnow Hcb Hwf. unfold nsearch_timeout_cb. rewrite notify_callback_spec by done. cbn [mbind outcome_bind].
  set (o := NotifyCaller KeTimedout). assert (Ht : told [o]) by (eexists; by left).
  assert (Hall : Forall (notify_ok (query_type ns)) [o]) by (constructor; [by destruct (query_type ns)|done]).
  destruct (ne_tokeep env) eqn:Et; cbn [cleanup].
  - pose proof (wf_timer ns Hwf Hcb) as Hper. change (ns_timeout (ns_emit o ns)) with (ns_timeout ns).
    destruct (expired_same (ne_now env) (ns_timeout ns) Hnow Hper Hcb) as (t1 & -> & Hcb1 & Hper1). cbn [mbind outcome_bind].
    eexists true, _, [o]. split; [reflexivity|]. split; try done.
    + destruct Hwf. split; try done. cbn. by rewrite Hper1.
    + cbn [fst]. congruence.
    + intros _. cbn [is_rpc fst snd set_ns_timeout ns_emit lnode_db]. lia.
    + intros _ k Hk. by left.
    + by right.
  - eexists false, _, [o]. split; [reflexivity|]. apply deleted_step; try done; [by apply wf_emit|by exists [], KeTimedout].
Qed.

Lemma ns_step_ok ev ns :
  ns_wf ns -> (0 < n_closest ns)%nat -> ns_ev_ok ev ns ->
  exists alive ns' outs, ns_step profile ev ns = Ok (alive, ns') /\ step_ok ev ns ns' alive outs.
Proof.
  intros Hwf Hn Hok. destruct ev as [env [p e|]]; unfold ns_step; cbn [fst snd].
  - by apply rpc_step.
  - by apply timeout_step; [apply Hok..|].
Qed.

Definition nb_rpcs (evs : list (ns_env_t * ns_event)) : nat := length (filter (fun ev => is_rpc ev = true) evs).

Lemma ns_run_ok evs ns :
  ns_wf ns -> (0 < n_closest ns)%nat -> ns_events_ok evs ns ->
  exists alive ns' outs, ns_run profile evs ns = Ok (alive, ns') /\ ns_wf ns' /\ same_query ns ns' /\
    ns_out ns' = ns_out ns ++ outs /\ Forall (notify_ok (query_type ns)) outs /\ (alive = false -> told outs) /\
    ((0 < nb_concurrent_req profile)%nat -> Forall (fun ev => all_start ev.1) evs -> some_querying (lnode_db ns) ->
       some_querying (lnode_db ns') \/ told outs).
Proof.
  revert ns. induction evs as [|ev evs IH]; intros ns Hwf Hn Hok.
  { exists true, ns, []. rewrite app_nil_r. do 4 (split; [done|]). split; [constructor|]. split; [done|]. intros _ _ Hq. by left. }
  destruct Hok as [Hev Hevs]. destruct (ns_step_ok ev ns Hwf Hn Hev) as (alive & ns1 & outs1 & E & [Hwf1 Hs1 Ho1 Hno1 Hd1 _ _ _ _ Hp1]).
  cbn [ns_run]. rewrite E. cbn [mbind outcome_bind]. specialize (Hevs alive ns1 E). destruct alive.
  - assert (Hn1 : (0 < n_closest ns1)%nat) by (destruct Hs1 as (_ & -> & _); done).
    destruct (IH ns1 Hwf1 Hn1 Hevs) as (alive & ns' & outs & -> & Hwf' & Hs' & Ho' & Hno' & Hd' & Hp').
    exists alive, ns', (outs1 ++ outs). split; [done|]. split; [exact Hwf'|].
    assert (Htold : told outs -> told (outs1 ++ outs)) by (intros [e He]; exists e; apply elem_of_app; by right).
    assert (Htold1 : told outs1 -> told (outs1 ++ outs)) by (intros [e He]; exists e; apply elem_of_app; by left).
    split; [unfold same_query in *; intuition congruence|]. split; [rewrite Ho', Ho1; by rewrite app_assoc|].
    split; [apply Forall_app; split; [done|]; by destruct Hs1 as (_ & _ & <-)|]. split; [auto|].
    intros Ha [Hst Hsts]%Forall_cons Hq. destruct (Hp1 Ha Hst Hq) as [Hq1|]; [|auto]. destruct (Hp' Ha Hsts Hq1); auto.
  - subst evs. exists false, ns1, outs1. split; [done|]. split; [exact Hwf1|]. split; [exact Hs1|]. split; [exact Ho1|].
    split; [exact Hno1|]. assert (Ht : told outs1) by (destruct (Hd1 eq_refl) as (_ & outs0 & e & ->); apply told_last).
    split; [done|]. intros _ _ _. by right.
Qed.

(** Keys among [K]. *)
Lemma settled_bound ns (K : list kad_id) : ns_wf ns -> (lnode_db ns).*1 ⊆ K -> (length (lnode_db ns) <= length K)%nat.
Proof.
  intros Hwf HK. rewrite <- (length_fmap fst). apply submseteq_length, NoDup_submseteq; [|done].
  destruct (wf_db ns Hwf) as [Hs _]. clear -Hs. induction Hs as [|x l Hl IH Hx]; constructor; [|done].
  intros Hin. rewrite Forall_forall in Hx. specialize (Hx _ Hin). lia.
Qed.

Lemma settled_le (db : lnodes) : (nb_settled db <= length db)%nat.
Proof. apply length_filter. Qed.
Lemma settled_lt (db : lnodes) p n : (p, n) ∈ db -> m_current_state n = QUERYING -> (nb_settled db < length db)%nat.
Proof. intros Hin Hst. apply (length_filter_lt _ _ (p, n)); [done|]. cbn [snd]. rewrite Hst. by intros [|]. Qed.

Lemma rpcs_bounded evs ns (K : list kad_id) :
  ns_wf ns -> (0 < n_closest ns)%nat -> ns_events_ok evs ns -> (lnode_db ns).*1 ⊆ K ->
  Forall (fun ev => Forall (fun a => id_dist (peerid a) (target_id ns) ∈ K) (learned ev)) evs ->
  (nb_settled (lnode_db ns) + nb_rpcs evs <= length K)%nat.
Proof.
  revert ns. induction evs as [|ev evs IH]; intros ns Hwf Hn Hok HK Hl.
  { pose proof (settled_bound ns K Hwf HK). pose proof (settled_le (lnode_db ns)). unfold nb_rpcs. cbn. lia. }
  destruct Hok as [Hev Hevs]. destruct (ns_step_ok ev ns Hwf Hn Hev) as (alive & ns1 & outs1 & E & [Hwf1 Hs1 _ _ _ _ _ Hset Hkeys _]).
  specialize (Hevs alive ns1 E). apply Forall_cons in Hl as [Hl Hls].
  assert (Ecount : nb_rpcs (ev :: evs) = ((if is_rpc ev then 1 else 0) + nb_rpcs evs)%nat).
  { unfold nb_rpcs. rewrite filter_cons. destruct (is_rpc ev); [by rewrite decide_True|by rewrite decide_False]. }
  rewrite Ecount. destruct alive.
  - specialize (Hset eq_refl). specialize (Hkeys eq_refl). destruct Hs1 as (Et & En & Eq).
    assert (Hrest : (nb_settled (lnode_db ns1) + nb_rpcs evs <= length K)%nat); [|lia].
    apply IH; [done|by rewrite En|done| |by rewrite Et].
    intros k Hk. destruct (Hkeys k Hk) as [|(a & Ha & ->)]; [by apply HK|]. rewrite Forall_forall in Hl. by apply Hl.
  - subst evs. pose proof (settled_bound ns K Hwf HK). cbn [nb_rpcs filter length]. change (nb_rpcs []) with 0%nat.
    destruct ev as [env [p e|]]; cbn [is_rpc snd].
    + destruct Hev as (_ & (n & Hin & Hst) & _). pose proof (settled_lt _ p n Hin Hst). lia.
    + pose proof (settled_le (lnode_db ns)). lia.
Qed.
End steps.

(* ------------------------------------------------------------------ *)
(** * Lemmas: results, failed starts, hostile replies *)
(* ------------------------------------------------------------------ *)

Section results.
Context `{InetLib} (profile : kad_nsearch_profile_t).

Definition caddr_of (q : kad_id * lnode_t) : kad_caddr_t := (m_kad_addr q.2, m_cookie_id q.2).
Definition dist_to (target : kad_id) (a : kad_addr_t) : Z := be_value (id_dist (peerid a) target).

Lemma keys_sorted (l : lnodes) : id_sorted l -> StronglySorted (fun a b : kad_id * lnode_t => be_value a.1 < be_value b.1) l.
Proof.
  intros [Hs _]. induction l as [|q l IH]; [constructor|]. cbn [fmap list_fmap] in Hs. apply StronglySorted_inv in Hs as [Hs Hq].
  constructor; [by apply IH|]. by apply (Forall_fmap fst (fun b => be_value q.1 < be_value b)) in Hq.
Qed.

Lemma live_sorted now ns : ns_wf ns -> StronglySorted (fun a b : kad_id * lnode_t => be_value a.1 < be_value b.1) (live profile now (lnode_db ns)).
Proof. intros Hwf. apply keys_sorted. eapply sorted_sub_keys; [apply sublist_filter|apply (wf_db ns Hwf)]. Qed.

Lemma wf_dist ns q : ns_wf ns -> q ∈ lnode_db ns -> be_value q.1 = dist_to (target_id ns) (m_kad_addr q.2).
Proof. intros Hwf Hq. destruct q as [k n]. destruct (wf_key ns k n Hwf Hq) as [_ (Hk & _)]. unfold dist_to. f_equal. exact Hk. Qed.

(** The nodes considered, among those known. *)
Lemma considered_spec now n ns :
  ns_wf ns ->
  let res := considered profile now n (lnode_db ns) in
  StronglySorted (fun a b => dist_to (target_id ns) a < dist_to (target_id ns) b) (fst <$> (caddr_of <$> res)) /\
  (length res <= n)%nat /\
  forall q, q ∈ lnode_db ns -> q ∈ res \/ offline profile now q.2 = true \/
    (length res = n /\ forall q', q' ∈ res -> be_value q'.1 < be_value q.1).
Proof.
  intros Hwf res. pose proof (live_sorted now ns Hwf) as Hs. split; [|split].
  - assert (Hs' : StronglySorted (fun a b : kad_id * lnode_t => be_value a.1 < be_value b.1) res).
    { subst res. unfold considered. rewrite <- (take_drop n) in Hs. by apply StronglySorted_app_1_l in Hs. }
    assert (Hin : Forall (fun q => q ∈ lnode_db ns) res).
    { apply Forall_forall. intros q Hq. by apply considered_sub in Hq as [? _]. }
    clear -Hs' Hin Hwf. induction Hs' as [|q l Hl IH Hq]; [constructor|]. apply Forall_cons in Hin as [Hqin Hin].
    cbn [fmap list_fmap caddr_of fst]. constructor; [by apply IH|]. rewrite Forall_forall in Hq. rewrite Forall_forall in Hin. apply Forall_forall.
    intros a (c & -> & Hc)%list_elem_of_fmap. apply list_elem_of_fmap in Hc as (q' & -> & Hq'). cbn [caddr_of fst].
    rewrite <- !wf_dist by auto. by apply Hq.
  - subst res. unfold considered. rewrite length_take. lia.
  - intros q Hq. destruct (offline profile now q.2) eqn:Eo; [by right; left|].
    assert (Hlive : q ∈ live profile now (lnode_db ns)) by (unfold live; by apply list_elem_of_filter).
    rewrite <- (take_drop n) in Hlive, Hs. apply elem_of_app in Hlive as [Hl|Hr]; [by left|right; right]. split.
    + subst res. unfold considered. rewrite length_take. apply list_elem_of_lookup in Hr as [i Hi]. apply lookup_lt_Some in Hi.
      rewrite length_drop in Hi. assert (Hi' : (i < length (live profile now (lnode_db ns)) - n)%nat) by exact Hi. lia.
    + intros q' Hq'. exact (StronglySorted_app_1_elem_of _ _ _ q' q Hs Hq' Hr).
Qed.

Lemma launch_fail env fuel ns :
  ordinary (ne_now env) -> (forall a, ne_start_ok env a = false) -> ns_wf ns -> ~ some_querying (lnode_db ns) ->
  forall ns', launch_one profile fuel env ns = Ok ns' -> ns_wf ns' /\ ~ some_querying (lnode_db ns').
Proof.
  intros Hnow Hf. revert ns. induction fuel as [|fuel IH]; intros ns Hwf Hq ns'; cbn [launch_one]; [done|].
  rewrite next_ok by done. cbn [mbind outcome_bind].
  destruct (filter _ (considered _ _ _ _)) as [|[p n] rest] eqn:E; cbn [head fmap option_fmap option_map fst]; [by intros [= <-]|].
  assert (Hin : (p, n) ∈ (p, n) :: rest) by (by left). rewrite <- E in Hin. apply list_elem_of_filter in Hin as [Hst Hin].
  apply considered_sub in Hin as [Hin _].
  destruct (lnode_start_spec profile env Hnow p n ns Hwf Hin Hst) as (ns1 & f & -> & Hl & Hdb & Hfst). rewrite Hf in Hfst |- *.
  cbn [mbind outcome_bind]. destruct Hl as (db & outs & -> & _ & _ & Hwf1). apply IH; [exact Hwf1|].
  cbn [lnode_db] in Hdb |- *. rewrite Hdb. intros Hex. apply Exists_exists in Hex as ([k m] & Hkm & Hm). cbn [snd] in Hm.
  apply upd_elem in Hkm as [[_ Hkm]|(-> & n0 & Hn0 & ->)].
  - apply Hq, Exists_exists. by exists (k, m).
  - rewrite (db_unique ns p n n0 Hwf Hin Hn0) in Hm. congruence.
Qed.

Lemma launch_all_fail env nb ns :
  ordinary (ne_now env) -> (forall a, ne_start_ok env a = false) -> ns_wf ns -> ~ some_querying (lnode_db ns) ->
  forall ns', launch_queries profile env nb ns = Ok ns' -> ~ some_querying (lnode_db ns').
Proof.
  intros Hnow Hf. revert ns. induction nb as [|nb IH]; intros ns Hwf Hq ns'; cbn [launch_queries]; [by intros [= <-]|].
  destruct (launch_one profile _ env ns) as [ns1| | |] eqn:E; [|done..]. cbn [mbind outcome_bind].
  destruct (launch_fail env _ ns Hnow Hf Hwf Hq ns1 E) as [Hwf1 Hq1]. by apply IH.
Qed.

(** No node is queried, has answered or can be queried: the search is complete. *)
Lemma exhausted_completed env ns :
  ordinary (ne_now env) -> ns_wf ns -> exhausted profile env ns -> ~ some_querying (lnode_db ns) ->
  nsearch_is_completed profile (ne_now env) ns = Ok true.
Proof.
  intros Hnow Hwf He Hq. destruct (completed_iff profile env Hnow ns Hwf) as [[Hc _]|[_ Hn]]; [done|]. exfalso. apply Hn.
  apply Forall_forall. intros q Hqin. pose proof Hqin as [Hin Hoff]%considered_sub. destruct (m_current_state q.2) eqn:E.
  - exfalso. assert (Hf : q ∈ filter (fun q => m_current_state q.2 = LNULL) (considered profile (ne_now env) (n_closest ns) (lnode_db ns)))
      by (by apply list_elem_of_filter). unfold exhausted in He. rewrite He in Hf. by apply not_elem_of_nil in Hf.
  - exfalso. apply Hq, Exists_exists. by exists q.
  - done.
  - exfalso. unfold offline in Hoff. by rewrite E in Hoff.
Qed.

Lemma merge_hostile pre a post ns :
  ns_wf ns -> Forall addr_ok pre -> kad_id_ok (peerid a) -> ipport_is_fully_qualified (oaddr a) = Ok false ->
  id_dist (peerid a) (target_id ns) ∉ (lnode_db ns).*1 -> peerid a ∉ peerid <$> pre ->
  merge_loop (pre ++ a :: post) ns = AssertFail.
Proof.
  intros Hwf Hpre Hp Hq Hnew Hnp. revert ns Hwf Hnew. induction Hpre as [|b pre Hb Hpre IH]; intros ns Hwf Hnew; cbn [app merge_loop].
  - rewrite lnode_present_spec, bool_decide_eq_false_2 by done. unfold lnode_ctor. by rewrite Hq.
  - cbn [fmap list_fmap] in Hnp. apply not_elem_of_cons in Hnp as [Hne Hnp].
    rewrite lnode_present_spec by (done || apply Hb). case_bool_decide as Hin; [by apply IH|].
    destruct (lnode_ctor_spec b ns Hwf Hb Hin) as (db & -> & Hdb & Hwf1). cbn [mbind outcome_bind]. apply IH; [done|exact Hwf1|].
    cbn [set_lnode_db lnode_db target_id]. rewrite Hdb. cbn [fmap list_fmap fresh_entry fst]. apply not_elem_of_cons. split; [|done].
    intros Heq. apply Hne. pose proof (wf_target ns Hwf) as Ht. destruct Hb as [Hbp _].
    rewrite !(id_dist_comm _ (target_id ns)) in Heq by done. by apply (id_dist_inj (target_id ns)) in Heq.
Qed.
End results.

(* ------------------------------------------------------------------ *)
(** * The start of a search *)
(* ------------------------------------------------------------------ *)

(** What a search relies on of the routing table, for the tables in [T]. *)
Class NearTable `{InetLib} (T : kbucket_t -> Prop) : Prop := {
  near_notify k t : T k -> kad_id_ok t -> exists k', kbucket_notify_nsearch t k = Ok k' /\ T k';
  near_nclosest k t n : T k -> kad_id_ok t -> exists l, get_nclosest_addr t n None k = Ok l /\ Forall addr_ok l
}.

Section start.
Context `{InetLib} (profile : kad_nsearch_profile_t) (T : kbucket_t -> Prop) {HT : NearTable T}.

Definition new_search (target : kad_id) (n max_rec : nat) (qt : query_type_t) : nsearch_t :=
  set_query target n max_rec qt nsearch_ctor.

Lemma new_search_wf target n max_rec qt : kad_id_ok target -> qt <> QNULL -> ns_wf (new_search target n max_rec qt).
Proof. intros Ht Hq. split; [done|done|split; constructor|constructor| |done]. left. by vm_compute. Qed.

(** The nodes a search starts from. *)
Definition init_addrs (target : kad_id) (n : nat) (base : list kad_addr_t) (k : kbucket_t) : outcome (list kad_addr_t) :=
  match base with [] => get_nclosest_addr target n None k | _ => Ok base end.

Lemma fresh_live now added target :
  Forall (fun q => exists a : kad_addr_t, q = fresh_entry target a) added -> live profile now added = added.
Proof.
  unfold live. induction 1 as [|q l (a & ->) Hl IH]; [done|]. rewrite filter_cons, decide_True by done. by rewrite IH.
Qed.

Lemma post_start_ok env target n max_rec qt delay base k :
  ordinary (ne_now env) -> delay_ok delay -> kad_id_ok target -> qt <> QNULL -> T k -> Forall addr_ok base ->
  exists ns k1 init, post_start profile env delay base (new_search target n max_rec qt) k = Ok (ns, k1) /\
    T k1 /\ init_addrs target n base k1 = Ok init /\ Forall addr_ok init /\
    ns_wf ns /\ same_query (new_search target n max_rec qt) ns /\ to_callback (ns_timeout ns) = true /\
    Forall is_start (ns_out ns) /\
    (forall id, id ∈ (lnode_db ns).*1 <-> exists a, a ∈ init /\ id = id_dist (peerid a) target) /\
    ((0 < nb_concurrent_req profile)%nat -> (0 < n)%nat -> init <> [] -> all_start env -> some_querying (lnode_db ns)) /\
    ((0 < nb_concurrent_req profile)%nat -> exhausted profile env ns \/ some_querying (lnode_db ns)) /\
    ((forall a, ne_start_ok env a = false) -> ~ some_querying (lnode_db ns)) /\
    timeout_start (ne_now env) delay timeout_ctor = Ok (ns_timeout ns).
Proof using HT.
  intros Hnow Hd Ht Hq Hk Hbase. set (ns0 := new_search target n max_rec qt).
  pose proof (new_search_wf target n max_rec qt Ht Hq) as Hwf0. fold ns0 in Hwf0.
  destruct (near_notify k target Hk Ht) as (k1 & Ek & Hk1).
  assert (exists init, init_addrs target n base k1 = Ok init /\ Forall addr_ok init) as (init & Ei & Hinit).
  { unfold init_addrs. destruct base; [by apply near_nclosest|by eexists]. }
  destruct (merge_addr_arr_spec profile (ne_now env) init ns0 Hnow Hwf0 Hinit) as (db & added & Em & Hwf1 & Hdb & Hadd & Hall).
  change (lnode_db ns0) with ([] : lnodes) in Hdb. rewrite app_nil_r in Hdb.
  destruct (start_ok (ne_now env) delay timeout_ctor Hnow Hd) as (t & Et & Hcb & _). pose proof (start_period _ _ _ _ Hnow Hd Et) as Hper.
  assert (Hwf2 : ns_wf (set_ns_timeout t (set_lnode_db db ns0))).
  { destruct Hwf1. split; try done. intros _. cbn. by rewrite Hper. }
  destruct (launch_queries_spec profile env Hnow (nb_concurrent_req profile) _ Hwf2) as (ns & El & Hl & Hend).
  exists ns, k1, init. split.
  { unfold post_start. change (query_type ns0) with qt. destruct qt; [done| |]; cbn [dbg_assert]; change (target_id ns0) with target;
      change (n_closest ns0) with n; rewrite Ek; cbn [mbind outcome_bind]; unfold init_addrs in Ei; rewrite Ei; cbn [mbind outcome_bind];
      rewrite Em; cbn [mbind outcome_bind]; change (ns_timeout (set_lnode_db db ns0)) with timeout_ctor; rewrite Et; cbn [mbind outcome_bind];
      rewrite El; done. }
  assert (Hfail : (forall a, ne_start_ok env a = false) -> ~ some_querying (lnode_db ns)).
  { intros Hf. apply (launch_all_fail profile env (nb_concurrent_req profile) _ Hnow Hf Hwf2); [|exact El].
    cbn [set_ns_timeout set_lnode_db lnode_db]. intros (q & Hqin & Hst)%Exists_exists. rewrite Hdb in Hqin.
    rewrite Forall_forall in Hadd. by destruct (Hadd q Hqin) as (a & _ & ->). }
  pose proof (launched_keys _ _ Hl) as Hkeys. pose proof Hl as (db' & outs & -> & Hev & Hst & Hwf3). cbn [lnode_db set_ns_timeout set_lnode_db] in *.
  do 4 (split; [done|]). split; [done|]. split; [done|]. split; [done|]. split; [|split; [|split; [|split; [exact Hfail|exact Et]]]].
  - intros id. rewrite Hkeys. split.
    + intros (q & -> & Hqin)%list_elem_of_fmap. rewrite Hdb in Hqin. rewrite Forall_forall in Hadd. destruct (Hadd q Hqin) as (a & Ha & ->). by exists a.
    + intros (a & Ha & ->). rewrite Forall_forall in Hall. by apply Hall.
  - intros Ha Hn Hne Hs. destruct (Hend Ha) as [_ Hend']. destruct (Hend' Hs) as [He|]; [|done]. exfalso.
    assert (Hfresh : Forall (fun q => exists a : kad_addr_t, q = fresh_entry target a) db).
    { rewrite Hdb. eapply Forall_impl; [exact Hadd|]. intros q (a & _ & ->). by exists a. }
    unfold exhausted, considered in He. cbn [lnode_db n_closest set_ns_timeout set_lnode_db] in He. rewrite (fresh_live _ db target Hfresh) in He.
    destruct db as [|q db]; [|].
    + destruct init as [|a init]; [done|]. apply Forall_cons in Hall as [Hin _]. by apply not_elem_of_nil in Hin.
    + apply Forall_cons in Hfresh as [(a & ->) _]. change (n_closest ns0) with n in He. destruct n as [|n']; [lia|]. done.
  - intros Ha. destruct (Hend Ha) as [[He|] _]; [|by right]. by left.
Qed.
End start.
