(* ===== verification/KadSearch.v ===== *)
(** What the node search promises: its theorems, against any routing table that
    gives what it relies on ([NearTable]), and the tables that messages build,
    which do. *)
From S2P Require Import Prelude Omap Text Time Timeout GenId Cookie InetAddr ItemArr KadAddr Kbucket KbucketRep KbucketNear KadRec KadEvent Nsearch.

(* ------------------------------------------------------------------ *)
(** * The tables built by messages *)
(* ------------------------------------------------------------------ *)

Section built.
Context `{InetLib} (profile : kad_kbucket_profile_t) (P : kad_addr_t -> Prop).
Implicit Types (S : list (list bucknode_t)) (n : bucknode_t).

(** The addresses of a node, its own and the pending one, satisfy [P]. *)
Definition checked_node n : Prop :=
  P (bn_addr n) /\ forall a, pending_node n = Some a -> P a.
Definition checked S : Prop := Forall (Forall checked_node) S.

Lemma Forall_kept {A} (R Q : A -> Prop) `{!forall x, Decision (Q x)} (l : list A) : Forall R l -> Forall R (filter Q l).
Proof using. rewrite !Forall_forall. intros Hl x [_ Hx]%list_elem_of_filter. by apply Hl. Qed.

Definition table_of (k : kbucket_t) : Prop :=
  exists local width height st, k_rep local width height st k /\ checked st.1.

Lemma checked_at local width p f S :
  (forall b, Forall checked_node b -> Forall checked_node (f b)) -> checked S -> checked (at_bucket local width p f S).
Proof.
  intros Hf HS. unfold checked, at_bucket in *. rewrite Forall_lookup in HS. apply Forall_lookup. intros i b.
  destruct (decide (bucket_of local width p = i)) as [->|Hne].
  - rewrite list_lookup_alter_eq. intros (b0 & Hb0 & ->)%fmap_Some. apply Hf, (HS _ _ Hb0).
  - rewrite list_lookup_alter_ne by done. apply HS.
Qed.

Lemma checked_seen height a ok b : P a -> Forall checked_node b -> Forall checked_node (bucket_seen height a ok b).
Proof.
  intros Ha Hb. unfold bucket_seen. assert (Hnew : checked_node (Bucknode a None)) by by split.
  destruct (decide _); [done|]. destruct (decide _); [apply Forall_app; split; by apply Forall_kept|].
  destruct (decide _); [apply Forall_app; split; [done|by constructor]|]. destruct ok; [|done].
  repeat match goal with Hn : ~ _ |- _ => clear Hn end. induction Hb as [|m b [Hn Hp] Hb IH]; cbn [ping_first]; [constructor|].
  destruct (ping_in_progress m); constructor; [by split|exact IH| |exact Hb]. split; [done|]. by intros a' [= <-].
Qed.

Lemma checked_answered p b : Forall checked_node b -> Forall checked_node (bucket_answered p b).
Proof.
  intros Hb. unfold bucket_answered. apply Forall_app. split; [by apply Forall_kept|]. apply Forall_fmap.
  eapply Forall_impl; [by apply Forall_kept|]. intros n [Hn _]. by split.
Qed.

Lemma checked_evicted p b : Forall checked_node b -> Forall checked_node (bucket_evicted p b).
Proof.
  intros Hb. unfold bucket_evicted. apply Forall_app. split; [by apply Forall_kept|]. apply Forall_fmap, Forall_forall.
  intros a (n & Hn & Ha)%pendings_elem. apply list_elem_of_filter in Hn as [_ Hn]. rewrite Forall_forall in Hb.
  destruct (Hb n Hn) as [_ Hp]. split; [by apply Hp|done].
Qed.

Lemma checked_delete_all local width td S : checked S -> checked (spec_delete_all local width td S).
Proof.
  revert S. induction td as [|p td IH]; intros S HS; [done|]. apply IH. apply (checked_at local width p); [|done].
  intros b Hb. by apply Forall_kept.
Qed.

Lemma checked_step local width height k e st :
  ev_ok k e -> (forall a ok, e = EvSrcKaddr a ok -> P a) -> checked st.1 -> checked (spec_step profile local width height e st).1.
Proof.
  destruct st as [S td]. intros He HP HS. destruct e as [a ok|p []|p t d| | | | | |]; cbn [spec_step fst] in *; try done.
  - apply checked_at; [|done]. intros b. apply checked_seen. by apply (HP a ok).
  - apply checked_at; [|done]. apply checked_evicted.
  - apply checked_at; [|done]. apply checked_answered.
  - by apply checked_delete_all.
Qed.

Lemma table_of_step k k' e :
  table_of k -> ev_ok k e -> (forall a ok, e = EvSrcKaddr a ok -> P a) -> kb_step profile e k = Ok k' -> table_of k'.
Proof.
  intros (l & w & h & st & Hrep & Hc) He HP E. destruct (kb_step_refines profile l w h st k e Hrep He) as (k1 & E1 & Hrep1).
  assert (k1 = k') as -> by congruence. exists l, w, h, (spec_step profile l w h e st). split; [done|]. by apply (checked_step l w h k).
Qed.

(** What such a table answers, for a filter that does not stop the program. *)
Lemma table_of_nclosest k t max flt :
  table_of k -> kad_id_ok t -> (forall a, P a -> kad_id_ok (peerid a)) ->
  (forall f a, flt = Some f -> P a -> exists b, f a = Ok b) ->
  exists l, get_nclosest_addr t max flt k = Ok l /\ Forall P l /\ (length l <= max)%nat.
Proof using.
  intros (l & w & h & st & (Hrep & _) & Hc) Ht HP Hf.
  set (drop_addr := fun a => match flt with Some f => match f a with Ok b => b | _ => false end | None => false end).
  assert (Hnode : forall n', n' ∈ concat st.1 -> P (bn_addr n')).
  { intros n' Hn'. apply concat_elem in Hn' as (j & b & Hb & Hn').
    unfold checked in Hc. rewrite Forall_lookup in Hc. specialize (Hc j b Hb). rewrite Forall_forall in Hc. exact (proj1 (Hc n' Hn')). }
  assert (Hflt : filter_drops flt drop_addr st.1).
  { intros n' Hn'. unfold drop_addr. destruct flt as [f|]; [|done]. by destruct (Hf f _ eq_refl (Hnode n' Hn')) as [b ->]. }
  destruct (get_nclosest_spec st.1 k flt drop_addr Hrep Hflt t max Ht) as (lo & hi & tmp & E & _ & [_ Hhi] & Hp & _).
  eexists. split; [exact E|]. assert (Htmp : Forall P tmp).
  { destruct (window_sub st.1 drop_addr lo hi Hhi) as (rest & Hrest). rewrite <- Hp in Hrest.
    assert (Hall : Forall P (kept drop_addr (concat st.1))) by (apply Forall_forall; intros x (_ & n' & Hn' & <-)%kept_elem; by apply Hnode).
    rewrite <- Hrest in Hall. by apply Forall_app in Hall as [? _]. }
  split; [|rewrite length_take; lia]. apply Forall_take.
  by rewrite (proj1 (sort_by_dist_spec t tmp Ht (Forall_impl _ _ _ Htmp HP))).
Qed.

(** The table a peer starts with. *)
Lemma table_of_ctor lview local ping_ok any k0 :
  kad_id_ok local -> 0 < profile_kbucket_width profile -> kad_id_nbit mod profile_kbucket_width profile = 0 ->
  is_any (ipaddr lview) = Ok any -> kad_addr_is_fully_qualified (local_addr lview any local) = Ok true ->
  kbucket_ctor profile lview local ping_ok = Ok k0 -> P (local_addr lview any local) -> table_of k0.
Proof using.
  intros Hl Hw Hdiv Hany Hq Hk0 HP.
  destruct (kbucket_ctor_rep profile lview local ping_ok any Hl Hw Hdiv Hany Hq) as (k0' & Hk0' & Hr0).
  assert (k0' = k0) as -> by congruence. eexists _, _, _, _. split; [exact Hr0|]. unfold spec_init. cbn [fst]. apply checked_at.
  - intros b. by apply checked_seen.
  - apply Forall_replicate. constructor.
Qed.
End built.

Definition search_table `{InetLib} : kbucket_t -> Prop := table_of addr_ok.
Lemma search_table_step `{InetLib} profile k k' e : search_table k -> ev_ok k e -> kb_step profile e k = Ok k' -> search_table k'.
Proof. intros Hk He. apply table_of_step; [done|done|]. intros a ok ->. split; apply He. Qed.

(** Every table reached from the one a peer starts with. *)
Lemma built_search_table `{InetLib} profile lview local ping_ok any es k0 k :
  kad_id_ok local -> 0 < profile_kbucket_width profile -> kad_id_nbit mod profile_kbucket_width profile = 0 ->
  is_any (ipaddr lview) = Ok any -> kad_addr_is_fully_qualified (local_addr lview any local) = Ok true ->
  kbucket_ctor profile lview local ping_ok = Ok k0 -> events_ok profile es k0 -> kb_run profile es k0 = Ok k ->
  search_table k.
Proof.
  intros Hl Hw Hdiv Hany Hq Hk0 Hes Hk.
  assert (H0 : search_table k0) by (apply (table_of_ctor profile addr_ok lview local ping_ok any); try done; by split).
  clear Hk0. revert k0 H0 Hes Hk. induction es as [|e es IH]; intros k0 H0; cbn [events_ok kb_run].
  - by intros _ [= <-].
  - intros [He Hes]. destruct (kb_step profile e k0) as [k1| | |] eqn:E1; [|done..]. cbn [mbind outcome_bind].
    apply IH; [by eapply search_table_step|by apply Hes].
Qed.

#[export] Instance search_table_near `{InetLib} : NearTable search_table.
Proof.
  split.
  - intros k t Hk Ht. pose proof Hk as (l & w & h & st & Hrep & Hc). set (pr := KbucketProfile 0 0 0).
    destruct (kb_step_refines pr l w h st k (EvNsearch t) Hrep Ht) as (k' & E & _). exists k'. split; [exact E|].
    exact (search_table_step pr k k' (EvNsearch t) Hk Ht E).
  - intros k t n Hk Ht. destruct (table_of_nclosest addr_ok k t n None Hk Ht) as (l & E & Hl & _); [|done|by exists l]. by intros a [? _].
Qed.

(* ------------------------------------------------------------------ *)
(** * Theorems *)
(* ------------------------------------------------------------------ *)

(** A node [p], once its answer [e] is read. *)
Definition reply_state (e : kad_event_t) : lnode_state_t := if is_fatal e then FAILED else SUCCEED.

Section results.
Context `{InetLib} (profile : kad_nsearch_profile_t).

(** The nodes known, once the answer is read. *)
Lemma reply_known env p e ns :
  ns_wf ns -> query_type ns = FINDNODE_REQUEST -> ns_ev_ok (env, EvRpc p e) ns ->
  exists ns1, rpc_reply profile env p e ns = Ok (true, ns1) /\ ns_wf ns1 /\ same_query ns ns1 /\ ns_out ns1 = ns_out ns /\
    (forall q, q ∈ lnode_db ns -> q.1 <> p -> q ∈ lnode_db ns1) /\
    (exists n, (p, n) ∈ lnode_db ns1 /\ m_current_state n = reply_state e) /\
    Forall (fun a => id_dist (peerid a) (target_id ns) ∈ (lnode_db ns1).*1) (learned (env, EvRpc p e)).
Proof.
  intros Hwf Hq (Hnow & (n & Hin & Hst) & He). destruct (wf_key ns p n Hwf Hin) as [Hp _].
  assert (Hfatal : is_fatal e = true -> learned (env, EvRpc p e) = [] ->
    exists ns1, rpc_reply profile env p e ns = Ok (true, ns1) /\ ns_wf ns1 /\ same_query ns ns1 /\ ns_out ns1 = ns_out ns /\
    (forall q, q ∈ lnode_db ns -> q.1 <> p -> q ∈ lnode_db ns1) /\
    (exists n, (p, n) ∈ lnode_db ns1 /\ m_current_state n = reply_state e) /\
    Forall (fun a => id_dist (peerid a) (target_id ns) ∈ (lnode_db ns1).*1) (learned (env, EvRpc p e))).
  { intros Hf Hl. rewrite Hl. unfold reply_state. rewrite Hf. rewrite (reply_fatal profile env p n e ns) by done. eexists. split; [done|].
    destruct (settle_wf p n FAILED ns Hwf Hin (or_intror eq_refl)) as [_ Hwf1]. rewrite (lnode_update_spec p _ ns) in * by done.
    split; [exact Hwf1|]. split; [done|]. split; [done|]. cbn [set_lnode_db lnode_db]. split; [|split; [|constructor]].
    - intros [k m] Hk Hne. apply upd_elem. by left.
    - eexists. split; [apply upd_elem; right; split; [done|]; by exists n|done]. }
  rewrite Hq in He. destruct e as [| | | | | |rs more|arr c|]; try done; try by apply Hfatal. clear Hfatal.
  destruct (reply_addrs profile env Hnow p n arr c ns Hwf Hin Hst He) as (db & added & useless & -> & Hwf1 & Hdb & _ & Hall).
  eexists. split; [done|]. split; [exact Hwf1|]. split; [done|]. split; [done|]. cbn [set_candidate set_useless set_lnode_db lnode_db].
  split; [|split; [|exact Hall]].
  - intros [k m] Hk Hne. rewrite Hdb. apply elem_of_app. right. apply upd_elem. by left.
  - exists (answered c n). split; [|done]. rewrite Hdb. apply elem_of_app. right. apply upd_elem. right. split; [done|]. by exists n.
Qed.

(** What a search that completes gives. *)
Definition closest_of (now : Z) (target : kad_id) (n : nat) (db : lnodes) (res : list kad_caddr_t) : Prop :=
  (length res <= n)%nat /\
  StronglySorted (fun a b => dist_to target a < dist_to target b) res.*1 /\
  (forall c, c ∈ res -> exists k nd, (k, nd) ∈ db /\ c = (m_kad_addr nd, m_cookie_id nd) /\ m_current_state nd = SUCCEED) /\
  (forall k nd, (k, nd) ∈ db -> (m_kad_addr nd, m_cookie_id nd) ∈ res \/ offline profile now nd = true \/
     (length res = n /\ forall c, c ∈ res -> dist_to target c.1 < dist_to target (m_kad_addr nd))).

Lemma completed_closest env ns :
  ns_wf ns -> all_succeed profile env ns ->
  closest_of (ne_now env) (target_id ns) (n_closest ns) (lnode_db ns)
    (caddr_of <$> considered profile (ne_now env) (n_closest ns) (lnode_db ns)).
Proof.
  intros Hwf Hall. destruct (considered_spec profile (ne_now env) (n_closest ns) ns Hwf) as (Hs & Hlen & Hrest).
  set (res := considered _ _ _ _) in *. split; [by rewrite length_fmap|]. split; [exact Hs|]. split.
  - intros c ([k nd] & -> & Hin)%list_elem_of_fmap. exists k, nd. pose proof Hin as [Hdb _]%considered_sub. split; [done|]. split; [done|].
    unfold all_succeed in Hall. rewrite Forall_forall in Hall. apply (Hall _ Hin).
  - intros k nd Hin. destruct (Hrest _ Hin) as [Hr|[Ho|[Hr Hfar]]].
    + left. apply list_elem_of_fmap. by exists (k, nd).
    + by right; left.
    + right; right. split; [by rewrite length_fmap|]. intros c ([k' nd'] & -> & Hin')%list_elem_of_fmap.
      specialize (Hfar _ Hin'). apply considered_sub in Hin' as [Hin' _].
      rewrite (wf_dist ns (k, nd) Hwf Hin), (wf_dist ns (k', nd') Hwf Hin') in Hfar. exact Hfar.
Qed.
End results.

(** C8. A search never fails, whatever its caller, the peers and the clock do.
    Started on any routing table the peer can have, then given any sequence of
    answers of the requests in flight (errors, timeouts, checked addresses in
    any number, records if it searches some) and of its timer, the caller
    keeping it or deleting it each time it is told: no assertion fails, no
    deleted node is used, its nodes stay indexed by their distance to the
    target with a rpc exactly while one is queried, the caller is only told the
    events its own assertions accept ([kad_closestnode_t], [kad_query_some_t]),
    and the search is only deleted by a caller that was told. *)
Theorem nsearch_safe `{InetLib} (T : kbucket_t -> Prop) {HT : NearTable T} profile env target n max_rec qt delay base k evs
    (Hnow : ordinary (ne_now env)) (Hd : delay_ok delay) (Ht : kad_id_ok target) (Hq : qt <> QNULL) (Hn : (0 < n)%nat)
    (Hk : T k) (Hbase : Forall addr_ok base) :
  exists ns k1, post_start profile env delay base (new_search target n max_rec qt) k = Ok (ns, k1) /\ T k1 /\
    Forall is_start (ns_out ns) /\
    (ns_events_ok profile evs ns ->
     exists alive ns', ns_run profile evs ns = Ok (alive, ns') /\ ns_wf ns' /\ same_query ns ns' /\
       Forall (notify_ok qt) (ns_out ns') /\ (alive = false -> told (ns_out ns'))).
Proof.
  destruct (post_start_ok profile T env target n max_rec qt delay base k Hnow Hd Ht Hq Hk Hbase)
    as (ns & k1 & init & E & Hk1 & _ & _ & Hwf & Hs & _ & Hst & _).
  exists ns, k1. split; [done|]. split; [done|]. split; [done|]. intros Hev.
  assert (Hn' : (0 < n_closest ns)%nat) by (destruct Hs as (_ & -> & _); done).
  destruct (ns_run_ok profile evs ns Hwf Hn' Hev) as (alive & ns' & outs & -> & Hwf' & Hs' & Eo & Hno & Htold & _).
  exists alive, ns'. split; [done|]. split; [done|]. split; [done|]. rewrite Eo.
  assert (Eq : query_type ns = qt) by (destruct Hs as (_ & _ & ->); done). rewrite Eq in Hno. split.
  - apply Forall_app. split; [by apply start_notify_ok|done].
  - intros Ha. destruct (Htold Ha) as [e He]. exists e. apply elem_of_app. by right.
Qed.


(** C11. A search that starts from some node never stalls: as long as requests
    can be started, after any number of answers a request is in flight, whose
    answer or timeout will come, or the caller has been told. *)
Theorem nsearch_never_stalls `{InetLib} (T : kbucket_t -> Prop) {HT : NearTable T} profile env target n max_rec qt delay base k
    k1 init ns evs alive ns'
    (Hnow : ordinary (ne_now env)) (Hd : delay_ok delay) (Ht : kad_id_ok target) (Hq : qt <> QNULL) (Hn : (0 < n)%nat)
    (Ha : (0 < nb_concurrent_req profile)%nat) (Hk : T k) (Hbase : Forall addr_ok base)
    (Hstart : post_start profile env delay base (new_search target n max_rec qt) k = Ok (ns, k1))
    (Hinit : init_addrs target n base k1 = Ok init) (Hne : init <> [])
    (Hs : all_start env) (Hss : Forall (fun ev => all_start ev.1) evs)
    (Hevs : ns_events_ok profile evs ns) (Hrun : ns_run profile evs ns = Ok (alive, ns')) :
  some_querying (lnode_db ns') \/ told (ns_out ns').
Proof.
  destruct (post_start_ok profile T env target n max_rec qt delay base k Hnow Hd Ht Hq Hk Hbase)
    as (ns0 & k0 & init0 & E & _ & Ei & _ & Hwf & Hsame & _ & _ & _ & Hgo & _).
  rewrite Hstart in E. injection E as <- <-. rewrite Hinit in Ei. injection Ei as <-.
  assert (Hn' : (0 < n_closest ns)%nat) by (destruct Hsame as (_ & -> & _); done).
  destruct (ns_run_ok profile evs ns Hwf Hn' Hevs) as (alive' & ns1 & outs & E & _ & _ & Eo & _ & _ & Hp).
  rewrite Hrun in E. injection E as <- <-. destruct (Hp Ha Hss (Hgo Ha Hn Hne Hs)) as [|[e He]]; [by left|right].
  exists e. rewrite Eo. apply elem_of_app. by right.
Qed.

(** C10. A search ends: it sends at most one request to each peer it hears of,
    so that if the peers it starts from and learns of are among [U], it handles
    at most [length U] answers, whatever their order and the timers. *)
Theorem nsearch_terminates `{InetLib} (T : kbucket_t -> Prop) {HT : NearTable T} profile env target n max_rec qt delay base k
    k1 init ns evs (U : list kad_id)
    (Hnow : ordinary (ne_now env)) (Hd : delay_ok delay) (Ht : kad_id_ok target) (Hq : qt <> QNULL) (Hn : (0 < n)%nat)
    (Hk : T k) (Hbase : Forall addr_ok base)
    (Hstart : post_start profile env delay base (new_search target n max_rec qt) k = Ok (ns, k1))
    (Hinit : init_addrs target n base k1 = Ok init) (HinitU : Forall (fun a => peerid a ∈ U) init)
    (Hevs : ns_events_ok profile evs ns)
    (HU : Forall (fun ev => Forall (fun a => peerid a ∈ U) (learned ev)) evs) :
  (nb_rpcs evs <= length U)%nat.
Proof.
  destruct (post_start_ok profile T env target n max_rec qt delay base k Hnow Hd Ht Hq Hk Hbase)
    as (ns0 & k0 & init0 & E & _ & Ei & _ & Hwf & (Et & En & _) & _ & _ & Hkeys & _).
  rewrite Hstart in E. injection E as <- <-. rewrite Hinit in Ei. injection Ei as <-.
  assert (HK : forall a, peerid a ∈ U -> id_dist (peerid a) target ∈ (fun p => id_dist p target) <$> U).
  { intros a Hin. apply list_elem_of_fmap. by exists (peerid a). }
  pose proof (rpcs_bounded profile evs ns ((fun p => id_dist p target) <$> U) Hwf) as Hb. rewrite length_fmap in Hb.
  assert (Hle : (nb_settled (lnode_db ns) + nb_rpcs evs <= length U)%nat); [|lia]. apply Hb; [by rewrite En|done| |].
  - intros id (a & Ha & ->)%Hkeys. rewrite Forall_forall in HinitU. by apply HK, HinitU.
  - change (target_id (new_search target n max_rec qt)) with target in Et. rewrite Et.
    eapply Forall_impl; [exact HU|]. intros ev Hev. eapply Forall_impl; [exact Hev|]. exact HK.
Qed.

(** The start of a search never looks at whether it is complete.  When no
    request can be started, its caller is not told and no request is in flight,
    and yet the search is complete: only a timer is left to end it, which the
    commands do not give it ([delay_t::NEVER]: they rely on their own). *)
Theorem nsearch_stuck_at_start `{InetLib} (T : kbucket_t -> Prop) {HT : NearTable T} profile env target n max_rec qt delay base k
    (Hnow : ordinary (ne_now env)) (Hd : delay_ok delay) (Ht : kad_id_ok target) (Hq : qt <> QNULL)
    (Ha : (0 < nb_concurrent_req profile)%nat) (Hk : T k) (Hbase : Forall addr_ok base)
    (Hf : forall a, ne_start_ok env a = false) :
  exists ns k1, post_start profile env delay base (new_search target n max_rec qt) k = Ok (ns, k1) /\
    ~ told (ns_out ns) /\ ~ some_querying (lnode_db ns) /\ nsearch_is_completed profile (ne_now env) ns = Ok true.
Proof.
  destruct (post_start_ok profile T env target n max_rec qt delay base k Hnow Hd Ht Hq Hk Hbase)
    as (ns & k1 & init & E & _ & _ & _ & Hwf & _ & _ & Hst & _ & _ & Hend & Hnq & _).
  exists ns, k1. split; [done|]. specialize (Hnq Hf). split; [|split; [done|]].
  - intros [e He]. rewrite Forall_forall in Hst. by apply (Hst _ He).
  - apply (exhausted_completed profile env); [done|done| |done]. by destruct (Hend Ha).
Qed.

(** A hostile answer stops the program: an address without a usable address
    or port, of a peer that was not known, fails an assertion of the node it is
    made into, whatever the addresses before and after it. *)
Theorem nsearch_hostile_reply `{InetLib} profile env p n pre a post c ns
    (Hnow : ordinary (ne_now env)) (Hwf : ns_wf ns) (Hin : (p, n) ∈ lnode_db ns) (Hst : m_current_state n = QUERYING)
    (Hpre : Forall addr_ok pre) (Ha : kad_id_ok (peerid a)) (Hbad : ipport_is_fully_qualified (oaddr a) = Ok false)
    (Hnew : id_dist (peerid a) (target_id ns) ∉ (lnode_db ns).*1) (Hpre' : peerid a ∉ peerid <$> pre) :
  rpc_event_cb profile env p (KeAddrArr (pre ++ a :: post) c) ns = AssertFail.
Proof.
  destruct (wf_key ns p n Hwf Hin) as [Hp _]. unfold rpc_event_cb, rpc_reply. rewrite (lnode_at_spec ns p n) by done.
  cbn [mbind outcome_bind]. rewrite bool_decide_eq_true_2 by done. cbn [dbg_assert]. change (is_fatal _) with false. cbv iota.
  destruct (settle_wf p n SUCCEED ns Hwf Hin (or_introl eq_refl)) as [-> Hwf1].
  set (ns1 := lnode_update p _ ns) in *.
  assert (Hproc : process_replied_addr_arr profile (ne_now env) (pre ++ a :: post) (lnode_update p (set_cookie c) ns1) = AssertFail).
  { assert (Hwf2 : ns_wf (lnode_update p (set_cookie c) ns1)).
    { apply wf_update; [done|done|]. intros n' _ (Hk & Hn & Ht & Hr). split; [done|]. split; [done|]. by split. }
    unfold process_replied_addr_arr, merge_addr_arr. rewrite nclosest_distid_ok by done. cbn [mbind outcome_bind].
    rewrite merge_hostile; [done|done|done|done|done| |done].
    subst ns1. rewrite lnode_update_twice by done. rewrite (lnode_update_spec p _ ns) by done.
    cbn [set_lnode_db lnode_db target_id]. by rewrite upd_keys. }
  unfold handle_reply. change (query_type ns1) with (query_type ns). destruct (query_type ns) eqn:Eq; [by destruct (wf_query ns Hwf)| |].
  - unfold handle_findnode_reply. cbn [is_findnode_rpc_ok is_fatal is_cnx_err_ok is_cnx_closed is_cnx_refused is_timedout is_addr_arr orb negb dbg_assert get_addr_arr mbind outcome_bind].
    by rewrite Hproc.
  - unfold handle_findsomeval_reply. cbn [is_findsomeval_rpc_ok is_fatal is_cnx_err_ok is_cnx_closed is_cnx_refused is_timedout is_addr_arr is_recdups orb negb dbg_assert get_addr_arr mbind outcome_bind].
    by rewrite Hproc.
Qed.

(* ------------------------------------------------------------------ *)
(** * Witnesses *)
(* ------------------------------------------------------------------ *)

#[local] Existing Instances quad_lib quad_lib_laws.

Definition addr_okb `{InetLib} (a : kad_addr_t) : bool :=
  kad_id_okb (peerid a) && match kad_addr_is_fully_qualified a with Ok b => b | _ => false end.
Lemma addr_okb_ok `{InetLib} a : addr_okb a = true -> addr_ok a.
Proof.
  unfold addr_okb. intros [Hp Hq]%andb_true_iff. split; [by apply kad_id_okb_ok|].
  destruct (kad_addr_is_fully_qualified a) as [[]| | |]; done.
Qed.

(** A check that is enough for [ns_events_ok]. *)
Definition rpc_ev_okb `{InetLib} (qt : query_type_t) (e : kad_event_t) : bool :=
  match e with
  | KeCnxClosed | KeCnxRefused | KeTimedout => true
  | KeAddrArr arr _ => forallb addr_okb arr
  | KeRecdups _ _ => match qt with FINDSOMEVAL_REQUEST => true | _ => false end
  | _ => false
  end.
Definition ns_ev_okb `{InetLib} (ev : ns_env_t * ns_event) (ns : nsearch_t) : bool :=
  (0 <=? ne_now ev.1) && (ne_now ev.1 <? INFINITE_VAL / 2) &&
  match ev.2 with
  | EvTimeout => to_callback (ns_timeout ns)
  | EvRpc p e => existsb (fun q : kad_id * lnode_t => bool_decide (q.1 = p) && bool_decide (m_current_state q.2 = QUERYING)) (lnode_db ns)
                 && rpc_ev_okb (query_type ns) e
  end.
Fixpoint ns_events_okb `{InetLib} profile (evs : list (ns_env_t * ns_event)) (ns : nsearch_t) : bool :=
  match evs with
  | [] => true
  | ev :: evs' => ns_ev_okb ev ns &&
      match ns_step profile ev ns with
      | Ok (alive, ns') => if alive : bool then ns_events_okb profile evs' ns' else match evs' with [] => true | _ => false end
      | _ => true
      end
  end.

Lemma ns_ev_okb_ok `{InetLib} ev ns : ns_ev_okb ev ns = true -> ns_ev_ok ev ns.
Proof.
  unfold ns_ev_okb, ns_ev_ok. intros [[H1 H2]%andb_true_iff Hev]%andb_true_iff. apply Z.leb_le in H1. apply Z.ltb_lt in H2.
  split; [by split|]. destruct (ev.2) as [p e|]; [|done]. apply andb_true_iff in Hev as [Hex He]. split.
  - apply existsb_exists in Hex as ([k n] & Hin%list_elem_of_In & [Hk Hst]%andb_true_iff).
    apply bool_decide_eq_true in Hk. apply bool_decide_eq_true in Hst. cbn [fst snd] in *. subst k. by exists n.
  - destruct e as [| | | | | |rs more|arr c|]; try done; [by destruct (query_type ns)|]. cbn [rpc_ev_okb] in He. cbn [rpc_ev_ok].
    rewrite forallb_forall in He. apply Forall_forall. intros a Ha. by apply addr_okb_ok, He, list_elem_of_In.
Qed.

Lemma ns_events_okb_ok `{InetLib} profile evs ns : ns_events_okb profile evs ns = true -> ns_events_ok profile evs ns.
Proof.
  revert ns. induction evs as [|ev evs IH]; intros ns; cbn [ns_events_okb ns_events_ok]; [done|]. intros [He Hes]%andb_true_iff.
  split; [by apply ns_ev_okb_ok|]. intros alive ns' E. rewrite E in Hes. destruct alive; [by apply IH|]. by destruct evs.
Qed.

(** A search of the two closest to [ex_id 9], with two requests at a time: 1 and
    2 are known; 2 gives 3, 1 does not answer, 3 answers. *)
Definition ex_search_profile : kad_nsearch_profile_t := NsProfile 3000 10000 2 true.
Definition ex_env (now : Z) (keep : bool) : ns_env_t := NsEnv now (fun _ => true) keep.
Definition ex_target : kad_id := ex_id 9.
Definition ex_key (b : Z) : kad_id := id_dist (ex_id b) ex_target.
Definition ex_cookie (b : Z) : cookie_id_t := replicate 20 b.
Definition ex_search_events : list (ns_env_t * ns_event) :=
  [(ex_env 1010 true, EvRpc (ex_key 2) (KeAddrArr [ex_addr 3; ex_addr 1] (ex_cookie 2)));
   (ex_env 1020 true, EvRpc (ex_key 1) KeTimedout);
   (ex_env 1030 false, EvRpc (ex_key 3) (KeAddrArr [ex_addr 2] (ex_cookie 3)))].

Lemma ex_target_ok : kad_id_ok ex_target.
Proof. by apply kad_id_okb_ok. Qed.
Lemma ex_base_ok : Forall addr_ok [ex_addr 1; ex_addr 2].
Proof. constructor; [by apply addr_okb_ok|]. constructor; [by apply addr_okb_ok|constructor]. Qed.

Lemma ex_ctor_table : exists k0, kbucket_ctor ex_profile (Ipport (V4 0) 4000) (ex_id 0) true = Ok k0 /\ search_table k0.
Proof.
  destruct (kbucket_ctor ex_profile (Ipport (V4 0) 4000) (ex_id 0) true) as [k0| | |] eqn:Hk0; [|vm_compute in Hk0; discriminate..].
  exists k0. split; [done|].
  apply (built_search_table ex_profile (Ipport (V4 0) 4000) (ex_id 0) true true [] k0 k0); try done. apply ex_id_ok.
Qed.

(** The start of it. *)
Definition ex_started (envs : ns_env_t) (base : list kad_addr_t) : option nsearch_t :=
  match kbucket_ctor ex_profile (Ipport (V4 0) 4000) (ex_id 0) true with
  | Ok k0 =>
    match post_start ex_search_profile envs INFINITE_VAL base (new_search ex_target 2 0 FINDNODE_REQUEST) k0 with
    | Ok (ns, _) => Some ns | _ => None
    end
  | _ => None
  end.

Lemma ex_started_spec envs base ns k0 k1 :
  kbucket_ctor ex_profile (Ipport (V4 0) 4000) (ex_id 0) true = Ok k0 ->
  post_start ex_search_profile envs INFINITE_VAL base (new_search ex_target 2 0 FINDNODE_REQUEST) k0 = Ok (ns, k1) ->
  ex_started envs base = Some ns.
Proof. unfold ex_started. by intros -> ->. Qed.

Definition ex_outs : list ns_out_t :=
  [StartFindnode ex_target (ex_addr 1) 10000; StartFindnode ex_target (ex_addr 2) 10000;
   StartFindnode ex_target (ex_addr 3) 10000;
   NotifyCaller (KeCaddrArr [(ex_addr 3, ex_cookie 3); (ex_addr 2, ex_cookie 2)])].

Example ex_search_run :
  match ex_started (ex_env 1000 true) [ex_addr 1; ex_addr 2] with
  | Some ns => match ns_run ex_search_profile ex_search_events ns with
               | Ok (alive, ns') => (alive, ns_out ns', ns_events_okb ex_search_profile ex_search_events ns)
               | _ => (true, [], false) end
  | None => (true, [], false)
  end = (false, ex_outs, true).
Proof. vm_compute. reflexivity. Qed.

Lemma ex_ordinary now : (0 <=? now) && (now <? INFINITE_VAL / 2) = true -> ordinary now.
Proof. intros [H1 H2]%andb_true_iff. apply Z.leb_le in H1. apply Z.ltb_lt in H2. by split. Qed.
Lemma ex_never : delay_ok INFINITE_VAL.
Proof. by right. Qed.
Lemma ex_findnode : FINDNODE_REQUEST <> QNULL.
Proof. done. Qed.

Definition ex_base : list kad_addr_t := [ex_addr 1; ex_addr 2].
Lemma ex_start : exists k0 ns k1, search_table k0 /\
  post_start ex_search_profile (ex_env 1000 true) INFINITE_VAL ex_base (new_search ex_target 2 0 FINDNODE_REQUEST) k0 = Ok (ns, k1) /\
  ex_started (ex_env 1000 true) ex_base = Some ns /\ ns_wf ns /\
  ns_events_ok ex_search_profile ex_search_events ns.
Proof.
  destruct ex_ctor_table as (k0 & Ek & Hk0).
  destruct (post_start_ok ex_search_profile search_table (ex_env 1000 true) ex_target 2 0 FINDNODE_REQUEST INFINITE_VAL ex_base k0
    (ex_ordinary 1000 eq_refl) ex_never ex_target_ok ex_findnode Hk0 ex_base_ok) as (ns & k1 & init & E & _ & _ & _ & Hwf & _).
  exists k0, ns, k1. split; [done|]. split; [done|]. pose proof (ex_started_spec _ _ _ _ _ Ek E) as Es. split; [done|]. split; [done|].
  apply ns_events_okb_ok. pose proof ex_search_run as Hr. change [ex_addr 1; ex_addr 2] with ex_base in Hr. rewrite Es in Hr.
  destruct (ns_run _ _ _) as [[alive ns']| | |]; [|done..]. by injection Hr.
Qed.

(** The run of the example, from its start. *)
Lemma ex_run ns : ex_started (ex_env 1000 true) ex_base = Some ns ->
  exists ns', ns_run ex_search_profile ex_search_events ns = Ok (false, ns') /\ ns_out ns' = ex_outs.
Proof.
  intros Es. pose proof ex_search_run as Hr. change [ex_addr 1; ex_addr 2] with ex_base in Hr. rewrite Es in Hr.
  destruct (ns_run _ _ _) as [[alive ns']| | |]; [|done..]. injection Hr as -> Ho _. by exists ns'.
Qed.

Lemma nsearch_safe_witness :
  exists k0 ns k1 ns',
    post_start ex_search_profile (ex_env 1000 true) INFINITE_VAL ex_base (new_search ex_target 2 0 FINDNODE_REQUEST) k0 = Ok (ns, k1) /\
    ns_run ex_search_profile ex_search_events ns = Ok (false, ns') /\ ns_out ns' = ex_outs /\ told (ns_out ns').
Proof.
  destruct ex_start as (k0 & ns & k1 & Hk0 & E & Es & _ & Hev). exists k0, ns, k1.
  destruct (ex_run ns Es) as (ns' & Er & Ho). exists ns'. split; [exact E|]. split; [exact Er|]. split; [exact Ho|].
  pose proof (nsearch_safe search_table ex_search_profile (ex_env 1000 true) ex_target 2 0 FINDNODE_REQUEST INFINITE_VAL ex_base k0
    ex_search_events (ex_ordinary 1000 eq_refl) ex_never ex_target_ok ex_findnode (le_S 1 1 (le_n 1)) Hk0 ex_base_ok) as (ns2 & k2 & E2 & _ & _ & H).
  rewrite E in E2. injection E2 as <- <-. destruct (H Hev) as (alive & ns3 & Er3 & _ & _ & _ & Ht).
  rewrite Er in Er3. injection Er3 as <- <-. exact (Ht eq_refl).
Defined.

Lemma nsearch_never_stalls_witness :
  exists ns ns', ns_run ex_search_profile (take 1 ex_search_events) ns = Ok (true, ns') /\ some_querying (lnode_db ns').
Proof.
  destruct ex_start as (k0 & ns & k1 & Hk0 & E & Es & _ & Hev).
  assert (Hr : exists ns', ns_run ex_search_profile (take 1 ex_search_events) ns = Ok (true, ns') /\ ns_out ns' = take 3 ex_outs /\
    ns_events_ok ex_search_profile (take 1 ex_search_events) ns).
  { assert (Hb : match ex_started (ex_env 1000 true) ex_base with
      | Some ns => match ns_run ex_search_profile (take 1 ex_search_events) ns with
                   | Ok (alive, ns') => (alive, ns_out ns', ns_events_okb ex_search_profile (take 1 ex_search_events) ns)
                   | _ => (false, [], false) end
      | None => (false, [], false) end = (true, take 3 ex_outs, true)) by (vm_compute; reflexivity).
    rewrite Es in Hb. destruct (ns_run _ _ _) as [[alive ns']| | |]; [|discriminate..]. injection Hb as -> Ho Hb.
    exists ns'. split; [reflexivity|]. split; [exact Ho|]. by apply ns_events_okb_ok. }
  destruct Hr as (ns' & Er & Ho & Hev1). exists ns, ns'. split; [exact Er|].
  assert (Hne : ex_base <> []) by discriminate.
  assert (Hs : Forall (fun ev : ns_env_t * ns_event => all_start ev.1) (take 1 ex_search_events)).
  { constructor; [by intros a|constructor]. }
  destruct (nsearch_never_stalls search_table ex_search_profile (ex_env 1000 true) ex_target 2 0 FINDNODE_REQUEST INFINITE_VAL ex_base k0
    k1 ex_base ns (take 1 ex_search_events) true ns' (ex_ordinary 1000 eq_refl) ex_never ex_target_ok ex_findnode (le_S 1 1 (le_n 1))
    (le_S 1 1 (le_n 1)) Hk0 ex_base_ok E eq_refl Hne (fun a => eq_refl) Hs Hev1 Er) as [H|[e He]]; [exact H|].
  rewrite Ho in He. exfalso. cbn in He. rewrite !elem_of_cons in He. destruct He as [|[|[|He]]]; try discriminate. by apply not_elem_of_nil in He.
Defined.

Lemma nsearch_terminates_witness :
  nb_rpcs ex_search_events = 3%nat /\ (nb_rpcs ex_search_events <= length [ex_id 1; ex_id 2; ex_id 3])%nat.
Proof.
  split; [reflexivity|]. destruct ex_start as (k0 & ns & k1 & Hk0 & E & Es & _ & Hev).
  assert (Hi : Forall (fun a => peerid a ∈ [ex_id 1; ex_id 2; ex_id 3]) ex_base).
  { constructor; [|constructor; [|constructor]]; apply (bool_decide_unpack _); vm_compute; reflexivity. }
  assert (HU : Forall (fun ev : ns_env_t * ns_event => Forall (fun a => peerid a ∈ [ex_id 1; ex_id 2; ex_id 3]) (learned ev)) ex_search_events).
  { apply (bool_decide_unpack _). vm_compute. reflexivity. }
  exact (nsearch_terminates search_table ex_search_profile (ex_env 1000 true) ex_target 2 0 FINDNODE_REQUEST INFINITE_VAL ex_base k0
    k1 ex_base ns ex_search_events [ex_id 1; ex_id 2; ex_id 3] (ex_ordinary 1000 eq_refl) ex_never ex_target_ok ex_findnode
    (le_S 1 1 (le_n 1)) Hk0 ex_base_ok E eq_refl Hi Hev HU).
Defined.

Lemma nsearch_stuck_at_start_witness :
  exists k0 ns k1, post_start ex_search_profile (NsEnv 1000 (fun _ => false) true) INFINITE_VAL ex_base
      (new_search ex_target 2 0 FINDNODE_REQUEST) k0 = Ok (ns, k1) /\ ~ told (ns_out ns) /\
    nsearch_is_completed ex_search_profile 1000 ns = Ok true.
Proof.
  destruct ex_ctor_table as (k0 & Ek & Hk0).
  destruct (nsearch_stuck_at_start search_table ex_search_profile (NsEnv 1000 (fun _ => false) true) ex_target 2 0 FINDNODE_REQUEST
    INFINITE_VAL ex_base k0 (ex_ordinary 1000 eq_refl) ex_never ex_target_ok ex_findnode (le_S 1 1 (le_n 1)) Hk0 ex_base_ok
    (fun a => eq_refl)) as (ns & k1 & E & Ht & _ & Hc).
  exists k0, ns, k1. split; [exact E|]. split; [exact Ht|exact Hc].
Defined.

(** The state before the last answer. *)
Definition ex_last : ns_env_t * ns_event := (ex_env 1030 false, EvRpc (ex_key 3) (KeAddrArr [ex_addr 2] (ex_cookie 3))).
Lemma ex_before_last : exists ns n ns', ns_wf ns /\ n_closest ns = 2%nat /\ query_type ns = FINDNODE_REQUEST /\ target_id ns = ex_target /\
  ns_ev_ok ex_last ns /\ (lnode_db ns).*1 = [ex_key 1; ex_key 3; ex_key 2] /\ (ex_key 3, n) ∈ lnode_db ns /\ m_current_state n = QUERYING /\
  ns_step ex_search_profile ex_last ns = Ok (false, ns').
Proof.
  destruct ex_start as (k0 & ns0 & k1 & _ & _ & Es & Hwf & _). set (evs := take 2 ex_search_events).
  assert (Hb : match ex_started (ex_env 1000 true) ex_base with
      | Some ns => match ns_run ex_search_profile evs ns with
                   | Ok (alive, ns') => (ns_events_okb ex_search_profile evs ns, n_closest ns, ns_ev_okb ex_last ns', (lnode_db ns').*1,
                       (n_closest ns', query_type ns', target_id ns'),
                       match ns_step ex_search_profile ex_last ns' with Ok (b, _) => b | _ => true end)
                   | _ => (false, 0%nat, false, [], (0%nat, QNULL, []), true) end
      | None => (false, 0%nat, false, [], (0%nat, QNULL, []), true) end
    = (true, 2%nat, true, [ex_key 1; ex_key 3; ex_key 2], (2%nat, FINDNODE_REQUEST, ex_target), false)) by (vm_compute; reflexivity).
  rewrite Es in Hb. destruct (ns_run ex_search_profile evs ns0) as [[alive ns']| | |] eqn:Er; [|discriminate..].
  apply pair_equal_spec in Hb as [Hb Hlast]. apply pair_equal_spec in Hb as [Hb Hq]. apply pair_equal_spec in Hb as [Hb Hk].
  apply pair_equal_spec in Hb as [Hb Hev]. apply pair_equal_spec in Hb as [Hevs Hn]. injection Hq as Hn' Hq Ht.
  apply ns_events_okb_ok in Hevs. apply ns_ev_okb_ok in Hev.
  assert (Hn2 : (0 < n_closest ns0)%nat) by (rewrite Hn; lia).
  destruct (ns_run_ok ex_search_profile evs ns0 Hwf Hn2 Hevs) as (alive' & ns1 & outs & E1 & Hwf1 & _). rewrite Er in E1. injection E1 as <- <-.
  assert (Hn3 : (0 < n_closest ns')%nat) by (rewrite Hn'; lia).
  destruct (ns_step_ok ex_search_profile ex_last ns' Hwf1 Hn3 Hev) as (b & ns2 & outs2 & E2 & _). rewrite E2 in Hlast. subst b.
  pose proof Hev as (_ & (n & Hin & Hst) & _). exists ns', n, ns2. by repeat (split; [assumption|]).
Qed.


(** The same answer, with the address of a peer 4 that has no port. *)
Lemma nsearch_hostile_reply_witness :
  exists ns, rpc_event_cb ex_search_profile (ex_env 1030 false) (ex_key 3)
      (KeAddrArr [ex_addr 2; KadAddr (Ipport (V4 0x01020304) 0) (ex_id 4)] (ex_cookie 3)) ns = AssertFail.
Proof.
  destruct ex_before_last as (ns & n & ns' & Hwf & Hn & Hq & Ht & Hev & Hk & Hin & Hst & _). exists ns.
  assert (Hpre : Forall addr_ok [ex_addr 2]) by (pose proof ex_base_ok as Hb; by apply Forall_cons in Hb as [_ ?]).
  refine (nsearch_hostile_reply ex_search_profile (ex_env 1030 false) (ex_key 3) n [ex_addr 2] (KadAddr (Ipport (V4 0x01020304) 0) (ex_id 4))
    [] (ex_cookie 3) ns (ex_ordinary 1030 eq_refl) Hwf Hin Hst Hpre _ _ _ _).
  - by apply kad_id_okb_ok.
  - vm_compute. reflexivity.
  - rewrite Ht, Hk. apply (bool_decide_unpack _). vm_compute. reflexivity.
  - apply (bool_decide_unpack _). vm_compute. reflexivity.
Defined.
