(* ===== verification/KadCmd.v ===== *)
(** The commands of Kademlia (src/src/neoip_kad/cmd/): [kad_closestnode_t] and
    [kad_query_some_t], which only forward what a node search tells them, and
    [kad_store_t], [kad_delete_t] and [kad_query_t], which find the nodes closest
    to a key, send each of them a request, and tell their caller once all have
    answered or failed.

    The last three have the same fields and, but for the request they send and
    what [kad_query_t] does with records, the same code: one state with the kind
    of the command.  A rpc pointer is a number never used twice.  The requests
    sent and the events notified are [cmd_out]. *)
From stdpp Require Import gmap sorting.
From S2P Require Import Prelude Omap Text Time Timeout GenId Cookie InetAddr ItemArr KadAddr Kbucket KadRec KadDb KadEvent Nsearch KadSearch.

(* ------------------------------------------------------------------ *)
(** * The commands that forward *)
(* ------------------------------------------------------------------ *)

(** The callbacks of their search, up to the call of their own caller. *)
Definition closestnode_nsearch_cb (e : kad_event_t) : outcome kad_event_t := assert! is_nsearch_findnode_ok e in Ok e.
Definition query_some_nsearch_cb (e : kad_event_t) : outcome kad_event_t := assert! is_nsearch_findsomeval_ok e in Ok e.

Section forward.
Context `{InetLib} (profile : kad_nsearch_profile_t).

Definition closestnode_start (env : ns_env_t) (targetid : kad_id) (max_nb_node : nat) (expire_delay : Z)
    (base_addr_arr : list kad_addr_t) (k : kbucket_t) : outcome (nsearch_t * kbucket_t) :=
  start_findnode profile env targetid max_nb_node expire_delay base_addr_arr k.
Definition query_some_start (env : ns_env_t) (keyid : kad_id) (max_nb_record max_nb_node : nat) (expire_delay : Z)
    (base_addr_arr : list kad_addr_t) (k : kbucket_t) : outcome (nsearch_t * kbucket_t) :=
  start_findsomeval profile env keyid max_nb_record max_nb_node expire_delay base_addr_arr k.
End forward.

(* ------------------------------------------------------------------ *)
(** * State *)
(* ------------------------------------------------------------------ *)

(** What a command was started for; a [kad_delete_t] may have no callback. *)
Inductive cmd_kind_t :=
| KadStore (recs : kad_recdups_t)
| KadDelete (recid keyid : kad_id) (has_callback : bool)
| KadQuery (keyid : kad_id) (max_nb_record : Z).

Definition cmd_keyid (kd : cmd_kind_t) : kad_id :=
  match kd with KadStore rs => rd_keyid rs | KadDelete _ k _ => k | KadQuery k _ => k end.

Inductive cmd_out_t :=
| StartStoreRpc (recs : kad_recdups_t) (cookie_id : cookie_id_t) (a : kad_addr_t) (expire_delay : Z)
| StartDeleteRpc (recid : kad_id) (cookie_id : cookie_id_t) (a : kad_addr_t) (expire_delay : Z)
| StartFindallvalRpc (recid_gt keyid : kad_id) (keyid_ge : bool) (max_nb_record : Z) (a : kad_addr_t) (expire_delay : Z)
| NotifyCmd (e : kad_event_t).

Record kad_cmd_t := KadCmd {
  cmd_kind : cmd_kind_t;
  nb_queried_peer : nat;
  nb_unreach_peer : nat;
  result_recdups : kad_recdups_t;                  (* of kad_query_t *)
  cmd_timeout : timeout_t;
  cmd_closestnode : option nsearch_t;
  rpc_db : list (nat * kad_addr_t);                (* with the remote address *)
  next_rpc : nat;
  cmd_out : list cmd_out_t
}.

Definition cmd_ctor (kd : cmd_kind_t) : kad_cmd_t := KadCmd kd 0 0 recdups_null timeout_ctor None [] 0 [].

Definition set_queried (n : nat) (c : kad_cmd_t) : kad_cmd_t :=
  KadCmd (cmd_kind c) n (nb_unreach_peer c) (result_recdups c) (cmd_timeout c) (cmd_closestnode c) (rpc_db c) (next_rpc c) (cmd_out c).
Definition set_unreach (n : nat) (c : kad_cmd_t) : kad_cmd_t :=
  KadCmd (cmd_kind c) (nb_queried_peer c) n (result_recdups c) (cmd_timeout c) (cmd_closestnode c) (rpc_db c) (next_rpc c) (cmd_out c).
Definition set_result (d : kad_recdups_t) (c : kad_cmd_t) : kad_cmd_t :=
  KadCmd (cmd_kind c) (nb_queried_peer c) (nb_unreach_peer c) d (cmd_timeout c) (cmd_closestnode c) (rpc_db c) (next_rpc c) (cmd_out c).
Definition set_cmd_timeout (t : timeout_t) (c : kad_cmd_t) : kad_cmd_t :=
  KadCmd (cmd_kind c) (nb_queried_peer c) (nb_unreach_peer c) (result_recdups c) t (cmd_closestnode c) (rpc_db c) (next_rpc c) (cmd_out c).
Definition set_closestnode (ns : option nsearch_t) (c : kad_cmd_t) : kad_cmd_t :=
  KadCmd (cmd_kind c) (nb_queried_peer c) (nb_unreach_peer c) (result_recdups c) (cmd_timeout c) ns (rpc_db c) (next_rpc c) (cmd_out c).
Definition set_rpc_db (db : list (nat * kad_addr_t)) (c : kad_cmd_t) : kad_cmd_t :=
  KadCmd (cmd_kind c) (nb_queried_peer c) (nb_unreach_peer c) (result_recdups c) (cmd_timeout c) (cmd_closestnode c) db (next_rpc c) (cmd_out c).
Definition cmd_emit (o : cmd_out_t) (c : kad_cmd_t) : kad_cmd_t :=
  KadCmd (cmd_kind c) (nb_queried_peer c) (nb_unreach_peer c) (result_recdups c) (cmd_timeout c) (cmd_closestnode c) (rpc_db c)
    (next_rpc c) (cmd_out c ++ [o]).
(** A rpc is linked at the end of the list. *)
Definition rpc_push_back (a : kad_addr_t) (c : kad_cmd_t) : kad_cmd_t :=
  KadCmd (cmd_kind c) (nb_queried_peer c) (nb_unreach_peer c) (result_recdups c) (cmd_timeout c) (cmd_closestnode c)
    (rpc_db c ++ [(next_rpc c, a)]) (S (next_rpc c)) (cmd_out c).

(** The environment of a search, for the command: [ne_tokeep] is whether its own
    caller keeps it; [ce_ratio] the multiplication of [a_bit_less]. *)
Record cmd_env_t := CmdEnv { ce_ns : ns_env_t; ce_ratio : Z -> outcome Z }.
Definition ce_now (env : cmd_env_t) : Z := ne_now (ce_ns env).

Section cmd.
Context `{InetLib} (ns_profile : kad_nsearch_profile_t) (nb_replication : nat).

(* ------------------------------------------------------------------ *)
(** * Notification *)
(* ------------------------------------------------------------------ *)

Definition cmd_dtor (c : kad_cmd_t) : outcome kad_cmd_t :=
  let c1 := set_rpc_db [] c in
  match cmd_closestnode c1 with
  | None => Ok c1
  | Some ns => let* _ := nsearch_dtor ns in Ok (set_closestnode None c1)
  end.

(** The boolean is false when the command is deleted. *)
Definition cmd_notify_callback (env : cmd_env_t) (e : kad_event_t) (c : kad_cmd_t) : outcome (bool * kad_cmd_t) :=
  match cmd_kind c with
  | KadDelete _ _ false => let* c1 := cmd_dtor c in Ok (false, c1)
  | _ =>
    let c1 := cmd_emit (NotifyCmd e) c in
    if ne_tokeep (ce_ns env) then Ok (true, c1) else let* c2 := cmd_dtor c1 in Ok (false, c2)
  end.

(** The timer [expire_timeout]. *)
Definition cmd_timeout_cb (env : cmd_env_t) (c : kad_cmd_t) : outcome (bool * kad_cmd_t) :=
  let* (tokeep, c1) := cmd_notify_callback env KeTimedout c in
  if (tokeep : bool) then
    let* t := cpp_expired_cb (ce_now env) (fun t => Ok (Some t)) (cmd_timeout c1) in
    match t with Some t' => Ok (true, set_cmd_timeout t' c1) | None => AssertFail end
  else Ok (false, c1).

(* ------------------------------------------------------------------ *)
(** * The requests *)
(* ------------------------------------------------------------------ *)

(** [expire_timeout.get_expire_delay().a_bit_less()], with its default of one second. *)
Definition rpc_delay (env : cmd_env_t) (c : kad_cmd_t) : outcome Z :=
  let* d := get_expire_delay (ce_now env) (cmd_timeout c) in a_bit_less (ce_ratio env) 1000 d.

(** [kad_client_rpc_t::start] asserts the address. *)
Definition start_rpc (env : cmd_env_t) (request : Z -> cmd_out_t) (a : kad_addr_t) (c : kad_cmd_t) : outcome kad_cmd_t :=
  let* expire_delay := rpc_delay env c in
  let* q := ipport_is_fully_qualified (oaddr a) in
  assert! q in
  let c1 := cmd_emit (request expire_delay) c in
  if ne_start_ok (ce_ns env) a then Ok (rpc_push_back a c1) else Ok c1.

Definition rpc_request (kd : cmd_kind_t) (remote : kad_caddr_t) (expire_delay : Z) : cmd_out_t :=
  let (a, cookie) := remote in
  match kd with
  | KadStore rs => StartStoreRpc rs cookie a expire_delay
  | KadDelete recid _ _ => StartDeleteRpc recid cookie a expire_delay
  | KadQuery keyid max => StartFindallvalRpc kad_id_null keyid false max a expire_delay
  end.

Fixpoint start_rpcs (env : cmd_env_t) (nclosest_node : list kad_caddr_t) (c : kad_cmd_t) : outcome kad_cmd_t :=
  match nclosest_node with
  | [] => Ok c
  | r :: rest => let* c1 := start_rpc env (rpc_request (cmd_kind c) r) r.1 c in start_rpcs env rest c1
  end.

(** The callback of [kad_closestnode_t], which is deleted. *)
Definition cmd_closestnode_cb (env : cmd_env_t) (e : kad_event_t) (c : kad_cmd_t) : outcome (bool * kad_cmd_t) :=
  assert! is_closestnode_ok e in
  let c1 := set_closestnode None c in
  assert! negb (is_fatal e) in
  assert! is_caddr_arr e in
  let* nclosest_node := get_caddr_arr e in
  let* c2 := start_rpcs env nclosest_node c1 in
  match rpc_db c2 with
  | [] => cmd_notify_callback env KeTimedout c2
  | _ => Ok (true, set_queried (length (rpc_db c2)) c2)
  end.

(* ------------------------------------------------------------------ *)
(** * The answers *)
(* ------------------------------------------------------------------ *)

Definition rpc_remove (p : nat) (c : kad_cmd_t) : kad_cmd_t := set_rpc_db (filter (fun r => r.1 <> p) (rpc_db c)) c.

(** The end of the callback of a rpc: nothing, or the result. *)
Definition end_rpc (env : cmd_env_t) (event : kad_event_t) (c : kad_cmd_t) : outcome (bool * kad_cmd_t) :=
  match rpc_db c with
  | [] => cmd_notify_callback env (if bool_decide (nb_queried_peer c = nb_unreach_peer c) then KeTimedout else event) c
  | _ => Ok (true, c)
  end.

Definition store_rpc_cb (env : cmd_env_t) (p : nat) (e : kad_event_t) (c : kad_cmd_t) : outcome (bool * kad_cmd_t) :=
  assert! is_store_rpc_ok e in
  let c1 := rpc_remove p c in
  let c2 := if is_fatal e then set_unreach (S (nb_unreach_peer c1)) c1 else c1 in
  end_rpc env KeCompleted c2.
Definition delete_rpc_cb (env : cmd_env_t) (p : nat) (e : kad_event_t) (c : kad_cmd_t) : outcome (bool * kad_cmd_t) :=
  assert! is_delete_rpc_ok e in
  let c1 := rpc_remove p c in
  let c2 := if is_fatal e then set_unreach (S (nb_unreach_peer c1)) c1 else c1 in
  end_rpc env KeCompleted c2.

(** The next request to a peer that has more records, after [result] was
    updated with [rs]; the lengths are [size_t]. *)
Definition relaunch_query (env : cmd_env_t) (keyid : kad_id) (max_nb_record : Z) (rs : kad_recdups_t) (remote_addr : kad_addr_t)
    (c : kad_cmd_t) : outcome kad_cmd_t :=
  let size := Z.of_nat (recdups_size (result_recdups c)) in
  assert! negb (max_nb_record =? 0) && (size <=? max_nb_record) in
  let max_nb_rec_to_request := wrap 64 (size - max_nb_record) in
  assert! bool_decide (recdups_size rs <> 0)%nat in
  let* last := recdups_get (recdups_size rs - 1) rs in
  start_rpc env (StartFindallvalRpc (recid last) keyid false max_nb_rec_to_request remote_addr) remote_addr c.

Definition handle_recved_recdups (env : cmd_env_t) (keyid : kad_id) (max_nb_record : Z) (e : kad_event_t) (remote_addr : kad_addr_t)
    (c : kad_cmd_t) : outcome (bool * kad_cmd_t) :=
  assert! is_findallval_rpc_ok e in
  assert! is_recdups e in
  let* (rs, has_more_record) := get_recdups e in
  let* result := recdups_update_all rs (result_recdups c) in
  let c1 := set_result result c in
  let size := Z.of_nat (recdups_size result) in
  if negb (max_nb_record =? 0) && (max_nb_record <=? size) then
    if max_nb_record <? size then
      let* d := truncate_at_tail (recdups_size result - Z.to_nat max_nb_record) result in
      cmd_notify_callback env (KeRecdups d true) (set_result d c1)
    else cmd_notify_callback env (KeRecdups result has_more_record) c1
  else
    let* c2 := (if has_more_record : bool then relaunch_query env keyid max_nb_record rs remote_addr c1 else Ok c1) in
    Ok (true, c2).

Definition query_rpc_cb (env : cmd_env_t) (keyid : kad_id) (max_nb_record : Z) (p : nat) (remote_addr : kad_addr_t)
    (e : kad_event_t) (c : kad_cmd_t) : outcome (bool * kad_cmd_t) :=
  assert! is_findallval_rpc_ok e in
  let c1 := rpc_remove p c in
  let c2 := if is_fatal e then set_unreach (S (nb_unreach_peer c1)) c1 else c1 in
  let* (tokeep, c3) := (if is_recdups e then handle_recved_recdups env keyid max_nb_record e remote_addr c2 else Ok (true, c2)) in
  if (tokeep : bool) then end_rpc env (KeRecdups (result_recdups c3) false) c3 else Ok (false, c3).

(** The rpc [p] tells [e]. *)
Definition cmd_rpc_cb (env : cmd_env_t) (p : nat) (e : kad_event_t) (c : kad_cmd_t) : outcome (bool * kad_cmd_t) :=
  match list_find (fun r => r.1 = p) (rpc_db c) with
  | None => Fault
  | Some (_, (_, remote_addr)) =>
    match cmd_kind c with
    | KadStore _ => store_rpc_cb env p e c
    | KadDelete _ _ _ => delete_rpc_cb env p e c
    | KadQuery keyid max => query_rpc_cb env keyid max p remote_addr e c
    end
  end.

(* ------------------------------------------------------------------ *)
(** * Start, events *)
(* ------------------------------------------------------------------ *)

(** The timer and the search; a search gets no timer of its own. *)
Definition cmd_start (env : cmd_env_t) (kd : cmd_kind_t) (expire_delay : Z) (k : kbucket_t) : outcome (kad_cmd_t * kbucket_t) :=
  let c := cmd_ctor kd in
  let* t := timeout_start (ce_now env) expire_delay (cmd_timeout c) in
  let* (ns, k1) := closestnode_start ns_profile (ce_ns env) (cmd_keyid kd) nb_replication INFINITE_VAL [] k in
  Ok (set_closestnode (Some ns) (set_cmd_timeout t c), k1).

(** [store_local_db]: false on an error. *)
Fixpoint remove_loop (rs : list kad_rec_t) (d : kad_db_t) : outcome kad_db_t :=
  match rs with
  | [] => Ok d
  | r :: rs' =>
    if negb (contain_recid (recid r) d) then remove_loop rs' d
    else let* d1 := db_remove (recid r) d in remove_loop rs' d1
  end.
Definition store_local_db (env : db_env_t) (rs : kad_recdups_t) (local_db : kad_db_t) : outcome (bool * kad_db_t) :=
  if negb (may_accept_recdups rs local_db) then Ok (false, local_db)
  else
    let* d1 := remove_loop (recdups_recs rs) local_db in
    let* d2 := db_update_recdups env rs d1 in
    Ok (true, d2).

Definition kad_store_start (env : cmd_env_t) (denv : db_env_t) (rs : kad_recdups_t) (expire_delay : Z) (local_storage : bool)
    (k : kbucket_t) (local_db : kad_db_t) : outcome (bool * kad_cmd_t * kbucket_t * kad_db_t) :=
  let* (c, k1) := cmd_start env (KadStore rs) expire_delay k in
  if local_storage then let* (ok, d) := store_local_db denv rs local_db in Ok (ok, c, k1, d)
  else Ok (true, c, k1, local_db).
Definition kad_delete_start (env : cmd_env_t) (recid keyid : kad_id) (has_callback : bool) (expire_delay : Z)
    (k : kbucket_t) (local_db : kad_db_t) : outcome (kad_cmd_t * kbucket_t * kad_db_t) :=
  let* (c, k1) := cmd_start env (KadDelete recid keyid has_callback) expire_delay k in
  let* d := (if contain_recid recid local_db then db_remove recid local_db else Ok local_db) in
  Ok (c, k1, d).
Definition kad_query_start (env : cmd_env_t) (keyid : kad_id) (max_nb_record expire_delay : Z) (k : kbucket_t)
    : outcome (kad_cmd_t * kbucket_t) :=
  cmd_start env (KadQuery keyid max_nb_record) expire_delay k.

(** An event of the search: its caller never keeps it once it is told. *)
Definition cmd_search_cb (env : cmd_env_t) (ev : ns_event) (c : kad_cmd_t) : outcome (bool * kad_cmd_t) :=
  match cmd_closestnode c with
  | None => Fault
  | Some ns =>
    let* (alive, ns1) := ns_step ns_profile (NsEnv (ce_now env) (ne_start_ok (ce_ns env)) false, ev) ns in
    if (alive : bool) then Ok (true, set_closestnode (Some ns1) c)
    else
      match last (ns_out ns1) with
      | Some (NotifyCaller e) => let* e' := closestnode_nsearch_cb e in cmd_closestnode_cb env e' c
      | _ => Fault
      end
  end.

Inductive cmd_event := CmdSearch (ev : ns_event) | CmdRpc (p : nat) (e : kad_event_t) | CmdTimeout.

Definition cmd_step (ev : cmd_env_t * cmd_event) (c : kad_cmd_t) : outcome (bool * kad_cmd_t) :=
  match ev.2 with
  | CmdSearch ev' => cmd_search_cb ev.1 ev' c
  | CmdRpc p e => cmd_rpc_cb ev.1 p e c
  | CmdTimeout => cmd_timeout_cb ev.1 c
  end.
(** Nothing calls a deleted command. *)
Fixpoint cmd_run (evs : list (cmd_env_t * cmd_event)) (c : kad_cmd_t) : outcome (bool * kad_cmd_t) :=
  match evs with
  | [] => Ok (true, c)
  | ev :: evs' =>
    let* (alive, c1) := cmd_step ev c in
    if (alive : bool) then cmd_run evs' c1 else match evs' with [] => Ok (false, c1) | _ => Fault end
  end.
End cmd.

(* ------------------------------------------------------------------ *)
(** * The invariant *)
(* ------------------------------------------------------------------ *)

Section lemmas.
Context `{InetLib} (ns_profile : kad_nsearch_profile_t) (nb_replication : nat).

(** The records gathered, all of the key [k]. *)
Definition gathered (k : kad_id) (rs : list kad_rec_t) (d : kad_recdups_t) : Prop :=
  Forall (fun r => keyid r = k /\ kad_id_ok (recid r)) rs /\ dups_of k rs d.

Record cmd_wf (c : kad_cmd_t) : Prop := {
  cw_key : kad_id_ok (cmd_keyid (cmd_kind c));
  cw_search : forall ns, cmd_closestnode c = Some ns ->
    ns_wf ns /\ (0 < n_closest ns)%nat /\ query_type ns = FINDNODE_REQUEST /\ external_timer (ns_timeout ns) = None /\ rpc_db c = [];
  cw_ids : NoDup (rpc_db c).*1;
  cw_rpcs : Forall (fun r => (r.1 < next_rpc c)%nat /\ addr_ok r.2) (rpc_db c);
  cw_timer : to_callback (cmd_timeout c) = true /\ delay_ok (to_period (cmd_timeout c));
  cw_result : exists rs, gathered (cmd_keyid (cmd_kind c)) rs (result_recdups c);
  cw_max : match cmd_kind c with KadQuery _ max => 0 <= max | _ => True end
}.

(** The command's timer did not run out before this event is handled. *)
Definition not_late (env : cmd_env_t) (c : kad_cmd_t) : Prop :=
  next_expire_date (cmd_timeout c) = INFINITE_VAL \/
  exists r, ordinary r /\ next_expire_date (cmd_timeout c) = ce_now env + r.
Definition cmd_env_ok (env : cmd_env_t) : Prop := ordinary (ce_now env) /\ scale_ok (ce_ratio env).

(** What the callers assert of what they are told. *)
Definition cmd_notify_ok (kd : cmd_kind_t) (o : cmd_out_t) : Prop :=
  match o with
  | NotifyCmd e =>
    match kd with KadStore _ => is_store_ok e | KadDelete _ _ _ => is_delete_ok e | KadQuery _ _ => is_query_ok e end = true
  | _ => True
  end.
Definition cmd_told (outs : list cmd_out_t) : Prop := exists e, NotifyCmd e ∈ outs.
Definition has_callback (kd : cmd_kind_t) : bool := match kd with KadDelete _ _ b => b | _ => true end.

(** A step kept the command right and told what is allowed. *)
Record cmd_ok (env : cmd_env_t) (c c' : kad_cmd_t) (alive : bool) (outs : list cmd_out_t) : Prop := {
  co_wf : cmd_wf c';
  co_kind : cmd_kind c' = cmd_kind c;
  co_out : cmd_out c' = cmd_out c ++ outs;
  co_notify : Forall (cmd_notify_ok (cmd_kind c)) outs;
  co_alive : alive = false -> has_callback (cmd_kind c) = true -> ne_tokeep (ce_ns env) = false /\ cmd_told outs
}.

Lemma wf_cmd_emit o c : cmd_wf c -> cmd_wf (cmd_emit o c).
Proof using. clear. intros []. by split. Qed.

Lemma cmd_dtor_spec c : cmd_wf c -> cmd_dtor c = Ok (set_closestnode None (set_rpc_db [] c)) /\ cmd_wf (set_closestnode None (set_rpc_db [] c)).
Proof using.
  clear. intros Hwf. split.
  - unfold cmd_dtor. change (cmd_closestnode (set_rpc_db [] c)) with (cmd_closestnode c).
    destruct (cmd_closestnode c) as [ns|] eqn:E; [|by destruct c; cbn in E; subst].
    destruct (cw_search c Hwf ns E) as (Hns & _). unfold nsearch_dtor. by rewrite llist_dtor_spec.
  - destruct Hwf. split; try done; constructor.
Qed.

(** Telling the caller, from a state [c] reached with the outputs [outs0]. *)
Lemma notify_ok_step env e c0 c outs0 :
  cmd_wf c -> cmd_kind c = cmd_kind c0 -> cmd_out c = cmd_out c0 ++ outs0 -> Forall (cmd_notify_ok (cmd_kind c0)) outs0 ->
  cmd_notify_ok (cmd_kind c0) (NotifyCmd e) ->
  exists alive c' outs, cmd_notify_callback env e c = Ok (alive, c') /\ cmd_ok env c0 c' alive outs /\
    (alive = true -> c' = cmd_emit (NotifyCmd e) c).
Proof using.
  clear. intros Hwf Ek Eo Hno He. unfold cmd_notify_callback.
  assert (Hcb : has_callback (cmd_kind c0) = true -> exists alive c' outs,
    (let c1 := cmd_emit (NotifyCmd e) c in
     if ne_tokeep (ce_ns env) then Ok (true, c1) else let* c2 := cmd_dtor c1 in Ok (false, c2)) = Ok (alive, c') /\
    cmd_ok env c0 c' alive outs /\ (alive = true -> c' = cmd_emit (NotifyCmd e) c)).
  { intros _. pose proof (wf_cmd_emit (NotifyCmd e) c Hwf) as Hwf1. cbv zeta.
    assert (Ho : cmd_out (cmd_emit (NotifyCmd e) c) = cmd_out c0 ++ outs0 ++ [NotifyCmd e]) by (cbn; by rewrite Eo, <- app_assoc).
    assert (Hall : Forall (cmd_notify_ok (cmd_kind c0)) (outs0 ++ [NotifyCmd e])) by (apply Forall_app; split; [done|by constructor]).
    destruct (ne_tokeep (ce_ns env)) eqn:Et.
    - eexists true, _, (outs0 ++ [NotifyCmd e]). split; [done|]. split; [by split|done].
    - destruct (cmd_dtor_spec _ Hwf1) as [-> Hwf2]. cbn [mbind outcome_bind].
      eexists false, _, (outs0 ++ [NotifyCmd e]). split; [done|]. split; [|done]. split; try done.
      intros _ _. split; [done|]. exists e. apply elem_of_app. right. by left. }
  rewrite Ek. destruct (cmd_kind c0) as [rs|i k []|k max] eqn:E0; [by apply Hcb|by apply Hcb| |by apply Hcb].
  destruct (cmd_dtor_spec c Hwf) as [-> Hwf2]. cbn [mbind outcome_bind]. eexists false, _, outs0.
  split; [done|]. split; [|done]. split; rewrite ?E0; done.
Qed.

(* ------------------------------------------------------------------ *)
(** * Lemmas: requests *)
(* ------------------------------------------------------------------ *)

Lemma rpc_delay_ok env c :
  cmd_env_ok env -> not_late env c -> to_callback (cmd_timeout c) = true -> exists q, rpc_delay env c = Ok q.
Proof using.
  clear. intros [Hnow Hs] Hlate Hcb. unfold rpc_delay, get_expire_delay, timeout_is_started, timeout_is_null. rewrite Hcb.
  cbn [negb dbg_assert]. destruct Hlate as [->|(r & Hr & ->)].
  - cbn [mbind outcome_bind]. by exists INFINITE_VAL.
  - destruct (ordinary_special (ce_now env + r)) as [E1 E2]; [by apply ordinary_sum|].
    destruct (ordinary_special (ce_now env)) as [E3 E4]; [by apply ordinary_below|]. rewrite E1. cbn [negb dbg_assert].
    unfold delay_is_special, delay_is_always, delay_is_never. change (?d =? INFINITE_VAL) with (delay_is_infinite d).
    rewrite E2. cbn [orb]. unfold delay_sub, delay_op. rewrite E1, E2, E3, E4. cbn [mbind outcome_bind negb dbg_assert orb].
    replace (ce_now env + r - ce_now env) with r by lia.
    assert (Hw : wrap 64 r = r).
    { apply wrap_small. pose proof (ordinary_below _ Hr). unfold in_range, INFINITE_VAL in *. lia. }
    rewrite Hw. destruct (a_bit_less_ok (ce_ratio env) 1000 r Hs) as (q & Hq & _); [split; vm_compute; congruence|done|]. by exists q.
Qed.

(** The state once requests were sent: [outs] are the requests, [db] the rpcs. *)
Definition with_rpcs (outs : list cmd_out_t) (db : list (nat * kad_addr_t)) (c : kad_cmd_t) : kad_cmd_t :=
  KadCmd (cmd_kind c) (nb_queried_peer c) (nb_unreach_peer c) (result_recdups c) (cmd_timeout c) (cmd_closestnode c)
    (rpc_db c ++ db) (next_rpc c + length db) (cmd_out c ++ outs).

Lemma start_rpc_spec env req a c :
  cmd_env_ok env -> not_late env c -> to_callback (cmd_timeout c) = true -> addr_ok a ->
  exists q, start_rpc env req a c = Ok (with_rpcs [req q] (if ne_start_ok (ce_ns env) a then [(next_rpc c, a)] else []) c).
Proof using.
  clear. intros Henv Hl Hcb Ha. destruct (rpc_delay_ok env c Henv Hl Hcb) as (q & Hq). exists q. unfold start_rpc.
  rewrite Hq. cbn [mbind outcome_bind]. destruct (addr_ok_oaddr a Ha) as [-> _]. cbn [mbind outcome_bind dbg_assert].
  destruct (ne_start_ok (ce_ns env) a); unfold with_rpcs, rpc_push_back; cbn; [by rewrite Nat.add_1_r|].
  by rewrite app_nil_r, Nat.add_0_r.
Qed.

(** The rpcs to the addresses a request could be sent to, numbered from [n]. *)
Fixpoint rpcs_from (ok : kad_addr_t -> bool) (n : nat) (arr : list kad_caddr_t) : list (nat * kad_addr_t) :=
  match arr with
  | [] => []
  | r :: rest => if ok r.1 then (n, r.1) :: rpcs_from ok (S n) rest else rpcs_from ok n rest
  end.

Lemma rpcs_from_spec ok n arr :
  (rpcs_from ok n arr).*1 = seq n (length (rpcs_from ok n arr)) /\ (rpcs_from ok n arr).*2 = filter (fun a => ok a = true) arr.*1.
Proof using.
  clear. revert n. induction arr as [|r rest IH]; intros n; [done|]. cbn [rpcs_from fmap list_fmap]. rewrite filter_cons.
  destruct (ok r.1) eqn:E; [|rewrite decide_False by congruence; apply IH]. rewrite decide_True by done. destruct (IH (S n)) as [IH1 IH2].
  cbn [fmap list_fmap length seq fst snd]. by rewrite IH1, IH2.
Qed.

Lemma start_rpcs_spec env arr c :
  cmd_env_ok env -> not_late env c -> to_callback (cmd_timeout c) = true -> Forall (fun r => addr_ok r.1) arr ->
  exists outs, start_rpcs env arr c = Ok (with_rpcs outs (rpcs_from (ne_start_ok (ce_ns env)) (next_rpc c) arr) c) /\
    Forall2 (fun r o => exists q, o = rpc_request (cmd_kind c) r q) arr outs.
Proof using.
  clear. intros Henv. revert c. induction arr as [|r rest IH]; intros c Hl Hcb Ha; cbn [start_rpcs].
  { exists []. split; [|constructor]. unfold with_rpcs. cbn. rewrite !app_nil_r, Nat.add_0_r. by destruct c. }
  apply Forall_cons in Ha as [Hr Ha].
  destruct (start_rpc_spec env (rpc_request (cmd_kind c) r) r.1 c Henv Hl Hcb Hr) as (q & ->). cbn [mbind outcome_bind].
  set (c1 := with_rpcs _ _ c). destruct (IH c1 Hl Hcb Ha) as (outs & -> & Hall).
  exists (rpc_request (cmd_kind c) r q :: outs). split; [|constructor; [by exists q|done]]. f_equal. subst c1. unfold with_rpcs. cbn.
  destruct (ne_start_ok (ce_ns env) r.1); cbn; rewrite ?app_nil_r, ?Nat.add_0_r, <- !app_assoc; cbn; [|done].
  by rewrite Nat.add_1_r, <- Nat.add_succ_comm.
Qed.

Lemma starts_ok kd arr outs : Forall2 (fun r o => exists q, o = rpc_request kd r q) arr outs -> Forall (cmd_notify_ok kd) outs.
Proof using.
  clear. induction 1 as [|[a ck] o arr outs (q & ->) Hl IH]; [constructor|]. constructor; [by destruct kd|done].
Qed.

Lemma wf_with_rpcs outs db c :
  cmd_wf c -> cmd_closestnode c = None -> db.*1 = seq (next_rpc c) (length db) -> Forall addr_ok db.*2 -> cmd_wf (with_rpcs outs db c).
Proof using.
  clear. intros [Hk Hs Hids Hr Ht Hres Hm] Hc Hseq Ha. split; try done; cbn [with_rpcs cmd_closestnode rpc_db next_rpc].
  - rewrite Hc. done.
  - rewrite fmap_app, Hseq. apply NoDup_app. split; [done|]. split; [|apply NoDup_seq].
    intros i (q & -> & Hq)%list_elem_of_fmap Hin. rewrite Forall_forall in Hr. destruct (Hr q Hq) as [Hlt _].
    apply elem_of_seq in Hin. lia.
  - apply Forall_app. split.
    + eapply Forall_impl; [exact Hr|]. intros q [Hlt Hq]. split; [lia|done].
    + apply Forall_forall. intros q Hq. split.
      * assert (Hin : q.1 ∈ db.*1) by (apply list_elem_of_fmap; by exists q). rewrite Hseq in Hin. apply elem_of_seq in Hin. lia.
      * rewrite Forall_forall in Ha. apply Ha, list_elem_of_fmap. by exists q.
Qed.

Lemma wf_no_search c : cmd_wf c -> cmd_wf (set_closestnode None c).
Proof using. clear. intros []. by split. Qed.

Lemma wf_queried n c : cmd_wf c -> cmd_wf (set_queried n c).
Proof using. clear. intros []. by split. Qed.
Lemma wf_unreach n c : cmd_wf c -> cmd_wf (set_unreach n c).
Proof using. clear. intros []. by split. Qed.

Lemma wf_remove p c : cmd_wf c -> cmd_wf (rpc_remove p c).
Proof using.
  clear. intros [Hk Hs Hids Hr Ht Hres Hm]. split; try done; cbn [rpc_remove set_rpc_db cmd_closestnode rpc_db next_rpc].
  - intros ns Hns. destruct (Hs ns Hns) as (? & ? & ? & ? & E). rewrite E. by split_and!.
  - clear -Hids. induction (rpc_db c) as [|q l IH]; [constructor|]. cbn [fmap list_fmap] in Hids. apply NoDup_cons in Hids as [Hn Hl].
    rewrite filter_cons. destruct (decide (q.1 <> p)); [|by apply IH]. cbn [fmap list_fmap]. apply NoDup_cons. split; [|by apply IH].
    intros (x & E & [_ Hx]%list_elem_of_filter)%list_elem_of_fmap. apply Hn, list_elem_of_fmap. by exists x.
  - apply Forall_forall. intros x [_ Hx]%list_elem_of_filter. rewrite Forall_forall in Hr. by apply Hr.
Qed.

(** What a command does with the nodes its search found. *)
Lemma closestnode_step env arr c :
  cmd_env_ok env -> not_late env c -> cmd_wf c -> rpc_db c = [] -> Forall (fun r => addr_ok r.1) arr ->
  exists alive c' outs, cmd_closestnode_cb env (KeCaddrArr arr) c = Ok (alive, c') /\ cmd_ok env c c' alive outs.
Proof using.
  clear. intros Henv Hl Hwf Hdb Ha. unfold cmd_closestnode_cb. change (is_closestnode_ok _) with true. change (is_fatal _) with false.
  change (is_caddr_arr _) with true. cbn [dbg_assert negb get_caddr_arr mbind outcome_bind].
  pose proof (wf_no_search c Hwf) as Hwf1. set (c1 := set_closestnode None c) in *.
  destruct (start_rpcs_spec env arr c1 Henv Hl (proj1 (cw_timer c Hwf)) Ha) as (outs & -> & Hall). cbn [mbind outcome_bind].
  set (db := rpcs_from _ _ arr). destruct (rpcs_from_spec (ne_start_ok (ce_ns env)) (next_rpc c1) arr) as [Hseq Hsnd]. fold db in Hseq, Hsnd.
  assert (Hdba : Forall addr_ok db.*2).
  { rewrite Hsnd. apply Forall_forall. intros a [_ (r & -> & Hr)%list_elem_of_fmap]%list_elem_of_filter. rewrite Forall_forall in Ha. by apply Ha. }
  pose proof (wf_with_rpcs outs db c1 Hwf1 eq_refl Hseq Hdba) as Hwf2. pose proof (starts_ok _ arr outs Hall) as Hno.
  destruct (rpc_db (with_rpcs outs db c1)) as [|r rs] eqn:E.
  - destruct (notify_ok_step env KeTimedout c (with_rpcs outs db c1) outs Hwf2 eq_refl eq_refl Hno) as (alive & c' & outs' & E' & Hok & _).
    { by destruct (cmd_kind c). }
    exists alive, c', outs'. by split.
  - eexists true, _, outs. split; [reflexivity|]. split; try done. by apply wf_queried.
Qed.

(** The end of the callback of a rpc. *)
Lemma end_step env event c0 c outs0 :
  cmd_wf c -> cmd_kind c = cmd_kind c0 -> cmd_out c = cmd_out c0 ++ outs0 -> Forall (cmd_notify_ok (cmd_kind c0)) outs0 ->
  cmd_notify_ok (cmd_kind c0) (NotifyCmd event) ->
  exists alive c' outs, end_rpc env event c = Ok (alive, c') /\ cmd_ok env c0 c' alive outs.
Proof using.
  clear. intros Hwf Ek Eo Hno He. unfold end_rpc. destruct (rpc_db c) as [|r rs]; [|by exists true, c, outs0].
  destruct (notify_ok_step env (if bool_decide (nb_queried_peer c = nb_unreach_peer c) then KeTimedout else event) c0 c outs0
    Hwf Ek Eo Hno) as (alive & c' & outs & E & Hok & _); [by case_bool_decide; destruct (cmd_kind c0)|]. by exists alive, c', outs.
Qed.

(** A rpc that stores or deletes. *)
Definition plain_rpc_cb (env : cmd_env_t) (p : nat) (e : kad_event_t) (c : kad_cmd_t) : outcome (bool * kad_cmd_t) :=
  end_rpc env KeCompleted (if is_fatal e then set_unreach (S (nb_unreach_peer c)) (rpc_remove p c) else rpc_remove p c).

Lemma plain_step env p e c :
  cmd_wf c -> match cmd_kind c with KadQuery _ _ => False | _ => True end ->
  exists alive c' outs, plain_rpc_cb env p e c = Ok (alive, c') /\ cmd_ok env c c' alive outs.
Proof using.
  clear. intros Hwf Hk. unfold plain_rpc_cb. apply (end_step _ _ _ _ []); [|by destruct (is_fatal e)| | |].
  - destruct (is_fatal e); [apply wf_unreach|]; by apply wf_remove.
  - rewrite app_nil_r. by destruct (is_fatal e).
  - constructor.
  - unfold cmd_notify_ok. by destruct (cmd_kind c).
Qed.

(* ------------------------------------------------------------------ *)
(** * Lemmas: records *)
(* ------------------------------------------------------------------ *)

(** Records of one key that a peer gave. *)
Definition recs_of_key (k : kad_id) (rs : kad_recdups_t) : Prop := recdups_ok rs /\ (recval_db rs = [] \/ rd_keyid rs = k).

Lemma recs_key k rs : recs_of_key k rs -> Forall (fun r => keyid r = k /\ kad_id_ok (recid r)) (recdups_recs rs).
Proof using.
  clear. intros [(_ & Hok & _) Hk]. unfold recdups_recs. destruct Hk as [-> | ->]; [constructor|]. apply Forall_fmap.
  eapply Forall_impl; [exact Hok|]. intros rv Hrv. split; [done|apply Hrv].
Qed.

Lemma gathered_update k rs0 rs d :
  kad_id_ok k -> gathered k rs0 d -> recs_of_key k rs ->
  exists d', recdups_update_all rs d = Ok d' /\ gathered k (rs0 ++ recdups_recs rs) d'.
Proof using.
  clear. intros Hk [Hrs0 Hd] Hrs%recs_key. unfold recdups_update_all.
  destruct (dups_update_loop k rs0 (recdups_recs rs) d Hk Hrs) as (d' & E & Hd'); [|done|].
  - eapply Forall_impl; [exact Hrs0|]. by intros r [_ ?].
  - exists d'. split; [done|]. split; [by apply Forall_app|done].
Qed.

Lemma gathered_key k rs d : gathered k rs d -> recval_db d <> [] -> rd_keyid d = k.
Proof using.
  clear. intros [_ (_ & Hall & _ & Hk)] Hne. rewrite Hk, decide_False; [done|]. intros ->.
  destruct (recval_db d) as [|rv db]; [done|]. apply Forall_cons in Hall as [(rs1 & rs2 & E & _) _]. by destruct rs1.
Qed.

(** What is left of a set of records, as records given to an empty set. *)
Lemma gathered_take k rs d m :
  gathered k rs d -> (0 < m)%nat -> exists rs', gathered k rs' (Recdups (rd_keyid d) (take m (recval_db d))).
Proof using.
  clear. intros Hg Hm. exists (rec_of k <$> take m (recval_db d)). pose proof (gathered_key k rs d Hg) as Hkey.
  destruct Hg as [Hrs (Hnd & Hall & Hin & Hk)].
  assert (Hids : Forall (fun rv => kad_id_ok (rv_recid rv)) (recval_db d)).
  { apply (dups_ids k rs); [|by split]. eapply Forall_impl; [exact Hrs|]. by intros r [_ ?]. }
  split.
  - apply Forall_fmap. eapply Forall_impl; [by apply Forall_take|]. intros rv Hrv. by split.
  - assert (Hnd' : NoDup (rv_recid <$> take m (recval_db d))).
    { rewrite fmap_take. eapply sublist_NoDup; [exact Hnd|apply sublist_take]. }
    split; [done|]. split; [|split; cbn [recval_db rd_keyid]].
    + apply Forall_forall. intros rv Hrv. apply list_elem_of_split in Hrv as (l1 & l2 & E). cbn [recval_db] in E. rewrite E in Hnd' |- *.
      rewrite fmap_app, fmap_cons in Hnd'. apply NoDup_app in Hnd' as (_ & Hd1 & [Hd2 _]%NoDup_cons).
      exists (rec_of k <$> l1), (rec_of k <$> l2). rewrite fmap_app, fmap_cons. split; [done|]. split; apply Forall_fmap, Forall_forall; cbn.
      * intros x Hx Ei. exfalso. apply (Hd1 (rv_recid x)); [by apply list_elem_of_fmap_2|]. rewrite Ei. by left.
      * intros x Hx Ei. exfalso. apply Hd2. rewrite <- Ei. by apply list_elem_of_fmap_2.
    + intros i (x & -> & (rv & -> & Hrv)%list_elem_of_fmap)%list_elem_of_fmap. by apply (list_elem_of_fmap_2 rv_recid).
    + destruct (recval_db d) as [|rv db] eqn:Edb.
      * rewrite take_nil. rewrite Hk. cbn. destruct rs as [|r rs]; [done|]. exfalso.
        assert (Hi : recid r ∈ rv_recid <$> ([] : list recval_t)) by (apply Hin; by left). by apply not_elem_of_nil in Hi.
      * destruct m as [|m]; [lia|]. cbn [take fmap list_fmap]. rewrite decide_False by done. by apply Hkey.
Qed.

Lemma wf_result d rs c : cmd_wf c -> gathered (cmd_keyid (cmd_kind c)) rs d -> cmd_wf (set_result d c).
Proof using. clear. intros [] Hg. split; try done. by exists rs. Qed.

(* ------------------------------------------------------------------ *)
(** * Lemmas: the answers of a query *)
(* ------------------------------------------------------------------ *)

(** A peer only says it has more records if it gave some, and there is a limit
    to the number asked. *)
Definition more_ok (max : Z) (rs : kad_recdups_t) (more : bool) : Prop := more = true -> max <> 0 /\ recval_db rs <> [].

Lemma relaunch_spec env k max rs a c :
  cmd_env_ok env -> not_late env c -> cmd_wf c -> addr_ok a -> recval_db rs <> [] ->
  0 < max -> Z.of_nat (recdups_size (result_recdups c)) < max ->
  exists q, relaunch_query env k max rs a c =
    Ok (with_rpcs [StartFindallvalRpc (match last (recval_db rs) with Some rv => rv_recid rv | None => kad_id_null end) k false
                     (wrap 64 (Z.of_nat (recdups_size (result_recdups c)) - max)) a q]
          (if ne_start_ok (ce_ns env) a then [(next_rpc c, a)] else []) c).
Proof using.
  clear. intros Henv Hl Hwf Ha Hne Hmax Hlt. unfold relaunch_query.
  rewrite (proj2 (Z.eqb_neq max 0)), (proj2 (Z.leb_le _ max)) by lia. cbn [negb andb dbg_assert].
  assert (Hsz : recdups_size rs <> 0%nat) by (unfold recdups_size; by destruct (recval_db rs)).
  rewrite bool_decide_eq_true_2 by done. cbn [dbg_assert]. unfold recdups_get, recdups_size.
  replace (length (recval_db rs) - 1)%nat with (pred (length (recval_db rs))) by lia. rewrite <- last_lookup.
  destruct (last (recval_db rs)) as [rv|] eqn:E; [|by apply last_None in E]. cbn [mbind outcome_bind rec_of recid].
  apply (start_rpc_spec env _ a c); [done|done|apply (cw_timer c Hwf)|done].
Qed.

Lemma query_recs_step env k max rs more a c :
  cmd_env_ok env -> not_late env c -> cmd_wf c -> cmd_kind c = KadQuery k max -> cmd_closestnode c = None -> addr_ok a ->
  recs_of_key k rs -> more_ok max rs more ->
  exists alive c' outs, handle_recved_recdups env k max (KeRecdups rs more) a c = Ok (alive, c') /\ cmd_ok env c c' alive outs.
Proof using.
  clear. intros Henv Hl Hwf Hkd Hcl Ha Hrs Hmore. unfold handle_recved_recdups. change (is_findallval_rpc_ok _) with true.
  change (is_recdups _) with true. cbn [dbg_assert KadEvent.get_recdups mbind outcome_bind].
  pose proof (cw_key c Hwf) as Hkey. pose proof (cw_max c Hwf) as Hmax. destruct (cw_result c Hwf) as (rs0 & Hg).
  rewrite Hkd in Hkey, Hmax, Hg. cbn [cmd_keyid] in Hkey, Hg.
  destruct (gathered_update k rs0 rs (result_recdups c) Hkey Hg Hrs) as (d & -> & Hg1). cbn [mbind outcome_bind].
  assert (Hwf1 : cmd_wf (set_result d c)) by (apply (wf_result d (rs0 ++ recdups_recs rs)); [done|by rewrite Hkd]).
  assert (Hnot : forall e c1, is_recdups e = true -> cmd_wf c1 -> cmd_kind c1 = cmd_kind c -> cmd_out c1 = cmd_out c ->
    exists alive c' outs, cmd_notify_callback env e c1 = Ok (alive, c') /\ cmd_ok env c c' alive outs).
  { intros e c1 He Hw Ek Eo. destruct (notify_ok_step env e c c1 [] Hw Ek) as (alive & c' & outs & E & Hok & _).
    - by rewrite app_nil_r.
    - constructor.
    - rewrite Hkd. cbn. by destruct e.
    - by exists alive, c', outs. }
  destruct (Z.leb_spec max (Z.of_nat (recdups_size d))) as [Hle|Hgt]; [destruct (Z.eqb_spec max 0) as [E0|E0]|]; cbn [negb andb].
  - destruct more; [destruct (Hmore eq_refl); done|]. cbn [mbind outcome_bind]. eexists true, _, []. split; [done|].
    split; try done. by rewrite app_nil_r.
  - destruct (Z.ltb_spec max (Z.of_nat (recdups_size d))); [|by apply Hnot]. unfold truncate_at_tail, recdups_size in *.
    rewrite pop_backs_spec by lia. cbn [mbind outcome_bind].
    destruct (gathered_take k _ d (length (recval_db d) - (length (recval_db d) - Z.to_nat max)) Hg1) as (rs' & Hg2); [lia|].
    apply Hnot; [done| |done|done]. apply (wf_result _ rs'); [done|]. cbn [set_result cmd_kind]. by rewrite Hkd.
  - rewrite andb_false_r. destruct more; [|].
    + destruct (Hmore eq_refl) as [Hm Hne].
      destruct (relaunch_spec env k max rs a (set_result d c)) as (q & ->); [done|done|done|done|done|lia|done|]. cbn [mbind outcome_bind].
      eexists true, _, _. split; [done|]. split; try done; [|repeat constructor].
      apply wf_with_rpcs; [done|done| |]; destruct (ne_start_ok (ce_ns env) a); try done. constructor; [exact Ha|constructor].
    + cbn [mbind outcome_bind]. eexists true, _, []. split; [done|]. split; try done. by rewrite app_nil_r.
Qed.

(* ------------------------------------------------------------------ *)
(** * Lemmas: steps and runs *)
(* ------------------------------------------------------------------ *)

Definition search_env (env : cmd_env_t) : ns_env_t := NsEnv (ce_now env) (ne_start_ok (ce_ns env)) false.

(** The search of a command, on an answer: it goes on, or it is deleted once it
    told the addresses it found. *)
Lemma search_rpc_step env p e ns :
  ns_wf ns -> (0 < n_closest ns)%nat -> query_type ns = FINDNODE_REQUEST -> ns_ev_ok (search_env env, EvRpc p e) ns ->
  exists alive ns', ns_step ns_profile (search_env env, EvRpc p e) ns = Ok (alive, ns') /\
    if alive : bool then ns_wf ns' /\ same_query ns ns' /\ ns_timeout ns' = ns_timeout ns
    else exists arr, last (ns_out ns') = Some (NotifyCaller (KeCaddrArr arr)) /\ Forall (fun r => addr_ok r.1) arr.
Proof using.
  clear. intros Hwf Hn Hq Hev. destruct (ns_step_ok ns_profile _ ns Hwf Hn Hev) as (alive & ns' & outs & E & Hok).
  exists alive, ns'. split; [done|]. destruct alive; [destruct Hok; auto|].
  destruct (reply_known ns_profile _ p e ns Hwf Hq Hev) as (ns1 & E1 & Hwf1 & (Et & En & Eq) & Eo & _).
  cbn [ns_step snd fst] in E. unfold ns_step, rpc_event_cb in E. cbn [fst snd] in E. rewrite E1 in E. cbn [mbind outcome_bind] in E.
  assert (Hn1 : (0 < n_closest ns1)%nat) by (by rewrite En).
  destruct (rpc_finish_spec ns_profile (search_env env) (proj1 Hev) ns1 Hwf1 Hn1) as (b & ns2 & E2 & Hcase).
  rewrite E2 in E. injection E as -> ->. destruct Hcase as [(_ & _ & ->)|(_ & Hf & _)]; [|done].
  pose proof (end_result_ok ns_profile (search_env env) ns1 Hwf1) as [_ Hc].
  unfold end_result in *. rewrite Eq, Hq in Hc |- *. eexists. split; [|exact Hc]. cbn. by rewrite last_snoc.
Qed.

Definition cmd_rpc_ev_ok (kd : cmd_kind_t) (e : kad_event_t) : Prop :=
  match kd with
  | KadStore _ => is_store_rpc_ok e = true
  | KadDelete _ _ _ => is_delete_rpc_ok e = true
  | KadQuery k max => is_cnx_err_ok e = true \/ exists rs more, e = KeRecdups rs more /\ recs_of_key k rs /\ more_ok max rs more
  end.

(** An event a command may get: of its search while it runs, whose timer only
    fires if it is armed; of one of its rpcs; of its own timer. *)
Definition cmd_ev_ok (ev : cmd_env_t * cmd_event) (c : kad_cmd_t) : Prop :=
  cmd_env_ok ev.1 /\
  match ev.2 with
  | CmdSearch ev' => not_late ev.1 c /\ exists ns, cmd_closestnode c = Some ns /\ ns_ev_ok (search_env ev.1, ev') ns /\
      (ev' = EvTimeout -> external_is_started (ns_timeout ns) = true)
  | CmdRpc p e => not_late ev.1 c /\ (exists a, (p, a) ∈ rpc_db c) /\ cmd_rpc_ev_ok (cmd_kind c) e
  | CmdTimeout => True
  end.
Fixpoint cmd_events_ok (evs : list (cmd_env_t * cmd_event)) (c : kad_cmd_t) : Prop :=
  match evs with
  | [] => True
  | ev :: evs' => cmd_ev_ok ev c /\ forall alive c', cmd_step ns_profile ev c = Ok (alive, c') ->
      if alive : bool then cmd_events_ok evs' c' else evs' = []
  end.

Lemma search_step env ev c :
  cmd_wf c -> cmd_ev_ok (env, CmdSearch ev) c ->
  exists alive c' outs, cmd_search_cb ns_profile env ev c = Ok (alive, c') /\ cmd_ok env c c' alive outs.
Proof using.
  clear. intros Hwf (Henv & Hl & ns & Hns & Hev & Hto). destruct (cw_search c Hwf ns Hns) as (Hnwf & Hn & Hq & Htimer & Hdb).
  destruct ev as [p e|]; [|specialize (Hto eq_refl); unfold external_is_started in Hto; rewrite Htimer in Hto; done].
  unfold cmd_search_cb. rewrite Hns. fold (search_env env).
  destruct (search_rpc_step env p e ns Hnwf Hn Hq Hev) as ([] & ns' & -> & Hcase); cbn [mbind outcome_bind].
  - destruct Hcase as (Hwf' & (Et & En & Eq) & Ht). eexists true, _, []. split; [done|]. split; try done; [|by rewrite app_nil_r].
    destruct Hwf. split; try done. intros ns2 [= <-]. rewrite En, Eq, Ht. auto.
  - destruct Hcase as (arr & -> & Harr). unfold closestnode_nsearch_cb. change (is_nsearch_findnode_ok _) with true.
    cbn [dbg_assert mbind outcome_bind]. by apply closestnode_step.
Qed.

Lemma rpc_found c p a : cmd_wf c -> (p, a) ∈ rpc_db c -> exists i, list_find (fun r => r.1 = p) (rpc_db c) = Some (i, (p, a)).
Proof using.
  clear. intros Hwf Hin. destruct (list_find_elem_of (fun r => r.1 = p) (rpc_db c) (p, a) Hin eq_refl) as [[i [p' a']] E]. exists i. rewrite E.
  apply list_find_Some in E as (Hi & Hp & _). cbn in Hp. subst p'. do 3 f_equal.
  apply list_elem_of_lookup in Hin as [j Hj]. pose proof (cw_ids c Hwf) as Hnd.
  assert (Hij : i = j) by (apply (NoDup_lookup _ i j p Hnd); rewrite list_lookup_fmap; [by rewrite Hi|by rewrite Hj]).
  subst j. congruence.
Qed.

Lemma query_step env k max p a e c :
  cmd_env_ok env -> not_late env c -> cmd_wf c -> cmd_kind c = KadQuery k max -> (p, a) ∈ rpc_db c -> cmd_rpc_ev_ok (cmd_kind c) e ->
  exists alive c' outs, query_rpc_cb env k max p a e c = Ok (alive, c') /\ cmd_ok env c c' alive outs.
Proof using.
  clear. intros Henv Hl Hwf Hkd Hin He. rewrite Hkd in He. unfold query_rpc_cb.
  assert (Hcl : cmd_closestnode c = None).
  { destruct (cmd_closestnode c) as [ns|] eqn:Ec; [|done]. destruct (cw_search c Hwf ns Ec) as (_ & _ & _ & _ & Hdb).
    rewrite Hdb in Hin. by apply not_elem_of_nil in Hin. }
  pose proof (cw_rpcs c Hwf) as Hr. rewrite Forall_forall in Hr. destruct (Hr _ Hin) as [_ Ha]. cbn [snd] in Ha. clear Hr.
  pose proof (wf_remove p c Hwf) as Hwf1. set (c1 := rpc_remove p c) in *. destruct He as [He|(rs & more & -> & Hrs & Hmore)].
  - assert (Hf : is_fatal e = true) by exact He. assert (Hr : is_recdups e = false) by (by destruct e).
    assert (Hok : is_findallval_rpc_ok e = true) by (unfold is_findallval_rpc_ok; by rewrite He).
    rewrite Hok, Hf, Hr. cbn [dbg_assert mbind outcome_bind]. apply (end_step _ _ _ _ []); try done; [by apply wf_unreach| |].
    + by rewrite app_nil_r.
    + by rewrite Hkd.
  - change (is_findallval_rpc_ok _) with true. change (is_fatal _) with false. change (is_recdups _) with true. cbn [dbg_assert].
    destruct (query_recs_step env k max rs more a c1 Henv Hl Hwf1 Hkd Hcl Ha Hrs Hmore) as (alive & c' & outs & -> & [Hw Hk Ho Hno Hal]).
    cbn [mbind outcome_bind]. destruct alive.
    + change (cmd_kind c1) with (cmd_kind c) in *. change (cmd_out c1) with (cmd_out c) in *.
      apply (end_step _ _ c c' outs); try done. by rewrite Hkd.
    + exists false, c', outs. split; [done|]. by split.
Qed.

Lemma cmd_step_ok ev c :
  cmd_wf c -> cmd_ev_ok ev c ->
  exists alive c' outs, cmd_step ns_profile ev c = Ok (alive, c') /\ cmd_ok ev.1 c c' alive outs.
Proof using.
  clear. intros Hwf Hev. destruct ev as [env [ev|p e|]]; unfold cmd_step; cbn [fst snd]; [by apply search_step| |].
  - destruct Hev as (Henv & Hl & [a Hin] & He). cbn [fst snd] in *. unfold cmd_rpc_cb. destruct (rpc_found c p a Hwf Hin) as (i & ->).
    destruct (cmd_kind c) as [rs|i' k b|k max] eqn:Hkd; cbn [cmd_rpc_ev_ok] in He.
    + unfold store_rpc_cb. rewrite He. cbn [dbg_assert]. refine (plain_step env p e c Hwf _). by rewrite Hkd.
    + unfold delete_rpc_cb. rewrite He. cbn [dbg_assert]. refine (plain_step env p e c Hwf _). by rewrite Hkd.
    + apply query_step; try done. by rewrite Hkd.
  - destruct Hev as ((Hnow & _) & _). cbn [fst] in Hnow. unfold cmd_timeout_cb.
    destruct (notify_ok_step env KeTimedout c c [] Hwf eq_refl) as (alive & c' & outs & -> & Hok & Hk);
      [by rewrite app_nil_r|constructor|by destruct (cmd_kind c)|]. cbn [mbind outcome_bind].
    destruct alive; [|by exists false, c', outs]. destruct Hok as [Hw Hkd Ho Hno Hal]. specialize (Hk eq_refl).
    destruct (cw_timer c' Hw) as [Hcb Hper]. destruct (expired_same (ce_now env) (cmd_timeout c') Hnow Hper Hcb) as (t & -> & Hcb1 & Hper1).
    cbn [mbind outcome_bind]. eexists true, _, outs. split; [done|]. split; try done.
    destruct Hw. split; try done. cbn. by rewrite Hper1.
Qed.

Lemma cmd_run_ok evs c :
  cmd_wf c -> cmd_events_ok evs c ->
  exists alive c' outs, cmd_run ns_profile evs c = Ok (alive, c') /\ cmd_wf c' /\ cmd_kind c' = cmd_kind c /\
    cmd_out c' = cmd_out c ++ outs /\ Forall (cmd_notify_ok (cmd_kind c)) outs /\
    (alive = false -> has_callback (cmd_kind c) = true -> cmd_told outs).
Proof using.
  clear. revert c. induction evs as [|ev evs IH]; intros c Hwf; cbn [cmd_events_ok cmd_run].
  { intros _. exists true, c, []. rewrite app_nil_r. by split_and!. }
  intros [Hev Hevs]. destruct (cmd_step_ok ev c Hwf Hev) as (alive & c1 & outs & E & [Hwf1 Hk Ho Hno Hal]). rewrite E.
  cbn [mbind outcome_bind]. specialize (Hevs alive c1 E). destruct alive.
  - destruct (IH c1 Hwf1 Hevs) as (alive & c' & outs' & -> & Hwf' & Hk' & Ho' & Hno' & Hal'). rewrite Hk in Hno', Hal'.
    exists alive, c', (outs ++ outs'). split; [done|]. split; [done|]. split; [congruence|]. split; [rewrite Ho', Ho; by rewrite app_assoc|].
    split; [by apply Forall_app|]. intros Ha Hc. destruct (Hal' Ha Hc) as [e He]. exists e. apply elem_of_app. by right.
  - subst evs. exists false, c1, outs. split; [done|]. split_and!; try done. intros Ha Hc. by apply Hal.
Qed.

(** The start of a command. *)
Lemma cmd_start_ok (T : kbucket_t -> Prop) {HT : NearTable T} env kd delay k :
  ordinary (ce_now env) -> delay_ok delay -> kad_id_ok (cmd_keyid kd) -> T k -> (0 < nb_replication)%nat ->
  match kd with KadQuery _ max => 0 <= max | _ => True end ->
  exists c k1, cmd_start ns_profile nb_replication env kd delay k = Ok (c, k1) /\ T k1 /\ cmd_wf c /\ cmd_kind c = kd /\
    cmd_out c = [] /\ is_Some (cmd_closestnode c).
Proof using.
  intros Hnow Hd Hk HTk Hn Hmax. unfold cmd_start, closestnode_start, start_findnode.
  destruct (start_ok (ce_now env) delay timeout_ctor Hnow Hd) as (t & Et & Hcb & _). cbn [cmd_ctor cmd_timeout].
  pose proof (start_period _ _ _ _ Hnow Hd Et) as Hper. rewrite Et. cbn [mbind outcome_bind].
  assert (Hq : FINDNODE_REQUEST <> QNULL) by done.
  destruct (post_start_ok ns_profile T (ce_ns env) (cmd_keyid kd) nb_replication 0 FINDNODE_REQUEST INFINITE_VAL [] k Hnow
    (or_intror eq_refl) Hk Hq HTk (Forall_nil_2 _)) as (ns & k1 & init & E & Hk1 & _ & _ & Hwf & (Et' & En & Eq) & _ & _ & _ & _ & _ & _ & Hnt).
  unfold new_search in E. rewrite E. cbn [mbind outcome_bind]. eexists _, k1. split; [done|]. split; [done|]. split; [|by split_and!; try eexists].
  split; cbn [set_closestnode set_cmd_timeout cmd_ctor cmd_kind cmd_closestnode rpc_db next_rpc cmd_timeout result_recdups]; try done.
  - intros ns2 [= <-]. rewrite En, Eq. split; [done|]. split; [exact Hn|]. split; [done|]. split; [|done].
    unfold timeout_start, timeout_ctor in Hnt. change (external_is_started _) with false in Hnt. cbn [mbind outcome_bind] in Hnt.
    change (delay_is_null INFINITE_VAL) with false in Hnt. cbn [negb dbg_assert] in Hnt. unfold launch_timerext in Hnt.
    change (external_is_started _) with false in Hnt. change (delay_is_null INFINITE_VAL) with false in Hnt.
    change (delay_is_infinite INFINITE_VAL) with true in Hnt. cbn [negb dbg_assert] in Hnt. by injection Hnt as <-.
  - constructor.
  - split; [exact Hcb|]. by rewrite Hper.
  - exists []. split; [constructor|apply dups_null].
Qed.

(* ------------------------------------------------------------------ *)
(** * Lemmas: all the answers *)
(* ------------------------------------------------------------------ *)

(** The answers, each for a rpc, in the order they come. *)
Notation "'answers'" := (list (cmd_env_t * (nat * kad_event_t))).
Definition answer_events (evs : answers) : list (cmd_env_t * cmd_event) := (fun x => (x.1, CmdRpc x.2.1 x.2.2)) <$> evs.
Definition answer_ok (kd : cmd_kind_t) (e : kad_event_t) : Prop :=
  match kd with
  | KadStore _ => is_store_rpc_ok e = true
  | KadDelete _ _ _ => is_delete_rpc_ok e = true
  | KadQuery k _ => is_cnx_err_ok e = true \/ exists rs, e = KeRecdups rs false /\ recs_of_key k rs
  end.
Definition answer_recs (e : kad_event_t) : list kad_rec_t := match e with KeRecdups rs _ => recdups_recs rs | _ => [] end.
Definition nb_fatal (evs : answers) : nat := length (filter (fun x => is_fatal x.2.2 = true) evs).
Definition gathered_recs (evs : answers) : list kad_rec_t := concat ((fun x => answer_recs x.2.2) <$> evs).
Definition cmd_result (kd : cmd_kind_t) (d : kad_recdups_t) : kad_event_t :=
  match kd with KadQuery _ _ => KeRecdups d false | _ => KeCompleted end.

(** A command without a limit to the records, with someone to tell. *)
Definition collects (kd : cmd_kind_t) : Prop :=
  match kd with KadDelete _ _ b => b = true | KadQuery _ max => max = 0 | KadStore _ => True end.

(** One answer: the rpc is forgotten, the failure counted, the records added. *)
Lemma answer_step env p e c rs0 :
  cmd_wf c -> collects (cmd_kind c) -> p ∈ (rpc_db c).*1 -> answer_ok (cmd_kind c) e ->
  gathered (cmd_keyid (cmd_kind c)) rs0 (result_recdups c) ->
  exists d, gathered (cmd_keyid (cmd_kind c)) (rs0 ++ match cmd_kind c with KadQuery _ _ => answer_recs e | _ => [] end) d /\
    cmd_rpc_cb env p e c =
      end_rpc env (cmd_result (cmd_kind c) d)
        (set_result d (set_unreach (nb_unreach_peer c + if is_fatal e then 1 else 0) (rpc_remove p c))).
Proof using.
  clear. intros Hwf Hco ([p' a] & -> & Hin)%list_elem_of_fmap He Hg. cbn [fst]. unfold cmd_rpc_cb.
  destruct (rpc_found c p' a Hwf Hin) as (i & ->).
  assert (Hsame : forall n : nat, (if is_fatal e then set_unreach (S (nb_unreach_peer c)) (rpc_remove p' c) else rpc_remove p' c) =
     set_result (result_recdups c) (set_unreach (nb_unreach_peer c + if is_fatal e then 1 else 0) (rpc_remove p' c))).
  { intros _. destruct (is_fatal e); [by rewrite Nat.add_1_r|rewrite Nat.add_0_r; by destruct c]. }
  destruct (cmd_kind c) as [rs|i' k b|k max] eqn:Hkd; cbn [answer_ok] in He; cbn [cmd_keyid] in *.
  - exists (result_recdups c). rewrite app_nil_r. split; [done|]. unfold store_rpc_cb. rewrite He. cbn [dbg_assert].
    change (nb_unreach_peer (rpc_remove p' c)) with (nb_unreach_peer c). by rewrite (Hsame 0%nat).
  - exists (result_recdups c). rewrite app_nil_r. split; [done|]. unfold delete_rpc_cb. rewrite He. cbn [dbg_assert].
    change (nb_unreach_peer (rpc_remove p' c)) with (nb_unreach_peer c). by rewrite (Hsame 0%nat).
  - cbn [collects] in Hco. subst max. unfold query_rpc_cb. destruct He as [He|(rs & -> & Hrs)].
    + assert (Hf : is_fatal e = true) by exact He. assert (Hr : is_recdups e = false) by (by destruct e).
      assert (Hok : is_findallval_rpc_ok e = true) by (unfold is_findallval_rpc_ok; by rewrite He).
      exists (result_recdups c). rewrite Hok, Hr. cbn [dbg_assert mbind outcome_bind].
      change (nb_unreach_peer (rpc_remove p' c)) with (nb_unreach_peer c). rewrite (Hsame 0%nat).
      split; [|done]. replace (answer_recs e) with ([] : list kad_rec_t) by (by destruct e). by rewrite app_nil_r.
    + pose proof (cw_key c Hwf) as Hkey. rewrite Hkd in Hkey. cbn [cmd_keyid] in Hkey.
      destruct (gathered_update k rs0 rs (result_recdups c) Hkey Hg Hrs) as (d & Ed & Hd). exists d. split; [exact Hd|].
      change (is_findallval_rpc_ok _) with true. change (is_fatal _) with false. change (is_recdups _) with true. cbn [dbg_assert].
      unfold handle_recved_recdups. change (is_findallval_rpc_ok _) with true. change (is_recdups _) with true.
      change (result_recdups (rpc_remove p' c)) with (result_recdups c).
      cbn [dbg_assert KadEvent.get_recdups mbind outcome_bind]. rewrite Ed. cbn [mbind outcome_bind]. change (0 =? 0) with true. cbn [negb andb].
      cbn [mbind outcome_bind]. by rewrite Nat.add_0_r.
Qed.

Lemma answer_wf p n d rs c :
  cmd_wf c -> gathered (cmd_keyid (cmd_kind c)) rs d -> cmd_wf (set_result d (set_unreach n (rpc_remove p c))).
Proof using. clear. intros Hwf Hg. apply (wf_result d rs); [by apply wf_unreach, wf_remove|exact Hg]. Qed.

Lemma remove_ids p (c : kad_cmd_t) l :
  cmd_wf c -> p :: l ≡ₚ (rpc_db c).*1 -> l ≡ₚ (rpc_db (rpc_remove p c)).*1.
Proof using.
  clear. intros Hwf Hp. pose proof (cw_ids c Hwf) as Hnd. cbn [rpc_remove set_rpc_db rpc_db].
  assert (E : (filter (fun r : nat * kad_addr_t => r.1 <> p) (rpc_db c)).*1 = filter (fun q => q <> p) (rpc_db c).*1).
  { clear. induction (rpc_db c) as [|r l IH]; [done|]. cbn [fmap list_fmap]. rewrite !filter_cons.
    destruct (decide (r.1 <> p)); cbn [fmap list_fmap]; [by f_equal|done]. }
  rewrite E, <- Hp, filter_cons, decide_False by (intros Hn; by apply Hn). symmetry.
  rewrite <- Hp in Hnd. apply NoDup_cons in Hnd as [Hn _]. apply reflexive_eq. clear -Hn.
  induction l as [|q l IH]; [done|]. apply not_elem_of_cons in Hn as [Hq Hn]. rewrite filter_cons, decide_True by done. f_equal. by apply IH.
Qed.

(** All the answers, from a state with [rs0] gathered. *)
Lemma answers_run evs c rs0 :
  cmd_wf c -> collects (cmd_kind c) -> rpc_db c <> [] -> (fun x => x.2.1) <$> evs ≡ₚ (rpc_db c).*1 ->
  Forall (fun x => answer_ok (cmd_kind c) x.2.2) evs -> gathered (cmd_keyid (cmd_kind c)) rs0 (result_recdups c) ->
  exists alive c' d, cmd_run ns_profile (answer_events evs) c = Ok (alive, c') /\
    gathered (cmd_keyid (cmd_kind c)) (rs0 ++ match cmd_kind c with KadQuery _ _ => gathered_recs evs | _ => [] end) d /\
    cmd_out c' = cmd_out c ++ [NotifyCmd (if bool_decide (nb_queried_peer c = nb_unreach_peer c + nb_fatal evs)%nat
                                          then KeTimedout else cmd_result (cmd_kind c) d)].
Proof using.
  clear. revert c rs0. induction evs as [|[env [p e]] evs IH]; intros c rs0 Hwf Hco Hne Hp Hok Hg.
  { exfalso. apply Hne. cbn in Hp. symmetry in Hp. apply Permutation_nil_r in Hp. by destruct (rpc_db c). }
  apply Forall_cons in Hok as [He Hok]. cbn [snd] in He.
  cbn [fmap list_fmap snd fst] in Hp. assert (Hin : p ∈ (rpc_db c).*1) by (rewrite <- Hp; by left).
  destruct (answer_step env p e c rs0 Hwf Hco Hin He Hg) as (d & Hd & E).
  cbn [answer_events fmap list_fmap fst snd cmd_run cmd_step]. unfold cmd_step. cbn [fst snd]. rewrite E. clear E.
  set (c1 := set_result d _). pose proof (answer_wf p (nb_unreach_peer c + if is_fatal e then 1 else 0) d _ c Hwf Hd) as Hwf1. fold c1 in Hwf1.
  pose proof (remove_ids p c ((fun x => x.2.1) <$> evs) Hwf Hp) as Hids. change (rpc_db (rpc_remove p c)) with (rpc_db c1) in Hids.
  assert (Ef : (nb_unreach_peer c + nb_fatal ((env, (p, e)) :: evs) = nb_unreach_peer c1 + nb_fatal evs)%nat).
  { unfold nb_fatal. rewrite filter_cons. cbn [snd]. subst c1. cbn [set_result nb_unreach_peer set_unreach].
    destruct (is_fatal e); [rewrite decide_True by done; cbn [length]|rewrite decide_False by done]; lia. }
  rewrite Ef. unfold end_rpc. destruct (rpc_db c1) as [|r rest] eqn:Edb.
  - apply Permutation_nil_r, fmap_nil_inv in Hids. subst evs. cbn [fmap list_fmap].
    change (nb_queried_peer c1) with (nb_queried_peer c). unfold nb_fatal. cbn [filter length]. change (length _) with 0%nat. rewrite Nat.add_0_r.
    set (ev := if bool_decide _ then _ else _). unfold cmd_notify_callback. change (cmd_kind c1) with (cmd_kind c).
    assert (Hcb : forall b, b = ne_tokeep (ce_ns env) -> exists alive c', (let* (alive, c2) := (let c2 := cmd_emit (NotifyCmd ev) c1 in
        if b : bool then Ok (true, c2) else let* c3 := cmd_dtor c2 in Ok (false, c3)) in
        if (alive : bool) then cmd_run ns_profile [] c2 else Ok (false, c2)) = Ok (alive, c') /\ cmd_out c' = cmd_out c ++ [NotifyCmd ev]).
    { intros b _. destruct b; cbn [mbind outcome_bind cmd_run]; [by eexists _, _|].
      destruct (cmd_dtor_spec _ (wf_cmd_emit (NotifyCmd ev) c1 Hwf1)) as [-> _]. cbn [mbind outcome_bind]. by eexists _, _. }
    destruct (Hcb _ eq_refl) as (alive & c' & Ec & Eo). exists alive, c', d.
    split; [|split; [|exact Eo]].
    + destruct (cmd_kind c) as [|? ? []|]; try exact Ec. done.
    + destruct (cmd_kind c); try exact Hd. unfold gathered_recs. cbn [fmap list_fmap concat fst snd]. by rewrite app_nil_r.
  - cbn [mbind outcome_bind]. assert (Hne1 : rpc_db c1 <> []) by (by rewrite Edb).
    rewrite <- Edb in Hids. destruct (IH c1 _ Hwf1 Hco Hne1 Hids Hok Hd) as (alive & c' & d' & E' & Hd' & Eo).
    exists alive, c', d'. split; [exact E'|]. split; [|exact Eo]. change (cmd_kind c1) with (cmd_kind c) in Hd'.
    destruct (cmd_kind c); try (by rewrite !app_nil_r in *). unfold gathered_recs in *. cbn [fmap list_fmap concat fst snd].
    by rewrite app_assoc.
Qed.
End lemmas.

(* ------------------------------------------------------------------ *)
(** * Lemmas: the local database *)
(* ------------------------------------------------------------------ *)

Section local.
Context `{InetLib}.

Definition delete_all (rs : list kad_rec_t) (S : gmap kad_id (kad_rec_t * Z)) := fold_left (fun S r => delete (recid r) S) rs S.
Definition insert_all (f : kad_rec_t -> Z) (rs : list kad_rec_t) (S : gmap kad_id (kad_rec_t * Z)) :=
  fold_left (fun S r => <[recid r := (r, f r)]> S) rs S.

Lemma delete_all_lookup rs S i : delete_all rs S !! i = if decide (i ∈ recid <$> rs) then None else S !! i.
Proof using.
  clear. revert S. induction rs as [|r rs IH]; intros S; [done|]. cbn [delete_all fold_left fmap list_fmap].
  change (fold_left _ rs ?x) with (delete_all rs x). rewrite IH. destruct (decide (i ∈ recid <$> rs)) as [Hi|Hi].
  - rewrite decide_True; [done|by right].
  - destruct (decide (i = recid r)) as [->|Hne].
    + rewrite lookup_delete_eq, decide_True; [done|by left].
    + rewrite lookup_delete_ne by done. rewrite decide_False; [done|]. by intros [|]%elem_of_cons.
Qed.

Lemma insert_all_lookup f rs S i : NoDup (recid <$> rs) ->
  (i ∉ recid <$> rs -> insert_all f rs S !! i = S !! i) /\
  (forall r, r ∈ rs -> recid r = i -> insert_all f rs S !! i = Some (r, f r)).
Proof using.
  clear. revert S. induction rs as [|r rs IH]; intros S Hnd; [split; [done|]; by intros r ?%not_elem_of_nil|].
  cbn [fmap list_fmap] in Hnd. apply NoDup_cons in Hnd as [Hn Hnd]. cbn [insert_all fold_left fmap list_fmap].
  change (fold_left _ rs ?x) with (insert_all f rs x). destruct (IH (<[recid r := (r, f r)]> S) Hnd) as [IH1 IH2]. split.
  - intros [Hne Hi]%not_elem_of_cons. rewrite IH1 by done. by rewrite lookup_insert_ne.
  - intros r' [->|Hr]%elem_of_cons Hi.
    + rewrite IH1 by (by rewrite <- Hi). by rewrite <- Hi, lookup_insert_eq.
    + by apply IH2.
Qed.

Lemma delete_all_size rs S : (spec_size (delete_all rs S) <= spec_size S)%nat.
Proof using.
  clear. revert S. induction rs as [|r rs IH]; intros S; [done|]. cbn [delete_all fold_left].
  change (fold_left _ rs ?x) with (delete_all rs x). etransitivity; [apply IH|apply spec_size_delete].
Qed.

Lemma same_cfg_trans d1 d2 d3 : same_cfg d1 d2 -> same_cfg d2 d3 -> same_cfg d1 d3.
Proof using. clear. unfold same_cfg. intuition congruence. Qed.

Lemma remove_loop_gives rs d : db_wf d -> gives (delete_all rs (db_abs d)) d (remove_loop rs d).
Proof using.
  clear. revert d. induction rs as [|r rs IH]; intros d Hwf; cbn [remove_loop delete_all fold_left]; [by exists d|].
  change (fold_left _ rs ?x) with (delete_all rs x). unfold contain_recid.
  destruct (bool_decide (is_Some (recid_db d !! recid r))) eqn:Eb; cbn [negb].
  - destruct (remove_gives (recid r) d Hwf) as (d1 & -> & Hwf1 & Habs & Hc). cbn [mbind outcome_bind].
    destruct (IH d1 Hwf1) as (d2 & E & Hwf2 & Habs2 & Hc2). exists d2. rewrite Habs in Habs2. split; [done|]. split; [done|].
    split; [done|]. by eapply same_cfg_trans.
  - apply bool_decide_eq_false in Eb. rewrite delete_id; [by apply IH|]. unfold db_abs. rewrite lookup_fmap.
    destruct (recid_db d !! recid r) as [q|]; [destruct Eb; by exists q|done].
Qed.

Lemma update_loop_gives env rs d :
  env_ok env -> db_wf d -> keyid_nodups_ok (db_profile d) = false -> NoDup (recid <$> rs) ->
  Forall (fun r => rec_ids_ok r /\ 0 <= rec_ttl r <= rec_max_ttl (db_profile d) /\ db_abs d !! recid r = None /\
    (rec_max_len (db_profile d) = 0 \/ length (rec_payload r) <= rec_max_len (db_profile d))%nat) rs ->
  (db_max_len (db_profile d) = 0 \/
   spec_size (db_abs d) + sum_list ((fun r => length (rec_payload r)) <$> rs) <= db_max_len (db_profile d))%nat ->
  gives (insert_all (expiry (is_remote_db d) (de_now env)) rs (db_abs d)) d (db_update_loop env rs d).
Proof using.
  clear. intros Henv. revert d. induction rs as [|r rs IH]; intros d Hwf Hdup Hnd Hrs Hsize; cbn [db_update_loop insert_all fold_left]; [by exists d|].
  change (fold_left _ rs ?x) with (insert_all (expiry (is_remote_db d) (de_now env)) rs x).
  apply Forall_cons in Hrs as [(Hids & Httl & Hnew & Hlen) Hrs]. cbn [fmap list_fmap] in Hnd. apply NoDup_cons in Hnd as [Hn Hnd].
  cbn [fmap list_fmap sum_list sum_list_with] in Hsize.
  assert (Hacc : spec_accept (db_profile d) r (db_abs d)).
  { split; [congruence|]. split; [lia|]. split; [done|]. destruct Hsize; [by left|right; cbn in *; lia]. }
  pose proof (store_gives env r d Henv Hwf Hids (proj1 Httl)) as Hg.
  rewrite may_accept_spec, bool_decide_eq_true_2 in Hg by (done || apply Hids). unfold spec_store in Hg. rewrite decide_True, Hnew in Hg by done.
  destruct Hg as (d1 & -> & Hwf1 & Habs & Hc). cbn [mbind outcome_bind]. destruct Hc as (El & Er & Ep).
  destruct (IH d1) as (d2 & E & Hwf2 & Habs2 & Hc2); rewrite ?Ep; try done.
  - apply Forall_forall. intros x Hx. rewrite Forall_forall in Hrs. destruct (Hrs x Hx) as (? & ? & Hx' & ?). split_and!; try done; try lia.
    rewrite Habs, lookup_insert_ne; [done|]. intros Ex. apply Hn. rewrite Ex. by apply list_elem_of_fmap_2.
  - rewrite Habs. pose proof (spec_size_insert (recid r) (r, expiry (is_remote_db d) (de_now env) r) (db_abs d)) as Hi. cbn [fst] in Hi.
    destruct Hsize as [|Hsz]; [by left|right]. cbn in Hsz |- *. lia.
  - exists d2. rewrite Habs, Er in Habs2. split; [done|]. split; [done|]. split; [done|]. by apply (same_cfg_trans d d1).
Qed.
End local.
