(* ===== verification/KadCmdThm.v ===== *)
(** What the commands of Kademlia (KadCmd.v) do, for their callers: the records a
    peer stores replace those of its local database; a command fails no assertion
    whatever happens, while the peers say they have more records only when they
    may; it asks every node its search found and tells its caller once all have
    answered or failed; and what goes wrong when a peer has more records than it
    can give. *)
From stdpp Require Import gmap sorting.
From S2P Require Import Prelude Text Time Timeout GenId Cookie InetAddr KadAddr Kbucket KbucketRep KbucketNear KadRec KadDb KadEvent Nsearch KadSearch KadCmd.

(* ------------------------------------------------------------------ *)
(** * Theorems: the local database *)
(* ------------------------------------------------------------------ *)

Definition recs_len (rs : kad_recdups_t) : nat := sum_list ((fun r => length (rec_payload r)) <$> recdups_recs rs).
Definition fits_local (p : kad_db_profile_t) (rs : kad_recdups_t) (d : kad_db_t) : Prop :=
  (db_max_len p = 0 \/ db_size d + recs_len rs <= db_max_len p)%nat /\
  Forall (fun r => rec_ttl r <= rec_max_ttl p /\ (rec_max_len p = 0 \/ length (rec_payload r) <= rec_max_len p)%nat) (recdups_recs rs).

Lemma recs_ids rs : recid <$> recdups_recs rs = rv_recid <$> recval_db rs.
Proof. unfold recdups_recs. rewrite <- list_fmap_compose. by apply list_fmap_ext. Qed.

Lemma len_le_recs r rs : r ∈ recdups_recs rs -> (length (rec_payload r) <= recs_len rs)%nat.
Proof.
  unfold recs_len. induction 1 as [r l|r r' l Hin IH]; cbn [fmap list_fmap sum_list sum_list_with] in *; [cbn; lia|].
  cbn in *. lia.
Qed.

Section local_thm.
Context `{InetLib}.

Lemma may_accept_fits rs d :
  db_wf d -> keyid_nodups_ok (db_profile d) = false -> may_accept_recdups rs d = true <-> fits_local (db_profile d) rs d.
Proof.
  intros Hwf Hdup. unfold may_accept_recdups, fits_local. fold (recs_len rs).
  assert (Hall : (db_max_len (db_profile d) = 0 \/ db_size d + recs_len rs <= db_max_len (db_profile d))%nat ->
    forallb (fun r => may_accept r d) (recdups_recs rs) = true <->
    Forall (fun r => rec_ttl r <= rec_max_ttl (db_profile d) /\
      (rec_max_len (db_profile d) = 0 \/ length (rec_payload r) <= rec_max_len (db_profile d))%nat) (recdups_recs rs)).
  { intros Hs. rewrite forallb_forall, Forall_forall. setoid_rewrite <- list_elem_of_In. split; intros Hr r Hin; specialize (Hr r Hin);
      pose proof (len_le_recs r rs Hin); unfold may_accept in *; rewrite Hdup in *; cbn [andb] in *.
    - destruct (Z.ltb_spec (rec_max_ttl (db_profile d)) (rec_ttl r)); [done|]. split; [lia|].
      repeat case_bool_decide; cbn [andb] in Hr; try done; lia.
    - destruct Hr as [Ht Hl]. destruct (Z.ltb_spec (rec_max_ttl (db_profile d)) (rec_ttl r)); [lia|].
      repeat case_bool_decide; cbn [andb]; try done; lia. }
  destruct (bool_decide (db_max_len (db_profile d) <> 0)%nat && bool_decide (db_max_len (db_profile d) < db_size d + recs_len rs)%nat) eqn:E.
  - apply andb_true_iff in E as [?%bool_decide_eq_true ?%bool_decide_eq_true]. split; [done|]. intros [Hs _]. lia.
  - assert (Hs : (db_max_len (db_profile d) = 0 \/ db_size d + recs_len rs <= db_max_len (db_profile d))%nat).
    { apply andb_false_iff in E as [?%bool_decide_eq_false|?%bool_decide_eq_false]; lia. }
    rewrite (Hall Hs). intuition.
Qed.

(** C29. What a peer stores replaces what its local database had: when the records
    fit [kad_store_t::store_local_db] ends with every one of them in the database,
    with the date their lifetime gives, whatever lived longer under the same
    identifiers before, and with the other records as they were; when they do not,
    nothing changes and the error is returned. *)
Theorem store_local_overwrites env rs d :
  env_ok env -> db_wf d -> recdups_ok rs -> keyid_nodups_ok (db_profile d) = false -> Forall (fun r => 0 <= rec_ttl r) (recdups_recs rs) ->
  exists ok d', store_local_db env rs d = Ok (ok, d') /\ db_wf d' /\
    (ok = true <-> fits_local (db_profile d) rs d) /\
    (ok = false -> d' = d) /\
    (ok = true ->
      (forall r, r ∈ recdups_recs rs -> db_abs d' !! recid r = Some (r, expiry (is_remote_db d) (de_now env) r)) /\
      (forall i, i ∉ recid <$> recdups_recs rs -> db_abs d' !! i = db_abs d !! i)).
Proof.
  intros Henv Hwf Hrs Hdup Httl. pose proof (may_accept_fits rs d Hwf Hdup) as Hfit. unfold store_local_db.
  destruct (may_accept_recdups rs d) eqn:Em; cbn [negb]; [|exists false, d; by split_and!].
  destruct (proj1 Hfit eq_refl) as [Hs Hall]. destruct Hrs as (Hkey & Hrv & Hnd). rewrite <- recs_ids in Hnd.
  destruct (remove_loop_gives (recdups_recs rs) d Hwf) as (d1 & -> & Hwf1 & Habs1 & (El & Er & Ep)). cbn [mbind outcome_bind].
  destruct (update_loop_gives env (recdups_recs rs) d1) as (d2 & E & Hwf2 & Habs2 & _); rewrite ?Ep; try done.
  - rewrite Forall_forall in Hrv. rewrite Forall_forall in Hall, Httl |- *. intros r Hr. destruct (Hall r Hr) as [Ht Hlen]. specialize (Httl r Hr).
    split; [|split; [done|split; [|done]]].
    + unfold recdups_recs in Hr. apply list_elem_of_fmap in Hr as (rv & -> & Hin). split; [apply (Hrv rv Hin)|exact Hkey].
    + rewrite Habs1, delete_all_lookup, decide_True; [done|by apply list_elem_of_fmap_2].
  - pose proof (delete_all_size (recdups_recs rs) (db_abs d)) as Hds. rewrite Habs1, <- (spec_size_abs d Hwf) in *.
    destruct Hs; [by left|right]. unfold recs_len in *. lia.
  - unfold db_update_recdups. rewrite E. cbn [mbind outcome_bind]. exists true, d2. split; [done|]. split; [done|]. split; [done|].
    split; [done|]. intros _. rewrite Habs2, Er, Habs1. split.
    + intros r Hr. by apply (insert_all_lookup _ _ _ (recid r) Hnd).
    + intros i Hi. rewrite (proj1 (insert_all_lookup _ _ _ i Hnd)) by done. rewrite delete_all_lookup. by rewrite decide_False.
Qed.
End local_thm.

(* ------------------------------------------------------------------ *)
(** * Lemmas *)
(* ------------------------------------------------------------------ *)

Lemma collects_told kd : collects kd -> has_callback kd = true.
Proof. by destruct kd. Qed.

Lemma notify_told `{InetLib} env e c :
  cmd_wf c -> has_callback (cmd_kind c) = true ->
  exists c', cmd_notify_callback env e c = Ok (ne_tokeep (ce_ns env), c') /\ cmd_out c' = cmd_out c ++ [NotifyCmd e].
Proof.
  intros Hwf Hco. pose proof (wf_cmd_emit (NotifyCmd e) c Hwf) as Hwf1. destruct (cmd_dtor_spec _ Hwf1) as [Ed _].
  unfold cmd_notify_callback. rewrite Ed. destruct (cmd_kind c) as [|? ? []|]; try done; by destruct (ne_tokeep (ce_ns env)); eexists.
Qed.

Lemma all_fatal (evs : list (cmd_env_t * (nat * kad_event_t))) n :
  n = length evs ->
  bool_decide (n = 0 + length (filter (fun x => is_fatal x.2.2 = true) evs))%nat = bool_decide (Forall (fun x => is_fatal x.2.2 = true) evs).
Proof.
  intros ->. apply bool_decide_ext. cbn [Nat.add]. split.
  - intros E. apply Forall_forall. intros x Hx. destruct (is_fatal x.2.2) eqn:Ef; [done|].
    pose proof (length_filter_lt (fun x => is_fatal x.2.2 = true) evs x Hx) as Hlt. cbn in Hlt. rewrite Ef in Hlt. specialize (Hlt ltac:(done)). lia.
  - intros Hall. f_equal. symmetry. clear -Hall. induction Hall as [|x l Hx _ IH]; [done|]. by rewrite filter_cons, decide_True, IH.
Qed.

Lemma dups_size k rs d : gathered k (recdups_recs rs) d -> recdups_ok rs -> recdups_size d = recdups_size rs.
Proof.
  intros [_ (Hnd & Hall & Hin & _)] (_ & _ & Hnd'). unfold recdups_size. rewrite <- (length_fmap rv_recid (recval_db d)).
  rewrite <- (length_fmap rv_recid (recval_db rs)). apply Permutation_length, NoDup_Permutation; [done|done|]. intros i. split.
  - intros (rv & -> & Hrv)%list_elem_of_fmap. rewrite Forall_forall in Hall. destruct (Hall rv Hrv) as (l1 & l2 & E & _).
    rewrite <- recs_ids, E, fmap_app. apply elem_of_app. right. by left.
  - intros Hi. apply Hin. by rewrite recs_ids.
Qed.

(* ------------------------------------------------------------------ *)
(** * Theorems: the commands *)
(* ------------------------------------------------------------------ *)


(** C13. What a command does with the nodes its search found, when the peers say
    they have no more records: each node is sent the request, with the cookie it
    gave; if none could be sent the caller is told of a timeout; else, when each
    of the rpcs started has ended, in any order, the caller is told, once: a
    timeout if all failed, and otherwise the completion of a store or of a delete,
    or, for a query without limit, the records of all the answers, one for each
    identifier, the longest lived. *)
Theorem cmd_outcome `{InetLib} profile env arr c
    (Henv : cmd_env_ok env) (Hl : not_late env c) (Hwf : cmd_wf c) (Hco : collects (cmd_kind c)) (Harr : Forall (fun r => addr_ok r.1) arr)
    (Hdb : rpc_db c = []) (Hun : nb_unreach_peer c = 0%nat) (Hres : result_recdups c = recdups_null) :
  exists alive c1 reqs, cmd_closestnode_cb env (KeCaddrArr arr) c = Ok (alive, c1) /\
    Forall2 (fun r o => exists q, o = rpc_request (cmd_kind c) r q) arr reqs /\
    match filter (fun a => ne_start_ok (ce_ns env) a = true) arr.*1 with
    | [] => alive = ne_tokeep (ce_ns env) /\ cmd_out c1 = cmd_out c ++ reqs ++ [NotifyCmd KeTimedout]
    | l => alive = true /\ (rpc_db c1).*2 = l /\ cmd_out c1 = cmd_out c ++ reqs /\
      forall evs, (fun x => x.2.1) <$> evs ≡ₚ (rpc_db c1).*1 -> Forall (fun x => answer_ok (cmd_kind c) x.2.2) evs ->
        exists alive' c2 d, cmd_run profile (answer_events evs) c1 = Ok (alive', c2) /\
          (forall k max, cmd_kind c = KadQuery k max -> dups_of k (gathered_recs evs) d) /\
          cmd_out c2 = cmd_out c1 ++ [NotifyCmd (if bool_decide (Forall (fun x => is_fatal x.2.2 = true) evs) then KeTimedout
                                                 else cmd_result (cmd_kind c) d)]
    end.
Proof.
  unfold cmd_closestnode_cb. change (is_closestnode_ok _) with true. change (is_fatal (KeCaddrArr arr)) with false.
  change (is_caddr_arr _) with true. cbn [dbg_assert negb get_caddr_arr mbind outcome_bind].
  pose proof (wf_no_search c Hwf) as Hwf1. set (c0 := set_closestnode None c) in *.
  destruct (start_rpcs_spec env arr c0 Henv Hl (proj1 (cw_timer c Hwf)) Harr) as (reqs & -> & Hall). cbn [mbind outcome_bind].
  destruct (rpcs_from_spec (ne_start_ok (ce_ns env)) (next_rpc c0) arr) as [Hseq Hsnd]. set (db := rpcs_from _ _ arr) in *.
  assert (Hdba : Forall addr_ok db.*2).
  { rewrite Hsnd. apply Forall_forall. intros a [_ (r & -> & Hr)%list_elem_of_fmap]%list_elem_of_filter. rewrite Forall_forall in Harr. by apply Harr. }
  pose proof (wf_with_rpcs reqs db c0 Hwf1 eq_refl Hseq Hdba) as Hwf2. rewrite <- Hsnd.
  cbn [with_rpcs rpc_db]. change (rpc_db c0) with (rpc_db c). rewrite Hdb. cbn [app].
  set (c1 := with_rpcs reqs db c0) in *. destruct db as [|r rest] eqn:Edb; cbn [fmap list_fmap].
  - assert (Hout : cmd_out c1 ++ [NotifyCmd KeTimedout] = cmd_out c ++ reqs ++ [NotifyCmd KeTimedout]) by (cbn; by rewrite <- app_assoc).
    destruct (notify_told env KeTimedout c1 Hwf2 (collects_told _ Hco)) as (c' & -> & Ho). exists (ne_tokeep (ce_ns env)), c', reqs. by rewrite Ho.
  - eexists true, _, reqs. split; [done|]. split; [done|]. split; [done|]. cbn [set_queried rpc_db]. subst c1. cbn [with_rpcs rpc_db].
    change (rpc_db c0) with (rpc_db c). rewrite Hdb. cbn [app fmap list_fmap]. split; [done|]. split; [done|]. set (c1 := set_queried _ _).
    intros evs Hp Hok. assert (Hg0 : gathered (cmd_keyid (cmd_kind c1)) [] (result_recdups c1)).
    { cbn. rewrite Hres. split; [constructor|apply dups_null]. }
    destruct (answers_run profile evs c1 [] (wf_queried _ _ Hwf2) Hco) as (alive & c2 & d & Er & Hd & Ho); try done.
    { cbn. by rewrite Hdb. }
    { cbn [c1 set_queried rpc_db with_rpcs]. change (rpc_db c0) with (rpc_db c). rewrite Hdb. exact Hp. }
    exists alive, c2, d. split; [exact Er|]. split; [|rewrite Ho; do 3 f_equal].
    + intros k max Hkd. change (cmd_kind c1) with (cmd_kind c) in Hd. rewrite Hkd in Hd. apply Hd.
    + cbn [c1 set_queried nb_queried_peer nb_unreach_peer with_rpcs cmd_kind]. change (nb_unreach_peer c0) with (nb_unreach_peer c).
      rewrite Hun. apply Permutation_length in Hp. cbn [fmap list_fmap length] in Hp. rewrite length_fmap in Hp. unfold nb_fatal. cbn [app length].
      change (length (rest.*1)) with (length (fst <$> rest)) in Hp. rewrite length_fmap in Hp. by rewrite (all_fatal evs) by done.
Qed.

(** A query without limit to the number of records aborts when a peer says it
    has more records than its reply could hold, as the server of the same program
    does: the assertion before the next request supposes a limit. *)
Theorem query_more_aborts `{InetLib} env p a k rs c
    (Hwf : cmd_wf c) (Hkd : cmd_kind c = KadQuery k 0) (Hin : (p, a) ∈ rpc_db c) (Hrs : recs_of_key k rs) :
  cmd_rpc_cb env p (KeRecdups rs true) c = AssertFail.
Proof.
  unfold cmd_rpc_cb. destruct (rpc_found c p a Hwf Hin) as (i & ->). rewrite Hkd. unfold query_rpc_cb.
  change (is_findallval_rpc_ok _) with true. change (is_fatal _) with false. change (is_recdups _) with true. cbn [dbg_assert].
  unfold handle_recved_recdups. change (is_findallval_rpc_ok _) with true. change (is_recdups _) with true.
  cbn [dbg_assert KadEvent.get_recdups mbind outcome_bind]. pose proof (cw_key c Hwf) as Hkey. destruct (cw_result c Hwf) as (rs0 & Hg).
  rewrite Hkd in Hkey, Hg. cbn [cmd_keyid] in *. change (result_recdups (rpc_remove p c)) with (result_recdups c).
  destruct (gathered_update k rs0 rs (result_recdups c) Hkey Hg Hrs) as (d & -> & _). cbn [mbind outcome_bind].
  change (0 =? 0) with true. cbn [negb andb]. reflexivity.
Qed.

(** A query of one peer, which gives some of its records and says it has more.
    The next request asks for the records after the last given, but for a number
    of records that is that still missing, negated, modulo the width of a
    [size_t]; and as that request is not counted, a failure of it makes the caller
    told of a timeout, with no record, although records were received. *)
Theorem query_followup_lost `{InetLib} env env2 p a k max rs e c
    (Henv : cmd_env_ok env) (Hl : not_late env c) (Hwf : cmd_wf c) (Hkd : cmd_kind c = KadQuery k max) (Hdb : rpc_db c = [(p, a)])
    (Hq : nb_queried_peer c = 1%nat) (Hu : nb_unreach_peer c = 0%nat) (Hs : ne_start_ok (ce_ns env) a = true)
    (Hrs : recs_of_key k rs) (Hne : recval_db rs <> []) (Hres : result_recdups c = recdups_null)
    (Hmax : Z.of_nat (recdups_size rs) < max < 2 ^ 64) (He : is_cnx_err_ok e = true) :
  exists c1 q d last_rv alive c2,
    cmd_rpc_cb env p (KeRecdups rs true) c = Ok (true, c1) /\
    last (recval_db rs) = Some last_rv /\ recdups_size d = recdups_size rs /\ dups_of k (recdups_recs rs) d /\
    result_recdups c1 = d /\ rpc_db c1 = [(next_rpc c, a)] /\
    cmd_out c1 = cmd_out c ++ [StartFindallvalRpc (rv_recid last_rv) k false (2 ^ 64 - (max - Z.of_nat (recdups_size rs))) a q] /\
    cmd_rpc_cb env2 (next_rpc c) e c1 = Ok (alive, c2) /\ cmd_out c2 = cmd_out c1 ++ [NotifyCmd KeTimedout].
Proof.
  pose proof (cw_key c Hwf) as Hkey. pose proof (cw_rpcs c Hwf) as Hr. rewrite Hdb in Hr. apply Forall_cons in Hr as [[_ Ha] _]. cbn [snd] in Ha.
  assert (Hg0 : gathered k [] (result_recdups c)) by (rewrite Hres; split; [constructor|apply dups_null]).
  rewrite Hkd in Hkey. destruct (gathered_update k [] rs _ Hkey Hg0 Hrs) as (d & Ed & Hd). cbn [app] in Hd.
  assert (Hsz : recdups_size d = recdups_size rs) by (apply (dups_size k); [exact Hd|apply Hrs]).
  set (c0 := set_result d (rpc_remove p c)).
  assert (Hwf0 : cmd_wf c0) by (apply (wf_result d (recdups_recs rs)); [by apply wf_remove|cbn; by rewrite Hkd]).
  destruct (relaunch_spec env k max rs a c0 Henv Hl Hwf0 Ha Hne) as (q & Er); [lia|cbn; lia|].
  destruct (last (recval_db rs)) as [rv|] eqn:El; [|by apply last_None in El]. rewrite Hs in Er.
  assert (Hc1 : cmd_rpc_cb env p (KeRecdups rs true) c = Ok (true, with_rpcs [StartFindallvalRpc (rv_recid rv) k false
     (2 ^ 64 - (max - Z.of_nat (recdups_size rs))) a q] [(next_rpc c, a)] c0)).
  { unfold cmd_rpc_cb. destruct (rpc_found c p a Hwf) as (i & ->); [rewrite Hdb; by left|]. rewrite Hkd. unfold query_rpc_cb.
    change (is_findallval_rpc_ok _) with true. change (is_fatal _) with false. change (is_recdups _) with true. cbn [dbg_assert].
    unfold handle_recved_recdups. change (is_findallval_rpc_ok _) with true. change (is_recdups _) with true.
    cbn [dbg_assert KadEvent.get_recdups mbind outcome_bind]. change (result_recdups (rpc_remove p c)) with (result_recdups c).
    rewrite Ed. cbn [mbind outcome_bind]. rewrite (proj2 (Z.leb_gt max _)), andb_false_r by lia. fold c0. rewrite Er. cbn [mbind outcome_bind].
    replace (wrap 64 (Z.of_nat (recdups_size (result_recdups c0)) - max)) with (2 ^ 64 - (max - Z.of_nat (recdups_size rs))).
    - unfold end_rpc. cbn [with_rpcs rpc_db c0 set_result rpc_remove set_rpc_db]. rewrite Hdb, filter_cons, decide_False by (intros Hn; by apply Hn).
      done.
    - cbn [c0 set_result result_recdups]. rewrite Hsz. unfold wrap. symmetry.
      replace (Z.of_nat (recdups_size rs) - max) with (2 ^ 64 - (max - Z.of_nat (recdups_size rs)) + -1 * 2 ^ 64) by lia.
      rewrite Z.mod_add by lia. apply Z.mod_small. lia. }
  set (c1 := with_rpcs _ _ c0) in Hc1.
  assert (Hdb1 : rpc_db c1 = [(next_rpc c, a)]).
  { cbn [c1 with_rpcs rpc_db c0 set_result rpc_remove set_rpc_db]. by rewrite Hdb, filter_cons, decide_False by (intros Hn; by apply Hn). }
  assert (H2 : exists alive c2, cmd_rpc_cb env2 (next_rpc c) e c1 = Ok (alive, c2) /\ cmd_out c2 = cmd_out c1 ++ [NotifyCmd KeTimedout]).
  { unfold cmd_rpc_cb. rewrite Hdb1. cbn [list_find]. rewrite decide_True by done. change (cmd_kind c1) with (cmd_kind c). rewrite Hkd.
    unfold query_rpc_cb, is_findallval_rpc_ok. rewrite He. assert (Hf : is_fatal e = true) by exact He.
    assert (Hnr : is_recdups e = false) by (by destruct e). rewrite Hf, Hnr. cbn [orb dbg_assert mbind outcome_bind].
    unfold end_rpc. cbn [set_unreach rpc_db rpc_remove set_rpc_db]. rewrite Hdb1, filter_cons, decide_False by (intros Hn; by apply Hn).
    cbn [filter list_filter]. rewrite bool_decide_eq_true_2 by (cbn; by rewrite Hq, Hu).
    assert (Hcl : cmd_closestnode c0 = None).
    { destruct (cmd_closestnode c) as [ns|] eqn:Ec; [|done]. destruct (cw_search c Hwf ns Ec) as (_ & _ & _ & _ & Hx). by rewrite Hdb in Hx. }
    assert (Hwf1 : cmd_wf c1) by (apply wf_with_rpcs; [done|done|done|by constructor]).
    destruct (notify_told env2 KeTimedout _ (wf_unreach (S (nb_unreach_peer (rpc_remove (next_rpc c) c1))) _ (wf_remove (next_rpc c) c1 Hwf1)))
      as (c2 & E2 & Ho2); [cbn; by rewrite Hkd|]. eexists _, c2. split; [exact E2|exact Ho2]. }
  destruct H2 as (alive & c2 & H2 & H3). exists c1, q, d, rv, alive, c2. split; [exact Hc1|]. split; [done|]. split; [done|].
  split; [apply Hd|]. split; [done|]. split; [exact Hdb1|]. split; [done|]. split; [exact H2|exact H3].
Qed.

(* ------------------------------------------------------------------ *)
(** * Witnesses *)
(* ------------------------------------------------------------------ *)

#[local] Existing Instances quad_lib quad_lib_laws.

(** A local database with the record [rid 1], replaced by a shorter lived one. *)
Definition ex_stored : kad_recdups_t := Recdups (rid 9) [Recval (rid 1) [1; 2] 50; Recval (rid 4) [3] 60].

Lemma store_local_overwrites_witness :
  exists d d', db_abs d = {[rid 1 := (ex_rec1, 300)]} /\ store_local_db (KadDb.ex_env 150) ex_stored d = Ok (true, d') /\
    db_abs d' !! rid 1 = Some (KadRec (rid 1) (rid 9) [1; 2] 50, 200) /\
    db_abs d' !! rid 4 = Some (KadRec (rid 4) (rid 9) [3] 60, 210).
Proof.
  destruct (run_gives [EvStore (KadDb.ex_env 100) ex_rec1] (kad_db_ctor (rid 0) true ex_db_profile)) as (d & Hd & Hwf & Habs & _ & Hr & Hp).
  { apply ctor_wf; [apply rid_ok|apply ex_db_profile_ok]. }
  { split; [split; [by apply ex_env_ok|by split; [apply ex_rec_ok|]]|done]. }
  assert (Hrs : recdups_ok ex_stored).
  { split; [apply rid_ok|]. split; [|apply (bool_decide_unpack _); by vm_compute].
    repeat constructor; try (split; vm_compute; congruence); vm_compute; intuition congruence. }
  assert (Htt : Forall (fun r => 0 <= rec_ttl r) (recdups_recs ex_stored)) by (apply (bool_decide_unpack _); by vm_compute).
  destruct (store_local_overwrites (KadDb.ex_env 150) ex_stored d (ex_env_ok 150 ltac:(done)) Hwf Hrs ltac:(by rewrite Hp) Htt)
    as (ok & d' & E & _ & Hok & _ & Hall).
  assert (Hsz : db_size d = 1%nat) by (rewrite <- (spec_size_abs d Hwf), Habs; by vm_compute).
  assert (ok = true) as ->.
  { apply Hok. rewrite Hp. split; [rewrite Hsz; apply (bool_decide_unpack _); by vm_compute|]. apply (bool_decide_unpack _). by vm_compute. }
  destruct (Hall eq_refl) as [Hin _]. exists d, d'. split; [rewrite Habs; by vm_compute|]. split; [exact E|]. rewrite Hr in Hin.
  split; [refine (Hin (KadRec (rid 1) (rid 9) [1; 2] 50) _); left|refine (Hin (KadRec (rid 4) (rid 9) [3] 60) _); right; left].
Defined.

(** A table of one node, [ex_addr 3]; a record of its own; a search that is
    given a node 5 that does not answer; the answer to the request. *)
Definition ex_cenv (now : Z) (keep : bool) : cmd_env_t := CmdEnv (KadSearch.ex_env now keep) ex_scale.
Definition ex_recs : kad_recdups_t := Recdups ex_target [Recval (ex_id 77) [1; 2] 100].
Definition ex_cevents : list (cmd_env_t * cmd_event) :=
  [(ex_cenv 1010 true, CmdSearch (EvRpc (ex_key 3) (KeAddrArr [ex_addr 5] (ex_cookie 3))));
   (ex_cenv 1020 true, CmdSearch (EvRpc (ex_key 5) KeTimedout));
   (ex_cenv 1030 false, CmdRpc 0 KeCompleted)].

(** The events allowed, of a command that stores or deletes, as a test. *)
Definition not_lateb (env : cmd_env_t) (c : kad_cmd_t) : bool :=
  let r := next_expire_date (cmd_timeout c) - ce_now env in (0 <=? r) && (r <? INFINITE_VAL / 2).
Definition cmd_ev_okb (ev : cmd_env_t * cmd_event) (c : kad_cmd_t) : bool :=
  (0 <=? ce_now ev.1) && (ce_now ev.1 <? INFINITE_VAL / 2) && not_lateb ev.1 c &&
  match ev.2 with
  | CmdSearch (EvRpc p e) =>
    match cmd_closestnode c with Some ns => ns_ev_okb (search_env ev.1, EvRpc p e) ns | None => false end
  | CmdRpc p e => existsb (fun r => bool_decide (r.1 = p)) (rpc_db c) &&
      match cmd_kind c with KadStore _ => is_store_rpc_ok e | KadDelete _ _ _ => is_delete_rpc_ok e | KadQuery _ _ => false end
  | _ => false
  end.
Fixpoint cmd_events_okb profile (evs : list (cmd_env_t * cmd_event)) (c : kad_cmd_t) : bool :=
  match evs with
  | [] => true
  | ev :: evs' => cmd_ev_okb ev c &&
      match cmd_step profile ev c with
      | Ok (alive, c') => if alive : bool then cmd_events_okb profile evs' c' else match evs' with [] => true | _ => false end
      | _ => true
      end
  end.

Lemma not_lateb_ok env c : not_lateb env c = true -> not_late env c.
Proof.
  unfold not_lateb. intros [H1 H2]%andb_true_iff. apply Z.leb_le in H1. apply Z.ltb_lt in H2. right.
  exists (next_expire_date (cmd_timeout c) - ce_now env). unfold ordinary. lia.
Qed.

Lemma cmd_ev_okb_ok ev c : ce_ratio ev.1 = ex_scale -> cmd_ev_okb ev c = true -> cmd_ev_ok ev c.
Proof.
  intros Hs [[Hnow Hl%not_lateb_ok]%andb_true_iff He]%andb_true_iff. apply ex_ordinary in Hnow.
  split; [split; [exact Hnow|rewrite Hs; apply ex_scale_ok]|]. destruct (ev.2) as [[p e|]|p e|]; try done.
  - destruct (cmd_closestnode c) as [ns|]; [|done]. split; [done|]. exists ns. split; [done|]. split; [by apply ns_ev_okb_ok|done].
  - apply andb_true_iff in He as [([p' a] & Hin & Hp%bool_decide_eq_true)%existsb_exists He]. cbn in Hp. subst p'.
    split; [done|]. split; [exists a; by apply list_elem_of_In|]. by destruct (cmd_kind c).
Qed.

Lemma cmd_events_okb_ok profile evs c :
  Forall (fun ev => ce_ratio ev.1 = ex_scale) evs -> cmd_events_okb profile evs c = true -> cmd_events_ok profile evs c.
Proof.
  revert c. induction evs as [|ev evs IH]; intros c; cbn [cmd_events_okb cmd_events_ok]; [done|]. intros [Hs Hss]%Forall_cons [He Hes]%andb_true_iff.
  split; [by apply cmd_ev_okb_ok|]. intros alive c' E. rewrite E in Hes. destruct alive; [by apply IH|]. by destruct evs.
Qed.

Lemma ex_node_table : exists k0 k, kbucket_ctor ex_profile (Ipport (V4 0) 4000) (ex_id 0) true = Ok k0 /\
  kb_run ex_profile KbucketRep.ex_events k0 = Ok k /\ search_table k.
Proof.
  destruct ex_table_rep as (k0 & k & Hk0 & Hk & _). exists k0, k. split; [done|]. split; [done|].
  assert (Hes : events_ok ex_profile KbucketRep.ex_events k0).
  { apply events_okb_ok. clear Hk. vm_compute in Hk0. injection Hk0 as <-. vm_compute. reflexivity. }
  exact (built_search_table ex_profile (Ipport (V4 0) 4000) (ex_id 0) true true KbucketRep.ex_events k0 k
    ex_id_ok eq_refl eq_refl ex_any ex_qualified Hk0 Hes Hk).
Qed.

(** The start on this table, and the run. *)
Definition ex_cmd_started (kd : cmd_kind_t) : option kad_cmd_t :=
  match kbucket_ctor ex_profile (Ipport (V4 0) 4000) (ex_id 0) true with
  | Ok k0 =>
    match kb_run ex_profile KbucketRep.ex_events k0 with
    | Ok k => match cmd_start ex_search_profile 2 (ex_cenv 1000 true) kd 30000 k with Ok (c, _) => Some c | _ => None end
    | _ => None
    end
  | _ => None
  end.
Lemma ex_cmd_started_spec kd k0 k c k1 :
  kbucket_ctor ex_profile (Ipport (V4 0) 4000) (ex_id 0) true = Ok k0 -> kb_run ex_profile KbucketRep.ex_events k0 = Ok k ->
  cmd_start ex_search_profile 2 (ex_cenv 1000 true) kd 30000 k = Ok (c, k1) -> ex_cmd_started kd = Some c.
Proof. unfold ex_cmd_started. by intros -> -> ->. Qed.

Definition ex_couts : list cmd_out_t := [StartStoreRpc ex_recs (ex_cookie 3) (ex_addr 3) 28980; NotifyCmd KeCompleted].

Example ex_cmd_run :
  match ex_cmd_started (KadStore ex_recs) with
  | Some c => match cmd_run ex_search_profile ex_cevents c with
              | Ok (alive, c') => (alive, cmd_out c', cmd_events_okb ex_search_profile ex_cevents c)
              | _ => (true, [], false) end
  | None => (true, [], false)
  end = (false, ex_couts, true).
Proof. vm_compute. reflexivity. Qed.


(** The state of a query once its search is over, and of a peer that has more
    records than it can give; its rpc is [0]. *)
Definition ex_cmd (kd : cmd_kind_t) (nb_queried : nat) (db : list (nat * kad_addr_t)) : kad_cmd_t :=
  KadCmd kd nb_queried 0 recdups_null (Timeout true 30000 31000 (Some (30, 0))) None db (length db) [].

Lemma ex_cmd_wf kd nb b : kad_id_ok (cmd_keyid kd) -> match kd with KadQuery _ max => 0 <= max | _ => True end ->
  addr_ok (ex_addr b) -> cmd_wf (ex_cmd kd nb [(0%nat, ex_addr b)]) /\ cmd_wf (ex_cmd kd nb []).
Proof.
  intros Hk Hm Ha. split; split; try done; cbn.
  - apply (bool_decide_unpack _). by vm_compute.
  - constructor; [|constructor]. split; [cbn; lia|exact Ha].
  - split; [done|]. left. by apply ex_ordinary.
  - exists []. split; [constructor|apply dups_null].
  - constructor.
  - split; [done|]. left. by apply ex_ordinary.
  - exists []. split; [constructor|apply dups_null].
Qed.

Lemma ex_addr_3 : addr_ok (ex_addr 3).
Proof. by apply addr_okb_ok. Qed.
Lemma ex_addr_5 : addr_ok (ex_addr 5).
Proof. by apply addr_okb_ok. Qed.
Lemma ex_recs_ok : recs_of_key ex_target ex_recs.
Proof.
  split; [|by right]. split; [apply ex_target_ok|]. split; [|apply (bool_decide_unpack _); by vm_compute].
  repeat constructor; try (split; vm_compute; congruence); vm_compute; intuition congruence.
Qed.
Lemma ex_cenv_ok now keep : ordinary now -> cmd_env_ok (ex_cenv now keep).
Proof. intros Hn. split; [exact Hn|apply ex_scale_ok]. Qed.

Lemma query_more_aborts_witness :
  cmd_rpc_cb (ex_cenv 1010 true) 0 (KeRecdups ex_recs true) (ex_cmd (KadQuery ex_target 0) 1 [(0%nat, ex_addr 3)]) = AssertFail.
Proof.
  apply (query_more_aborts (ex_cenv 1010 true) 0 (ex_addr 3) ex_target ex_recs).
  - apply ex_cmd_wf; [apply ex_target_ok|done|apply ex_addr_3].
  - reflexivity.
  - by left.
  - apply ex_recs_ok.
Defined.

Lemma query_followup_lost_witness :
  exists c1 q alive c2,
    cmd_rpc_cb (ex_cenv 1010 true) 0 (KeRecdups ex_recs true) (ex_cmd (KadQuery ex_target 10) 1 [(0%nat, ex_addr 3)]) = Ok (true, c1) /\
    cmd_out c1 = [StartFindallvalRpc (ex_id 77) ex_target false 18446744073709551607 (ex_addr 3) q] /\
    cmd_rpc_cb (ex_cenv 1020 true) 1 KeTimedout c1 = Ok (alive, c2) /\ cmd_out c2 = cmd_out c1 ++ [NotifyCmd KeTimedout].
Proof.
  assert (Hl : not_late (ex_cenv 1010 true) (ex_cmd (KadQuery ex_target 10) 1 [(0%nat, ex_addr 3)])) by (by apply not_lateb_ok).
  assert (Hne : recval_db ex_recs <> []) by discriminate.
  assert (Hmax : Z.of_nat (recdups_size ex_recs) < 10 < 2 ^ 64) by (split; vm_compute; reflexivity).
  assert (H10 : 0 <= 10) by lia.
  destruct (query_followup_lost (ex_cenv 1010 true) (ex_cenv 1020 true) 0 (ex_addr 3) ex_target 10 ex_recs KeTimedout
    (ex_cmd (KadQuery ex_target 10) 1 [(0%nat, ex_addr 3)]) (ex_cenv_ok 1010 true (ex_ordinary 1010 eq_refl)) Hl
    (proj1 (ex_cmd_wf (KadQuery ex_target 10) 1 3 ex_target_ok H10 ex_addr_3)) eq_refl eq_refl eq_refl eq_refl eq_refl ex_recs_ok Hne eq_refl
    Hmax eq_refl) as (c1 & q & d & rv & alive & c2 & E1 & Hrv & _ & _ & _ & _ & Ho & E2 & Ho2).
  exists c1, q, alive, c2. split; [exact E1|]. injection Hrv as <-. split; [exact Ho|]. split; [exact E2|exact Ho2].
Defined.

(** Two nodes; the second does not answer. *)
Lemma cmd_outcome_witness :
  exists c1 alive c2 d, cmd_closestnode_cb (ex_cenv 1010 true) (KeCaddrArr [(ex_addr 3, ex_cookie 3); (ex_addr 5, ex_cookie 5)])
      (ex_cmd (KadQuery ex_target 0) 0 []) = Ok (true, c1) /\ length (cmd_out c1) = 2%nat /\
    cmd_run ex_search_profile (answer_events [(ex_cenv 1020 true, (0%nat, KeRecdups ex_recs false)); (ex_cenv 1030 true, (1%nat, KeTimedout))]) c1 =
      Ok (alive, c2) /\
    dups_of ex_target (recdups_recs ex_recs) d /\ cmd_out c2 = cmd_out c1 ++ [NotifyCmd (KeRecdups d false)].
Proof.
  assert (Hl : not_late (ex_cenv 1010 true) (ex_cmd (KadQuery ex_target 0) 0 [])) by (by apply not_lateb_ok).
  assert (Harr : Forall (fun r : kad_caddr_t => addr_ok r.1) [(ex_addr 3, ex_cookie 3); (ex_addr 5, ex_cookie 5)]).
  { constructor; [apply ex_addr_3|]. constructor; [apply ex_addr_5|constructor]. }
  assert (H0 : 0 <= 0) by lia.
  destruct (cmd_outcome ex_search_profile (ex_cenv 1010 true) [(ex_addr 3, ex_cookie 3); (ex_addr 5, ex_cookie 5)] (ex_cmd (KadQuery ex_target 0) 0 [])
    (ex_cenv_ok 1010 true (ex_ordinary 1010 eq_refl)) Hl (proj2 (ex_cmd_wf (KadQuery ex_target 0) 0 3 ex_target_ok H0 ex_addr_3)) eq_refl Harr
    eq_refl eq_refl eq_refl) as (alive & c1 & reqs & E & Hreqs & -> & Hdb & Ho & H).
  destruct (H [(ex_cenv 1020 true, (0%nat, KeRecdups ex_recs false)); (ex_cenv 1030 true, (1%nat, KeTimedout))]) as (alive' & c2 & d & E2 & Hd & Ho2).
  - vm_compute in E. injection E as <-. reflexivity.
  - constructor; [right; exists ex_recs; split; [reflexivity|apply ex_recs_ok]|]. constructor; [by left|constructor].
  - exists c1, alive', c2, d. split; [exact E|]. split; [rewrite Ho; cbn [ex_cmd cmd_out app]; exact (eq_sym (Forall2_length _ _ _ Hreqs))|]. split; [exact E2|].
    split; [exact (Hd ex_target 0 eq_refl)|]. rewrite Ho2. reflexivity.
Defined.
