(* ===== verification/KadRpc.v ===== *)
(** The messages of Kademlia (src/src/neoip_kad/base/rpc_common/, client_rpc/,
    peer/): the headers, the six client rpcs, each a request payload and the
    parsing of its reply, [kad_client_rpc_t], which they share, and
    [kad_peer_t::rpc_server_t], which answers.

    A packet is its bytes.  The connections that carry the packets
    ([kad_clicnx_t], [kad_srvcnx_t]) are outside the model: a request is a list of
    bytes, and an event of the connection an argument.  A [throw] while a packet
    is parsed is caught by the code that parses. *)
From stdpp Require Import gmap.
From S2P Require Import Prelude Codec PktType Text Time Timeout GenId Cookie InetAddr Aview ItemArr KadAddr Kbucket KadRec KadDb KadEvent.

(* ------------------------------------------------------------------ *)
(** * Profile, types, statistics *)
(* ------------------------------------------------------------------ *)

Record kad_rpc_profile_t := RpcProfile {
  ping_rpc_ok : bool;
  store_rpc_ok : bool;
  findnode_rpc_ok : bool;
  findsomeval_rpc_ok : bool;
  findallval_rpc_ok : bool;
  delete_rpc_ok : bool;
  cookie_store_ok : bool;
  cookie_delete_ok : bool;
  replypkt_maxlen : nat;
  req_nonce_in_pkt_ok : bool;
  dest_peerid_in_pkt_ok : bool;
  realmid_in_pkt_ok : bool
}.
Definition cookie_in_reply_ok (p : kad_rpc_profile_t) : bool := cookie_store_ok p || cookie_delete_ok p.

(** In the order they are registered. *)
Inductive kad_pkttype :=
| PING_REQUEST | PING_REPLY | STORE_REQUEST | STORE_REPLY | FINDNODE_REQUEST | FINDNODE_REPLY
| FINDSOMEVAL_REQUEST | FINDSOMEVAL_REPLY | FINDALLVAL_REQUEST | FINDALLVAL_REPLY
| DELETE_REQUEST | DELETE_REPLY | RESET_REPLY.
#[export] Instance kad_pkttype_eq_dec : EqDecision kad_pkttype.
Proof. solve_decision. Defined.
Definition kad_pkttype_name (t : kad_pkttype) : string :=
  match t with
  | PING_REQUEST => "PING_REQUEST" | PING_REPLY => "PING_REPLY"
  | STORE_REQUEST => "STORE_REQUEST" | STORE_REPLY => "STORE_REPLY"
  | FINDNODE_REQUEST => "FINDNODE_REQUEST" | FINDNODE_REPLY => "FINDNODE_REPLY"
  | FINDSOMEVAL_REQUEST => "FINDSOMEVAL_REQUEST" | FINDSOMEVAL_REPLY => "FINDSOMEVAL_REPLY"
  | FINDALLVAL_REQUEST => "FINDALLVAL_REQUEST" | FINDALLVAL_REPLY => "FINDALLVAL_REPLY"
  | DELETE_REQUEST => "DELETE_REQUEST" | DELETE_REPLY => "DELETE_REPLY" | RESET_REPLY => "RESET_REPLY"
  end.
Definition kad_pkttypes : list kad_pkttype :=
  [PING_REQUEST; PING_REPLY; STORE_REQUEST; STORE_REPLY; FINDNODE_REQUEST; FINDNODE_REPLY; FINDSOMEVAL_REQUEST;
   FINDSOMEVAL_REPLY; FINDALLVAL_REQUEST; FINDALLVAL_REPLY; DELETE_REQUEST; DELETE_REPLY; RESET_REPLY].
Definition kad_pkttype_map : outcome (gmap string Z) := register_all (kad_pkttype_name <$> kad_pkttypes) ∅.

(** [t.ITEM()] and [t.is_ITEM()]. *)
Definition kad_get_pkttype (item : kad_pkttype) (t : pkttype_t) : outcome pkttype_t :=
  let* m := kad_pkttype_map in get_pkttype m (kad_pkttype_name item) t.
Definition kad_pkttype_is (item : kad_pkttype) (t : pkttype_t) : outcome bool :=
  let* m := kad_pkttype_map in pkttype_is m (kad_pkttype_name item) t.

Inductive kad_stat_item :=
| NbPing (sent : bool) | NbStore (sent : bool) | NbFindnode (sent : bool) | NbFindsomeval (sent : bool)
| NbFindallval (sent : bool) | NbDelete (sent : bool) | NbByte (sent : bool).
#[export] Instance kad_stat_item_eq_dec : EqDecision kad_stat_item.
Proof. solve_decision. Defined.
Definition kad_stat_t : Type := kad_stat_item -> Z.
Definition kad_stat_reset : kad_stat_t := fun _ => 0.
Definition stat_add (i : kad_stat_item) (n : Z) (st : kad_stat_t) : kad_stat_t :=
  fun j => if decide (i = j) then wrap 64 (st j + n) else st j.

(* ------------------------------------------------------------------ *)
(** * The peer *)
(* ------------------------------------------------------------------ *)

Definition KAD_NONCEID_SIZE : nat := 8.

(** What does not change: the profiles, and the address of the listener. *)
Record kad_peer_cfg_t := PeerCfg {
  pc_rpc : kad_rpc_profile_t;
  pc_pkttype : pkttype_profile_t;
  pc_kbucket : kad_kbucket_profile_t;
  pc_realm : list Z;
  pc_peerid : kad_id;
  pc_listen_aview : ipport_aview_t
}.
Record kad_peer_t := KadPeer {
  kp_kbucket : kbucket_t;
  kp_remote_db : kad_db_t;
  kp_cookie_db : cookie_db_t;
  kp_stat : kad_stat_t
}.
Definition set_kbucket (k : kbucket_t) (p : kad_peer_t) : kad_peer_t := KadPeer k (kp_remote_db p) (kp_cookie_db p) (kp_stat p).
Definition set_remote_db (d : kad_db_t) (p : kad_peer_t) : kad_peer_t := KadPeer (kp_kbucket p) d (kp_cookie_db p) (kp_stat p).
Definition set_stat (st : kad_stat_t) (p : kad_peer_t) : kad_peer_t := KadPeer (kp_kbucket p) (kp_remote_db p) (kp_cookie_db p) st.
Definition count (i : kad_stat_item) (n : Z) (p : kad_peer_t) : kad_peer_t := set_stat (stat_add i n (kp_stat p)) p.

(** The time, whether a ping could be started, and what is drawn at random:
    [re_rand n] are the pairs of numbers below [n], draw after draw. *)
Record rpc_env_t := RpcEnv { re_db : db_env_t; re_ping_ok : bool; re_rand : nat -> nat -> nat * nat }.
Definition re_now (env : rpc_env_t) : Z := de_now (re_db env).

(** [try { .. } catch(serial_except_t &e){ return fail; }] *)
Definition try_parse {A B} (m : outcome A) (fail : B) (k : A -> outcome B) : outcome B :=
  match m with Ok a => k a | Throw _ => Ok fail | AssertFail => AssertFail | Fault => Fault end.

Definition get_if {A} (b : bool) (c : codec A) (dfl : A) (l : list Z) : outcome (A * list Z) :=
  if b then wire_get c l else Ok (dfl, l).
Definition put_if {A} (b : bool) (c : codec A) (a : A) : list Z := if b then wire_put c a else [].

Abbreviation realm_codec := (id_codec KAD_ID_SIZE).
Abbreviation kad_id_codec := (id_codec KAD_ID_SIZE).
Abbreviation nonce_codec := (id_codec KAD_NONCEID_SIZE).
Abbreviation cookie_codec := (id_codec COOKIE_ID_SIZE).

Section rpc.
Context `{InetLib} `{HmacLib} (cfg : kad_peer_cfg_t).

(* ------------------------------------------------------------------ *)
(** * Source address *)
(* ------------------------------------------------------------------ *)

Definition srckaddr_build (remote_oaddr : ipport_addr_t) : outcome kad_addr_t :=
  let* listen_xmit := listen_aview2xmit (pc_listen_aview cfg) remote_oaddr in
  if ipport_is_null listen_xmit then Ok kad_addr_null else Ok (KadAddr listen_xmit (pc_peerid cfg)).

(** The nodes the routing table adds are notified to the database. *)
Fixpoint notify_new_nodes (now : Z) (outs : list kb_out_t) (d : kad_db_t) : outcome kad_db_t :=
  match outs with
  | [] => Ok d
  | NotifyNewNode a :: outs' => let* d1 := notify_new_node now a d in notify_new_nodes now outs' d1
  | _ :: outs' => notify_new_nodes now outs' d
  end.
Definition peer_notify_srckaddr (env : rpc_env_t) (a : kad_addr_t) (p : kad_peer_t) : outcome kad_peer_t :=
  let k := kp_kbucket p in
  let* k1 := notify_srckaddr a (re_ping_ok env) k in
  let* d1 := notify_new_nodes (re_now env) (drop (length (kb_out k)) (kb_out k1)) (kp_remote_db p) in
  Ok (set_remote_db d1 (set_kbucket k1 p)).

Definition srckaddr_parse (env : rpc_env_t) (remote_kaddr : kad_addr_t) (remote_oaddr : ipport_addr_t) (p : kad_peer_t)
    : outcome kad_peer_t :=
  if kad_addr_is_null remote_kaddr then Ok p
  else
    let* dest_oaddr := listen_xmit2dest (oaddr remote_kaddr) remote_oaddr in
    assert! negb (ipport_is_null dest_oaddr) in
    let updated_kaddr := KadAddr dest_oaddr (peerid remote_kaddr) in
    let* q := kad_addr_is_fully_qualified updated_kaddr in
    assert! q in
    peer_notify_srckaddr env updated_kaddr p.

(* ------------------------------------------------------------------ *)
(** * Headers *)
(* ------------------------------------------------------------------ *)

Definition nonce_null : list Z := build_null KAD_NONCEID_SIZE.

(** A header, and the packet that is left; [None] on an error. *)
Definition header_t : Type := pkttype_t * kad_addr_t * list Z.

Definition parse_req_header (pkt : list Z) : outcome (option (header_t * list Z)) :=
  let profile := pc_rpc cfg in
  try_parse (let* (kad_pkttype, l1) := get_pkttype_wire (pkttype_ctor (pc_pkttype cfg)) pkt in
             let* (realmid, l2) := get_if (realmid_in_pkt_ok profile) realm_codec kad_id_null l1 in
             let* (dest_peerid, l3) := get_if (dest_peerid_in_pkt_ok profile) kad_id_codec kad_id_null l2 in
             let* (source_addr, l4) := wire_get kad_addr_codec l3 in
             let* (request_nonce, l5) := get_if (req_nonce_in_pkt_ok profile) nonce_codec nonce_null l4 in
             Ok (kad_pkttype, realmid, dest_peerid, source_addr, request_nonce, l5))
    None (fun '(kad_pkttype, realmid, dest_peerid, source_addr, request_nonce, l5) =>
      if realmid_in_pkt_ok profile && negb (id_eq KAD_ID_SIZE realmid (pc_realm cfg)) then Ok None
      else if dest_peerid_in_pkt_ok profile && negb (id_is_null KAD_ID_SIZE dest_peerid) &&
              negb (id_eq KAD_ID_SIZE dest_peerid (pc_peerid cfg)) then Ok None
      else Ok (Some ((kad_pkttype, source_addr, request_nonce), l5))).

Definition build_req_header (remote_addr : kad_addr_t) (kad_pkttype : pkttype_t) (request_nonce : list Z) : outcome (list Z) :=
  let profile := pc_rpc cfg in
  let* t := put_pkttype kad_pkttype in
  let* src := srckaddr_build (oaddr remote_addr) in
  Ok (t ++ put_if (realmid_in_pkt_ok profile) realm_codec (pc_realm cfg)
        ++ put_if (dest_peerid_in_pkt_ok profile) kad_id_codec (peerid remote_addr)
        ++ wire_put kad_addr_codec src
        ++ put_if (req_nonce_in_pkt_ok profile) nonce_codec request_nonce).

Definition parse_rep_header (pkt : list Z) : outcome (option (header_t * list Z)) :=
  let profile := pc_rpc cfg in
  try_parse (let* (kad_pkttype, l1) := get_pkttype_wire (pkttype_ctor (pc_pkttype cfg)) pkt in
             let* (realmid, l2) := get_if (realmid_in_pkt_ok profile) realm_codec kad_id_null l1 in
             let* (source_addr, l3) := wire_get kad_addr_codec l2 in
             let* (request_nonce, l4) := get_if (req_nonce_in_pkt_ok profile) nonce_codec nonce_null l3 in
             Ok (kad_pkttype, realmid, source_addr, request_nonce, l4))
    None (fun '(kad_pkttype, realmid, source_addr, request_nonce, l4) =>
      if realmid_in_pkt_ok profile && negb (id_eq KAD_ID_SIZE realmid (pc_realm cfg)) then Ok None
      else Ok (Some ((kad_pkttype, source_addr, request_nonce), l4))).

Definition build_rep_header (remote_oaddr : ipport_addr_t) (kad_pkttype : pkttype_t) (request_nonce : list Z) : outcome (list Z) :=
  let profile := pc_rpc cfg in
  let* t := put_pkttype kad_pkttype in
  let* src := srckaddr_build remote_oaddr in
  Ok (t ++ put_if (realmid_in_pkt_ok profile) realm_codec (pc_realm cfg)
        ++ wire_put kad_addr_codec src
        ++ put_if (req_nonce_in_pkt_ok profile) nonce_codec request_nonce).

(* ------------------------------------------------------------------ *)
(** * The server *)
(* ------------------------------------------------------------------ *)

Record request_t := Request {
  rq_pkttype : pkttype_t;
  rq_pkt : list Z;
  rq_nonce : list Z;
  local_oaddr : ipport_addr_t;
  remote_oaddr : ipport_addr_t;
  rq_filter : option (kad_addr_t -> outcome bool)
}.

Definition build_pathid (request : request_t) : list Z :=
  wire_put ip_codec (ipaddr (remote_oaddr request)) ++ wire_put ipport_codec (local_oaddr request).

Definition srv_build_rep_header (item : kad_pkttype) (request : request_t) : outcome (list Z) :=
  let* t := kad_get_pkttype item (rq_pkttype request) in build_rep_header (remote_oaddr request) t (rq_nonce request).

(** The reply, [] for none. *)
Definition handle_ping_request (request : request_t) (p : kad_peer_t) : outcome (list Z * kad_peer_t) :=
  let p1 := count (NbPing false) 1 p in
  if negb (ping_rpc_ok (pc_rpc cfg)) then Ok ([], p1)
  else
    let* hd := srv_build_rep_header PING_REPLY request in
    Ok (hd ++ wire_put ip_codec (ipaddr (remote_oaddr request)), p1).

(** The loop over the records; it stops at the first that is not acceptable. *)
Fixpoint store_loop (env : rpc_env_t) (rs : list kad_rec_t) (d : kad_db_t) : outcome (bool * kad_db_t) :=
  match rs with
  | [] => Ok (true, d)
  | r :: rs' =>
    if negb (may_accept r d) then Ok (false, d)
    else let* d1 := db_update (re_db env) r d in store_loop env rs' d1
  end.
Definition handle_store_request (env : rpc_env_t) (request : request_t) (p : kad_peer_t) : outcome (list Z * kad_peer_t) :=
  let profile := pc_rpc cfg in
  let pathid_req := build_pathid request in
  let p1 := count (NbStore false) 1 p in
  if negb (store_rpc_ok profile) then Ok ([], p1)
  else
    try_parse (let* (kad_recdups, l1) := wire_get_recdups (rq_pkt request) in
               let* (cookie_id, l2) := get_if (cookie_store_ok profile) cookie_codec cookie_id_null l1 in
               Ok (kad_recdups, cookie_id))
      ([], p1) (fun '(kad_recdups, cookie_id) =>
        if cookie_store_ok profile && negb (cookie_check pathid_req cookie_id (kp_cookie_db p1)) then Ok ([], p1)
        else
          let* (ok, d) := store_loop env (recdups_recs kad_recdups) (kp_remote_db p1) in
          let p2 := set_remote_db d p1 in
          if negb ok then Ok ([], p2)
          else let* hd := srv_build_rep_header STORE_REPLY request in Ok (hd, p2)).

Definition handle_findnode_request (request : request_t) (p : kad_peer_t) : outcome (list Z * kad_peer_t) :=
  let profile := pc_rpc cfg in
  let pathid_req := build_pathid request in
  let p1 := count (NbFindnode false) 1 p in
  if negb (findnode_rpc_ok profile) then Ok ([], p1)
  else
    try_parse (wire_get kad_id_codec (rq_pkt request)) ([], p1) (fun '(targetid, _) =>
      let* kad_addr_arr := get_nclosest_addr targetid (nb_replication (pc_kbucket cfg)) (rq_filter request) (kp_kbucket p1) in
      let* hd := srv_build_rep_header FINDNODE_REPLY request in
      Ok (hd ++ wire_put kad_addr_arr_codec kad_addr_arr
             ++ put_if (cookie_in_reply_ok profile) cookie_codec (cookie_generate pathid_req (kp_cookie_db p1)), p1)).

(** How many records a reply holds. *)
Definition reply_nb_rec (requested_nb_rec : Z) (d : kad_recdups_t) : outcome nat :=
  let* max_nb_rec_pkt := nb_serialized_rec_in_size (replypkt_maxlen (pc_rpc cfg)) d in
  Ok (if negb (requested_nb_rec =? 0) && (requested_nb_rec <? Z.of_nat max_nb_rec_pkt) then Z.to_nat requested_nb_rec else max_nb_rec_pkt).

Definition handle_findsomeval_request (env : rpc_env_t) (request : request_t) (p : kad_peer_t) : outcome (list Z * kad_peer_t) :=
  let profile := pc_rpc cfg in
  let pathid_req := build_pathid request in
  let p1 := count (NbFindsomeval false) 1 p in
  if negb (findsomeval_rpc_ok profile) then Ok ([], p1)
  else
    try_parse (let* (keyid, l1) := wire_get kad_id_codec (rq_pkt request) in
               let* (requested_nb_rec, l2) := wire_get u32_codec l1 in
               Ok (keyid, requested_nb_rec))
      ([], p1) (fun '(keyid, requested_nb_rec) =>
        let* hd := srv_build_rep_header FINDSOMEVAL_REPLY request in
        let* kad_recdups := find_by_keyid (re_now env) keyid kad_id_null (kp_remote_db p1) in
        if bool_decide (recdups_size kad_recdups <> 0)%nat then
          let* d1 := randomize_order (re_rand env (recdups_size kad_recdups)) kad_recdups in
          let* max_nb_rec_pkt := reply_nb_rec requested_nb_rec d1 in
          let nb_rec_to_del := (recdups_size d1 - max_nb_rec_pkt)%nat in
          let* d2 := truncate_at_tail nb_rec_to_del d1 in
          Ok (hd ++ wire_put u8_codec 1 ++ wire_put u8_codec (if bool_decide (nb_rec_to_del = 0)%nat then 0 else 1)
                 ++ wire_put_recdups d2, p1)
        else
          let* kad_addr_arr := get_nclosest_addr keyid (nb_replication (pc_kbucket cfg)) (rq_filter request) (kp_kbucket p1) in
          Ok (hd ++ wire_put u8_codec 0 ++ wire_put kad_addr_arr_codec kad_addr_arr
                 ++ put_if (cookie_in_reply_ok profile) cookie_codec (cookie_generate pathid_req (kp_cookie_db p1)), p1)).

(** The records of the key, or with [keyid_ge], if there are none, all those of
    the next one. *)
Definition find_ge (env : rpc_env_t) (recid_gt keyid : kad_id) (keyid_ge : Z) (d : kad_db_t) : outcome kad_recdups_t :=
  let* kad_recdups := find_by_keyid (re_now env) keyid recid_gt d in
  if bool_decide (recdups_size kad_recdups = 0)%nat && negb (keyid_ge =? 0) then
    let* keyid1 := get_next_keyid keyid d in
    find_by_keyid (re_now env) keyid1 kad_id_null d
  else Ok kad_recdups.
Definition handle_findallval_request (env : rpc_env_t) (request : request_t) (p : kad_peer_t) : outcome (list Z * kad_peer_t) :=
  let profile := pc_rpc cfg in
  let p1 := count (NbFindallval false) 1 p in
  if negb (findallval_rpc_ok profile) then Ok ([], p1)
  else
    try_parse (let* (recid_gt, l1) := wire_get kad_id_codec (rq_pkt request) in
               let* (keyid, l2) := wire_get kad_id_codec l1 in
               let* (keyid_ge, l3) := wire_get u8_codec l2 in
               let* (requested_nb_rec, l4) := wire_get u32_codec l3 in
               Ok (recid_gt, keyid, keyid_ge, requested_nb_rec))
      ([], p1) (fun '(recid_gt, keyid, keyid_ge, requested_nb_rec) =>
        let* d0 := find_ge env recid_gt keyid keyid_ge (kp_remote_db p1) in
        let d1 := sort_by_recid d0 in
        let* max_nb_rec_pkt := reply_nb_rec requested_nb_rec d1 in
        let nb_rec_to_del := (recdups_size d1 - max_nb_rec_pkt)%nat in
        let* d2 := truncate_at_tail nb_rec_to_del d1 in
        let* hd := srv_build_rep_header FINDALLVAL_REPLY request in
        Ok (hd ++ wire_put u8_codec (if bool_decide (nb_rec_to_del = 0)%nat then 0 else 1) ++ wire_put_recdups d2, p1)).

Definition handle_delete_request (request : request_t) (p : kad_peer_t) : outcome (list Z * kad_peer_t) :=
  let profile := pc_rpc cfg in
  let pathid_req := build_pathid request in
  let p1 := count (NbDelete false) 1 p in
  if negb (delete_rpc_ok profile) then Ok ([], p1)
  else
    try_parse (let* (recid, l1) := wire_get kad_id_codec (rq_pkt request) in
               let* (cookie_id, l2) := get_if (cookie_delete_ok profile) cookie_codec cookie_id_null l1 in
               Ok (recid, cookie_id))
      ([], p1) (fun '(recid, cookie_id) =>
        if cookie_delete_ok profile && negb (cookie_check pathid_req cookie_id (kp_cookie_db p1)) then Ok ([], p1)
        else
          let* d := db_remove recid (kp_remote_db p1) in
          let* hd := srv_build_rep_header DELETE_REPLY request in
          Ok (hd, set_remote_db d p1)).

(** The last class of the remote address that holds chooses the filter. *)
Definition choose_filter (a : ip_addr_t) : outcome (option (kad_addr_t -> outcome bool)) :=
  let* public := is_public a in
  let* private := is_private a in
  let* linklocal := is_linklocal a in
  let* localhost := is_localhost a in
  Ok (if (localhost : bool) then Some filter_fct_dstlocalhost
      else if (linklocal : bool) then Some filter_fct_dstlinklocal
      else if (private : bool) then Some filter_fct_dstprivate
      else if (public : bool) then Some filter_fct_dstpublic
      else None).

(** The tests of the type, in order. *)
Definition dispatch (env : rpc_env_t) (request : request_t) (p : kad_peer_t) : outcome (list Z * kad_peer_t) :=
  let pkttype := rq_pkttype request in
  let* ping := kad_pkttype_is PING_REQUEST pkttype in
  if (ping : bool) then handle_ping_request request p
  else
    let* store := kad_pkttype_is STORE_REQUEST pkttype in
    if (store : bool) then handle_store_request env request p
    else
      let* findnode := kad_pkttype_is FINDNODE_REQUEST pkttype in
      if (findnode : bool) then handle_findnode_request request p
      else
        let* findsomeval := kad_pkttype_is FINDSOMEVAL_REQUEST pkttype in
        if (findsomeval : bool) then handle_findsomeval_request env request p
        else
          let* findallval := kad_pkttype_is FINDALLVAL_REQUEST pkttype in
          if (findallval : bool) then handle_findallval_request env request p
          else
            let* del := kad_pkttype_is DELETE_REQUEST pkttype in
            if (del : bool) then handle_delete_request request p else AssertFail.

Definition handle_request_pkt (env : rpc_env_t) (pkt : list Z) (local_oaddr remote_oaddr : ipport_addr_t) (p : kad_peer_t)
    : outcome (list Z * kad_peer_t) :=
  let p1 := count (NbByte false) (Z.of_nat (length pkt)) p in
  let* header := parse_req_header pkt in
  match header with
  | None => Ok ([], p1)
  | Some ((pkttype, source_addr, request_nonce), pkt1) =>
    let* p2 := srckaddr_parse env source_addr remote_oaddr p1 in
    let* filter := choose_filter (ipaddr remote_oaddr) in
    let request := Request pkttype pkt1 request_nonce local_oaddr remote_oaddr filter in
    let* (pkt_reply, p3) := dispatch env request p2 in
    Ok (pkt_reply, count (NbByte true) (Z.of_nat (length pkt_reply)) p3)
  end.

(* ------------------------------------------------------------------ *)
(** * The client rpcs *)
(* ------------------------------------------------------------------ *)

(** One constructor per class of rpc, with the arguments of its [start]. *)
Inductive kad_rpc_t :=
| PingRpc
| StoreRpc (recdups : kad_recdups_t) (cookie_id : cookie_id_t)
| FindnodeRpc (targetid : kad_id)
| FindsomevalRpc (keyid : kad_id) (max_nb_record : Z)
| FindallvalRpc (recid_gt keyid : kad_id) (keyid_ge : bool) (max_nb_record : Z)
| DeleteRpc (recid : kad_id) (cookie_id : cookie_id_t).

Definition rpc_request_type (r : kad_rpc_t) : kad_pkttype :=
  match r with
  | PingRpc => PING_REQUEST | StoreRpc _ _ => STORE_REQUEST | FindnodeRpc _ => FINDNODE_REQUEST
  | FindsomevalRpc _ _ => FINDSOMEVAL_REQUEST | FindallvalRpc _ _ _ _ => FINDALLVAL_REQUEST | DeleteRpc _ _ => DELETE_REQUEST
  end.
Definition rpc_reply_type (r : kad_rpc_t) : kad_pkttype :=
  match r with
  | PingRpc => PING_REPLY | StoreRpc _ _ => STORE_REPLY | FindnodeRpc _ => FINDNODE_REPLY
  | FindsomevalRpc _ _ => FINDSOMEVAL_REPLY | FindallvalRpc _ _ _ _ => FINDALLVAL_REPLY | DeleteRpc _ _ => DELETE_REPLY
  end.
Definition rpc_stat (r : kad_rpc_t) : kad_stat_item :=
  match r with
  | PingRpc => NbPing true | StoreRpc _ _ => NbStore true | FindnodeRpc _ => NbFindnode true
  | FindsomevalRpc _ _ => NbFindsomeval true | FindallvalRpc _ _ _ _ => NbFindallval true | DeleteRpc _ _ => NbDelete true
  end.

(** [build_request_payload] of each. *)
Definition store_payload (recdups : kad_recdups_t) (cookie_id : cookie_id_t) : list Z :=
  wire_put_recdups recdups ++ put_if (cookie_store_ok (pc_rpc cfg)) cookie_codec cookie_id.
Definition findnode_payload (targetid : kad_id) : list Z := wire_put kad_id_codec targetid.
Definition findsomeval_payload (keyid : kad_id) (max_nb_record : Z) : list Z :=
  wire_put kad_id_codec keyid ++ wire_put u32_codec (wrap 32 max_nb_record).
Definition findallval_payload (recid_gt keyid : kad_id) (keyid_ge : bool) (max_nb_record : Z) : list Z :=
  wire_put kad_id_codec recid_gt ++ wire_put kad_id_codec keyid ++ wire_put u8_codec (if keyid_ge then 1 else 0)
    ++ wire_put u32_codec (wrap 32 max_nb_record).
Definition delete_payload (recid : kad_id) (cookie_id : cookie_id_t) : list Z :=
  wire_put kad_id_codec recid ++ put_if (cookie_delete_ok (pc_rpc cfg)) cookie_codec cookie_id.
Definition build_request_payload (r : kad_rpc_t) : list Z :=
  match r with
  | PingRpc => []
  | StoreRpc rs c => store_payload rs c
  | FindnodeRpc t => findnode_payload t
  | FindsomevalRpc k max => findsomeval_payload k max
  | FindallvalRpc i k ge max => findallval_payload i k ge max
  | DeleteRpc i c => delete_payload i c
  end.

(** [kad_listener_t::notify_echoed_local_ipaddr]: the address told to
    [ndiag_watch_t], if any. *)
Definition notify_echoed_local_ipaddr (echoed_ipaddr : ip_addr_t) (remote_addr : kad_addr_t) : outcome (option ip_addr_t) :=
  let* p := is_public (ipaddr (oaddr remote_addr)) in
  if negb p then Ok None
  else let* q := is_public echoed_ipaddr in if negb q then Ok None else Ok (Some echoed_ipaddr).

(** [reply_payload_cb] of each. *)
Definition ping_reply_payload_cb (remote_addr : kad_addr_t) (pkt : list Z) : outcome (kad_event_t * option ip_addr_t) :=
  try_parse (wire_get ip_codec pkt) (KeNone, None) (fun '(echoed_local_ipaddr, _) =>
    let* n := notify_echoed_local_ipaddr echoed_local_ipaddr remote_addr in Ok (KeCompleted, n)).
Definition findnode_reply_payload_cb (pkt : list Z) : outcome kad_event_t :=
  try_parse (let* (kad_addr_arr, l1) := wire_get kad_addr_arr_codec pkt in
             let* (cookie_id, l2) := get_if (cookie_in_reply_ok (pc_rpc cfg)) cookie_codec cookie_id_null l1 in
             Ok (KeAddrArr kad_addr_arr cookie_id)) KeNone Ok.
Definition findsomeval_reply_payload_cb (pkt : list Z) : outcome kad_event_t :=
  try_parse (let* (record_found, l1) := wire_get u8_codec pkt in
             if negb (record_found =? 0) then
               let* (has_more_record, l2) := wire_get u8_codec l1 in
               let* (kad_recdups, l3) := wire_get_recdups l2 in
               Ok (KeRecdups kad_recdups (negb (has_more_record =? 0)))
             else
               let* (kad_addr_arr, l2) := wire_get kad_addr_arr_codec l1 in
               let* (cookie_id, l3) := get_if (cookie_in_reply_ok (pc_rpc cfg)) cookie_codec cookie_id_null l2 in
               Ok (KeAddrArr kad_addr_arr cookie_id)) KeNone Ok.
Definition findallval_reply_payload_cb (pkt : list Z) : outcome kad_event_t :=
  try_parse (let* (has_more_record, l1) := wire_get u8_codec pkt in
             let* (kad_recdups, l2) := wire_get_recdups l1 in
             Ok (KeRecdups kad_recdups (negb (has_more_record =? 0)))) KeNone Ok.
Definition reply_payload_cb (r : kad_rpc_t) (remote_addr : kad_addr_t) (pkt : list Z) : outcome (kad_event_t * option ip_addr_t) :=
  match r with
  | PingRpc => ping_reply_payload_cb remote_addr pkt
  | StoreRpc _ _ | DeleteRpc _ _ => Ok (KeCompleted, None)
  | FindnodeRpc _ => let* e := findnode_reply_payload_cb pkt in Ok (e, None)
  | FindsomevalRpc _ _ => let* e := findsomeval_reply_payload_cb pkt in Ok (e, None)
  | FindallvalRpc _ _ _ _ => let* e := findallval_reply_payload_cb pkt in Ok (e, None)
  end.

(* ------------------------------------------------------------------ *)
(** * kad_client_rpc_t *)
(* ------------------------------------------------------------------ *)

Record kad_client_rpc_t := ClientRpc {
  cr_callback : kad_rpc_t;
  cr_remote_addr : kad_addr_t;
  cr_request_nonce : list Z;
  cr_reply_pkttype : pkttype_t;
  cr_creation_date : Z
}.

(** The rpc, the request sent, and the peer: [nonce] is drawn at random;
    [start_ok] is whether the connection could be started. *)
Definition client_rpc_start (now : Z) (r : kad_rpc_t) (remote_addr : kad_addr_t) (nonce : list Z) (start_ok : bool) (p : kad_peer_t)
    : outcome (bool * kad_client_rpc_t * list Z * kad_peer_t) :=
  let pkttype := pkttype_ctor (pc_pkttype cfg) in
  let request_payload := build_request_payload r in
  let* request_pkttype := kad_get_pkttype (rpc_request_type r) pkttype in
  let* reply_pkttype := kad_get_pkttype (rpc_reply_type r) pkttype in
  let* q := ipport_is_fully_qualified (oaddr remote_addr) in
  assert! q in
  let* request_header := build_req_header remote_addr request_pkttype nonce in
  let c := ClientRpc r remote_addr nonce reply_pkttype now in
  Ok (start_ok, c, request_header ++ request_payload, if start_ok then count (rpc_stat r) 1 p else p).

(** The event for the caller, [KeNone] for none, and the address echoed. *)
Definition handle_reply (env : rpc_env_t) (c : kad_client_rpc_t) (remote_oaddr : ipport_addr_t) (pkt : list Z) (p : kad_peer_t)
    : outcome (kad_event_t * option ip_addr_t * kad_peer_t) :=
  let* header := parse_rep_header pkt in
  match header with
  | None => Ok (KeNone, None, p)
  | Some ((pkttype, source_addr, incoming_nonce), pkt1) =>
    if req_nonce_in_pkt_ok (pc_rpc cfg) && negb (id_eq KAD_NONCEID_SIZE incoming_nonce (cr_request_nonce c)) then Ok (KeNone, None, p)
    else if negb (pkttype_eq pkttype (cr_reply_pkttype c)) then Ok (KeNone, None, p)
    else
      let* p1 := srckaddr_parse env source_addr remote_oaddr p in
      let* (e, echoed) := reply_payload_cb (cr_callback c) (cr_remote_addr c) pkt1 in
      Ok (e, echoed, p1)
  end.

Definition client_clicnx_cb (env : rpc_env_t) (c : kad_client_rpc_t) (remote_oaddr : ipport_addr_t) (e : kad_event_t) (p : kad_peer_t)
    : outcome (kad_event_t * option ip_addr_t * kad_peer_t) :=
  assert! is_cnx_ok e in
  if is_fatal e then
    let* elapsed_delay := delay_sub (re_now env) (cr_creation_date c) in
    let* k := notify_failed_rpc (pc_kbucket cfg) (peerid (cr_remote_addr c)) (is_fatal e) (is_timedout e) elapsed_delay (kp_kbucket p) in
    Ok (e, None, set_kbucket k p)
  else
    let* pkt := get_recved_data e in
    handle_reply env c remote_oaddr pkt p.
End rpc.
