(* ===== verification/KadRpcThm.v ===== *)
(** The messages of Kademlia: what a request does to the peer that receives it
    and what the caller of the rpc is told of the reply; and which packets stop
    the program that receives them. *)
From stdpp Require Import gmap.
From S2P Require Import Prelude Serial Codec PktType Text Time Timeout GenId Cookie InetAddr Aview ItemArr KadAddr Kbucket KbucketRep KbucketNear KadRec KadDb KadEvent Nsearch KadSearch KadRpc.

(** A cast by [cbn] would have the kernel evaluate the table of the types. *)
Lemma bind_ok {A B} (a : A) (f : A -> outcome B) : (Ok a ≫= f) = f a.
Proof. done. Qed.

(* ------------------------------------------------------------------ *)
(** * Types of packets *)
(* ------------------------------------------------------------------ *)

Definition kad_type_idx (t : kad_pkttype) : nat :=
  match t with
  | PING_REQUEST => 0 | PING_REPLY => 1 | STORE_REQUEST => 2 | STORE_REPLY => 3 | FINDNODE_REQUEST => 4 | FINDNODE_REPLY => 5
  | FINDSOMEVAL_REQUEST => 6 | FINDSOMEVAL_REPLY => 7 | FINDALLVAL_REQUEST => 8 | FINDALLVAL_REPLY => 9
  | DELETE_REQUEST => 10 | DELETE_REPLY => 11 | RESET_REPLY => 12
  end%nat.
Definition kad_nb_types : Z := 13.
Definition kad_type (p : pkttype_profile_t) (t : kad_pkttype) : pkttype_t := Pkttype p (pt_offset p + Z.of_nat (kad_type_idx t)).

Definition is_request (t : kad_pkttype) : bool :=
  match t with
  | PING_REQUEST | STORE_REQUEST | FINDNODE_REQUEST | FINDSOMEVAL_REQUEST | FINDALLVAL_REQUEST | DELETE_REQUEST => true
  | _ => false
  end.

Definition kad_names : list string := kad_pkttype_name <$> kad_pkttypes.
Lemma kad_type_at t : kad_names !! kad_type_idx t = Some (kad_pkttype_name t).
Proof. by destruct t. Qed.
Lemma kad_type_idx_inj t u : kad_type_idx t = kad_type_idx u -> t = u.
Proof. by destruct t, u. Qed.

Lemma kad_map_spec : exists m, kad_pkttype_map = Ok m /\ numbered kad_names m.
Proof.
  apply init_map_spec; [|done]. apply (bool_decide_unpack _). by vm_compute.
Qed.

Section types.
Context (p : pkttype_profile_t) (Hp : profile_for kad_nb_types p).

Lemma kad_get_spec t x : pt_profile x = p -> kad_get_pkttype t x = Ok (kad_type p t).
Proof using Hp.
  intros Hx. unfold kad_get_pkttype. destruct kad_map_spec as (m & -> & Hm). cbn [mbind outcome_bind].
  by apply (get_pkttype_spec kad_names m p Hm Hp _ _ _ (kad_type_at t)).
Qed.

Lemma kad_is_spec t j x :
  pt_profile x = p -> pkttype_idx x = pt_offset p + Z.of_nat j -> kad_pkttype_is t x = Ok (bool_decide (kad_type_idx t = j)).
Proof using Hp.
  intros Hx Hj. unfold kad_pkttype_is. destruct kad_map_spec as (m & -> & Hm). cbn [mbind outcome_bind].
  by apply (pkttype_is_spec kad_names m p Hm Hp _ _ _ _ (kad_type_at t)).
Qed.

Lemma kad_type_eq t u : pkttype_eq (kad_type p t) (kad_type p u) = bool_decide (t = u).
Proof using.
  unfold pkttype_eq, kad_type. cbn [pkttype_idx]. case_bool_decide as E; [subst; by apply Z.eqb_eq|].
  apply Z.eqb_neq. intros H. apply E, kad_type_idx_inj. lia.
Qed.

(** A type on the wire. *)
Lemma kad_type_wire t : exists bs, put_pkttype (kad_type p t) = Ok bs /\ bytes_ok bs /\
  forall rest, get_pkttype_wire (pkttype_ctor p) (bs ++ rest) = Ok (kad_type p t, rest).
Proof using Hp.
  pose proof (offset_bounds kad_names p Hp (kad_type_idx t)) as Hb. destruct Hb as (Hb & _); [by destruct t; vm_compute; lia|].
  destruct (profile_put_get kad_nb_types p _ [] ltac:(done) Hp Hb) as (bs & Ep & _ & _ & Hbs).
  exists bs. split; [exact Ep|]. split; [done|]. intros rest.
  destruct (profile_put_get kad_nb_types p _ rest ltac:(done) Hp Hb) as (bs' & Ep' & Eg & _).
  assert (bs' = bs) as -> by congruence. unfold get_pkttype_wire. cbn [pkttype_ctor pt_profile]. by rewrite Eg.
Qed.

End types.

(* ------------------------------------------------------------------ *)
(** * Reading *)
(* ------------------------------------------------------------------ *)

(** A buffer that holds given bytes. *)
Lemma serial_of l : wf (Serial (Some <$> l) 0 (length l) 256) /\ contents (Serial (Some <$> l) 0 (length l) 256) = Some <$> l.
Proof.
  split.
  - split; [|cbn; lia]. unfold is_sane, tail_freelen, head_freelen, used_length, full_length. cbn [full_data used_off used_len]. rewrite length_fmap.
    repeat case_bool_decide; done || lia.
  - unfold contents. cbn. by rewrite <- (length_fmap Some l), firstn_all.
Qed.

Lemma wire_get_total {A} (c : codec A) `{!CodecLaws c} l : bytes_ok l ->
  (exists a rest, wire_get c l = Ok (a, rest) /\ codec_ok c a /\ bytes_ok rest) \/ exists e, wire_get c l = Throw e.
Proof.
  intros Hl. destruct (serial_of l) as [Hwf Hc]. pose proof (get_spec (c := c) l _ Hwf Hl Hc) as Hg. unfold get_refines in Hg.
  destruct (wire_get c l) as [[a rest]|e| |] eqn:E; [left|right; by exists e|done..].
  exists a, rest. split; [done|]. by apply (wire_get_valid (c := c) l).
Qed.

Lemma wire_recdups_total l : bytes_ok l ->
  (exists d rest, wire_get_recdups l = Ok (d, rest) /\ recdups_ok d /\ bytes_ok rest) \/ exists e, wire_get_recdups l = Throw e.
Proof.
  intros Hl. destruct (serial_of l) as [Hwf Hc]. pose proof (get_recdups_spec l _ Hwf Hl Hc) as Hg.
  destruct (wire_get_recdups l) as [[d rest]|e| |] eqn:E; [left|right; by exists e|done..].
  exists d, rest. split; [done|]. split; [apply Hg|]. clear Hg. unfold wire_get_recdups in E.
  destruct (wire_get u32_codec l) as [[n l1]|e| |] eqn:En; cbn [mbind outcome_bind] in E; try done.
  apply (wire_get_valid (c := u32_codec)) in En as [_ Hl1]; [|done]. destruct (n =? 0); [by injection E as <- <-|].
  destruct (wire_get (id_codec _) l1) as [[k l2]|e| |] eqn:Ek; cbn [mbind outcome_bind] in E; try done.
  apply (wire_get_valid (c := id_codec KAD_ID_SIZE)) in Ek as [Hk Hl2]; [|done].
  destruct (wire_get_item_list _ _ l2) as [[db l3]|e| |] eqn:Edb; cbn [mbind outcome_bind] in E; try done.
  apply (wire_items_valid recval_codec) in Edb as (_ & _ & Hl3); [|done].
  destruct (recdups_update_loop _ _); cbn [mbind outcome_bind] in E; try done. by injection E as <- <-.
Qed.

Lemma get_if_total {A} b (c : codec A) `{!CodecLaws c} dfl l : bytes_ok l -> codec_ok c dfl ->
  (exists a rest, get_if b c dfl l = Ok (a, rest) /\ codec_ok c a /\ bytes_ok rest) \/ exists e, get_if b c dfl l = Throw e.
Proof. intros Hl Hd. destruct b; [by apply wire_get_total|]. left. by exists dfl, l. Qed.
Lemma get_if_put {A} b (c : codec A) `{!CodecLaws c} dfl a rest : codec_ok c a ->
  get_if b c dfl (put_if b c a ++ rest) = Ok (if b then a else dfl, rest).
Proof. intros Ha. destruct b; [by apply wire_get_put|done]. Qed.
Lemma wire_get_all {A} (c : codec A) `{!CodecLaws c} a : codec_ok c a -> wire_get c (wire_put c a) = Ok (a, []).
Proof. intros Ha. rewrite <- (app_nil_r (wire_put c a)). by apply wire_get_put. Qed.
Lemma get_if_all {A} b (c : codec A) `{!CodecLaws c} dfl a : codec_ok c a -> get_if b c dfl (put_if b c a) = Ok (if b then a else dfl, []).
Proof. intros Ha. rewrite <- (app_nil_r (put_if b c a)). by apply get_if_put. Qed.
Lemma put_if_bytes {A} b (c : codec A) `{!CodecLaws c} a : codec_ok c a -> bytes_ok (put_if b c a).
Proof. intros Ha. destruct b; [by apply wire_put_bytes|constructor]. Qed.

(** A type that is read has the profile, and a number that it reserves; another
    number stops the program. *)
Lemma get_type_total p l : profile_for kad_nb_types p -> bytes_ok l ->
  (exists t rest, get_pkttype_wire (pkttype_ctor p) l = Ok (t, rest) /\
     pt_profile t = p /\ (exists j, pkttype_idx t = pt_offset p + Z.of_nat j) /\ bytes_ok rest) \/
  (exists e, get_pkttype_wire (pkttype_ctor p) l = Throw e) \/ get_pkttype_wire (pkttype_ctor p) l = AssertFail.
Proof.
  intros Hp Hl. unfold get_pkttype_wire, profile_unserialize. cbn [pkttype_ctor pt_profile].
  destruct (negb (profile_is_null p)); [cbn [dbg_assert]|by right; right].
  assert (Hk : forall (c : codec Z), CodecLaws c ->
    (exists t rest, (let* (val, rest) := (let* (val, rest) := wire_get c l in assert! in_interval p val in Ok (val, rest)) in
       Ok (Pkttype p val, rest)) = Ok (t, rest) /\ pt_profile t = p /\ (exists j, pkttype_idx t = pt_offset p + Z.of_nat j) /\ bytes_ok rest) \/
    (exists e, (let* (val, rest) := (let* (val, rest) := wire_get c l in assert! in_interval p val in Ok (val, rest)) in Ok (Pkttype p val, rest)) = Throw e) \/
    (let* (val, rest) := (let* (val, rest) := wire_get c l in assert! in_interval p val in Ok (val, rest)) in Ok (Pkttype p val, rest)) = AssertFail).
  { intros c Hc. destruct (wire_get_total c l Hl) as [(v & rest & -> & _ & Hrest)|[e ->]]; cbn [mbind outcome_bind]; [|by right; left; exists e].
    destruct (in_interval p v) eqn:Ei; [left|by right; right]. cbn [dbg_assert mbind outcome_bind]. eexists _, _. split; [done|].
    split; [done|]. split; [|done]. apply (in_interval_spec kad_nb_types) in Ei; [|done..]. exists (Z.to_nat (v - pt_offset p)). cbn [pkttype_idx]. lia. }
  destruct (serial_type p); [by right; right|apply Hk, _..|by right; right].
Qed.

(* ------------------------------------------------------------------ *)
(** * The peer *)
(* ------------------------------------------------------------------ *)

(** Addresses the code accepts and that fit in a packet. *)
Definition wire_addr (a : ipport_addr_t) : Prop := codec_ok ipport_codec a.
Definition checked_addr `{InetLib} (a : kad_addr_t) : Prop := addr_ok a /\ codec_ok kad_addr_codec a.

Record cfg_ok `{InetLib} (cfg : kad_peer_cfg_t) : Prop := {
  co_types : profile_for kad_nb_types (pc_pkttype cfg);
  co_realm : kad_id_ok (pc_realm cfg);
  co_peerid : kad_id_ok (pc_peerid cfg);
  co_qualified : is_fully_qualified KAD_ID_SIZE (pc_peerid cfg) = true;
  co_aview : is_run_ok (pc_listen_aview cfg) = Ok true;
  co_lview : wire_addr (lview (pc_listen_aview cfg));
  co_pview : wire_addr (pview (pc_listen_aview cfg));
  co_maxlen : 24 <= Z.of_nat (replypkt_maxlen (pc_rpc cfg)) < 2 ^ 32;
  co_replication : Z.of_nat (nb_replication (pc_kbucket cfg)) < 2 ^ 32
}.

(** The records of the database fit in a packet. *)
Definition wire_records (S : db_spec) : Prop := map_Forall (fun _ q => blob_ok (rec_payload q.1)) S.

Record peer_ok `{InetLib} (p : kad_peer_t) : Prop := {
  po_table : table_of checked_addr (kp_kbucket p);
  po_db : db_wf (kp_remote_db p);
  po_records : wire_records (db_abs (kp_remote_db p));
  po_within : within (db_profile (kp_remote_db p)) (db_abs (kp_remote_db p))
}.

Record rpc_env_ok (env : rpc_env_t) : Prop := {
  ro_db : env_ok (re_db env);
  ro_rand : forall n i, (0 < n)%nat -> ((re_rand env n i).1 < n /\ (re_rand env n i).2 < n)%nat
}.

(** What the server needs of the source address of a request: null, or with a
    port, an address that is fully qualified or any, and a peer identifier. *)
Definition src_usable `{InetLib} (a : kad_addr_t) : Prop :=
  kad_addr_is_null a = true \/
  (ipport_is_null (oaddr a) = false /\ port (oaddr a) <> 0 /\ any_or_qualified (ipaddr (oaddr a)) = Ok true /\
   is_fully_qualified KAD_ID_SIZE (peerid a) = true).

Section peer.
Context `{L : InetLib} {HL : InetLibLaws L} `{HM : HmacLib} {HML : HmacLaws HM} (cfg : kad_peer_cfg_t).

(** What noting an address, or counting, leaves as it was. *)
Definition same_data (p p' : kad_peer_t) : Prop :=
  db_abs (kp_remote_db p') = db_abs (kp_remote_db p) /\ same_cfg (kp_remote_db p) (kp_remote_db p') /\ kp_cookie_db p' = kp_cookie_db p.
Lemma same_data_refl p : same_data p p.
Proof using. by split. Qed.

Definition same_parts (p p1 : kad_peer_t) : Prop :=
  kp_kbucket p1 = kp_kbucket p /\ kp_remote_db p1 = kp_remote_db p /\ kp_cookie_db p1 = kp_cookie_db p.
Lemma counted i n p : exists p1, count i n p = p1 /\ same_parts p p1.
Proof using. by eexists. Qed.
Lemma same_parts_ok p p1 : same_parts p p1 -> peer_ok p -> peer_ok p1.
Proof using. intros (E1 & E2 & E3) []. split; by rewrite ?E1, ?E2, ?E3. Qed.
Lemma same_parts_data p p1 : same_parts p p1 -> same_data p p1.
Proof using. intros (E1 & E2 & E3). unfold same_data, same_cfg. by rewrite E2, E3. Qed.

(** The destination made of a published address. *)
Lemma dest_cases x remote :
  wire_addr x -> ip_ok (ipaddr remote) -> ipport_is_fully_qualified remote = Ok true -> ipport_is_null x = false ->
  (port x <> 0 /\ any_or_qualified (ipaddr x) = Ok true /\
     exists d, listen_xmit2dest x remote = Ok d /\ wire_addr d /\ ipport_is_fully_qualified d = Ok true) \/
  (~ (port x <> 0 /\ any_or_qualified (ipaddr x) = Ok true) /\ listen_xmit2dest x remote = AssertFail).
Proof using HL.
  intros [Hip Hpt] Hr Hq Hx. cbn [fst snd] in *. destruct (xmit2dest_spec x remote Hip Hr Hq Hx) as (q & n & Eq & En & ->).
  destruct (Z.eqb_spec (port x) 0) as [Hport|Hport]; [right; by split; [intros [? _]|]|].
  assert (Hany : any_or_qualified (ipaddr x) = Ok (q || n)) by (unfold any_or_qualified, or_else; rewrite En, Eq; by destruct n, q).
  rewrite Hany. destruct q; [left|destruct n; [left|right]]; (split; [done|]) || (by split; [intros [_ ?]|]); (split; [done|]).
  - exists x. split; [done|]. split; [done|]. destruct x. by apply qualified_intro.
  - eexists. split; [done|]. split; [done|]. apply qualified_intro; [by apply qualified_inv|done].
Qed.

(** The source address of a request, where it came from. *)
Lemma srckaddr_cases env a remote p :
  codec_ok kad_addr_codec a -> ip_ok (ipaddr remote) -> ipport_is_fully_qualified remote = Ok true ->
  (kad_addr_is_null a = true /\ srckaddr_parse env a remote p = Ok p) \/
  (kad_addr_is_null a = false /\ src_usable a /\
     exists a', checked_addr a' /\ peerid a' = peerid a /\ srckaddr_parse env a remote p = peer_notify_srckaddr env a' p) \/
  (~ src_usable a /\ srckaddr_parse env a remote p = AssertFail).
Proof using HL.
  destruct a as [x i]. intros [Hx Hid] Hr Hq. cbn [oaddr peerid fst snd] in *. unfold srckaddr_parse, src_usable. cbn [oaddr peerid].
  destruct (kad_addr_is_null (KadAddr x i)) eqn:Hnull; [by left|right]. destruct (ipport_is_null x) eqn:En.
  { right. split; [by intros [?|(? & _)]|]. unfold listen_xmit2dest. rewrite Hq, En. done. }
  destruct (dest_cases x remote Hx Hr Hq En) as [(Hp & Ha & d & -> & Hd & Hqd)|[Hn ->]]; [|right; split; [|done]; intros [?|(_ & ? & ? & _)]; [done|tauto]].
  cbn [mbind outcome_bind]. replace (ipport_is_null d) with false by (symmetry; apply qualified_not_null; by apply qualified_inv).
  cbn [negb dbg_assert]. assert (Efq : kad_addr_is_fully_qualified (KadAddr d i) = Ok (is_fully_qualified KAD_ID_SIZE i)).
  { unfold kad_addr_is_fully_qualified. cbn [oaddr peerid]. by rewrite Hqd. }
  rewrite Efq. cbn [mbind outcome_bind]. destruct (is_fully_qualified KAD_ID_SIZE i); cbn [dbg_assert].
  - left. split; [done|]. split; [by right|]. by exists (KadAddr d i).
  - right. split; [|done]. by intros [?|(_ & _ & _ & ?)].
Qed.
(** What the routing table emits when it is told of an address. *)
Lemma notify_srckaddr_out a ok k k' : notify_srckaddr a ok k = Ok k' ->
  exists outs, kb_out k' = kb_out k ++ outs /\ forall x, NotifyNewNode x ∈ outs -> x = a.
Proof using.
  assert (Hsame : forall k1, kb_out k1 = kb_out k -> exists outs, kb_out k1 = kb_out k ++ outs /\ forall x, NotifyNewNode x ∈ outs -> x = a).
  { intros k1 ->. exists []. rewrite app_nil_r. split; [done|]. by intros x ?%elem_of_nil. }
  unfold notify_srckaddr. destruct (kad_addr_is_fully_qualified a) as [[]| | |]; try done. cbn [mbind outcome_bind dbg_assert].
  destruct (get_bucket_idx (peerid a) k) as [i| | |]; try done. cbn [mbind outcome_bind].
  destruct (is_pending_node _ _); [intros [= <-]; by apply Hsame|]. destruct (get_bucknode (peerid a) k) as [n|].
  - unfold bucklist_update. destruct (bucklist_at i k) as [b| | |]; try done. cbn [mbind outcome_bind].
    destruct (peerid_is_present _ _); [|done]. cbn [dbg_assert]. case_bool_decide; [|done]. cbn [dbg_assert].
    destruct (get_bucket_idx (peerid a) k) as [j| | |]; try done. cbn [mbind outcome_bind]. case_bool_decide; [|done].
    intros [= <-]. by apply Hsame.
  - destruct (bucklist_at i k) as [b| | |]; try done. cbn [mbind outcome_bind]. case_bool_decide.
    + unfold bucknode_ctor. case_bool_decide; [|done]. cbn [dbg_assert mbind outcome_bind]. unfold bucklist_insert.
      destruct (bucklist_at i _) as [b'| | |]; try done. cbn [mbind outcome_bind]. destruct (negb _); [|done]. cbn [dbg_assert].
      destruct (get_bucket_idx (peerid a) _) as [j| | |]; try done. cbn [mbind outcome_bind]. case_bool_decide; [|done]. cbn [dbg_assert].
      case_bool_decide; [|done]. intros [= <-]. exists [NotifyNewNode a]. split; [done|]. by intros x [= ->]%list_elem_of_singleton.
    + destruct (get_first_notpinging _ _) as [[p|]| | |]; try done; cbn [mbind outcome_bind]; [|intros [= <-]; by apply Hsame].
      unfold ping_start. destruct (bucknode_at p k) as [n| | |]; try done. cbn [mbind outcome_bind]. destruct (negb _); [|done].
      cbn [dbg_assert]. destruct (negb ok); [intros [= <-]; by apply Hsame|]. case_bool_decide; [|done]. intros [= <-].
      exists [SendPing (bn_addr n)]. split; [done|]. by intros x [=]%list_elem_of_singleton.
Qed.

Lemma notify_new_nodes_gives now outs d :
  ordinary now -> db_wf d -> (forall x, NotifyNewNode x ∈ outs -> addr_ok x) -> gives (db_abs d) d (notify_new_nodes now outs d).
Proof using.
  intros Hn. revert d. induction outs as [|o outs IH]; intros d Hwf Ho; cbn [notify_new_nodes]; [by exists d|].
  assert (Ho' : forall x, NotifyNewNode x ∈ outs -> addr_ok x) by (intros x Hx; apply Ho; by right).
  destruct o as [a| | |]; [|by apply IH..]. destruct (Ho a) as [Ha Hq]; [by left|].
  destruct (step_gives (EvNewNode now a) d Hwf) as (d1 & E & Hwf1 & Habs & Hl & Hr & Hp); [by split|]. cbn [db_step spec_step] in E, Habs.
  rewrite E. cbn [mbind outcome_bind]. destruct (IH d1 Hwf1 Ho') as (d2 & E2 & Hwf2 & Habs2 & Hl2 & Hr2 & Hp2).
  exists d2. split; [done|]. split; [done|]. split; [congruence|]. unfold same_cfg. intuition congruence.
Qed.

Lemma peer_notify_ok env a p :
  rpc_env_ok env -> peer_ok p -> checked_addr a ->
  exists p', peer_notify_srckaddr env a p = Ok p' /\ peer_ok p' /\ same_data p p'.
Proof using.
  intros [(Hn & _) _] [Ht Hd Hr Hw] Ha. unfold peer_notify_srckaddr. set (k := kp_kbucket p) in *. destruct Ha as [[Hi Hq] Hwire].
  assert (Hk : exists k1, notify_srckaddr a (re_ping_ok env) k = Ok k1).
  { destruct Ht as (l & w & h & st & (Hrep & _) & _). destruct (seen_refines st.1 k a (re_ping_ok env) Hrep Hq Hi) as (k1 & E & _). by exists k1. }
  destruct Hk as [k1 E]. rewrite E. cbn [mbind outcome_bind].
  assert (Ht1 : table_of checked_addr k1).
  { apply (table_of_step (KbucketProfile 0 0 0) checked_addr k k1 (EvSrcKaddr a (re_ping_ok env)) Ht); [by split| |exact E].
    intros a' ok [= <- <-]. by split. }
  destruct (notify_srckaddr_out a _ k k1 E) as (outs & Eo & Houts). rewrite Eo, drop_app_length.
  destruct (notify_new_nodes_gives (re_now env) outs (kp_remote_db p) Hn Hd) as (d1 & E1 & Hwf1 & Habs & Hc).
  { intros x Hx. apply Houts in Hx as ->. by split. }
  rewrite E1. cbn [mbind outcome_bind]. eexists. split; [done|]. split; [|done].
  split; [done|done|..]; cbn [set_remote_db kp_remote_db]; [by rewrite Habs|]. destruct Hc as (_ & _ & ->). by rewrite Habs.
Qed.
Lemma srckaddr_parse_spec env a remote p :
  rpc_env_ok env -> peer_ok p -> codec_ok kad_addr_codec a -> ip_ok (ipaddr remote) -> ipport_is_fully_qualified remote = Ok true ->
  (src_usable a /\ exists p', srckaddr_parse env a remote p = Ok p' /\ peer_ok p' /\ same_data p p') \/
  (~ src_usable a /\ srckaddr_parse env a remote p = AssertFail).
Proof using HL.
  intros Henv Hp Ha Hr Hq. destruct (srckaddr_cases env a remote p Ha Hr Hq) as [[Hn E]|[(_ & Hu & a' & Ha' & _ & E)|]]; [left|left|by right].
  - split; [by left|]. exists p. split; [done|]. by split.
  - split; [done|]. destruct (peer_notify_ok env a' p Henv Hp Ha') as (p' & E' & ?). exists p'. by rewrite E, E'.
Qed.

Context (Hcfg : cfg_ok cfg).

(** The source address a peer puts in its packets is usable. *)
Lemma srckaddr_build_ok remote : ip_ok (ipaddr remote) -> ipport_is_fully_qualified remote = Ok true ->
  exists src, srckaddr_build cfg remote = Ok src /\ codec_ok kad_addr_codec src /\ src_usable src.
Proof using HL Hcfg.
  intros Hr Hq. destruct Hcfg. unfold srckaddr_build, listen_aview2xmit. rewrite Hq, co_aview0. cbn [mbind outcome_bind dbg_assert].
  destruct (is_public_total (ipaddr remote) Hr) as [pub ->]. cbn [mbind outcome_bind].
  destruct (run_ok_inv _ co_aview0) as (Hln & Hlp & Hla & Hpv).
  assert (Hnull : codec_ok kad_addr_codec kad_addr_null /\ src_usable kad_addr_null).
  { split; [split; [split; [done|by vm_compute]|apply kad_id_null_ok]|]. left. by vm_compute. }
  assert (Hview : forall v, wire_addr v -> ipport_is_null v = false -> port v <> 0 -> any_or_qualified (ipaddr v) = Ok true ->
    codec_ok kad_addr_codec (KadAddr v (pc_peerid cfg)) /\ src_usable (KadAddr v (pc_peerid cfg))).
  { intros v Hv Hn Hp Ha. split; [by split|]. by right. }
  destruct pub; cbn [negb].
  - destruct (ipport_is_null (pview (pc_listen_aview cfg))) eqn:En; cbn [negb mbind outcome_bind]; [by exists kad_addr_null|].
    rewrite En. eexists. split; [done|]. destruct (Hpv eq_refl). by apply Hview.
  - cbn [mbind outcome_bind]. rewrite Hln. eexists. split; [done|]. by apply Hview.
Qed.

Definition same_net (cfg' : kad_peer_cfg_t) : Prop :=
  pc_rpc cfg' = pc_rpc cfg /\ pc_pkttype cfg' = pc_pkttype cfg /\ pc_realm cfg' = pc_realm cfg.
Definition nonce_ok (n : list Z) : Prop := id_ok KAD_NONCEID_SIZE n.
(** The nonce, when packets carry one. *)
Definition nonce_sent (n : list Z) : list Z := if req_nonce_in_pkt_ok (pc_rpc cfg) then n else nonce_null.

Lemma nonce_null_ok : nonce_ok nonce_null.
Proof using. clear. apply build_null_ok. Qed.

Lemma rep_header_ok t nonce remote :
  nonce_ok nonce -> ip_ok (ipaddr remote) -> ipport_is_fully_qualified remote = Ok true ->
  exists hd src, build_rep_header cfg remote (kad_type (pc_pkttype cfg) t) nonce = Ok hd /\ hd <> [] /\ bytes_ok hd /\
    codec_ok kad_addr_codec src /\ src_usable src /\
    forall cfg' rest, same_net cfg' -> parse_rep_header cfg' (hd ++ rest) = Ok (Some ((kad_type (pc_pkttype cfg) t, src, nonce_sent nonce), rest)).
Proof using HL Hcfg.
  intros Hnonce Hr Hq. destruct (kad_type_wire _ (co_types cfg Hcfg) t) as (bs & Ebs & Hbs & Eget).
  destruct (srckaddr_build_ok remote Hr Hq) as (src & Esrc & Hsrc & Hu). unfold build_rep_header. rewrite Ebs, Esrc. cbn [mbind outcome_bind].
  eexists _, src. split; [done|]. split; [intros (_ & (_ & (E & _)%app_eq_nil)%app_eq_nil)%app_eq_nil; by destruct src as [[[] ?] ?]|].
  split.
  { apply Forall_app_2; [done|]. apply Forall_app_2; [apply (put_if_bytes _ realm_codec), (co_realm cfg Hcfg)|].
    apply Forall_app_2; [by apply wire_put_bytes|by apply (put_if_bytes _ nonce_codec)]. }
  split; [done|]. split; [done|]. intros cfg' rest (E1 & E2 & E3). unfold parse_rep_header. rewrite E1, E2, E3, <- !app_assoc, Eget.
  cbn [mbind outcome_bind]. rewrite (get_if_put _ realm_codec) by apply (co_realm cfg Hcfg). cbn [mbind outcome_bind]. rewrite wire_get_put by done.
  cbn [mbind outcome_bind]. rewrite (get_if_put _ nonce_codec) by done. cbn [mbind outcome_bind try_parse]. unfold nonce_sent.
  destruct (realmid_in_pkt_ok _); [|done]. rewrite id_eq_spec, bool_decide_eq_true_2 by (done || apply (co_realm cfg Hcfg)). done.
Qed.
Lemma req_header_ok t nonce remote :
  nonce_ok nonce -> ip_ok (ipaddr (oaddr remote)) -> ipport_is_fully_qualified (oaddr remote) = Ok true -> kad_id_ok (peerid remote) ->
  exists hd src, build_req_header cfg remote (kad_type (pc_pkttype cfg) t) nonce = Ok hd /\ bytes_ok hd /\
    codec_ok kad_addr_codec src /\ src_usable src /\
    forall cfg' rest, same_net cfg' -> kad_id_ok (pc_peerid cfg') -> peerid remote = kad_id_null \/ peerid remote = pc_peerid cfg' ->
      parse_req_header cfg' (hd ++ rest) = Ok (Some ((kad_type (pc_pkttype cfg) t, src, nonce_sent nonce), rest)).
Proof using HL Hcfg.
  intros Hnonce Hr Hq Hid. destruct (kad_type_wire _ (co_types cfg Hcfg) t) as (bs & Ebs & Hbs & Eget).
  destruct (srckaddr_build_ok (oaddr remote) Hr Hq) as (src & Esrc & Hsrc & Hu). unfold build_req_header. rewrite Ebs, Esrc. cbn [mbind outcome_bind].
  eexists _, src. split; [done|]. split.
  { apply Forall_app_2; [done|]. apply Forall_app_2; [apply (put_if_bytes _ realm_codec), (co_realm cfg Hcfg)|].
    apply Forall_app_2; [by apply (put_if_bytes _ kad_id_codec)|]. apply Forall_app_2; [by apply wire_put_bytes|by apply (put_if_bytes _ nonce_codec)]. }
  split; [done|]. split; [done|]. intros cfg' rest (E1 & E2 & E3) Hid' Hdest. unfold parse_req_header. rewrite E1, E2, E3, <- !app_assoc, Eget.
  cbn [mbind outcome_bind]. rewrite (get_if_put _ realm_codec) by apply (co_realm cfg Hcfg). cbn [mbind outcome_bind].
  rewrite (get_if_put _ kad_id_codec) by done. cbn [mbind outcome_bind]. rewrite wire_get_put by done.
  cbn [mbind outcome_bind]. rewrite (get_if_put _ nonce_codec) by done. cbn [mbind outcome_bind try_parse].
  assert (Hr1 : forall b, b && negb (id_eq KAD_ID_SIZE (if b then pc_realm cfg else kad_id_null) (pc_realm cfg)) = false).
  { intros []; [|done]. rewrite id_eq_spec, bool_decide_eq_true_2 by (done || apply (co_realm cfg Hcfg)). done. }
  rewrite Hr1.
  assert (Hd1 : forall b : bool, let d := if b then peerid remote else kad_id_null in
    b && negb (id_is_null KAD_ID_SIZE d) && negb (id_eq KAD_ID_SIZE d (pc_peerid cfg')) = false).
  { intros []; [|done]. cbv zeta. destruct Hdest as [->| ->]; [by vm_compute|]. rewrite id_eq_spec, (bool_decide_eq_true_2 (_ = _)) by done. by rewrite andb_false_r. }
  cbv zeta in Hd1. by rewrite Hd1.
Qed.
(** What [parse_req_header] reads. *)
Definition header_ok (h : header_t) (rest : list Z) : Prop :=
  let '(t, src, nonce) := h in
  pt_profile t = pc_pkttype cfg /\ (exists j, pkttype_idx t = pt_offset (pc_pkttype cfg) + Z.of_nat j) /\
  codec_ok kad_addr_codec src /\ nonce_ok nonce /\ bytes_ok rest.

Lemma parse_req_total pkt : bytes_ok pkt ->
  (exists h rest, parse_req_header cfg pkt = Ok (Some (h, rest)) /\ header_ok h rest) \/
  parse_req_header cfg pkt = Ok None \/
  (parse_req_header cfg pkt = AssertFail /\ get_pkttype_wire (pkttype_ctor (pc_pkttype cfg)) pkt = AssertFail).
Proof using Hcfg.
  intros Hpkt. unfold parse_req_header.
  destruct (get_type_total _ pkt (co_types cfg Hcfg) Hpkt) as [(t & l1 & -> & Ht & Hj & Hl1)|[[e ->]| ->]]; cbn [mbind outcome_bind try_parse]; [|by auto..].
  destruct (get_if_total (realmid_in_pkt_ok (pc_rpc cfg)) realm_codec kad_id_null l1 Hl1 kad_id_null_ok) as [(realm & l2 & -> & Hrealm & Hl2)|[e ->]];
    cbn [mbind outcome_bind try_parse]; [|by auto].
  destruct (get_if_total (dest_peerid_in_pkt_ok (pc_rpc cfg)) kad_id_codec kad_id_null l2 Hl2 kad_id_null_ok) as [(dest & l3 & -> & Hdest & Hl3)|[e ->]];
    cbn [mbind outcome_bind try_parse]; [|by auto].
  destruct (wire_get_total kad_addr_codec l3 Hl3) as [(src & l4 & -> & Hsrc & Hl4)|[e ->]]; cbn [mbind outcome_bind try_parse]; [|by auto].
  destruct (get_if_total (req_nonce_in_pkt_ok (pc_rpc cfg)) nonce_codec nonce_null l4 Hl4 nonce_null_ok) as [(nonce & l5 & -> & Hnonce & Hl5)|[e ->]];
    cbn [mbind outcome_bind try_parse]; [|by auto].
  destruct (_ && _); [by auto|]. destruct (_ && _ && _); [by auto|]. left. by eexists _, _.
Qed.

(* ------------------------------------------------------------------ *)
(** ** Records in packets *)
(* ------------------------------------------------------------------ *)

Lemma remaining_range now date : in_range 64 (remaining now date).
Proof using. clear. unfold remaining. destruct (_ =? _); [split; by vm_compute|]. apply wrap_range. lia. Qed.

Lemma found_wire now k gt p rs :
  ordinary now -> kad_id_ok k -> kad_id_ok gt -> peer_ok p -> find_by_keyid now k gt (kp_remote_db p) = Ok rs -> recdups_ok rs.
Proof using.
  intros Hn Hk Hgt [_ Hd Hr _] E. destruct (find_correct now k gt _ Hn Hk Hgt Hd) as (rs' & E' & _ & Hkey & Hnd & Hall).
  rewrite E in E'. injection E' as <-. split; [destruct Hkey as [->| ->]; [apply kad_id_null_ok|done]|]. split; [|done].
  apply Forall_forall. intros rv (r & date & Hl & Hkr & _ & ->)%Hall. pose proof (abs_ids _ _ _ _ Hd Hl) as (Hi & Hid & _).
  pose proof (Hr _ _ Hl) as Hblob. apply abs_some in Hl as (dr & Hdr & <- & _).
  destruct (wf_recs _ Hd _ _ Hdr) as (_ & _ & _ & _ & Httl & _). unfold current.
  destruct (is_remote_db _); (split; [exact Hid|split; [exact Hblob|]]); cbn [fst snd recval_of rv_ttl set_ttl rec_ttl].
  - apply remaining_range.
  - change (in_range 64 (rec_ttl (dr_rec dr))). assert (INFINITE_VAL / 2 < 2 ^ 64) by by vm_compute. unfold in_range, ordinary in *. lia.
Qed.

Lemma recdups_ok_take n d : recdups_ok d -> recdups_ok (Recdups (rd_keyid d) (take n (recval_db d))).
Proof using. clear. intros (Hk & Hdb & Hnd). split; [done|]. split; [by apply Forall_take|]. cbn [recval_db]. rewrite fmap_take. eapply sublist_NoDup; [exact Hnd|]. apply sublist_take. Qed.

Lemma wire_recdups_bytes d : recdups_ok d -> Z.of_nat (recdups_size d) < 2 ^ 32 -> bytes_ok (wire_put_recdups d).
Proof using.
  clear. intros (Hk & Hdb & _) Hlen. apply Forall_app_2; [apply be_bytes_ok|]. apply Forall_app_2; [apply Hk|].
  apply Forall_concat, Forall_fmap. eapply Forall_impl; [exact Hdb|]. intros rv Hrv. by apply (wire_put_bytes (c := recval_codec)).
Qed.

(** The records a reply holds: the first [m], as many as fit and as asked. *)
Definition page_len (requested : Z) (d : kad_recdups_t) : nat :=
  let n := count_fitting 32 (replypkt_maxlen (pc_rpc cfg)) 24 (recval_db d) in
  if negb (requested =? 0) && (requested <? Z.of_nat n) then Z.to_nat requested else n.

Lemma page_spec requested d : recdups_ok d -> 0 <= requested ->
  reply_nb_rec cfg requested d = Ok (page_len requested d) /\ (page_len requested d <= recdups_size d)%nat /\
  truncate_at_tail (recdups_size d - page_len requested d) d = Ok (Recdups (rd_keyid d) (take (page_len requested d) (recval_db d))) /\
  Z.of_nat (page_len requested d) < 2 ^ 32 /\
  (24 + recs_len (page_len requested d) (recval_db d) <= replypkt_maxlen (pc_rpc cfg))%nat.
Proof using Hcfg.
  intros Hd Hreq. destruct (co_maxlen cfg Hcfg) as [Hlo Hhi]. destruct serial_hd as [Hm Hp].
  set (max := replypkt_maxlen (pc_rpc cfg)) in *. pose proof (count_fitting_spec max 24 (recval_db d)) as Hspec. cbv zeta in Hspec.
  assert (Hle : (page_len requested d <= count_fitting 32 max 24 (recval_db d))%nat).
  { unfold page_len. fold max. destruct (negb _ && (requested <? _)) eqn:E; [|done]. apply andb_true_iff in E as [_ ?%Z.ltb_lt]. lia. }
  split.
  { unfold reply_nb_rec, nb_serialized_rec_in_size. fold max. rewrite Hm, Hp. cbn [mbind outcome_bind].
    rewrite bool_decide_eq_true_2 by lia. done. }
  split; [unfold recdups_size; lia|]. split.
  { unfold truncate_at_tail, recdups_size. rewrite pop_backs_spec by lia. cbn [mbind outcome_bind]. do 3 f_equal. lia. }
  destruct Hspec as (H1 & _ & H3 & _). pose proof (recs_len_mono _ _ (recval_db d) Hle). pose proof (recs_len_count (page_len requested d) (recval_db d)). lia.
Qed.

(** One page of records. *)
Definition page_wire (requested : Z) (d : kad_recdups_t) : list Z :=
  wire_put u8_codec (if bool_decide (recdups_size d - page_len requested d = 0)%nat then 0 else 1)
    ++ wire_put_recdups (Recdups (rd_keyid d) (take (page_len requested d) (recval_db d))).

Lemma page_bytes n d : recdups_ok d -> 0 <= n -> bytes_ok (page_wire n d).
Proof using Hcfg.
  intros Hd Hn. destruct (page_spec n d Hd Hn) as (_ & Hle & _ & Hm & _).
  apply Forall_app_2; [apply (wire_put_bytes (c := u8_codec)); by case_bool_decide|].
  apply wire_recdups_bytes; [by apply recdups_ok_take|]. unfold recdups_size. cbn [recval_db]. rewrite length_take. lia.
Qed.

(* ------------------------------------------------------------------ *)
(** ** The handlers *)
(* ------------------------------------------------------------------ *)

Definition filter_ok (flt : option (kad_addr_t -> outcome bool)) : Prop :=
  forall f a, flt = Some f -> checked_addr a -> exists b, f a = Ok b.

Record request_ok (rq : request_t) : Prop := {
  rq_profile : pt_profile (rq_pkttype rq) = pc_pkttype cfg;
  rq_nonce_ok : nonce_ok (rq_nonce rq);
  rq_bytes : bytes_ok (rq_pkt rq);
  rq_remote : ip_ok (ipaddr (remote_oaddr rq));
  rq_qualified : ipport_is_fully_qualified (remote_oaddr rq) = Ok true;
  rq_filter_ok : filter_ok (rq_filter rq)
}.

(** The header of a reply. *)
Definition rep_of (rq : request_t) (t : kad_pkttype) (hd : list Z) : Prop :=
  hd <> [] /\ bytes_ok hd /\ exists src, codec_ok kad_addr_codec src /\ src_usable src /\
    forall cfg' rest, same_net cfg' -> parse_rep_header cfg' (hd ++ rest) = Ok (Some ((kad_type (pc_pkttype cfg) t, src, nonce_sent (rq_nonce rq)), rest)).

(** A request that is handled: no assertion fails, the peer stays well formed
    and keeps its cookies. *)
Definition handled (p : kad_peer_t) (m : outcome (list Z * kad_peer_t)) (Q : list Z -> kad_peer_t -> Prop) : Prop :=
  exists reply p', m = Ok (reply, p') /\ peer_ok p' /\ kp_cookie_db p' = kp_cookie_db p /\ bytes_ok reply /\ Q reply p'.

Lemma srv_header rq t : request_ok rq -> exists hd, srv_build_rep_header cfg t rq = Ok hd /\ rep_of rq t hd.
Proof using HL Hcfg.
  intros []. unfold srv_build_rep_header. rewrite (kad_get_spec _ (co_types cfg Hcfg)) by done. cbn [mbind outcome_bind].
  destruct (rep_header_ok t _ _ rq_nonce_ok0 rq_remote0 rq_qualified0) as (hd & src & E & ? & ? & ? & ? & ?).
  exists hd. split; [done|]. split; [done|]. split; [done|]. by exists src.
Qed.

Lemma choose_filter_ok a : ip_ok a -> ip_is_fully_qualified a = Ok true -> exists flt, choose_filter a = Ok flt /\ filter_ok flt.
Proof using HL.
  destruct a as [|v]; [done|]. intros Hv _. unfold choose_filter. destruct (is_public_total (V4 v) Hv) as [b ->].
  rewrite is_private_spec, is_linklocal_spec, is_localhost_spec by done. cbn [mbind outcome_bind]. eexists. split; [done|].
  intros f x Hf [_ [[Hx _] _]]. cbn [fst] in Hx. destruct (ipaddr (oaddr x)) as [|w] eqn:Ex.
  - repeat case_match; simplify_eq; unfold filter_fct_dstlocalhost, filter_fct_dstlinklocal, filter_fct_dstprivate, filter_fct_dstpublic;
      rewrite ?Ex; by eexists.
  - destruct (is_public_total (V4 w) Hx) as [b' Eb].
    repeat case_match; simplify_eq; unfold filter_fct_dstlocalhost, filter_fct_dstlinklocal, filter_fct_dstprivate, filter_fct_dstpublic;
      rewrite ?Ex, ?Eb, ?is_private_spec, ?is_localhost_spec by done; by eexists.
Qed.

Lemma handled_none p p1 (Q : list Z -> kad_peer_t -> Prop) :
  peer_ok p -> same_parts p p1 -> Q [] p1 -> handled p (Ok ([], p1)) Q.
Proof using.
  intros Hp Hs HQ. exists [], p1. split; [done|]. split; [by apply (same_parts_ok p)|]. split; [apply Hs|]. by split; [constructor|].
Qed.
Lemma handled_reply p p1 reply (Q : list Z -> kad_peer_t -> Prop) :
  peer_ok p -> same_parts p p1 -> bytes_ok reply -> Q reply p1 -> handled p (Ok (reply, p1)) Q.
Proof using. intros Hp Hs Hb HQ. exists reply, p1. split; [done|]. split; [by apply (same_parts_ok p)|]. by split; [apply Hs|]. Qed.

(** The request is refused, or could not be read. *)
Ltac no_reply := apply handled_none; [done|done|split; [by apply same_parts_data|first [done|intros; simplify_eq; congruence]]].

Lemma ping_handled rq p : request_ok rq -> peer_ok p ->
  handled p (handle_ping_request cfg rq p) (fun reply p' => same_data p p' /\
    if ping_rpc_ok (pc_rpc cfg) then exists hd, rep_of rq PING_REPLY hd /\ reply = hd ++ wire_put ip_codec (ipaddr (remote_oaddr rq)) else reply = []).
Proof using HL Hcfg.
  intros Hrq Hp. unfold handle_ping_request. destruct (counted (NbPing false) 1 p) as (p1 & -> & Hs).
  destruct (ping_rpc_ok _); cbn [negb]; [|no_reply].
  destruct (srv_header rq PING_REPLY Hrq) as (hd & -> & Hhd). cbn [mbind outcome_bind]. apply handled_reply; [done|done| |].
  - apply Forall_app_2; [apply Hhd|]. apply (wire_put_bytes (c := ip_codec)), (rq_remote _ Hrq).
  - split; [by apply same_parts_data|by exists hd].
Qed.

(** The nodes of a reply, and the cookie after them. *)
Definition closest_nodes (t : kad_id) (rq : request_t) (p : kad_peer_t) (l : list kad_addr_t) : Prop :=
  get_nclosest_addr t (nb_replication (pc_kbucket cfg)) (rq_filter rq) (kp_kbucket p) = Ok l /\ codec_ok kad_addr_arr_codec l.
Definition given_cookie (rq : request_t) (p : kad_peer_t) : cookie_id_t := cookie_generate (build_pathid rq) (kp_cookie_db p).
Definition nodes_wire (rq : request_t) (p : kad_peer_t) (l : list kad_addr_t) : list Z :=
  wire_put kad_addr_arr_codec l ++ put_if (cookie_in_reply_ok (pc_rpc cfg)) cookie_codec (given_cookie rq p).

Lemma closest_nodes_ok t rq p : peer_ok p -> kad_id_ok t -> request_ok rq -> exists l, closest_nodes t rq p l.
Proof using HL Hcfg.
  intros Hp Ht Hrq. destruct (table_of_nclosest checked_addr (kp_kbucket p) t (nb_replication (pc_kbucket cfg)) (rq_filter rq)) as (l & E & Hl & Hlen);
    [apply Hp|done|by intros a [[? _] _]|apply Hrq|].
  exists l. split; [done|]. split; [|pose proof (co_replication cfg Hcfg); lia]. eapply Forall_impl; [exact Hl|]. by intros a [_ ?].
Qed.

Lemma nodes_wire_bytes t rq p l : closest_nodes t rq p l -> bytes_ok (nodes_wire rq p l).
Proof using HML.
  intros [_ Hl]. apply Forall_app_2; [by apply (wire_put_bytes (c := kad_addr_arr_codec))|].
  apply (put_if_bytes _ cookie_codec). apply hmac_sha1_ok.
Qed.

Lemma findnode_handled rq p : request_ok rq -> peer_ok p ->
  handled p (handle_findnode_request cfg rq p) (fun reply p' => same_data p p' /\
    forall t rest, wire_get kad_id_codec (rq_pkt rq) = Ok (t, rest) ->
      if findnode_rpc_ok (pc_rpc cfg) then
        exists hd l, rep_of rq FINDNODE_REPLY hd /\ closest_nodes t rq p l /\ reply = hd ++ nodes_wire rq p l
      else reply = []).
Proof using HL HML Hcfg.
  intros Hrq Hp. unfold handle_findnode_request. destruct (counted (NbFindnode false) 1 p) as (p1 & -> & Hs).
  destruct (findnode_rpc_ok _); cbn [negb]; [|no_reply].
  destruct (wire_get_total kad_id_codec (rq_pkt rq) (rq_bytes _ Hrq)) as [(t & rest & E & Ht & _)|[e E]]; rewrite E; cbn [try_parse]; [|no_reply].
  destruct (closest_nodes_ok t rq p Hp Ht Hrq) as [l Hl]. pose proof Hl as [El _]. pose proof Hs as (-> & _ & ->).
  destruct (srv_header rq FINDNODE_REPLY Hrq) as (hd & Ehd & Hhd). rewrite El, Ehd. clear Ehd. cbn [mbind outcome_bind]. apply handled_reply; [done|done| |].
  - apply Forall_app_2; [apply Hhd|by apply (nodes_wire_bytes t)].
  - split; [by apply same_parts_data|]. intros t' rest' [= <- <-]. exists hd, l. split; [exact Hhd|]. split; [exact Hl|reflexivity].
Qed.

Lemma findsomeval_handled env rq p : request_ok rq -> peer_ok p -> rpc_env_ok env ->
  handled p (handle_findsomeval_request cfg env rq p) (fun reply p' => same_data p p' /\
    forall k n l1 l2, wire_get kad_id_codec (rq_pkt rq) = Ok (k, l1) -> wire_get u32_codec l1 = Ok (n, l2) ->
      if findsomeval_rpc_ok (pc_rpc cfg) then exists hd rs, rep_of rq FINDSOMEVAL_REPLY hd /\ find_by_keyid (re_now env) k kad_id_null (kp_remote_db p) = Ok rs /\
        if bool_decide (recdups_size rs <> 0)%nat then
          exists d, recdups_ok d /\ recval_db d ≡ₚ recval_db rs /\ rd_keyid d = rd_keyid rs /\
          reply = hd ++ wire_put u8_codec 1 ++ page_wire n d
        else exists l, closest_nodes k rq p l /\ reply = hd ++ wire_put u8_codec 0 ++ nodes_wire rq p l
      else reply = []).
Proof using HL HML Hcfg.
  intros Hrq Hp [(Hnow & _) Hrand]. unfold handle_findsomeval_request. destruct (counted (NbFindsomeval false) 1 p) as (p1 & -> & Hs).
  destruct (findsomeval_rpc_ok _); cbn [negb]; [|no_reply].
  destruct (wire_get_total kad_id_codec (rq_pkt rq) (rq_bytes _ Hrq)) as [(k & l1 & E & Hk & Hl1)|[e E]]; rewrite E; cbn [try_parse mbind outcome_bind]; [|no_reply].
  destruct (wire_get_total u32_codec l1 Hl1) as [(n & l2 & E2 & Hn & _)|[e E2]]; rewrite E2; cbn [try_parse mbind outcome_bind]; [|no_reply].
  destruct (srv_header rq FINDSOMEVAL_REPLY Hrq) as (hd & -> & Hhd). cbn [mbind outcome_bind].
  destruct (find_correct (re_now env) k kad_id_null _ Hnow Hk kad_id_null_ok (po_db p Hp)) as (rs & Ers & _). pose proof Hs as (-> & -> & ->).
  rewrite Ers. cbn [mbind outcome_bind]. pose proof (found_wire _ _ _ p rs Hnow Hk kad_id_null_ok Hp Ers) as Hrs.
  case_bool_decide as Hsz.
  - unfold randomize_order.
    destruct (swap_loop_perm (re_rand env (recdups_size rs) <$> seq 0 (length (recval_db rs))) (recval_db rs)) as (db' & -> & Hperm).
    { apply Forall_fmap, Forall_forall. intros i _. apply Hrand. unfold recdups_size in *. lia. }
    cbn [mbind outcome_bind]. set (d := Recdups (rd_keyid rs) db').
    assert (Hd : recdups_ok d) by (destruct Hrs as (H1 & H2 & H3); split; [done|]; split; cbn [recval_db d]; by rewrite Hperm).
    destruct (page_spec n d Hd ltac:(apply Hn)) as (-> & Hle & E3 & Hm & _). cbn [mbind outcome_bind]. rewrite E3. cbn [mbind outcome_bind].
    apply handled_reply; [done|done| |].
    + apply Forall_app_2; [apply Hhd|]. apply (Forall_app_2 _ [1]); [by repeat constructor|]. by apply (page_bytes n d); [|apply Hn].
    + split; [by apply same_parts_data|]. intros k' n' l1' l2' [= <- <-] E2'. rewrite E2 in E2'. injection E2' as <- <-.
      exists hd, rs. split; [exact Hhd|]. split; [exact Ers|]. rewrite (bool_decide_eq_true_2 _ Hsz). exists d. split; [exact Hd|]. split; [exact Hperm|]. by split.
  - destruct (closest_nodes_ok k rq p Hp Hk Hrq) as [l Hl]. pose proof Hl as [El _]. rewrite El. cbn [mbind outcome_bind].
    apply handled_reply; [done|done| |].
    + apply Forall_app_2; [apply Hhd|]. apply (Forall_app_2 _ [0]); [by repeat constructor|by apply (nodes_wire_bytes k)].
    + split; [by apply same_parts_data|]. intros k' n' l1' l2' [= <- <-] E2'. rewrite E2 in E2'. injection E2' as <- <-.
      exists hd, rs. split; [exact Hhd|]. split; [exact Ers|]. rewrite bool_decide_eq_false_2 by lia. exists l. split; [exact Hl|reflexivity].
Qed.

(** The records of a request, stored until one is refused. *)
Fixpoint spec_store_loop (pr : kad_db_profile_t) (remote : bool) (now : Z) (rs : list kad_rec_t) (S : db_spec) : bool * db_spec :=
  match rs with
  | [] => (true, S)
  | r :: rs' => if decide (spec_accept pr r S) then spec_store_loop pr remote now rs' (spec_store pr remote now r S) else (false, S)
  end.

Lemma wire_records_store pr remote now r S : wire_records S -> blob_ok (rec_payload r) -> wire_records (spec_store pr remote now r S).
Proof using.
  clear. intros HS Hr. unfold spec_store. destruct (decide _); [|done].
  destruct (S !! recid r) as [[old date]|]; [destruct (_ <? _); [|done]|]; by apply map_Forall_insert_2.
Qed.

Definition rec_in_pkt (r : kad_rec_t) : Prop := rec_ids_ok r /\ 0 <= rec_ttl r /\ blob_ok (rec_payload r).
Definition db_ok (d : kad_db_t) : Prop := db_wf d /\ wire_records (db_abs d) /\ within (db_profile d) (db_abs d).

Lemma store_loop_spec env rs d : rpc_env_ok env -> db_ok d -> Forall rec_in_pkt rs ->
  exists b d', store_loop env rs d = Ok (b, d') /\ db_ok d' /\ same_cfg d d' /\
    spec_store_loop (db_profile d) (is_remote_db d) (re_now env) rs (db_abs d) = (b, db_abs d').
Proof using.
  clear. intros [Henv _] Hd Hrs. revert d Hd. induction Hrs as [|r rs (Hids & Httl & Hblob) Hrs IH]; intros d (Hwf & Hw & Hin); cbn [store_loop spec_store_loop].
  { by exists true, d. }
  pose proof (store_gives (re_db env) r d Henv Hwf Hids Httl) as Hg. rewrite may_accept_spec in Hg |- * by first [done|apply Hids].
  case_bool_decide as Ha; cbn [negb]; [rewrite decide_True by done|rewrite decide_False by done; by exists false, d].
  destruct Hg as (d1 & E & Hwf1 & Habs & Hc). rewrite E. cbn [mbind outcome_bind]. pose proof Hc as (Hl & Hr & Hp).
  assert (Hd1 : db_ok d1).
  { split; [done|]. rewrite Hp, Habs. split; [by apply wire_records_store|]. exact (within_run _ (is_remote_db d) [EvStore (re_db env) r] _ Hin). }
  destruct (IH d1 Hd1) as (b & d' & E' & Hd' & Hc' & Es). exists b, d'. split; [exact E'|]. split; [done|].
  split; [unfold same_cfg in *; intuition congruence|]. rewrite Hp, Hr, Habs in Es. exact Es.
Qed.

(** Whether a request with this cookie is obeyed. *)
Definition allowed (rpc_ok cookie_ok : bool) (c : cookie_id_t) (rq : request_t) (p : kad_peer_t) : bool :=
  rpc_ok && (negb cookie_ok || cookie_check (build_pathid rq) c (kp_cookie_db p)).

Lemma peer_ok_db d p p1 : same_parts p p1 -> peer_ok p -> db_ok d -> peer_ok (set_remote_db d p1).
Proof using. intros (E & _ & _) [] (? & ? & ?). split; cbn [set_remote_db kp_kbucket kp_remote_db]; by rewrite ?E. Qed.

(** What is read of a store, and of a removal. *)
Definition reads_store (pkt : list Z) (rs : kad_recdups_t) (c : cookie_id_t) : Prop :=
  exists l1 l2, wire_get_recdups pkt = Ok (rs, l1) /\ get_if (cookie_store_ok (pc_rpc cfg)) cookie_codec cookie_id_null l1 = Ok (c, l2).
Definition reads_delete (pkt : list Z) (i : kad_id) (c : cookie_id_t) : Prop :=
  exists l1 l2, wire_get kad_id_codec pkt = Ok (i, l1) /\ get_if (cookie_delete_ok (pc_rpc cfg)) cookie_codec cookie_id_null l1 = Ok (c, l2).

(** A request that cannot be read, or that is not obeyed. *)
Definition nothing_done (p p' : kad_peer_t) (reply : list Z) : Prop := reply = [] /\ same_data p p'.
Lemma handled_nothing p p1 : peer_ok p -> same_parts p p1 -> handled p (Ok ([], p1)) (fun reply p' => nothing_done p p' reply).
Proof using. intros Hp Hs. apply handled_none; [done..|]. split; [done|by apply same_parts_data]. Qed.
Lemma handled_weaken p m (Q R : list Z -> kad_peer_t -> Prop) : (forall reply p', Q reply p' -> R reply p') -> handled p m Q -> handled p m R.
Proof using. intros HQR (reply & p' & ? & ? & ? & ? & HQ). exists reply, p'. split_and!; try done. by apply HQR. Qed.

Lemma delete_handled rq p : request_ok rq -> peer_ok p ->
  handled p (handle_delete_request cfg rq p) (fun reply p' =>
    nothing_done p p' reply /\ (forall i c, reads_delete (rq_pkt rq) i c -> allowed (delete_rpc_ok (pc_rpc cfg)) (cookie_delete_ok (pc_rpc cfg)) c rq p = false) \/
    exists i c, reads_delete (rq_pkt rq) i c /\ allowed (delete_rpc_ok (pc_rpc cfg)) (cookie_delete_ok (pc_rpc cfg)) c rq p = true /\
      rep_of rq DELETE_REPLY reply /\ db_abs (kp_remote_db p') = delete i (db_abs (kp_remote_db p)) /\ same_cfg (kp_remote_db p) (kp_remote_db p')).
Proof using HL HML Hcfg.
  intros Hrq Hp. unfold handle_delete_request. destruct (counted (NbDelete false) 1 p) as (p1 & -> & Hs). unfold allowed.
  destruct (delete_rpc_ok _); cbn [negb andb]; [|eapply handled_weaken; [|by apply handled_nothing]; by left].
  unfold reads_delete.
  destruct (wire_get_total kad_id_codec (rq_pkt rq) (rq_bytes _ Hrq)) as [(i & l1 & E & Hi & Hl1)|[e E]]; rewrite E; cbn [try_parse mbind outcome_bind];
    [|eapply handled_weaken; [|by apply handled_nothing]; left; split; [done|]; intros i c (l1 & l2 & [=] & _)].
  destruct (get_if_total (cookie_delete_ok (pc_rpc cfg)) cookie_codec cookie_id_null l1 Hl1 (build_null_ok _)) as [(c & l2 & E2 & Hc & _)|[e E2]]; rewrite E2;
    cbn [try_parse mbind outcome_bind];
    [|eapply handled_weaken; [|by apply handled_nothing]; left; split; [done|]; intros i' c (l1' & l2 & [= <- <-] & ?); congruence].
  pose proof Hs as (_ & Ed & ->). rewrite Ed. destruct (cookie_delete_ok _ && negb _) eqn:Eck.
  { eapply handled_weaken; [|by apply handled_nothing]. left. split; [done|]. intros i' c' (l1' & l2' & [= <- <-] & E2').
    rewrite E2 in E2'. injection E2' as <- <-. by apply andb_true_iff in Eck as [-> ->%negb_true_iff]. }
  destruct (remove_gives i _ (po_db p Hp)) as (d & Er & Hwf & Habs & Hcfg'). destruct (srv_header rq DELETE_REPLY Hrq) as (hd & Ehd & Hhd).
  rewrite Er, Ehd. clear Ehd. cbn [mbind outcome_bind]. exists hd, (set_remote_db d p1). split; [done|]. split.
  { apply (peer_ok_db d p p1 Hs Hp). split; [done|]. destruct Hcfg' as (_ & _ & ->). rewrite Habs. split; [apply map_Forall_delete, (po_records p Hp)|apply within_delete, (po_within p Hp)]. }
  split; [apply Hs|]. split; [apply Hhd|]. right. exists i, c. split; [by exists l1, l2|]. split; [|by split; [exact Hhd|]].
  apply andb_false_iff in Eck as [->| ->%negb_false_iff]; [done|by apply orb_true_r].
Qed.

Lemma recs_in_pkt d : recdups_ok d -> Forall rec_in_pkt (recdups_recs d).
Proof using.
  clear. intros (Hk & Hdb & _). apply Forall_fmap. eapply Forall_impl; [exact Hdb|]. intros rv (Hi & Hb & Ht). split; [by split|]. split; [apply Ht|done].
Qed.

(** What a store of [rs] does: the database after, and the answer. *)
Definition stored (env : rpc_env_t) (rs : kad_recdups_t) (p p' : kad_peer_t) (ok : bool) : Prop :=
  same_cfg (kp_remote_db p) (kp_remote_db p') /\
  spec_store_loop (db_profile (kp_remote_db p)) (is_remote_db (kp_remote_db p)) (re_now env) (recdups_recs rs) (db_abs (kp_remote_db p)) =
    (ok, db_abs (kp_remote_db p')).

Lemma store_handled env rq p : request_ok rq -> peer_ok p -> rpc_env_ok env ->
  handled p (handle_store_request cfg env rq p) (fun reply p' =>
    nothing_done p p' reply /\ (forall rs c, reads_store (rq_pkt rq) rs c -> allowed (store_rpc_ok (pc_rpc cfg)) (cookie_store_ok (pc_rpc cfg)) c rq p = false) \/
    exists rs c ok, reads_store (rq_pkt rq) rs c /\ allowed (store_rpc_ok (pc_rpc cfg)) (cookie_store_ok (pc_rpc cfg)) c rq p = true /\
      stored env rs p p' ok /\ if (ok : bool) then rep_of rq STORE_REPLY reply else reply = []).
Proof using HL HML Hcfg.
  intros Hrq Hp Henv. unfold handle_store_request. destruct (counted (NbStore false) 1 p) as (p1 & -> & Hs). unfold allowed.
  destruct (store_rpc_ok _); cbn [negb andb]; [|eapply handled_weaken; [|by apply handled_nothing]; by left].
  unfold reads_store.
  destruct (wire_recdups_total (rq_pkt rq) (rq_bytes _ Hrq)) as [(rs & l1 & E & Hrs & Hl1)|[e E]]; rewrite E; cbn [try_parse mbind outcome_bind];
    [|eapply handled_weaken; [|by apply handled_nothing]; left; split; [done|]; intros rs c (l1 & l2 & [=] & _)].
  destruct (get_if_total (cookie_store_ok (pc_rpc cfg)) cookie_codec cookie_id_null l1 Hl1 (build_null_ok _)) as [(c & l2 & E2 & Hc & _)|[e E2]]; rewrite E2;
    cbn [try_parse mbind outcome_bind];
    [|eapply handled_weaken; [|by apply handled_nothing]; left; split; [done|]; intros rs' c (l1' & l2 & [= <- <-] & ?); congruence].
  pose proof Hs as (_ & Ed & ->). rewrite Ed. destruct (cookie_store_ok _ && negb _) eqn:Eck.
  { eapply handled_weaken; [|by apply handled_nothing]. left. split; [done|]. intros rs' c' (l1' & l2' & [= <- <-] & E2').
    rewrite E2 in E2'. injection E2' as <- <-. by apply andb_true_iff in Eck as [-> ->%negb_true_iff]. }
  destruct (store_loop_spec env (recdups_recs rs) (kp_remote_db p) Henv) as (b & d & Est & Hd & Hcf & Esp);
    [split; [apply (po_db p Hp)|split; [apply (po_records p Hp)|apply (po_within p Hp)]]|by apply recs_in_pkt|].
  destruct (srv_header rq STORE_REPLY Hrq) as (hd & Ehd & Hhd). rewrite Est, Ehd. clear Ehd. cbn [mbind outcome_bind].
  exists (if b then hd else []), (set_remote_db d p1). split; [by destruct b|]. split; [by apply (peer_ok_db d p p1 Hs Hp)|].
  split; [apply Hs|]. split; [destruct b; [apply Hhd|constructor]|]. right. exists rs, c, b. split; [by exists l1, l2|].
  split; [|by split; [by split|destruct b]]. apply andb_false_iff in Eck as [->| ->%negb_false_iff]; [done|by apply orb_true_r].
Qed.

Lemma next_keyid_ok k d : db_wf d -> kad_id_ok k -> exists q, get_next_keyid k d = Ok q /\ kad_id_ok q.
Proof using.
  clear. intros Hwf Hk. unfold get_next_keyid. destruct (upper_found k d Hwf Hk) as [[-> _]|(i & r & date & rest & -> & Hr & _)].
  - exists kad_id_null. split; [done|apply kad_id_null_ok].
  - pose proof (abs_ids _ _ _ _ Hwf Hr) as (_ & _ & Hkr). apply abs_some in Hr as (dr & Hdr & <- & _). unfold deref_rec. rewrite Hdr. by eexists.
Qed.

Lemma find_ge_ok env gt k ge p : rpc_env_ok env -> peer_ok p -> kad_id_ok gt -> kad_id_ok k ->
  exists rs, find_ge env gt k ge (kp_remote_db p) = Ok rs /\ recdups_ok rs.
Proof using.
  intros [(Hnow & _) _] Hp Hgt Hk. unfold find_ge.
  destruct (find_correct (re_now env) k gt _ Hnow Hk Hgt (po_db p Hp)) as (rs & Ers & _). rewrite Ers. cbn [mbind outcome_bind].
  destruct (_ && _); [|exists rs; split; [done|by apply (found_wire (re_now env) k gt p)]].
  destruct (next_keyid_ok k _ (po_db p Hp) Hk) as (q & -> & Hq). cbn [mbind outcome_bind].
  destruct (find_correct (re_now env) q kad_id_null _ Hnow Hq kad_id_null_ok (po_db p Hp)) as (rs1 & E1 & _). exists rs1.
  split; [done|]. exact (found_wire (re_now env) q kad_id_null p rs1 Hnow Hq kad_id_null_ok Hp E1).
Qed.

Lemma sorted_recdups_ok d : recdups_ok d -> recdups_ok (sort_by_recid d).
Proof using. clear. intros (Hk & Hdb & Hnd). split; [done|]. split; cbn [sort_by_recid recval_db]; by rewrite std_sort_perm. Qed.

Lemma findallval_handled env rq p : request_ok rq -> peer_ok p -> rpc_env_ok env ->
  handled p (handle_findallval_request cfg env rq p) (fun reply p' => same_data p p' /\
    forall gt k ge n l1 l2 l3 l4,
      wire_get kad_id_codec (rq_pkt rq) = Ok (gt, l1) -> wire_get kad_id_codec l1 = Ok (k, l2) ->
      wire_get u8_codec l2 = Ok (ge, l3) -> wire_get u32_codec l3 = Ok (n, l4) ->
      if findallval_rpc_ok (pc_rpc cfg) then
        exists hd rs, rep_of rq FINDALLVAL_REPLY hd /\ find_ge env gt k ge (kp_remote_db p) = Ok rs /\ recdups_ok rs /\
          reply = hd ++ page_wire n (sort_by_recid rs)
      else reply = []).
Proof using HL HML Hcfg.
  intros Hrq Hp Henv. unfold handle_findallval_request. destruct (counted (NbFindallval false) 1 p) as (p1 & -> & Hs).
  destruct (findallval_rpc_ok _); cbn [negb]; [|no_reply].
  destruct (wire_get_total kad_id_codec (rq_pkt rq) (rq_bytes _ Hrq)) as [(gt & l1 & E & Hgt & Hl1)|[e E]]; rewrite E; cbn [try_parse mbind outcome_bind]; [|no_reply].
  destruct (wire_get_total kad_id_codec l1 Hl1) as [(k & l2 & E2 & Hk & Hl2)|[e E2]]; rewrite E2; cbn [try_parse mbind outcome_bind]; [|no_reply].
  destruct (wire_get_total u8_codec l2 Hl2) as [(ge & l3 & E3 & Hge & Hl3)|[e E3]]; rewrite E3; cbn [try_parse mbind outcome_bind]; [|no_reply].
  destruct (wire_get_total u32_codec l3 Hl3) as [(n & l4 & E4 & Hn & _)|[e E4]]; rewrite E4; cbn [try_parse mbind outcome_bind]; [|no_reply].
  pose proof Hs as (_ & -> & _). destruct (find_ge_ok env gt k ge p Henv Hp Hgt Hk) as (rs & Ers & Hrs). destruct (srv_header rq FINDALLVAL_REPLY Hrq) as (hd & Ehd & Hhd).
  pose proof (sorted_recdups_ok rs Hrs) as Hso. destruct (page_spec n (sort_by_recid rs) Hso ltac:(apply Hn)) as (Ep & _ & Et & _).
  rewrite Ers. cbn [mbind outcome_bind]. rewrite Ep, Ehd. clear Ehd. cbn [mbind outcome_bind]. rewrite Et. cbn [mbind outcome_bind].
  apply handled_reply; [done|done| |].
  - apply Forall_app_2; [apply Hhd|]. apply page_bytes; [done|apply Hn].
  - split; [by apply same_parts_data|]. intros gt' k' ge' n' l1' l2' l3' l4' [= <- <-] F2 F3 F4.
    rewrite E2 in F2. injection F2 as <- <-. rewrite E3 in F3. injection F3 as <- <-. rewrite E4 in F4. injection F4 as <- <-.
    exists hd, rs. split; [exact Hhd|]. split; [exact Ers|]. split; [exact Hrs|reflexivity].
Qed.

(* ------------------------------------------------------------------ *)
(** ** A request *)
(* ------------------------------------------------------------------ *)

Definition serve (env : rpc_env_t) (rq : request_t) (p : kad_peer_t) (t : kad_pkttype) : outcome (list Z * kad_peer_t) :=
  match t with
  | PING_REQUEST => handle_ping_request cfg rq p
  | STORE_REQUEST => handle_store_request cfg env rq p
  | FINDNODE_REQUEST => handle_findnode_request cfg rq p
  | FINDSOMEVAL_REQUEST => handle_findsomeval_request cfg env rq p
  | FINDALLVAL_REQUEST => handle_findallval_request cfg env rq p
  | DELETE_REQUEST => handle_delete_request cfg rq p
  | _ => AssertFail
  end.
Definition is_request_type (x : pkttype_t) (t : kad_pkttype) : Prop := is_request t = true /\ x = kad_type (pc_pkttype cfg) t.

Lemma dispatch_spec env rq p :
  pt_profile (rq_pkttype rq) = pc_pkttype cfg -> (exists j, pkttype_idx (rq_pkttype rq) = pt_offset (pc_pkttype cfg) + Z.of_nat j) ->
  (exists t, is_request_type (rq_pkttype rq) t /\ dispatch cfg env rq p = serve env rq p t) \/
  ((forall t, ~ is_request_type (rq_pkttype rq) t) /\ dispatch cfg env rq p = AssertFail).
Proof using Hcfg.
  intros Hp [j Hj]. unfold dispatch. rewrite !(kad_is_spec _ (co_types cfg Hcfg) _ j) by done. cbn [mbind outcome_bind].
  assert (Hty : forall t, is_request t = true -> kad_type_idx t = j -> is_request_type (rq_pkttype rq) t).
  { intros t Ht <-. split; [done|]. destruct (rq_pkttype rq) as [x i]. cbn [pt_profile pkttype_idx] in *. unfold kad_type. by subst. }
  repeat (case_bool_decide; [left; eexists; split; [apply Hty; [|eassumption]; done|done]|]).
  right. split; [|done]. intros t [Ht Et]. rewrite Et in Hj. unfold kad_type in Hj. cbn [pkttype_idx] in Hj. assert (kad_type_idx t = j) by lia.
  destruct t; done || congruence.
Qed.

Lemma serve_handled env rq p t : request_ok rq -> peer_ok p -> rpc_env_ok env -> is_request t = true ->
  handled p (serve env rq p t) (fun _ _ => True).
Proof using HL HML Hcfg.
  intros Hrq Hp Henv Ht. assert (Hweak : forall m Q, handled p m Q -> handled p m (fun _ _ => True)).
  { intros m Q (r & p' & ? & ? & ? & ? & _). by exists r, p'. }
  destruct t; try done; cbn [serve]; eapply Hweak.
  - by apply ping_handled.
  - by apply store_handled.
  - by apply findnode_handled.
  - by apply findsomeval_handled.
  - by apply findallval_handled.
  - by apply delete_handled.
Qed.

(** A request whose header is read, and whose source address is usable, reaches
    its handler with the peer that has noted the address. *)
Lemma request_reaches env pkt local remote p t src nonce rest :
  peer_ok p -> rpc_env_ok env -> ip_ok (ipaddr remote) -> ipport_is_fully_qualified remote = Ok true ->
  parse_req_header cfg pkt = Ok (Some ((t, src, nonce), rest)) -> header_ok (t, src, nonce) rest ->
  (~ src_usable src /\ handle_request_pkt cfg env pkt local remote p = AssertFail) \/
  (src_usable src /\ exists p2 flt, let rq := Request t rest nonce local remote flt in
     srckaddr_parse env src remote (count (NbByte false) (Z.of_nat (length pkt)) p) = Ok p2 /\
     choose_filter (ipaddr remote) = Ok flt /\ request_ok rq /\ peer_ok p2 /\ same_data p p2 /\
     handle_request_pkt cfg env pkt local remote p =
       (let* (reply, p3) := dispatch cfg env rq p2 in Ok (reply, count (NbByte true) (Z.of_nat (length reply)) p3))).
Proof using HL Hcfg.
  intros Hp Henv Hr Hq E (Ht & Hj & Hsrc & Hnonce & Hrest). unfold handle_request_pkt. rewrite E, bind_ok.
  destruct (counted (NbByte false) (Z.of_nat (length pkt)) p) as (p1 & -> & Hs). pose proof (same_parts_ok p p1 Hs Hp) as Hp1.
  destruct (srckaddr_parse_spec env src remote p1 Henv Hp1 Hsrc Hr Hq) as [(Hu & p2 & -> & Hp2 & Hd)|[Hu ->]]; [right|by left].
  destruct (choose_filter_ok (ipaddr remote) Hr) as (flt & -> & Hflt); [by apply qualified_inv|]. rewrite !bind_ok. cbv beta zeta iota.
  split; [done|]. exists p2, flt. split; [done|]. split; [done|]. split; [by split|]. split; [done|].
  split; [|reflexivity]. destruct Hs as (_ & E2 & E3). unfold same_data in *. by rewrite <- E2, <- E3.
Qed.

(* ------------------------------------------------------------------ *)
(** * Theorems: the server *)
(* ------------------------------------------------------------------ *)

(** C15. Whatever the bytes of a packet, once its header is read with the type of
    a request and a usable source address, or refused, no assertion fails: the
    peer replies or not, its routing table and its database stay well formed and
    within the limits of their profile, and its cookies are what they were. *)
Theorem server_safe env pkt local remote p :
  peer_ok p -> rpc_env_ok env -> bytes_ok pkt -> ip_ok (ipaddr remote) -> ipport_is_fully_qualified remote = Ok true ->
  parse_req_header cfg pkt <> AssertFail ->
  (forall t src nonce rest, parse_req_header cfg pkt = Ok (Some ((t, src, nonce), rest)) ->
     (exists u, is_request_type t u) /\ src_usable src) ->
  exists reply p', handle_request_pkt cfg env pkt local remote p = Ok (reply, p') /\
    peer_ok p' /\ kp_cookie_db p' = kp_cookie_db p /\ bytes_ok reply.
Proof using HL HML Hcfg.
  intros Hp Henv Hpkt Hr Hq Hne Hok. destruct (parse_req_total pkt Hpkt) as [([[t src] nonce] & rest & E & Hh)|[E|[E _]]]; [| |done].
  - destruct (Hok _ _ _ _ E) as [(u & Hu) Hsrc].
    destruct (request_reaches env pkt local remote p t src nonce rest Hp Henv Hr Hq E Hh) as [[? _]|(_ & p2 & flt & _ & _ & Hrq & Hp2 & Hd & ->)]; [done|].
    destruct (dispatch_spec env _ p2 (rq_profile _ Hrq) (proj1 (proj2 Hh))) as [(u' & [Hu' _] & ->)|[Hn _]]; [|by destruct (Hn u)].
    destruct (serve_handled env _ p2 u' Hrq Hp2 Henv Hu') as (reply & p' & -> & Hp' & Hc & Hb & _). rewrite bind_ok.
    destruct (counted (NbByte true) (Z.of_nat (length reply)) p') as (p3 & -> & Hs). exists reply, p3. split; [done|].
    split; [by apply (same_parts_ok p')|]. split; [|done]. destruct Hs as (_ & _ & ->). rewrite Hc. apply Hd.
  - unfold handle_request_pkt. rewrite E, bind_ok. destruct (counted (NbByte false) (Z.of_nat (length pkt)) p) as (p1 & -> & Hs).
    exists [], p1. split; [done|]. split; [by apply (same_parts_ok p)|]. split; [apply Hs|constructor].
Qed.

(** C36. The other packets stop the program of the peer that receives them: a
    number of packet type that is not reserved; the type of a reply, or a reserved
    number without a type; a source address that is not null and has no port, an
    address that no peer may have, or the identifier of no peer.  Nothing else
    of the header is looked at before. *)
Theorem server_aborts env pkt local remote p :
  peer_ok p -> rpc_env_ok env -> bytes_ok pkt -> ip_ok (ipaddr remote) -> ipport_is_fully_qualified remote = Ok true ->
  (get_pkttype_wire (pkttype_ctor (pc_pkttype cfg)) pkt = AssertFail -> handle_request_pkt cfg env pkt local remote p = AssertFail) /\
  (forall t src nonce rest, parse_req_header cfg pkt = Ok (Some ((t, src, nonce), rest)) ->
     (forall u, ~ is_request_type t u) \/ ~ src_usable src -> handle_request_pkt cfg env pkt local remote p = AssertFail).
Proof using HL Hcfg.
  intros Hp Henv Hpkt Hr Hq. split.
  - intros E. unfold handle_request_pkt. assert (E' : parse_req_header cfg pkt = AssertFail) by (unfold parse_req_header; by rewrite E).
    by rewrite E'.
  - intros t src nonce rest E Hbad. destruct (parse_req_total pkt Hpkt) as [(h & rest' & E' & Hh)|[E'|[E' _]]]; [|congruence..].
    assert (h = (t, src, nonce) /\ rest' = rest) as [-> ->] by (split; congruence).
    destruct (request_reaches env pkt local remote p t src nonce rest Hp Henv Hr Hq E Hh) as [[_ ?]|(Hu & p2 & flt & _ & _ & Hrq & Hp2 & Hd & ->)]; [done|].
    destruct Hbad as [Hn|]; [|done].
    destruct (dispatch_spec env _ p2 (rq_profile _ Hrq) (proj1 (proj2 Hh))) as [(u' & Hu' & _)|[_ ->]]; [by destruct (Hn u')|done].
Qed.

Lemma get_if_valid {A} b (c : codec A) `{!CodecLaws c} dfl l a rest : bytes_ok l -> codec_ok c dfl -> get_if b c dfl l = Ok (a, rest) -> codec_ok c a.
Proof using. intros Hl Hd. destruct b; cbn [get_if]; [|by intros [= <- _]]. intros E. by apply (wire_get_valid (c := c)) in E as [? _]. Qed.
Lemma reads_store_cookie pkt rs c : bytes_ok pkt -> reads_store pkt rs c -> cookie_id_ok c.
Proof using.
  intros Hpkt (l1 & l2 & E1 & E2). destruct (wire_recdups_total pkt Hpkt) as [(rs' & l1' & E & _ & Hl)|[e E]]; rewrite E in E1; [|done].
  injection E1 as <- <-. by apply (get_if_valid _ cookie_codec) in E2; [|done|apply build_null_ok].
Qed.
Lemma reads_delete_cookie pkt i c : bytes_ok pkt -> reads_delete pkt i c -> cookie_id_ok c.
Proof using.
  intros Hpkt (l1 & l2 & E1 & E2). apply (wire_get_valid (c := kad_id_codec)) in E1 as [_ Hl]; [|done].
  by apply (get_if_valid _ cookie_codec) in E2; [|done|apply build_null_ok].
Qed.

(** A cookie that is accepted is the hash of the path under one of the secrets. *)
Definition genuine (path : list Z) (c : cookie_id_t) (d : cookie_db_t) : Prop :=
  c = cookie_cpu path (cur_secret d) \/ c = cookie_cpu path (old_secret d).
Lemma allowed_genuine b c rq p : cookie_id_ok c -> allowed b true c rq p = true -> genuine (build_pathid rq) c (kp_cookie_db p).
Proof using HML.
  intros Hc [_ Ha]%andb_true_iff. cbn [negb orb] in Ha. apply check_spec in Ha as [[? _]|(_ & ? & _)]; [by left|by right|done].
Qed.

(** C16. In a network that requires cookies, a packet changes the database of the
    peer that receives it only if it carries the hash, under the current or the
    previous secret, of the very address it claims to come from and of the
    address it was received on: a peer that has not received what was sent there
    in the last two renewals stores and removes nothing. *)
Theorem db_needs_cookie env pkt local remote p reply p' :
  cookie_store_ok (pc_rpc cfg) = true -> cookie_delete_ok (pc_rpc cfg) = true ->
  peer_ok p -> rpc_env_ok env -> bytes_ok pkt -> ip_ok (ipaddr remote) -> ipport_is_fully_qualified remote = Ok true ->
  handle_request_pkt cfg env pkt local remote p = Ok (reply, p') ->
  db_abs (kp_remote_db p') = db_abs (kp_remote_db p) \/
  exists h rest c, parse_req_header cfg pkt = Ok (Some (h, rest)) /\
    ((exists rs, reads_store rest rs c) \/ exists i, reads_delete rest i c) /\
    genuine (wire_put ip_codec (ipaddr remote) ++ wire_put ipport_codec local) c (kp_cookie_db p).
Proof using HL HML Hcfg.
  intros Hcs Hcd Hp Henv Hpkt Hr Hq. destruct (parse_req_total pkt Hpkt) as [([[t src] nonce] & rest & E & Hh)|[E|[E _]]].
  - destruct (request_reaches env pkt local remote p t src nonce rest Hp Henv Hr Hq E Hh) as [[_ ->]|(_ & p2 & flt & _ & _ & Hrq & Hp2 & (Hd & _ & Hck) & ->)]; [done|].
    set (rq := Request _ _ _ _ _ _) in *.
    destruct (dispatch_spec env rq p2 (rq_profile _ Hrq) (proj1 (proj2 Hh))) as [(u & [Hu _] & ->)|[_ ->]]; [|done].
    assert (Hsv : handled p2 (serve env rq p2 u) (fun _ p3 => db_abs (kp_remote_db p3) = db_abs (kp_remote_db p2) \/
      exists c, ((exists rs, reads_store rest rs c) \/ exists i, reads_delete rest i c) /\ genuine (build_pathid rq) c (kp_cookie_db p2))).
    { destruct u; try done; cbn [serve].
      - eapply handled_weaken; [|by apply ping_handled]. intros r p3 [[? _] _]. by left.
      - eapply handled_weaken; [|by apply store_handled]. intros r p3 [[[_ [? _]] _]|(rs & c & ok & Hrd & Ha & _)]; [by left|right].
        rewrite Hcs in Ha. exists c. split; [left; by exists rs|]. apply (allowed_genuine _ _ _ _ (reads_store_cookie _ _ _ (rq_bytes _ Hrq) Hrd) Ha).
      - eapply handled_weaken; [|by apply findnode_handled]. intros r p3 [[? _] _]. by left.
      - eapply handled_weaken; [|by apply findsomeval_handled]. intros r p3 [[? _] _]. by left.
      - eapply handled_weaken; [|by apply findallval_handled]. intros r p3 [[? _] _]. by left.
      - eapply handled_weaken; [|by apply delete_handled]. intros r p3 [[[_ [? _]] _]|(i & c & Hrd & Ha & _)]; [by left|right].
        rewrite Hcd in Ha. exists c. split; [right; by exists i|]. apply (allowed_genuine _ _ _ _ (reads_delete_cookie _ _ _ (rq_bytes _ Hrq) Hrd) Ha). }
    destruct Hsv as (reply1 & p3 & -> & _ & _ & _ & Hor). rewrite bind_ok.
    destruct (counted (NbByte true) (Z.of_nat (length reply1)) p3) as (p4 & -> & _ & Ed4 & _). intros [= <- <-]. rewrite Ed4.
    destruct Hor as [->|(c & Hrd & Hg)]; [by left|right]. exists (t, src, nonce), rest, c. rewrite <- Hck. by split_and!.
  - unfold handle_request_pkt. rewrite E, bind_ok. intros [= <- <-]. by left.
  - unfold handle_request_pkt. by rewrite E.
Qed.
End peer.

(* ------------------------------------------------------------------ *)
(** * An exchange *)
(* ------------------------------------------------------------------ *)

Lemma id_eq_refl nb l : id_eq nb l l = true.
Proof.
  unfold id_eq, id_compare. rewrite (proj2 (memcmp_eq l l eq_refl) eq_refl). by destruct (id_is_null nb l).
Qed.

Section exchange.
Context `{L : InetLib} {HL : InetLibLaws L} `{HM : HmacLib} {HML : HmacLaws HM}.
Context (cc cs : kad_peer_cfg_t) (Hcc : cfg_ok cc) (Hcs : cfg_ok cs) (Hnet : same_net cc cs).

(** What the client's parser makes of a set of records: an empty one has no key. *)
Definition read_back (d : kad_recdups_t) : kad_recdups_t := match recval_db d with [] => recdups_null | _ => d end.
Definition page (n : Z) (d : kad_recdups_t) : kad_event_t :=
  KeRecdups (read_back (Recdups (rd_keyid d) (take (page_len cs n d) (recval_db d)))) (bool_decide (recdups_size d - page_len cs n d <> 0)%nat).

Lemma page_read n d : recdups_ok d -> 0 <= n -> findallval_reply_payload_cb (page_wire cs n d) = Ok (page n d).
Proof using Hcs.
  intros Hd Hn. destruct (page_spec cs Hcs n d Hd Hn) as (_ & Hle & _ & Hm & _). unfold findallval_reply_payload_cb, page_wire, page.
  rewrite wire_get_put by (by case_bool_decide). cbn [mbind outcome_bind].
  rewrite <- (app_nil_r (wire_put_recdups _)), wire_recdups_roundtrip;
    [|by apply recdups_ok_take|unfold recdups_size; cbn [recval_db]; rewrite length_take; lia].
  unfold read_back. cbn [recval_db rd_keyid]. destruct (take _ _) as [|rv db]; cbn [mbind outcome_bind try_parse]; do 2 f_equal; repeat case_bool_decide; done || lia.
Qed.

Lemma nodes_read rq p t l : closest_nodes cs t rq p l ->
  findnode_reply_payload_cb cc (nodes_wire cs rq p l) =
    Ok (KeAddrArr l (if cookie_in_reply_ok (pc_rpc cs) then given_cookie rq p else cookie_id_null)).
Proof using HML Hnet.
  intros [_ Hl]. destruct Hnet as (E & _). unfold findnode_reply_payload_cb, nodes_wire. rewrite (wire_get_put (c := kad_addr_arr_codec)) by done.
  cbn [mbind outcome_bind]. rewrite <- E, <- (app_nil_r (put_if _ _ _)), (get_if_put _ cookie_codec) by apply hmac_sha1_ok. done.
Qed.

(** A reply that comes back. *)
Lemma client_reads env r remote nonce now saddr rq t hd body pc :
  rep_of cs rq t hd -> t = rpc_reply_type r -> rq_nonce rq = nonce_sent cc nonce -> rpc_env_ok env -> peer_ok pc ->
  ip_ok (ipaddr saddr) -> ipport_is_fully_qualified saddr = Ok true ->
  exists pc1, peer_ok pc1 /\ same_data pc pc1 /\
    handle_reply cc env (ClientRpc r remote nonce (kad_type (pc_pkttype cc) t) now) saddr (hd ++ body) pc =
      (let* (e, echoed) := reply_payload_cb cc r remote body in Ok (e, echoed, pc1)).
Proof using HL Hnet.
  intros (_ & _ & src & Hsrc & Hu & Hparse) -> Hnonce Henv Hpc Hs Hq. assert (Hnet' : same_net cs cc) by (destruct Hnet as (? & ? & ?); by split_and!).
  unfold handle_reply. rewrite (Hparse cc body Hnet'), Hnonce. rewrite bind_ok. cbn [cr_request_nonce cr_reply_pkttype cr_callback cr_remote_addr].
  destruct Hnet as (E1 & E2 & _). rewrite E2, kad_type_eq, bool_decide_eq_true_2 by done.
  assert (En : req_nonce_in_pkt_ok (pc_rpc cc) && negb (id_eq KAD_NONCEID_SIZE (nonce_sent cs (nonce_sent cc nonce)) nonce) = false).
  { unfold nonce_sent. rewrite E1. destruct (req_nonce_in_pkt_ok _); [|done]. by rewrite id_eq_refl. }
  rewrite En. cbn [negb]. destruct (srckaddr_parse_spec env src saddr pc Henv Hpc Hsrc Hs Hq) as [(_ & pc1 & -> & Hp1 & Hd)|[? _]]; [|done].
  exists pc1. rewrite bind_ok. done.
Qed.
(** The arguments of a caller. *)
Definition rpc_ok (r : kad_rpc_t) : Prop :=
  match r with
  | PingRpc => True
  | StoreRpc rs c => recdups_ok rs /\ recval_db rs <> [] /\ Z.of_nat (recdups_size rs) < 2 ^ 32 /\ cookie_id_ok c
  | FindnodeRpc t => kad_id_ok t
  | FindsomevalRpc k _ => kad_id_ok k
  | FindallvalRpc gt k _ _ => kad_id_ok gt /\ kad_id_ok k
  | DeleteRpc i c => kad_id_ok i /\ cookie_id_ok c
  end.

Definition cookie_sent (b : bool) (c : cookie_id_t) : cookie_id_t := if b then c else cookie_id_null.
Definition nodes_event (rq : request_t) (p : kad_peer_t) (t : kad_id) (e : kad_event_t) : Prop :=
  exists l, closest_nodes cs t rq p l /\ e = KeAddrArr l (cookie_sent (cookie_in_reply_ok (pc_rpc cs)) (given_cookie rq p)).
Definition may_store (c : cookie_id_t) : request_t -> kad_peer_t -> bool :=
  allowed (store_rpc_ok (pc_rpc cs)) (cookie_store_ok (pc_rpc cs)) (cookie_sent (cookie_store_ok (pc_rpc cs)) c).
Definition may_delete (c : cookie_id_t) : request_t -> kad_peer_t -> bool :=
  allowed (delete_rpc_ok (pc_rpc cs)) (cookie_delete_ok (pc_rpc cs)) (cookie_sent (cookie_delete_ok (pc_rpc cs)) c).

(** What the caller is told of a request the peer obeys, and what the peer [p]
    becomes. *)
Definition answers (env : rpc_env_t) (rq : request_t) (p p' : kad_peer_t) (r : kad_rpc_t) (e : kad_event_t) : Prop :=
  match r with
  | PingRpc => e = KeCompleted /\ same_data p p'
  | StoreRpc rs c => e = KeCompleted /\ may_store c rq p = true /\ stored env rs p p' true
  | FindnodeRpc t => nodes_event rq p t e /\ same_data p p'
  | FindsomevalRpc k n =>
    same_data p p' /\ exists rs, find_by_keyid (re_now env) k kad_id_null (kp_remote_db p) = Ok rs /\
      if bool_decide (recdups_size rs <> 0)%nat
      then exists d, recval_db d ≡ₚ recval_db rs /\ rd_keyid d = rd_keyid rs /\ e = page (wrap 32 n) d
      else nodes_event rq p k e
  | FindallvalRpc gt k ge n =>
    same_data p p' /\ exists rs, find_ge env gt k (if ge then 1 else 0) (kp_remote_db p) = Ok rs /\ e = page (wrap 32 n) (sort_by_recid rs)
  | DeleteRpc i c => e = KeCompleted /\ may_delete c rq p = true /\ db_abs (kp_remote_db p') = delete i (db_abs (kp_remote_db p))
  end.
(** What it does not obey: it does not reply. *)
Definition refuses (env : rpc_env_t) (rq : request_t) (p p' : kad_peer_t) (r : kad_rpc_t) : Prop :=
  match r with
  | PingRpc => ping_rpc_ok (pc_rpc cs) = false
  | StoreRpc rs c => may_store c rq p = false /\ same_data p p' \/ stored env rs p p' false
  | FindnodeRpc _ => findnode_rpc_ok (pc_rpc cs) = false
  | FindsomevalRpc _ _ => findsomeval_rpc_ok (pc_rpc cs) = false
  | FindallvalRpc _ _ _ _ => findallval_rpc_ok (pc_rpc cs) = false
  | DeleteRpc _ c => may_delete c rq p = false /\ same_data p p'
  end.

(** The request of [r], handled. *)
Definition served (env : rpc_env_t) (remote : kad_addr_t) (rq : request_t) (p p' : kad_peer_t) (r : kad_rpc_t) (reply : list Z) : Prop :=
  (reply = [] /\ refuses env rq p p' r) \/
  exists hd body e echoed, reply = hd ++ body /\ rep_of cs rq (rpc_reply_type r) hd /\
    reply_payload_cb cc r remote body = Ok (e, echoed) /\ answers env rq p p' r e.

Section request.
Context (env : rpc_env_t) (Henv : rpc_env_ok env) (rq : request_t) (Hrq : request_ok cs rq) (p : kad_peer_t) (Hp : peer_ok p).
Context (remote : kad_addr_t) (Hremote : ip_ok (ipaddr (oaddr remote))).

(** A handler's result, as what the caller makes of it. *)
Lemma served_handled r m Q : handled p m Q -> (forall reply p', Q reply p' -> served env remote rq p p' r reply) ->
  handled p m (fun reply p' => served env remote rq p p' r reply).
Proof using. intros (reply & p' & ? & ? & ? & ? & HQ) Hsv. exists reply, p'. by split_and!; [..|apply Hsv]. Qed.

Lemma ping_served : handled p (handle_ping_request cs rq p) (fun reply p' => served env remote rq p p' PingRpc reply).
Proof using HL Hcs Hrq Hp Hremote.
  apply (served_handled _ _ _ (ping_handled cs Hcs rq p Hrq Hp)). intros reply p' [Hd H].
  destruct (ping_rpc_ok (pc_rpc cs)) eqn:E; [right|left; by split]. destruct H as (hd & Hhd & ->).
  assert (Hn : exists n, notify_echoed_local_ipaddr (ipaddr (remote_oaddr rq)) remote = Ok n).
  { unfold notify_echoed_local_ipaddr. destruct (is_public_total _ Hremote) as [b ->]. cbn [mbind outcome_bind].
    destruct b; cbn [negb]; [|by eexists]. destruct (is_public_total _ (rq_remote cs rq Hrq)) as [b ->]. cbn [mbind outcome_bind]. destruct b; by eexists. }
  destruct Hn as [n Hn]. eexists hd, _, KeCompleted, n. split; [done|]. split; [done|]. split; [|done].
  cbn [reply_payload_cb]. unfold ping_reply_payload_cb. rewrite <- (app_nil_r (wire_put ip_codec _)), wire_get_put by apply (rq_remote cs rq Hrq).
  cbn [try_parse]. by rewrite Hn.
Qed.

Lemma store_served rs c : rpc_ok (StoreRpc rs c) -> rq_pkt rq = build_request_payload cc (StoreRpc rs c) ->
  handled p (handle_store_request cs env rq p) (fun reply p' => served env remote rq p p' (StoreRpc rs c) reply).
Proof using HL HML Hcs Hnet Henv Hrq Hp.
  intros (Hrs & Hne & Hlen & Hc) Hpkt. apply (served_handled _ _ _ (store_handled cs Hcs env rq p Hrq Hp Henv)). intros reply p' H.
  assert (E1 : wire_get_recdups (rq_pkt rq) = Ok (rs, put_if (cookie_store_ok (pc_rpc cs)) cookie_codec c)).
  { rewrite Hpkt. cbn [build_request_payload]. unfold store_payload. rewrite <- (proj1 Hnet), wire_recdups_roundtrip by done. by destruct (recval_db rs). }
  pose proof (get_if_all (cookie_store_ok (pc_rpc cs)) cookie_codec cookie_id_null c Hc) as E2. unfold served, answers, refuses, may_store.
  destruct H as [[[-> ?] Hna]|(rs' & c' & ok & (l1 & l2 & E1' & E2') & Ha & Hst & H)].
  - left. split; [done|]. left. split; [|done]. apply (Hna rs). eexists _, _. split; [exact E1|exact E2].
  - rewrite E1 in E1'. injection E1' as <- <-. rewrite E2 in E2'. injection E2' as <- _. destruct ok; [right|left; split; [done|by right]].
    exists reply, [], KeCompleted, None. rewrite app_nil_r. split; [done|]. split; [exact H|]. split; [done|]. by split_and!.
Qed.

Lemma findnode_served t : kad_id_ok t -> rq_pkt rq = build_request_payload cc (FindnodeRpc t) ->
  handled p (handle_findnode_request cs rq p) (fun reply p' => served env remote rq p p' (FindnodeRpc t) reply).
Proof using HL HML Hcs Hnet Hrq Hp.
  intros Ht Hpkt. apply (served_handled _ _ _ (findnode_handled cs Hcs rq p Hrq Hp)). intros reply p' [Hd H].
  assert (E1 : wire_get kad_id_codec (rq_pkt rq) = Ok (t, [])) by (rewrite Hpkt; by apply (wire_get_all kad_id_codec)). specialize (H _ _ E1).
  destruct (findnode_rpc_ok (pc_rpc cs)) eqn:E; [right|left; by split]. destruct H as (hd & l & Hhd & Hl & ->).
  eexists hd, _, _, None. split; [done|]. split; [exact Hhd|]. cbn [reply_payload_cb]. rewrite (nodes_read rq p t l Hl), bind_ok.
  split; [done|]. split; [by exists l|done].
Qed.

Lemma findallval_served gt k (ge : bool) n : kad_id_ok gt -> kad_id_ok k -> rq_pkt rq = build_request_payload cc (FindallvalRpc gt k ge n) ->
  handled p (handle_findallval_request cs env rq p) (fun reply p' => served env remote rq p p' (FindallvalRpc gt k ge n) reply).
Proof using HL HML Hcs Hnet Henv Hrq Hp.
  intros Hgt Hk Hpkt. apply (served_handled _ _ _ (findallval_handled cs Hcs env rq p Hrq Hp Henv)). intros reply p' [Hd H].
  assert (Hn : in_range 32 (wrap 32 n)) by (by apply wrap_range).
  set (w := wrap 32 n) in *. set (g := if ge then 1 else 0).
  assert (E1 : wire_get kad_id_codec (rq_pkt rq) = Ok (gt, wire_put kad_id_codec k ++ wire_put u8_codec g ++ wire_put u32_codec w))
    by (rewrite Hpkt; by apply (wire_get_put (c := kad_id_codec))).
  assert (E2 : wire_get kad_id_codec (wire_put kad_id_codec k ++ wire_put u8_codec g ++ wire_put u32_codec w) = Ok (k, wire_put u8_codec g ++ wire_put u32_codec w))
    by (by apply (wire_get_put (c := kad_id_codec))).
  assert (E3 : wire_get u8_codec (wire_put u8_codec g ++ wire_put u32_codec w) = Ok (g, wire_put u32_codec w)) by (apply (wire_get_put (c := u8_codec)); by destruct ge).
  specialize (H _ _ _ _ _ _ _ _ E1 E2 E3 (wire_get_all u32_codec w Hn)).
  destruct (findallval_rpc_ok (pc_rpc cs)) eqn:E; [right|left; by split]. destruct H as (hd & rs & Hhd & Ers & Hrs & ->).
  eexists hd, _, _, None. split; [done|]. split; [exact Hhd|]. cbn [reply_payload_cb].
  rewrite (page_read _ _ (sorted_recdups_ok rs Hrs)), bind_ok by apply Hn. split; [done|]. split; [done|]. by exists rs.
Qed.

Lemma findsomeval_served k n : kad_id_ok k -> rq_pkt rq = build_request_payload cc (FindsomevalRpc k n) ->
  handled p (handle_findsomeval_request cs env rq p) (fun reply p' => served env remote rq p p' (FindsomevalRpc k n) reply).
Proof using HL HML Hcs Hnet Henv Hrq Hp.
  intros Hk Hpkt. apply (served_handled _ _ _ (findsomeval_handled cs Hcs env rq p Hrq Hp Henv)). intros reply p' [Hd H].
  assert (Hn : in_range 32 (wrap 32 n)) by (by apply wrap_range).
  assert (E1 : wire_get kad_id_codec (rq_pkt rq) = Ok (k, wire_put u32_codec (wrap 32 n))) by (rewrite Hpkt; by apply (wire_get_put (c := kad_id_codec))).
  specialize (H _ _ _ _ E1 (wire_get_all u32_codec _ Hn)).
  destruct (findsomeval_rpc_ok (pc_rpc cs)) eqn:E; [right|left; by split]. destruct H as (hd & rs & Hhd & Ers & H).
  assert (Hans : forall e, (if bool_decide (recdups_size rs <> 0)%nat
      then exists d, recval_db d ≡ₚ recval_db rs /\ rd_keyid d = rd_keyid rs /\ e = page (wrap 32 n) d else nodes_event rq p k e) ->
    answers env rq p p' (FindsomevalRpc k n) e) by (intros e He; split; [done|by exists rs]).
  destruct (bool_decide (recdups_size rs <> 0)%nat).
  - destruct H as (d & Hdok & Hperm & Hkey & ->). eexists hd, _, _, None. split; [done|]. split; [exact Hhd|]. cbn [reply_payload_cb].
    unfold findsomeval_reply_payload_cb. rewrite (wire_get_put (c := u8_codec)) by done. cbn [mbind outcome_bind].
    pose proof (page_read (wrap 32 n) d Hdok (proj1 Hn)) as Hpr. unfold findallval_reply_payload_cb in Hpr.
    rewrite (proj2 (Z.eqb_neq 1 0)) by done. cbn [negb]. rewrite Hpr, bind_ok. split; [done|]. apply Hans. by exists d.
  - destruct H as (l & Hl & ->). eexists hd, _, _, None. split; [done|]. split; [exact Hhd|]. cbn [reply_payload_cb].
    unfold findsomeval_reply_payload_cb. rewrite (wire_get_put (c := u8_codec)) by done. cbn [mbind outcome_bind].
    pose proof (nodes_read rq p k l Hl) as Hnr. unfold findnode_reply_payload_cb in Hnr.
    rewrite Z.eqb_refl. cbn [negb]. rewrite Hnr, bind_ok. split; [done|]. apply Hans. by exists l.
Qed.

Lemma delete_served i c : rpc_ok (DeleteRpc i c) -> rq_pkt rq = build_request_payload cc (DeleteRpc i c) ->
  handled p (handle_delete_request cs rq p) (fun reply p' => served env remote rq p p' (DeleteRpc i c) reply).
Proof using HL HML Hcs Hnet Hrq Hp.
  intros [Hi Hc] Hpkt. apply (served_handled _ _ _ (delete_handled cs Hcs rq p Hrq Hp)). intros reply p' H.
  assert (E1 : wire_get kad_id_codec (rq_pkt rq) = Ok (i, put_if (cookie_delete_ok (pc_rpc cs)) cookie_codec c)).
  { rewrite Hpkt, (proj1 Hnet). by apply (wire_get_put (c := kad_id_codec)). }
  pose proof (get_if_all (cookie_delete_ok (pc_rpc cs)) cookie_codec cookie_id_null c Hc) as E2. unfold served, answers, refuses, may_delete.
  destruct H as [[[-> ?] Hna]|(i' & c' & (l1 & l2 & E1' & E2') & Ha & Hhd & Habs & _)].
  - left. split; [done|]. split; [|done]. apply (Hna i). eexists _, _. split; [exact E1|exact E2].
  - rewrite E1 in E1'. injection E1' as <- <-. rewrite E2 in E2'. injection E2' as <- _. right.
    exists reply, [], KeCompleted, None. rewrite app_nil_r. split; [done|]. split; [exact Hhd|]. split; [done|]. by split_and!.
Qed.
End request.

Lemma same_data_parts p p' p3 : same_parts p' p3 -> same_data p p' -> same_data p p3.
Proof using. intros (_ & E2 & E3). unfold same_data. by rewrite E2, E3. Qed.
Lemma answers_parts env rq p p' p3 r e : same_parts p' p3 -> answers env rq p p' r e -> answers env rq p p3 r e.
Proof using.
  intros Hs. pose proof (same_data_parts p p' p3 Hs) as Hd. destruct Hs as (_ & E2 & _).
  destruct r; unfold answers, stored; rewrite ?E2; intuition auto.
Qed.
Lemma refuses_parts env rq p p' p3 r : same_parts p' p3 -> refuses env rq p p' r -> refuses env rq p p3 r.
Proof using.
  intros Hs. pose proof (same_data_parts p p' p3 Hs) as Hd. destruct Hs as (_ & E2 & _).
  destruct r; unfold refuses, stored; rewrite ?E2; intuition auto.
Qed.

Lemma serve_served env remote rq p r :
  rpc_env_ok env -> request_ok cs rq -> peer_ok p -> ip_ok (ipaddr (oaddr remote)) -> rpc_ok r -> rq_pkt rq = build_request_payload cc r ->
  handled p (serve cs env rq p (rpc_request_type r)) (fun reply p' => served env remote rq p p' r reply).
Proof using HL HML Hcs Hnet.
  intros Henv Hrq Hp Hr Hok Hpkt. destruct r; cbn [rpc_request_type serve rpc_ok] in *.
  - by apply ping_served.
  - by apply store_served.
  - by apply findnode_served.
  - by apply findsomeval_served.
  - destruct Hok. by apply findallval_served.
  - by apply delete_served.
Qed.

Lemma payload_bytes r : rpc_ok r -> bytes_ok (build_request_payload cc r).
Proof using.
  assert (Hid : forall i, kad_id_ok i -> bytes_ok (wire_put kad_id_codec i)) by (intros i; apply (wire_put_bytes (c := kad_id_codec))).
  assert (Hn : forall n, bytes_ok (wire_put u32_codec (wrap 32 n))) by (intros n; apply (wire_put_bytes (c := u32_codec)); by apply wrap_range).
  destruct r as [|rs c|t|k n|gt k ge n|i c]; cbn [rpc_ok build_request_payload]; unfold store_payload, findnode_payload, findsomeval_payload, findallval_payload, delete_payload.
  - constructor.
  - intros (Hrs & _ & Hlen & Hc). apply Forall_app_2; [by apply wire_recdups_bytes|by apply (put_if_bytes _ cookie_codec)].
  - apply Hid.
  - intros Hk. apply Forall_app_2; [by apply Hid|apply Hn].
  - intros [Hgt Hk]. apply Forall_app_2; [by apply Hid|]. apply Forall_app_2; [by apply Hid|]. apply Forall_app_2; [|apply Hn].
    apply (wire_put_bytes (c := u8_codec)). by destruct ge.
  - intros [Hi Hc]. apply Forall_app_2; [by apply Hid|by apply (put_if_bytes _ cookie_codec)].
Qed.

End exchange.

(* ------------------------------------------------------------------ *)
(** * Page by page *)
(* ------------------------------------------------------------------ *)

Section pages.
Context `{L : InetLib} (cfg : kad_peer_cfg_t) (Hcfg : cfg_ok cfg).
Context (env : rpc_env_t) (p : kad_peer_t) (k : kad_id) (n : Z).
Context (Henv : rpc_env_ok env) (Hp : peer_ok p) (Hk : kad_id_ok k) (Hn : 0 <= n).

(** Asking for the records of the key above [gt], then above the last received,
    until the answer says there are no more; a page without records that says
    there are more stops a [kad_query_t]. *)
Fixpoint collect (fuel : nat) (gt : kad_id) : outcome (list recval_t) :=
  match fuel with
  | O => Fault
  | S fuel' =>
    let* rs := find_ge env gt k 0 (kp_remote_db p) in
    let d := sort_by_recid rs in
    let got := take (page_len cfg n d) (recval_db d) in
    if bool_decide (recdups_size d - page_len cfg n d = 0)%nat then Ok got
    else
      match last got with
      | Some rv => let* rest := collect fuel' (rv_recid rv) in Ok (got ++ rest)
      | None => AssertFail
      end
  end.

(** The records of the key, as they are given out. *)
Definition held (gt : kad_id) (rv : recval_t) : Prop :=
  exists r date, db_abs (kp_remote_db p) !! rv_recid rv = Some (r, date) /\ keyid r = k /\ after_gt gt (rv_recid rv) /\
    rv = recval_of (current (is_remote_db (kp_remote_db p)) (re_now env) r date).
Definition id_before (a b : recval_t) : Prop := be_value (rv_recid a) < be_value (rv_recid b).

(** What a request with [gt] finds, sorted. *)
Definition above (gt : kad_id) (l : list recval_t) : Prop := StronglySorted id_before l /\ forall rv, rv ∈ l <-> held gt rv.

Lemma sorted_ids l : Forall (fun rv => kad_id_ok (rv_recid rv)) l -> NoDup (rv_recid <$> l) -> StronglySorted id_before (std_sort recval_lt l).
Proof using.
  clear. intros Hl Hnd.
  assert (Hs : StronglySorted (key_le (fun rv => be_value (rv_recid rv))) (std_sort recval_lt l)).
  { apply (std_sort_sorted _ (fun rv => kad_id_ok (rv_recid rv))); [|done]. intros a b Ha Hb. unfold recval_lt. rewrite id_compare_spec by done.
    rewrite eq_bool_prop_intro || apply eq_true_iff_eq. rewrite !Z.ltb_lt. lia. }
  rewrite <- (std_sort_perm recval_lt l) in Hl, Hnd. induction Hs as [|a m Hs IH Ha]; constructor.
  - apply IH; [by apply Forall_cons in Hl as [_ ?]|by apply NoDup_cons in Hnd as [_ ?]].
  - apply NoDup_cons in Hnd as [Hnin _]. apply Forall_cons in Hl as [Hida Hl]. rewrite Forall_forall in Ha, Hl |- *. intros b Hb.
    specialize (Ha b Hb). unfold key_le, id_before in *. assert (be_value (rv_recid a) <> be_value (rv_recid b)); [|lia].
    intros E. apply Hnin. apply (id_value_inj KAD_ID_SIZE) in E; [|done|by apply Hl]. rewrite E. by apply list_elem_of_fmap_2.
Qed.

Lemma find_above gt : kad_id_ok gt -> exists rs, find_ge env gt k 0 (kp_remote_db p) = Ok rs /\ recdups_ok rs /\
  above gt (recval_db (sort_by_recid rs)).
Proof using Henv Hp Hk.
  intros Hgt. destruct Henv as [(Hnow & _) _].
  destruct (find_correct (re_now env) k gt _ Hnow Hk Hgt (po_db p Hp)) as (rs & E & _ & _ & Hnd & Hall). exists rs.
  pose proof (found_wire (re_now env) k gt p rs Hnow Hk Hgt Hp E) as Hrs. split; [|split; [done|split]].
  - unfold find_ge. rewrite E. cbn [mbind outcome_bind]. by rewrite andb_false_r.
  - apply sorted_ids; [|done]. eapply Forall_impl; [apply Hrs|]. by intros rv [? _].
  - intros rv. cbn [sort_by_recid recval_db]. rewrite std_sort_perm. apply Hall.
Qed.

Lemma above_unique gt l l' : above gt l -> above gt l' -> l = l'.
Proof using.
  clear. intros [Hs Hl] [Hs' Hl']. assert (Hnd : forall m, StronglySorted id_before m -> NoDup m).
  { intros m Hm. induction Hm as [|a m Hm IH Ha]; constructor; [|done]. intros Hin. rewrite Forall_forall in Ha. specialize (Ha a Hin). unfold id_before in Ha. lia. }
  apply (StronglySorted_unique_strong id_before); [|done|done|].
  - unfold id_before. intros; lia.
  - apply NoDup_Permutation; [by apply Hnd|by apply Hnd|]. intros x. by rewrite Hl, Hl'.
Qed.

(** What is left after a record of the list. *)
Lemma above_after gt l1 rv l2 : rv_recid rv <> kad_id_null -> above gt (l1 ++ rv :: l2) -> above (rv_recid rv) l2.
Proof using.
  intros Hne [Hs Hl]. apply StronglySorted_app in Hs as (Hb & _ & Hs). apply StronglySorted_inv in Hs as [Hs Ha].
  assert (Hrv : held gt rv) by (apply Hl, elem_of_app; right; by left). rewrite Forall_forall in Ha. split; [done|]. intros x. split.
  - intros Hx. assert (Hh : held gt x) by (apply Hl, elem_of_app; right; by right). destruct Hh as (r & date & H1 & H2 & _ & H3).
    exists r, date. split_and!; try done. right. by apply Ha.
  - intros (r & date & H1 & H2 & [?|Hlt] & H3); [done|]. assert (Hx : x ∈ l1 ++ rv :: l2).
    { apply Hl. exists r, date. split_and!; try done. destruct Hrv as (_ & _ & _ & _ & [?|?] & _); [by left|right; lia]. }
    apply elem_of_app in Hx as [Hx|Hx]; [|apply elem_of_cons in Hx as [->|]; [lia|done]].
    assert (Hbx : id_before x rv) by (apply Hb; [done|by left]). unfold id_before in Hbx. lia.
Qed.

(** Every record of the key fits in a packet, and none has a null identifier. *)
Definition fits : Prop :=
  forall i r date, db_abs (kp_remote_db p) !! i = Some (r, date) -> keyid r = k ->
    i <> kad_id_null /\ (56 + length (rec_payload r) <= replypkt_maxlen (pc_rpc cfg))%nat.

Lemma page_pos gt d : fits -> recval_db d <> [] -> (forall rv, rv ∈ recval_db d -> held gt rv) -> (0 < page_len cfg n d)%nat.
Proof using Hn.
  intros Hf Hne Hh. destruct (recval_db d) as [|rv db] eqn:E; [done|]. destruct (Hh rv) as (r & date & Hl & Hkr & _ & Hrv); [by left|].
  destruct (Hf _ _ _ Hl Hkr) as [_ Hlen]. assert (Hpay : rv_payload rv = rec_payload r) by (rewrite Hrv; unfold current; by destruct (is_remote_db _)).
  unfold page_len. rewrite E. cbn [count_fitting]. rewrite Hpay, (bool_decide_eq_false_2 (_ < _)%nat) by lia. rewrite andb_false_r.
  destruct (negb (n =? 0) && _) eqn:En; [|lia]. apply andb_true_iff in En as [?%negb_true_iff%Z.eqb_neq _]. lia.
Qed.

Lemma collect_above fuel gt l : fits -> kad_id_ok gt -> above gt l -> (length l < fuel)%nat -> collect fuel gt = Ok l.
Proof using Hcfg Henv Hp Hk Hn.
  intros Hf. revert gt l. induction fuel as [|fuel IH]; intros gt l Hgt Hab Hlen; [lia|]. cbn [collect].
  destruct (find_above gt Hgt) as (rs & -> & Hrs & Habs). cbn [mbind outcome_bind]. rewrite (above_unique gt _ _ Habs Hab) in *.
  set (d := sort_by_recid rs) in *. assert (El : recval_db d = l) by (by apply (above_unique gt)).
  unfold recdups_size. rewrite El. destruct (page_spec cfg Hcfg n d (sorted_recdups_ok rs Hrs) Hn) as (_ & Hle & _).
  unfold recdups_size in Hle. rewrite El in Hle. set (m := page_len cfg n d) in *. case_bool_decide as Hm.
  { f_equal. apply take_ge. lia. }
  destruct (lookup_lt_is_Some_2 l (m - 1)) as [rv Hrv]; [lia|].
  assert (Hpos : (0 < m)%nat) by (apply (page_pos gt); [done|rewrite El; by destruct l|rewrite El; apply Hab]).
  assert (Hsplit : l = take (m - 1) l ++ rv :: drop m l).
  { rewrite <- (take_drop_middle l (m - 1) rv Hrv) at 1. do 3 f_equal. lia. }
  assert (Hlast : last (take m l) = Some rv).
  { rewrite last_lookup, length_take, lookup_take_lt by lia. rewrite <- Hrv. f_equal. lia. }
  rewrite Hlast. assert (Hheld : held gt rv) by (apply Hab; by apply list_elem_of_lookup_2 in Hrv).
  destruct Hheld as (r & date & Hl & Hkr & _). destruct (Hf _ _ _ Hl Hkr) as [Hne _].
  rewrite (IH (rv_recid rv) (drop m l)).
  - cbn [mbind outcome_bind]. by rewrite take_drop.
  - pose proof (abs_ids _ _ _ _ (po_db p Hp) Hl) as (E & Hid & _). by rewrite <- E.
  - rewrite Hsplit in Hab. by apply (above_after gt (take (m - 1) l)).
  - rewrite length_drop. lia.
Qed.

End pages.

(* ------------------------------------------------------------------ *)
(** * Witnesses *)
(* ------------------------------------------------------------------ *)

#[local] Existing Instances quad_lib quad_lib_laws ex_hmac ex_hmac_laws.

(** Two peers of a network that requires cookies, behind a NAT. *)
Definition rx_rpc : kad_rpc_profile_t := RpcProfile true true true true true true true true 1200 true true true.
Definition rx_cfg (b : Z) : kad_peer_cfg_t :=
  PeerCfg rx_rpc (PkttypeProfile ST_UINT8 16 20) ex_profile (rid 99) (ex_id b) (Aview (Ipport (V4 0) 4000) (Ipport (V4 0x01020304) 5000)).
Lemma rx_cfg_ok b : is_byte b -> b <> 0 -> cfg_ok (rx_cfg b).
Proof.
  intros Hb Hne. assert (Hid : kad_id_ok (ex_id b)) by (split; [done|]; apply Forall_app_2; [by apply Forall_replicate|by constructor]).
  split; cbn [rx_cfg pc_pkttype pc_realm pc_peerid pc_listen_aview pc_rpc pc_kbucket lview pview].
  - split; [exact I|]. vm_compute. intuition congruence.
  - apply rid_ok.
  - exact Hid.
  - by vm_compute.
  - by vm_compute.
  - by split.
  - by split.
  - by vm_compute.
  - by vm_compute.
Qed.

Definition rx_env : rpc_env_t := RpcEnv (KadDb.ex_env 150) true (fun _ _ => (0, 0)%nat).
Lemma rx_env_ok : rpc_env_ok rx_env.
Proof. split; [by apply KadDb.ex_env_ok|]. cbn. lia. Qed.

Definition rx_table : kbucket_t :=
  match kbucket_ctor ex_profile (Ipport (V4 0) 4000) (ex_id 0) true with Ok k => k | _ => Kbucket [] 0 0 [] ∅ ∅ [] false [] end.
Lemma rx_table_ok : table_of checked_addr rx_table.
Proof.
  unfold rx_table. destruct (kbucket_ctor ex_profile (Ipport (V4 0) 4000) (ex_id 0) true) as [k0| | |] eqn:Hk0; [|vm_compute in Hk0; discriminate..].
  refine (table_of_ctor ex_profile checked_addr _ _ true true k0 ex_id_ok eq_refl eq_refl ex_any ex_qualified Hk0 _). clear Hk0.
  split; [split; [apply ex_id_ok|apply ex_qualified]|]. split; [by split|apply ex_id_ok].
Qed.

Definition rx_peer : kad_peer_t := KadPeer rx_table ex_db ex_cookie_db kad_stat_reset.
Lemma rx_peer_ok : peer_ok rx_peer.
Proof.
  split; cbn [rx_peer kp_kbucket kp_remote_db].
  - apply rx_table_ok.
  - apply ex_db_wf.
  - apply map_Forall_to_list. assert (E : (fun q : kad_id * (kad_rec_t * Z) => rec_payload q.2.1) <$> map_to_list (db_abs ex_db) = [[65]; [66]]) by by vm_compute.
    assert (Hall : Forall blob_ok ((fun q : kad_id * (kad_rec_t * Z) => rec_payload q.2.1) <$> map_to_list (db_abs ex_db))).
    { rewrite E. constructor; [by split; [repeat constructor|]|]. constructor; [by split; [repeat constructor|]|constructor]. }
    rewrite Forall_fmap in Hall. eapply Forall_impl; [exact Hall|]. by intros [i q].
  - pose proof ex_rec_ok as [H1 H2].
    destruct (run_gives (take 2 ex_db_events) (kad_db_ctor (rid 0) true ex_db_profile)) as (d & Hd & _ & Habs & _ & _ & Hpr).
    + apply ctor_wf; [apply rid_ok|apply ex_db_profile_ok].
    + split; [split; [by apply KadDb.ex_env_ok|by split]|]. split; [split; [by apply KadDb.ex_env_ok|by split]|done].
    + assert (ex_db = d) as -> by (unfold ex_db; by rewrite Hd). rewrite Hpr, Habs. apply within_run.
      change (db_abs (kad_db_ctor (rid 0) true ex_db_profile)) with (∅ : db_spec).
      split; [by right; vm_compute; lia|]. split; [apply map_Forall_empty|]. intros _ i j q q' Hi. by rewrite lookup_empty in Hi.
Qed.

(** A request: its header with a null source address. *)
Definition rx_remote : ipport_addr_t := Ipport (V4 0x08080808) 4000.
Definition rx_local : ipport_addr_t := Ipport (V4 0x0A000001) 4000.
Definition rx_nonce : list Z := be_bytes 8 77.
Definition rx_header (ty : Z) (src : kad_addr_t) : list Z :=
  [ty] ++ rid 99 ++ ex_id 1 ++ wire_put kad_addr_codec src ++ rx_nonce.
Lemma rx_remote_ok : ip_ok (ipaddr rx_remote) /\ ipport_is_fully_qualified rx_remote = Ok true.
Proof. by split. Qed.

Definition byteb (b : Z) : bool := (0 <=? b) && (b <? 256).
Lemma byteb_ok l : forallb byteb l = true -> bytes_ok l.
Proof.
  rewrite forallb_forall. intros H. apply Forall_forall. intros b Hb%list_elem_of_In%H. unfold byteb in Hb.
  apply andb_true_iff in Hb as [H1%Z.leb_le H2%Z.ltb_lt]. split; [done|]. change (b < 256). done.
Qed.

Lemma server_safe_witness :
  exists reply p', handle_request_pkt (rx_cfg 1) rx_env (rx_header 16 kad_addr_null) rx_local rx_remote rx_peer = Ok (reply, p') /\ peer_ok p'.
Proof.
  destruct rx_remote_ok as [Hr Hq].
  destruct (server_safe (rx_cfg 1) (rx_cfg_ok 1 ltac:(by split) ltac:(done)) rx_env (rx_header 16 kad_addr_null) rx_local rx_remote rx_peer
    rx_peer_ok rx_env_ok ltac:(by apply byteb_ok) Hr Hq) as (reply & p' & E & Hp & _).
  - by vm_compute.
  - intros t src nonce rest E. vm_compute in E. injection E as <- <- <- <-. split; [|by left]. exists PING_REQUEST. split; [done|]. by vm_compute.
  - exists reply, p'. split; [exact E|exact Hp].
Defined.

(** The type of a reply; a type that is not reserved; a source without a port. *)
Lemma server_aborts_witness :
  handle_request_pkt (rx_cfg 1) rx_env (rx_header 17 kad_addr_null) rx_local rx_remote rx_peer = AssertFail /\
  handle_request_pkt (rx_cfg 1) rx_env [5] rx_local rx_remote rx_peer = AssertFail /\
  handle_request_pkt (rx_cfg 1) rx_env (rx_header 16 (KadAddr (Ipport (V4 0x01020304) 0) (ex_id 2))) rx_local rx_remote rx_peer = AssertFail.
Proof.
  destruct rx_remote_ok as [Hr Hq]. pose proof (rx_cfg_ok 1 ltac:(by split) ltac:(done)) as Hcfg.
  assert (Hne : kad_type_idx PING_REPLY <> kad_type_idx PING_REQUEST) by done.
  pose proof (fun pkt Hb => server_aborts (rx_cfg 1) Hcfg rx_env pkt rx_local rx_remote rx_peer rx_peer_ok rx_env_ok Hb Hr Hq) as H. split; [|split].
  - refine (proj2 (H (rx_header 17 kad_addr_null) _) (kad_type (pc_pkttype (rx_cfg 1)) PING_REPLY) kad_addr_null rx_nonce [] _ _); [by apply byteb_ok|by vm_compute|].
    left. intros u [Hu Eu]. apply (f_equal pkttype_idx) in Eu. destruct u; try done; by vm_compute in Eu.
  - refine (proj1 (H [5] _) _); [by apply byteb_ok|by vm_compute].
  - refine (proj2 (H (rx_header 16 (KadAddr (Ipport (V4 0x01020304) 0) (ex_id 2))) _) (kad_type (pc_pkttype (rx_cfg 1)) PING_REQUEST)
      (KadAddr (Ipport (V4 0x01020304) 0) (ex_id 2)) rx_nonce [] _ _); [by apply byteb_ok|by vm_compute|].
    right. intros [E|(_ & Hport & _)]; [by vm_compute in E|by apply Hport].
Defined.

(** A node asks another for the nodes closest to an identifier. *)
Definition rx_caddr : ipport_addr_t := Ipport (V4 0x05060708) 9000.


(** A removal with a cookie of another path. *)
Definition rx_delete : list Z := rx_header 26 kad_addr_null ++ rid 1 ++ cookie_id_null.
Lemma db_needs_cookie_witness : exists reply p', handle_request_pkt (rx_cfg 1) rx_env rx_delete rx_local rx_caddr rx_peer = Ok (reply, p') /\
  db_abs (kp_remote_db p') = db_abs (kp_remote_db rx_peer).
Proof.
  assert (Hok : match handle_request_pkt (rx_cfg 1) rx_env rx_delete rx_local rx_caddr rx_peer with Ok _ => true | _ => false end = true) by (vm_compute; reflexivity).
  destruct (handle_request_pkt (rx_cfg 1) rx_env rx_delete rx_local rx_caddr rx_peer) as [[reply p']| | |] eqn:E; [clear Hok|discriminate Hok..].
  exists reply, p'. split; [reflexivity|].
  destruct (db_needs_cookie (rx_cfg 1) (rx_cfg_ok 1 ltac:(by split) ltac:(done)) rx_env rx_delete rx_local rx_caddr rx_peer reply p'
    eq_refl eq_refl rx_peer_ok rx_env_ok ltac:(by apply byteb_ok) ltac:(by split) ltac:(done) E) as [Hd|(h & rest & c & Eh & Hrd & Hg)]; [exact Hd|].
  exfalso. clear E. vm_compute in Eh. injection Eh as _ <-.
  destruct Hrd as [(rs & l1 & l2 & E1 & E2)|(i & l1 & l2 & E1 & E2)]; vm_compute in E1; injection E1 as _ <-; vm_compute in E2; injection E2 as <- _;
    destruct Hg as [Hg|Hg]; by vm_compute in Hg.
Defined.
