(* ===== verification/Rdgram.v ===== *)
(** Reliable datagrams: [rdgram_t] and its [sendbuf_pkt_t]
    (src/src/neoip_proto/rdgram/).

    The send buffer is a [std::map<wai32_t, sendbuf_pkt_t *>]: an ordered
    association list under the order of [wai_t].  Packets are byte sequences.
    An operation returns, in order, the events given to the callback of the
    layer; the callback's answer (whether the layer is still alive) is the
    argument [cb], and its answer to "must this packet be acknowledged" the
    argument [should_acked].  A [zerotimer_t] is the number of its pending
    callbacks. *)
From stdpp Require Import gmap.
From S2P Require Import Prelude Serial Codec Wai Omap Time.

(* ------------------------------------------------------------------ *)
(** * Data *)
(* ------------------------------------------------------------------ *)

(** [rdgram_pkttype_t]: the items follow [NONE = NEOIP_PKTTYPE_OFFSET_RDGRAM]. *)
Definition NEOIP_PKTTYPE_OFFSET_RDGRAM : Z := 64.
Definition DATA_PKT : Z := NEOIP_PKTTYPE_OFFSET_RDGRAM + 1.
Definition ACK_PKT : Z := NEOIP_PKTTYPE_OFFSET_RDGRAM + 2.
Definition FIRST_SEQNB : Z := 0.

Inductive rdgram_err_t := OK | BOGUS_PKT | SENDBUF_FULL.
Inductive rdgram_event_t := PKT_TO_LOWER (pkt : list Z) | MAYSEND_ON | MAYSEND_OFF.

Record sendbuf_pkt_t := SendbufPkt {
  sb_pkt : list Z;
  rxmit_timer_policy : timer_expboff_t;
  rxmit_timeout : Z                 (* the period of the running timeout *)
}.

Record rdgram_t := Rdgram {
  sendbuf_pkt_db : list (Z * sendbuf_pkt_t);
  next_xmit_seqnb : Z;
  sendbuf_used_len : Z;
  sendbuf_max_len : Z;              (* 0 means unlimited *)
  maysend_threshold : Z;
  seqnb2ack_list : list Z;
  zerotimer_seqnb2ack : nat;
  zerotimer_maysend : nat
}.

Definition rdgram_ctor : rdgram_t := Rdgram [] FIRST_SEQNB 0 0 0 [] 0 0.

Definition set_sendbuf (db : list (Z * sendbuf_pkt_t)) (used : Z) (r : rdgram_t) : rdgram_t :=
  Rdgram db (next_xmit_seqnb r) used (sendbuf_max_len r) (maysend_threshold r)
    (seqnb2ack_list r) (zerotimer_seqnb2ack r) (zerotimer_maysend r).
Definition set_acks (acks : list Z) (zt : nat) (r : rdgram_t) : rdgram_t :=
  Rdgram (sendbuf_pkt_db r) (next_xmit_seqnb r) (sendbuf_used_len r) (sendbuf_max_len r)
    (maysend_threshold r) acks zt (zerotimer_maysend r).
Definition set_maysend_timer (n : nat) (r : rdgram_t) : rdgram_t :=
  Rdgram (sendbuf_pkt_db r) (next_xmit_seqnb r) (sendbuf_used_len r) (sendbuf_max_len r)
    (maysend_threshold r) (seqnb2ack_list r) (zerotimer_seqnb2ack r) n.
(** [zerotimer_maysend.append(this, NULL)]. *)
Definition append_maysend (r : rdgram_t) : rdgram_t := set_maysend_timer (S (zerotimer_maysend r)) r.

(** The header of a packet: its type, then the sequence number. *)
Definition rdgram_header (pkttype seqnb : Z) : list Z :=
  wire_put u8_codec pkttype ++ wire_put u32_codec seqnb.

Definition get_mtu_overhead (r : rdgram_t) : Z :=
  Z.of_nat (length (rdgram_header DATA_PKT (next_xmit_seqnb r))).

(* ------------------------------------------------------------------ *)
(** * The send buffer *)
(* ------------------------------------------------------------------ *)

Definition sendbuf_is_limited (r : rdgram_t) : bool := negb (sendbuf_max_len r =? 0).

Definition sendbuf_get_free_len (r : rdgram_t) : Z :=
  if negb (sendbuf_is_limited r) then max_unsigned SIZE_T_BITS
  else wrap SIZE_T_BITS (sendbuf_max_len r - sendbuf_used_len r).

Definition maysend_is_set (r : rdgram_t) : bool :=
  if maysend_threshold r =? 0 then false
  else if negb (sendbuf_is_limited r) then false else true.

Definition sendbuf_set_max_len (len : Z) (r : rdgram_t) : outcome rdgram_t :=
  assert! sendbuf_used_len r <=? len in
  Ok (Rdgram (sendbuf_pkt_db r) (next_xmit_seqnb r) (sendbuf_used_len r) len
        (maysend_threshold r) (seqnb2ack_list r) (zerotimer_seqnb2ack r) (zerotimer_maysend r)).

Definition maysend_set_threshold (len : Z) (r : rdgram_t) : rdgram_t :=
  let r1 := Rdgram (sendbuf_pkt_db r) (next_xmit_seqnb r) (sendbuf_used_len r) (sendbuf_max_len r)
              len (seqnb2ack_list r) (zerotimer_seqnb2ack r) (zerotimer_maysend r) in
  if negb (maysend_is_set r1) then r1
  else if sendbuf_get_free_len r1 <? maysend_threshold r1
  then append_maysend r1 else append_maysend r1.

Definition sendbuf_add_pkt (pkt_len : Z) (r : rdgram_t) : outcome rdgram_t :=
  let r1 := set_sendbuf (sendbuf_pkt_db r) (wrap SIZE_T_BITS (sendbuf_used_len r + pkt_len)) r in
  assert! negb (sendbuf_is_limited r1) || (sendbuf_used_len r1 <=? sendbuf_max_len r1) in
  if negb (maysend_is_set r1) then Ok r1
  else
    assert! sendbuf_is_limited r1 in
    let free_len := sendbuf_get_free_len r1 in
    if (free_len <? maysend_threshold r1)
       && (maysend_threshold r1 <=? wrap SIZE_T_BITS (free_len + pkt_len))
    then Ok (append_maysend r1) else Ok r1.

Definition sendbuf_del_pkt (pkt_len : Z) (r : rdgram_t) : outcome rdgram_t :=
  assert! pkt_len <=? sendbuf_used_len r in
  let r1 := set_sendbuf (sendbuf_pkt_db r) (wrap SIZE_T_BITS (sendbuf_used_len r - pkt_len)) r in
  if negb (maysend_is_set r1) then Ok r1
  else
    assert! sendbuf_is_limited r1 in
    let free_len := sendbuf_get_free_len r1 in
    if (maysend_threshold r1 <=? free_len)
       && (wrap SIZE_T_BITS (free_len - pkt_len) <? maysend_threshold r1)
    then Ok (append_maysend r1) else Ok r1.

Definition find_sendbuf_pkt (seqnb : Z) (r : rdgram_t) : option sendbuf_pkt_t :=
  om_find (wai_lt 32) seqnb (sendbuf_pkt_db r).

Definition pkt_len (pkt : list Z) : Z := Z.of_nat (length pkt).

(** [nipmem_new sendbuf_pkt_t(pkt, seqnb, rdgram)]. *)
Definition sendbuf_pkt_ctor (pkt : list Z) (seqnb : Z) (r : rdgram_t) : outcome rdgram_t :=
  let (delay, policy) := expboff_first (expboff_ctor (from_msec 500) (from_msec 2000)) in
  let (db, succeed) := om_insert (wai_lt 32) seqnb (SendbufPkt pkt policy delay) (sendbuf_pkt_db r) in
  assert! succeed in
  sendbuf_add_pkt (pkt_len pkt) (set_sendbuf db (sendbuf_used_len r) r).

(** [nipmem_delete sendbuf_pkt]. *)
Definition sendbuf_pkt_dtor (seqnb : Z) (sb : sendbuf_pkt_t) (r : rdgram_t) : outcome rdgram_t :=
  let* r1 := sendbuf_del_pkt (pkt_len (sb_pkt sb)) r in
  Ok (set_sendbuf (om_erase (wai_lt 32) seqnb (sendbuf_pkt_db r1)) (sendbuf_used_len r1) r1).

(** [stop] and the destructor delete the first packet until none is left. *)
Fixpoint stop_loop (fuel : nat) (r : rdgram_t) : outcome rdgram_t :=
  match sendbuf_pkt_db r with
  | [] => Ok r
  | (seqnb, sb) :: _ =>
    match fuel with
    | O => Fault
    | S fuel' => let* r1 := sendbuf_pkt_dtor seqnb sb r in stop_loop fuel' r1
    end
  end.
Definition stop (r : rdgram_t) : outcome rdgram_t := stop_loop (length (sendbuf_pkt_db r)) r.

(** [sendbuf_pkt_t::neoip_timeout_expire_cb]: the retransmission of [seqnb]. *)
Definition timeout_expire_cb (cb : rdgram_event_t -> bool) (seqnb : Z) (sb : sendbuf_pkt_t) (r : rdgram_t)
    : outcome (list rdgram_event_t * bool * rdgram_t) :=
  let rdgram_event := PKT_TO_LOWER (sb_pkt sb) in
  if negb (cb rdgram_event) then Ok ([rdgram_event], false, r)
  else
    let* (delay, policy) := expboff_next (rxmit_timer_policy sb) in
    Ok ([rdgram_event], true,
        set_sendbuf (om_update (wai_lt 32) seqnb (fun _ => SendbufPkt (sb_pkt sb) policy delay)
                       (sendbuf_pkt_db r)) (sendbuf_used_len r) r).

(* ------------------------------------------------------------------ *)
(** * Zero timers *)
(* ------------------------------------------------------------------ *)

Definition zerotimer_maysend_process (cb : rdgram_event_t -> bool) (r : rdgram_t)
    : list rdgram_event_t * bool :=
  if negb (maysend_is_set r) then ([], true)
  else
    let rdgram_event :=
      if sendbuf_get_free_len r <? maysend_threshold r then MAYSEND_OFF else MAYSEND_ON in
    ([rdgram_event], cb rdgram_event).

Definition build_ack (seqnb : Z) : list Z := rdgram_header ACK_PKT seqnb.

(** The events, the answer, and the sequence numbers left to acknowledge. *)
Fixpoint seqnb2ack_loop (cb : rdgram_event_t -> bool) (l : list Z)
    : list rdgram_event_t * bool * list Z :=
  match l with
  | [] => ([], true, [])
  | seqnb :: l' =>
    let rdgram_event := PKT_TO_LOWER (build_ack seqnb) in
    if negb (cb rdgram_event) then ([rdgram_event], false, l')
    else let '(evs, to_keep, rest) := seqnb2ack_loop cb l' in (rdgram_event :: evs, to_keep, rest)
  end.

Definition zerotimer_seqnb2ack_process (cb : rdgram_event_t -> bool) (r : rdgram_t)
    : list rdgram_event_t * bool * rdgram_t :=
  let '(evs, to_keep, rest) := seqnb2ack_loop cb (seqnb2ack_list r) in
  (evs, to_keep, set_acks rest (zerotimer_seqnb2ack r) r).

Inductive zerotimer_id := ZEROTIMER_MAYSEND | ZEROTIMER_SEQNB2ACK.

Definition neoip_zerotimer_expire_cb (zt : zerotimer_id) (cb : rdgram_event_t -> bool) (r : rdgram_t)
    : list rdgram_event_t * bool * rdgram_t :=
  match zt with
  | ZEROTIMER_MAYSEND => let (evs, keep) := zerotimer_maysend_process cb r in (evs, keep, r)
  | ZEROTIMER_SEQNB2ACK => zerotimer_seqnb2ack_process cb r
  end.

(** [zerotimer_t::neoip_timeout_expire_cb]: the list of callbacks is copied and
    cleared, then each is called until one says the object is gone. *)
Fixpoint zerotimer_notify (n : nat) (zt : zerotimer_id) (cb : rdgram_event_t -> bool) (r : rdgram_t)
    : list rdgram_event_t * bool * rdgram_t :=
  match n with
  | O => ([], true, r)
  | S n' =>
    let '(evs, keep, r1) := neoip_zerotimer_expire_cb zt cb r in
    if negb keep then (evs, false, r1)
    else let '(evs2, keep2, r2) := zerotimer_notify n' zt cb r1 in (evs ++ evs2, keep2, r2)
  end.

Definition zerotimer_expire (zt : zerotimer_id) (cb : rdgram_event_t -> bool) (r : rdgram_t)
    : list rdgram_event_t * bool * rdgram_t :=
  match zt with
  | ZEROTIMER_MAYSEND => zerotimer_notify (zerotimer_maysend r) zt cb (set_maysend_timer 0 r)
  | ZEROTIMER_SEQNB2ACK =>
    zerotimer_notify (zerotimer_seqnb2ack r) zt cb (set_acks (seqnb2ack_list r) 0 r)
  end.

(* ------------------------------------------------------------------ *)
(** * Packets *)
(* ------------------------------------------------------------------ *)

(** The error, the packet as the caller's reference holds it, the state. *)
Definition pkt_from_upper (pkt : list Z) (r : rdgram_t) : outcome (rdgram_err_t * list Z * rdgram_t) :=
  let pkt := rdgram_header DATA_PKT (next_xmit_seqnb r) ++ pkt in
  if sendbuf_is_limited r
     && (sendbuf_max_len r <? wrap SIZE_T_BITS (sendbuf_used_len r + pkt_len pkt))
  then Ok (SENDBUF_FULL, pkt, r)
  else
    let* r1 := sendbuf_pkt_ctor pkt (next_xmit_seqnb r) r in
    Ok (OK, pkt, Rdgram (sendbuf_pkt_db r1) (wai_incr 32 (next_xmit_seqnb r1)) (sendbuf_used_len r1)
                   (sendbuf_max_len r1) (maysend_threshold r1) (seqnb2ack_list r1)
                   (zerotimer_seqnb2ack r1) (zerotimer_maysend r1)).

(** A reception: the error, the packet, [seqnb_out] when it is written. *)
Definition recv_result : Type := rdgram_err_t * list Z * option Z * rdgram_t.

Definition recv_data_pkt (should_acked : list Z -> Z -> bool) (pkt : list Z) (r : rdgram_t)
    : outcome recv_result :=
  match wire_get u32_codec pkt with
  | Throw _ => Ok (BOGUS_PKT, pkt, None, r)
  | AssertFail => AssertFail
  | Fault => Fault
  | Ok (pkt_seqnb, pkt) =>
    if negb (should_acked pkt pkt_seqnb) then Ok (OK, [], None, r)
    else
      let zt := match zerotimer_seqnb2ack r with O => 1%nat | n => n end in
      Ok (OK, pkt, Some pkt_seqnb, set_acks (seqnb2ack_list r ++ [pkt_seqnb]) zt r)
  end.

Definition recv_ack_pkt (pkt : list Z) (r : rdgram_t) : outcome recv_result :=
  match wire_get u32_codec pkt with
  | Throw _ => Ok (BOGUS_PKT, pkt, None, r)
  | AssertFail => AssertFail
  | Fault => Fault
  | Ok (pkt_seqnb, pkt) =>
    match find_sendbuf_pkt pkt_seqnb r with
    | None => Ok (OK, [], None, r)
    | Some sb => let* r1 := sendbuf_pkt_dtor pkt_seqnb sb r in Ok (OK, [], None, r1)
    end
  end.

Definition pkt_from_lower (should_acked : list Z -> Z -> bool) (pkt : list Z) (r : rdgram_t)
    : outcome recv_result :=
  match wire_get u8_codec pkt with
  | Throw _ => Ok (BOGUS_PKT, pkt, None, r)
  | AssertFail => AssertFail
  | Fault => Fault
  | Ok (pkttype, pkt) =>
    if pkttype =? DATA_PKT then recv_data_pkt should_acked pkt r
    else if pkttype =? ACK_PKT then recv_ack_pkt pkt r
    else Ok (BOGUS_PKT, pkt, None, r)
  end.

(* ------------------------------------------------------------------ *)
(** * Specification *)
(* ------------------------------------------------------------------ *)

(** The layer over unbounded sequence numbers: the packets waiting for their
    acknowledgement are a finite map. *)
Record spec_state := Spec {
  s_next : Z;
  s_out : gmap Z (list Z);
  s_max : Z;
  s_thr : Z;
  s_acks : list Z;
  s_pend : nat                      (* room notifications to come *)
}.

Definition sendbuf_bytes (m : gmap Z (list Z)) : Z := map_fold (fun _ p acc => pkt_len p + acc) 0 m.

(** Room notifications are given when there is a threshold and a limit. *)
Definition s_notified (s : spec_state) : bool := negb (s_thr s =? 0) && negb (s_max s =? 0).
Definition s_room (s : spec_state) : bool := s_thr s <=? s_max s - sendbuf_bytes (s_out s).

(** The send buffer becomes [out]: a notification is due when there is room now
    and there was none, or the opposite. *)
Definition s_set_out (next : Z) (out : gmap Z (list Z)) (s : spec_state) : spec_state :=
  let s1 := Spec next out (s_max s) (s_thr s) (s_acks s) (s_pend s) in
  if s_notified s && negb (eqb (s_room s) (s_room s1))
  then Spec next out (s_max s) (s_thr s) (s_acks s) (S (s_pend s)) else s1.

Inductive rdgram_op :=
| Upper (p : list Z)
| LowerData (seqnb : Z) (p : list Z)
| LowerAck (seqnb : Z) (p : list Z)
| LowerBogus (bs : list Z)
| Rxmit (q : Z)
| AckTimer
| MaysendTimer
| SetMaxLen (len : Z)
| SetThreshold (len : Z).

Inductive rdgram_out :=
| Result (err : rdgram_err_t) (pkt : list Z) (seqnb : option Z)
| Events (evs : list rdgram_event_t).

Section spec.
Context (should_acked : list Z -> Z -> bool).

Definition rdgram_step (op : rdgram_op) (r : rdgram_t) : outcome (rdgram_out * rdgram_t) :=
  let lower bs := let* (err, pkt, seqnb, r1) := pkt_from_lower should_acked bs r in
                  Ok (Result err pkt seqnb, r1) in
  let timer zt := let '(evs, _, r1) := zerotimer_expire zt (fun _ => true) r in Ok (Events evs, r1) in
  match op with
  | Upper p => let* (err, pkt, r1) := pkt_from_upper p r in Ok (Result err pkt None, r1)
  | LowerData seqnb p => lower (rdgram_header DATA_PKT seqnb ++ p)
  | LowerAck seqnb p => lower (rdgram_header ACK_PKT seqnb ++ p)
  | LowerBogus bs => lower bs
  | Rxmit q =>
    match find_sendbuf_pkt (wrap 32 q) r with
    | None => Fault
    | Some sb => let* (evs, _, r1) := timeout_expire_cb (fun _ => true) (wrap 32 q) sb r in
                 Ok (Events evs, r1)
    end
  | AckTimer => timer ZEROTIMER_SEQNB2ACK
  | MaysendTimer => timer ZEROTIMER_MAYSEND
  | SetMaxLen len => let* r1 := sendbuf_set_max_len len r in Ok (Events [], r1)
  | SetThreshold len => Ok (Events [], maysend_set_threshold len r)
  end.

Definition spec_step (op : rdgram_op) (s : spec_state) : rdgram_out * spec_state :=
  match op with
  | Upper p =>
    let pkt := rdgram_header DATA_PKT (wrap 32 (s_next s)) ++ p in
    if negb (s_max s =? 0) && (s_max s <? sendbuf_bytes (s_out s) + pkt_len pkt)
    then (Result SENDBUF_FULL pkt None, s)
    else (Result OK pkt None, s_set_out (s_next s + 1) (<[s_next s := pkt]> (s_out s)) s)
  | LowerData seqnb p =>
    if should_acked p seqnb
    then (Result OK p (Some seqnb),
          Spec (s_next s) (s_out s) (s_max s) (s_thr s) (s_acks s ++ [seqnb]) (s_pend s))
    else (Result OK [] None, s)
  | LowerAck seqnb p =>
    (Result OK [] None,
     s_set_out (s_next s) (filter (fun kp => wrap 32 kp.1 <> seqnb) (s_out s)) s)
  | LowerBogus bs => (Result BOGUS_PKT (drop 1 bs) None, s)
  | Rxmit q => (Events [PKT_TO_LOWER (default [] (s_out s !! q))], s)
  | AckTimer =>
    (Events ((PKT_TO_LOWER ∘ build_ack) <$> s_acks s),
     Spec (s_next s) (s_out s) (s_max s) (s_thr s) [] (s_pend s))
  | MaysendTimer =>
    (Events (if s_notified s then replicate (s_pend s) (if s_room s then MAYSEND_ON else MAYSEND_OFF) else []),
     Spec (s_next s) (s_out s) (s_max s) (s_thr s) (s_acks s) 0)
  | SetMaxLen len => (Events [], Spec (s_next s) (s_out s) len (s_thr s) (s_acks s) (s_pend s))
  | SetThreshold len =>
    let s1 := Spec (s_next s) (s_out s) (s_max s) len (s_acks s) (s_pend s) in
    (Events [], Spec (s_next s) (s_out s) (s_max s) len (s_acks s)
                  (if s_notified s1 then S (s_pend s) else s_pend s))
  end.

(** What the environment must respect: fewer than 2^31 packets between the
    oldest one in the send buffer and the next one, packets that fit in memory,
    timers of existing packets, and the documented precondition of
    [sendbuf_set_max_len]. *)
Definition op_ok (op : rdgram_op) (s : spec_state) : Prop :=
  match op with
  | Upper p =>
    sendbuf_bytes (s_out s) + (5 + pkt_len p) < 2 ^ 64 /\
    (forall q, q ∈ dom (s_out s) -> s_next s - 2 ^ 31 < q)
  | LowerData seqnb p | LowerAck seqnb p => in_range 32 seqnb
  | LowerBogus bs => (length bs < 5)%nat \/
      exists b bs', bs = b :: bs' /\ is_byte b /\ b <> DATA_PKT /\ b <> ACK_PKT
  | Rxmit q => q ∈ dom (s_out s)
  | AckTimer | MaysendTimer => True
  | SetMaxLen len => sendbuf_bytes (s_out s) <= len < 2 ^ 64
  | SetThreshold len => 0 <= len < 2 ^ 64
  end.

Fixpoint ops_ok (ops : list rdgram_op) (s : spec_state) : Prop :=
  match ops with
  | [] => True
  | op :: ops' => op_ok op s /\ ops_ok ops' (spec_step op s).2
  end.

Fixpoint spec_run (ops : list rdgram_op) (s : spec_state) : list rdgram_out * spec_state :=
  match ops with
  | [] => ([], s)
  | op :: ops' => let (o, s1) := spec_step op s in
                  let (os, s2) := spec_run ops' s1 in (o :: os, s2)
  end.

Fixpoint rdgram_run (ops : list rdgram_op) (r : rdgram_t) : outcome (list rdgram_out * rdgram_t) :=
  match ops with
  | [] => Ok ([], r)
  | op :: ops' => let* (o, r1) := rdgram_step op r in
                  let* (os, r2) := rdgram_run ops' r1 in Ok (o :: os, r2)
  end.
End spec.

Definition spec_init : spec_state := Spec 0 ∅ 0 0 [] 0.

(** The retransmission delays are those of the policy. *)
Definition sendbuf_pkt_ok (sb : sendbuf_pkt_t) : Prop :=
  expboff_min (rxmit_timer_policy sb) = 500 /\ expboff_max (rxmit_timer_policy sb) = 2000 /\
  500 <= rxmit_timeout sb <= 2000 /\ expboff_current (rxmit_timer_policy sb) = rxmit_timeout sb.

Definition db_rep (next : Z) (out : gmap Z (list Z)) (db : list (Z * sendbuf_pkt_t)) : Prop :=
  exists l, om_sorted l /\ db = om_keys (wrap 32) l /\ sb_pkt <$> om_map l = out /\
    Forall (fun p => next - 2 ^ 31 <= p.1 < next /\ sendbuf_pkt_ok p.2) l.

Definition rdgram_rep (s : spec_state) (r : rdgram_t) : Prop :=
  db_rep (s_next s) (s_out s) (sendbuf_pkt_db r) /\
  next_xmit_seqnb r = wrap 32 (s_next s) /\
  sendbuf_used_len r = sendbuf_bytes (s_out s) /\ sendbuf_bytes (s_out s) < 2 ^ 64 /\
  sendbuf_max_len r = s_max s /\ 0 <= s_max s < 2 ^ 64 /\
  (s_max s <> 0 -> sendbuf_bytes (s_out s) <= s_max s) /\
  maysend_threshold r = s_thr s /\ 0 <= s_thr s < 2 ^ 64 /\
  seqnb2ack_list r = s_acks s /\
  zerotimer_seqnb2ack r = (match s_acks s with [] => 0 | _ => 1 end)%nat /\
  zerotimer_maysend r = s_pend s.

(* ------------------------------------------------------------------ *)
(** * Lemmas: maps keyed by wai32_t *)
(* ------------------------------------------------------------------ *)

Lemma wai32_lt x y : Z.abs (x - y) < 2 ^ 31 -> wai_lt 32 (wrap 32 x) (wrap 32 y) = (x <? y).
Proof. exact (@idx_lt_near _ (wai_laws 32 eq_refl) x y). Qed.

(** The keys of [l] are within half the number space of [q]. *)
Definition keys_near {V} (q : Z) (l : list (Z * V)) : Prop := Forall (fun p => Z.abs (p.1 - q) < 2 ^ 31) l.

Lemma keys_near_agree {V} q (l : list (Z * V)) :
  keys_near q l -> keys_agree (wai_lt 32) (wrap 32) q l.
Proof.
  unfold keys_near, keys_agree. intros H. eapply Forall_impl; [exact H|]. intros [k v]. simpl. intros Hk.
  by rewrite !wai32_lt by lia.
Qed.

Lemma keys_near_window {V} q lo (l : list (Z * V)) :
  lo <= q < lo + 2 ^ 31 -> Forall (fun p => lo <= p.1 < lo + 2 ^ 31) l -> keys_near q l.
Proof. intros Hq H. eapply Forall_impl; [exact H|]. simpl. lia. Qed.

Lemma om_find_in {V} ltb a (l : list (Z * V)) v :
  om_find ltb a l = Some v -> exists k, (k, v) ∈ l /\ ltb k a = false /\ ltb a k = false.
Proof.
  induction l as [|[k v'] l IH]; simpl; [done|].
  destruct (ltb k a) eqn:E1; [intros H; destruct (IH H) as (k' & ? & ? & ?); exists k'; split_and!; [by right|done..]|].
  destruct (ltb a k) eqn:E2; [done|]. intros [= ->]. exists k. split_and!; [by left|done..].
Qed.

Lemma wai32_tricho a b :
  in_range 32 a -> in_range 32 b -> wai_lt 32 a b = false -> wai_lt 32 b a = false -> a = b.
Proof.
  unfold in_range, wai_lt, wai_cmp, to_signed, wrap. intros Ha Hb H1 H2.
  apply Z.ltb_ge in H1, H2. change (2 ^ (32 - 1)) with (2 ^ 31) in *.
  pose proof (Z.mod_pos_bound (a - b) (2 ^ 32) ltac:(lia)).
  pose proof (Z.mod_pos_bound (b - a) (2 ^ 32) ltac:(lia)).
  case_decide; case_decide; try lia.
  assert (Hd : a - b < 0 \/ 0 < a - b \/ a = b) by lia. destruct Hd as [Hd|[Hd|Hd]]; [| |done].
  - rewrite <- (Z_mod_plus_full (a - b) 1) in *. rewrite (Z.mod_small (a - b + 1 * 2 ^ 32)) in * by lia.
    rewrite (Z.mod_small (b - a)) in * by lia. lia.
  - rewrite <- (Z_mod_plus_full (b - a) 1) in *. rewrite (Z.mod_small (b - a + 1 * 2 ^ 32)) in * by lia.
    rewrite (Z.mod_small (a - b)) in * by lia. lia.
Qed.

Lemma wrap32_inj_window lo x y :
  lo <= x < lo + 2 ^ 32 -> lo <= y < lo + 2 ^ 32 -> wrap 32 x = wrap 32 y -> x = y.
Proof.
  unfold wrap. intros Hx Hy H. pose proof (Z.div_mod x (2 ^ 32) ltac:(lia)).
  pose proof (Z.div_mod y (2 ^ 32) ltac:(lia)). nia.
Qed.

(** Any 32-bit value is looked up correctly, even one that compares with the
    keys in no consistent order: it is found only if it is a key. *)
Lemma om_find_wai {V} lo a (l : list (Z * V)) :
  in_range 32 a -> om_sorted l -> Forall (fun p => lo <= p.1 < lo + 2 ^ 31) l ->
  match om_find (wai_lt 32) a (om_keys (wrap 32) l) with
  | Some v => exists q, om_map l !! q = Some v /\ wrap 32 q = a /\ lo <= q < lo + 2 ^ 31
  | None => forall q v, om_map l !! q = Some v -> wrap 32 q <> a
  end.
Proof.
  intros Ha Hs Hw. destruct (om_find _ _ _) as [v|] eqn:E.
  - apply om_find_in in E as (k & Hin & H1 & H2).
    unfold om_keys in Hin. apply list_elem_of_fmap in Hin as ([q v'] & [= -> ->] & Hin).
    exists q. split; [by apply om_elem_of|]. split; [|by apply (proj1 (Forall_forall _ _) Hw _ Hin)].
    apply wai32_tricho; [by apply wrap_range|done|done|done].
  - intros q v Hq Heq. subst a. pose proof Hq as Hin. apply om_elem_of in Hin; [|done].
    rewrite om_find_map in E.
    + rewrite om_find_lookup in E by done. congruence.
    + apply keys_near_agree, (keys_near_window q lo); [|done].
      by apply (proj1 (Forall_forall _ _) Hw _ Hin).
Qed.

(** Insertion, deletion and update at a position near the keys. *)
Lemma om_insert_wai {V} q (v : V) l :
  om_sorted l -> keys_near q l -> om_map l !! q = None ->
  exists l', om_insert (wai_lt 32) (wrap 32 q) v (om_keys (wrap 32) l) = (om_keys (wrap 32) l', true) /\
    om_sorted l' /\ om_map l' = <[q := v]> (om_map l).
Proof.
  intros Hs Hn Hq. destruct (om_insert_absent q v l Hs Hq) as (l' & Hi & Hs' & Hm).
  exists l'. rewrite om_insert_map by by apply keys_near_agree. by rewrite Hi.
Qed.

Lemma om_map_Forall {V} (P : Z * V -> Prop) l :
  om_sorted l -> Forall P l <-> forall k v, om_map l !! k = Some v -> P (k, v).
Proof.
  intros Hs. rewrite Forall_forall. split.
  - intros H k v Hk. apply H. by apply om_elem_of.
  - intros H [k v] Hin. apply H. by apply om_elem_of.
Qed.

Lemma om_map_Forall_1 {V} (P : Z * V -> Prop) l :
  om_sorted l -> Forall P l -> forall k v, om_map l !! k = Some v -> P (k, v).
Proof. intros Hs. by apply om_map_Forall. Qed.

(* ------------------------------------------------------------------ *)
(** * Lemmas: the send buffer *)
(* ------------------------------------------------------------------ *)

Lemma sendbuf_bytes_insert q p m :
  m !! q = None -> sendbuf_bytes (<[q := p]> m) = pkt_len p + sendbuf_bytes m.
Proof. intros Hq. unfold sendbuf_bytes. rewrite map_fold_insert_L; [done|lia|done]. Qed.

Lemma sendbuf_bytes_delete q p m :
  m !! q = Some p -> sendbuf_bytes m = pkt_len p + sendbuf_bytes (delete q m).
Proof.
  intros Hq. rewrite <- (sendbuf_bytes_insert q p) by apply lookup_delete_eq. by rewrite insert_delete_id.
Qed.

Lemma sendbuf_bytes_nonneg m : 0 <= sendbuf_bytes m.
Proof.
  unfold sendbuf_bytes. apply (map_fold_weak_ind (fun r _ => 0 <= r)); [done|].
  unfold pkt_len. lia.
Qed.

Lemma maysend_set_notified s r :
  sendbuf_max_len r = s_max s -> maysend_threshold r = s_thr s ->
  maysend_is_set r = s_notified s.
Proof.
  unfold maysend_is_set, s_notified, sendbuf_is_limited. intros -> ->.
  by destruct (s_thr s =? 0), (s_max s =? 0).
Qed.

Lemma notified_limited s : s_notified s = true -> s_max s <> 0.
Proof. unfold s_notified. intros H. bool_to_prop. lia. Qed.

(** The state with [used] bytes in the send buffer. *)
Definition pending_after (b : bool) (r : rdgram_t) : rdgram_t := if b then append_maysend r else r.

Lemma sendbuf_add_pkt_spec s next out p r :
  sendbuf_used_len r = sendbuf_bytes (s_out s) -> sendbuf_max_len r = s_max s ->
  maysend_threshold r = s_thr s -> 0 <= s_max s < 2 ^ 64 -> 0 <= s_thr s < 2 ^ 64 ->
  sendbuf_bytes out = pkt_len p + sendbuf_bytes (s_out s) -> sendbuf_bytes out < 2 ^ 64 ->
  (s_max s <> 0 -> sendbuf_bytes out <= s_max s) ->
  sendbuf_add_pkt (pkt_len p) r =
    Ok (pending_after (s_notified s && negb (eqb (s_room s) (s_room (Spec next out (s_max s) (s_thr s) (s_acks s) (s_pend s)))))
         (set_sendbuf (sendbuf_pkt_db r) (sendbuf_bytes out) r)).
Proof.
  intros Hu Hm Ht Hmr Htr Hb Hlt Hmax. pose proof (sendbuf_bytes_nonneg (s_out s)).
  assert (Hp : 0 <= pkt_len p) by (unfold pkt_len; lia).
  unfold sendbuf_add_pkt. rewrite Hu. rewrite (wrap_small SIZE_T_BITS) by (unfold in_range, SIZE_T_BITS; lia).
  replace (sendbuf_bytes (s_out s) + pkt_len p) with (sendbuf_bytes out) by lia.
  set (r1 := set_sendbuf _ _ r).
  assert (Hset : maysend_is_set r1 = s_notified s) by by apply maysend_set_notified.
  assert (Hlim : sendbuf_is_limited r1 = negb (s_max s =? 0)) by (unfold sendbuf_is_limited; by rewrite <- Hm).
  rewrite Hset, Hlim. pass_assert ltac:(idtac;
    change (sendbuf_max_len r1) with (sendbuf_max_len r); rewrite Hm;
    destruct (Z.eqb_spec (s_max s) 0) as [|Hz]; [done|]; simpl; specialize (Hmax Hz); lia).
  destruct (s_notified s) eqn:En; [|done]. apply notified_limited in En. specialize (Hmax En).
  destruct (Z.eqb_spec (s_max s) 0) as [|_]; [done|]. cbn [negb dbg_assert andb].
  unfold sendbuf_get_free_len. rewrite Hlim. destruct (Z.eqb_spec (s_max s) 0) as [|_]; [done|]. cbn [negb].
  change (sendbuf_max_len r1) with (sendbuf_max_len r). change (maysend_threshold r1) with (maysend_threshold r).
  change (sendbuf_used_len r1) with (sendbuf_bytes out). rewrite Hm, Ht.
  rewrite (wrap_small SIZE_T_BITS (_ - _)) by (unfold in_range, SIZE_T_BITS; lia).
  rewrite wrap_small by (unfold in_range, SIZE_T_BITS; lia).
  unfold s_room; cbn [s_thr s_max s_out].
  destruct (Z.ltb_spec (s_max s - sendbuf_bytes out) (s_thr s)),
    (Z.leb_spec (s_thr s) (s_max s - sendbuf_bytes out + pkt_len p)),
    (Z.leb_spec (s_thr s) (s_max s - sendbuf_bytes (s_out s))),
    (Z.leb_spec (s_thr s) (s_max s - sendbuf_bytes out)); done || lia.
Qed.

Lemma sendbuf_del_pkt_spec s next out p r :
  sendbuf_used_len r = sendbuf_bytes (s_out s) -> sendbuf_max_len r = s_max s ->
  maysend_threshold r = s_thr s -> 0 <= s_max s < 2 ^ 64 -> 0 <= s_thr s < 2 ^ 64 ->
  sendbuf_bytes (s_out s) = pkt_len p + sendbuf_bytes out -> sendbuf_bytes (s_out s) < 2 ^ 64 ->
  (s_max s <> 0 -> sendbuf_bytes (s_out s) <= s_max s) ->
  sendbuf_del_pkt (pkt_len p) r =
    Ok (pending_after (s_notified s && negb (eqb (s_room s) (s_room (Spec next out (s_max s) (s_thr s) (s_acks s) (s_pend s)))))
         (set_sendbuf (sendbuf_pkt_db r) (sendbuf_bytes out) r)).
Proof.
  intros Hu Hm Ht Hmr Htr Hb Hlt Hmax. pose proof (sendbuf_bytes_nonneg out).
  assert (Hp : 0 <= pkt_len p) by (unfold pkt_len; lia).
  unfold sendbuf_del_pkt. rewrite Hu. pass_assert ltac:(apply Z.leb_le; lia).
  rewrite (wrap_small SIZE_T_BITS) by (unfold in_range, SIZE_T_BITS; lia).
  replace (sendbuf_bytes (s_out s) - pkt_len p) with (sendbuf_bytes out) by lia.
  set (r1 := set_sendbuf _ _ r).
  assert (Hset : maysend_is_set r1 = s_notified s) by by apply maysend_set_notified.
  assert (Hlim : sendbuf_is_limited r1 = negb (s_max s =? 0)) by (unfold sendbuf_is_limited; by rewrite <- Hm).
  rewrite Hset, Hlim.
  destruct (s_notified s) eqn:En; [|done]. apply notified_limited in En. specialize (Hmax En).
  destruct (Z.eqb_spec (s_max s) 0) as [|_]; [done|]. cbn [negb dbg_assert andb].
  unfold sendbuf_get_free_len. rewrite Hlim. destruct (Z.eqb_spec (s_max s) 0) as [|_]; [done|]. cbn [negb].
  change (sendbuf_max_len r1) with (sendbuf_max_len r). change (maysend_threshold r1) with (maysend_threshold r).
  change (sendbuf_used_len r1) with (sendbuf_bytes out). rewrite Hm, Ht.
  rewrite (wrap_small SIZE_T_BITS (_ - sendbuf_bytes out)) by (unfold in_range, SIZE_T_BITS; lia).
  rewrite wrap_small by (unfold in_range, SIZE_T_BITS; lia).
  unfold s_room; cbn [s_thr s_max s_out].
  destruct (Z.ltb_spec (s_max s - sendbuf_bytes out - pkt_len p) (s_thr s)),
    (Z.leb_spec (s_thr s) (s_max s - sendbuf_bytes out)),
    (Z.leb_spec (s_thr s) (s_max s - sendbuf_bytes (s_out s))); done || lia.
Qed.

(* ------------------------------------------------------------------ *)
(** * Lemmas: one operation *)
(* ------------------------------------------------------------------ *)

Lemma rep_set_out s r next out db :
  rdgram_rep s r -> db_rep next out db -> sendbuf_bytes out < 2 ^ 64 ->
  (s_max s <> 0 -> sendbuf_bytes out <= s_max s) ->
  rdgram_rep (s_set_out next out s)
    (pending_after (s_notified s && negb (eqb (s_room s)
        (s_room (Spec next out (s_max s) (s_thr s) (s_acks s) (s_pend s)))))
      (Rdgram db (wrap 32 next) (sendbuf_bytes out) (sendbuf_max_len r) (maysend_threshold r)
         (seqnb2ack_list r) (zerotimer_seqnb2ack r) (zerotimer_maysend r))).
Proof.
  intros (Hdb & Hn & Hu & Hb & Hm & Hmr & Hle & Ht & Htr & Ha & Hz & Hp) Hdb' Hb' Hle'.
  unfold s_set_out. destruct (s_notified s && _); unfold pending_after, rdgram_rep, append_maysend, set_maysend_timer;
    cbn [sendbuf_pkt_db next_xmit_seqnb sendbuf_used_len sendbuf_max_len maysend_threshold
         seqnb2ack_list zerotimer_seqnb2ack zerotimer_maysend s_next s_out s_max s_thr s_acks s_pend];
    rewrite Hm, Ht, Ha, Hz, Hp; split_and!; done || lia || tauto.
Qed.

(** Packets of the send buffer. *)
Lemma db_rep_lookup next out db a :
  db_rep next out db -> in_range 32 a ->
  match om_find (wai_lt 32) a db with
  | Some sb => exists q, out !! q = Some (sb_pkt sb) /\ wrap 32 q = a /\ next - 2 ^ 31 <= q < next /\
                 sendbuf_pkt_ok sb
  | None => forall q p, out !! q = Some p -> wrap 32 q <> a
  end.
Proof.
  intros (l & Hs & -> & <- & Hw) Ha.
  pose proof (om_find_wai (next - 2 ^ 31) a l Ha Hs) as H.
  destruct (om_find _ _ _) as [sb|].
  - destruct H as (q & Hq & Hqa & Hqw); [eapply Forall_impl; [exact Hw|simpl; lia]|].
    exists q. rewrite lookup_fmap, Hq. split_and!; try done; try lia.
    by apply (om_map_Forall_1 _ l Hs Hw q sb Hq).
  - intros q p Hq. rewrite lookup_fmap in Hq. apply fmap_Some in Hq as (sb & Hq & ->).
    eapply H; [|exact Hq]. eapply Forall_impl; [exact Hw|simpl; lia].
Qed.

(** A change of the map at one position, from a change of the list. *)
Lemma db_rep_change next next' out q l l' :
  om_sorted l' -> next <= next' ->
  Forall (fun p => next - 2 ^ 31 <= p.1 < next /\ sendbuf_pkt_ok p.2) l ->
  (forall k sb, om_map l' !! k = Some sb -> next' - 2 ^ 31 <= k < next' /\
     (om_map l !! k = Some sb \/ k = q /\ sendbuf_pkt_ok sb)) ->
  sb_pkt <$> om_map l' = out -> om_sorted l ->
  db_rep next' out (om_keys (wrap 32) l').
Proof.
  intros Hs' Hn Hw Hk Ho Hs. exists l'. split_and!; try done.
  apply om_map_Forall; [done|]. intros k sb Hksb. simpl. destruct (Hk k sb Hksb) as [Hr Hor].
  split; [done|]. destruct Hor as [Hl|[_ Hok]]; [|done].
  by apply (om_map_Forall_1 _ l Hs Hw k sb Hl).
Qed.

Lemma header_length t seqnb : length (rdgram_header t seqnb) = 5%nat.
Proof. done. Qed.

Lemma header_parse t seqnb p :
  in_range 8 t -> in_range 32 seqnb ->
  wire_get u8_codec (rdgram_header t seqnb ++ p) = Ok (t, wire_put u32_codec seqnb ++ p) /\
  wire_get u32_codec (wire_put u32_codec seqnb ++ p) = Ok (seqnb, p).
Proof.
  intros Ht Hs. unfold rdgram_header. rewrite <- app_assoc. split; by rewrite wire_get_put.
Qed.

Lemma upper_spec s r p :
  rdgram_rep s r -> op_ok (Upper p) s ->
  exists r', rdgram_step (fun _ _ => true) (Upper p) r =
      Ok ((spec_step (fun _ _ => true) (Upper p) s).1, r') /\
    rdgram_rep (spec_step (fun _ _ => true) (Upper p) s).2 r'.
Proof.
  intros Hrep [Hb Hw]. pose proof Hrep as (Hdb & Hn & Hu & _ & Hm & Hmr & Hle & Ht & Htr & _).
  set (pkt := rdgram_header DATA_PKT (wrap 32 (s_next s)) ++ p).
  assert (Hpl : pkt_len pkt = 5 + pkt_len p).
  { unfold pkt_len, pkt. rewrite length_app, header_length. lia. }
  pose proof (sendbuf_bytes_nonneg (s_out s)) as Hnn.
  assert (0 <= pkt_len p) by (unfold pkt_len; lia).
  cbn [rdgram_step spec_step]. unfold pkt_from_upper, sendbuf_is_limited. rewrite Hn, Hm, Hu. fold pkt.
  rewrite (wrap_small SIZE_T_BITS) by (unfold in_range, SIZE_T_BITS; lia).
  destruct (negb (s_max s =? 0) && (s_max s <? sendbuf_bytes (s_out s) + pkt_len pkt)) eqn:Efull.
  { exists r. split; [done|exact Hrep]. }
  assert (Hle' : s_max s <> 0 -> sendbuf_bytes (s_out s) + pkt_len pkt <= s_max s).
  { intros Hz. apply andb_false_iff in Efull as [E|E]; bool_to_prop; lia. }
  destruct Hdb as (l & Hs & Hdb & Ho & Hwl).
  assert (Hfresh : s_out s !! s_next s = None).
  { rewrite <- Ho, lookup_fmap. destruct (om_map l !! s_next s) as [sb|] eqn:E; [|done].
    pose proof (om_map_Forall_1 _ l Hs Hwl _ _ E) as [Hk _]. simpl in Hk. lia. }
  assert (Hl0 : om_map l !! s_next s = None).
  { rewrite <- Ho, lookup_fmap in Hfresh. by apply fmap_None in Hfresh. }
  set (sb := SendbufPkt pkt (expboff_ctor 500 2000) 500).
  destruct (om_insert_wai (s_next s) sb l) as (l' & Hi & Hs' & Hm'); [done| |done|].
  { apply om_map_Forall; [done|]. intros k v Hk. simpl.
    pose proof (om_map_Forall_1 _ l Hs Hwl _ _ Hk) as [Hr _]. simpl in Hr.
    assert (k ∈ dom (s_out s)) by (rewrite <- Ho, dom_fmap; by apply elem_of_dom_2 in Hk).
    pose proof (Hw k ltac:(done)). lia. }
  assert (Hbytes := sendbuf_bytes_insert (s_next s) pkt (s_out s) Hfresh).
  unfold sendbuf_pkt_ctor. cbn [expboff_first expboff_ctor]. unfold from_msec.
  rewrite Hdb. change (SendbufPkt pkt _ _) with sb. rewrite Hi. cbn [dbg_assert].
  rewrite (sendbuf_add_pkt_spec s (s_next s + 1) (<[s_next s := pkt]> (s_out s)) pkt) by (done || lia || (intros Hz; specialize (Hle' Hz); lia)).
  cbn [mbind outcome_bind]. eexists. split; [reflexivity|].
  assert (Hdb' : db_rep (s_next s + 1) (<[s_next s := pkt]> (s_out s)) (om_keys (wrap 32) l')).
  { apply (db_rep_change (s_next s) _ _ (s_next s) l); try done; [lia| |].
    - intros k sb'. rewrite Hm'. rewrite lookup_insert. case_decide as Hk.
      + intros [= <-]. split; [lia|]. right. split; [done|]. by unfold sendbuf_pkt_ok, sb.
      + intros Hk'. pose proof (om_map_Forall_1 _ l Hs Hwl _ _ Hk') as [Hr _]. simpl in Hr.
        split; [|by left]. specialize (Hw k). rewrite <- Ho, dom_fmap, elem_of_dom in Hw.
        specialize (Hw (ex_intro _ _ Hk')). lia.
    - by rewrite Hm', fmap_insert, Ho. }
  pose proof (rep_set_out s r _ _ _ Hrep Hdb') as Hfin.
  specialize (Hfin ltac:(lia) ltac:(intros Hz; specialize (Hle' Hz); lia)).
  assert (Hincr : wai_incr 32 (wrap 32 (s_next s)) = wrap 32 (s_next s + 1)).
  { unfold wai_incr, wai_add, wai_of_unsigned. by rewrite wrap_add_wrap. }
  rewrite <- Hincr in Hfin. rewrite <- Hn in Hfin.
  destruct (s_notified s && _); exact Hfin.
Qed.

(** The packet acknowledged by a 32-bit value is unique. *)
Lemma filter_ack next out db q p :
  db_rep next out db -> out !! q = Some p ->
  filter (fun kp : Z * list Z => wrap 32 kp.1 <> wrap 32 q) out = delete q out.
Proof.
  intros (l & Hs & _ & <- & Hw) Hq.
  assert (Hwin : forall k p', (sb_pkt <$> om_map l) !! k = Some p' -> next - 2 ^ 31 <= k < next).
  { intros k p' Hk. rewrite lookup_fmap in Hk. apply fmap_Some in Hk as (sb & Hk & _).
    by apply (om_map_Forall_1 _ l Hs Hw k sb Hk). }
  apply map_eq. intros k. rewrite map_lookup_filter.
  destruct (decide (k = q)) as [->|Hne].
  - rewrite lookup_delete_eq, Hq. simpl. rewrite option_guard_False; [done|]. intros Hc. by apply Hc.
  - rewrite lookup_delete_ne by done. destruct ((sb_pkt <$> om_map l) !! k) as [p'|] eqn:E; [|done].
    simpl. rewrite option_guard_True; [done|]. intros Heq. apply Hne.
    apply (wrap32_inj_window (next - 2 ^ 31)); [|  |done].
    + pose proof (Hwin _ _ E). lia.
    + pose proof (Hwin _ _ Hq). lia.
Qed.

Lemma filter_ack_none (out : gmap Z (list Z)) a :
  (forall q p, out !! q = Some p -> wrap 32 q <> a) ->
  filter (fun kp : Z * list Z => wrap 32 kp.1 <> a) out = out.
Proof. intros H. apply map_filter_id. simpl. eauto. Qed.

Lemma s_set_out_same s : s_set_out (s_next s) (s_out s) s = s.
Proof.
  unfold s_set_out, s_room. destruct s as [nx out mx th ac pe]. cbn [s_next s_out s_max s_thr s_acks s_pend].
  by rewrite eqb_reflx, andb_false_r.
Qed.

Lemma db_rep_erase next out l q sb :
  db_rep next out (om_keys (wrap 32) l) -> om_sorted l -> sb_pkt <$> om_map l = out ->
  Forall (fun p => next - 2 ^ 31 <= p.1 < next /\ sendbuf_pkt_ok p.2) l -> om_map l !! q = Some sb ->
  db_rep next (delete q out) (om_erase (wai_lt 32) (wrap 32 q) (om_keys (wrap 32) l)).
Proof.
  intros _ Hs Ho Hw Hq. pose proof (om_map_Forall_1 _ l Hs Hw) as Hw'.
  destruct (om_erase_spec q l Hs) as [Hs' Hm'].
  rewrite om_erase_map.
  - apply (db_rep_change next next _ q l); try done; [|].
    + intros k sb'. rewrite Hm'. intros [Hne Hk]%lookup_delete_Some.
      split; [by apply (Hw' k sb' Hk)|by left].
    + by rewrite Hm', fmap_delete, Ho.
  - apply keys_near_agree, (keys_near_window q (next - 2 ^ 31)).
    + pose proof (Hw' _ _ Hq) as [? _]. simpl in *. lia.
    + eapply Forall_impl; [exact Hw|]. simpl. lia.
Qed.

(** Deleting a packet of the send buffer. *)
Lemma dtor_spec s r l q sb :
  rdgram_rep s r -> om_sorted l -> sendbuf_pkt_db r = om_keys (wrap 32) l -> sb_pkt <$> om_map l = s_out s ->
  Forall (fun p => s_next s - 2 ^ 31 <= p.1 < s_next s /\ sendbuf_pkt_ok p.2) l ->
  om_map l !! q = Some sb ->
  exists r', sendbuf_pkt_dtor (wrap 32 q) sb r = Ok r' /\
    rdgram_rep (s_set_out (s_next s) (delete q (s_out s)) s) r' /\
    sendbuf_pkt_db r' = om_erase (wai_lt 32) (wrap 32 q) (sendbuf_pkt_db r).
Proof.
  intros Hrep Hs Hdbl Ho Hw Hq. pose proof Hrep as (Hdb & Hn & Hu & Hb & Hm & Hmr & Hle & Ht & Htr & _).
  assert (Hqo : s_out s !! q = Some (sb_pkt sb)) by by rewrite <- Ho, lookup_fmap, Hq.
  assert (Hbytes := sendbuf_bytes_delete q (sb_pkt sb) (s_out s) Hqo).
  assert (Hpl : 0 <= pkt_len (sb_pkt sb)) by (unfold pkt_len; lia).
  unfold sendbuf_pkt_dtor.
  rewrite (sendbuf_del_pkt_spec s (s_next s) (delete q (s_out s))) by (done || lia).
  cbn [mbind outcome_bind]. eexists. split; [reflexivity|].
  assert (Hdb' : db_rep (s_next s) (delete q (s_out s)) (om_erase (wai_lt 32) (wrap 32 q) (sendbuf_pkt_db r))).
  { rewrite Hdbl. apply (db_rep_erase _ _ l q sb); try done. by rewrite <- Hdbl. }
  pose proof (rep_set_out s r _ _ _ Hrep Hdb' ltac:(lia)) as Hfin.
  specialize (Hfin ltac:(intros Hz; specialize (Hle Hz); lia)). rewrite <- Hn in Hfin.
  destruct (s_notified s && _); (split; [exact Hfin|done]).
Qed.

Lemma ack_spec s r a p :
  rdgram_rep s r -> in_range 32 a ->
  exists r', recv_ack_pkt (wire_put u32_codec a ++ p) r = Ok (OK, [], None, r') /\
    rdgram_rep (s_set_out (s_next s) (filter (fun kp => wrap 32 kp.1 <> a) (s_out s)) s) r'.
Proof.
  intros Hrep Ha. pose proof Hrep as [Hdb _].
  unfold recv_ack_pkt. rewrite wire_get_put by done. unfold find_sendbuf_pkt.
  pose proof Hdb as (l & Hs & Hdbl & Ho & Hw).
  assert (Hw' : Forall (fun p => s_next s - 2 ^ 31 <= p.1 < s_next s - 2 ^ 31 + 2 ^ 31) l).
  { eapply Forall_impl; [exact Hw|]. simpl. lia. }
  pose proof (om_find_wai (s_next s - 2 ^ 31) a l Ha Hs Hw') as Hf. rewrite <- Hdbl in Hf.
  destruct (om_find (wai_lt 32) a (sendbuf_pkt_db r)) as [sb|] eqn:E.
  - destruct Hf as (q & Hq & Hqa & Hqw). subst a.
    assert (Hqo : s_out s !! q = Some (sb_pkt sb)) by by rewrite <- Ho, lookup_fmap, Hq.
    rewrite (filter_ack (s_next s) _ _ q (sb_pkt sb) Hdb Hqo).
    destruct (dtor_spec s r l q sb Hrep Hs Hdbl Ho Hw Hq) as (r' & Hd & Hrep' & _).
    rewrite Hd. cbn [mbind outcome_bind]. by exists r'.
  - rewrite filter_ack_none.
    + rewrite s_set_out_same. by exists r.
    + intros q p' Hq. rewrite <- Ho, lookup_fmap in Hq. apply fmap_Some in Hq as (sb & Hq & _).
      eapply Hf, Hq.
Qed.

Lemma rxmit_spec s r q :
  rdgram_rep s r -> q ∈ dom (s_out s) ->
  exists sb r', find_sendbuf_pkt (wrap 32 q) r = Some sb /\ s_out s !! q = Some (sb_pkt sb) /\
    timeout_expire_cb (fun _ => true) (wrap 32 q) sb r = Ok ([PKT_TO_LOWER (sb_pkt sb)], true, r') /\
    rdgram_rep s r'.
Proof.
  intros (Hdb & Hrest) Hq. pose proof Hdb as (l & Hs & Hdbl & Ho & Hw).
  pose proof (om_map_Forall_1 _ l Hs Hw) as Hw'.
  apply elem_of_dom in Hq as [p Hp]. rewrite <- Ho, lookup_fmap in Hp.
  apply fmap_Some in Hp as (sb & Hsb & ->). pose proof (Hw' _ _ Hsb) as [Hwin (Hmin & Hmax & Hto & Hcur)].
  simpl in Hwin, Hmin, Hmax, Hto, Hcur.
  assert (Hag : keys_agree (wai_lt 32) (wrap 32) q l).
  { apply keys_near_agree, (keys_near_window q (s_next s - 2 ^ 31)); [lia|].
    eapply Forall_impl; [exact Hw|]. simpl. lia. }
  unfold find_sendbuf_pkt, timeout_expire_cb. cbn [negb]. exists sb.
  rewrite expboff_next_spec.
  - cbn [mbind outcome_bind]. eexists. split_and!.
    + rewrite Hdbl, om_find_map, om_find_lookup by done. exact Hsb.
    + by rewrite <- Ho, lookup_fmap, Hsb.
    + reflexivity.
    + split; [|exact Hrest]. cbn [sendbuf_pkt_db set_sendbuf]. rewrite Hdbl, om_update_map by done.
      set (g := fun _ => _). destruct (om_update_spec q g l Hs) as [Hs' Hm'].
      apply (db_rep_change (s_next s) (s_next s) _ q l); try done.
      * intros k sb'. rewrite Hm'. intros Hk. destruct (decide (k = q)) as [->|Hne].
        -- rewrite lookup_alter_eq, Hsb in Hk. injection Hk as <-. split; [lia|]. right.
           split; [done|]. unfold sendbuf_pkt_ok, g. cbn. lia.
        -- rewrite lookup_alter_ne in Hk by done. split; [by apply (Hw' _ _ Hk)|by left].
      * rewrite Hm'. apply map_eq. intros k. rewrite <- Ho, !lookup_fmap.
        destruct (decide (k = q)) as [->|Hne]; [by rewrite lookup_alter_eq, Hsb|].
        by rewrite lookup_alter_ne.
  - rewrite Hcur. unfold ordinary. change (INFINITE_VAL / 2) with (2 ^ 59 - 1). lia.
Qed.

Lemma seqnb2ack_loop_spec l :
  seqnb2ack_loop (fun _ => true) l = ((PKT_TO_LOWER ∘ build_ack) <$> l, true, []).
Proof. induction l as [|a l IH]; simpl; [done|]. by rewrite IH. Qed.

Lemma zerotimer_maysend_spec n r :
  zerotimer_notify n ZEROTIMER_MAYSEND (fun _ => true) r =
    (if maysend_is_set r
     then replicate n (if sendbuf_get_free_len r <? maysend_threshold r then MAYSEND_OFF else MAYSEND_ON)
     else [], true, r).
Proof.
  induction n as [|n IH]; [by cbn; destruct (maysend_is_set r)|].
  cbn [zerotimer_notify neoip_zerotimer_expire_cb]. unfold zerotimer_maysend_process.
  destruct (maysend_is_set r); cbn [negb]; by rewrite IH.
Qed.

Lemma lower_data_recv sa s r a p :
  rdgram_rep s r -> in_range 32 a ->
  pkt_from_lower sa (rdgram_header DATA_PKT a ++ p) r =
    if sa p a then Ok (OK, p, Some a, set_acks (seqnb2ack_list r ++ [a]) 1 r) else Ok (OK, [], None, r).
Proof.
  intros (_ & _ & _ & _ & _ & _ & _ & _ & _ & _ & Hz & _) Ha.
  destruct (header_parse DATA_PKT a p) as [H1 H2]; [by vm_compute|done|].
  unfold pkt_from_lower. rewrite H1. rewrite Z.eqb_refl. unfold recv_data_pkt. rewrite H2.
  destruct (sa p a); cbn [negb]; [|done]. rewrite Hz. by destruct (s_acks s).
Qed.

Definition s_push_ack (a : Z) (s : spec_state) : spec_state :=
  Spec (s_next s) (s_out s) (s_max s) (s_thr s) (s_acks s ++ [a]) (s_pend s).

Lemma rep_push_ack s r a :
  rdgram_rep s r -> rdgram_rep (s_push_ack a s) (set_acks (seqnb2ack_list r ++ [a]) 1 r).
Proof.
  intros (Hdb & Hn & Hu & Hb & Hm & Hmr & Hle & Ht & Htr & Hac & Hz & Hp).
  unfold rdgram_rep, set_acks, s_push_ack; cbn [sendbuf_pkt_db next_xmit_seqnb sendbuf_used_len sendbuf_max_len maysend_threshold
         seqnb2ack_list zerotimer_seqnb2ack zerotimer_maysend s_next s_out s_max s_thr s_acks s_pend].
  rewrite Hm, Ht, Hac, Hp.
  split_and!; first [done | lia | by destruct (s_acks s) | tauto].
Qed.

Lemma lower_data_spec sa s r a p :
  rdgram_rep s r -> in_range 32 a ->
  exists r', rdgram_step sa (LowerData a p) r = Ok ((spec_step sa (LowerData a p) s).1, r') /\
    rdgram_rep (spec_step sa (LowerData a p) s).2 r'.
Proof.
  intros Hrep Ha. cbn [rdgram_step spec_step]. rewrite (lower_data_recv sa s) by done.
  destruct (sa p a); cbn [mbind outcome_bind]; eexists; (split; [reflexivity|]); [|exact Hrep].
  by apply rep_push_ack.
Qed.

Lemma lower_ack_spec sa s r a p :
  rdgram_rep s r -> in_range 32 a ->
  exists r', rdgram_step sa (LowerAck a p) r = Ok ((spec_step sa (LowerAck a p) s).1, r') /\
    rdgram_rep (spec_step sa (LowerAck a p) s).2 r'.
Proof.
  intros Hrep Ha. destruct (header_parse ACK_PKT a p) as [H1 H2]; [by vm_compute|done|].
  destruct (ack_spec s r a p Hrep Ha) as (r' & Hr & Hrep').
  cbn [rdgram_step spec_step]. unfold pkt_from_lower. rewrite H1.
  change (ACK_PKT =? DATA_PKT) with false. change (ACK_PKT =? ACK_PKT) with true. cbv iota.
  rewrite Hr. cbn [mbind outcome_bind]. by exists r'.
Qed.

Lemma lower_bogus sa bs r :
  ((length bs < 5)%nat \/ exists b bs', bs = b :: bs' /\ is_byte b /\ b <> DATA_PKT /\ b <> ACK_PKT) ->
  pkt_from_lower sa bs r = Ok (BOGUS_PKT, drop 1 bs, None, r).
Proof.
  intros H. unfold pkt_from_lower. destruct bs as [|b bs]; [done|].
  assert (Hg : wire_get u8_codec (b :: bs) = Ok (b, bs)).
  { cbn [wire_get u8_codec]. unfold wire_uint, wire_get_head. rewrite bool_decide_eq_false_2 by (simpl; lia).
    cbn. unfold be_value. simpl. f_equal. }
  rewrite Hg. cbn [drop]. rewrite drop_0. destruct H as [Hs|(b' & bs' & [= <- <-] & _ & Hd & Ha)].
  - assert (Hsh : wire_get u32_codec bs = Throw "uint32_t Payload Too Short").
    { cbn [wire_get u32_codec]. unfold wire_uint, wire_get_head. simpl in Hs.
      rewrite bool_decide_eq_true_2 by (simpl; lia). done. }
    unfold recv_data_pkt, recv_ack_pkt. rewrite Hsh. by destruct (b =? DATA_PKT), (b =? ACK_PKT).
  - by rewrite (proj2 (Z.eqb_neq b DATA_PKT) Hd), (proj2 (Z.eqb_neq b ACK_PKT) Ha).
Qed.

(** The layer refines its specification, one operation at a time. *)
Lemma rdgram_step_spec sa op s r :
  rdgram_rep s r -> op_ok op s ->
  exists r', rdgram_step sa op r = Ok ((spec_step sa op s).1, r') /\
    rdgram_rep (spec_step sa op s).2 r'.
Proof.
  intros Hrep Hok. pose proof Hrep as (Hdb & Hn & Hu & Hb & Hm & Hmr & Hle & Ht & Htr & Hac & Hz & Hp).
  destruct op as [p|a p|a p|bs|q| | |len|len].
  - by apply upper_spec.
  - by apply lower_data_spec.
  - by apply lower_ack_spec.
  - cbn [rdgram_step spec_step]. rewrite lower_bogus by done. by exists r.
  - destruct (rxmit_spec s r q Hrep Hok) as (sb & r' & Hf & Ho & Hx & Hrep').
    cbn [rdgram_step spec_step]. rewrite Hf, Hx. cbn [mbind outcome_bind]. rewrite Ho. by exists r'.
  - cbn [rdgram_step spec_step]. unfold zerotimer_expire. rewrite Hz, Hac.
    destruct (s_acks s) as [|a l] eqn:E; cbn [zerotimer_notify neoip_zerotimer_expire_cb].
    + eexists. split; [reflexivity|]. unfold set_acks, rdgram_rep. simpl. split_and!; first [done|lia|tauto].
    + unfold zerotimer_seqnb2ack_process. cbn [set_acks seqnb2ack_list].
      rewrite seqnb2ack_loop_spec. cbn [negb]. rewrite app_nil_r.
      eexists. split; [reflexivity|]. unfold set_acks, rdgram_rep. simpl. split_and!; first [done|lia|tauto].
  - cbn [rdgram_step spec_step]. unfold zerotimer_expire. rewrite Hp, zerotimer_maysend_spec.
    exists (set_maysend_timer 0 r). split; [|unfold set_maysend_timer, rdgram_rep; simpl; split_and!; first [done|lia|tauto]].
    f_equal. f_equal. f_equal.
    rewrite (maysend_set_notified s) by done. destruct (s_notified s) eqn:En; [|done].
    apply notified_limited in En. specialize (Hle En).
    unfold sendbuf_get_free_len, sendbuf_is_limited, s_room. cbn [set_maysend_timer sendbuf_max_len sendbuf_used_len maysend_threshold].
    rewrite Hm, Hu, Ht. destruct (Z.eqb_spec (s_max s) 0) as [|_]; [done|]. cbn [negb].
    pose proof (sendbuf_bytes_nonneg (s_out s)).
    rewrite wrap_small by (unfold in_range, SIZE_T_BITS; lia).
    f_equal. by destruct (Z.ltb_spec (s_max s - sendbuf_bytes (s_out s)) (s_thr s)),
      (Z.leb_spec (s_thr s) (s_max s - sendbuf_bytes (s_out s))); try lia.
  - cbn [rdgram_step spec_step]. unfold sendbuf_set_max_len. rewrite Hu. destruct Hok as [Hl1 Hl2].
    pose proof (sendbuf_bytes_nonneg (s_out s)).
    pass_assert ltac:(apply Z.leb_le; lia). cbn [mbind outcome_bind]. eexists. split; [reflexivity|].
    unfold rdgram_rep. simpl. split_and!; first [done|lia|tauto].
  - cbn [rdgram_step spec_step]. unfold maysend_set_threshold. set (r1 := Rdgram _ _ _ _ _ _ _ _).
    set (s1 := Spec (s_next s) (s_out s) (s_max s) len (s_acks s) (s_pend s)). rewrite (maysend_set_notified s1) by done.
    eexists. split; [reflexivity|]. destruct Hok as [Hl1 Hl2].
    assert (Hrep1 : forall n, rdgram_rep (Spec (s_next s) (s_out s) (s_max s) len (s_acks s) n)
              (set_maysend_timer n r1)).
    { intros n. unfold rdgram_rep, r1, set_maysend_timer. simpl. split_and!; first [done|lia|tauto]. }
    destruct (s_notified s1); cbn [negb snd].
    + replace (if sendbuf_get_free_len r1 <? maysend_threshold r1 then append_maysend r1 else append_maysend r1)
        with (append_maysend r1) by (by destruct (_ <? _)).
      specialize (Hrep1 (S (s_pend s))).
      unfold append_maysend. change (zerotimer_maysend r1) with (zerotimer_maysend r). rewrite Hp. exact Hrep1.
    + specialize (Hrep1 (zerotimer_maysend r)). rewrite Hp in Hrep1 at 1. exact Hrep1.
Qed.

Lemma rdgram_run_spec sa ops s r :
  rdgram_rep s r -> ops_ok sa ops s ->
  exists r', rdgram_run sa ops r = Ok ((spec_run sa ops s).1, r') /\
    rdgram_rep (spec_run sa ops s).2 r'.
Proof.
  revert s r. induction ops as [|op ops IH]; intros s r Hrep Hok; [by exists r|].
  destruct Hok as [Hop Hok]. destruct (rdgram_step_spec sa op s r Hrep Hop) as (r1 & H1 & Hrep1).
  destruct (IH _ _ Hrep1 Hok) as (r2 & H2 & Hrep2). exists r2.
  cbn [rdgram_run spec_run]. rewrite H1. cbn [mbind outcome_bind]. rewrite H2. cbn [mbind outcome_bind].
  destruct (spec_step sa op s) as [o s1]. simpl in *. by destruct (spec_run sa ops s1).
Qed.

Lemma rdgram_rep_init : rdgram_rep spec_init rdgram_ctor.
Proof.
  unfold rdgram_rep, spec_init, rdgram_ctor. simpl. split_and!; try done.
  exists []. split_and!; try done. apply om_sorted_nil.
Qed.

Lemma wai_lt_irrefl a : wai_lt 32 a a = false.
Proof. unfold wai_lt, wai_cmp. by rewrite Z.sub_diag. Qed.

(** Deleting the first packet as long as there is one empties the buffer. *)
Lemma stop_loop_spec n s r :
  rdgram_rep s r -> (length (sendbuf_pkt_db r) <= n)%nat ->
  exists r', stop_loop n r = Ok r' /\ sendbuf_pkt_db r' = [] /\ sendbuf_used_len r' = 0.
Proof.
  revert s r. induction n as [|n IH]; intros s r Hrep Hlen;
    pose proof Hrep as ((l & Hs & Hdbl & Ho & Hw) & _ & Hu & _).
  all: destruct l as [|[q sb] l];
    [exists r; rewrite Hdbl in *; split; [cbn [stop_loop]; by rewrite Hdbl|];
     split; [done|]; rewrite Hu, <- Ho; done|].
  { rewrite Hdbl in Hlen. simpl in Hlen. lia. }
  destruct (dtor_spec s r ((q, sb) :: l) q sb Hrep Hs Hdbl Ho Hw) as (r1 & Hd & Hrep1 & Hdb1).
  { unfold om_map. simpl. by rewrite lookup_insert_eq. }
  rewrite Hdbl in Hdb1. unfold om_keys in Hdb1. rewrite fmap_cons in Hdb1. cbn [om_erase fst snd] in Hdb1.
  rewrite wai_lt_irrefl in Hdb1.
  destruct (IH _ r1 Hrep1) as (r2 & H2 & Hdone).
  { rewrite Hdb1, length_fmap. rewrite Hdbl in Hlen. unfold om_keys in Hlen. rewrite length_fmap in Hlen.
    simpl in Hlen. lia. }
  exists r2. split; [|done]. cbn [stop_loop]. rewrite Hdbl. unfold om_keys. rewrite fmap_cons. cbn [fst snd].
  rewrite Hd. exact H2.
Qed.

(* ------------------------------------------------------------------ *)
(** * Room notifications *)
(* ------------------------------------------------------------------ *)

Definition is_maysend (e : rdgram_event_t) : bool :=
  match e with PKT_TO_LOWER _ => false | _ => true end.

(** The notifications among the outputs of a run. *)
Definition maysend_of (o : rdgram_out) : list rdgram_event_t :=
  match o with Result _ _ _ => [] | Events evs => List.filter is_maysend evs end.
Definition maysend_events (os : list rdgram_out) : list rdgram_event_t := flat_map maysend_of os.

Definition keeps_limits (op : rdgram_op) : bool :=
  match op with SetMaxLen _ | SetThreshold _ => false | _ => true end.

Definition room_event (s : spec_state) : rdgram_event_t := if s_room s then MAYSEND_ON else MAYSEND_OFF.

(** The user knows whether there is room, or is about to. *)
Definition informed (told : list rdgram_event_t) (s : spec_state) : Prop :=
  s_notified s = true /\ ((0 < s_pend s)%nat \/ last told = Some (room_event s)).

Lemma set_out_informed told next out s : informed told s -> informed told (s_set_out next out s).
Proof.
  unfold informed, s_set_out, room_event, s_notified. intros [Hn Hor].
  set (s1 := Spec next out (s_max s) (s_thr s) (s_acks s) (s_pend s)).
  destruct (eqb (s_room s) (s_room s1)) eqn:E.
  - rewrite andb_false_r. apply eqb_prop in E. rewrite <- E. by split.
  - rewrite Hn. cbn [negb andb s_thr s_max s_pend]. split; [exact Hn|]. left. lia.
Qed.

Lemma filter_maysend_acks l : List.filter is_maysend ((PKT_TO_LOWER ∘ build_ack) <$> l) = [].
Proof. by induction l. Qed.

Lemma filter_maysend_room n s : List.filter is_maysend (replicate n (room_event s)) = replicate n (room_event s).
Proof.
  induction n as [|n IH]; [done|]. simpl. rewrite IH. unfold room_event. by destruct (s_room s).
Qed.

Lemma step_informed sa op told s :
  keeps_limits op = true -> informed told s ->
  informed (told ++ maysend_of (spec_step sa op s).1) (spec_step sa op s).2.
Proof.
  intros Hk Hi. pose proof Hi as [Hn Hor]. destruct op as [p|a p|a p|bs|q| | |len|len]; try done;
    cbn [spec_step].
  - destruct (_ && _); cbn [fst snd maysend_of]; rewrite app_nil_r; [done|by apply set_out_informed].
  - destruct (sa p a); cbn [fst snd maysend_of]; rewrite app_nil_r; exact Hi.
  - cbn [fst snd maysend_of]. rewrite app_nil_r. by apply set_out_informed.
  - cbn [fst snd maysend_of]. by rewrite app_nil_r.
  - cbn. by rewrite app_nil_r.
  - cbn [fst snd maysend_of]. rewrite filter_maysend_acks, app_nil_r. exact Hi.
  - cbn [fst snd maysend_of]. rewrite Hn. fold (room_event s). rewrite filter_maysend_room.
    split; [exact Hn|]. right. destruct (s_pend s) as [|n].
    + simpl. rewrite app_nil_r. destruct Hor as [|Hor]; [lia|exact Hor].
    + rewrite replicate_S_end, app_assoc. apply last_snoc.
Qed.

Lemma run_informed sa ops told s :
  forallb keeps_limits ops = true -> informed told s ->
  informed (told ++ maysend_events (spec_run sa ops s).1) (spec_run sa ops s).2.
Proof.
  revert told s. induction ops as [|op ops IH]; intros told s Hk Hi.
  { simpl. by rewrite app_nil_r. }
  simpl in Hk. apply andb_true_iff in Hk as [Hop Hk].
  pose proof (IH _ _ Hk (step_informed sa op told s Hop Hi)) as H.
  cbn [spec_run]. destruct (spec_step sa op s) as [o s1]. cbn [fst snd] in *.
  destruct (spec_run sa ops s1) as [os s2]. cbn [fst snd] in *. unfold maysend_events in *.
  cbn [flat_map]. by rewrite app_assoc.
Qed.

Lemma rep_room s r :
  rdgram_rep s r -> s_notified s = true ->
  (if sendbuf_get_free_len r <? maysend_threshold r then MAYSEND_OFF else MAYSEND_ON) = room_event s.
Proof.
  intros (Hdb & Hn & Hu & Hb & Hm & Hmr & Hle & Ht & _) En%notified_limited. specialize (Hle En).
  unfold sendbuf_get_free_len, sendbuf_is_limited, room_event, s_room.
  rewrite Hm, Hu, Ht. destruct (Z.eqb_spec (s_max s) 0) as [|_]; [done|]. cbn [negb].
  pose proof (sendbuf_bytes_nonneg (s_out s)). rewrite wrap_small by (unfold in_range, SIZE_T_BITS; lia).
  by destruct (Z.ltb_spec (s_max s - sendbuf_bytes (s_out s)) (s_thr s)),
      (Z.leb_spec (s_thr s) (s_max s - sendbuf_bytes (s_out s))); try lia.
Qed.

(** The packets of the send buffer are those found by their sequence numbers. *)
Lemma sendbuf_find s r q p :
  rdgram_rep s r -> s_next s - 2 ^ 31 <= q < s_next s ->
  s_out s !! q = Some p <-> exists sb, find_sendbuf_pkt (wrap 32 q) r = Some sb /\ sb_pkt sb = p.
Proof.
  intros ((l & Hs & Hdbl & Ho & Hw) & _) Hq. unfold find_sendbuf_pkt.
  rewrite Hdbl, om_find_map.
  - rewrite om_find_lookup by done. rewrite <- Ho, lookup_fmap, fmap_Some. by apply exist_proper; intros sb; split; intros [? ->].
  - apply keys_near_agree, (keys_near_window q (s_next s - 2 ^ 31)); [lia|].
    eapply Forall_impl; [exact Hw|]. simpl. lia.
Qed.

(* ------------------------------------------------------------------ *)
(** * Properties *)
(* ------------------------------------------------------------------ *)

(** C5. The reliable layer, through any sequence of packets from both sides
    (forged ones included), retransmissions, timers and changes of its limits,
    behaves like a finite map of the packets not yet acknowledged, indexed by
    unbounded sequence numbers: no assertion fails; a packet is refused
    exactly when it does not fit; an acknowledgement removes exactly the packet
    of that number; every packet of the buffer is retransmitted as it was sent;
    the used length is the sum of the lengths and stays within the limit; and
    [stop] terminates and empties the buffer. *)
Theorem rdgram_refines (sa : list Z -> Z -> bool) (ops : list rdgram_op)
    (Hok : ops_ok sa ops spec_init) :
  let s := (spec_run sa ops spec_init).2 in
  exists r, rdgram_run sa ops rdgram_ctor = Ok ((spec_run sa ops spec_init).1, r) /\
    next_xmit_seqnb r = wrap 32 (s_next s) /\
    sendbuf_used_len r = sendbuf_bytes (s_out s) /\
    (sendbuf_max_len r <> 0 -> sendbuf_used_len r <= sendbuf_max_len r) /\
    (forall q p, s_next s - 2 ^ 31 <= q < s_next s ->
       s_out s !! q = Some p <-> exists sb, find_sendbuf_pkt (wrap 32 q) r = Some sb /\ sb_pkt sb = p) /\
    exists r', stop r = Ok r' /\ sendbuf_pkt_db r' = [] /\ sendbuf_used_len r' = 0.
Proof.
  intros s. destruct (rdgram_run_spec sa ops spec_init rdgram_ctor rdgram_rep_init Hok) as (r & Hr & Hrep).
  exists r. split; [exact Hr|]. fold s in Hrep.
  pose proof Hrep as (_ & Hn & Hu & _ & Hm & _ & Hle & _).
  split; [done|]. split; [done|]. split; [rewrite Hm, Hu; exact Hle|].
  split; [intros q p; by apply sendbuf_find|]. by apply (stop_loop_spec _ s).
Qed.

(** Once a threshold is set on a limited send buffer, and as long as the
    limits are not changed, the user is never left with a stale view of the
    room: whenever no notification is pending, the last one it was given says
    whether the free length is now below the threshold. *)
Theorem maysend_tracks_room (sa : list Z -> Z -> bool) (ops0 ops : list rdgram_op) (len : Z)
    (Hok0 : ops_ok sa (ops0 ++ [SetThreshold len]) spec_init)
    (Hok : ops_ok sa ops (spec_run sa (ops0 ++ [SetThreshold len]) spec_init).2)
    (Hkeep : forallb keeps_limits ops = true) :
  exists os0 r0 os r,
    rdgram_run sa (ops0 ++ [SetThreshold len]) rdgram_ctor = Ok (os0, r0) /\
    rdgram_run sa ops r0 = Ok (os, r) /\
    (maysend_is_set r0 = true -> zerotimer_maysend r = 0%nat ->
     last (maysend_events os) =
       Some (if sendbuf_get_free_len r <? maysend_threshold r then MAYSEND_OFF else MAYSEND_ON)).
Proof.
  destruct (rdgram_run_spec sa _ _ _ rdgram_rep_init Hok0) as (r0 & Hr0 & Hrep0).
  destruct (rdgram_run_spec sa _ _ _ Hrep0 Hok) as (r & Hr & Hrep).
  do 4 eexists. split; [exact Hr0|]. split; [exact Hr|]. intros Hset Hz.
  assert (Hp0 : s_notified (spec_run sa (ops0 ++ [SetThreshold len]) spec_init).2 = true ->
    (0 < s_pend (spec_run sa (ops0 ++ [SetThreshold len]) spec_init).2)%nat).
  { generalize spec_init. clear. induction ops0 as [|op ops0 IH]; intros s.
    - cbn. unfold s_notified. cbn [s_thr s_max]. intros ->. simpl. lia.
    - cbn [spec_run app]. destruct (spec_step sa op s) as [o s1]. specialize (IH s1).
      destruct (spec_run sa (ops0 ++ [SetThreshold len]) s1). exact IH. }
  set (s0 := (spec_run sa (ops0 ++ [SetThreshold len]) spec_init).2) in *.
  pose proof Hrep0 as (_ & _ & _ & _ & Hm0 & _ & _ & Ht0 & _).
  rewrite (maysend_set_notified s0) in Hset by done.
  destruct (run_informed sa ops [] s0 Hkeep) as [Hn Hor]; [split; auto|].
  rewrite (rep_room _ _ Hrep Hn). simpl app in Hor.
  destruct Hrep as (_ & _ & _ & _ & _ & _ & _ & _ & _ & _ & _ & Hpend).
  destruct Hor as [Hlt|Hlast]; [|exact Hlast]. rewrite <- Hpend, Hz in Hlt. lia.
Qed.

(** Errors: a packet refused because the send buffer is full comes back to
    the caller with the header already prepended, the state unchanged; making
    the send buffer unlimited (the documented meaning of 0), or smaller, while
    it holds more fails an assertion; a packet too short for its header or of
    an unknown type is bogus and changes nothing. *)
Theorem rdgram_errors (r : rdgram_t) (sa : list Z -> Z -> bool) (p bs : list Z) (len b : Z)
    (Hfull : sendbuf_max_len r <> 0 /\
             sendbuf_max_len r < wrap 64 (sendbuf_used_len r + (5 + pkt_len p)))
    (Hlen : len < sendbuf_used_len r) (Hb : is_byte b /\ b <> DATA_PKT /\ b <> ACK_PKT) :
  pkt_from_upper p r = Ok (SENDBUF_FULL, rdgram_header DATA_PKT (next_xmit_seqnb r) ++ p, r) /\
  sendbuf_set_max_len len r = AssertFail /\
  pkt_from_lower sa (b :: bs) r = Ok (BOGUS_PKT, bs, None, r) /\
  pkt_from_lower sa (take 4 bs) r = Ok (BOGUS_PKT, drop 1 (take 4 bs), None, r).
Proof.
  destruct Hfull as [Hlim Hfull]. split; [|split; [|split]].
  - unfold pkt_from_upper, sendbuf_is_limited. destruct (Z.eqb_spec (sendbuf_max_len r) 0); [done|].
    replace (pkt_len (_ ++ p)) with (5 + pkt_len p) by
      (unfold pkt_len; rewrite length_app, header_length; lia).
    unfold SIZE_T_BITS. by destruct (Z.ltb_spec (sendbuf_max_len r) (wrap 64 (sendbuf_used_len r + (5 + pkt_len p)))); [|lia].
  - unfold sendbuf_set_max_len. by destruct (Z.leb_spec (sendbuf_used_len r) len); [lia|].
  - rewrite lower_bogus; [by rewrite skipn_cons, drop_0|]. right. by exists b, bs.
  - apply lower_bogus. left. rewrite length_take. lia.
Qed.

(* ------------------------------------------------------------------ *)
(** * Witnesses *)
(* ------------------------------------------------------------------ *)

(** Three packets in a buffer of 20 bytes: the third does not fit until the
    first is acknowledged; the second is retransmitted. *)
Definition demo_ops : list rdgram_op :=
  [SetMaxLen 20; Upper [1; 2; 3]; Upper [4; 5]; Upper [6; 7; 8]; LowerAck 0 []; LowerAck 0 []; Rxmit 1;
   Upper [6; 7; 8]; LowerData 7 [9]; AckTimer].

Lemma dom_above (m : gmap Z (list Z)) n :
  forallb (fun kp => n <? kp.1) (map_to_list m) = true -> forall q, q ∈ dom m -> n < q.
Proof.
  intros H q [p Hp]%elem_of_dom. rewrite forallb_forall in H.
  specialize (H (q, p)). apply Z.ltb_lt, H. by apply list_elem_of_In, elem_of_map_to_list.
Qed.

(** Discharge the premises of a concrete run. *)
Ltac solve_ops_ok :=
  repeat match goal with
  | |- ops_ok _ (_ :: _) _ => split
  | |- ops_ok _ [] _ => exact I
  | |- True => exact I
  | |- _ /\ _ => split
  | |- in_range _ _ => split
  | |- forall q, q ∈ dom _ -> _ => apply dom_above; vm_compute; reflexivity
  | |- _ < _ => vm_compute; reflexivity
  | |- _ <= _ => vm_compute; discriminate
  | |- op_ok (SetMaxLen _) _ => split
  | |- op_ok (SetThreshold _) _ => split
  | |- op_ok (Upper _) _ => split
  | |- op_ok (LowerData _ _) _ => split
  | |- op_ok (LowerAck _ _) _ => split
  | |- op_ok AckTimer _ => exact I
  | |- op_ok MaysendTimer _ => exact I
  | |- op_ok (Rxmit _) _ => cbn [op_ok]; apply elem_of_dom; vm_compute; eexists; reflexivity
  end.

Lemma demo_ops_ok : ops_ok (fun _ _ => true) demo_ops spec_init.
Proof. unfold demo_ops. solve_ops_ok. Qed.

Lemma rdgram_refines_witness :
  exists r, rdgram_run (fun _ _ => true) demo_ops rdgram_ctor =
    Ok ([Events []; Result OK [65; 0; 0; 0; 0; 1; 2; 3] None; Result OK [65; 0; 0; 0; 1; 4; 5] None;
         Result SENDBUF_FULL [65; 0; 0; 0; 2; 6; 7; 8] None; Result OK [] None; Result OK [] None;
         Events [PKT_TO_LOWER [65; 0; 0; 0; 1; 4; 5]]; Result OK [65; 0; 0; 0; 2; 6; 7; 8] None;
         Result OK [9] (Some 7); Events [PKT_TO_LOWER [66; 0; 0; 0; 7]]], r) /\
    sendbuf_used_len r = 15.
Proof.
  destruct (rdgram_refines (fun _ _ => true) demo_ops demo_ops_ok) as (r & Hr & _ & Hu & _).
  exists r. split; [|rewrite Hu; vm_compute; reflexivity].
  rewrite Hr. vm_compute. reflexivity.
Defined.

(** Ten free bytes wanted out of 20: the second packet ends the room, the
    acknowledgement of the first brings it back. *)
Definition demo_room : list rdgram_op :=
  [Upper [1; 2; 3]; Upper [4; 5]; MaysendTimer; LowerAck 0 []; MaysendTimer].

Lemma maysend_tracks_room_witness :
  exists os0 r0 os r,
    rdgram_run (fun _ _ => true) ([SetMaxLen 20] ++ [SetThreshold 10]) rdgram_ctor = Ok (os0, r0) /\
    rdgram_run (fun _ _ => true) demo_room r0 = Ok (os, r) /\
    (maysend_is_set r0 = true -> zerotimer_maysend r = 0%nat ->
     last (maysend_events os) =
       Some (if sendbuf_get_free_len r <? maysend_threshold r then MAYSEND_OFF else MAYSEND_ON)).
Proof.
  apply (maysend_tracks_room (fun _ _ => true) [SetMaxLen 20] demo_room 10).
  - cbn [app]. solve_ops_ok.
  - unfold demo_room. solve_ops_ok.
  - reflexivity.
Defined.

Lemma rdgram_errors_witness :
  pkt_from_upper [1; 2; 3] (Rdgram [] 4 18 20 0 [] 0 0) =
    Ok (SENDBUF_FULL, [65; 0; 0; 0; 4; 1; 2; 3], Rdgram [] 4 18 20 0 [] 0 0) /\
  sendbuf_set_max_len 0 (Rdgram [] 4 18 20 0 [] 0 0) = AssertFail.
Proof.
  destruct (rdgram_errors (Rdgram [] 4 18 20 0 [] 0 0) (fun _ _ => true) [1; 2; 3] [] 0 1) as (H1 & H2 & _).
  - split; [discriminate|vm_compute; reflexivity].
  - reflexivity.
  - split; [split; [discriminate|reflexivity]|split; discriminate].
  - split; [exact H1|exact H2].
Defined.
