(* ===== verification/Ordgram.v ===== *)
(** Ordered reliable datagrams: [ordgram_t] (src/src/neoip_proto/ordgram/),
    the layer over [rdgram_t] that delivers packets once and in order.

    The receive buffer is a [std::map<wai32_t, recvbuf_pkt_t>], an ordered
    association list under the order of [wai_t].  As in Rdgram.v the events
    given to the user are returned in order, and [cb] is the user's answer to
    each.  OrdNet.v runs two such layers over a network. *)
From stdpp Require Import gmap.
From S2P Require Import Prelude Serial Codec Wai Omap Time Rdgram.

(* ------------------------------------------------------------------ *)
(** * Data *)
(* ------------------------------------------------------------------ *)

Definition RECVBUF_MAX_LEN_DFL : Z := 30 * 1024.

Record recvbuf_pkt_t := RecvbufPkt { rb_seqnb : Z; rb_pkt : list Z }.

Record ordgram_t := Ordgram {
  rdgram : rdgram_t;
  recvbuf_pkt_db : list (Z * recvbuf_pkt_t);
  recvbuf_max_len : Z;
  recvbuf_used_len : Z;
  next_seqnb_to_deliver : Z;
  zerotimer_deliver : nat
}.

Definition ordgram_ctor : ordgram_t := Ordgram rdgram_ctor [] RECVBUF_MAX_LEN_DFL 0 FIRST_SEQNB 0.

Inductive ordgram_event_t :=
| ORD_PKT_TO_LOWER (pkt : list Z)
| ORD_PKT_TO_UPPER (pkt : list Z)
| ORD_MAYSEND_ON
| ORD_MAYSEND_OFF.

Definition set_rdgram (r : rdgram_t) (o : ordgram_t) : ordgram_t :=
  Ordgram r (recvbuf_pkt_db o) (recvbuf_max_len o) (recvbuf_used_len o)
    (next_seqnb_to_deliver o) (zerotimer_deliver o).
Definition set_recvbuf (db : list (Z * recvbuf_pkt_t)) (used next : Z) (o : ordgram_t) : ordgram_t :=
  Ordgram (rdgram o) db (recvbuf_max_len o) used next (zerotimer_deliver o).
Definition set_deliver_timer (n : nat) (o : ordgram_t) : ordgram_t :=
  Ordgram (rdgram o) (recvbuf_pkt_db o) (recvbuf_max_len o) (recvbuf_used_len o)
    (next_seqnb_to_deliver o) n.

(* ------------------------------------------------------------------ *)
(** * Callbacks of rdgram_t *)
(* ------------------------------------------------------------------ *)

(** [neoip_rdgram_event_cb]: every event is converted. *)
Definition neoip_rdgram_event_cb (e : rdgram_event_t) : ordgram_event_t :=
  match e with
  | MAYSEND_OFF => ORD_MAYSEND_OFF
  | MAYSEND_ON => ORD_MAYSEND_ON
  | PKT_TO_LOWER pkt => ORD_PKT_TO_LOWER pkt
  end.

Definition neoip_rdgram_should_acked_pkt_cb (o : ordgram_t) (pkt : list Z) (seqnb : Z) : bool :=
  if wai_lt 32 seqnb (next_seqnb_to_deliver o) then true
  else if bool_decide (is_Some (om_find (wai_lt 32) seqnb (recvbuf_pkt_db o))) then true
  else if recvbuf_max_len o <? wrap SIZE_T_BITS (recvbuf_used_len o + pkt_len pkt) then false
  else true.

(* ------------------------------------------------------------------ *)
(** * Delivery of the packets received out of order *)
(* ------------------------------------------------------------------ *)

(** The first loop: the packets already delivered are removed. *)
Fixpoint purge_loop (next : Z) (db : list (Z * recvbuf_pkt_t)) : list (Z * recvbuf_pkt_t) :=
  match db with
  | [] => []
  | (_, recvbuf_pkt) :: db' =>
    if wai_ge 32 (rb_seqnb recvbuf_pkt) next then db else purge_loop next db'
  end.

(** The second loop; each turn removes a packet, so the size of the buffer is
    enough fuel. *)
Fixpoint deliver_loop (fuel : nat) (cb : ordgram_event_t -> bool) (o : ordgram_t)
    : outcome (list ordgram_event_t * bool * ordgram_t) :=
  match recvbuf_pkt_db o with
  | [] => Ok ([], true, o)
  | _ =>
    match om_find (wai_lt 32) (next_seqnb_to_deliver o) (recvbuf_pkt_db o) with
    | None => Ok ([], true, o)
    | Some recvbuf_pkt =>
      let used := wrap SIZE_T_BITS (recvbuf_used_len o - pkt_len (rb_pkt recvbuf_pkt)) in
      let ev := ORD_PKT_TO_UPPER (rb_pkt recvbuf_pkt) in
      if negb (cb ev)
      then Ok ([ev], false, set_recvbuf (recvbuf_pkt_db o) used (next_seqnb_to_deliver o) o)
      else
        let db := om_erase (wai_lt 32) (next_seqnb_to_deliver o) (recvbuf_pkt_db o) in
        match fuel with
        | O => Fault
        | S fuel' =>
          let* (evs, keep, o1) :=
            deliver_loop fuel' cb (set_recvbuf db used (wai_incr 32 (next_seqnb_to_deliver o)) o) in
          Ok (ev :: evs, keep, o1)
        end
    end
  end.

Definition neoip_zerotimer_expire_cb (cb : ordgram_event_t -> bool) (o : ordgram_t)
    : outcome (list ordgram_event_t * bool * ordgram_t) :=
  let db := purge_loop (next_seqnb_to_deliver o) (recvbuf_pkt_db o) in
  deliver_loop (length db) cb (set_recvbuf db (recvbuf_used_len o) (next_seqnb_to_deliver o) o).

(** The expiration of the zero timer: as many calls as appended. *)
Fixpoint deliver_notify (n : nat) (cb : ordgram_event_t -> bool) (o : ordgram_t)
    : outcome (list ordgram_event_t * bool * ordgram_t) :=
  match n with
  | O => Ok ([], true, o)
  | S n' =>
    let* (evs, keep, o1) := neoip_zerotimer_expire_cb cb o in
    if negb keep then Ok (evs, false, o1)
    else let* (evs2, keep2, o2) := deliver_notify n' cb o1 in Ok (evs ++ evs2, keep2, o2)
  end.

Definition zerotimer_deliver_expire (cb : ordgram_event_t -> bool) (o : ordgram_t)
    : outcome (list ordgram_event_t * bool * ordgram_t) :=
  deliver_notify (zerotimer_deliver o) cb (set_deliver_timer 0 o).

(* ------------------------------------------------------------------ *)
(** * Packets *)
(* ------------------------------------------------------------------ *)

Definition pkt_from_lower_outoforder (pkt : list Z) (seqnb : Z) (o : ordgram_t) : outcome ordgram_t :=
  assert! wai_ne 32 seqnb (next_seqnb_to_deliver o) in
  if wai_lt 32 seqnb (next_seqnb_to_deliver o) then Ok o
  else if bool_decide (is_Some (om_find (wai_lt 32) seqnb (recvbuf_pkt_db o))) then Ok o
  else
    assert! wrap SIZE_T_BITS (recvbuf_used_len o + pkt_len pkt) <=? recvbuf_max_len o in
    let used := wrap SIZE_T_BITS (recvbuf_used_len o + pkt_len pkt) in
    let (db, succeed) := om_insert (wai_lt 32) seqnb (RecvbufPkt seqnb pkt) (recvbuf_pkt_db o) in
    assert! succeed in
    Ok (set_recvbuf db used (next_seqnb_to_deliver o) o).

Definition pkt_from_upper (pkt : list Z) (o : ordgram_t) : outcome (rdgram_err_t * list Z * ordgram_t) :=
  let* (err, pkt, r) := Rdgram.pkt_from_upper pkt (rdgram o) in Ok (err, pkt, set_rdgram r o).

(** The error, the packet for the upper layer ([[]] when swallowed), the state. *)
Definition pkt_from_lower (pkt : list Z) (o : ordgram_t) : outcome (rdgram_err_t * list Z * ordgram_t) :=
  let* (err, pkt, seqnb, r) :=
    Rdgram.pkt_from_lower (neoip_rdgram_should_acked_pkt_cb o) pkt (rdgram o) in
  let o1 := set_rdgram r o in
  match err with
  | OK =>
    if datum_is_null pkt then Ok (OK, pkt, o1)
    else
      match seqnb with
      | None => Fault (* the sequence number is read uninitialized *)
      | Some seqnb =>
        if wai_lt 32 seqnb (next_seqnb_to_deliver o1) then Ok (OK, [], o1)
        else if wai_gt 32 seqnb (next_seqnb_to_deliver o1) then
          let* o2 := pkt_from_lower_outoforder pkt seqnb o1 in Ok (OK, [], o2)
        else
          let o2 := set_recvbuf (recvbuf_pkt_db o1) (recvbuf_used_len o1)
                      (wai_incr 32 (next_seqnb_to_deliver o1)) o1 in
          let o3 := match recvbuf_pkt_db o2 with
                    | [] => o2
                    | _ => set_deliver_timer (S (zerotimer_deliver o2)) o2
                    end in
          Ok (OK, pkt, o3)
      end
  | _ => Ok (err, pkt, o1)
  end.

(* ------------------------------------------------------------------ *)
(** * Specification of the reception *)
(* ------------------------------------------------------------------ *)

(** The reception of packet [q] with payload [p], when [n] is the next position
    to deliver and [B] the buffered packets: the packet given to the upper
    layer, the new state, and whether the packet is acknowledged. *)
Definition spec_data (room : bool) (q : Z) (p : list Z) (n : Z) (B : gmap Z (list Z))
    : list Z * Z * gmap Z (list Z) * bool :=
  if q <? n then ([], n, B, true)
  else if negb (bool_decide (is_Some (B !! q))) && negb room then ([], n, B, false)
  else if q =? n then (p, n + 1, B, true)
  else ([], n, if bool_decide (is_Some (B !! q)) then B else <[q := p]> B, true).

(** The packets delivered from [n] on as long as they are in [B]. *)
Fixpoint spec_deliver (fuel : nat) (n : Z) (B : gmap Z (list Z)) : list (list Z) * Z * gmap Z (list Z) :=
  match fuel with
  | O => ([], n, B)
  | S fuel' =>
    match B !! n with
    | None => ([], n, B)
    | Some p => let '(ps, n', B') := spec_deliver fuel' (n + 1) (delete n B) in (p :: ps, n', B')
    end
  end.

(** [n] is the next position to deliver and [B] the content of the receive
    buffer, within 2^30 of it. *)
Definition recv_rep (n : Z) (B : gmap Z (list Z)) (o : ordgram_t) : Prop :=
  (exists l, om_sorted l /\ recvbuf_pkt_db o = om_keys (wrap 32) l /\ rb_pkt <$> om_map l = B /\
     Forall (fun p => n - 2 ^ 30 <= p.1 < n + 2 ^ 30 /\ rb_seqnb p.2 = wrap 32 p.1) l) /\
  next_seqnb_to_deliver o = wrap 32 n /\
  sendbuf_bytes B <= recvbuf_used_len o <= recvbuf_max_len o /\ recvbuf_max_len o < 2 ^ 63.

Definition recv_room (p : list Z) (o : ordgram_t) : bool :=
  recvbuf_used_len o + pkt_len p <=? recvbuf_max_len o.

(* ------------------------------------------------------------------ *)
(** * Lemmas *)
(* ------------------------------------------------------------------ *)

Lemma wai32_cmp x y : Z.abs (x - y) < 2 ^ 31 -> wai_cmp 32 (wrap 32 x) (wrap 32 y) = x - y.
Proof. intros H. by apply wai_cmp_near. Qed.

Section recv.
Context (n : Z) (B : gmap Z (list Z)) (o : ordgram_t).
Hypothesis Hrep : recv_rep n B o.

Lemma recv_next : next_seqnb_to_deliver o = wrap 32 n.
Proof. by destruct Hrep as (_ & ? & _). Qed.

Lemma recv_lt q : Z.abs (q - n) < 2 ^ 30 -> wai_lt 32 (wrap 32 q) (next_seqnb_to_deliver o) = (q <? n).
Proof. intros Hq. rewrite recv_next. apply wai32_lt. lia. Qed.

Lemma recv_gt q : Z.abs (q - n) < 2 ^ 30 -> wai_gt 32 (wrap 32 q) (next_seqnb_to_deliver o) = (n <? q).
Proof. intros Hq. rewrite recv_next. unfold wai_gt. rewrite wai32_cmp by lia. lia. Qed.

Lemma recv_find q :
  n - 2 ^ 30 <= q < n + 2 ^ 30 ->
  rb_pkt <$> om_find (wai_lt 32) (wrap 32 q) (recvbuf_pkt_db o) = B !! q.
Proof.
  intros Hq. destruct Hrep as ((l & Hs & -> & <- & Hw) & _).
  rewrite om_find_map, om_find_lookup, lookup_fmap; [done|done|].
  apply keys_near_agree, (keys_near_window q (n - 2 ^ 30)); [lia|].
  eapply Forall_impl; [exact Hw|]. simpl. lia.
Qed.

Lemma recv_found q :
  n - 2 ^ 30 <= q < n + 2 ^ 30 ->
  bool_decide (is_Some (om_find (wai_lt 32) (wrap 32 q) (recvbuf_pkt_db o))) = bool_decide (is_Some (B !! q)).
Proof. intros Hq. apply bool_decide_ext. rewrite <- recv_find by done. by rewrite fmap_is_Some. Qed.

Lemma recv_room_wrap p :
  pkt_len p < 2 ^ 63 -> wrap SIZE_T_BITS (recvbuf_used_len o + pkt_len p) = recvbuf_used_len o + pkt_len p.
Proof.
  intros Hp. destruct Hrep as (_ & _ & Hu & Hm). pose proof (sendbuf_bytes_nonneg B).
  apply wrap_small. unfold in_range, SIZE_T_BITS, pkt_len in *. lia.
Qed.

Lemma should_acked_spec q p :
  Z.abs (q - n) < 2 ^ 30 -> pkt_len p < 2 ^ 63 ->
  neoip_rdgram_should_acked_pkt_cb o p (wrap 32 q) = (spec_data (recv_room p o) q p n B).2.
Proof.
  intros Hq Hp. unfold neoip_rdgram_should_acked_pkt_cb, spec_data, recv_room.
  rewrite recv_lt, recv_found, recv_room_wrap by (done || lia).
  destruct (q <? n); [done|]. destruct (bool_decide (is_Some (B !! q))); cbn [negb andb].
  - by destruct (q =? n).
  - destruct (Z.ltb_spec (recvbuf_max_len o) (recvbuf_used_len o + pkt_len p)),
      (Z.leb_spec (recvbuf_used_len o + pkt_len p) (recvbuf_max_len o)); try lia; [done|].
    cbn [negb andb]. by destruct (q =? n).
Qed.

(** The receive buffer gets packet [q]. *)
Lemma recv_insert q p r :
  Z.abs (q - n) < 2 ^ 30 -> n < q -> B !! q = None -> pkt_len p < 2 ^ 63 -> recv_room p o = true ->
  exists o', pkt_from_lower_outoforder p (wrap 32 q) (set_rdgram r o) = Ok o' /\
    recv_rep n (<[q := p]> B) o' /\ rdgram o' = r /\ zerotimer_deliver o' = zerotimer_deliver o /\
    recvbuf_used_len o' = recvbuf_used_len o + pkt_len p /\ recvbuf_max_len o' = recvbuf_max_len o.
Proof.
  intros Hq Hgt HB Hp Hroom. unfold pkt_from_lower_outoforder. cbn [set_rdgram next_seqnb_to_deliver recvbuf_pkt_db
    recvbuf_used_len recvbuf_max_len]. pose proof recv_next as Hn.
  rewrite recv_lt, recv_found, recv_room_wrap by (done || lia).
  pass_assert ltac:(unfold wai_ne; rewrite Hn, wai32_cmp by lia;
    apply negb_true_iff, Z.eqb_neq; lia).
  rewrite (proj2 (Z.ltb_ge q n)) by lia. rewrite HB. rewrite bool_decide_eq_false_2 by (intros [? [=]]).
  unfold recv_room in Hroom. rewrite Hroom. cbn [dbg_assert].
  destruct Hrep as ((l & Hs & Hdb & Ho & Hw) & _ & Hu & Hm).
  destruct (om_insert_wai q (RecvbufPkt (wrap 32 q) p) l) as (l' & Hi & Hs' & Hm'); [done| | |].
  { apply (keys_near_window q (n - 2 ^ 30)); [lia|]. eapply Forall_impl; [exact Hw|]. simpl. lia. }
  { rewrite <- Ho, lookup_fmap in HB. by apply fmap_None in HB. }
  rewrite Hdb, Hi. cbn [dbg_assert]. eexists. split; [reflexivity|]. split; [|done].
  unfold recv_rep. cbn. split; [|split; [done|]].
  - exists l'. split_and!; try done; [by rewrite Hm', fmap_insert, Ho|].
    apply om_map_Forall; [done|]. intros k v. rewrite Hm', lookup_insert. case_decide as Hk.
    + intros [= <-]. simpl. subst k. lia.
    + intros Hk'. by apply (om_map_Forall_1 _ l Hs Hw).
  - rewrite sendbuf_bytes_insert by done. apply Z.leb_le in Hroom. lia.
Qed.
End recv.

Lemma recv_rep_set_rdgram n B o r : recv_rep n B (set_rdgram r o) <-> recv_rep n B o.
Proof. done. Qed.

(** The next position moves on. *)
Lemma recv_rep_incr n B o t :
  recv_rep n B o -> (forall k, k ∈ dom B -> n - 2 ^ 30 < k) ->
  recv_rep (n + 1) B (set_deliver_timer t
    (set_recvbuf (recvbuf_pkt_db o) (recvbuf_used_len o) (wai_incr 32 (next_seqnb_to_deliver o)) o)).
Proof.
  intros ((l & Hs & Hdb & Ho & Hw) & Hn & Hu & Hm) Hlow. unfold recv_rep. cbn.
  split; [|split; [|done]].
  - exists l. split_and!; try done. apply om_map_Forall; [done|]. intros k v Hk. simpl.
    pose proof (om_map_Forall_1 _ l Hs Hw k v Hk) as [Hr Hv]. simpl in Hr, Hv.
    assert (k ∈ dom B) by (rewrite <- Ho, dom_fmap; by apply elem_of_dom_2 in Hk).
    pose proof (Hlow k ltac:(done)). split; [lia|done].
  - rewrite Hn. unfold wai_incr, wai_add, wai_of_unsigned. by rewrite wrap_add_wrap.
Qed.

Lemma data_spec n B s o q p :
  recv_rep n B o -> rdgram_rep s (rdgram o) -> p <> [] -> pkt_len p < 2 ^ 63 ->
  Z.abs (q - n) < 2 ^ 30 -> (forall k, k ∈ dom B -> n - 2 ^ 30 < k) ->
  let '(out, n', B', acked) := spec_data (recv_room p o) q p n B in
  exists o', pkt_from_lower (rdgram_header DATA_PKT (wrap 32 q) ++ p) o = Ok (OK, out, o') /\
    recv_rep n' B' o' /\ rdgram_rep (if acked then s_push_ack (wrap 32 q) s else s) (rdgram o') /\
    (zerotimer_deliver o <= zerotimer_deliver o')%nat /\
    (n' <> n -> B' <> ∅ -> (0 < zerotimer_deliver o')%nat) /\
    recvbuf_used_len o' = recvbuf_used_len o + (sendbuf_bytes B' - sendbuf_bytes B) /\
    recvbuf_max_len o' = recvbuf_max_len o /\ (acked = false -> o' = o).
Proof.
  intros Hrep Hr Hp0 Hpl Hq Hlow. pose proof (should_acked_spec n B o Hrep q p Hq Hpl) as Hsa.
  assert (Hnull : datum_is_null p = false).
  { unfold datum_is_null. apply bool_decide_eq_false_2. by destruct p. }
  unfold pkt_from_lower.
  rewrite (lower_data_recv _ s) by (done || by apply wrap_range).
  rewrite Hsa. clear Hsa. set (r1 := set_acks _ 1 (rdgram o)).
  assert (Hr1 : rdgram_rep (s_push_ack (wrap 32 q) s) r1) by by apply rep_push_ack.
  unfold spec_data. destruct (Z.ltb_spec q n) as [Hlt|Hge].
  { cbn [snd mbind outcome_bind]. rewrite Hnull. cbn [set_rdgram next_seqnb_to_deliver].
    rewrite (recv_lt n B o Hrep q Hq). rewrite (proj2 (Z.ltb_lt q n)) by lia.
    eexists. split; [reflexivity|]. split_and!; try done; cbn; lia. }
  destruct (negb (bool_decide (is_Some (B !! q))) && negb (recv_room p o)) eqn:Eroom.
  { cbn [snd mbind outcome_bind]. change (datum_is_null []) with true. cbv iota.
    eexists. split; [reflexivity|]. split_and!; try done; cbn; try lia. by destruct o. }
  destruct (Z.eqb_spec q n) as [->|Hne].
  { cbn [snd mbind outcome_bind]. rewrite Hnull. cbn [set_rdgram next_seqnb_to_deliver].
    rewrite (recv_lt n B o Hrep n Hq), (recv_gt n B o Hrep n Hq), Z.ltb_irrefl. eexists. split; [reflexivity|].
    cbn [recvbuf_pkt_db set_recvbuf set_rdgram].
    destruct (recvbuf_pkt_db o) as [|e db] eqn:Edb.
    - split_and!; try done; [| |cbn; lia].
      + pose proof (recv_rep_incr n B o (zerotimer_deliver o) Hrep Hlow) as H. rewrite Edb in H. exact H.
      + intros _ HB. destruct HB. destruct Hrep as ((l & _ & Hdb & <- & _) & _). rewrite Edb in Hdb.
        by destruct l.
    - split_and!; try done; [|cbn; lia..].
      pose proof (recv_rep_incr n B o (S (zerotimer_deliver o)) Hrep Hlow) as H. rewrite Edb in H. exact H. }
  cbn [snd mbind outcome_bind]. rewrite Hnull. cbn [set_rdgram next_seqnb_to_deliver].
  rewrite (recv_lt n B o Hrep q Hq), (recv_gt n B o Hrep q Hq).
  rewrite (proj2 (Z.ltb_ge q n)), (proj2 (Z.ltb_lt n q)) by lia. cbv iota.
  destruct (B !! q) as [p'|] eqn:EB.
  - rewrite bool_decide_eq_true_2 by done.
    unfold pkt_from_lower_outoforder. cbn [set_rdgram next_seqnb_to_deliver recvbuf_pkt_db].
    pass_assert ltac:(unfold wai_ne; rewrite (recv_next n B o Hrep), wai32_cmp by lia;
      apply negb_true_iff, Z.eqb_neq; lia).
    rewrite (recv_lt n B o Hrep q Hq), (recv_found n B o Hrep q) by lia.
    rewrite (proj2 (Z.ltb_ge q n)) by lia. rewrite EB, bool_decide_eq_true_2 by done.
    cbn [mbind outcome_bind]. eexists. split; [reflexivity|]. split_and!; try done; cbn; lia.
  - rewrite bool_decide_eq_false_2 in * by (intros [? [=]]). cbn [negb andb] in Eroom.
    apply negb_false_iff in Eroom.
    destruct (recv_insert n B o Hrep q p r1 Hq ltac:(lia) EB Hpl Eroom) as (o' & Ho & Hrep' & Hr' & Hz & Hu' & Hmx).
    rewrite Ho. cbn [mbind outcome_bind]. exists o'. split; [done|].
    rewrite Hr', Hz, Hu', Hmx. rewrite sendbuf_bytes_insert by done. split_and!; try done; lia.
Qed.

(* ------------------------------------------------------------------ *)
(** ** The delivery timer *)
(* ------------------------------------------------------------------ *)

(** [ps] are the packets of [B] from position [n] on, [n'] and [B'] what is
    left; packets below [n'] may have been dropped. *)
Definition delivers (n : Z) (B : gmap Z (list Z)) (ps : list (list Z)) (n' : Z) (B' : gmap Z (list Z)) : Prop :=
  n' = n + Z.of_nat (length ps) /\
  (forall i p, ps !! i = Some p -> B !! (n + Z.of_nat i) = Some p) /\
  B' ⊆ B /\ (forall k p, n' <= k -> B !! k = Some p -> B' !! k = Some p).

Definition packets_len (ps : list (list Z)) : Z := foldr (fun p acc => pkt_len p + acc) 0 ps.

Lemma packets_len_app ps1 ps2 : packets_len (ps1 ++ ps2) = packets_len ps1 + packets_len ps2.
Proof. induction ps1 as [|p ps1 IH]; [done|]. unfold packets_len in *. simpl. lia. Qed.

Lemma delivers_refl n B : delivers n B [] n B.
Proof. split_and!; try done. simpl. lia. Qed.

Lemma delivers_trans n1 B1 ps1 n2 B2 ps2 n3 B3 :
  delivers n1 B1 ps1 n2 B2 -> delivers n2 B2 ps2 n3 B3 -> delivers n1 B1 (ps1 ++ ps2) n3 B3.
Proof.
  intros (-> & H1 & S1 & K1) (-> & H2 & S2 & K2). split_and!.
  - rewrite length_app. lia.
  - intros i p Hi. apply lookup_app_Some in Hi as [Hi|[Hlen Hi]]; [by apply H1|].
    apply H2 in Hi. eapply lookup_weaken in Hi; [|exact S1].
    rewrite <- Hi. f_equal. lia.
  - by etrans.
  - intros k p Hk Hp. apply K2; [lia|]. apply K1; [lia|done].
Qed.

Lemma purge_spec n l :
  om_sorted l -> Forall (fun p => n - 2 ^ 30 <= p.1 < n + 2 ^ 30 /\ rb_seqnb p.2 = wrap 32 p.1) l ->
  exists l', purge_loop (wrap 32 n) (om_keys (wrap 32) l) = om_keys (wrap 32) l' /\ om_sorted l' /\
    l' `suffix_of` l /\ Forall (fun p => n <= p.1) l' /\
    om_map l' = filter (fun kp => n <= kp.1) (om_map l).
Proof.
  intros Hs. induction l as [|[k v] l IH]; intros Hw.
  { exists []. split_and!; done. }
  pose proof Hs as [Hs' Hk]%om_sorted_cons. apply Forall_cons in Hw as [[Hr Hv] Hw]. simpl in Hr, Hv.
  cbn [om_keys]. unfold om_keys. rewrite fmap_cons. cbn [fst snd purge_loop]. rewrite Hv.
  unfold wai_ge. rewrite wai32_cmp by lia. destruct (Z.leb_spec 0 (k - n)).
  - exists ((k, v) :: l). split_and!; try done.
    + constructor; [simpl; lia|]. eapply Forall_impl; [exact Hk|]. simpl. lia.
    + symmetry. apply map_filter_id. intros k' v' Hl. simpl.
      apply om_elem_of in Hl; [|done]. apply elem_of_cons in Hl as [[= -> ->]|Hl]; [lia|].
      pose proof (proj1 (Forall_forall _ _) Hk _ Hl) as Hlt. simpl in Hlt. lia.
  - destruct (IH Hs' Hw) as (l' & Hp & Hsl & Hsuf & Hge & Hm). exists l'. split_and!; try done.
    + by apply suffix_cons_r.
    + rewrite Hm. unfold om_map. simpl. rewrite map_filter_insert_False; [|simpl; lia].
      rewrite delete_id; [done|]. by apply om_map_above.
Qed.

Lemma deliver_loop_spec fuel n B o :
  recv_rep n B o -> (forall k, k ∈ dom B -> n <= k) -> (length (recvbuf_pkt_db o) <= fuel)%nat ->
  exists ps n' B' o', deliver_loop fuel (fun _ => true) o = Ok (ORD_PKT_TO_UPPER <$> ps, true, o') /\
    delivers n B ps n' B' /\ B' !! n' = None /\ recv_rep n' B' o' /\
    rdgram o' = rdgram o /\ zerotimer_deliver o' = zerotimer_deliver o /\
    recvbuf_used_len o' = recvbuf_used_len o - packets_len ps /\ recvbuf_max_len o' = recvbuf_max_len o.
Proof.
  revert n B o. induction fuel as [|fuel IH]; intros n B o Hrep Hge Hlen.
  all: pose proof (recv_find n B o Hrep n ltac:(lia)) as Hfind.
  all: pose proof Hrep as ((l & Hs & Hdb & Ho & Hw) & Hn & Hu & Hm).
  - assert (recvbuf_pkt_db o = []) as Hnil by (destruct (recvbuf_pkt_db o); [done|simpl in Hlen; lia]).
    rewrite Hnil in Hfind. simpl in Hfind. exists [], n, B, o. cbn [deliver_loop]. rewrite Hnil.
    split_and!; try done; [apply delivers_refl|unfold packets_len; simpl; lia].
  - destruct (B !! n) as [p|] eqn:EB.
    2:{ exists [], n, B, o. split_and!; try done; [|apply delivers_refl|unfold packets_len; simpl; lia].
        apply fmap_None in Hfind. rewrite <- Hn in Hfind. cbn [deliver_loop]. rewrite Hfind.
        by destruct (recvbuf_pkt_db o). }
    apply fmap_Some in Hfind as (rb & Hfind & ->).
    assert (Hb := sendbuf_bytes_delete n (rb_pkt rb) B EB).
    pose proof (sendbuf_bytes_nonneg (delete n B)) as Hnn.
    assert (0 <= pkt_len (rb_pkt rb)) by (unfold pkt_len; lia).
    assert (Hag : keys_agree (wai_lt 32) (wrap 32) n l).
    { apply keys_near_agree, (keys_near_window n (n - 2 ^ 30)); [lia|].
      eapply Forall_impl; [exact Hw|]. simpl. lia. }
    destruct (om_erase_spec n l Hs) as [Hs' Hm'].
    assert (Hincr : wai_incr 32 (wrap 32 n) = wrap 32 (n + 1)).
    { unfold wai_incr, wai_add, wai_of_unsigned. by rewrite wrap_add_wrap. }
    set (o1 := set_recvbuf (om_erase (wai_lt 32) (wrap 32 n) (recvbuf_pkt_db o))
                 (recvbuf_used_len o - pkt_len (rb_pkt rb)) (wrap 32 (n + 1)) o).
    assert (Hrep1 : recv_rep (n + 1) (delete n B) o1).
    { unfold recv_rep, o1. cbn. split; [|split; [done|lia]].
      exists (om_erase Z.ltb n l). split_and!; try done.
      - by rewrite Hdb, om_erase_map.
      - by rewrite Hm', fmap_delete, Ho.
      - apply om_map_Forall; [done|]. intros k v. rewrite Hm'. intros [Hne Hk]%lookup_delete_Some.
        pose proof (om_map_Forall_1 _ l Hs Hw k v Hk) as [Hr Hv]. simpl in *.
        assert (k ∈ dom B) by (rewrite <- Ho, dom_fmap; by apply elem_of_dom_2 in Hk).
        pose proof (Hge k ltac:(done)). split; [lia|done]. }
    destruct (IH (n + 1) (delete n B) o1 Hrep1) as (ps & n' & B' & o' & Hd & Hdel & Hnone & Hrep' & Hr' & Hz' & Hu' & Hx').
    { intros k. rewrite dom_delete. intros [Hk Hne]%elem_of_difference. pose proof (Hge k Hk).
      apply not_elem_of_singleton in Hne. lia. }
    { unfold o1. cbn [recvbuf_pkt_db set_recvbuf]. rewrite Hdb, om_erase_map by done.
      unfold om_keys. rewrite length_fmap. rewrite Hdb in Hlen. unfold om_keys in Hlen. rewrite length_fmap in Hlen.
      assert (Hlen' : (length (om_erase Z.ltb n l) < length l)%nat); [|lia].
      clear - Hs EB Ho. assert (Hx : is_Some (om_map l !! n)).
      { rewrite <- Ho, lookup_fmap in EB. by destruct (om_map l !! n). }
      clear EB Ho. induction l as [|[k v] l IHl]; [by destruct Hx|]. simpl.
      apply om_sorted_cons in Hs as [Hs Hk]. unfold om_map in Hx. simpl in Hx.
      destruct (Z.ltb_spec k n).
      - rewrite lookup_insert_ne in Hx by lia. simpl. specialize (IHl Hs Hx). lia.
      - destruct (Z.ltb_spec n k); [|lia]. rewrite lookup_insert_ne in Hx by lia.
        exfalso. change (list_to_map l) with (om_map l) in Hx. rewrite om_map_above in Hx; [by destruct Hx|].
        eapply Forall_impl; [exact Hk|]. simpl. lia. }
    exists (rb_pkt rb :: ps), n', B', o'. split; [|split; [|split_and!; try done]].
    3:{ rewrite Hu'. unfold packets_len, o1. cbn. lia. }
    + rewrite <- Hn in Hfind. cbn [deliver_loop]. rewrite Hfind. rewrite (wrap_small SIZE_T_BITS) by (unfold in_range, SIZE_T_BITS; lia).
      rewrite Hn, Hincr. fold o1. rewrite Hd. cbn [negb mbind outcome_bind].
      destruct (recvbuf_pkt_db o) eqn:E; [done|done].
    + change (rb_pkt rb :: ps) with ([rb_pkt rb] ++ ps). eapply delivers_trans; [|exact Hdel].
      split_and!; [simpl; lia| | |].
      * intros [|i] p; simpl; [|by rewrite lookup_nil]. intros [= <-]. by rewrite Z.add_0_r.
      * apply delete_subseteq.
      * intros k p Hk Hp. by rewrite lookup_delete_ne by lia.
Qed.

Lemma expire_spec n B o :
  recv_rep n B o ->
  exists ps n' B' o', neoip_zerotimer_expire_cb (fun _ => true) o = Ok (ORD_PKT_TO_UPPER <$> ps, true, o') /\
    delivers n B ps n' B' /\ B' !! n' = None /\ recv_rep n' B' o' /\
    rdgram o' = rdgram o /\ zerotimer_deliver o' = zerotimer_deliver o /\
    recvbuf_used_len o' = recvbuf_used_len o - packets_len ps /\ recvbuf_max_len o' = recvbuf_max_len o.
Proof.
  intros Hrep. pose proof Hrep as ((l & Hs & Hdb & Ho & Hw) & Hn & Hu & Hm).
  destruct (purge_spec n l Hs Hw) as (l' & Hp & Hs' & Hsuf & Hge & Hm').
  unfold neoip_zerotimer_expire_cb. rewrite Hn, Hdb, Hp.
  set (B1 := filter (fun kp : Z * list Z => n <= kp.1) B).
  assert (HB1 : rb_pkt <$> om_map l' = B1).
  { unfold B1. rewrite Hm', <- Ho, map_filter_fmap. f_equal. }
  set (o1 := set_recvbuf _ _ _ o).
  assert (Hsub : B1 ⊆ B) by apply map_filter_subseteq.
  assert (Hrep1 : recv_rep n B1 o1).
  { unfold recv_rep, o1. cbn. split; [|split; [done|]].
    - exists l'. split_and!; try done. destruct Hsuf as [pre ->]. by apply Forall_app in Hw as [_ Hw].
    - assert (sendbuf_bytes B1 <= sendbuf_bytes B); [|lia].
      unfold B1. clear. induction B as [|k p m Hk IH] using map_ind; [by rewrite map_filter_empty|].
      rewrite (sendbuf_bytes_insert k p m) by done. assert (0 <= pkt_len p) by (unfold pkt_len; lia).
      destruct (decide (n <= k)).
      + rewrite map_filter_insert_True by done. rewrite sendbuf_bytes_insert; [lia|].
        apply map_lookup_filter_None. by left.
      + rewrite map_filter_insert_not' by (simpl; (done || congruence)). lia. }
  destruct (deliver_loop_spec (length (om_keys (wrap 32) l')) n B1 o1 Hrep1) as
    (ps & n' & B' & o' & Hd & Hdel & Hnone & Hrep' & Hr & Hz & Hu' & Hx').
  { intros k. unfold B1. rewrite elem_of_dom. intros [p [_ Hk]%map_lookup_filter_Some]. exact Hk. }
  { done. }
  exists ps, n', B', o'. split; [exact Hd|]. split_and!; try done.
  destruct Hdel as (Hn' & H1 & H2 & H3). split_and!; [done| |by etrans|].
  - intros i p Hi. eapply lookup_weaken; [by apply H1|done].
  - intros k p Hk Hp'. apply H3; [done|]. apply map_lookup_filter_Some. split; [done|]. simpl. lia.
Qed.

(** The timer appended [t] times: the first call delivers all that can be. *)
Lemma deliver_notify_spec t n B o :
  recv_rep n B o ->
  exists ps n' B' o', deliver_notify t (fun _ => true) o = Ok (ORD_PKT_TO_UPPER <$> ps, true, o') /\
    delivers n B ps n' B' /\ ((0 < t)%nat -> B' !! n' = None) /\ recv_rep n' B' o' /\
    rdgram o' = rdgram o /\ zerotimer_deliver o' = zerotimer_deliver o /\
    recvbuf_used_len o' = recvbuf_used_len o - packets_len ps /\ recvbuf_max_len o' = recvbuf_max_len o.
Proof.
  revert n B o. induction t as [|t IH]; intros n B o Hrep.
  { exists [], n, B, o. split_and!; try done; [apply delivers_refl|lia|unfold packets_len; simpl; lia]. }
  destruct (expire_spec n B o Hrep) as (ps1 & n1 & B1 & o1 & H1 & Hd1 & Hn1 & Hrep1 & Hr1 & Hz1 & Hu1 & Hx1).
  destruct (IH n1 B1 o1 Hrep1) as (ps2 & n2 & B2 & o2 & H2 & Hd2 & Hn2 & Hrep2 & Hr2 & Hz2 & Hu2 & Hx2).
  exists (ps1 ++ ps2), n2, B2, o2. split_and!.
  - cbn [deliver_notify]. rewrite H1. cbn [mbind outcome_bind negb]. rewrite H2. cbn [mbind outcome_bind].
    by rewrite fmap_app.
  - by eapply delivers_trans.
  - intros _. destruct Hd2 as (Hn' & Hps & Hsub & _). destruct ps2 as [|p ps2].
    + simpl in Hn'. replace n2 with n1 by lia. destruct (B2 !! n1) eqn:E; [|done].
      eapply lookup_weaken in E; [|exact Hsub]. congruence.
    + specialize (Hps 0%nat p eq_refl). change (Z.of_nat 0) with 0 in Hps. rewrite Z.add_0_r in Hps. congruence.
  - done.
  - by rewrite Hr2.
  - by rewrite Hz2.
  - rewrite Hu2, Hu1, packets_len_app. lia.
  - by rewrite Hx2.
Qed.

Lemma deliver_expire_spec n B o :
  recv_rep n B o ->
  exists ps n' B' o', zerotimer_deliver_expire (fun _ => true) o = Ok (ORD_PKT_TO_UPPER <$> ps, true, o') /\
    delivers n B ps n' B' /\ ((0 < zerotimer_deliver o)%nat -> B' !! n' = None) /\ recv_rep n' B' o' /\
    rdgram o' = rdgram o /\ zerotimer_deliver o' = 0%nat /\
    recvbuf_used_len o' = recvbuf_used_len o - packets_len ps /\ recvbuf_max_len o' = recvbuf_max_len o.
Proof.
  intros Hrep. unfold zerotimer_deliver_expire.
  destruct (deliver_notify_spec (zerotimer_deliver o) n B (set_deliver_timer 0 o)) as
    (ps & n' & B' & o' & H); [exact Hrep|]. exists ps, n', B', o'. exact H.
Qed.

(** With nothing buffered the timer does nothing. *)
Lemma deliver_notify_empty t o :
  recvbuf_pkt_db o = [] -> deliver_notify t (fun _ => true) o = Ok ([], true, o).
Proof.
  intros Hd. induction t as [|t IH]; [done|]. cbn [deliver_notify].
  unfold neoip_zerotimer_expire_cb. rewrite Hd. cbn [purge_loop length deliver_loop set_recvbuf recvbuf_pkt_db].
  cbn [mbind outcome_bind negb]. replace (set_recvbuf _ _ _ o) with o by (unfold set_recvbuf; rewrite <- Hd; by destruct o).
  rewrite IH. done.
Qed.

(** When every stored packet is obsolete the timer only purges them: their
    length stays counted. *)
Lemma deliver_expire_obsolete n B o :
  recv_rep n B o -> (forall k, k ∈ dom B -> k < n) -> (0 < zerotimer_deliver o)%nat ->
  exists o', zerotimer_deliver_expire (fun _ => true) o = Ok ([], true, o') /\ recvbuf_pkt_db o' = [] /\
    recv_rep n ∅ o' /\ rdgram o' = rdgram o /\ recvbuf_used_len o' = recvbuf_used_len o.
Proof.
  intros ((l & Hs & Hdb & Ho & Hw) & Hn & Hu & Hm) Hobs Hz.
  assert (Hl : purge_loop (wrap 32 n) (om_keys (wrap 32) l) = []).
  { destruct (purge_spec n l Hs Hw) as (l' & -> & _ & Hsuf & Hge & _).
    destruct l' as [|[k v] l']; [done|]. exfalso. apply Forall_cons in Hge as [Hge _]. simpl in Hge.
    assert (Hk : om_map l !! k = Some v).
    { apply om_elem_of; [done|]. destruct Hsuf as [pre ->]. apply elem_of_app. right. by left. }
    assert (k ∈ dom B) by (rewrite <- Ho, dom_fmap; by apply elem_of_dom_2 in Hk).
    pose proof (Hobs k ltac:(done)). lia. }
  exists (set_recvbuf [] (recvbuf_used_len o) (wrap 32 n) (set_deliver_timer 0 o)).
  split; [|split; [done|split; [|done]]].
  - unfold zerotimer_deliver_expire. destruct (zerotimer_deliver o) as [|t]; [lia|]. cbn [deliver_notify].
    unfold neoip_zerotimer_expire_cb. cbn [set_deliver_timer next_seqnb_to_deliver recvbuf_pkt_db].
    rewrite Hn, Hdb, Hl. cbn [length deliver_loop set_recvbuf recvbuf_pkt_db mbind outcome_bind negb].
    by rewrite deliver_notify_empty.
  - unfold recv_rep. cbn. split; [exists []; split_and!; try done; apply om_sorted_nil|].
    pose proof (sendbuf_bytes_nonneg B). change (sendbuf_bytes ∅) with 0. split_and!; done || lia.
Qed.

Lemma recv_rep_init r : recv_rep 0 ∅ (Ordgram r [] RECVBUF_MAX_LEN_DFL 0 FIRST_SEQNB 0).
Proof.
  unfold recv_rep. cbn. split; [exists []; split_and!; try done; apply om_sorted_nil|].
  split; [done|]. change (sendbuf_bytes ∅) with 0. unfold RECVBUF_MAX_LEN_DFL. lia.
Qed.

(* ------------------------------------------------------------------ *)
(** * Properties *)
(* ------------------------------------------------------------------ *)

Definition data_pkt (q : Z) (p : list Z) : list Z := rdgram_header DATA_PKT (wrap 32 q) ++ p.

(** The receive buffer leaks: when a packet is stored out of order, the
    missing one arrives, and the first is received again before the delivery
    timer runs, the timer removes its stored copy without giving its length
    back.  The length is lost for ever, with an empty buffer; and once the lost
    lengths leave no room for the next packet in order, that packet is refused
    although nothing needs to be stored, and so is each retransmission: the
    connection is stuck. *)
Theorem recvbuf_leak_deadlocks (n : Z) (s : spec_state) (o : ordgram_t) (p p' : list Z)
    (Hrep : recv_rep n ∅ o) (Hr : rdgram_rep s (rdgram o)) (Hp : p <> [] /\ pkt_len p < 2 ^ 63)
    (Hp' : p' <> [] /\ pkt_len p' < 2 ^ 63)
    (Hfit : recvbuf_used_len o + pkt_len p <= recvbuf_max_len o)
    (Hfit' : recvbuf_used_len o + pkt_len p + pkt_len p' <= recvbuf_max_len o) :
  exists o1 o2 o3 o4,
    pkt_from_lower (data_pkt (n + 1) p) o = Ok (OK, [], o1) /\
    pkt_from_lower (data_pkt n p') o1 = Ok (OK, p', o2) /\
    pkt_from_lower (data_pkt (n + 1) p) o2 = Ok (OK, p, o3) /\
    zerotimer_deliver_expire (fun _ => true) o3 = Ok ([], true, o4) /\
    recvbuf_pkt_db o4 = [] /\ next_seqnb_to_deliver o4 = wrap 32 (n + 2) /\
    recvbuf_used_len o4 = recvbuf_used_len o + pkt_len p /\
    (forall x, x <> [] -> pkt_len x < 2 ^ 63 -> recvbuf_max_len o4 < recvbuf_used_len o4 + pkt_len x ->
       pkt_from_lower (data_pkt (n + 2) x) o4 = Ok (OK, [], o4)).
Proof.
  destruct Hp as [Hp Hpl], Hp' as [Hp' Hpl'].
  assert (Hpos : 0 <= pkt_len p /\ 0 <= pkt_len p') by (unfold pkt_len; lia).
  pose proof (data_spec n ∅ s o (n + 1) p Hrep Hr Hp Hpl ltac:(lia) ltac:(intros k; by rewrite dom_empty)) as H1.
  unfold spec_data in H1. rewrite (proj2 (Z.ltb_ge (n + 1) n)) in H1 by lia.
  rewrite lookup_empty, bool_decide_eq_false_2 in H1 by (intros [? [=]]).
  unfold recv_room in H1. rewrite (proj2 (Z.leb_le _ _) Hfit) in H1. cbn [negb andb] in H1.
  rewrite (proj2 (Z.eqb_neq (n + 1) n)) in H1 by lia.
  destruct H1 as (o1 & E1 & Hrep1 & Hr1 & _ & _ & Hu1 & Hm1 & _).
  rewrite sendbuf_bytes_insert in Hu1 by apply lookup_empty.
  change (sendbuf_bytes ∅) with 0 in Hu1.
  assert (Hlow : forall m k, n <= m <= n + 1 -> k ∈ dom (<[n + 1 := p]> (∅ : gmap Z (list Z))) -> m - 2 ^ 30 < k).
  { intros m k Hm. rewrite dom_insert, dom_empty. intros [Hk|Hk]%elem_of_union.
    - apply elem_of_singleton in Hk. lia.
    - by apply not_elem_of_empty in Hk. }
  pose proof (data_spec n _ _ o1 n p' Hrep1 Hr1 Hp' Hpl' ltac:(lia) (fun k => Hlow n k ltac:(lia))) as H2.
  unfold spec_data in H2. rewrite Z.ltb_irrefl, Z.eqb_refl in H2.
  unfold recv_room in H2. rewrite (proj2 (Z.leb_le (recvbuf_used_len o1 + pkt_len p') (recvbuf_max_len o1))) in H2 by lia.
  cbn [negb] in H2. rewrite andb_false_r in H2.
  destruct H2 as (o2 & E2 & Hrep2 & Hr2 & _ & _ & Hu2 & Hm2 & _).
  pose proof (data_spec (n + 1) _ _ o2 (n + 1) p Hrep2 Hr2 Hp Hpl ltac:(lia) (fun k => Hlow (n + 1) k ltac:(lia))) as H3.
  unfold spec_data in H3. rewrite Z.ltb_irrefl, Z.eqb_refl, lookup_insert_eq in H3.
  rewrite bool_decide_eq_true_2 in H3 by done. cbn [negb andb] in H3.
  replace (n + 1 + 1) with (n + 2) in H3 by lia.
  destruct H3 as (o3 & E3 & Hrep3 & Hr3 & _ & Hz3 & Hu3 & Hm3 & _).
  specialize (Hz3 ltac:(lia) (insert_non_empty _ _ _)).
  destruct (deliver_expire_obsolete (n + 2) _ o3 Hrep3) as (o4 & E4 & Hdb4 & Hrep4 & Hr4 & Hu4); [|done|].
  { intros k. rewrite dom_insert, dom_empty. intros [Hk%elem_of_singleton|Hk]%elem_of_union; [lia|].
    by apply not_elem_of_empty in Hk. }
  exists o1, o2, o3, o4. unfold data_pkt. do 4 (split; [done|]). split; [done|].
  split; [apply (recv_next (n + 2) ∅ o4 Hrep4)|]. split; [lia|].
  intros x Hx Hxl Hbig.
  rewrite <- Hr4 in Hr3.
  pose proof (data_spec (n + 2) ∅ _ o4 (n + 2) x Hrep4 Hr3 Hx Hxl ltac:(lia) ltac:(intros k; by rewrite dom_empty)) as H5.
  unfold spec_data in H5. rewrite Z.ltb_irrefl, lookup_empty, bool_decide_eq_false_2 in H5 by (intros [? [=]]).
  unfold recv_room in H5. rewrite (proj2 (Z.leb_gt _ _) Hbig) in H5. cbn [negb andb] in H5.
  destruct H5 as (o5 & E5 & _ & _ & _ & _ & _ & _ & Heq). rewrite Heq in E5 by done. exact E5.
Qed.

(** A packet with an empty payload stops the connection for ever: it is
    acknowledged, so the sender forgets it, but taken for a packet swallowed by
    [rdgram_t], so it neither is delivered nor moves the next sequence number;
    every later packet then waits behind it. *)
Theorem empty_payload_stalls (n : Z) (B : gmap Z (list Z)) (s : spec_state) (o : ordgram_t)
    (Hrep : recv_rep n B o) (Hr : rdgram_rep s (rdgram o)) :
  pkt_from_lower (data_pkt n []) o =
    Ok (OK, [], set_rdgram (set_acks (seqnb2ack_list (rdgram o) ++ [wrap 32 n]) 1 (rdgram o)) o) /\
  (forall (B' : gmap Z (list Z)) ps n', B' !! n = None -> delivers n B' ps n' B' -> ps = []).
Proof.
  split.
  - unfold pkt_from_lower, data_pkt. rewrite (lower_data_recv _ s) by (done || by apply wrap_range).
    rewrite (should_acked_spec n B o Hrep n []) by (unfold pkt_len; simpl; lia).
    unfold spec_data, recv_room. rewrite Z.ltb_irrefl, Z.eqb_refl.
    change (pkt_len []) with 0. destruct Hrep as (_ & _ & Hu & _).
    rewrite (proj2 (Z.leb_le (recvbuf_used_len o + 0) (recvbuf_max_len o))) by lia.
    cbn [negb]. by rewrite andb_false_r.
  - intros B' ps n' Hn (_ & Hps & _). destruct ps as [|x ps]; [done|].
    specialize (Hps 0%nat x eq_refl). change (Z.of_nat 0) with 0 in Hps. rewrite Z.add_0_r in Hps. congruence.
Qed.

(* ------------------------------------------------------------------ *)
(** * Witnesses *)
(* ------------------------------------------------------------------ *)

(** The first two packets of a connection, of 3 and 1 bytes. *)
Lemma recvbuf_leak_deadlocks_witness :
  exists o1 o2 o3 o4,
    pkt_from_lower (data_pkt 1 [7; 8; 9]) ordgram_ctor = Ok (OK, [], o1) /\
    pkt_from_lower (data_pkt 0 [5]) o1 = Ok (OK, [5], o2) /\
    pkt_from_lower (data_pkt 1 [7; 8; 9]) o2 = Ok (OK, [7; 8; 9], o3) /\
    zerotimer_deliver_expire (fun _ => true) o3 = Ok ([], true, o4) /\
    recvbuf_pkt_db o4 = [] /\ recvbuf_used_len o4 = 3.
Proof.
  destruct (recvbuf_leak_deadlocks 0 spec_init ordgram_ctor [7; 8; 9] [5]
              (recv_rep_init rdgram_ctor) rdgram_rep_init)
    as (o1 & o2 & o3 & o4 & H1 & H2 & H3 & H4 & H5 & _ & H6 & _).
  - split; [discriminate|reflexivity].
  - split; [discriminate|reflexivity].
  - discriminate.
  - discriminate.
  - exists o1, o2, o3, o4. split; [exact H1|]. split; [exact H2|]. split; [exact H3|].
    split; [exact H4|]. split; [exact H5|exact H6].
Defined.

Lemma empty_payload_stalls_witness :
  exists o, pkt_from_lower [65; 0; 0; 0; 0] ordgram_ctor = Ok (OK, [], o) /\
    next_seqnb_to_deliver o = 0 /\ seqnb2ack_list (rdgram o) = [0].
Proof.
  destruct (empty_payload_stalls 0 ∅ spec_init ordgram_ctor (recv_rep_init rdgram_ctor) rdgram_rep_init) as [H _].
  eexists. split; [exact H|]. split; reflexivity.
Defined.
