(* ===== verification/OrdNet.v ===== *)
(** Two [ordgram_t] layers over a network that loses, duplicates and reorders:
    a sender and a receiver of packets, run as a whole.

    Every packet either layer gives to its lower layer is added to the network,
    which may deliver it any number of times, at any time, or never.  The
    number carried beside each packet is the unbounded position it was sent
    for; the code never sees it.  A second connection in the other direction
    shares no state with this one but the two layers' unrelated halves. *)
From stdpp Require Import gmap.
From S2P Require Import Prelude Serial Codec Wai Omap Time Rdgram Ordgram.

(* ------------------------------------------------------------------ *)
(** * The system *)
(* ------------------------------------------------------------------ *)

Record system := System {
  sender : ordgram_t;
  receiver : ordgram_t;
  sent : list (list Z);              (* payloads the sender has accepted *)
  delivered : list (list Z);         (* payloads the receiver has given up *)
  data_net : list (Z * list Z);
  ack_net : list (Z * list Z);
  to_ack : list Z                    (* positions of the acknowledgements to come *)
}.

Inductive net_event :=
| Send (p : list Z)                  (* the user sends *)
| Retransmit (q : Z)                 (* a retransmission timer expires *)
| RecvData (i : nat)                 (* the i-th data packet arrives *)
| DeliverTimer                       (* the receiver's delivery timer *)
| AckTimer                           (* the receiver's acknowledgement timer *)
| RecvAck (i : nat).                 (* the i-th acknowledgement arrives *)

Definition lower_pkts (evs : list rdgram_event_t) : list (list Z) :=
  omap (fun e => match e with PKT_TO_LOWER pkt => Some pkt | _ => None end) evs.
Definition upper_pkts (evs : list ordgram_event_t) : list (list Z) :=
  omap (fun e => match e with ORD_PKT_TO_UPPER pkt => Some pkt | _ => None end) evs.

Definition n_sent (s : system) : Z := Z.of_nat (length (sent s)).
Definition n_delivered (s : system) : Z := Z.of_nat (length (delivered s)).

Definition set_sender (A : ordgram_t) (snt : list (list Z)) (net : list (Z * list Z)) (s : system) : system :=
  System A (receiver s) snt (delivered s) net (ack_net s) (to_ack s).
Definition set_receiver (B : ordgram_t) (del : list (list Z)) (acks : list (Z * list Z)) (pend : list Z)
    (s : system) : system :=
  System (sender s) B (sent s) del (data_net s) acks pend.

Definition net_step (e : net_event) (s : system) : outcome system :=
  match e with
  | Send p =>
    let* (err, w, A) := Ordgram.pkt_from_upper p (sender s) in
    match err with
    | OK => Ok (set_sender A (sent s ++ [p]) (data_net s ++ [(n_sent s, w)]) s)
    | _ => Ok (set_sender A (sent s) (data_net s) s)
    end
  | Retransmit q =>
    match find_sendbuf_pkt (wrap 32 q) (rdgram (sender s)) with
    | None => Fault
    | Some sb =>
      let* (evs, _, r) := timeout_expire_cb (fun _ => true) (wrap 32 q) sb (rdgram (sender s)) in
      Ok (set_sender (set_rdgram r (sender s)) (sent s)
            (data_net s ++ ((fun w => (q, w)) <$> lower_pkts evs)) s)
    end
  | RecvData i =>
    match data_net s !! i with
    | None => Fault
    | Some (q, w) =>
      let* (err, out, B) := Ordgram.pkt_from_lower w (receiver s) in
      let acked := length (seqnb2ack_list (rdgram B)) - length (seqnb2ack_list (rdgram (receiver s))) in
      Ok (set_receiver B (delivered s ++ match out with [] => [] | _ => [out] end) (ack_net s)
            (to_ack s ++ replicate acked q) s)
    end
  | DeliverTimer =>
    let* (evs, _, B) := zerotimer_deliver_expire (fun _ => true) (receiver s) in
    Ok (set_receiver B (delivered s ++ upper_pkts evs) (ack_net s) (to_ack s) s)
  | AckTimer =>
    let '(evs, _, r) := zerotimer_expire ZEROTIMER_SEQNB2ACK (fun _ => true) (rdgram (receiver s)) in
    Ok (set_receiver (set_rdgram r (receiver s)) (delivered s)
          (ack_net s ++ zip (to_ack s) (lower_pkts evs)) [] s)
  | RecvAck i =>
    match ack_net s !! i with
    | None => Fault
    | Some (q, w) =>
      let* (err, out, A) := Ordgram.pkt_from_lower w (sender s) in
      Ok (set_sender A (sent s) (data_net s) s)
    end
  end%nat.

(** What the environment must respect: payloads are not empty (see
    [empty_payload_stalls]) and fit in memory; fewer than 2^31 packets between
    the oldest one unacknowledged and the next one; a data packet that arrives
    is within 2^30 of the next one to deliver, and the delivery timer ran since
    the receive buffer held a packet 2^30 behind; an acknowledgement is at most
    2^31 packets old. *)
Definition event_ok (e : net_event) (s : system) : Prop :=
  match e with
  | Send p =>
    p <> [] /\ sendbuf_used_len (rdgram (sender s)) + (5 + pkt_len p) < 2 ^ 63 /\
    find_sendbuf_pkt (wrap 32 (n_sent s - 2 ^ 31)) (rdgram (sender s)) = None
  | Retransmit q =>
    n_sent s - 2 ^ 31 <= q < n_sent s /\
    is_Some (find_sendbuf_pkt (wrap 32 q) (rdgram (sender s)))
  | RecvData i =>
    exists q w, data_net s !! i = Some (q, w) /\ Z.abs (q - n_delivered s) < 2 ^ 30 /\
      om_find (wai_lt 32) (wrap 32 (n_delivered s - 2 ^ 30)) (recvbuf_pkt_db (receiver s)) = None
  | DeliverTimer | AckTimer => True
  | RecvAck i => exists q w, ack_net s !! i = Some (q, w) /\ n_sent s - 2 ^ 31 <= q
  end.

Fixpoint events_ok (es : list net_event) (s : system) : Prop :=
  match es with
  | [] => True
  | e :: es' => event_ok e s /\ match net_step e s with Ok s1 => events_ok es' s1 | _ => True end
  end.

Fixpoint net_run (es : list net_event) (s : system) : outcome system :=
  match es with
  | [] => Ok s
  | e :: es' => let* s1 := net_step e s in net_run es' s1
  end.

(** Both layers as constructed, the sender's buffer limited to [max] bytes
    (0: unlimited). *)
Definition net_init (max : Z) : outcome system :=
  let* r := sendbuf_set_max_len max rdgram_ctor in
  Ok (System (set_rdgram r ordgram_ctor) ordgram_ctor [] [] [] [] []).

(* ------------------------------------------------------------------ *)
(** * The invariant *)
(* ------------------------------------------------------------------ *)

(** Packet [q] has reached the receiver. *)
Definition covered (q : Z) (n : Z) (B : gmap Z (list Z)) : Prop := q < n \/ q ∈ dom B.

(** The payload of the packet of position [q]. *)
Definition is_sent (snt : list (list Z)) (q : Z) (p : list Z) : Prop :=
  0 <= q /\ snt !! Z.to_nat q = Some p.

Definition net_inv (s : system) : Prop :=
  exists sa sb B,
    rdgram_rep sa (rdgram (sender s)) /\ rdgram_rep sb (rdgram (receiver s)) /\
    recv_rep (n_delivered s) B (receiver s) /\
    (* the sender *)
    s_next sa = n_sent s /\ Forall (fun p => p <> [] /\ pkt_len p < 2 ^ 63) (sent s) /\
    (forall q w, s_out sa !! q = Some w -> exists p, is_sent (sent s) q p /\ w = data_pkt q p) /\
    (* the network *)
    Forall (fun x => exists p, is_sent (sent s) x.1 p /\ x.2 = data_pkt x.1 p) (data_net s) /\
    Forall (fun x => 0 <= x.1 < n_sent s /\ x.2 = build_ack (wrap 32 x.1) /\
                     covered x.1 (n_delivered s) B) (ack_net s) /\
    (* the receiver *)
    s_acks sb = wrap 32 <$> to_ack s /\
    Forall (fun q => 0 <= q < n_sent s /\ covered q (n_delivered s) B) (to_ack s) /\
    delivered s `prefix_of` sent s /\
    (forall q p, B !! q = Some p -> is_sent (sent s) q p) /\
    (zerotimer_deliver (receiver s) = 0%nat -> B !! n_delivered s = None) /\
    (* nothing is lost *)
    (forall q, 0 <= q < n_sent s -> q ∈ dom (s_out sa) \/ covered q (n_delivered s) B).

(* ------------------------------------------------------------------ *)
(** * Lemmas *)
(* ------------------------------------------------------------------ *)

Lemma prefix_of_lookup {A} (l1 l2 : list A) :
  (forall i x, l1 !! i = Some x -> l2 !! i = Some x) -> l1 `prefix_of` l2.
Proof.
  revert l2. induction l1 as [|x l1 IH]; intros l2 H; [apply prefix_nil|].
  destruct l2 as [|y l2]; [by specialize (H 0%nat x eq_refl)|].
  assert (x = y) as -> by (specialize (H 0%nat x eq_refl); simpl in H; congruence).
  apply prefix_cons, IH. intros i z Hi. apply (H (S i) z Hi).
Qed.

Lemma prefix_extend {A} (l1 ps l2 : list A) :
  l1 `prefix_of` l2 -> (forall i p, ps !! i = Some p -> l2 !! (length l1 + i)%nat = Some p) ->
  l1 ++ ps `prefix_of` l2.
Proof.
  intros Hpre Hps. apply prefix_of_lookup. intros i x Hi.
  apply lookup_app_Some in Hi as [Hi|[Hlen Hi]]; [by eapply prefix_lookup_Some|].
  apply Hps in Hi. rewrite <- Hi. f_equal. lia.
Qed.

Lemma lower_pkts_fmap {A} (f : A -> list Z) l : lower_pkts ((fun x => PKT_TO_LOWER (f x)) <$> l) = f <$> l.
Proof. induction l as [|x l IH]; [done|]. cbn. f_equal. exact IH. Qed.

Lemma upper_pkts_fmap ps : upper_pkts (ORD_PKT_TO_UPPER <$> ps) = ps.
Proof. induction ps as [|x l IH]; [done|]. cbn. f_equal. exact IH. Qed.

Lemma Forall_zip_fmap {A B} (P : A * B -> Prop) (f : A -> B) l :
  Forall (fun x => P (x, f x)) l -> Forall P (zip l (f <$> l)).
Proof. induction 1; simpl; constructor; done. Qed.

Lemma is_sent_app snt q p x : is_sent snt q p -> is_sent (snt ++ [x]) q p.
Proof. intros [H0 H]. split; [done|]. by apply lookup_app_l_Some. Qed.

Lemma is_sent_fun snt q p p' : is_sent snt q p -> is_sent snt q p' -> p = p'.
Proof. intros [_ H] [_ H']. congruence. Qed.

Lemma is_sent_lt snt q p : is_sent snt q p -> 0 <= q < Z.of_nat (length snt).
Proof. intros [H0 H]. apply lookup_lt_Some in H. lia. Qed.

Lemma is_sent_last snt p : is_sent (snt ++ [p]) (Z.of_nat (length snt)) p.
Proof.
  split; [lia|]. rewrite Nat2Z.id, lookup_app_r, Nat.sub_diag by lia. done.
Qed.

Lemma s_set_out_fields next out s :
  s_next (s_set_out next out s) = next /\ s_out (s_set_out next out s) = out /\
  s_acks (s_set_out next out s) = s_acks s.
Proof. unfold s_set_out. by destruct (_ && _). Qed.

Lemma rep_window s r k w :
  rdgram_rep s r -> s_out s !! k = Some w -> s_next s - 2 ^ 31 <= k < s_next s.
Proof.
  intros ((l & Hs & _ & Ho & Hw) & _) Hk. rewrite <- Ho, lookup_fmap in Hk.
  apply fmap_Some in Hk as (sb & Hk & _). by apply (om_map_Forall_1 _ l Hs Hw k sb Hk).
Qed.

Lemma buffered_window n B o k : recv_rep n B o -> k ∈ dom B -> n - 2 ^ 30 <= k < n + 2 ^ 30.
Proof.
  intros ((l & Hs & _ & <- & Hw) & _) [p Hk]%elem_of_dom. rewrite lookup_fmap in Hk.
  apply fmap_Some in Hk as (sb & Hk & _). by apply (om_map_Forall_1 _ l Hs Hw k sb Hk).
Qed.

Lemma covered_weaken q n n' B (B' : gmap Z (list Z)) :
  n <= n' -> (forall k p, n' <= k -> B !! k = Some p -> is_Some (B' !! k)) ->
  covered q n B -> covered q n' B'.
Proof.
  intros Hn HB [Hq|[p Hq]%elem_of_dom]; [left; lia|].
  destruct (decide (q < n')); [by left|]. right. apply elem_of_dom. apply (HB q p); [lia|done].
Qed.

(** A step of the receiver which may deliver packets, buffer others and
    acknowledge them keeps the invariant. *)
Lemma receiver_step s o' B' ps sa sb sb' B pend :
  rdgram_rep sa (rdgram (sender s)) -> rdgram_rep sb' (rdgram o') ->
  s_next sa = n_sent s -> Forall (fun p => p <> [] /\ pkt_len p < 2 ^ 63) (sent s) ->
  (forall q w, s_out sa !! q = Some w -> exists p, is_sent (sent s) q p /\ w = data_pkt q p) ->
  Forall (fun x => exists p, is_sent (sent s) x.1 p /\ x.2 = data_pkt x.1 p) (data_net s) ->
  Forall (fun x => 0 <= x.1 < n_sent s /\ x.2 = build_ack (wrap 32 x.1) /\
                   covered x.1 (n_delivered s) B) (ack_net s) ->
  s_acks sb = wrap 32 <$> to_ack s -> s_acks sb' = s_acks sb ++ (wrap 32 <$> pend) ->
  Forall (fun q => 0 <= q < n_sent s /\ covered q (n_delivered s) B) (to_ack s) ->
  delivered s `prefix_of` sent s ->
  (forall q, 0 <= q < n_sent s -> q ∈ dom (s_out sa) \/ covered q (n_delivered s) B) ->
  let n' := n_delivered s + Z.of_nat (length ps) in
  recv_rep n' B' o' ->
  (forall i p, ps !! i = Some p -> is_sent (sent s) (n_delivered s + Z.of_nat i) p) ->
  (forall q p, B' !! q = Some p -> is_sent (sent s) q p) ->
  (forall k p, n' <= k -> B !! k = Some p -> is_Some (B' !! k)) ->
  Forall (fun q => 0 <= q < n_sent s /\ covered q n' B') pend ->
  (zerotimer_deliver o' = 0%nat -> B' !! n' = None) ->
  net_inv (set_receiver o' (delivered s ++ ps) (ack_net s) (to_ack s ++ pend) s).
Proof.
  intros Hra Hrb' Hnx Hne Hout Hdn Han Hacks Hacks' Hta Hpre Hlost n' Hrep' Hps HB' Hkeep Hpend Hz.
  assert (Hcov : forall q, covered q (n_delivered s) B -> covered q n' B').
  { intros q. apply covered_weaken; [lia|done]. }
  assert (Hlen : n_delivered (set_receiver o' (delivered s ++ ps) (ack_net s) (to_ack s ++ pend) s) = n').
  { unfold n_delivered, n'. cbn. rewrite length_app. unfold n_delivered. lia. }
  exists sa, sb', B'. rewrite Hlen. unfold set_receiver; cbn [sender receiver sent delivered data_net ack_net to_ack].
  assert (Hns : n_sent (System (sender s) o' (sent s) (delivered s ++ ps) (data_net s) (ack_net s)
    (to_ack s ++ pend)) = n_sent s) by done.
  rewrite Hns. split_and!; try done.
  - eapply Forall_impl; [exact Han|]. intros x (H1 & H2 & H3); auto.
  - by rewrite Hacks', Hacks, fmap_app.
  - apply Forall_app. split; [|done]. eapply Forall_impl; [exact Hta|]. intros x (H1 & H2); auto.
  - apply prefix_extend; [done|]. intros i p Hi. apply Hps in Hi as [_ Hi]. rewrite <- Hi. f_equal.
    unfold n_delivered. lia.
  - intros q Hq. destruct (Hlost q Hq); [by left|]. right. by apply Hcov.
Qed.

Lemma send_step s p :
  net_inv s -> event_ok (Send p) s -> exists s', net_step (Send p) s = Ok s' /\ net_inv s'.
Proof.
  intros (sa & sb & B & Hra & Hrb & Hrep & Hnx & Hne & Hout & Hdn & Han & Hacks & Hta & Hpre & HB & Hz & Hlost)
    (Hp & Hmem & Hwin).
  pose proof Hra as (_ & _ & Hu & _).
  assert (Hok : op_ok (Upper p) sa).
  { split; [rewrite Hu in Hmem; lia|]. intros q [w Hq]%elem_of_dom.
    pose proof (rep_window _ _ _ _ Hra Hq) as Hw. destruct (decide (q = s_next sa - 2 ^ 31)) as [->|]; [|lia].
    exfalso. apply (sendbuf_find sa _ _ _ Hra) in Hq as (sbp & Hf & _); [|lia]. rewrite Hnx in Hf. congruence. }
  destruct (upper_spec sa _ p Hra Hok) as (r' & Hs & Hr').
  cbn [net_step]. unfold Ordgram.pkt_from_upper. cbn [rdgram_step] in Hs.
  destruct (Rdgram.pkt_from_upper p (rdgram (sender s))) as [[[err w] r1]| | |]; try done.
  cbn [mbind outcome_bind] in *. injection Hs as Hres ->. cbn [spec_step] in Hres, Hr'.
  rewrite Hnx in Hres, Hr'. unfold is_true in *.
  destruct (negb (s_max sa =? 0) && _).
  { injection Hres as -> ->. eexists. split; [reflexivity|].
    exists sa, sb, B. unfold set_sender. cbn. by split_and!. }
  injection Hres as -> ->. eexists. split; [reflexivity|].
  set (w := rdgram_header DATA_PKT (wrap 32 (n_sent s)) ++ p) in *.
  exists (s_set_out (n_sent s + 1) (<[n_sent s := w]> (s_out sa)) sa), sb, B.
  destruct (s_set_out_fields (n_sent s + 1) (<[n_sent s := w]> (s_out sa)) sa) as (F1 & F2 & _).
  assert (Hns : forall A net, n_sent (set_sender A (sent s ++ [p]) net s) = n_sent s + 1).
  { intros A net. unfold n_sent, set_sender. cbn. rewrite length_app. simpl. lia. }
  rewrite Hns, F1, F2. unfold set_sender; cbn [sender receiver sent delivered data_net ack_net to_ack].
  split_and!; try done.
  - apply Forall_app. split; [done|]. constructor; [|done]. split; [done|].
    pose proof (sendbuf_bytes_nonneg (s_out sa)). rewrite Hu in Hmem. lia.
  - intros q w' Hq. rewrite lookup_insert in Hq. case_decide as Hqn.
    + injection Hq as <-. subst q. exists p. split; [apply is_sent_last|done].
    + destruct (Hout q w' Hq) as (p' & ? & ->). exists p'. split; [by apply is_sent_app|done].
  - apply Forall_app. split.
    + eapply Forall_impl; [exact Hdn|]. intros x (p' & ? & ?). exists p'. split; [by apply is_sent_app|done].
    + constructor; [|done]. exists p. split; [apply is_sent_last|done].
  - eapply Forall_impl; [exact Han|]. intros x (? & ? & ?). split_and!; try done; lia.
  - eapply Forall_impl; [exact Hta|]. intros x (? & ?). split_and!; try done; lia.
  - by apply prefix_app_r.
  - intros q p' Hq. by apply is_sent_app, HB.
  - intros q Hq. rewrite dom_insert. destruct (decide (q = n_sent s)) as [->|]; 
      [left; apply elem_of_union_l; by apply elem_of_singleton|].
    destruct (Hlost q) as [|]; [lia|left; by apply elem_of_union_r|by right].
Qed.

Lemma retransmit_step s q :
  net_inv s -> event_ok (Retransmit q) s -> exists s', net_step (Retransmit q) s = Ok s' /\ net_inv s'.
Proof.
  intros (sa & sb & B & Hra & Hrb & Hrep & Hnx & Hne & Hout & Hdn & Hrest) (Hq & [sbp Hf]).
  assert (Hqs : s_out sa !! q = Some (sb_pkt sbp)).
  { apply (sendbuf_find sa _ _ _ Hra); [lia|]. by exists sbp. }
  destruct (rxmit_spec sa _ q Hra) as (sbp' & r' & Hf' & _ & Hx & Hra'); [by apply elem_of_dom_2 in Hqs|].
  assert (sbp' = sbp) as -> by congruence.
  cbn [net_step]. rewrite Hf, Hx. cbn [mbind outcome_bind]. eexists. split; [reflexivity|].
  exists sa, sb, B. unfold set_sender. cbn. split_and!; try done; try apply Hrest.
  apply Forall_app. split; [done|]. constructor; [|done]. by apply Hout.
Qed.

Lemma deliver_step s :
  net_inv s -> exists s', net_step DeliverTimer s = Ok s' /\ net_inv s'.
Proof.
  intros (sa & sb & B & Hra & Hrb & Hrep & Hnx & Hne & Hout & Hdn & Han & Hacks & Hta & Hpre & HB & Hz & Hlost).
  destruct (deliver_expire_spec _ _ _ Hrep) as (ps & n' & B' & o' & Hd & Hdel & Hnone & Hrep' & Hr' & Hzo & _).
  cbn [net_step]. rewrite Hd. cbn [mbind outcome_bind]. rewrite upper_pkts_fmap. eexists. split; [reflexivity|].
  destruct Hdel as (-> & Hps & Hsub & Hkeep). rewrite <- (app_nil_r (to_ack s)).
  apply (receiver_step s o' B' ps sa sb sb B []); try done.
  - by rewrite Hr'.
  - by rewrite app_nil_r.
  - intros i p Hi. by apply HB, Hps.
  - intros q p Hq. apply HB. by eapply lookup_weaken.
  - intros k p Hk Hp. eauto.
  - intros _. destruct (decide (0 < zerotimer_deliver (receiver s))%nat) as [Hpos|Hzero]; [by apply Hnone|].
    assert (Hz0 : B !! n_delivered s = None) by (apply Hz; lia).
    destruct ps as [|p ps].
    + simpl. change (Z.of_nat 0) with 0. rewrite Z.add_0_r.
      destruct (B' !! n_delivered s) eqn:E; [|done]. eapply lookup_weaken in E; [|exact Hsub]. congruence.
    + specialize (Hps 0%nat p eq_refl). change (Z.of_nat 0) with 0 in Hps. rewrite Z.add_0_r in Hps. congruence.
Qed.

Lemma ack_timer_step s :
  net_inv s -> exists s', net_step AckTimer s = Ok s' /\ net_inv s'.
Proof.
  intros (sa & sb & B & Hra & Hrb & Hrep & Hnx & Hne & Hout & Hdn & Han & Hacks & Hta & Hrest).
  destruct (rdgram_step_spec (fun _ _ => true) Rdgram.AckTimer sb _ Hrb I) as (r' & Hs & Hr').
  cbn [rdgram_step] in Hs. cbn [net_step].
  destruct (zerotimer_expire ZEROTIMER_SEQNB2ACK _ (rdgram (receiver s))) as [[evs k] r1].
  injection Hs as -> ->. eexists. split; [reflexivity|].
  exists sa, (Spec (s_next sb) (s_out sb) (s_max sb) (s_thr sb) [] (s_pend sb)), B.
  unfold set_receiver. cbn [sender receiver sent delivered data_net ack_net to_ack set_rdgram rdgram].
  split_and!; try done; try apply Hrest.
  rewrite Hacks, <- list_fmap_compose. change (lower_pkts _) with
    (lower_pkts ((fun x => PKT_TO_LOWER (build_ack (wrap 32 x))) <$> to_ack s)).
  rewrite (lower_pkts_fmap (fun x => build_ack (wrap 32 x))).
  apply Forall_app. split; [done|]. apply Forall_zip_fmap.
  eapply Forall_impl; [exact Hta|]. intros q [Hq1 Hq2]. exact (conj Hq1 (conj eq_refl Hq2)).
Qed.

Lemma recv_ack_step s i :
  net_inv s -> event_ok (RecvAck i) s -> exists s', net_step (RecvAck i) s = Ok s' /\ net_inv s'.
Proof.
  intros (sa & sb & B & Hra & Hrb & Hrep & Hnx & Hne & Hout & Hdn & Han & Hacks & Hta & Hpre & HB & Hz & Hlost)
    (q & w & Hi & Hwin).
  pose proof (Forall_lookup_1 _ _ _ _ Han Hi) as (Hq & Hw & Hcov). cbn [fst snd] in Hq, Hw, Hcov. subst w.
  cbn [net_step]. rewrite Hi. unfold Ordgram.pkt_from_lower.
  set (sak := neoip_rdgram_should_acked_pkt_cb (sender s)).
  destruct (lower_ack_spec sak sa _ (wrap 32 q) [] Hra) as (r' & Hs & Hr'); [by apply wrap_range|].
  cbn [rdgram_step] in Hs. rewrite app_nil_r in Hs. unfold build_ack.
  destruct (Rdgram.pkt_from_lower sak _ (rdgram (sender s))) as [[[[err pkt] sq] r1]| | |]; try done.
  cbn [mbind outcome_bind] in *. injection Hs as -> -> -> ->. change (datum_is_null []) with true. cbv iota.
  cbn [mbind outcome_bind]. eexists. split; [reflexivity|].
  cbn [spec_step snd] in Hr'. set (out' := filter _ (s_out sa)) in *.
  exists (s_set_out (s_next sa) out' sa), sb, B.
  destruct (s_set_out_fields (s_next sa) out' sa) as (F1 & F2 & _). rewrite F1, F2.
  unfold set_sender; cbn [sender receiver sent delivered data_net ack_net to_ack set_rdgram rdgram].
  split_and!; try done.
  - intros k w [Hk _]%map_lookup_filter_Some. by apply Hout.
  - intros k Hk. destruct (Hlost k Hk) as [[w Hkw]%elem_of_dom|]; [|by right].
    destruct (decide (wrap 32 k = wrap 32 q)) as [Heq|Hneq].
    + right. assert (k = q) as ->; [|done].
      pose proof (rep_window _ _ _ _ Hra Hkw). apply (wrap32_inj_window (n_sent s - 2 ^ 31)); [lia|lia|done].
    + left. apply elem_of_dom. exists w. by apply map_lookup_filter_Some.
Qed.

Lemma recv_data_step s i :
  net_inv s -> event_ok (RecvData i) s -> exists s', net_step (RecvData i) s = Ok s' /\ net_inv s'.
Proof.
  intros (sa & sb & B & Hra & Hrb & Hrep & Hnx & Hne & Hout & Hdn & Han & Hacks & Hta & Hpre & HB & Hz & Hlost)
    (q & w & Hi & Hwin & Hlow).
  pose proof (Forall_lookup_1 _ _ _ _ Hdn Hi) as (p & Hsent & Hw). cbn [fst snd] in Hsent, Hw. subst w.
  assert (Hp : p <> [] /\ pkt_len p < 2 ^ 63).
  { destruct Hsent as [_ Hsent]. by apply (Forall_lookup_1 _ _ _ _ Hne Hsent). }
  assert (Hlow' : forall k, k ∈ dom B -> n_delivered s - 2 ^ 30 < k).
  { intros k Hk. pose proof (buffered_window _ _ _ _ Hrep Hk). apply elem_of_dom in Hk as [x Hk].
    destruct (decide (k = n_delivered s - 2 ^ 30)) as [->|]; [|lia].
    pose proof (recv_find _ _ _ Hrep (n_delivered s - 2 ^ 30) ltac:(lia)) as Hf.
    rewrite Hlow in Hf. simpl in Hf. congruence. }
  pose proof (data_spec _ _ _ _ q p Hrep Hrb (proj1 Hp) (proj2 Hp) Hwin Hlow') as Hstep.
  destruct (spec_data (recv_room p (receiver s)) q p (n_delivered s) B) as [[[out n'] B'] acked] eqn:Espec.
  destruct Hstep as (o' & Hrecv & Hrep' & Hrb' & Hzle & Hzpos & _).
  cbn [net_step]. rewrite Hi. unfold data_pkt. rewrite Hrecv. cbn [mbind outcome_bind].
  eexists. split; [reflexivity|].
  (* the acknowledgement *)
  assert (Hpend : replicate (length (seqnb2ack_list (rdgram o')) - length (seqnb2ack_list (rdgram (receiver s)))) q
    = if acked then [q] else []).
  { pose proof Hrb as (_ & _ & _ & _ & _ & _ & _ & _ & _ & Hac & _).
    pose proof Hrb' as (_ & _ & _ & _ & _ & _ & _ & _ & _ & Hac' & _). rewrite Hac, Hac'.
    destruct acked; [|by rewrite Nat.sub_diag].
    unfold s_push_ack; cbn [s_acks]. rewrite length_app. simpl. by replace (_ + 1 - _)%nat with 1%nat by lia. }
  rewrite Hpend.
  assert (Hqs := is_sent_lt _ _ _ Hsent). fold (n_sent s) in Hqs.
  assert (Hout' : exists ps, match out with [] => [] | _ => [out] end = ps /\ n' = n_delivered s + Z.of_nat (length ps) /\
    (forall j x, ps !! j = Some x -> is_sent (sent s) (n_delivered s + Z.of_nat j) x) /\
    (forall k x, B' !! k = Some x -> is_sent (sent s) k x) /\ B ⊆ B' /\
    (acked = true -> covered q n' B') /\
    (n' = n_delivered s -> B !! n_delivered s = None -> B' !! n_delivered s = None)).
  { unfold spec_data in Espec. destruct (Z.ltb_spec q (n_delivered s)).
    { injection Espec as <- <- <- <-. exists []. split_and!; try done; simpl; try lia. by left. }
    destruct (negb _ && negb _).
    { injection Espec as <- <- <- <-. exists []. split_and!; try done; simpl; lia. }
    destruct (Z.eqb_spec q (n_delivered s)) as [->|].
    { injection Espec as <- <- <- <-. exists [p]. split_and!; try done; simpl.
      - by destruct p; [destruct (proj1 Hp)|].
      - intros [|j] x; simpl; [|by rewrite lookup_nil]. intros [= <-]. by rewrite Z.add_0_r.
      - intros _. left. lia. }
    injection Espec as <- <- <- <-. exists []. split_and!; try done; simpl; try lia.
    - intros k x. case_bool_decide; [apply HB|]. rewrite lookup_insert. case_decide as Hk; [|apply HB].
      intros [= <-]. by subst k.
    - case_bool_decide as Hb; [done|]. apply insert_subseteq. by apply eq_None_not_Some.
    - intros _. right. apply elem_of_dom. case_bool_decide; [done|]. by rewrite lookup_insert_eq.
    - intros _ Hn. case_bool_decide; [done|]. by rewrite lookup_insert_ne. }
  destruct Hout' as (ps & -> & Hn' & Hps & HB' & Hsub & Hcov & Hnone). rewrite Hn' in *.
  apply (receiver_step s o' B' ps sa sb (if acked then s_push_ack (wrap 32 q) sb else sb) B
           (if acked then [q] else [])); try done.
  - destruct acked; [done|]. by rewrite app_nil_r.
  - intros k x _ Hk. eexists. by eapply lookup_weaken.
  - destruct acked; [|done]. constructor; [|done]. split; [done|]. by apply Hcov.
  - intros Hz0. destruct ps as [|x ps].
    + simpl. change (Z.of_nat 0) with 0 in *. rewrite Z.add_0_r in *. apply Hnone; [done|]. apply Hz. lia.
    + destruct (decide (B' = ∅)) as [->|HBne]; [by rewrite lookup_empty|].
      exfalso. cbn [length] in Hzpos. specialize (Hzpos ltac:(lia) HBne). lia.
Qed.

Lemma net_step_ok s e :
  net_inv s -> event_ok e s -> exists s', net_step e s = Ok s' /\ net_inv s'.
Proof.
  intros Hinv Hok. destruct e as [p|q|i| | |i].
  - by apply send_step.
  - by apply retransmit_step.
  - by apply recv_data_step.
  - by apply deliver_step.
  - by apply ack_timer_step.
  - by apply recv_ack_step.
Qed.

Lemma net_run_ok es s : net_inv s -> events_ok es s -> exists s', net_run es s = Ok s' /\ net_inv s'.
Proof.
  revert s. induction es as [|e es IH]; intros s Hinv Hok; [by exists s|].
  destruct Hok as [He Hok]. destruct (net_step_ok s e Hinv He) as (s1 & H1 & Hinv1).
  rewrite H1 in Hok. destruct (IH s1 Hinv1 Hok) as (s2 & H2 & Hinv2). exists s2.
  cbn [net_run]. rewrite H1. by split.
Qed.

Lemma net_init_inv max :
  0 <= max < 2 ^ 64 -> exists s, net_init max = Ok s /\ net_inv s.
Proof.
  intros Hmax. destruct (rdgram_step_spec (fun _ _ => true) (SetMaxLen max) _ _ rdgram_rep_init) as (r & Hs & Hr).
  { exact Hmax. }
  cbn [rdgram_step] in Hs. unfold net_init.
  destruct (sendbuf_set_max_len max rdgram_ctor) as [r1| | |]; try done. cbn [mbind outcome_bind] in *.
  injection Hs as ->. eexists. split; [reflexivity|].
  exists (spec_step (fun _ _ => true) (SetMaxLen max) spec_init).2, spec_init, ∅.
  cbn [sender receiver sent delivered data_net ack_net to_ack set_rdgram rdgram].
  split_and!; try done; [apply rdgram_rep_init|apply recv_rep_init|].
  intros q Hq. unfold n_sent in Hq. simpl in Hq. lia.
Qed.

(* ------------------------------------------------------------------ *)
(** * Properties *)
(* ------------------------------------------------------------------ *)

(** C1. End-to-end reliable ordered delivery: two layers joined by a network
    that may lose, duplicate, delay and reorder every packet and every
    acknowledgement, over any sequence of events.  No assertion fails; the
    payloads delivered are a prefix of the payloads sent, hence in order and
    each exactly once; no packet is ever lost: each one sent is delivered, or
    stored by the receiver, or still in the send buffer and retransmitted; and
    once the send buffer is empty and the delivery timer has run, everything
    sent has been delivered. *)
Theorem reliable_ordered_delivery (max : Z) (es : list net_event) (Hmax : 0 <= max < 2 ^ 64)
    (Hok : forall s0, net_init max = Ok s0 -> events_ok es s0) :
  exists s0 s, net_init max = Ok s0 /\ net_run es s0 = Ok s /\
    delivered s `prefix_of` sent s /\
    next_seqnb_to_deliver (receiver s) = wrap 32 (n_delivered s) /\
    (forall q p, is_sent (sent s) q p ->
       q < n_delivered s \/
       (exists rb, om_find (wai_lt 32) (wrap 32 q) (recvbuf_pkt_db (receiver s)) = Some rb /\ rb_pkt rb = p) \/
       (exists sb, find_sendbuf_pkt (wrap 32 q) (rdgram (sender s)) = Some sb /\ sb_pkt sb = data_pkt q p)) /\
    (sendbuf_pkt_db (rdgram (sender s)) = [] -> zerotimer_deliver (receiver s) = 0%nat ->
       delivered s = sent s).
Proof.
  destruct (net_init_inv max Hmax) as (s0 & H0 & Hinv0).
  destruct (net_run_ok es s0 Hinv0 (Hok s0 H0)) as (s & Hs &
    (sa & sb & B & Hra & Hrb & Hrep & Hnx & Hne & Hout & Hdn & Han & Hacks & Hta & Hpre & HB & Hz & Hlost)).
  exists s0, s. split; [done|]. split; [done|]. split; [done|].
  split; [by destruct Hrep as (_ & ? & _)|]. split.
  - intros q p Hq. pose proof (is_sent_lt _ _ _ Hq) as Hqs.
    destruct (Hlost q Hqs) as [[w Hw]%elem_of_dom|[Hlt|Hin]]; [right; right|by left|right; left].
    + destruct (Hout q w Hw) as (p' & Hp' & ->). rewrite (is_sent_fun _ _ _ _ Hq Hp').
      apply (sendbuf_find sa _ _ _ Hra); [by eapply rep_window|done].
    + pose proof (buffered_window _ _ _ _ Hrep Hin) as Hw. apply elem_of_dom in Hin as [x Hx].
      pose proof (recv_find _ _ _ Hrep q Hw) as Hf. rewrite Hx in Hf. apply fmap_Some in Hf as (rb & Hf & ->).
      exists rb. split; [done|]. by eapply is_sent_fun; [apply HB|].
  - intros Hempty Htimer. specialize (Hz Htimer).
    assert (Hall : n_delivered s = n_sent s).
    { apply prefix_length in Hpre as Hlen. destruct (decide (n_delivered s < n_sent s)) as [Hlt|]; [|unfold n_delivered, n_sent in *; lia].
      destruct (Hlost (n_delivered s)) as [[w Hw]%elem_of_dom|[Hx|[x Hx]%elem_of_dom]];
        [unfold n_delivered in *; lia| |lia|congruence].
      exfalso. apply (sendbuf_find sa _ _ _ Hra) in Hw as (sbp & Hf & _); [|by eapply rep_window].
      unfold find_sendbuf_pkt in Hf. by rewrite Hempty in Hf. }
    destruct Hpre as [k Hk]. rewrite Hk. unfold n_delivered, n_sent in Hall. rewrite Hk, length_app in Hall.
    destruct k; [by rewrite app_nil_r|simpl in Hall; lia].
Qed.

Lemma events_ok_cons e es s s1 :
  event_ok e s -> net_step e s = Ok s1 -> events_ok es s1 -> events_ok (e :: es) s.
Proof. intros He H1 Hes. cbn [events_ok]. by rewrite H1. Qed.

(** Three packets, the second lost once and the third received twice before
    it; the acknowledgements come back in another order. *)
Definition demo_events : list net_event :=
  [Send [1]; Send [2; 2]; Send [3; 3; 3]; RecvData 0; RecvData 2; RecvData 2; Retransmit 1; RecvData 3;
   RecvData 2; DeliverTimer; AckTimer; RecvAck 3; RecvAck 0; RecvAck 1].

Lemma reliable_ordered_delivery_witness :
  exists s0 s, net_init 100 = Ok s0 /\ net_run demo_events s0 = Ok s /\
    delivered s `prefix_of` sent s /\ sent s = [[1]; [2; 2]; [3; 3; 3]] /\ delivered s = sent s.
Proof.
  destruct (reliable_ordered_delivery 100 demo_events) as (s0 & s & H0 & Hs & Hp & _ & _ & Hall).
  - split; [intros H; discriminate H|reflexivity].
  - intros s0 H0. vm_compute in H0. injection H0 as <-. unfold demo_events.
    repeat match goal with
    | |- events_ok [] _ => exact I
    | |- events_ok (?e :: ?es) ?s =>
        lazymatch eval vm_compute in (net_step e s) with
        | Ok ?s1 => apply (events_ok_cons e es s s1); [|vm_compute; reflexivity|]
        end
    | |- event_ok (Send _) _ =>
        split; [discriminate|split; [vm_compute; reflexivity|vm_compute; reflexivity]]
    | |- event_ok (RecvData _) _ =>
        eexists _, _; split; [vm_compute; reflexivity|split; vm_compute; reflexivity]
    | |- event_ok (RecvAck _) _ =>
        eexists _, _; split; [vm_compute; reflexivity|vm_compute; discriminate]
    | |- event_ok (Retransmit _) _ =>
        split; [split; [vm_compute; discriminate|vm_compute; reflexivity]|vm_compute; eexists; reflexivity]
    | |- event_ok DeliverTimer _ => exact I
    | |- event_ok AckTimer _ => exact I
    end.
  - assert (Hrun : net_run demo_events s0 = Ok s /\ net_init 100 = Ok s0) by (split; [exact Hs|exact H0]).
    destruct Hrun as [Hrun H0']. vm_compute in H0'. injection H0' as <-. vm_compute in Hrun. injection Hrun as <-.
    eexists _, _. split; [exact H0|]. split; [exact Hs|]. split; [exact Hp|]. split; [reflexivity|].
    apply Hall; reflexivity.
Defined.
