(* ===== verification/Stream.v ===== *)
(** Incremental parsers, as [rtmp_parse_t] and [flv_parse_t] are: data arrive in
    pieces, are queued in a buffer, and what is complete at its head is taken away
    turn after turn, when a zerotimer expires.  The class [StepLaws] is what the turn of a parser
    promises; the theorems on it say that the pieces do not matter. *)
From S2P Require Import Prelude.

(** A turn on the buffer: not enough data, or [n] bytes taken and events given to
    the callback, with the next state, or none if the callback deleted the
    parser. *)
Inductive pstep (S E : Type) := Wait | Emit (n : nat) (es : list E) (next : option S).
Arguments Wait {S E}.
Arguments Emit {S E} n es next.

Section stream.
Context {S E : Type} (step : S -> list Z -> outcome (pstep S E)).

(** Events, and the state with what is left in the buffer. *)
Definition drained : Type := list E * option (S * list Z).

Fixpoint drain (fuel : nat) (s : S) (buf : list Z) : outcome drained :=
  match fuel with
  | O => Fault
  | Datatypes.S fuel' =>
    let* r := step s buf in
    match r with
    | Wait => Ok ([], Some (s, buf))
    | Emit n es None => Ok (es, None)
    | Emit n es (Some s') => let* (es', r) := drain fuel' s' (drop n buf) in Ok (es ++ es', r)
    end
  end.
Definition drain_all (s : S) (buf : list Z) : outcome drained := drain (Datatypes.S (length buf)) s buf.

(** One piece after another. *)
Definition feed (r : outcome drained) (piece : list Z) : outcome drained :=
  let* (es, k) := r in
  match k with
  | None => Ok (es, None)
  | Some (s, buf) => let* (es', k') := drain_all s (buf ++ piece) in Ok (es ++ es', k')
  end.

(** What a turn promises: with more data it does the same, and it takes
    something. *)
Class StepLaws : Prop := {
  step_more : forall s l m, step s l <> Ok Wait -> step s (l ++ m) = step s l;
  step_takes : forall s l n es s', step s l = Ok (Emit n es (Some s')) -> (0 < n <= length l)%nat
}.

Context `{HL : StepLaws}.

Lemma bind_assoc_outcome {A B C} (m : outcome A) (f : A -> outcome B) (g : B -> outcome C) : ((m ≫= f) ≫= g) = (m ≫= fun a => f a ≫= g).
Proof using. by destruct m. Qed.

Lemma bind_ext_outcome {A B} (m : outcome A) (f g : A -> outcome B) : (forall a, f a = g a) -> (m ≫= f) = (m ≫= g).
Proof using. destruct m; cbn; auto. Qed.

(** The fuel is enough. *)
Lemma drain_fuel f s l : (length l < f)%nat -> drain f s l = drain_all s l.
Proof using HL.
  unfold drain_all. enough (forall f g s l, (length l < f)%nat -> (length l < g)%nat -> drain f s l = drain g s l) as H by (intros; apply H; lia).
  clear f s l. induction f as [|f IH]; intros g s l Hf Hg; [lia|]. destruct g as [|g]; [lia|]. cbn [drain].
  destruct (step s l) as [[|n es [s'|]]| | |] eqn:Es; cbn [mbind outcome_bind]; try done.
  pose proof (step_takes _ _ _ _ _ Es). rewrite (IH g s' (drop n l)); [done|rewrite length_drop; lia..].
Qed.

Lemma drain_unfold s l : drain_all s l =
  (let* r := step s l in
   match r with
   | Wait => Ok ([], Some (s, l))
   | Emit n es None => Ok (es, None)
   | Emit n es (Some s') => let* (es', r) := drain_all s' (drop n l) in Ok (es ++ es', r)
   end).
Proof using HL.
  unfold drain_all at 1. cbn [drain]. destruct (step s l) as [[|n es [s'|]]| | |] eqn:Es; cbn [mbind outcome_bind]; try done.
  pose proof (step_takes _ _ _ _ _ Es). rewrite drain_fuel; [done|rewrite length_drop; lia].
Qed.

Lemma drain_waits s l : step s l = Ok Wait -> drain_all s l = Ok ([], Some (s, l)).
Proof using HL. intros Es. by rewrite drain_unfold, Es. Qed.

(** A complete unit at the head is taken first. *)
Lemma drain_unit s l m es s' : step s l = Ok (Emit (length l) es (Some s')) ->
  drain_all s (l ++ m) = (let* (es', r) := drain_all s' m in Ok (es ++ es', r)).
Proof using HL. intros Es. rewrite drain_unfold, step_more, Es by (rewrite Es; done). cbn [mbind outcome_bind]. by rewrite drop_app_length. Qed.

(** Two pieces or one. *)
Lemma drain_app s l m : drain_all s (l ++ m) = feed (drain_all s l) m.
Proof using HL.
  remember (length l) as n eqn:Hn. revert s l Hn. induction n as [n IH] using lt_wf_ind. intros s l ->.
  destruct (step s l) as [[|k es [s'|]]| | |] eqn:Es.
  - rewrite (drain_waits s l Es). cbn [feed mbind outcome_bind]. by destruct (drain_all s (l ++ m)) as [[es [[s1 b]|]]| | |].
  - pose proof (step_takes _ _ _ _ _ Es) as Hk.
    rewrite (drain_unfold s (l ++ m)), (drain_unfold s l), step_more, Es by (rewrite Es; done). cbn [mbind outcome_bind].
    rewrite drop_app_le by lia. rewrite (IH (length (drop k l))) by (rewrite ?length_drop; lia).
    destruct (drain_all s' (drop k l)) as [[es1 [[s1 b]|]]| | |]; cbn [feed mbind outcome_bind]; try done.
    destruct (drain_all s1 (b ++ m)) as [[es2 r]| | |]; cbn [mbind outcome_bind]; try done. by rewrite app_assoc.
  - by rewrite (drain_unfold s (l ++ m)), (drain_unfold s l), step_more, Es by (rewrite Es; done).
  - by rewrite (drain_unfold s (l ++ m)), (drain_unfold s l), step_more, Es by (rewrite Es; done).
  - by rewrite (drain_unfold s (l ++ m)), (drain_unfold s l), step_more, Es by (rewrite Es; done).
  - by rewrite (drain_unfold s (l ++ m)), (drain_unfold s l), step_more, Es by (rewrite Es; done).
Qed.

(** What is left makes no turn. *)
Lemma drain_rest s l es s' buf : drain_all s l = Ok (es, Some (s', buf)) -> step s' buf = Ok Wait.
Proof using HL.
  remember (length l) as n eqn:Hn. revert s l es Hn. induction n as [n IH] using lt_wf_ind. intros s l es ->. rewrite drain_unfold.
  destruct (step s l) as [[|k es1 [s1|]]| | |] eqn:Es; cbn [mbind outcome_bind]; try done.
  - intros [= <- <- <-]. done.
  - pose proof (step_takes _ _ _ _ _ Es). destruct (drain_all s1 (drop k l)) as [[es2 r]| | |] eqn:E2; try done.
    intros [= _ ->]. apply (IH (length (drop k l))) with s1 (drop k l) es2; [rewrite length_drop; lia|done..].
Qed.

(** What holds of the events of a turn holds of all. *)
Lemma drain_events (P : E -> Prop) s l es k : (forall s l n es o, step s l = Ok (Emit n es o) -> Forall P es) -> drain_all s l = Ok (es, k) -> Forall P es.
Proof using.
  clear HL. intros HP. unfold drain_all. generalize (Datatypes.S (length l)) as f. intros f. revert s l es k. induction f as [|f IH]; intros s l es k; [done|]. cbn [drain].
  destruct (step s l) as [[|n es1 [s1|]]| | |] eqn:Es; cbn [mbind outcome_bind]; try done.
  - by intros [= <- <-].
  - destruct (drain f s1 (drop n l)) as [[es2 r]| | |] eqn:E2; cbn [mbind outcome_bind]; try done. intros [= <- <-].
    apply Forall_app. split; [by apply (HP _ _ _ _ _ Es)|by apply (IH _ _ _ _ E2)].
  - intros [= <- <-]. by apply (HP _ _ _ _ _ Es).
Qed.

(** A turn that keeps an invariant and never faults never does. *)
Lemma drain_no_fault (Inv : S -> Prop) s l :
  (forall s l, Inv s -> step s l <> Fault) -> (forall s l n es s', Inv s -> step s l = Ok (Emit n es (Some s')) -> Inv s') ->
  Inv s -> drain_all s l <> Fault.
Proof using HL.
  intros Hf Hi. remember (length l) as n eqn:Hn. revert s l Hn. induction n as [n IH] using lt_wf_ind. intros s l -> Hs. rewrite drain_unfold.
  destruct (step s l) as [[|k es1 [s1|]]| | |] eqn:Es; cbn [mbind outcome_bind]; try done.
  - pose proof (step_takes _ _ _ _ _ Es). specialize (IH (length (drop k l)) ltac:(rewrite length_drop; lia) s1 (drop k l) eq_refl (Hi _ _ _ _ _ Hs Es)).
    by destruct (drain_all s1 (drop k l)) as [[es2 r]| | |].
  - by destruct (Hf s l Hs).
Qed.

(** Turns that never fail. *)
Lemma drain_ok s l : (forall s l, exists r, step s l = Ok r) -> exists r, drain_all s l = Ok r.
Proof using HL.
  intros Hok. remember (length l) as n eqn:Hn. revert s l Hn. induction n as [n IH] using lt_wf_ind. intros s l ->. rewrite drain_unfold.
  destruct (Hok s l) as [[|k es1 [s1|]] Es]; rewrite Es; cbn [mbind outcome_bind]; [by eexists| |by eexists].
  pose proof (step_takes _ _ _ _ _ Es). destruct (IH (length (drop k l)) ltac:(rewrite length_drop; lia) s1 (drop k l) eq_refl) as [[es2 r] ->]. by eexists.
Qed.

Lemma feed_feed r l m : feed (feed r l) m = feed r (l ++ m).
Proof using HL.
  destruct r as [[es [[s buf]|]]| | |]; try done. cbn [feed mbind outcome_bind]. rewrite app_assoc, (drain_app s (buf ++ l) m).
  destruct (drain_all s (buf ++ l)) as [[es1 [[s1 b1]|]]| | |]; cbn [feed mbind outcome_bind]; try done.
  destruct (drain_all s1 (b1 ++ m)) as [[es2 r]| | |]; cbn [mbind outcome_bind]; try done. by rewrite app_assoc.
Qed.
End stream.
Arguments StepLaws {S E} step.

(* ------------------------------------------------------------------ *)
(** * Parsers on a zerotimer *)
(* ------------------------------------------------------------------ *)

(** What happens to a parser: data, and the event loop, which runs the zerotimer
    if it is queued. *)
Inductive stream_in := Data (new_data : list Z) | Expire.

(** The bytes received. *)
Fixpoint bytes_in (ins : list stream_in) : list Z :=
  match ins with [] => [] | Data d :: ins' => d ++ bytes_in ins' | Expire :: ins' => bytes_in ins' end.

Section run.
Context {P E : Type} (notify : list Z -> P -> P) (armed : P -> bool) (expire : P -> outcome (list E * option P)).

(** The events, and the parser unless its callback deleted it. *)
Definition stream_step (i : stream_in) (p : P) : outcome (list E * option P) :=
  match i with
  | Data d => Ok ([], Some (notify d p))
  | Expire => if armed p then expire p else Ok ([], Some p)
  end.
Fixpoint stream_run (ins : list stream_in) (p : P) : outcome (list E * option P) :=
  match ins with
  | [] => Ok ([], Some p)
  | i :: ins' =>
    let* (evs, p1) := stream_step i p in
    match p1 with
    | None => Ok (evs, None)
    | Some p2 => let* (evs', p3) := stream_run ins' p2 in Ok (evs ++ evs', p3)
    end
  end.

(** A parser [p] in the state [s] of turns, which keeps at most [room] bytes. *)
Context {S : Type} (step : S -> list Z -> outcome (pstep S E)) (buf : P -> list Z) (R : S -> P -> Prop) (room : Z).

Definition runs_as (r : outcome drained) (q : outcome (list E * option P)) : Prop :=
  match r with
  | Ok (es, None) => q = Ok (es, None)
  | Ok (es, Some (s, b)) => exists p, q = Ok (es, Some p) /\ R s p /\ buf p = b /\ armed p = false
  | Throw e => q = Throw e
  | AssertFail => q = AssertFail
  | Fault => q = Fault
  end.

Class TimedLaws : Prop := {
  timed_step :: StepLaws step;
  notify_ok : forall s d p, R s p -> R s (notify d p) /\ buf (notify d p) = buf p ++ d /\ armed (notify d p) = true;
  expire_ok : forall s p, R s p -> (forall es s' b, drain_all step s (buf p) = Ok (es, Some (s', b)) -> Z.of_nat (length b) <= room) ->
    runs_as (drain_all step s (buf p)) (expire p)
}.
Context `{HL : TimedLaws}.

(** However [l] is cut, what waits is never more than [room]. *)
Definition all_fit (s : S) (l : list Z) : Prop :=
  forall pre suf es s' b, pre ++ suf = l -> drain_all step s pre = Ok (es, Some (s', b)) -> Z.of_nat (length b) <= room.

Lemma app_split {A} (pre suf u m : list A) : pre ++ suf = u ++ m -> (exists x, pre = u ++ x /\ m = x ++ suf) \/ (exists y x, u = pre ++ y :: x).
Proof using.
  intros [(x & -> & ->)|([|y x] & -> & ->)]%app_eq_inv; [left; by eexists| |right; by eexists _, _].
  left. exists []. by rewrite !app_nil_r.
Qed.

Lemma prefix_waits s pre suf : step s (pre ++ suf) = Ok Wait -> step s pre = Ok Wait.
Proof using HL.
  intros Hw. pose proof (step_more step s pre suf) as Hm. rewrite Hw in Hm. destruct (step s pre) as [[|n o k]| | |]; [done|..]; by specialize (Hm ltac:(done)).
Qed.

Lemma fit_after s l m es s1 b1 : all_fit s (l ++ m) -> drain_all step s l = Ok (es, Some (s1, b1)) -> all_fit s1 (b1 ++ m).
Proof using HL.
  intros Hfit Ed pre suf es' s' b Hpre Ed'. pose proof (drain_rest step s l es s1 b1 Ed) as Hw.
  destruct (app_split _ _ _ _ Hpre) as [(x & -> & ->)|(y & x & Hx)].
  - apply (Hfit (l ++ x) suf (es ++ es') s' b); [by rewrite app_assoc|]. rewrite (drain_app step), Ed. cbn [feed mbind outcome_bind]. by rewrite Ed'.
  - rewrite Hx in Hw. apply prefix_waits in Hw as Hp. rewrite (drain_waits step _ _ Hp) in Ed'. injection Ed' as <- <- <-.
    specialize (Hfit l m es s1 b1 eq_refl Ed). subst b1. rewrite length_app in Hfit. lia.
Qed.

(** A stream of units: what is complete fits but for its last byte. *)
Lemma all_fit_wait s l : step s l = Ok Wait -> Z.of_nat (length l) <= room -> all_fit s l.
Proof using HL.
  intros Hw Hl pre suf es s' b <- Ed. apply prefix_waits in Hw. rewrite (drain_waits step _ _ Hw) in Ed. injection Ed as <- <- <-. rewrite length_app in Hl. lia.
Qed.
Lemma all_fit_unit s u es s' m : step s u = Ok (Emit (length u) es (Some s')) -> Z.of_nat (length u) <= room + 1 -> all_fit s' m -> all_fit s (u ++ m).
Proof using HL.
  intros Es Hu Hfit pre suf es' s2 b Hpre Ed. destruct (app_split _ _ _ _ Hpre) as [(x & -> & ->)|(y & x & ->)].
  - rewrite (drain_unit step s u x es s' Es) in Ed. destruct (drain_all step s' x) as [[es2 k]| | |] eqn:Ex; cbn [mbind outcome_bind] in Ed; try done.
    injection Ed as <- ->. by apply (Hfit x suf es2 s2 b).
  - assert (step s pre = Ok Wait) as Hp.
    { pose proof (step_more step s pre (y :: x)) as Hm. rewrite Es in Hm. destruct (step s pre) as [[|n o k]| | |] eqn:Ep; [done|..]; specialize (Hm ltac:(done)); try done.
      injection Hm as <- <- <-. pose proof (step_takes step s pre _ _ _ Ep). rewrite length_app in *. cbn [length] in *. lia. }
    rewrite (drain_waits step _ _ Hp) in Ed. injection Ed as <- <- <-. rewrite length_app in *. cbn [length] in *. lia.
Qed.

(** The pieces, and when the zerotimer runs, do not matter. *)
Lemma run_pieces ins s p : R s p -> (armed p = false -> step s (buf p) = Ok Wait) -> all_fit s (buf p ++ bytes_in ins) ->
  runs_as (drain_all step s (buf p ++ bytes_in ins)) (stream_run (ins ++ [Expire]) p).
Proof using HL.
  revert s p. induction ins as [|[d|] ins IH]; intros s p HR Hs Hfit; cbn [app stream_run stream_step bytes_in] in *.
  - rewrite app_nil_r in *. destruct (armed p) eqn:Ez.
    + assert (Hx : runs_as (drain_all step s (buf p)) (expire p)) by (apply expire_ok; [done|]; intros es s' b Ed; by apply (Hfit (buf p) [] es s'); [rewrite app_nil_r|]).
      destruct (drain_all step s (buf p)) as [[es [[s1 b1]|]]| | |]; cbn [runs_as] in *; try by rewrite Hx.
      destruct Hx as (p1 & -> & ?). cbn [mbind outcome_bind]. rewrite app_nil_r. by exists p1.
    + rewrite (drain_waits step s _ (Hs eq_refl)). cbn [mbind outcome_bind runs_as app]. by exists p.
  - cbn [mbind outcome_bind]. destruct (notify_ok s d p HR) as (HR' & Hb & Hz). specialize (IH s (notify d p) HR'). rewrite Hb, Hz, <- app_assoc in IH.
    specialize (IH ltac:(done) Hfit). destruct (drain_all step s _) as [[es [[s1 b1]|]]| | |]; cbn [runs_as] in *; try by rewrite IH.
    destruct IH as (p1 & -> & ?). cbn [mbind outcome_bind app]. by exists p1.
  - destruct (armed p) eqn:Ez.
    + assert (Hx : runs_as (drain_all step s (buf p)) (expire p)) by (apply expire_ok; [done|]; intros es s' b Ed; by apply (Hfit (buf p) (bytes_in ins) es s')).
      rewrite (drain_app step). destruct (drain_all step s (buf p)) as [[es [[s1 b1]|]]| | |] eqn:Ed; cbn [runs_as feed mbind outcome_bind] in *; try by rewrite Hx.
      destruct Hx as (p1 & -> & HR1 & Hb1 & Hz1). cbn [mbind outcome_bind]. specialize (IH s1 p1 HR1). rewrite Hb1 in IH.
      specialize (IH ltac:(intros _; by apply (drain_rest step s (buf p) es)) (fit_after s _ _ es s1 b1 Hfit Ed)).
      destruct (drain_all step s1 (b1 ++ bytes_in ins)) as [[es2 [[s2 b2]|]]| | |]; cbn [runs_as mbind outcome_bind] in *; try by rewrite IH.
      destruct IH as (p2 & -> & ?). cbn [mbind outcome_bind]. by exists p2.
    + cbn [mbind outcome_bind app]. specialize (IH s p HR ltac:(auto) Hfit).
      destruct (drain_all step s _) as [[es [[s1 b1]|]]| | |]; cbn [runs_as] in *; try by rewrite IH.
      destruct IH as (p1 & -> & ?). cbn [mbind outcome_bind]. by exists p1.
Qed.
End run.
Arguments TimedLaws {P E} notify armed expire {S} step buf R room.
