(* ===== verification/Int24.v ===== *)
(** Bytes read one by one, and the 24-bit fields of the video formats: the macros
    [DOSERIAL_24BIT] and [UNSERIAL_24BIT], which src/src/neoip_rtmp/ and
    src/src/neoip_flv/ define alike. *)
From S2P Require Import Prelude Codec.

Definition DOSERIAL_24BIT (value : Z) : outcome (list Z) :=
  assert! value <=? 0xFFFFFF in
  Ok (wire_put u8_codec (Z.land (Z.shiftr value 16) 0xFF) ++ wire_put u8_codec (Z.land (Z.shiftr value 8) 0xFF) ++
      wire_put u8_codec (Z.land (Z.shiftr value 0) 0xFF)).
Definition UNSERIAL_24BIT (l : list Z) : outcome (Z * list Z) :=
  let* (tmp, l1) := wire_get u8_codec l in
  let value := Z.shiftl tmp 16 in
  let* (tmp, l2) := wire_get u8_codec l1 in
  let value := value + Z.shiftl tmp 8 in
  let* (tmp, l3) := wire_get u8_codec l2 in
  let value := value + Z.shiftl tmp 0 in
  Ok (value, l3).

Lemma byte_get b rest : is_byte b -> wire_get u8_codec (b :: rest) = Ok (b, rest).
Proof.
  intros Hb. change (b :: rest) with ([b] ++ rest). replace [b] with (wire_put u8_codec b); [by apply wire_get_put|].
  cbn. unfold is_byte, in_range in Hb. by rewrite Z.mod_small.
Qed.

Lemma u24_get z rest : in_range 24 z -> UNSERIAL_24BIT (be_bytes 3 z ++ rest) = Ok (z, rest).
Proof.
  intros Hz. unfold in_range in Hz. change (2 ^ 24) with 16777216 in Hz. unfold UNSERIAL_24BIT. cbn [be_bytes app].
  assert (Hd : forall d, is_byte (d mod 256)) by (intros d; unfold is_byte, in_range; change (2 ^ 8) with 256; apply Z.mod_pos_bound; lia).
  do 3 (rewrite byte_get by apply Hd; cbn [mbind outcome_bind]).
  rewrite !Z.shiftl_mul_pow2 by lia. change (2 ^ 16) with 65536. change (2 ^ 8) with 256. change (2 ^ 0) with 1. f_equal. f_equal.
  assert (0 <= z / 256 / 256 < 256) as Hhi.
  { rewrite Z.div_div by lia. change (256 * 256) with 65536. split; [apply Z.div_pos; lia|]. apply Z.div_lt_upper_bound; lia. }
  rewrite (Z.mod_small (z / 256 / 256)) by done.
  pose proof (Z.div_mod z 256 ltac:(lia)). pose proof (Z.div_mod (z / 256) 256 ltac:(lia)). lia.
Qed.

Lemma doserial_24 z : in_range 24 z -> DOSERIAL_24BIT z = Ok (be_bytes 3 z).
Proof.
  intros Hz. unfold in_range in Hz. change (2 ^ 24) with 16777216 in Hz. unfold DOSERIAL_24BIT. rewrite (proj2 (Z.leb_le _ _)) by lia. cbn [dbg_assert].
  f_equal. cbn [wire_put u8_codec be_bytes app]. change 255 with (Z.ones 8). rewrite !Z.land_ones, !Z.shiftr_div_pow2 by lia.
  change (2 ^ 16) with (256 * 256). change (2 ^ 8) with 256. change (2 ^ 0) with 1. rewrite Z.div_1_r, !Zmod_mod, <- Z.div_div by lia. done.
Qed.

Lemma unserial_24_no_fault l : UNSERIAL_24BIT l <> Fault.
Proof.
  assert (H8 : forall l, wire_get u8_codec l <> Fault) by (intros l'; cbn; unfold wire_uint, wire_get_head; by case_bool_decide).
  unfold UNSERIAL_24BIT.
  repeat (match goal with |- context [wire_get u8_codec ?x] => pose proof (H8 x); destruct (wire_get u8_codec x) as [[? ?]| | |]; cbn [mbind outcome_bind]; try done end).
Qed.

(** Reads of explicit bytes. *)
Lemma u8_cons b r : wire_get u8_codec (b :: r) = Ok (b, r).
Proof. cbn [wire_get u8_codec]. unfold wire_uint, wire_get_head. cbn [length]. rewrite bool_decide_eq_false_2 by lia. cbn. by rewrite drop_0. Qed.
Lemma u32_cons a b c d r : wire_get u32_codec (a :: b :: c :: d :: r) = Ok (be_value [a; b; c; d], r).
Proof. cbn [wire_get u32_codec]. unfold wire_uint, wire_get_head. cbn [length]. rewrite bool_decide_eq_false_2 by lia. cbn [take drop mbind outcome_bind]. by rewrite drop_0. Qed.
Lemma u24_cons a b c r : UNSERIAL_24BIT (a :: b :: c :: r) = Ok (Z.shiftl a 16 + Z.shiftl b 8 + Z.shiftl c 0, r).
Proof. unfold UNSERIAL_24BIT. do 3 (rewrite u8_cons; cbn [mbind outcome_bind]). done. Qed.
