(* ===== verification/Rtmp.v ===== *)
(** RTMP (src/src/neoip_rtmp/): the packet header [rtmp_pkthd_t], the builder
    [rtmp_build_t], and the parser [rtmp_parse_t] with its channels
    [rtmp_parse_chanctx_t].

    A packet is cut in chunks of at most 128 bytes, each after a header; those of
    several channels may be interleaved, and a header may leave out what it shares
    with the last one of its channel.  The parser gets the stream in pieces and
    parses when its zerotimer expires.  The types are [strtype_t]s over [uint8_t]:
    any byte is a type, and the null one, -1, is not a byte. *)
From stdpp Require Import gmap.
From S2P Require Import Prelude Codec Time Stream Int24.

(* ------------------------------------------------------------------ *)
(** * rtmp_pkthd_t *)
(* ------------------------------------------------------------------ *)

Definition CHUNK_MAXLEN : nat := 128.
Definition PKTHD_MAXLEN : nat := 12.

Definition RTMP_TYPE_NONE : Z := -1.

(** The default constructor leaves the three [option] fields unset. *)
Record rtmp_pkthd_t := Pkthd {
  channel_id : option Z;
  timestamp : Z;
  body_length : option Z;
  pk_type : Z;
  stream_id : option Z
}.
Definition pkthd_ctor : rtmp_pkthd_t := Pkthd None NONE_VAL None RTMP_TYPE_NONE None.
Definition pkthd_is_null (h : rtmp_pkthd_t) : bool := pk_type h =? RTMP_TYPE_NONE.

(** A read of a field that may be unset. *)
Definition field {A} (f : option A) : outcome A := match f with Some a => Ok a | None => Fault end.

Definition put_pkthd (h : rtmp_pkthd_t) : outcome (list Z) :=
  let* chan := field (channel_id h) in
  let* ts := DOSERIAL_24BIT (wrap 32 (timestamp h)) in
  let* blen := field (body_length h) in
  let* len := DOSERIAL_24BIT blen in
  let* sid := field (stream_id h) in
  Ok (wire_put u8_codec chan ++ ts ++ len ++ wire_put u8_codec (wrap 8 (pk_type h)) ++ wire_put u32_codec (NEOIP_BSWAP32 sid)).

(** [pkthd_len_arr], and the two fields of the first byte. *)
Definition pkthd_len_arr : list nat := [12; 8; 4; 1]%nat.
Definition pkthd_len_of (first_byte : Z) : outcome nat := field (pkthd_len_arr !! Z.to_nat (Z.land (Z.shiftr first_byte 6) 0x3)).
Definition channel_of (first_byte : Z) : Z := Z.land first_byte 0x3f.

(** The fields the header does not hold keep their values in [h]. *)
Definition get_pkthd (h : rtmp_pkthd_t) (l : list Z) : outcome (rtmp_pkthd_t * list Z) :=
  let* (first_byte, l1) := wire_get u8_codec l in
  let* pkthd_len := pkthd_len_of first_byte in
  let h1 := Pkthd (Some (channel_of first_byte)) (timestamp h) (body_length h) (pk_type h) (stream_id h) in
  let* (h2, l2) := (if (4 <=? pkthd_len)%nat then
      let* (timestamp_ms, l') := UNSERIAL_24BIT l1 in
      Ok (Pkthd (channel_id h1) (from_msec timestamp_ms) (body_length h1) (pk_type h1) (stream_id h1), l')
    else Ok (h1, l1)) in
  let* (h3, l3) := (if (8 <=? pkthd_len)%nat then
      let* (blen, l') := UNSERIAL_24BIT l2 in
      let* (ty, l'') := wire_get u8_codec l' in
      Ok (Pkthd (channel_id h2) (timestamp h2) (Some blen) ty (stream_id h2), l'')
    else Ok (h2, l2)) in
  let* (h4, l4) := (if (pkthd_len =? 12)%nat then
      let* (sid, l') := wire_get u32_codec l3 in
      Ok (Pkthd (channel_id h3) (timestamp h3) (body_length h3) (pk_type h3) (Some (NEOIP_BSWAP32 sid)), l')
    else Ok (h3, l3)) in
  if pkthd_is_null h4 then Throw "Invalid null rtmp_pkthd_t" else Ok (h4, l4).

(* ------------------------------------------------------------------ *)
(** * rtmp_build_t *)
(* ------------------------------------------------------------------ *)

(** The loop over the chunks, from [offset]. *)
Fixpoint build_loop (fuel : nat) (chan : Z) (rtmp_body : list Z) (offset : nat) : outcome (list Z) :=
  match fuel with
  | O => Fault
  | S fuel' =>
    if (offset <? length rtmp_body)%nat then
      let separator := if (0 <? offset)%nat then wire_put u8_codec (wrap 8 (Z.lor 0xC0 chan)) else [] in
      let remaining := (length rtmp_body - offset)%nat in
      let chunk_len := Nat.min remaining CHUNK_MAXLEN in
      let* rest := build_loop fuel' chan rtmp_body (offset + CHUNK_MAXLEN) in
      Ok (separator ++ take chunk_len (drop offset rtmp_body) ++ rest)
    else Ok []
  end.
Definition rtmp_serialize (p_rtmp_pkthd : rtmp_pkthd_t) (rtmp_body : list Z) : outcome (list Z) :=
  let h := Pkthd (channel_id p_rtmp_pkthd) (timestamp p_rtmp_pkthd) (Some (Z.of_nat (length rtmp_body))) (pk_type p_rtmp_pkthd) (stream_id p_rtmp_pkthd) in
  let* hd := put_pkthd h in
  let* chan := field (channel_id h) in
  let* chunks := build_loop (S (length rtmp_body)) chan rtmp_body 0 in
  Ok (hd ++ chunks).

(* ------------------------------------------------------------------ *)
(** * rtmp_parse_t *)
(* ------------------------------------------------------------------ *)

Inductive rtmp_err := ErrBodyLength | ErrBufferMaxlen (maxlen : Z).
Inductive rtmp_event_t := RtmpError (e : rtmp_err) | RtmpPacket (pkthd : rtmp_pkthd_t) (pktdata : list Z).

Record chanctx_t := Chanctx { m_channel_id : Z; m_last_pkthd : rtmp_pkthd_t; m_body_buffer : list Z }.

Record rtmp_parse_t := RtmpParse {
  m_buffer : list Z;
  buffer_maxlen : Z;
  chanctx_db : list chanctx_t;
  zerotimer : bool                                      (* an entry is queued *)
}.
Definition BUFFER_MAXLEN : Z := 256 * 1024.
Definition rtmp_parse_ctor (buffer_maxlen : Z) : rtmp_parse_t := RtmpParse [] buffer_maxlen [] false.
Definition set_buffer (b : list Z) (p : rtmp_parse_t) : rtmp_parse_t := RtmpParse b (buffer_maxlen p) (chanctx_db p) (zerotimer p).
Definition set_chanctx_db (l : list chanctx_t) (p : rtmp_parse_t) : rtmp_parse_t := RtmpParse (m_buffer p) (buffer_maxlen p) l (zerotimer p).

Definition chanctx_by_channel_id (chan : Z) (p : rtmp_parse_t) : option chanctx_t :=
  List.find (fun c => chan =? m_channel_id c) (chanctx_db p).
(** The object of this channel is modified. *)
Definition chanctx_update (c : chanctx_t) (p : rtmp_parse_t) : rtmp_parse_t :=
  set_chanctx_db ((fun d => if m_channel_id c =? m_channel_id d then c else d) <$> chanctx_db p) p.

(** [rtmp_parse_chanctx_t::start] of a new object. *)
Definition chanctx_start (chan : Z) (p : rtmp_parse_t) : outcome (chanctx_t * rtmp_parse_t) :=
  let c := Chanctx chan pkthd_ctor [] in
  assert! match chanctx_by_channel_id chan p with None => true | Some _ => false end in
  Ok (c, set_chanctx_db (chanctx_db p ++ [c]) p).

Section rtmp.
Variable cb : rtmp_event_t -> bool.

(** The events, whether the parser is kept, and the channel. *)
Definition notify_chunk (chunk_pkthd : rtmp_pkthd_t) (chunk_body : list Z) (c : chanctx_t) : outcome (list rtmp_event_t * bool * chanctx_t) :=
  let c1 := Chanctx (m_channel_id c) chunk_pkthd (m_body_buffer c ++ chunk_body) in
  let* blen := field (body_length (m_last_pkthd c1)) in
  let len := Z.of_nat (length (m_body_buffer c1)) in
  if blen <? len then
    let e := RtmpError ErrBodyLength in Ok ([e], cb e, c1)
  else
    assert! len <=? blen in
    if len <? blen then Ok ([], true, c1)
    else
      let e := RtmpPacket (m_last_pkthd c1) (m_body_buffer c1) in
      Ok ([e], cb e, Chanctx (m_channel_id c1) (m_last_pkthd c1) []).

(** [*stop_parsing], the events, and the parser unless it was deleted. *)
Definition parse_packet (p : rtmp_parse_t) : outcome (bool * list rtmp_event_t * option rtmp_parse_t) :=
  match m_buffer p with
  | [] => Ok (true, [], Some p)
  | first_byte :: _ =>
    let chan := channel_of first_byte in
    let* pkthd_len := pkthd_len_of first_byte in
    if (length (m_buffer p) <? pkthd_len)%nat then Ok (true, [], Some p)
    else
      let* (c, p1) := (match chanctx_by_channel_id chan p with
                       | Some c => Ok (c, p)
                       | None => chanctx_start chan p
                       end) in
      let* (chunk_pkthd, _) := get_pkthd (m_last_pkthd c) (take pkthd_len (m_buffer p1)) in
      let* blen := field (body_length chunk_pkthd) in
      assert! Z.of_nat (length (m_body_buffer c)) <=? blen in
      let remaining_len := blen - Z.of_nat (length (m_body_buffer c)) in
      let chunk_len := Z.to_nat (Z.min remaining_len (Z.of_nat CHUNK_MAXLEN)) in
      if (length (m_buffer p1) <? pkthd_len + chunk_len)%nat then Ok (true, [], Some p1)
      else
        let b1 := drop pkthd_len (m_buffer p1) in
        let chunk_body := take chunk_len b1 in
        let p2 := set_buffer (drop chunk_len b1) p1 in
        let* (evs, tokeep, c1) := notify_chunk chunk_pkthd chunk_body c in
        Ok (false, evs, if (tokeep : bool) then Some (chanctx_update c1 p2) else None)
  end.

(** The loop; each turn that goes on removes a header. *)
Fixpoint parse_loop (fuel : nat) (p : rtmp_parse_t) : outcome (list rtmp_event_t * option rtmp_parse_t) :=
  match fuel with
  | O => Fault
  | S fuel' =>
    let* (stop_parsing, evs, p1) := parse_packet p in
    match p1 with
    | None => Ok (evs, None)
    | Some p2 =>
      if (stop_parsing : bool) then Ok (evs, Some p2)
      else let* (evs', p3) := parse_loop fuel' p2 in Ok (evs ++ evs', p3)
    end
  end.
Definition parse_buffer (p : rtmp_parse_t) : outcome (list rtmp_event_t * option rtmp_parse_t) :=
  let* (evs, p1) := parse_loop (S (length (m_buffer p))) p in
  match p1 with
  | None => Ok (evs, None)
  | Some p2 =>
    if buffer_maxlen p2 <? Z.of_nat (length (m_buffer p2)) then
      let p3 := set_buffer [] p2 in
      let e := RtmpError (ErrBufferMaxlen (buffer_maxlen p2)) in
      Ok (evs ++ [e], if cb e then Some p3 else None)
    else Ok (evs, Some p2)
  end.

Definition notify_data (new_data : list Z) (p : rtmp_parse_t) : rtmp_parse_t :=
  RtmpParse (m_buffer p ++ new_data) (buffer_maxlen p) (chanctx_db p) true.
Definition rtmp_zerotimer_cb (p : rtmp_parse_t) : outcome (list rtmp_event_t * option rtmp_parse_t) :=
  parse_buffer (RtmpParse (m_buffer p) (buffer_maxlen p) (chanctx_db p) false).

(** What happens to a parser, on its zerotimer. *)
Definition rtmp_run (ins : list stream_in) (p : rtmp_parse_t) : outcome (list rtmp_event_t * option rtmp_parse_t) :=
  stream_run notify_data zerotimer rtmp_zerotimer_cb ins p.
End rtmp.

(* ------------------------------------------------------------------ *)
(** * A turn as a function of the channels *)
(* ------------------------------------------------------------------ *)

(** The last header and the body received so far. *)
Definition chan_state : Type := rtmp_pkthd_t * list Z.
Definition chan_new : chan_state := (pkthd_ctor, []).
Abbreviation chans := (gmap Z chan_state).
Definition chan_at (M : chans) (ch : Z) : chan_state := default chan_new (M !! ch).

Section turns.
Variable cb : rtmp_event_t -> bool.

Definition rtmp_turn (M : chans) (l : list Z) : outcome (pstep chans rtmp_event_t) :=
  match l with
  | [] => Ok Wait
  | b :: _ =>
    let* n := pkthd_len_of b in
    if (length l <? n)%nat then Ok Wait
    else
      let '(h, body) := chan_at M (channel_of b) in
      let* (hd, _) := get_pkthd h (take n l) in
      let* blen := field (body_length hd) in
      assert! Z.of_nat (length body) <=? blen in
      let k := Z.to_nat (Z.min (blen - Z.of_nat (length body)) (Z.of_nat CHUNK_MAXLEN)) in
      if (length l <? n + k)%nat then Ok Wait
      else
        let body1 := body ++ take k (drop n l) in
        if Z.of_nat (length body1) <? blen then Ok (Emit (n + k) [] (Some (<[channel_of b := (hd, body1)]> M)))
        else
          let e := RtmpPacket hd body1 in
          Ok (Emit (n + k) [e] (if cb e then Some (<[channel_of b := (hd, [])]> M) else None))
  end.

Lemma pkthd_len_cases b : exists n, pkthd_len_of b = Ok n /\ (n = 12 \/ n = 8 \/ n = 4 \/ n = 1)%nat.
Proof.
  unfold pkthd_len_of. change 3 with (Z.ones 2). rewrite Z.land_ones by lia. pose proof (Z.mod_pos_bound (Z.shiftr b 6) (2 ^ 2) eq_refl) as H.
  set (z := _ mod _) in *. assert (z = 0 \/ z = 1 \/ z = 2 \/ z = 3) as [-> |[-> |[-> | ->]]] by (clearbody z; change (2 ^ 2) with 4 in H; lia); eexists; (split; [reflexivity|]); auto.
Qed.

#[export] Instance rtmp_turn_laws : StepLaws rtmp_turn.
Proof.
  split.
  - intros M l m. destruct l as [|b l]; [done|]. change ((b :: l) ++ m) with (b :: (l ++ m)). unfold rtmp_turn.
    destruct (pkthd_len_cases b) as (n & -> & Hn). cbn [mbind outcome_bind].
    rewrite !app_comm_cons, !length_app. destruct (Nat.ltb_spec (length (b :: l)) n) as [|Hl]; [done|].
    rewrite (proj2 (Nat.ltb_ge (length (b :: l) + length m) n)) by lia. rewrite take_app_le, drop_app_le by done.
    destruct (chan_at M (channel_of b)) as [h body]. destruct (get_pkthd h (take n (b :: l))) as [[hd r]| | |]; cbn [mbind outcome_bind]; try done.
    destruct (field (body_length hd)) as [blen| | |]; cbn [mbind outcome_bind]; try done. unfold dbg_assert. destruct (_ <=? blen); [|done].
    set (k := Z.to_nat _). destruct (Nat.ltb_spec (length (b :: l)) (n + k)) as [|Hk]; [done|].
    rewrite (proj2 (Nat.ltb_ge (length (b :: l) + length m) (n + k))) by lia. rewrite take_app_le by (rewrite length_drop; lia). done.
  - intros M l n es M'. destruct l as [|b l]; [done|]. unfold rtmp_turn. destruct (pkthd_len_cases b) as (n0 & -> & Hn0). cbn [mbind outcome_bind].
    destruct (Nat.ltb_spec (length (b :: l)) n0) as [|Hl]; [done|]. destruct (chan_at M (channel_of b)) as [h body].
    destruct (get_pkthd h _) as [[hd r]| | |]; cbn [mbind outcome_bind]; try done.
    destruct (field (body_length hd)) as [blen| | |]; cbn [mbind outcome_bind]; try done. unfold dbg_assert. destruct (_ <=? blen); [|done].
    set (k := Z.to_nat _). destruct (Nat.ltb_spec (length (b :: l)) (n0 + k)) as [|Hk]; [done|].
    destruct (_ <? blen); [|destruct (cb _); [|done]]; intros [= <- <- <-]; lia.
Qed.

(* ------------------------------------------------------------------ *)
(** * The parser makes these turns *)
(* ------------------------------------------------------------------ *)

Definition ctx_state (o : option chanctx_t) : chan_state := match o with Some c => (m_last_pkthd c, m_body_buffer c) | None => chan_new end.
Record has_chans (M : chans) (p : rtmp_parse_t) : Prop := {
  hc_nodup : NoDup (m_channel_id <$> chanctx_db p);
  hc_at : forall ch, ctx_state (chanctx_by_channel_id ch p) = chan_at M ch
}.

Lemma by_id_some ch p c : chanctx_by_channel_id ch p = Some c -> m_channel_id c = ch /\ c ∈ chanctx_db p.
Proof. intros H. apply find_some in H as [Hin Hc]. apply Z.eqb_eq in Hc. split; [done|by apply list_elem_of_In]. Qed.

Lemma by_id_app ch p c : m_channel_id c = ch -> chanctx_by_channel_id ch p = None ->
  forall ch', chanctx_by_channel_id ch' (set_chanctx_db (chanctx_db p ++ [c]) p) = if decide (ch' = ch) then Some c else chanctx_by_channel_id ch' p.
Proof.
  intros Hc Hn ch'. unfold chanctx_by_channel_id, set_chanctx_db in *. cbn [chanctx_db]. induction (chanctx_db p) as [|d l IH]; cbn [find app].
  - rewrite Hc. case_decide as E; [by rewrite (proj2 (Z.eqb_eq _ _) E)|]. by rewrite (proj2 (Z.eqb_neq _ _) E).
  - cbn [find] in Hn. destruct (ch =? m_channel_id d) eqn:Ed; [done|]. destruct (ch' =? m_channel_id d) eqn:Ed'; [|by apply IH].
    apply Z.eqb_eq in Ed'. apply Z.eqb_neq in Ed. rewrite decide_False by congruence. done.
Qed.

Lemma by_id_update c p : (exists c0, chanctx_by_channel_id (m_channel_id c) p = Some c0) ->
  forall ch, chanctx_by_channel_id ch (chanctx_update c p) = if decide (ch = m_channel_id c) then Some c else chanctx_by_channel_id ch p.
Proof.
  intros (c0 & H0) ch. unfold chanctx_by_channel_id, chanctx_update, set_chanctx_db in *. cbn [chanctx_db]. induction (chanctx_db p) as [|d l IH]; [done|].
  cbn [find fmap list_fmap] in *. destruct (m_channel_id c =? m_channel_id d) eqn:Ed.
  - apply Z.eqb_eq in Ed. case_decide as E; [by rewrite (proj2 (Z.eqb_eq _ _) E)|]. rewrite (proj2 (Z.eqb_neq _ _)) by done.
    rewrite (proj2 (Z.eqb_neq ch (m_channel_id d))) by congruence. clear -E. induction l as [|e l IH]; [done|]. cbn [find fmap list_fmap].
    destruct (m_channel_id c =? m_channel_id e) eqn:Ee; [|by destruct (ch =? _)]. apply Z.eqb_eq in Ee.
    rewrite (proj2 (Z.eqb_neq _ _)) by done. rewrite (proj2 (Z.eqb_neq ch (m_channel_id e))) by congruence. done.
  - apply Z.eqb_neq in Ed. destruct (ch =? m_channel_id d) eqn:E'; [|by apply IH]. apply Z.eqb_eq in E'. by rewrite decide_False by congruence.
Qed.

Lemma update_ids c p : m_channel_id <$> chanctx_db (chanctx_update c p) = m_channel_id <$> chanctx_db p.
Proof.
  unfold chanctx_update, set_chanctx_db. cbn [chanctx_db]. rewrite <- list_fmap_compose. apply list_fmap_ext. intros i d _. cbn.
  destruct (_ =? _) eqn:E; [by apply Z.eqb_eq in E|done].
Qed.

(** A channel is known after the lookup, with its state. *)
Lemma chan_lookup M p ch : has_chans M p ->
  exists c p1, (match chanctx_by_channel_id ch p with Some c => Ok (c, p) | None => chanctx_start ch p end) = Ok (c, p1) /\
    m_channel_id c = ch /\ (m_last_pkthd c, m_body_buffer c) = chan_at M ch /\ has_chans M p1 /\
    m_buffer p1 = m_buffer p /\ buffer_maxlen p1 = buffer_maxlen p /\ zerotimer p1 = zerotimer p /\
    exists c0, chanctx_by_channel_id ch p1 = Some c0.
Proof.
  intros [Hnd Hat]. destruct (chanctx_by_channel_id ch p) as [c|] eqn:Ec.
  - exists c, p. destruct (by_id_some _ _ _ Ec) as [Hid _]. specialize (Hat ch) as Hch. rewrite Ec in Hch. by repeat split; eauto.
  - unfold chanctx_start. rewrite Ec. cbn [dbg_assert]. set (c := Chanctx ch pkthd_ctor []). exists c, (set_chanctx_db (chanctx_db p ++ [c]) p).
    pose proof (by_id_app ch p c eq_refl Ec) as Hby. specialize (Hat ch) as Hch. rewrite Ec in Hch. cbn [ctx_state] in Hch. split; [done|]. split; [done|]. split; [done|].
    split; [|repeat split; try done; exists c; rewrite Hby; by rewrite decide_True]. split.
    + unfold set_chanctx_db. cbn [chanctx_db]. rewrite fmap_app. apply NoDup_app. split; [done|]. split; [|apply NoDup_singleton].
      intros x Hx. apply list_elem_of_fmap in Hx as (d & -> & Hd). intros [E|[]%not_elem_of_nil]%elem_of_cons. cbn in E.
      pose proof (List.find_none _ _ Ec d (proj1 (list_elem_of_In _ _) Hd)) as Hf. cbn in Hf. apply Z.eqb_neq in Hf. congruence.
    + intros ch'. rewrite Hby. case_decide as E; [by subst|done].
Qed.

(** What the turn gives, against the turn on the channels. *)
Definition turn_matches (M : chans) (p : rtmp_parse_t) : Prop :=
  match rtmp_turn M (m_buffer p) with
  | Ok Wait => exists p', parse_packet cb p = Ok (true, [], Some p') /\ has_chans M p' /\ m_buffer p' = m_buffer p /\
      buffer_maxlen p' = buffer_maxlen p /\ zerotimer p' = zerotimer p
  | Ok (Emit n es None) => parse_packet cb p = Ok (false, es, None)
  | Ok (Emit n es (Some M')) => exists p', parse_packet cb p = Ok (false, es, Some p') /\ has_chans M' p' /\ m_buffer p' = drop n (m_buffer p) /\
      buffer_maxlen p' = buffer_maxlen p /\ zerotimer p' = zerotimer p
  | Throw e => parse_packet cb p = Throw e
  | AssertFail => parse_packet cb p = AssertFail
  | Fault => parse_packet cb p = Fault
  end.

Lemma notify_chunk_spec hd data c blen : body_length hd = Some blen -> Z.of_nat (length (m_body_buffer c ++ data)) <= blen ->
  notify_chunk cb hd data c =
    (let body1 := m_body_buffer c ++ data in
     if Z.of_nat (length body1) <? blen then Ok ([], true, Chanctx (m_channel_id c) hd body1)
     else Ok ([RtmpPacket hd body1], cb (RtmpPacket hd body1), Chanctx (m_channel_id c) hd [])).
Proof.
  intros Hb Hle. unfold notify_chunk. cbn [m_last_pkthd m_body_buffer m_channel_id]. rewrite Hb. cbn [field mbind outcome_bind].
  rewrite (proj2 (Z.ltb_ge _ _) Hle). by rewrite (proj2 (Z.leb_le _ _) Hle).
Qed.

Lemma chan_at_insert M ch s ch' : chan_at (<[ch := s]> M) ch' = if decide (ch' = ch) then s else chan_at M ch'.
Proof. unfold chan_at. case_decide as E; [subst; by rewrite lookup_insert_eq|by rewrite lookup_insert_ne by done]. Qed.

Lemma chans_after M p1 c1 b s : has_chans M p1 -> (exists c0, chanctx_by_channel_id (m_channel_id c1) p1 = Some c0) -> s = (m_last_pkthd c1, m_body_buffer c1) ->
  has_chans (<[m_channel_id c1 := s]> M) (chanctx_update c1 (set_buffer b p1)).
Proof.
  intros [Hnd Hat] Hex ->. split.
  - by rewrite update_ids.
  - intros ch. rewrite by_id_update by done. rewrite chan_at_insert. case_decide; [done|]. apply (Hat ch).
Qed.

Lemma parse_packet_turn M p : has_chans M p -> turn_matches M p.
Proof.
  intros HM. unfold turn_matches, rtmp_turn, parse_packet. destruct (m_buffer p) as [|b l] eqn:Eb; [by exists p|].
  destruct (pkthd_len_cases b) as (n & -> & Hn). cbn [mbind outcome_bind]. destruct (Nat.ltb_spec (length (b :: l)) n) as [|Hl]; [by exists p|].
  destruct (chan_lookup M p (channel_of b) HM) as (c & p1 & -> & Hid & Hst & HM1 & Hb1 & Hmx & Hz & Hex). cbn [mbind outcome_bind].
  rewrite <- Hst, Hb1, Eb. destruct (get_pkthd (m_last_pkthd c) (take n (b :: l))) as [[hd r]| | |]; cbn [mbind outcome_bind]; try done.
  destruct (field (body_length hd)) as [blen| | |] eqn:Ef; cbn [mbind outcome_bind]; try done. unfold dbg_assert.
  destruct (Z.leb_spec (Z.of_nat (length (m_body_buffer c))) blen) as [Hle|]; [|done]. set (k := Z.to_nat _).
  destruct (Nat.ltb_spec (length (b :: l)) (n + k)) as [|Hk]; [exists p1; repeat split; try done; [apply HM1..|congruence]|].
  assert (Hbl : body_length hd = Some blen) by (unfold field in Ef; destruct (body_length hd); congruence).
  assert (Hfit : Z.of_nat (length (m_body_buffer c ++ take k (drop n (b :: l)))) <= blen)
    by (rewrite length_app, length_take, length_drop; unfold k in *; lia).
  rewrite (notify_chunk_spec hd _ c blen Hbl Hfit). cbv zeta. unfold CHUNK_MAXLEN in *.
  destruct (Z.of_nat (length (m_body_buffer c ++ take k (drop n (b :: l)))) <? blen); cbn [mbind outcome_bind].
  - eexists. split; [done|]. rewrite <- Hid in Hex |- *. split; [by apply (chans_after M p1 (Chanctx (m_channel_id c) hd _))|].
    repeat split; try done. cbn. by rewrite drop_drop.
  - destruct (cb _); [|done]. eexists. split; [done|]. rewrite <- Hid in Hex |- *. split; [by apply (chans_after M p1 (Chanctx (m_channel_id c) hd []))|].
    repeat split; try done. cbn. by rewrite drop_drop.
Qed.
End turns.

(* ------------------------------------------------------------------ *)
(** * The pieces do not matter *)
(* ------------------------------------------------------------------ *)

(** Less than a header and a chunk is left, so a limit of 139 bytes is never
    exceeded. *)
Definition rtmp_room : Z := 139.

Section pieces.
Variable cb : rtmp_event_t -> bool.
Abbreviation turn := (rtmp_turn cb).

Lemma turn_waits_short M l : turn M l = Ok Wait -> Z.of_nat (length l) <= rtmp_room.
Proof using.
  clear. unfold rtmp_turn, rtmp_room. destruct l as [|b l]; [done|]. destruct (pkthd_len_cases b) as (n & -> & Hn). cbn [mbind outcome_bind].
  destruct (Nat.ltb_spec (length (b :: l)) n) as [|Hl]; [intros _; lia|]. destruct (chan_at M (channel_of b)) as [h body].
  destruct (get_pkthd h _) as [[hd r]| | |]; cbn [mbind outcome_bind]; try done.
  destruct (field (body_length hd)) as [blen| | |]; cbn [mbind outcome_bind]; try done. unfold dbg_assert. destruct (_ <=? blen); [|done].
  set (k := Z.to_nat _). assert (k <= 128)%nat by (unfold k, CHUNK_MAXLEN; lia). clearbody k.
  destruct (Nat.ltb_spec (length (b :: l)) (n + k)); [intros _; lia|]. destruct (_ <? blen); [done|]. by destruct (cb _).
Qed.

(** A parser of these channels. *)
Record rtmp_rep (mx : Z) (M : chans) (p : rtmp_parse_t) : Prop := { rep_chans : has_chans M p; rep_maxlen : buffer_maxlen p = mx }.

(** The loop makes the turns. *)
Definition loop_as (r : outcome (drained (S := chans) (E := rtmp_event_t))) (q : outcome (list rtmp_event_t * option rtmp_parse_t)) (mx : Z) (z : bool) : Prop :=
  match r with
  | Ok (es, None) => q = Ok (es, None)
  | Ok (es, Some (M, b)) => exists p, q = Ok (es, Some p) /\ rtmp_rep mx M p /\ m_buffer p = b /\ zerotimer p = z
  | Throw e => q = Throw e
  | AssertFail => q = AssertFail
  | Fault => q = Fault
  end.

Lemma loop_runs f mx M p : rtmp_rep mx M p -> loop_as (drain turn f M (m_buffer p)) (parse_loop cb f p) mx (zerotimer p).
Proof using.
  clear. revert M p. induction f as [|f IH]; intros M p [HM Hm]; [done|]. cbn [drain parse_loop]. pose proof (parse_packet_turn cb M p HM) as Ht. unfold turn_matches in Ht.
  destruct (turn M (m_buffer p)) as [[|n es [M'|]]| | |]; cbn [mbind outcome_bind loop_as].
  - destruct Ht as (p' & -> & HM' & Hb & Hmx & Hz). exists p'. split; [done|]. split; [split; congruence|done].
  - destruct Ht as (p' & -> & HM' & Hb & Hmx & Hz). cbn [mbind outcome_bind]. specialize (IH M' p' ltac:(split; congruence)). rewrite Hb, Hz in IH.
    destruct (drain turn f M' (drop n (m_buffer p))) as [[es' [[M2 b2]|]]| | |]; cbn [mbind outcome_bind loop_as] in *; try by rewrite IH.
    destruct IH as (p2 & -> & ?). by exists p2.
  - by rewrite Ht.
  - by rewrite Ht.
  - by rewrite Ht.
  - by rewrite Ht.
Qed.

#[export] Instance rtmp_timed mx : TimedLaws notify_data zerotimer (rtmp_zerotimer_cb cb) turn m_buffer (rtmp_rep mx) mx.
Proof using.
  split; [apply _| |].
  - intros M d p [[Hnd Hat] Hm]. done.
  - intros M p [[Hnd Hat] Hm] Hfit. unfold rtmp_zerotimer_cb, parse_buffer. cbn [m_buffer].
    pose proof (loop_runs (S (length (m_buffer p))) mx M (RtmpParse (m_buffer p) (buffer_maxlen p) (chanctx_db p) false) ltac:(split; [by split|done])) as H.
    cbn [m_buffer zerotimer] in H. fold (drain_all turn M (m_buffer p)) in H.
    destruct (drain_all turn M (m_buffer p)) as [[es [[M1 b1]|]]| | |] eqn:Ed; cbn [loop_as runs_as] in *; try by rewrite H.
    destruct H as (p1 & -> & HR & Hb1 & Hz1). cbn [mbind outcome_bind]. specialize (Hfit es M1 b1 eq_refl). rewrite Hb1, (rep_maxlen _ _ _ HR).
    rewrite (proj2 (Z.ltb_ge _ _)) by lia. by exists p1.
Qed.

Lemma turns_fit mx M l : rtmp_room <= mx -> all_fit turn mx M l.
Proof using.
  clear. intros Hmx pre suf es M' b _ Ed. apply (drain_rest turn) in Ed. apply turn_waits_short in Ed. lia.
Qed.

Lemma rtmp_runs ins M p : has_chans M p -> rtmp_room <= buffer_maxlen p -> (zerotimer p = false -> turn M (m_buffer p) = Ok Wait) ->
  runs_as zerotimer m_buffer (rtmp_rep (buffer_maxlen p)) (drain_all turn M (m_buffer p ++ bytes_in ins)) (rtmp_run cb (ins ++ [Expire]) p).
Proof using.
  clear. intros HM Hmx Hs. apply (run_pieces notify_data zerotimer (rtmp_zerotimer_cb cb) turn m_buffer (rtmp_rep (buffer_maxlen p)) (buffer_maxlen p)); [by split|done|by apply turns_fit].
Qed.
End pieces.

Lemma ctor_chans mx : has_chans ∅ (rtmp_parse_ctor mx).
Proof. split; [constructor|done]. Qed.

(** The same for a caller: the same events, and parsers that cannot be told
    apart. *)
Definition same_parser (p q : rtmp_parse_t) : Prop :=
  m_buffer p = m_buffer q /\ forall ch, ctx_state (chanctx_by_channel_id ch p) = ctx_state (chanctx_by_channel_id ch q).
Definition same_run (r q : outcome (list rtmp_event_t * option rtmp_parse_t)) : Prop :=
  match r, q with
  | Ok (es, k), Ok (es', k') => es = es' /\ match k, k' with Some p, Some p' => same_parser p p' | None, None => True | _, _ => False end
  | Throw e, Throw e' => e = e'
  | AssertFail, AssertFail | Fault, Fault => True
  | _, _ => False
  end.

Lemma no_full cb n M l es k : drain_all (rtmp_turn cb) M l = Ok (es, k) -> RtmpError (ErrBufferMaxlen n) ∉ es.
Proof.
  intros Ed Hin. apply (drain_events _ (fun e => e <> RtmpError (ErrBufferMaxlen n))) in Ed; [|].
  - rewrite Forall_forall in Ed. by apply (Ed _ Hin).
  - clear. intros M l k es o. unfold rtmp_turn. destruct l as [|b l]; [done|]. destruct (pkthd_len_cases b) as (m & -> & _). cbn [mbind outcome_bind].
    destruct (_ <? _)%nat; [done|]. destruct (chan_at M (channel_of b)) as [h body]. destruct (get_pkthd h _) as [[hd r]| | |]; cbn [mbind outcome_bind]; try done.
    destruct (field (body_length hd)) as [blen| | |]; cbn [mbind outcome_bind]; try done. unfold dbg_assert. destruct (_ <=? blen); [|done].
    destruct (_ <? _)%nat; [done|]. destruct (_ <? blen); [by intros [= <- <- <-]|]. intros [= <- <- <-]. by constructor.
Qed.

(** C18. The packets an RTMP parser tells its caller, and its failures, only depend
    on the bytes: whatever the pieces in which they arrive and however often the
    zerotimer expires in between, once it has expired the events are those of the
    whole in one piece, for any caller, and the error of a full buffer is never
    given. *)
Theorem rtmp_pieces cb mx ins : rtmp_room <= mx ->
  same_run (rtmp_run cb (ins ++ [Expire]) (rtmp_parse_ctor mx)) (rtmp_run cb [Data (bytes_in ins); Expire] (rtmp_parse_ctor mx)) /\
  (forall es k n, rtmp_run cb (ins ++ [Expire]) (rtmp_parse_ctor mx) = Ok (es, k) -> RtmpError (ErrBufferMaxlen n) ∉ es).
Proof.
  intros Hmx. pose proof (rtmp_runs cb ins ∅ (rtmp_parse_ctor mx) (ctor_chans mx) Hmx ltac:(done)) as H1.
  pose proof (rtmp_runs cb [Data (bytes_in ins)] ∅ (rtmp_parse_ctor mx) (ctor_chans mx) Hmx ltac:(done)) as H2.
  change ([Data (bytes_in ins)] ++ [Expire]) with [Data (bytes_in ins); Expire] in H2. cbn [bytes_in] in H2. rewrite (app_nil_r (bytes_in ins)) in H2.
  change (m_buffer (rtmp_parse_ctor mx) ++ bytes_in ins) with (bytes_in ins) in *.
  destruct (drain_all (rtmp_turn cb) ∅ (bytes_in ins)) as [[es [[M b]|]]| | |] eqn:Ed; cbn [runs_as] in H1, H2.
  2: rewrite H1, H2; split; [done|]; intros es' k n [= <- <-]; by apply no_full with (cb := cb) (n := n) in Ed.
  2-4: rewrite H1, H2; split; done.
  destruct H1 as (p1 & -> & [HM1 _] & Hb1 & _), H2 as (p2 & -> & [HM2 _] & Hb2 & _). split.
  - split; [done|]. split; [congruence|]. intros ch. by rewrite (hc_at M p1 HM1), (hc_at M p2 HM2).
  - intros es' k n [= <- <-]. by apply no_full with (cb := cb) (n := n) in Ed.
Qed.

(* ------------------------------------------------------------------ *)
(** * A sender *)
(* ------------------------------------------------------------------ *)

(** A header a sender may use for this body. *)
Record pkthd_ok (ch : Z) (h : rtmp_pkthd_t) (body : list Z) : Prop := {
  po_channel : channel_id h = Some ch /\ in_range 6 ch;
  po_time : in_range 24 (timestamp h);
  po_length : body_length h = Some (Z.of_nat (length body)) /\ Z.of_nat (length body) < 2 ^ 24;
  po_type : is_byte (pk_type h);
  po_stream : exists sid, stream_id h = Some sid /\ in_range 32 sid
}.

(** The header with length code [c]: 0 for the whole, 3 for a separator. *)
Definition header_bytes (c : Z) (ch : Z) (h : rtmp_pkthd_t) : list Z :=
  [c * 64 + ch] ++ (if c <=? 2 then be_bytes 3 (timestamp h) else [])
    ++ (if c <=? 1 then be_bytes 3 (default 0 (body_length h)) ++ [pk_type h] else [])
    ++ (if c <=? 0 then rev (be_bytes 4 (default 0 (stream_id h))) else []).

(** What a header of code [c] leaves out is that of the last one. *)
Definition compresses (c : Z) (last : option rtmp_pkthd_t) (h : rtmp_pkthd_t) : Prop :=
  c = 0 \/
  exists h0, last = Some h0 /\ 1 <= c <= 3 /\ stream_id h0 = stream_id h /\
    (2 <= c -> body_length h0 = body_length h /\ pk_type h0 = pk_type h) /\ (c = 3 -> timestamp h0 = timestamp h).

(** The channels of a sender: the last header, what was sent of its packet and
    what remains. *)
Abbreviation tx_state := (gmap Z (rtmp_pkthd_t * list Z * list Z)).
Definition tx_last (T : tx_state) (ch : Z) : option rtmp_pkthd_t := (fun x => x.1.1) <$> T !! ch.
Definition tx_idle (T : tx_state) (ch : Z) : Prop := match T !! ch with Some (_, sent, rest) => sent = [] /\ rest = [] | None => True end.

(** A chunk of at most 128 bytes is sent; the packet ends with the last. *)
Definition tx_chunk (ch : Z) (h : rtmp_pkthd_t) (sent rest : list Z) (T : tx_state) : tx_state * list (rtmp_pkthd_t * list Z) :=
  let sent' := sent ++ take CHUNK_MAXLEN rest in
  if (length rest <=? CHUNK_MAXLEN)%nat then (<[ch := (h, [], [])]> T, [(h, sent')])
  else (<[ch := (h, sent', drop CHUNK_MAXLEN rest)]> T, []).

(** A sender that interleaves its channels as it likes: the bytes, and the
    packets completed, in order. *)
Inductive sends : tx_state -> list Z -> list (rtmp_pkthd_t * list Z) -> tx_state -> Prop :=
| sends_nothing T : sends T [] [] T
| sends_first T c ch h body T' done bs pks T'' :
    pkthd_ok ch h body -> tx_idle T ch -> compresses c (tx_last T ch) h -> tx_chunk ch h [] body T = (T', done) ->
    sends T' bs pks T'' -> sends T (header_bytes c ch h ++ take CHUNK_MAXLEN body ++ bs) (done ++ pks) T''
| sends_next T ch h sent rest T' done bs pks T'' :
    T !! ch = Some (h, sent, rest) -> rest <> [] -> tx_chunk ch h sent rest T = (T', done) ->
    sends T' bs pks T'' -> sends T ([192 + ch] ++ take CHUNK_MAXLEN rest ++ bs) (done ++ pks) T''.

(* ------------------------------------------------------------------ *)
(** * What is sent is received *)
(* ------------------------------------------------------------------ *)

Lemma bswap32_range v : in_range 32 (NEOIP_BSWAP32 v).
Proof. by apply wrap_range. Qed.
Lemma bswap32_bytes v : in_range 32 v -> be_bytes 4 (NEOIP_BSWAP32 v) = rev (be_bytes 4 v).
Proof. intros Hv. rewrite <- (bswap32_swaps v Hv). by rewrite rev_involutive. Qed.
Lemma bswap32_twice v : in_range 32 v -> NEOIP_BSWAP32 (NEOIP_BSWAP32 v) = v.
Proof.
  intros Hv. rewrite <- (be_value_bytes_small 4 (NEOIP_BSWAP32 (NEOIP_BSWAP32 v))) by apply bswap32_range.
  rewrite bswap32_bytes, bswap32_bytes, rev_involutive by (done || apply bswap32_range). by apply be_value_bytes_small.
Qed.

Lemma sid_get sid rest : in_range 32 sid -> wire_get u32_codec (rev (be_bytes 4 sid) ++ rest) = Ok (NEOIP_BSWAP32 sid, rest).
Proof. intros Hs. rewrite <- bswap32_bytes by done. change (be_bytes 4 ?x) with (wire_put u32_codec x). apply wire_get_put. apply bswap32_range. Qed.

Definition code_len (c : Z) : nat := if c =? 0 then 12%nat else if c =? 1 then 8%nat else if c =? 2 then 4%nat else 1%nat.
(** The first byte. *)
Lemma first_byte c ch : 0 <= c <= 3 -> in_range 6 ch ->
  is_byte (c * 64 + ch) /\ channel_of (c * 64 + ch) = ch /\ pkthd_len_of (c * 64 + ch) = Ok (code_len c).
Proof.
  unfold is_byte, in_range, channel_of, pkthd_len_of. change (2 ^ 6) with 64. change (2 ^ 8) with 256. intros Hc Hch. split; [lia|].
  change 63 with (Z.ones 6). change 3 with (Z.ones 2). rewrite !Z.land_ones, Z.shiftr_div_pow2 by lia. change (2 ^ 6) with 64. change (2 ^ 2) with 4.
  split; [rewrite Z.add_comm, Z.mod_add, Z.mod_small by lia; done|]. rewrite Z.div_add_l, (Z.div_small ch), Z.add_0_r, Z.mod_small by lia.
  assert (c = 0 \/ c = 1 \/ c = 2 \/ c = 3) as [-> |[-> |[-> | ->]]] by lia; reflexivity.
Qed.

Lemma header_bytes_length c ch h : 0 <= c <= 3 -> length (header_bytes c ch h) = (code_len c).
Proof. intros Hc. unfold header_bytes. assert (c = 0 \/ c = 1 \/ c = 2 \/ c = 3) as [-> |[-> |[-> | ->]]] by lia; reflexivity. Qed.

(** Reading a header after the last one of its channel. *)
Lemma header_get c ch h h0 body : pkthd_ok ch h body -> compresses c (Some h0) h \/ (c = 0) ->
  get_pkthd h0 (header_bytes c ch h) = Ok (h, []).
Proof.
  intros [[Hid Hch] Ht [Hl Hlb] Hty (sid & Hsid & Hsr)] Hc. 
  assert (Hc3 : 0 <= c <= 3) by (destruct Hc as [[|(x & _ & ? & _)]|]; lia).
  destruct (first_byte c ch Hc3 Hch) as (Hb & Hchan & Hlen). unfold get_pkthd, header_bytes. cbn [app]. rewrite byte_get by done. cbn [mbind outcome_bind].
  rewrite Hlen, Hchan. cbn [mbind outcome_bind]. unfold pkthd_is_null, RTMP_TYPE_NONE.
  assert (Hnn : (pk_type h =? -1) = false) by (apply Z.eqb_neq; unfold is_byte, in_range in Hty; lia).
  assert (Hlr : in_range 24 (Z.of_nat (length body))) by (unfold in_range; lia).
  destruct h as [id ts bl ty sd]. cbn [channel_id timestamp body_length pk_type stream_id] in *. subst id bl sd.
  assert (Hcase : c = 0 \/ c = 1 \/ c = 2 \/ c = 3) by lia. destruct Hcase as [-> |Hcase].
  - cbn [Z.eqb Z.leb Z.compare Pos.compare Pos.compare_cont Nat.leb Nat.eqb from_option id code_len Pos.eqb]. rewrite u24_get by done. cbn [mbind outcome_bind]. rewrite <- app_assoc, u24_get by done.
    cbn [mbind outcome_bind app]. rewrite byte_get by done. cbn [mbind outcome_bind]. rewrite <- (app_nil_r (rev (be_bytes 4 sid))), sid_get by done.
    cbn [mbind outcome_bind pk_type]. rewrite Hnn. by rewrite bswap32_twice.
  - destruct Hc as [[|(x & [= <-] & _ & Hs & Hlt & Htm)]|]; [lia| |lia]. destruct h0 as [id0 ts0 bl0 ty0 sd0].
    cbn [channel_id timestamp body_length pk_type stream_id] in *. subst sd0. destruct Hcase as [-> |[-> | ->]].
    + cbn [Z.eqb Z.leb Z.compare Pos.compare Pos.compare_cont Nat.leb Nat.eqb from_option id code_len Pos.eqb]. rewrite u24_get by done. cbn [mbind outcome_bind]. rewrite app_nil_r, u24_get by done.
      cbn [mbind outcome_bind app]. rewrite byte_get by done. cbn [mbind outcome_bind pk_type]. by rewrite Hnn.
    + destruct (Hlt ltac:(lia)) as [-> ->]. cbn [Z.eqb Z.leb Z.compare Pos.compare Pos.compare_cont Nat.leb Nat.eqb from_option id code_len Pos.eqb]. rewrite app_nil_r, <- (app_nil_r (be_bytes 3 ts)), u24_get by done.
      cbn [mbind outcome_bind pk_type]. by rewrite Hnn.
    + destruct (Hlt ltac:(lia)) as [-> ->]. rewrite (Htm eq_refl). cbn. by rewrite Hnn.
Qed.

Definition keep : rtmp_event_t -> bool := fun _ => true.
Definition packet_event (p : rtmp_pkthd_t * list Z) : rtmp_event_t := RtmpPacket p.1 p.2.

(** The parser's channels against the sender's. *)
Definition in_step (T : tx_state) (M : chans) : Prop :=
  forall ch, match T !! ch with
  | None => chan_at M ch = chan_new
  | Some (h, sent, rest) => chan_at M ch = (h, sent) /\
      ((sent = [] /\ rest = []) \/ (exists body, pkthd_ok ch h body /\ body = sent ++ rest))
  end.

Lemma turn_chunk M T c ch h sent rest h0 T' done :
  in_step T M -> chan_at M ch = (h0, sent) -> pkthd_ok ch h (sent ++ rest) -> compresses c (Some h0) h \/ c = 0 -> tx_chunk ch h sent rest T = (T', done) ->
  exists M', in_step T' M' /\
    rtmp_turn keep M (header_bytes c ch h ++ take CHUNK_MAXLEN rest) =
    Ok (Emit (length (header_bytes c ch h ++ take CHUNK_MAXLEN rest)) (packet_event <$> done) (Some M')).
Proof.
  intros HT HM Hok Hc Htx. pose proof (header_get c ch h h0 _ Hok Hc) as Hget. assert (Hc3 : 0 <= c <= 3) by (destruct Hc as [[|(x & _ & ? & _)]|]; lia).
  pose proof Hok as [[Hid Hch] Ht [Hl Hlb] Hty Hsd]. destruct (first_byte c ch Hc3 Hch) as (Hb & Hchan & Hlen). pose proof (header_bytes_length c ch h Hc3) as Hhl.
  unfold rtmp_turn. destruct (header_bytes c ch h ++ take CHUNK_MAXLEN rest) as [|b l] eqn:Ebl; [exfalso|].
  { apply app_nil in Ebl as [E _]. rewrite E in Hhl. unfold code_len in Hhl. by repeat case_match. }
  assert (Hfb : b = c * 64 + ch) by (unfold header_bytes in Ebl; by inversion Ebl). rewrite Hfb, Hlen, Hchan, <- Hfb, <- Ebl. cbn [mbind outcome_bind].
  rewrite length_app, Hhl. rewrite (proj2 (Nat.ltb_ge _ _)) by lia. rewrite HM, take_app_length' by done. rewrite Hget. cbn [mbind outcome_bind].
  rewrite Hl. cbn [field mbind outcome_bind]. unfold dbg_assert. rewrite length_app in *. rewrite (proj2 (Z.leb_le _ _)) by lia.
  rewrite drop_app_length' by done. unfold CHUNK_MAXLEN in *.
  replace (Z.to_nat (Z.min _ (Z.of_nat 128))) with (length (take 128 rest)) by (rewrite length_take; lia).
  rewrite (proj2 (Nat.ltb_ge _ _)) by lia. rewrite (take_ge (take 128 rest)) by lia.
  unfold tx_chunk, CHUNK_MAXLEN in Htx. destruct (Nat.leb_spec (length rest) 128) as [Hle|Hgt]; injection Htx as <- <-; rewrite length_app.
  - rewrite take_ge by done. rewrite (proj2 (Z.ltb_ge _ _)) by lia. cbn [keep]. exists (<[ch := (h, [])]> M). split; [|done].
    intros ch'. destruct (decide (ch' = ch)) as [->|Hne]; [rewrite lookup_insert_eq, chan_at_insert, decide_True by done; auto|].
    rewrite lookup_insert_ne, chan_at_insert, decide_False by done. apply HT.
  - rewrite (proj2 (Z.ltb_lt _ _)) by (rewrite length_take; lia). exists (<[ch := (h, sent ++ take 128 rest)]> M). split; [|done].
    intros ch'. destruct (decide (ch' = ch)) as [->|Hne].
    + rewrite lookup_insert_eq, chan_at_insert, decide_True by done. split; [done|]. right. exists (sent ++ rest). split; [done|].
      by rewrite <- app_assoc, take_drop.
    + rewrite lookup_insert_ne, chan_at_insert, decide_False by done. apply HT.
Qed.

Lemma sends_received T bs pks T' : sends T bs pks T' -> forall M, in_step T M ->
  exists M', drain_all (rtmp_turn keep) M bs = Ok (packet_event <$> pks, Some (M', [])) /\ in_step T' M'.
Proof.
  induction 1 as [T|T c ch h body T1 out bs pks T2 Hok Hidle Hc Htx Hs IH|T ch h sent rest T1 out bs pks T2 Hlk Hne Htx Hs IH]; intros M HT.
  - exists M. split; [by rewrite (drain_waits (rtmp_turn keep) M [] eq_refl)|done].
  - assert (exists h0, chan_at M ch = (h0, []) /\ (compresses c (Some h0) h \/ c = 0)) as (h0 & HM & Hc').
    { specialize (HT ch). unfold tx_idle, tx_last in *. destruct (T !! ch) as [[[h0 sent] rest]|].
      - destruct HT as [HM _], Hidle as [-> _]. exists h0. split; [done|]. by left.
      - exists pkthd_ctor. split; [done|]. right. destruct Hc as [|(x & [=] & _)]; done. }
    destruct (turn_chunk M T c ch h [] body h0 T1 out HT HM Hok Hc' Htx) as (M1 & HT1 & Et). destruct (IH M1 HT1) as (M2 & Ed & HT2). exists M2. split; [|done].
    rewrite app_assoc, (drain_unit _ M _ bs _ M1 Et), Ed. cbn [mbind outcome_bind]. by rewrite fmap_app.
  - specialize (HT ch) as Hch. rewrite Hlk in Hch. destruct Hch as [HM Hch]. destruct Hch as [[_ ?]|(body & Hok & ->)]; [done|].
    assert (Hc : compresses 3 (Some h) h) by (right; by exists h). destruct (turn_chunk M T 3 ch h sent rest h T1 out HT HM Hok (or_introl Hc) Htx) as (M1 & HT1 & Et).
    destruct (IH M1 HT1) as (M2 & Ed & HT2). exists M2. split; [|done].
    change ([192 + ch] ++ take CHUNK_MAXLEN rest ++ bs) with (([3 * 64 + ch] ++ [] ++ [] ++ []) ++ take CHUNK_MAXLEN rest ++ bs).
    change ([3 * 64 + ch] ++ [] ++ [] ++ []) with (header_bytes 3 ch h). rewrite app_assoc, (drain_unit _ M _ bs _ M1 Et), Ed. cbn [mbind outcome_bind]. by rewrite fmap_app.
Qed.

Lemma run_drained cb ins mx es M : rtmp_room <= mx -> drain_all (rtmp_turn cb) ∅ (bytes_in ins) = Ok (es, Some (M, [])) ->
  exists p, rtmp_run cb (ins ++ [Expire]) (rtmp_parse_ctor mx) = Ok (es, Some p) /\ m_buffer p = [].
Proof.
  intros Hmx Ed. pose proof (rtmp_runs cb ins ∅ (rtmp_parse_ctor mx) (ctor_chans mx) Hmx ltac:(done)) as H. cbn [m_buffer rtmp_parse_ctor app] in H. rewrite Ed in H.
  destruct H as (p & -> & _ & Hp & _). by exists p.
Qed.
Lemma sends_drained bs pks T : sends ∅ bs pks T -> exists M, drain_all (rtmp_turn keep) ∅ bs = Ok (packet_event <$> pks, Some (M, [])).
Proof.
  intros Hs. assert (H0 : in_step ∅ ∅) by (intros ch; by rewrite lookup_empty). destruct (sends_received ∅ bs pks T Hs ∅ H0) as (M & Ed & _). by exists M.
Qed.

(** C17. What is sent is received: if the bytes of a sender, which cuts its packets
    in chunks of 128 bytes, interleaves its channels and leaves out of a header what
    it shares with the last of its channel, arrive in any pieces, the caller is told
    of exactly the packets completed, with their full headers, in the order
    of their last chunks. *)
Theorem rtmp_delivers bs pks T mx ins : sends ∅ bs pks T -> bytes_in ins = bs -> rtmp_room <= mx ->
  exists p, rtmp_run keep (ins ++ [Expire]) (rtmp_parse_ctor mx) = Ok (packet_event <$> pks, Some p) /\ m_buffer p = [].
Proof.
  intros Hs <- Hmx. destruct (sends_drained _ pks T Hs) as (M & Ed). by apply (run_drained keep ins mx _ M).
Qed.

(* ------------------------------------------------------------------ *)
(** * The builder is such a sender *)
(* ------------------------------------------------------------------ *)

(** A header the builder accepts: it sets the length itself. *)
Record buildable (ch : Z) (h : rtmp_pkthd_t) (body : list Z) : Prop := {
  bu_channel : channel_id h = Some ch /\ in_range 6 ch;
  bu_time : in_range 24 (timestamp h);
  bu_length : Z.of_nat (length body) < 2 ^ 24;
  bu_type : is_byte (pk_type h);
  bu_stream : exists sid, stream_id h = Some sid /\ in_range 32 sid
}.
Definition with_length (h : rtmp_pkthd_t) (body : list Z) : rtmp_pkthd_t :=
  Pkthd (channel_id h) (timestamp h) (Some (Z.of_nat (length body))) (pk_type h) (stream_id h).

Lemma with_length_ok ch h body : buildable ch h body -> pkthd_ok ch (with_length h body) body.
Proof. intros [H1 H2 H3 H4 H5]. by split. Qed.

Lemma put_pkthd_bytes ch h body : pkthd_ok ch h body -> put_pkthd h = Ok (header_bytes 0 ch h).
Proof.
  intros [[Hid Hch] Ht [Hl Hlb] Hty (sid & Hsid & Hsr)]. unfold put_pkthd. rewrite Hid, Hl, Hsid. cbn [field mbind outcome_bind].
  unfold in_range in *. change (2 ^ 24) with 16777216 in *. rewrite (wrap_small 32) by (unfold in_range; change (2 ^ 32) with 4294967296; lia).
  rewrite !doserial_24 by (unfold in_range; change (2 ^ 24) with 16777216; lia). cbn [mbind outcome_bind]. f_equal. unfold header_bytes. rewrite Hl, Hsid.
  cbn [Z.leb Z.compare from_option id]. change (wire_put u32_codec ?x) with (be_bytes 4 x). rewrite bswap32_bytes by done.
  assert (Hb : forall b, 0 <= b < 256 -> wire_put u8_codec b = [b]) by (intros b Hb; cbn; by rewrite Z.mod_small).
  change (2 ^ 6) with 64 in *. rewrite Hb by lia. rewrite wrap_small by done. unfold is_byte, in_range in Hty. change (2 ^ 8) with 256 in Hty. rewrite Hb by done.
  cbn [app]. by rewrite <- !app_assoc.
Qed.

Lemma separator ch : in_range 6 ch -> wire_put u8_codec (wrap 8 (Z.lor 0xC0 ch)) = [192 + ch].
Proof.
  unfold in_range. change (2 ^ 6) with 64. intros Hch.
  assert (forallb (fun n => wrap 8 (Z.lor 192 (Z.of_nat n)) =? 192 + Z.of_nat n) (seq 0 64) = true) as H by (vm_compute; reflexivity).
  rewrite forallb_forall in H. specialize (H (Z.to_nat ch)). rewrite in_seq in H. specialize (H ltac:(lia)). apply Z.eqb_eq in H. rewrite Z2Nat.id in H by lia.
  rewrite H. cbn. by rewrite Z.mod_small by lia.
Qed.

(** The chunks after the first. *)
Lemma build_loop_sends fuel ch h body off T : in_range 6 ch -> (length body - off < fuel)%nat -> (0 < off)%nat ->
  ((off < length body)%nat -> T !! ch = Some (h, take off body, drop off body)) -> ((length body <= off)%nat -> T !! ch = Some (h, [], [])) ->
  exists bs, build_loop fuel ch body off = Ok bs /\
    forall bs' pks T2, sends (<[ch := (h, [], [])]> T) bs' pks T2 ->
      sends T (bs ++ bs') ((if (off <? length body)%nat then [(h, body)] else []) ++ pks) T2.
Proof.
  intros Hch. revert off T. induction fuel as [|fuel IH]; intros off T Hf Ho Hlt Hge; [lia|]. cbn [build_loop].
  destruct (Nat.ltb_spec off (length body)) as [Hl|Hl].
  - rewrite (proj2 (Nat.ltb_lt _ _)) by lia. rewrite separator by done. replace (Nat.min (length body - off) CHUNK_MAXLEN) with (Nat.min (length (drop off body)) CHUNK_MAXLEN) by (by rewrite length_drop).
    specialize (Hlt Hl). set (rest := drop off body) in *. assert (Hr : rest <> []) by (intros E; apply (f_equal length) in E; unfold rest in E; rewrite length_drop in E; cbn in E; lia).
    replace (take (Nat.min (length rest) CHUNK_MAXLEN) rest) with (take CHUNK_MAXLEN rest) by (destruct (Nat.min_spec (length rest) CHUNK_MAXLEN) as [[? ->]|[? ->]]; [by rewrite firstn_all, take_ge by lia|done]).
    destruct (tx_chunk ch h (take off body) rest T) as [T1 out] eqn:Etx. pose proof Etx as Etx'. unfold tx_chunk in Etx. unfold rest in Etx. rewrite length_drop in Etx.
    rewrite take_take_drop, drop_drop in Etx. destruct (Nat.leb_spec (length body - off) CHUNK_MAXLEN) as [Hc|Hc]; injection Etx as <- <-.
    + destruct (IH (off + CHUNK_MAXLEN)%nat (<[ch := (h, [], [])]> T)) as (bs & -> & Hbs); [unfold CHUNK_MAXLEN in *; lia..|unfold CHUNK_MAXLEN in *; lia| |].
      { intros _. apply lookup_insert_eq. }
      cbn [mbind outcome_bind]. eexists. split; [done|]. intros bs' pks T2 Hs. rewrite insert_insert_eq in Hbs. specialize (Hbs bs' pks T2 Hs).
      rewrite (proj2 (Nat.ltb_ge _ _)) in Hbs by (unfold CHUNK_MAXLEN in *; lia). rewrite <- !app_assoc.
      rewrite (take_ge body (off + CHUNK_MAXLEN)) in Etx' by (unfold CHUNK_MAXLEN in *; lia). by apply (sends_next T ch h (take off body) rest _ _ _ _ T2 Hlt Hr Etx').
    + destruct (IH (off + CHUNK_MAXLEN)%nat (<[ch := (h, take (off + CHUNK_MAXLEN) body, drop (off + CHUNK_MAXLEN) body)]> T)) as (bs & -> & Hbs); [unfold CHUNK_MAXLEN in *; lia..| | |].
      { intros _. apply lookup_insert_eq. }
      { unfold CHUNK_MAXLEN in *. lia. }
      cbn [mbind outcome_bind]. eexists. split; [done|]. intros bs' pks T2 Hs. rewrite insert_insert_eq in Hbs. specialize (Hbs bs' pks T2 Hs).
      rewrite (proj2 (Nat.ltb_lt _ _)) in Hbs by (unfold CHUNK_MAXLEN in *; lia). rewrite <- !app_assoc.
      by apply (sends_next T ch h (take off body) rest _ _ _ _ T2 Hlt Hr Etx').
  - exists []. split; [done|]. intros bs' pks T2 Hs. cbn [app]. by rewrite insert_id in Hs by auto.
Qed.

Lemma serialize_sends ch h body T : buildable ch h body -> tx_idle T ch ->
  exists bs T1, rtmp_serialize h body = Ok bs /\ (forall ch', tx_idle T ch' -> tx_idle T1 ch') /\
    forall bs' pks T2, sends T1 bs' pks T2 -> sends T (bs ++ bs') ((with_length h body, body) :: pks) T2.
Proof.
  intros Hbu Hidle. pose proof (with_length_ok ch h body Hbu) as Hok. set (h1 := with_length h body) in *. pose proof Hok as [[Hid Hch] _ _ _ _].
  exists (header_bytes 0 ch h1 ++ match build_loop (S (length body)) ch body 0 with Ok bs => bs | _ => [] end), (<[ch := (h1, [], [])]> T).
  unfold rtmp_serialize. fold (with_length h body). fold h1. rewrite (put_pkthd_bytes ch h1 body Hok). cbn [mbind outcome_bind]. rewrite Hid. cbn [field mbind outcome_bind].
  assert (Hidle' : forall ch', tx_idle T ch' -> tx_idle (<[ch := (h1, [], [])]> T) ch').
  { intros ch'. unfold tx_idle. destruct (decide (ch' = ch)) as [->|]; [by rewrite lookup_insert_eq|by rewrite lookup_insert_ne by done]. }
  cbn [build_loop]. rewrite Nat.sub_0_r, drop_0. destruct (Nat.ltb_spec 0 (length body)) as [Hl|Hl].
  - replace (take (Nat.min (length body) CHUNK_MAXLEN) body) with (take CHUNK_MAXLEN body) by (destruct (Nat.min_spec (length body) CHUNK_MAXLEN) as [[? ->]|[? ->]]; [by rewrite firstn_all, take_ge by lia|done]).
    cbn [Nat.ltb Nat.leb Nat.add]. destruct (tx_chunk ch h1 [] body T) as [T1 out] eqn:Etx. pose proof Etx as Etx'. unfold tx_chunk in Etx.
    destruct (build_loop_sends (length body) ch h1 body CHUNK_MAXLEN T1 Hch) as (bs & E & Hbs); [unfold CHUNK_MAXLEN in *; lia..| | |].
    { intros Hlt. rewrite (proj2 (Nat.leb_gt _ _)) in Etx by lia. injection Etx as <- _. apply lookup_insert_eq. }
    { intros Hge. rewrite (proj2 (Nat.leb_le _ _)) in Etx by lia. injection Etx as <- _. apply lookup_insert_eq. }
    rewrite E. cbn [mbind outcome_bind app]. split; [done|]. split; [done|]. intros bs' pks T2 Hs. rewrite <- !app_assoc.
    assert (Hs1 : sends (<[ch := (h1, [], [])]> T1) bs' pks T2) by (destruct (_ <=? _)%nat; injection Etx as <- _; by rewrite insert_insert_eq).
    specialize (Hbs bs' pks T2 Hs1). pose proof (sends_first T 0 ch h1 body T1 out _ _ T2 Hok Hidle (or_introl eq_refl) Etx' Hbs) as H.
    replace ((h1, body) :: pks) with (out ++ (if (CHUNK_MAXLEN <? length body)%nat then [(h1, body)] else []) ++ pks); [done|].
    destruct (Nat.leb_spec (length body) CHUNK_MAXLEN) as [Hc|Hc]; injection Etx as _ <-.
    + rewrite (proj2 (Nat.ltb_ge _ _)) by lia. cbn [app]. by rewrite take_ge by lia.
    + by rewrite (proj2 (Nat.ltb_lt _ _)) by lia.
  - assert (body = []) as -> by (destruct body; [done|cbn in Hl; lia]). cbn [mbind outcome_bind]. split; [by rewrite app_nil_r|]. split; [done|].
    intros bs' pks T2 Hs. rewrite <- !app_assoc. cbn [app]. apply (sends_first T 0 ch h1 [] (<[ch := (h1, [], [])]> T) [(h1, [])] bs' pks T2); auto. by left.
Qed.

Definition sent_packet (p : rtmp_pkthd_t * list Z) : rtmp_pkthd_t * list Z := (with_length p.1 p.2, p.2).
Lemma serialize_all pks T : Forall (fun p => exists ch, buildable ch p.1 p.2) pks -> (forall ch, True -> tx_idle T ch) ->
  exists bss, mapM (fun p => rtmp_serialize p.1 p.2) pks = Ok bss /\ exists T2, sends T (concat bss) (sent_packet <$> pks) T2.
Proof.
  revert T. induction pks as [|[h body] pks IH]; intros T Hp Hidle; [exists []; split; [done|exists T; constructor]|].
  apply Forall_cons in Hp as [(ch & Hb) Hp]. destruct (serialize_sends ch h body T Hb (Hidle ch I)) as (bs & T1 & E & Hi & Hs).
  destruct (IH T1 Hp) as (bss & Es & T2 & Hs2); [intros ch' _; by apply Hi, Hidle|]. exists (bs :: bss). split; [|exists T2; by apply Hs].
  cbn [mapM fst snd]. rewrite E. cbn [mbind outcome_bind]. rewrite Es. done.
Qed.

(** What [rtmp_build_t] builds is parsed back: packets built one after another,
    on any channels, and received in any pieces, are told to the caller one by one, each
    with the header given to the builder and the length of its body. *)
Theorem rtmp_build_parse (pks : list (rtmp_pkthd_t * list Z)) mx ins :
  Forall (fun p => exists ch, buildable ch p.1 p.2) pks -> rtmp_room <= mx ->
  exists bss, mapM (fun p => rtmp_serialize p.1 p.2) pks = Ok bss /\
    (bytes_in ins = concat bss -> exists p, rtmp_run keep (ins ++ [Expire]) (rtmp_parse_ctor mx) =
      Ok ((fun p => RtmpPacket (with_length p.1 p.2) p.2) <$> pks, Some p) /\ m_buffer p = []).
Proof.
  intros Hp Hmx. destruct (serialize_all pks ∅ Hp) as (bss & E & T2 & Hs); [intros ch _; unfold tx_idle; by rewrite lookup_empty|].
  exists bss. split; [done|]. intros Hb. destruct (sends_drained _ _ _ Hs) as (M & Ed). rewrite <- Hb in Ed.
  destruct (run_drained keep ins mx _ M Hmx Ed) as (p & -> & Hp0). exists p. by rewrite <- list_fmap_compose.
Qed.

(* ------------------------------------------------------------------ *)
(** * Failures *)
(* ------------------------------------------------------------------ *)

(** A header that is not null has a length. *)
Definition typed (h : rtmp_pkthd_t) : Prop := pkthd_is_null h = false -> body_length h <> None.
Definition typed_chans (M : chans) : Prop := forall ch, typed (chan_at M ch).1.

Lemma get_pkthd_typed h l hd r : typed h -> get_pkthd h l = Ok (hd, r) -> body_length hd <> None.
Proof.
  intros Hh. unfold get_pkthd. destruct (wire_get u8_codec l) as [[b l1]| | |]; cbn [mbind outcome_bind]; try done.
  destruct (pkthd_len_cases b) as (n & -> & Hn). cbn [mbind outcome_bind].
  destruct Hn as [-> |[-> |[-> | ->]]]; cbn [Nat.leb Nat.eqb].
  all: repeat (match goal with
    | |- context [UNSERIAL_24BIT ?x] => destruct (UNSERIAL_24BIT x) as [[? ?]| | |]; cbn [mbind outcome_bind]; try done
    | |- context [wire_get ?c ?x] => destruct (wire_get c x) as [[? ?]| | |]; cbn [mbind outcome_bind]; try done
    end).
  all: cbn [mbind outcome_bind]; unfold typed, pkthd_is_null in *; cbn [pk_type body_length];
    match goal with |- context [if ?c then Throw _ else _] => destruct c eqn:E end; try done; intros [= <- _]; cbn [body_length]; auto.
Qed.

Lemma get_pkthd_no_fault h l : get_pkthd h l <> Fault.
Proof.
  unfold get_pkthd. assert (H8 : forall l, wire_get u8_codec l <> Fault /\ wire_get u32_codec l <> Fault).
  { intros l'. cbn. unfold wire_uint, wire_get_head. by split; case_bool_decide. }
  pose proof unserial_24_no_fault as H24.
  destruct (H8 l) as [? _]. destruct (wire_get u8_codec l) as [[b l1]| | |]; cbn [mbind outcome_bind]; try done.
  destruct (pkthd_len_cases b) as (n & -> & Hn). cbn [mbind outcome_bind].
  destruct Hn as [-> |[-> |[-> | ->]]]; cbn [Nat.leb Nat.eqb].
  all: repeat (match goal with
    | |- context [UNSERIAL_24BIT ?x] => pose proof (H24 x); destruct (UNSERIAL_24BIT x) as [[? ?]| | |]; cbn [mbind outcome_bind]; try done
    | |- context [wire_get ?c ?x] => destruct (H8 x) as [? ?]; destruct (wire_get c x) as [[? ?]| | |]; cbn [mbind outcome_bind]; try done
    end).
  all: unfold pkthd_is_null; cbn [mbind outcome_bind pk_type]; by destruct (_ =? _).
Qed.

Lemma turn_typed cb M l : typed_chans M ->
  rtmp_turn cb M l <> Fault /\ (forall n es M', rtmp_turn cb M l = Ok (Emit n es (Some M')) -> typed_chans M').
Proof.
  intros HM. unfold rtmp_turn. destruct l as [|b l]; [done|]. destruct (pkthd_len_cases b) as (m & -> & _). cbn [mbind outcome_bind].
  destruct (_ <? _)%nat; [done|]. specialize (HM (channel_of b)) as Hh. destruct (chan_at M (channel_of b)) as [h body] eqn:Eat. cbn [fst] in Hh.
  pose proof (get_pkthd_no_fault h (take m (b :: l))) as Hnf. destruct (get_pkthd h _) as [[hd r]| | |] eqn:Eg; cbn [mbind outcome_bind]; try done.
  apply get_pkthd_typed in Eg; [|done]. destruct (body_length hd) as [blen|] eqn:Ebl; [|done]. cbn [field mbind outcome_bind]. unfold dbg_assert. destruct (_ <=? blen); [|done].
  assert (Hi : forall x, typed_chans (<[channel_of b := (hd, x)]> M)).
  { intros x ch. rewrite chan_at_insert. case_decide; [intros _; cbn; congruence|apply HM]. }
  destruct (_ <? _)%nat; [done|]. destruct (_ <? blen).
  - split; [done|]. intros ? ? ? [= <- <- <-]. apply Hi.
  - split; [done|]. destruct (cb _); [|done]. intros ? ? ? [= <- <- <-]. apply Hi.
Qed.

(** C37. On any bytes the parser never reads what was never set and its loop ends;
    but two streams kill the process: a short header that is the first of its
    channel lets an exception out of a function that may throw none, and a header
    in the middle of a packet that says the packet is shorter than what was
    received fails an assertion.  A first header of eight bytes gives the caller
    a packet whose stream id was never set. *)
Theorem rtmp_failures cb mx ins : rtmp_room <= mx ->
  rtmp_run cb (ins ++ [Expire]) (rtmp_parse_ctor mx) <> Fault /\
  rtmp_run cb [Data [0xC3]; Expire] (rtmp_parse_ctor mx) = Throw "Invalid null rtmp_pkthd_t" /\
  rtmp_run cb [Data ([3; 0; 0; 0; 0; 0; 129; 20; 0; 0; 0; 0] ++ replicate 128 7 ++ [0x43; 0; 0; 0; 0; 0; 1; 20]); Expire] (rtmp_parse_ctor mx) = AssertFail /\
  (cb (RtmpPacket (Pkthd (Some 3) 0 (Some 1) 20 None) [7]) = true ->
   exists p, rtmp_run cb [Data [0x43; 0; 0; 0; 0; 0; 1; 20; 7]; Expire] (rtmp_parse_ctor mx) = Ok ([RtmpPacket (Pkthd (Some 3) 0 (Some 1) 20 None) [7]], Some p)).
Proof.
  intros Hmx. assert (Hrun : forall ins, runs_as zerotimer m_buffer (rtmp_rep mx) (drain_all (rtmp_turn cb) ∅ (bytes_in ins)) (rtmp_run cb (ins ++ [Expire]) (rtmp_parse_ctor mx)))
    by (intros i; apply (rtmp_runs cb i ∅ (rtmp_parse_ctor mx) (ctor_chans mx) Hmx); done).
  split; [|split; [reflexivity|split; [reflexivity|]]].
  - specialize (Hrun ins). assert (Hnf : drain_all (rtmp_turn cb) ∅ (bytes_in ins) <> Fault).
    { apply (drain_no_fault (rtmp_turn cb) typed_chans).
      - intros s l Hs. by apply turn_typed.
      - intros s l n es s' Hs E. by apply (proj2 (turn_typed cb s l Hs) n es).
      - intros ch. unfold chan_at. by rewrite lookup_empty. }
    destruct (drain_all _ _ _) as [[es [[M b]|]]| | |]; cbn [runs_as] in Hrun; [by destruct Hrun as (p & -> & _)|by rewrite Hrun..|done].
  - intros Hcb. specialize (Hrun [Data [0x43; 0; 0; 0; 0; 0; 1; 20; 7]]).
    assert (Ed : drain_all (rtmp_turn cb) ∅ (bytes_in [Data [0x43; 0; 0; 0; 0; 0; 1; 20; 7]]) = Ok ([RtmpPacket (Pkthd (Some 3) 0 (Some 1) 20 None) [7]],
      Some (<[3 := (Pkthd (Some 3) 0 (Some 1) 20 None, [])]> ∅, []))).
    { rewrite (drain_unfold (rtmp_turn cb)). assert (Et : rtmp_turn cb ∅ [0x43; 0; 0; 0; 0; 0; 1; 20; 7] = Ok (Emit 9 [RtmpPacket (Pkthd (Some 3) 0 (Some 1) 20 None) [7]]
        (if cb (RtmpPacket (Pkthd (Some 3) 0 (Some 1) 20 None) [7]) then Some (<[3 := (Pkthd (Some 3) 0 (Some 1) 20 None, [])]> ∅) else None))) by reflexivity.
      cbn [bytes_in app]. rewrite Et, Hcb. cbn [mbind outcome_bind drop]. by rewrite (drain_waits (rtmp_turn cb)). }
    rewrite Ed in Hrun. destruct Hrun as (p & Hp & _). by exists p.
Qed.

(* ------------------------------------------------------------------ *)
(** * Witnesses *)
(* ------------------------------------------------------------------ *)

Definition ex_hd : rtmp_pkthd_t := Pkthd (Some 3) 1000 (Some 130) 20 (Some 1).
Definition ex_body : list Z := replicate 130 7.
Definition ex_hd2 : rtmp_pkthd_t := Pkthd (Some 5) 0 (Some 1) 8 (Some 0).

Lemma rtmp_pieces_witness :
  same_run (rtmp_run keep ([Data [0x43; 0; 0; 0]; Expire; Data [0; 0; 1; 20; 7]] ++ [Expire]) (rtmp_parse_ctor BUFFER_MAXLEN))
           (rtmp_run keep [Data [0x43; 0; 0; 0; 0; 0; 1; 20; 7]; Expire] (rtmp_parse_ctor BUFFER_MAXLEN)).
Proof.
  apply (rtmp_pieces keep BUFFER_MAXLEN [Data [0x43; 0; 0; 0]; Expire; Data [0; 0; 1; 20; 7]]). by vm_compute.
Defined.

(** Two channels interleaved, in two pieces. *)
Lemma rtmp_delivers_witness : exists p,
  rtmp_run keep ([Data (header_bytes 0 3 ex_hd ++ replicate 100 7); Expire; Data (replicate 28 7 ++ header_bytes 0 5 ex_hd2 ++ [9] ++ [195; 7; 7])] ++ [Expire])
    (rtmp_parse_ctor BUFFER_MAXLEN) = Ok ([RtmpPacket ex_hd2 [9]; RtmpPacket ex_hd ex_body], Some p).
Proof.
  assert (H3 : pkthd_ok 3 ex_hd ex_body) by (split; [by split| by vm_compute |by split|by split|by exists 1]).
  assert (H5 : pkthd_ok 5 ex_hd2 [9]) by (split; [by split| by vm_compute |by split|by split|by exists 0]).
  pose proof (sends_next (<[5 := (ex_hd2, [], [])]> (<[3 := (ex_hd, replicate 128 7, [7; 7])]> ∅)) 3 ex_hd (replicate 128 7) [7; 7] _ _ [] [] _ eq_refl ltac:(done) eq_refl (sends_nothing _)) as S3.
  pose proof (sends_first (<[3 := (ex_hd, replicate 128 7, [7; 7])]> ∅) 0 5 ex_hd2 [9] _ _ _ _ _ H5 I (or_introl eq_refl) eq_refl S3) as S2.
  pose proof (sends_first ∅ 0 3 ex_hd ex_body _ _ _ _ _ H3 I (or_introl eq_refl) eq_refl S2) as S1.
  destruct (rtmp_delivers _ _ _ BUFFER_MAXLEN [Data (header_bytes 0 3 ex_hd ++ replicate 100 7); Expire; Data (replicate 28 7 ++ header_bytes 0 5 ex_hd2 ++ [9] ++ [195; 7; 7])] S1)
    as (p & H & _); [reflexivity|by vm_compute|]. exists p. exact H.
Defined.

Lemma rtmp_build_parse_witness : exists p,
  rtmp_run keep ([Data (default [] (head (match rtmp_serialize ex_hd ex_body with Ok b => [b] | _ => [] end)))] ++ [Expire]) (rtmp_parse_ctor BUFFER_MAXLEN) =
    Ok ([RtmpPacket ex_hd ex_body], Some p).
Proof.
  assert (Hb : Forall (fun p => exists ch, buildable ch p.1 p.2) [(ex_hd, ex_body)]).
  { constructor; [|constructor]. exists 3. split; [by split|by vm_compute|by vm_compute|by split|by exists 1]. }
  destruct (rtmp_build_parse [(ex_hd, ex_body)] BUFFER_MAXLEN [Data (default [] (head (match rtmp_serialize ex_hd ex_body with Ok b => [b] | _ => [] end)))] Hb)
    as (bss & E & H); [by vm_compute|]. vm_compute in E. injection E as <-. destruct H as (p & H & _); [by vm_compute|]. exists p. exact H.
Defined.

Lemma rtmp_failures_witness : rtmp_run keep ([Data [1; 2; 3]] ++ [Expire]) (rtmp_parse_ctor BUFFER_MAXLEN) <> Fault.
Proof. apply (rtmp_failures keep BUFFER_MAXLEN [Data [1; 2; 3]]). by vm_compute. Defined.
