(* ===== verification/Amf0.v ===== *)
(** AMF0 (src/src/neoip_flv_amf0/): [amf0_build_t::to_amf0] and
    [amf0_parse_t::parser], the values of the messages of RTMP and of the
    metadata of FLV, to and from [dvar_t].

    The recursion of the parser is bounded by its input; the model gives it fuel.
    A [double] goes through its bits in the format of IEEE 754. *)
From Stdlib Require Import Ascii SpecFloat.
From S2P Require Import Prelude Serial Codec Int24 Dvar.

(* ------------------------------------------------------------------ *)
(** * Doubles and strings *)
(* ------------------------------------------------------------------ *)

(** What the union of a [double] and an [uint64_t] reads, both ways; a NaN is
    the quiet one. *)
Definition double_of_bits (bits : Z) : spec_float :=
  let s := Z.testbit bits 63 in
  let e := Z.land (Z.shiftr bits 52) 0x7FF in
  let m := Z.land bits (Z.ones 52) in
  if e =? 0x7FF then (if m =? 0 then S754_infinity s else S754_nan)
  else if e =? 0 then match m with Z.pos p => S754_finite s p (-1074) | _ => S754_zero s end
  else S754_finite s (Z.to_pos (2 ^ 52 + m)) (e - 1075).
Definition bits_of_double (f : spec_float) : Z :=
  let sign (s : bool) := if s then 2 ^ 63 else 0 in
  match f with
  | S754_zero s => sign s
  | S754_infinity s => sign s + 0x7FF * 2 ^ 52
  | S754_nan => 0x7FF * 2 ^ 52 + 2 ^ 51
  | S754_finite s m e => if Z.pos m <? 2 ^ 52 then sign s + Z.pos m else sign s + (e + 1075) * 2 ^ 52 + (Z.pos m - 2 ^ 52)
  end.
Definition double_codec : codec Z := u64_codec.

(** The bytes of a [std::string]. *)
Definition bytes_of_string (s : string) : list Z := (fun a => Z.of_nat (nat_of_ascii a)) <$> String.list_ascii_of_string s.
Definition string_of_bytes (l : list Z) : string := String.string_of_list_ascii ((fun b => ascii_of_nat (Z.to_nat b)) <$> l).

(* ------------------------------------------------------------------ *)
(** * amf0_type_t *)
(* ------------------------------------------------------------------ *)

(** Any byte is a value of the type; these have a name. *)
Definition AMF_NUMBER : Z := 0x00.
Definition AMF_BOOLEAN : Z := 0x01.
Definition AMF_STRING : Z := 0x02.
Definition AMF_OBJECT : Z := 0x03.
Definition AMF_NIL : Z := 0x05.
Definition AMF_UNDEFINED : Z := 0x06.
Definition AMF_MIXEDARRAY : Z := 0x08.
Definition AMF_ENDOFOBJECT : Z := 0x09.
Definition AMF_ARRAY : Z := 0x0a.
Definition AMF_DATE : Z := 0x0b.

Definition put_type (t : Z) : list Z := wire_put u8_codec t.

(* ------------------------------------------------------------------ *)
(** * amf0_build_t *)
(* ------------------------------------------------------------------ *)

(** A length and the bytes. *)
Definition put_amf_str (s : string) : list Z := wire_put u16_codec (wrap 16 (Z.of_nat (String.length s))) ++ bytes_of_string s.

Fixpoint to_amf0 (dvar : dvar_t) : outcome (list Z) :=
  match dvar with
  | DOUBLE v => Ok (put_type AMF_NUMBER ++ wire_put double_codec (bits_of_double v))
  | STRING s => Ok (put_type AMF_STRING ++ put_amf_str s)
  | BOOLEAN b => Ok (put_type AMF_BOOLEAN ++ wire_put u8_codec (if b then 1 else 0))
  | NIL => Ok (put_type AMF_NIL)
  | MAP inmap =>
    let* items := (fix items (l : list (string * dvar_t)) : outcome (list Z) :=
                     match l with
                     | [] => Ok []
                     | (key, item) :: l' =>
                       let* i := to_amf0 item in
                       let* rest := items l' in
                       Ok (put_amf_str key ++ i ++ rest)
                     end) inmap in
    Ok (put_type AMF_OBJECT ++ items ++ wire_put u16_codec 0 ++ put_type AMF_ENDOFOBJECT)
  | _ => AssertFail
  end.

(* ------------------------------------------------------------------ *)
(** * amf0_parse_t *)
(* ------------------------------------------------------------------ *)

(** [dbg]: whether the build has assertions on what the network sends. *)
Section parse.
Variable dbg : bool.

(** [bytearray_t::head_consume]. *)
Definition amf_consume (len : Z) (l : list Z) : outcome (list Z * list Z) :=
  dbgnet_assert dbg (len <=? Z.of_nat (length l))
    (if Z.of_nat (length l) <? len then Throw "ByteArray too short." else Ok (take (Z.to_nat len) l, drop (Z.to_nat len) l)).

Fixpoint parser (fuel : nat) (l : list Z) : outcome (dvar_t * list Z) :=
  match fuel with
  | O => Fault
  | S fuel' =>
    let* (amf0_type, l1) := wire_get u8_codec l in
    if amf0_type =? AMF_NUMBER then
      let* (value, l2) := wire_get double_codec l1 in Ok (DOUBLE (double_of_bits value), l2)
    else if amf0_type =? AMF_BOOLEAN then
      let* (value, l2) := wire_get u8_codec l1 in Ok (BOOLEAN (negb (value =? 0)), l2)
    else if amf0_type =? AMF_STRING then
      let* (str_size, l2) := wire_get u16_codec l1 in
      let* (str_data, l3) := amf_consume str_size l2 in
      Ok (STRING (string_of_bytes str_data), l3)
    else if amf0_type =? AMF_OBJECT then object_loop fuel' [] l1
    else if amf0_type =? AMF_NIL then Ok (NIL, l1)
    else if amf0_type =? AMF_UNDEFINED then Ok (NONE, l1)
    else if amf0_type =? AMF_MIXEDARRAY then
      let* (highest_index, l2) := wire_get u32_codec l1 in object_loop fuel' [] l2
    else if amf0_type =? AMF_ARRAY then
      let* (nb_item, l2) := wire_get u32_codec l1 in array_loop fuel' 0 nb_item [] l2
    else if amf0_type =? AMF_DATE then
      let* (from_epoch_ms, l2) := wire_get double_codec l1 in
      let* (gmt_offset_min, l3) := wire_get u16_codec l2 in
      Ok (DOUBLE (double_of_bits from_epoch_ms), l3)
    else Throw "unparse amf0_type"
  end
(** The loop of an object or a mixed array, with the map built. *)
with object_loop (fuel : nat) (map : list (string * dvar_t)) (l : list Z) : outcome (dvar_t * list Z) :=
  match fuel with
  | O => Fault
  | S fuel' =>
    match l with
    | [] => Ok (MAP map, [])
    | _ :: _ =>
      let* (key_size, l1) := wire_get u16_codec l in
      let* (key_data, l2) := amf_consume key_size l1 in
      if (key_size =? 0) && (match l2 with b :: _ => b =? 0x09 | [] => false end) then
        let* (_, l3) := wire_get u8_codec l2 in Ok (MAP map, l3)
      else
        let* (value, l3) := parser fuel' l2 in
        let* map1 := dvar_map_insert (string_of_bytes key_data) value map in
        object_loop fuel' map1 l3
    end
  end
(** The loop of an array, at item [i]. *)
with array_loop (fuel : nat) (i nb_item : Z) (arr : list dvar_t) (l : list Z) : outcome (dvar_t * list Z) :=
  match fuel with
  | O => Fault
  | S fuel' =>
    if i <? nb_item then
      let* (value, l1) := parser fuel' l in
      array_loop fuel' (i + 1) nb_item (dvar_arr_append value arr) l1
    else Ok (ARRAY arr, l)
  end.

Definition amf_fuel (l : list Z) : nat := 2 * length l + 1.
(** The value and the data left; [None] for an error. *)
Definition amf_to_dvar (amf0_data : list Z) : outcome (option (dvar_t * list Z)) :=
  match parser (amf_fuel amf0_data) amf0_data with
  | Ok r => Ok (Some r)
  | Throw _ => Ok None
  | AssertFail => AssertFail
  | Fault => Fault
  end.
End parse.

(* ------------------------------------------------------------------ *)
(** * Lemmas on doubles and strings *)
(* ------------------------------------------------------------------ *)

(** The values of a [double]. *)
Definition double_ok (f : spec_float) : Prop := valid_binary 53 1024 f = true.

Lemma sign_bits (s : bool) x : 0 <= x < 2 ^ 63 ->
  let b := (if s then 2 ^ 63 else 0) + x in
  in_range 64 b /\ Z.testbit b 63 = s /\ Z.land (Z.shiftr b 52) 0x7FF = x / 2 ^ 52 /\ Z.land b (Z.ones 52) = x mod 2 ^ 52.
Proof.
  intros Hx. cbv zeta. change 0x7FF with (Z.ones 11). rewrite !Z.land_ones, Z.shiftr_div_pow2 by lia.
  change (2 ^ 63) with 9223372036854775808 in *. change (2 ^ 52) with 4503599627370496. change (2 ^ 11) with 2048.
  split; [unfold in_range; change (2 ^ 64) with 18446744073709551616; destruct s; lia|].
  assert (Hd : 0 <= x / 4503599627370496 < 2048) by (split; [apply Z.div_pos; lia|apply Z.div_lt_upper_bound; lia]).
  split; [|destruct s].
  - destruct s.
    + apply Z.testbit_true; [lia|]. change (2 ^ 63) with 9223372036854775808. replace (9223372036854775808 + x) with (1 * 9223372036854775808 + x) by lia. rewrite Z.div_add_l by lia. by rewrite Z.div_small by lia.
    + apply Z.testbit_false; [lia|]. change (2 ^ 63) with 9223372036854775808. by rewrite Z.div_small by lia.
  - replace 9223372036854775808 with (2048 * 4503599627370496) by lia. rewrite Z.div_add_l by lia. split.
    + rewrite Z.add_comm, <- (Z.mul_1_l 2048) at 1. rewrite Z.mod_add by lia. by apply Z.mod_small.
    + by rewrite Z.add_comm, Z.mod_add by lia.
  - rewrite Z.add_0_l. split; [by apply Z.mod_small|done].
Qed.

Lemma digits2_bounds m : 2 ^ (Z.pos (digits2_pos m) - 1) <= Z.pos m < 2 ^ Z.pos (digits2_pos m).
Proof.
  induction m as [m IH|m IH|]; cbn [digits2_pos]; [| |by vm_compute].
  all: rewrite Pos2Z.inj_succ; replace (Z.succ (Z.pos (digits2_pos m)) - 1) with (Z.succ (Z.pos (digits2_pos m) - 1)) by lia;
    rewrite !Z.pow_succ_r by lia; lia.
Qed.

Lemma double_roundtrip f : double_ok f -> in_range 64 (bits_of_double f) /\ double_of_bits (bits_of_double f) = f.
Proof.
  unfold double_ok. destruct f as [s|s| |s m e]; intros Hv.
  - destruct s; by vm_compute.
  - destruct s; by vm_compute.
  - by vm_compute.
  - cbn [valid_binary] in Hv. unfold bounded, canonical_mantissa, fexp, SpecFloat.emin in Hv. apply andb_true_iff in Hv as [Hc He].
    apply Z.eqb_eq in Hc. apply Zle_bool_imp_le in He. pose proof (digits2_bounds m) as Hd. set (d := Z.pos (digits2_pos m)) in *.
    assert (Hm : Z.pos m < 2 ^ 53) by (apply Z.lt_le_trans with (2 ^ d); [lia|apply Z.pow_le_mono_r; lia]).
    cbn [bits_of_double]. change (2 ^ 53) with 9007199254740992 in Hm. destruct (Z.ltb_spec (Z.pos m) (2 ^ 52)) as [Hs|Hs]; change (2 ^ 52) with 4503599627370496 in *.
    + assert (e = -1074) as ->.
      { assert (d < 53); [|lia]. apply Z.nle_gt. intros H53. assert (2 ^ 52 <= 2 ^ (d - 1)) by (apply Z.pow_le_mono_r; lia). change (2 ^ 52) with 4503599627370496 in *. lia. }
      destruct (sign_bits s (Z.pos m)) as (Hr & Ht & Hx & Hy); [change (2 ^ 63) with 9223372036854775808; lia|]. split; [exact Hr|]. unfold double_of_bits. rewrite Ht, Hx, Hy.
      change (2 ^ 52) with 4503599627370496. rewrite Z.div_small, Z.mod_small by lia. done.
    + assert (Hd53 : d = 53).
      { assert (52 < d); [|lia]. apply Z.nle_gt. intros H. assert (2 ^ d <= 2 ^ 52) by (apply Z.pow_le_mono_r; lia). change (2 ^ 52) with 4503599627370496 in *. lia. }
      rewrite Hd53 in *. assert (-1074 <= e <= 971) by lia.
      destruct (sign_bits s ((e + 1075) * 4503599627370496 + (Z.pos m - 4503599627370496))) as (Hr & Ht & Hx & Hy); [change (2 ^ 63) with 9223372036854775808; lia|].
      rewrite <- Z.add_assoc. split; [exact Hr|]. unfold double_of_bits. rewrite Ht, Hx, Hy. change (2 ^ 52) with 4503599627370496.
      rewrite Z.div_add_l, Z.div_small, Z.add_0_r by lia. rewrite (Z.add_comm ((e + 1075) * _)), Z.mod_add, Z.mod_small by lia.
      rewrite (proj2 (Z.eqb_neq _ _)), (proj2 (Z.eqb_neq _ _)) by lia. replace (4503599627370496 + (Z.pos m - 4503599627370496)) with (Z.pos m) by lia.
      replace (e + 1075 - 1075) with e by lia. done.
Qed.

Lemma string_bytes s : string_of_bytes (bytes_of_string s) = s.
Proof.
  unfold string_of_bytes, bytes_of_string. rewrite <- list_fmap_compose. rewrite <- (String.string_of_list_ascii_of_string s) at 2. f_equal.
  rewrite <- (list_fmap_id (String.list_ascii_of_string s)) at 2. apply list_fmap_ext. intros i a _. cbn. by rewrite Nat2Z.id, ascii_nat_embedding.
Qed.
Lemma bytes_of_string_ok s : bytes_ok (bytes_of_string s) /\ length (bytes_of_string s) = String.length s.
Proof.
  unfold bytes_of_string. split.
  - apply Forall_fmap, Forall_true. intros a. unfold is_byte, in_range. cbn. pose proof (nat_ascii_bounded a). change (2 ^ 8) with 256. lia.
  - rewrite length_fmap. induction s as [|a s IH]; [done|]. cbn. by rewrite IH.
Qed.

(* ------------------------------------------------------------------ *)
(** * Round trip *)
(* ------------------------------------------------------------------ *)

(** What the builder can write: no integer and no array. *)
Fixpoint amf_encodable (d : dvar_t) : Prop :=
  match d with
  | DOUBLE v => double_ok v
  | STRING s => Z.of_nat (String.length s) < 2 ^ 16
  | BOOLEAN _ | NIL => True
  | MAP l => StronglySorted key_lt l /\ fold_right and True (map (fun p => Z.of_nat (String.length p.1) < 2 ^ 16 /\ amf_encodable p.2) l)
  | _ => False
  end.

(** The items of a map, as the loop of the builder writes them. *)
Fixpoint amf_items (l : list (string * dvar_t)) : outcome (list Z) :=
  match l with
  | [] => Ok []
  | (key, item) :: l' =>
    let* i := to_amf0 item in
    let* rest := amf_items l' in
    Ok (put_amf_str key ++ i ++ rest)
  end.
Lemma to_amf0_map l : to_amf0 (MAP l) = (let* items := amf_items l in Ok (put_type AMF_OBJECT ++ items ++ wire_put u16_codec 0 ++ put_type AMF_ENDOFOBJECT)).
Proof. reflexivity. Qed.

Section back.
Variable dbg : bool.

Lemma consume_app d rest : amf_consume dbg (Z.of_nat (length d)) (d ++ rest) = Ok (d, rest).
Proof.
  unfold amf_consume. rewrite length_app. rewrite (proj2 (Z.leb_le _ _)), (proj2 (Z.ltb_ge _ _)) by lia. rewrite Nat2Z.id.
  unfold dbgnet_assert, dbg_assert. rewrite take_app_length, drop_app_length. by destruct dbg.
Qed.

(** A string with its length is read back. *)
Lemma amf_str_get s rest : Z.of_nat (String.length s) < 2 ^ 16 ->
  exists r, wire_get u16_codec (put_amf_str s ++ rest) = Ok (Z.of_nat (String.length s), r) /\
    amf_consume dbg (Z.of_nat (String.length s)) r = Ok (bytes_of_string s, rest).
Proof.
  intros Hs. exists (bytes_of_string s ++ rest). unfold put_amf_str. rewrite wrap_small by (unfold in_range; lia). rewrite <- app_assoc. split.
  - apply wire_get_put. unfold codec_ok, u16_codec, in_range. lia.
  - destruct (bytes_of_string_ok s) as [_ <-]. apply consume_app.
Qed.

(** [bs] is read as [d] and does not look like the end of an object. *)
Definition reads_back (d : dvar_t) (bs : list Z) : Prop :=
  (exists b bs', bs = b :: bs' /\ b <> AMF_ENDOFOBJECT) /\
  forall f rest, (2 * length bs <= f)%nat -> parser dbg f (bs ++ rest) = Ok (d, rest).

Lemma Ok_inj {A} (a b : A) : Ok a = Ok b -> a = b.
Proof. clear. congruence. Qed.

Lemma scalar_reads d bs : to_amf0 d = Ok bs -> amf_encodable d -> (match d with MAP _ => False | _ => True end) -> reads_back d bs.
Proof.
  destruct d as [|v|v|s|b| |l|l]; cbn [to_amf0 amf_encodable]; try done; intros <-%Ok_inj Hd _.
  all: split; [by eexists _, _|]; intros [|f] rest Hf; [cbn in Hf; lia|]; rewrite <- ?app_assoc; cbn [parser]; unfold put_type;
    rewrite (wire_get_put (c := u8_codec)) by done; cbn [mbind outcome_bind].
  - destruct (double_roundtrip v Hd) as [Hr Hv]. cbn iota. change (AMF_NUMBER =? AMF_NUMBER) with true. cbn iota. unfold double_codec.
    rewrite (wire_get_put (c := u64_codec)) by done. cbn [mbind outcome_bind]. by rewrite Hv.
  - change (AMF_STRING =? AMF_NUMBER) with false. change (AMF_STRING =? AMF_BOOLEAN) with false. change (AMF_STRING =? AMF_STRING) with true. cbn iota.
    destruct (amf_str_get s rest Hd) as (r & -> & E). cbn [mbind outcome_bind]. rewrite E. cbn [mbind outcome_bind]. by rewrite string_bytes.
  - change (AMF_BOOLEAN =? AMF_NUMBER) with false. change (AMF_BOOLEAN =? AMF_BOOLEAN) with true. cbn iota.
    rewrite (wire_get_put (c := u8_codec)) by (by destruct b). cbn [mbind outcome_bind]. by destruct b.
  - reflexivity.
Qed.

(** The items of a map, then its end. *)
Lemma items_read l :
  Forall (fun p => exists bs, to_amf0 p.2 = Ok bs /\ reads_back p.2 bs) l -> Forall (fun p => Z.of_nat (String.length p.1) < 2 ^ 16) l ->
  exists bs, amf_items l = Ok bs /\ forall f acc rest, (2 * length bs + 1 <= f)%nat -> StronglySorted key_lt (acc ++ l) ->
    object_loop dbg f acc (bs ++ (wire_put u16_codec 0 ++ put_type AMF_ENDOFOBJECT) ++ rest) = Ok (MAP (acc ++ l), rest).
Proof.
  induction 1 as [|[k d] l (bs & Eb & [Hne Hback]) _ IH]; intros Hk; cbn [amf_items fst snd] in *.
  - exists []. split; [done|]. intros [|f] acc rest Hf _; [cbn in Hf; lia|]. rewrite app_nil_r. cbn [app].
    pose proof (consume_app [] (put_type AMF_ENDOFOBJECT ++ rest)) as Ec. cbn [length app] in Ec.
    change (wire_put u16_codec 0 ++ put_type AMF_ENDOFOBJECT) with [0; 0; 9]. cbn [app object_loop]. change (wire_get u16_codec (0 :: 0 :: 9 :: rest)) with (Ok (0, 9 :: rest)).
    cbn [mbind outcome_bind]. change (put_type AMF_ENDOFOBJECT ++ rest) with (9 :: rest) in Ec. change (Z.of_nat 0) with 0 in Ec. rewrite Ec. cbn [mbind outcome_bind].
    change ((0 =? 0) && (9 =? 9)) with true. cbn iota. by rewrite byte_get.
  - apply Forall_cons in Hk as [Hk Hks]. cbn [fst] in Hk. destruct (IH Hks) as (bs' & E' & Hloop). rewrite Eb, E'. cbn [mbind outcome_bind]. eexists. split; [done|].
    intros f acc rest Hf Hs. set (ending := wire_put u16_codec 0 ++ put_type AMF_ENDOFOBJECT) in *. rewrite <- !app_assoc.
    destruct (amf_str_get k (bs ++ bs' ++ ending ++ rest) Hk) as (r & Eg & Ec). rewrite !length_app in Hf.
    assert (Hkl : (2 <= length (put_amf_str k))%nat) by (unfold put_amf_str; rewrite length_app; cbn; lia).
    destruct f as [|f]; [lia|]. cbn [object_loop]. destruct (put_amf_str k ++ bs ++ bs' ++ ending ++ rest) as [|x xs] eqn:El; [by apply (f_equal length) in El; rewrite length_app in El; cbn in El; lia|].
    rewrite Eg. cbn [mbind outcome_bind]. rewrite Ec. cbn [mbind outcome_bind]. destruct Hne as (b & bs1 & -> & Hb). cbn [app].
    rewrite (proj2 (Z.eqb_neq b 9)) by done. rewrite andb_false_r. change (b :: bs1 ++ bs' ++ ending ++ rest) with ((b :: bs1) ++ bs' ++ ending ++ rest).
    rewrite Hback by lia. cbn [mbind outcome_bind]. rewrite string_bytes, map_insert_last.
    + cbn [mbind outcome_bind]. rewrite Hloop; [by rewrite <- app_assoc|cbn [length] in Hf; lia|by rewrite <- app_assoc].
    + apply Forall_forall. intros p Hp. apply (StronglySorted_app_1_elem_of _ acc ((k, d) :: l)); [done|done|by left].
Qed.

Lemma encodable_reads d : amf_encodable d -> exists bs, to_amf0 d = Ok bs /\ reads_back d bs.
Proof.
  induction d as [|v|v|s|b| |l IH|l IH] using dvar_ind'; intros Hd; try done.
  1-4: eexists; split; [reflexivity|by apply scalar_reads].
  destruct Hd as [Hs Hl]. apply fold_right_and_Forall in Hl. destruct (items_read l) as (bs & E & Hloop).
  { eapply Forall_impl; [apply Forall_and; split; [exact IH|exact Hl]|]. cbn. intros p [H [_ Hp]]. by apply H. }
  { eapply Forall_impl; [exact Hl|]. by intros p []. }
  rewrite to_amf0_map, E. cbn [mbind outcome_bind]. eexists. split; [done|]. split; [by eexists _, _|].
  intros f rest Hf. rewrite !length_app in Hf. cbn in Hf. destruct f as [|f]; [lia|]. rewrite <- app_assoc. cbn [parser]. unfold put_type at 1.
  rewrite (wire_get_put (c := u8_codec)) by done. cbn [mbind outcome_bind].
  change (AMF_OBJECT =? AMF_NUMBER) with false. change (AMF_OBJECT =? AMF_BOOLEAN) with false. change (AMF_OBJECT =? AMF_STRING) with false. change (AMF_OBJECT =? AMF_OBJECT) with true. cbn iota.
  rewrite <- app_assoc. rewrite Hloop; [done|lia|done].
Qed.
End back.

(** C28. A value the builder can write, a number, a string, a boolean, nil or a map of
    them, is read back by the parser from its bytes, which leaves what follows. *)
Theorem amf0_roundtrip dbg d rest : amf_encodable d ->
  exists bs, to_amf0 d = Ok bs /\ amf_to_dvar dbg (bs ++ rest) = Ok (Some (d, rest)).
Proof.
  intros Hd. destruct (encodable_reads dbg d Hd) as (bs & E & _ & Hback). exists bs. split; [done|].
  unfold amf_to_dvar, amf_fuel. rewrite Hback by (rewrite length_app; lia). done.
Qed.

(* ------------------------------------------------------------------ *)
(** * Any bytes *)
(* ------------------------------------------------------------------ *)

(** Every map inside has its keys sorted, each once. *)
Fixpoint maps_sorted (d : dvar_t) : Prop :=
  match d with
  | ARRAY l => fold_right and True (map maps_sorted l)
  | MAP l => StronglySorted key_lt l /\ fold_right and True (map (fun p => maps_sorted p.2) l)
  | _ => True
  end.

(** What a parse of [l] may give: at least [n] bytes are taken at the head. *)
Definition parsed {A} (P : A -> Prop) (n : nat) (l : list Z) (r : outcome (A * list Z)) : Prop :=
  match r with
  | Ok (v, rest) => P v /\ exists pre, l = pre ++ rest /\ (n <= length pre)%nat
  | Throw _ | AssertFail => True
  | Fault => False
  end.

Lemma parsed_bind {A B} (P : A -> Prop) (Q : B -> Prop) m n l r (k : A * list Z -> outcome (B * list Z)) :
  parsed P m l r -> (forall v rest, P v -> (length rest + m <= length l)%nat -> parsed Q (n - m) rest (k (v, rest))) -> parsed Q n l (r ≫= k).
Proof.
  destruct r as [[v rest]| | |]; cbn; try done. intros (HP & pre & -> & Hm) Hk. rewrite length_app in Hk.
  specialize (Hk v rest HP ltac:(lia)). destruct (k (v, rest)) as [[w rest']| | |]; cbn in *; try done.
  destruct Hk as (HQ & pre' & -> & Hn). split; [done|]. exists (pre ++ pre'). rewrite length_app. split; [by rewrite app_assoc|lia].
Qed.

Lemma uint_parsed n msg l : parsed (fun _ => True) n l (wire_uint n msg l).
Proof.
  unfold wire_uint, wire_get_head. case_bool_decide; [done|]. cbn. split; [done|]. exists (take n l). rewrite take_drop. split; [done|]. rewrite length_take. lia.
Qed.

Lemma consume_parsed dbg len l : parsed (fun _ => True) 0 l (amf_consume dbg len l).
Proof.
  unfold amf_consume, dbgnet_assert, dbg_assert.
  assert (H : parsed (fun _ => True) 0 l (if Z.of_nat (length l) <? len then Throw "ByteArray too short." else Ok (take (Z.to_nat len) l, drop (Z.to_nat len) l))).
  { destruct (_ <? _); [done|]. cbn. split; [done|]. exists (take (Z.to_nat len) l). rewrite take_drop. split; [done|lia]. }
  destruct dbg; [|done]. by destruct (_ <=? _).
Qed.

Lemma parsed_ok {A} (P : A -> Prop) v l : P v -> parsed P 0 l (Ok (v, l)).
Proof. intros H. split; [done|]. by exists []. Qed.

Lemma map_insert_keeps key v m : maps_sorted (MAP m) -> maps_sorted v ->
  match dvar_map_insert key v m with Ok m' => maps_sorted (MAP m') | AssertFail => True | _ => False end.
Proof.
  intros [Hs Hl] Hv. unfold dvar_map_insert, dbg_assert. destruct (negb _); [|done]. split; [by apply std_map_insert_sorted|].
  apply fold_right_and_Forall. apply fold_right_and_Forall in Hl. by apply std_map_insert_Forall.
Qed.

(** The three functions of the parser, on enough fuel. *)
Lemma parser_parsed dbg f :
  (forall l, (2 * length l + 1 <= f)%nat -> parsed maps_sorted 1 l (parser dbg f l)) /\
  (forall m l, (2 * length l + 1 <= f)%nat -> maps_sorted (MAP m) -> parsed maps_sorted 0 l (object_loop dbg f m l)) /\
  (forall i nb arr l, (2 * length l + 2 <= f)%nat -> maps_sorted (ARRAY arr) -> parsed maps_sorted 0 l (array_loop dbg f i nb arr l)).
Proof.
  induction f as [|f (IHp & IHo & IHa)]; [repeat split; intros; lia|].
  assert (Hu : forall n msg (Q : dvar_t -> Prop) k l, (forall v rest, (length rest + n <= length l)%nat -> parsed Q 0 rest (k (v, rest))) -> parsed Q n l (wire_uint n msg l ≫= k)).
  { intros n msg Q k l Hk. eapply parsed_bind; [apply uint_parsed|]. intros v rest _ Hr. rewrite Nat.sub_diag. by apply Hk. }
  assert (Hc : forall len (Q : dvar_t -> Prop) k l, (forall v rest, (length rest <= length l)%nat -> parsed Q 0 rest (k (v, rest))) -> parsed Q 0 l (amf_consume dbg len l ≫= k)).
  { intros len Q k l Hk. eapply parsed_bind; [apply consume_parsed|]. intros v rest _ Hr. apply Hk. lia. }
  assert (Hw : forall (Q : dvar_t -> Prop) n l r, parsed Q n l r -> parsed Q 0 l r).
  { intros Q n l [[v rest]| | |]; cbn; try done. intros (HQ & pre & -> & _). split; [done|]. exists pre. split; [done|lia]. }
  split; [|split].
  - intros l Hf. cbn [parser]. apply (Hu 1%nat). intros t l1 H1. cbn iota beta.
    repeat match goal with |- parsed _ _ _ (if ?c then _ else _) => destruct c end; try done; try (by apply parsed_ok).
    all: first [eapply Hw, (Hu 8%nat)|eapply Hw, (Hu 2%nat)|eapply Hw, (Hu 1%nat)|eapply Hw, (Hu 4%nat)|apply IHo; [lia|by repeat constructor]]; intros v l2 H2; cbn iota beta.
    all: try (by apply parsed_ok).
    + apply Hc. intros d l3 H3. by apply parsed_ok.
    + apply IHo; [lia|by repeat constructor].
    + apply IHa; [lia|done].
    + eapply Hw, (Hu 2%nat). intros g l3 H3. by apply parsed_ok.
  - intros m l Hf Hm. cbn [object_loop]. destruct l as [|b l]; [by apply parsed_ok|]. eapply Hw, (Hu 2%nat). intros ks l1 H1. cbn iota beta.
    apply Hc. intros kd l2 H2. cbn iota beta. destruct (_ && _); [eapply Hw, (Hu 1%nat); intros v l3 H3; by apply parsed_ok|].
    eapply Hw, parsed_bind; [apply IHp; lia|]. intros v l3 Hv H3. cbn iota beta. pose proof (map_insert_keeps (string_of_bytes kd) v m Hm Hv) as Hi.
    destruct (dvar_map_insert _ v m) as [m'| | |]; cbn [mbind outcome_bind]; try done. instantiate (1 := 1%nat). apply IHo; [lia|done].
  - intros i nb arr l Hf Ha. cbn [array_loop]. destruct (i <? nb); [|by apply parsed_ok]. eapply Hw, parsed_bind; [apply IHp; lia|].
    intros v l1 Hv H1. cbn iota beta. instantiate (1 := 1%nat). apply IHa; [lia|]. unfold dvar_arr_append. cbn [maps_sorted].
    apply fold_right_and_Forall, Forall_app. split; [by apply fold_right_and_Forall|by repeat constructor].
Qed.

Lemma amf_to_dvar_parsed dbg l :
  match amf_to_dvar dbg l with
  | Ok (Some (d, rest)) => maps_sorted d /\ exists pre, l = pre ++ rest /\ (1 <= length pre)%nat
  | Ok None | AssertFail => True
  | Throw _ | Fault => False
  end.
Proof.
  unfold amf_to_dvar. pose proof (proj1 (parser_parsed dbg (amf_fuel l)) l ltac:(unfold amf_fuel; lia)) as H.
  by destruct (parser dbg (amf_fuel l) l) as [[d rest]| | |].
Qed.

Lemma nil_item_read dbg f k rest m : Z.of_nat (String.length k) < 2 ^ 16 ->
  object_loop dbg (S (S f)) m (put_amf_str k ++ AMF_NIL :: rest) = (let* m' := dvar_map_insert k NIL m in object_loop dbg (S f) m' rest).
Proof.
  intros Hk. destruct (amf_str_get dbg k (AMF_NIL :: rest) Hk) as (r & Eg & Ec).
  remember (S f) as f1. cbn [object_loop]. destruct (put_amf_str k ++ AMF_NIL :: rest) as [|x xs] eqn:El; [by apply (f_equal length) in El; rewrite length_app in El; cbn in El; lia|].
  rewrite Eg. cbn [mbind outcome_bind]. rewrite Ec. cbn [mbind outcome_bind]. change (AMF_NIL =? 9) with false. rewrite andb_false_r.
  subst f1. assert (Ep : parser dbg (S f) (AMF_NIL :: rest) = Ok (NIL, rest)) by (cbn [parser]; by rewrite byte_get).
  rewrite Ep. cbn [mbind outcome_bind]. by rewrite string_bytes.
Qed.

(** C39. On any bytes the parser ends: it fails, or gives a variable with sorted
    maps and the end of the data, or the process aborts.  It aborts on an object
    that has a key twice and, when it has assertions, on a string shorter than it says,
    which is an error otherwise; an object without its end is accepted.  The
    builder aborts on integers and arrays, and a string of more than 65535 bytes
    is read back as its first bytes. *)
Theorem amf0_hostile dbg l :
  match amf_to_dvar dbg l with
  | Ok (Some (d, rest)) => maps_sorted d /\ exists pre, l = pre ++ rest /\ (1 <= length pre)%nat
  | Ok None | AssertFail => True
  | Throw _ | Fault => False
  end /\
  (forall k rest, Z.of_nat (String.length k) < 2 ^ 16 ->
   amf_to_dvar dbg (AMF_OBJECT :: put_amf_str k ++ [AMF_NIL] ++ put_amf_str k ++ [AMF_NIL] ++ rest) = AssertFail /\
   amf_to_dvar dbg (AMF_OBJECT :: put_amf_str k ++ [AMF_NIL]) = Ok (Some (MAP [(k, NIL)], []))) /\
  (forall len, Z.of_nat (length l) < len < 2 ^ 16 ->
   amf_to_dvar dbg (AMF_STRING :: wire_put u16_codec len ++ l) = if dbg then AssertFail else Ok None) /\
  (forall v arr, to_amf0 (INTEGER v) = AssertFail /\ to_amf0 (ARRAY arr) = AssertFail) /\
  (forall s, let n := Z.to_nat (Z.of_nat (String.length s) mod 2 ^ 16) in
   exists bs, to_amf0 (STRING s) = Ok bs /\
     amf_to_dvar dbg bs = Ok (Some (STRING (string_of_bytes (take n (bytes_of_string s))), drop n (bytes_of_string s)))).
Proof.
  split; [apply amf_to_dvar_parsed|]. split; [|split; [|split; [done|]]].
  - intros k rest Hk. assert (Hf : forall f m, parser dbg (S f) (AMF_OBJECT :: m) = object_loop dbg f [] m) by (intros f m; cbn [parser]; by rewrite byte_get).
    assert (H1 : dvar_map_insert k NIL [] = Ok [(k, NIL)]) by reflexivity. unfold amf_to_dvar, amf_fuel. split.
    + cbn [length]. rewrite !length_app. cbn [length]. match goal with |- context [parser dbg (?n * S ?m + 1) _] => replace (n * S m + 1)%nat with (S (S (S (S (2 * m - 1)))))%nat by lia end.
      rewrite Hf. cbn [app]. rewrite nil_item_read, H1 by done. cbn [mbind outcome_bind]. rewrite nil_item_read by done.
      unfold dvar_map_insert, dvar_map_contain. cbn [dvar_map_find]. rewrite String.eqb_refl. reflexivity.
    + cbn [length]. rewrite length_app. cbn [length]. match goal with |- context [parser dbg (?n * S ?m + 1) _] => replace (n * S m + 1)%nat with (S (S (S (2 * m))))%nat by lia end.
      rewrite Hf, nil_item_read, H1 by done. reflexivity.
  - intros len Hl. unfold amf_to_dvar, amf_fuel. cbn [length]. match goal with |- context [parser dbg (?n * S ?m + 1) _] => replace (n * S m + 1)%nat with (S (2 * S m)) by lia end.
    cbn [parser]. rewrite byte_get by done. cbn [mbind outcome_bind]. change (AMF_STRING =? AMF_NUMBER) with false. change (AMF_STRING =? AMF_BOOLEAN) with false. change (AMF_STRING =? AMF_STRING) with true. cbn iota.
    rewrite (wire_get_put (c := u16_codec)) by (unfold codec_ok, u16_codec, in_range; lia). cbn [mbind outcome_bind]. unfold amf_consume, dbgnet_assert, dbg_assert.
    rewrite (proj2 (Z.leb_gt _ _)), (proj2 (Z.ltb_lt _ _)) by lia. by destruct dbg.
  - intros s n. eexists. split; [reflexivity|]. destruct (bytes_of_string_ok s) as [_ Hl]. set (z := Z.of_nat (String.length s) mod 2 ^ 16) in *.
    assert (Hz : 0 <= z < 2 ^ 16) by (by apply Z.mod_pos_bound). assert (Hn : (n <= length (bytes_of_string s))%nat).
    { rewrite Hl. unfold n, z. pose proof (Z.mod_le (Z.of_nat (String.length s)) (2 ^ 16)). lia. }
    unfold amf_to_dvar, amf_fuel. match goal with |- context [parser dbg (2 * ?m + 1) _] => replace (2 * m + 1)%nat with (S (2 * m)) by lia end.
    unfold put_type. cbn [parser]. rewrite (wire_get_put (c := u8_codec)) by done. cbn [mbind outcome_bind]. change (AMF_STRING =? AMF_NUMBER) with false. change (AMF_STRING =? AMF_BOOLEAN) with false. change (AMF_STRING =? AMF_STRING) with true. cbn iota.
    unfold put_amf_str, wrap. fold z. rewrite (wire_get_put (c := u16_codec)) by (unfold codec_ok, u16_codec, in_range; lia). cbn [mbind outcome_bind].
    pose proof (consume_app dbg (take n (bytes_of_string s)) (drop n (bytes_of_string s))) as Ec. rewrite take_drop, length_take, Nat.min_l in Ec by lia.
    replace (Z.of_nat n) with z in Ec by (unfold n; lia). rewrite Ec. reflexivity.
Qed.

(* ------------------------------------------------------------------ *)
(** * Witnesses *)
(* ------------------------------------------------------------------ *)

Definition ex_invoke : dvar_t :=
  MAP [("app", STRING "live"); ("audioCodecs", DOUBLE (S754_finite false 6755399441055744 (-43))); ("fpad", BOOLEAN false); ("tcUrl", NIL)]%string.

Lemma amf0_roundtrip_witness :
  amf_encodable ex_invoke /\ exists bs, to_amf0 ex_invoke = Ok bs /\ length bs = 54%nat /\ amf_to_dvar true (bs ++ [1; 2]) = Ok (Some (ex_invoke, [1; 2])).
Proof.
  assert (He : amf_encodable ex_invoke) by (split; [repeat constructor|by repeat split]).
  split; [exact He|]. destruct (amf0_roundtrip true ex_invoke [1; 2] He) as (bs & E & H). vm_compute in E. injection E as <-. eexists. split; [reflexivity|]. split; [reflexivity|exact H].
Defined.

Lemma amf0_hostile_witness :
  amf_to_dvar true [2; 0; 5; 97] = AssertFail /\ amf_to_dvar false [2; 0; 5; 97] = Ok None /\
  amf_to_dvar false [3; 0; 1; 97; 5; 0; 1; 97; 5; 7] = AssertFail.
Proof.
  split; [|split].
  - apply (proj1 (proj2 (proj2 (amf0_hostile true [97]))) 5). by vm_compute.
  - apply (proj1 (proj2 (proj2 (amf0_hostile false [97]))) 5). by vm_compute.
  - apply (proj1 (proj2 (amf0_hostile false [])) "a"%string [7]). by vm_compute.
Defined.
