(* ===== verification/Flv.v ===== *)
(** FLV (src/src/neoip_flv/): the headers [flv_tophd_t], [flv_taghd_t],
    [flv_taghd_audio_t] and [flv_taghd_video_t], the parser [flv_parse_t] of a file
    received in pieces, and [flv_parse_helper_t::kframe_boffset_from], which finds
    where its key frames are.

    A file is a header and tags, each with the size of the one before it, a type
    and a body.  The fields of the tag headers are [strtype_t]s: any value is
    accepted, and the null one, -1, is not a byte. *)
From S2P Require Import Prelude Serial Codec Time Stream Int24.

(* ------------------------------------------------------------------ *)
(** * flv_tophd_t *)
(* ------------------------------------------------------------------ *)

Definition TOPHD_LENGTH : nat := 9.
Definition OFFSET_VALUE : Z := 9.

Record flv_tophd_t := Tophd { version : Z; flag : Z }.
Definition tophd_is_null (h : flv_tophd_t) : bool := version h =? 0.
(** [flv_tophd_flag_t::is_video] and [is_audio]. *)
Definition flag_include (flag other : Z) : bool := Z.land flag other =? other.
Definition is_video (flag : Z) : bool := flag_include flag (Z.shiftl 1 0).
Definition is_audio (flag : Z) : bool := flag_include flag (Z.shiftl 1 2).

(** The characters F, L, V. *)
Definition put_tophd (h : flv_tophd_t) : list Z :=
  wire_put u8_codec 0x46 ++ wire_put u8_codec 0x4C ++ wire_put u8_codec 0x56 ++
  wire_put u8_codec (version h) ++ wire_put u8_codec (flag h) ++ wire_put u32_codec OFFSET_VALUE.
Definition get_tophd (l : list Z) : outcome (flv_tophd_t * list Z) :=
  if (length l <? TOPHD_LENGTH)%nat then Throw "not enougth data"
  else
    let* (c1, l1) := wire_get u8_codec l in
    let* (c2, l2) := wire_get u8_codec l1 in
    let* (c3, l3) := wire_get u8_codec l2 in
    if negb (c1 =? 0x46) || negb (c2 =? 0x4C) || negb (c3 =? 0x56) then Throw "Invalid header marker"
    else
      let* (version, l4) := wire_get u8_codec l3 in
      let* (flag, l5) := wire_get u8_codec l4 in
      let* (offset, l6) := wire_get u32_codec l5 in
      if negb (offset =? OFFSET_VALUE) then Throw "Invalid offset length"
      else
        let h := Tophd version flag in
        if tophd_is_null h then Throw "Invalid null flv_tophd_t" else Ok (h, l6).

(* ------------------------------------------------------------------ *)
(** * flv_taghd_t *)
(* ------------------------------------------------------------------ *)

Definition TAGHD_LENGTH : nat := 15.

Definition TAG_AUDIO : Z := 0x08.
Definition TAG_VIDEO : Z := 0x09.
Definition TAG_META : Z := 0x12.
Definition FLV_TYPE_NONE : Z := -1.

Record flv_taghd_t := Taghd {
  prevtag_size : Z;
  tag_type : Z;
  tag_length : Z;                                         (* [body_length] *)
  tag_timestamp : Z;
  tag_padding : Z
}.
Definition taghd_is_null (h : flv_taghd_t) : bool := tag_type h =? FLV_TYPE_NONE.

Definition put_taghd (h : flv_taghd_t) : outcome (list Z) :=
  let* len := DOSERIAL_24BIT (tag_length h) in
  let* ts := DOSERIAL_24BIT (wrap 32 (tag_timestamp h)) in
  Ok (wire_put u32_codec (prevtag_size h) ++ wire_put u8_codec (wrap 8 (tag_type h)) ++ len ++ ts ++ wire_put u32_codec (tag_padding h)).
Definition get_taghd (l : list Z) : outcome (flv_taghd_t * list Z) :=
  if (length l <? TAGHD_LENGTH)%nat then Throw "not enougth data"
  else
    let* (prevtag_size, l1) := wire_get u32_codec l in
    let* (type, l2) := wire_get u8_codec l1 in
    let* (body_length, l3) := UNSERIAL_24BIT l2 in
    let* (timestamp_ms, l4) := UNSERIAL_24BIT l3 in
    let* (padding, l5) := wire_get u32_codec l4 in
    let h := Taghd prevtag_size type body_length (from_msec timestamp_ms) padding in
    if taghd_is_null h then Throw "Invalid null flv_taghd_t" else Ok (h, l5).

(* ------------------------------------------------------------------ *)
(** * flv_taghd_audio_t and flv_taghd_video_t *)
(* ------------------------------------------------------------------ *)

Record flv_taghd_audio_t := TaghdAudio { soundtype : Z; soundsize : Z; soundrate : Z; soundformat : Z }.
Record flv_taghd_video_t := TaghdVideo { codecid : Z; frametype : Z }.
Definition FRAME_KEY : Z := 0x01.

Definition audio_is_null (a : flv_taghd_audio_t) : bool :=
  (soundtype a =? FLV_TYPE_NONE) || (soundsize a =? FLV_TYPE_NONE) || (soundrate a =? FLV_TYPE_NONE) || (soundformat a =? FLV_TYPE_NONE).
Definition video_is_null (v : flv_taghd_video_t) : bool := (codecid v =? FLV_TYPE_NONE) || (frametype v =? FLV_TYPE_NONE).

Definition put_audio (a : flv_taghd_audio_t) : list Z :=
  let tmp := wrap 8 (Z.shiftl (Z.land (wrap 8 (soundtype a)) 0x01) 0) in
  let tmp := wrap 8 (tmp + Z.shiftl (Z.land (wrap 8 (soundsize a)) 0x01) 1) in
  let tmp := wrap 8 (tmp + Z.shiftl (Z.land (wrap 8 (soundrate a)) 0x03) 2) in
  let tmp := wrap 8 (tmp + Z.shiftl (Z.land (wrap 8 (soundformat a)) 0x0F) 4) in
  wire_put u8_codec tmp.
Definition get_audio (l : list Z) : outcome (flv_taghd_audio_t * list Z) :=
  if (length l <? 1)%nat then Throw "not enougth data"
  else
    let* (tmp, l1) := wire_get u8_codec l in
    let a := TaghdAudio (Z.shiftr (Z.land tmp 0x01) 0) (Z.shiftr (Z.land tmp 0x02) 1) (Z.shiftr (Z.land tmp 0x0C) 2) (Z.shiftr (Z.land tmp 0xF0) 4) in
    if audio_is_null a then Throw "Invalid null flv_taghd_audio_t" else Ok (a, l1).

Definition put_video (v : flv_taghd_video_t) : list Z :=
  let tmp := wrap 8 (Z.shiftl (Z.land (wrap 8 (codecid v)) 0x0F) 0) in
  let tmp := wrap 8 (tmp + Z.shiftl (Z.land (wrap 8 (frametype v)) 0x0F) 4) in
  wire_put u8_codec tmp.
Definition get_video (l : list Z) : outcome (flv_taghd_video_t * list Z) :=
  if (length l <? 1)%nat then Throw "not enougth data"
  else
    let* (tmp, l1) := wire_get u8_codec l in
    let v := TaghdVideo (Z.shiftr (Z.land tmp 0x0F) 0) (Z.shiftr (Z.land tmp 0xF0) 4) in
    if video_is_null v then Throw "Invalid null flv_taghd_video_t" else Ok (v, l1).

(* ------------------------------------------------------------------ *)
(** * flv_parse_t *)
(* ------------------------------------------------------------------ *)

Inductive flv_err := ErrTophd (reason : string) | ErrTaghd (reason : string) | ErrFlvMaxlen (maxlen : Z).
Inductive flv_parse_event_t := FlvError (e : flv_err) | FlvTophd (tophd : flv_tophd_t) | FlvTag (taghd : flv_taghd_t) (tagdata : list Z).
Inductive flv_parse_state_t := TOPHD | TAG.

(** The events are kept with the length parsed when they are told, which the
    callback reads from the parser. *)
Abbreviation flv_event := (Z * flv_parse_event_t)%type.

Record flv_parse_t := FlvParse {
  flv_state : flv_parse_state_t;
  parsed_length : Z;
  flv_buffer : list Z;
  flv_maxlen : Z;                                         (* [buffer_maxlen] of the profile *)
  flv_timer : bool                                        (* the zerotimer has an entry *)
}.
Definition FLV_BUFFER_MAXLEN : Z := 256 * 1024.
Definition flv_parse_ctor (maxlen : Z) : flv_parse_t := FlvParse TOPHD 0 [] maxlen false.

Section flv.
Variable cb : flv_event -> bool.

(** The parsing functions give [*stop_parsing], the events, and the parser unless
    it was deleted.  An error leaves [*stop_parsing] false. *)
Definition parse_tophd (p : flv_parse_t) : outcome (bool * list flv_event * option flv_parse_t) :=
  assert! match flv_state p with TOPHD => true | TAG => false end in
  if (length (flv_buffer p) <? TOPHD_LENGTH)%nat then Ok (true, [], Some p)
  else
    match get_tophd (flv_buffer p) with
    | Throw reason =>
      let e := (parsed_length p, FlvError (ErrTophd reason)) in
      Ok (false, [e], if cb e then Some p else None)
    | Ok (flv_tophd, _) =>
      let e := (parsed_length p, FlvTophd flv_tophd) in
      let p1 := FlvParse TAG (wrap 64 (parsed_length p + Z.of_nat TOPHD_LENGTH)) (drop TOPHD_LENGTH (flv_buffer p)) (flv_maxlen p) (flv_timer p) in
      Ok (false, [e], if cb e then Some p1 else None)
    | AssertFail => AssertFail
    | Fault => Fault
    end.

Definition parse_tag (p : flv_parse_t) : outcome (bool * list flv_event * option flv_parse_t) :=
  assert! match flv_state p with TAG => true | TOPHD => false end in
  if (length (flv_buffer p) <? TAGHD_LENGTH)%nat then Ok (true, [], Some p)
  else
    match get_taghd (flv_buffer p) with
    | Throw reason =>
      let e := (parsed_length p, FlvError (ErrTaghd reason)) in
      Ok (false, [e], if cb e then Some p else None)
    | Ok (flv_taghd, _) =>
      let total_len := (TAGHD_LENGTH + Z.to_nat (tag_length flv_taghd))%nat in
      if (length (flv_buffer p) <? total_len)%nat then Ok (true, [], Some p)
      else
        let tag_data := take (Z.to_nat (tag_length flv_taghd)) (drop TAGHD_LENGTH (flv_buffer p)) in
        let e := (parsed_length p, FlvTag flv_taghd tag_data) in
        let p1 := FlvParse (flv_state p) (wrap 64 (parsed_length p + Z.of_nat total_len)) (drop total_len (flv_buffer p)) (flv_maxlen p) (flv_timer p) in
        Ok (false, [e], if cb e then Some p1 else None)
    | AssertFail => AssertFail
    | Fault => Fault
    end.

(** The loop. *)
Fixpoint flv_parse_loop (fuel : nat) (p : flv_parse_t) : outcome (list flv_event * option flv_parse_t) :=
  match fuel with
  | O => Fault
  | S fuel' =>
    let* (stop_parsing, evs, p1) := (match flv_state p with TOPHD => parse_tophd p | TAG => parse_tag p end) in
    match p1 with
    | None => Ok (evs, None)
    | Some p2 =>
      if (stop_parsing : bool) then Ok (evs, Some p2)
      else let* (evs', p3) := flv_parse_loop fuel' p2 in Ok (evs ++ evs', p3)
    end
  end.
Definition flv_parse_buffer (p : flv_parse_t) : outcome (list flv_event * option flv_parse_t) :=
  let* (evs, p1) := flv_parse_loop (S (length (flv_buffer p))) p in
  match p1 with
  | None => Ok (evs, None)
  | Some p2 =>
    if flv_maxlen p2 <? Z.of_nat (length (flv_buffer p2)) then
      let p3 := FlvParse (flv_state p2) (parsed_length p2) [] (flv_maxlen p2) (flv_timer p2) in
      let e := (parsed_length p2, FlvError (ErrFlvMaxlen (flv_maxlen p2))) in
      Ok (evs ++ [e], if cb e then Some p3 else None)
    else Ok (evs, Some p2)
  end.

Definition flv_notify_data (new_data : list Z) (p : flv_parse_t) : flv_parse_t :=
  FlvParse (flv_state p) (parsed_length p) (flv_buffer p ++ new_data) (flv_maxlen p) true.
Definition flv_zerotimer_cb (p : flv_parse_t) : outcome (list flv_event * option flv_parse_t) :=
  flv_parse_buffer (FlvParse (flv_state p) (parsed_length p) (flv_buffer p) (flv_maxlen p) false).

(** What happens to a parser, on its zerotimer. *)
Definition flv_run (ins : list stream_in) (p : flv_parse_t) : outcome (list flv_event * option flv_parse_t) :=
  stream_run flv_notify_data flv_timer flv_zerotimer_cb ins p.
End flv.

(* ------------------------------------------------------------------ *)
(** * flv_parse_helper_t *)
(* ------------------------------------------------------------------ *)

(** [None] is the null [file_size_t]; [dbg] is whether the build asserts what
    the network sends. *)
Definition kframe_boffset_from (dbg : bool) (event : flv_event) : outcome (option Z) :=
  match event with
  | (parsed_len, FlvTag taghd tag_data) =>
    if negb (tag_type taghd =? TAG_VIDEO) then Ok None
    else
      match get_video tag_data with
      | Ok (taghd_video, _) =>
        if negb (frametype taghd_video =? FRAME_KEY) then Ok None else Ok (Some (wrap 64 (parsed_len + 4)))
      | _ => dbgnet_assert dbg false (Ok None)
      end
  | _ => Ok None
  end.

(* ------------------------------------------------------------------ *)
(** * A turn *)
(* ------------------------------------------------------------------ *)

Lemma get_tophd_more l r : (TOPHD_LENGTH <= length l)%nat ->
  get_tophd (l ++ r) = (let* (h, l') := get_tophd l in Ok (h, l' ++ r)).
Proof.
  unfold TOPHD_LENGTH. intros Hl. do 9 (destruct l as [|? l]; [exfalso; cbn [length] in Hl; lia|]). unfold get_tophd, TOPHD_LENGTH.
  cbn [app length Nat.ltb Nat.leb]. do 3 (rewrite !u8_cons; cbn [mbind outcome_bind]). destruct (_ || _); [done|].
  do 2 (rewrite !u8_cons; cbn [mbind outcome_bind]). rewrite !u32_cons. cbn [mbind outcome_bind]. destruct (negb _); [done|]. by destruct (tophd_is_null _).
Qed.
Lemma get_taghd_more l r : (TAGHD_LENGTH <= length l)%nat ->
  get_taghd (l ++ r) = (let* (h, l') := get_taghd l in Ok (h, l' ++ r)).
Proof.
  unfold TAGHD_LENGTH. intros Hl. do 15 (destruct l as [|? l]; [exfalso; cbn [length] in Hl; lia|]). unfold get_taghd, TAGHD_LENGTH.
  cbn [app length Nat.ltb Nat.leb]. rewrite !u32_cons. cbn [mbind outcome_bind]. rewrite !u8_cons. cbn [mbind outcome_bind]. rewrite !u24_cons. cbn [mbind outcome_bind].
  rewrite !u24_cons. cbn [mbind outcome_bind]. rewrite !u32_cons. cbn [mbind outcome_bind]. by destruct (taghd_is_null _).
Qed.

(** Reading a header gives it or an error, never an abort. *)
Definition ok_or_throw {A} (r : outcome A) : Prop := match r with Ok _ | Throw _ => True | _ => False end.
Lemma get_tophd_total l : ok_or_throw (get_tophd l).
Proof.
  unfold get_tophd, TOPHD_LENGTH. destruct (Nat.ltb_spec (length l) 9) as [|Hl]; [done|]. do 9 (destruct l as [|? l]; [exfalso; cbn [length] in Hl; lia|]).
  do 3 (rewrite !u8_cons; cbn [mbind outcome_bind]). destruct (_ || _); [done|].
  do 2 (rewrite !u8_cons; cbn [mbind outcome_bind]). rewrite !u32_cons. cbn [mbind outcome_bind]. destruct (negb _); [done|]. by destruct (tophd_is_null _).
Qed.
Lemma get_taghd_total l : ok_or_throw (get_taghd l).
Proof.
  unfold get_taghd, TAGHD_LENGTH. destruct (Nat.ltb_spec (length l) 15) as [|Hl]; [done|]. do 15 (destruct l as [|? l]; [exfalso; cbn [length] in Hl; lia|]).
  rewrite !u32_cons. cbn [mbind outcome_bind]. rewrite !u8_cons. cbn [mbind outcome_bind]. rewrite !u24_cons. cbn [mbind outcome_bind].
  rewrite !u24_cons. cbn [mbind outcome_bind]. rewrite !u32_cons. cbn [mbind outcome_bind]. by destruct (taghd_is_null _).
Qed.

(** The state, and the length parsed. *)
Abbreviation flv_pos := (flv_parse_state_t * Z)%type.

Section turns.
Variable cb : flv_event -> bool.

(** After an error told to a callback that keeps the parser, the loop never
    ends. *)
Definition flv_turn (s : flv_pos) (l : list Z) : outcome (pstep flv_pos flv_event) :=
  let '(st, off) := s in
  let fail err := let e := (off, FlvError err) in if cb e then Fault else Ok (Emit 0 [e] None) in
  let took (n : nat) ev := let e := (off, ev) in Ok (Emit n [e] (if cb e then Some (TAG, wrap 64 (off + Z.of_nat n)) else None)) in
  match st with
  | TOPHD =>
    if (length l <? TOPHD_LENGTH)%nat then Ok Wait
    else match get_tophd l with
         | Ok (h, _) => took TOPHD_LENGTH (FlvTophd h)
         | Throw reason => fail (ErrTophd reason)
         | AssertFail => AssertFail
         | Fault => Fault
         end
  | TAG =>
    if (length l <? TAGHD_LENGTH)%nat then Ok Wait
    else match get_taghd l with
         | Ok (h, _) =>
           let total_len := (TAGHD_LENGTH + Z.to_nat (tag_length h))%nat in
           if (length l <? total_len)%nat then Ok Wait
           else took total_len (FlvTag h (take (Z.to_nat (tag_length h)) (drop TAGHD_LENGTH l)))
         | Throw reason => fail (ErrTaghd reason)
         | AssertFail => AssertFail
         | Fault => Fault
         end
  end.

#[export] Instance flv_turn_laws : StepLaws flv_turn.
Proof.
  split.
  - intros [st off] l m. unfold flv_turn. rewrite length_app. destruct st.
    + destruct (Nat.ltb_spec (length l) TOPHD_LENGTH) as [|Hl]; [done|]. intros _. rewrite (proj2 (Nat.ltb_ge _ _)) by lia.
      rewrite get_tophd_more by done. by destruct (get_tophd l) as [[h r]| | |].
    + destruct (Nat.ltb_spec (length l) TAGHD_LENGTH) as [|Hl]; [done|]. rewrite (proj2 (Nat.ltb_ge (length l + length m) TAGHD_LENGTH)) by lia.
      rewrite get_taghd_more by done. destruct (get_taghd l) as [[h r]| | |]; cbn [mbind outcome_bind]; try done.
      destruct (Nat.ltb_spec (length l) (TAGHD_LENGTH + Z.to_nat (tag_length h))) as [|Ht]; [done|]. intros _. rewrite (proj2 (Nat.ltb_ge _ _)) by lia.
      by rewrite drop_app_le, take_app_le by (rewrite ?length_drop; lia).
  - intros [st off] l n es s'. unfold flv_turn. destruct st.
    + destruct (Nat.ltb_spec (length l) TOPHD_LENGTH) as [|Hl]; [done|]. unfold TOPHD_LENGTH in *. destruct (get_tophd l) as [[h r]| | |]; try done; cbv beta iota zeta.
      * destruct (cb _); [|done]. intros [= <- <- <-]. lia.
      * by destruct (cb _).
    + destruct (Nat.ltb_spec (length l) TAGHD_LENGTH) as [|Hl]; [done|]. unfold TAGHD_LENGTH in *. destruct (get_taghd l) as [[h r]| | |]; try done; cbv beta iota zeta.
      * destruct (Nat.ltb_spec (length l) (15 + Z.to_nat (tag_length h))) as [|Ht]; [done|]. destruct (cb _); [|done]. intros [= <- <- <-]. lia.
      * by destruct (cb _).
Qed.

(* ------------------------------------------------------------------ *)
(** * The parser makes these turns *)
(* ------------------------------------------------------------------ *)

Definition flv_one (p : flv_parse_t) : outcome (bool * list flv_event * option flv_parse_t) :=
  match flv_state p with TOPHD => parse_tophd cb p | TAG => parse_tag cb p end.
Definition flv_at (p : flv_parse_t) : flv_pos := (flv_state p, parsed_length p).

(** The parser, moved. *)
Definition moved (p : flv_parse_t) (s : flv_pos) (b : list Z) : flv_parse_t := FlvParse s.1 s.2 b (flv_maxlen p) (flv_timer p).

Lemma flv_one_turn p :
  match flv_turn (flv_at p) (flv_buffer p) with
  | Ok Wait => flv_one p = Ok (true, [], Some p)
  | Ok (Emit n es o) => flv_one p = Ok (false, es, (fun s => moved p s (drop n (flv_buffer p))) <$> o)
  | Fault => exists e, flv_one p = Ok (false, e, Some p)
  | Throw _ | AssertFail => False
  end.
Proof.
  destruct p as [st off b mx z]. unfold flv_one, flv_at, flv_turn, moved, parse_tophd, parse_tag. cbn [flv_state parsed_length flv_buffer flv_maxlen flv_timer]. destruct st; cbn [dbg_assert].
  - destruct (_ <? _)%nat; [done|]. pose proof (get_tophd_total b). destruct (get_tophd b) as [[h r]|e| |]; try done.
    + by destruct (cb _).
    + destruct (cb _); [by eexists|done].
  - destruct (Nat.ltb_spec (length b) TAGHD_LENGTH) as [|Hl]; [done|]. pose proof (get_taghd_total b). destruct (get_taghd b) as [[h r]|e| |]; try done; cbv beta iota zeta.
    + destruct (_ <? _)%nat; [done|]. by destruct (cb _).
    + destruct (cb _); [by eexists|done].
Qed.

(** A parser that makes no progress makes none for ever. *)
Lemma flv_loop_stuck p e : flv_one p = Ok (false, e, Some p) -> forall f, flv_parse_loop cb f p = Fault.
Proof. intros He f. induction f as [|f IH]; [done|]. cbn [flv_parse_loop]. fold (flv_one p). rewrite He. cbn [mbind outcome_bind]. by rewrite IH. Qed.

Lemma flv_loop_turns f p :
  flv_parse_loop cb f p =
  match drain flv_turn f (flv_at p) (flv_buffer p) with
  | Ok (es, k) => Ok (es, (fun sb => moved p sb.1 sb.2) <$> k)
  | Throw e => Throw e
  | AssertFail => AssertFail
  | Fault => Fault
  end.
Proof.
  revert p. induction f as [|f IH]; intros p; [done|]. pose proof (flv_one_turn p) as Ht. destruct (flv_turn (flv_at p) (flv_buffer p)) as [[|n es [s|]]| | |] eqn:Et; try done.
  all: cbn [drain]; rewrite Et; cbn [flv_parse_loop mbind outcome_bind]; fold (flv_one p).
  - rewrite Ht. by destruct p.
  - rewrite Ht. cbn [fmap option_fmap option_map mbind outcome_bind]. rewrite IH.
    change (flv_at (moved p s (drop n (flv_buffer p)))) with (s.1, s.2). cbn [moved flv_buffer]. destruct s as [st off]. cbn [fst snd].
    by destruct (drain flv_turn f (st, off) (drop n (flv_buffer p))) as [[es' [[[st' off'] b']|]]| | |].
  - by rewrite Ht.
  - destruct Ht as (e & He). rewrite He. cbn [mbind outcome_bind]. by rewrite (flv_loop_stuck p e He f).
Qed.

Record flv_rep (mx : Z) (s : flv_pos) (p : flv_parse_t) : Prop := { flv_rep_at : flv_at p = s; flv_rep_maxlen : flv_maxlen p = mx }.

#[export] Instance flv_timed mx : TimedLaws flv_notify_data flv_timer (flv_zerotimer_cb cb) flv_turn flv_buffer (flv_rep mx) mx.
Proof.
  split; [apply _| |].
  - intros s d p []. done.
  - intros s p [<- <-] Hfit. unfold flv_zerotimer_cb, flv_parse_buffer. cbn [flv_buffer]. rewrite flv_loop_turns.
    change (flv_at (FlvParse _ _ _ _ _)) with (flv_at p). cbn [flv_buffer]. fold (drain_all flv_turn (flv_at p) (flv_buffer p)).
    destruct (drain_all flv_turn (flv_at p) (flv_buffer p)) as [[es [[s1 b1]|]]| | |] eqn:Ed; cbn [runs_as fmap option_fmap option_map mbind outcome_bind]; try done.
    specialize (Hfit es s1 b1 eq_refl). cbn [moved flv_maxlen flv_buffer fst snd]. rewrite (proj2 (Z.ltb_ge _ _)) by lia.
    eexists. split; [done|]. by destruct s1.
Qed.

Lemma flv_runs ins mx : all_fit flv_turn mx (TOPHD, 0) (bytes_in ins) ->
  runs_as flv_timer flv_buffer (flv_rep mx) (drain_all flv_turn (TOPHD, 0) (bytes_in ins)) (flv_run cb (ins ++ [Expire]) (flv_parse_ctor mx)).
Proof.
  intros Hfit. apply (run_pieces flv_notify_data flv_timer (flv_zerotimer_cb cb) flv_turn flv_buffer (flv_rep mx) mx ins (TOPHD, 0) (flv_parse_ctor mx)); [done|intros _; reflexivity|exact Hfit].
Qed.
End turns.

(* ------------------------------------------------------------------ *)
(** * Files *)
(* ------------------------------------------------------------------ *)

Definition tophd_ok (h : flv_tophd_t) : Prop := in_range 8 (version h) /\ version h <> 0 /\ in_range 8 (flag h).
Record taghd_ok (h : flv_taghd_t) : Prop := {
  th_prev : in_range 32 (prevtag_size h);
  th_type : in_range 8 (tag_type h);
  th_len : in_range 24 (tag_length h);
  th_time : in_range 24 (tag_timestamp h);
  th_padding : in_range 32 (tag_padding h)
}.
Definition taghd_bytes (h : flv_taghd_t) : list Z :=
  be_bytes 4 (prevtag_size h) ++ be_bytes 1 (tag_type h) ++ be_bytes 3 (tag_length h) ++ be_bytes 3 (tag_timestamp h) ++ be_bytes 4 (tag_padding h).

Lemma put_taghd_bytes h : taghd_ok h -> put_taghd h = Ok (taghd_bytes h).
Proof.
  intros [Hp Hty Hl Ht Hpd]. unfold put_taghd.
  rewrite (wrap_small 32 (tag_timestamp h)) by (unfold in_range in *; lia). rewrite !doserial_24 by done.
  cbn [mbind outcome_bind]. by rewrite (wrap_small 8 (tag_type h)) by (unfold in_range in *; lia).
Qed.
Lemma get_taghd_bytes h r : taghd_ok h -> get_taghd (taghd_bytes h ++ r) = Ok (h, r).
Proof.
  intros [Hp Hty Hl Ht Hpd]. unfold get_taghd. rewrite length_app. change (length (taghd_bytes h)) with 15%nat. unfold TAGHD_LENGTH. rewrite (proj2 (Nat.ltb_ge _ _)) by lia.
  unfold taghd_bytes. rewrite <- !app_assoc. change (be_bytes 4 ?x) with (wire_put u32_codec x). change (be_bytes 1 ?x) with (wire_put u8_codec x).
  rewrite (wire_get_put (c := u32_codec)) by done. cbn [mbind outcome_bind]. rewrite (wire_get_put (c := u8_codec)) by done. cbn [mbind outcome_bind].
  do 2 (rewrite u24_get by done; cbn [mbind outcome_bind]). rewrite (wire_get_put (c := u32_codec)) by done. cbn [mbind outcome_bind].
  unfold taghd_is_null, FLV_TYPE_NONE. cbn [tag_type]. rewrite (proj2 (Z.eqb_neq _ _)) by (unfold in_range in Hty; lia). by destruct h.
Qed.
Lemma get_tophd_bytes h r : tophd_ok h -> get_tophd (put_tophd h ++ r) = Ok (h, r).
Proof.
  intros (Hv & Hn & Hf). unfold get_tophd. rewrite length_app. change (length (put_tophd h)) with 9%nat. unfold TOPHD_LENGTH. rewrite (proj2 (Nat.ltb_ge _ _)) by lia.
  unfold put_tophd. rewrite <- !app_assoc. do 3 (rewrite (wire_get_put (c := u8_codec)) by done; cbn [mbind outcome_bind]). cbn [negb orb Z.eqb Pos.eqb].
  do 2 (rewrite (wire_get_put (c := u8_codec)) by done; cbn [mbind outcome_bind]). rewrite (wire_get_put (c := u32_codec)) by done. cbn [mbind outcome_bind negb Z.eqb Pos.eqb OFFSET_VALUE].
  unfold tophd_is_null. cbn [version]. rewrite (proj2 (Z.eqb_neq _ _)) by done. by destruct h.
Qed.

(** A tag and its body. *)
Definition tag_ok (t : flv_taghd_t * list Z) : Prop := taghd_ok t.1 /\ tag_length t.1 = Z.of_nat (length t.2).
Definition tag_bytes (t : flv_taghd_t * list Z) : list Z := taghd_bytes t.1 ++ t.2.
Definition put_tag (t : flv_taghd_t * list Z) : outcome (list Z) := let* hd := put_taghd t.1 in Ok (hd ++ t.2).

(** The tags with the offsets of their headers. *)
Fixpoint tag_events (off : Z) (tags : list (flv_taghd_t * list Z)) : list flv_event :=
  match tags with
  | [] => []
  | t :: tags' => (off, FlvTag t.1 t.2) :: tag_events (off + Z.of_nat (length (tag_bytes t))) tags'
  end.

Definition keeps : flv_event -> bool := fun _ => true.

Lemma tag_bytes_length t : length (tag_bytes t) = (TAGHD_LENGTH + length t.2)%nat.
Proof. unfold tag_bytes. by rewrite length_app. Qed.

Lemma put_tags tags : Forall tag_ok tags -> mapM put_tag tags = Ok (tag_bytes <$> tags).
Proof.
  induction 1 as [|t tags [Hh Hl] _ IH]; [done|]. assert (E : put_tag t = Ok (tag_bytes t)) by (unfold put_tag; by rewrite put_taghd_bytes).
  cbn [mapM fmap list_fmap]. rewrite E. cbn [mbind outcome_bind]. by rewrite IH.
Qed.

Lemma tophd_turn h : tophd_ok h -> flv_turn keeps (TOPHD, 0) (put_tophd h) = Ok (Emit (length (put_tophd h)) [(0, FlvTophd h)] (Some (TAG, 9))).
Proof. intros Hh. unfold flv_turn. change (length (put_tophd h)) with 9%nat. pose proof (get_tophd_bytes h [] Hh) as H. rewrite app_nil_r in H. by rewrite H. Qed.

Lemma tag_turn t off : tag_ok t -> 0 <= off -> off + Z.of_nat (length (tag_bytes t)) < 2 ^ 64 ->
  flv_turn keeps (TAG, off) (tag_bytes t) = Ok (Emit (length (tag_bytes t)) [(off, FlvTag t.1 t.2)] (Some (TAG, off + Z.of_nat (length (tag_bytes t))))).
Proof.
  destruct t as [h body]. intros [Hh Hl] Hoff Hw. cbn [fst snd] in *. unfold flv_turn. rewrite tag_bytes_length in *. cbn [snd] in *.
  rewrite (proj2 (Nat.ltb_ge _ _)) by lia. unfold tag_bytes at 1. cbn [fst snd]. rewrite get_taghd_bytes by done. cbv beta iota zeta.
  rewrite Hl, Nat2Z.id. rewrite (proj2 (Nat.ltb_ge _ _)) by lia. unfold tag_bytes. cbn [fst snd]. rewrite (drop_app_length' (taghd_bytes h) body) by done.
  rewrite firstn_all. cbn [keeps]. by rewrite wrap_small by (unfold in_range; lia).
Qed.

Section file.
Context (tail : list Z) (mx : Z) (Htail : (length tail < TAGHD_LENGTH)%nat) (Hmx : 14 <= mx).

Lemma tail_waits off : flv_turn keeps (TAG, off) tail = Ok Wait.
Proof using Htail. unfold flv_turn. by rewrite (proj2 (Nat.ltb_lt _ _) Htail). Qed.

Lemma tags_drained tags off : Forall tag_ok tags -> 0 <= off -> off + Z.of_nat (length (concat (tag_bytes <$> tags))) < 2 ^ 64 ->
  drain_all (flv_turn keeps) (TAG, off) (concat (tag_bytes <$> tags) ++ tail) =
    Ok (tag_events off tags, Some ((TAG, off + Z.of_nat (length (concat (tag_bytes <$> tags)))), tail)).
Proof using Htail.
  intros Ht. revert off. induction Ht as [|t tags Ht _ IH]; intros off Hoff Hw.
  - cbn [fmap list_fmap concat app length tag_events]. rewrite Z.add_0_r. apply (drain_waits (flv_turn keeps)), tail_waits.
  - cbn [fmap list_fmap concat] in *. rewrite length_app in *. rewrite <- app_assoc.
    rewrite (drain_unit (flv_turn keeps) _ _ _ _ _ (tag_turn t off Ht Hoff ltac:(lia))), IH by lia. cbn [mbind outcome_bind tag_events app].
    by rewrite Nat2Z.inj_add, Z.add_assoc.
Qed.

Lemma tags_fit tags off : Forall tag_ok tags -> Forall (fun t => Z.of_nat (length (tag_bytes t)) <= mx + 1) tags ->
  0 <= off -> off + Z.of_nat (length (concat (tag_bytes <$> tags))) < 2 ^ 64 ->
  all_fit (flv_turn keeps) mx (TAG, off) (concat (tag_bytes <$> tags) ++ tail).
Proof using Htail Hmx.
  intros Ht. revert off. induction Ht as [|t tags Ht _ IH]; intros off Hs Hoff Hw.
  - cbn [fmap list_fmap concat app]. eapply all_fit_wait; [apply (flv_timed keeps mx)|apply tail_waits|unfold TAGHD_LENGTH in Htail; lia].
  - apply Forall_cons in Hs as [Hs Hss]. cbn [fmap list_fmap concat] in *. rewrite length_app in *. rewrite <- app_assoc.
    eapply all_fit_unit; [apply (flv_timed keeps mx)|by apply (tag_turn t off Ht Hoff); lia|lia|]. apply IH; [done|lia|lia].
Qed.

Lemma file_runs h tags ins : tophd_ok h -> Forall tag_ok tags -> Forall (fun t => Z.of_nat (length (tag_bytes t)) <= mx + 1) tags ->
  bytes_in ins = put_tophd h ++ concat (tag_bytes <$> tags) ++ tail -> Z.of_nat (length (bytes_in ins)) < 2 ^ 64 ->
  exists p, flv_run keeps (ins ++ [Expire]) (flv_parse_ctor mx) = Ok ((0, FlvTophd h) :: tag_events 9 tags, Some p) /\
    flv_buffer p = tail /\ parsed_length p = Z.of_nat (length (bytes_in ins)) - Z.of_nat (length tail).
Proof using Htail Hmx.
  intros Hh Ht Hs Hb Hw. pose proof (flv_runs keeps ins mx) as Hr. rewrite Hb, !length_app in *. change (length (put_tophd h)) with 9%nat in *.
  assert (Hd : drain_all (flv_turn keeps) (TOPHD, 0) (put_tophd h ++ concat (tag_bytes <$> tags) ++ tail) =
    Ok ((0, FlvTophd h) :: tag_events 9 tags, Some ((TAG, 9 + Z.of_nat (length (concat (tag_bytes <$> tags)))), tail))).
  { rewrite (drain_unit (flv_turn keeps) _ _ _ _ _ (tophd_turn h Hh)). rewrite tags_drained by (done || lia). done. }
  rewrite Hd in Hr. destruct Hr as (p & Hp & [Hat _] & Hbuf & _).
  { eapply all_fit_unit; [apply (flv_timed keeps mx)|by apply tophd_turn|cbn; lia|]. apply tags_fit; [done|done|lia|lia]. }
  exists p. split; [done|]. split; [done|]. unfold flv_at in Hat. injection Hat as _ ->. lia.
Qed.
End file.

(** C19. A file received in any pieces, whenever the zerotimer runs in between, is
    told to the caller: its header, then each of its tags with its body and, as the
    length parsed, the offset of the tag in the file; what is left is what
    follows the last tag.  Its tags must fit in the buffer. *)
Theorem flv_delivers h tags tail mx ins :
  tophd_ok h -> Forall tag_ok tags -> Forall (fun t => Z.of_nat (TAGHD_LENGTH + length t.2) <= mx + 1) tags ->
  (length tail < TAGHD_LENGTH)%nat -> 14 <= mx ->
  exists bss, mapM put_tag tags = Ok bss /\
    (bytes_in ins = put_tophd h ++ concat bss ++ tail -> Z.of_nat (length (bytes_in ins)) < 2 ^ 64 ->
     exists p, flv_run keeps (ins ++ [Expire]) (flv_parse_ctor mx) = Ok ((0, FlvTophd h) :: tag_events 9 tags, Some p) /\
       flv_buffer p = tail /\ parsed_length p = Z.of_nat (length (bytes_in ins)) - Z.of_nat (length tail)).
Proof.
  intros Hh Ht Hs Htail Hmx. exists (tag_bytes <$> tags). split; [by apply put_tags|]. intros Hb Hw. by apply file_runs with (h := h).
Qed.

Lemma tag_events_at tags off off' h body tail : (off', FlvTag h body) ∈ tag_events off tags ->
  exists pre post, concat (tag_bytes <$> tags) ++ tail = pre ++ tag_bytes (h, body) ++ post /\ off' = off + Z.of_nat (length pre).
Proof.
  revert off. induction tags as [|[h0 body0] tags IH]; intros off Hin; [by apply not_elem_of_nil in Hin|]. cbn [fmap list_fmap concat tag_events fst snd] in *. apply elem_of_cons in Hin as [[= -> -> ->]|Hin].
  - exists [], (concat (tag_bytes <$> tags) ++ tail). cbn [app length]. rewrite <- app_assoc. split; [done|lia].
  - apply IH in Hin as (pre & post & E & ->). exists (tag_bytes (h0, body0) ++ pre), post. rewrite <- !app_assoc, E, length_app. split; [done|lia].
Qed.

Lemma get_video_byte b body : is_byte b -> get_video (b :: body) = Ok (TaghdVideo (b mod 16) (b / 16), body).
Proof.
  intros Hb. unfold is_byte, in_range in Hb. change (2 ^ 8) with 256 in Hb. unfold get_video. cbn [length Nat.ltb Nat.leb]. rewrite u8_cons. cbn [mbind outcome_bind].
  change 15 with (Z.ones 4). rewrite Z.land_ones, Z.shiftr_0_r by lia. rewrite Z.shiftr_land. change (Z.shiftr 240 4) with (Z.ones 4). rewrite Z.land_ones, Z.shiftr_div_pow2 by lia. change (2 ^ 4) with 16.
  assert (0 <= b / 16 < 16) by (split; [apply Z.div_pos; lia|apply Z.div_lt_upper_bound; lia]). rewrite (Z.mod_small (b / 16)) by done.
  pose proof (Z.mod_pos_bound b 16 ltac:(lia)). unfold video_is_null, FLV_TYPE_NONE. cbn [codecid frametype].
  by rewrite (proj2 (Z.eqb_neq (b mod 16) _)), (proj2 (Z.eqb_neq (b / 16) _)) by lia.
Qed.

(** C30. The offset given for a key frame is where a player may start in the file:
    the byte there is the type of a video tag, the one eleven bytes further, the first
    of its body, says key frame in its upper half, and every tag whose
    bytes say so is given. *)
Theorem flv_kframes dbg h tags tail off hd b body : let file := put_tophd h ++ concat (tag_bytes <$> tags) ++ tail in
  Z.of_nat (length file) < 2 ^ 64 -> is_byte b -> in_range 8 (tag_type hd) -> (off, FlvTag hd (b :: body)) ∈ tag_events 9 tags ->
  let k := off + 4 in
  file !! Z.to_nat k = Some (tag_type hd) /\ file !! Z.to_nat (k + 11) = Some b /\
  kframe_boffset_from dbg (off, FlvTag hd (b :: body)) = Ok (if (tag_type hd =? TAG_VIDEO) && (b / 16 =? FRAME_KEY) then Some k else None).
Proof.
  intros file Hw Hb Hty Hin k. destruct (tag_events_at tags 9 off hd (b :: body) tail Hin) as (pre & post & E & ->). unfold k, file in *. rewrite E in *. clear E Hin.
  assert (Hl : forall i, (put_tophd h ++ pre ++ tag_bytes (hd, b :: body) ++ post) !! Z.to_nat (9 + Z.of_nat (length pre) + Z.of_nat i) = (tag_bytes (hd, b :: body) ++ post) !! i).
  { intros i. replace (Z.to_nat (9 + Z.of_nat (length pre) + Z.of_nat i)) with (9 + (length pre + i))%nat by lia.
    rewrite lookup_app_r by (cbn [length put_tophd]; change (length (put_tophd h)) with 9%nat; lia). change (length (put_tophd h)) with 9%nat.
    rewrite lookup_app_r by lia. f_equal. lia. }
  split; [|split].
  - change 4 with (Z.of_nat 4). rewrite Hl. unfold tag_bytes, taghd_bytes. cbn. f_equal. unfold in_range in Hty. change (2 ^ 8) with 256 in Hty. by apply Z.mod_small.
  - rewrite <- Z.add_assoc. change (4 + 11) with (Z.of_nat 15). by rewrite Hl.
  - cbn [kframe_boffset_from]. destruct (tag_type hd =? TAG_VIDEO); [|done]. cbn [negb andb]. rewrite get_video_byte by done. cbn [frametype].
    destruct (b / 16 =? FRAME_KEY); [|done]. cbn [negb]. rewrite wrap_small; [done|]. unfold in_range. rewrite !length_app, tag_bytes_length in Hw.
    cbn [snd length] in Hw. unfold TAGHD_LENGTH in Hw. lia.
Qed.

(* ------------------------------------------------------------------ *)
(** * Failures *)
(* ------------------------------------------------------------------ *)

(** A callback that deletes the parser on an error. *)
Definition drops_errors (cb : flv_event -> bool) : Prop := forall off e, cb (off, FlvError e) = false.

Lemma flv_turn_ok cb s l : drops_errors cb -> exists r, flv_turn cb s l = Ok r.
Proof.
  intros Hcb. destruct s as [st off]. unfold flv_turn. destruct st.
  - destruct (_ <? _)%nat; [by eexists|]. pose proof (get_tophd_total l). destruct (get_tophd l) as [[h r]|e| |]; try done; [by eexists|]. cbv beta zeta. rewrite Hcb. by eexists.
  - destruct (_ <? _)%nat; [by eexists|]. pose proof (get_taghd_total l). destruct (get_taghd l) as [[h r]|e| |]; try done; cbv beta zeta; [|rewrite Hcb; by eexists].
    destruct (_ <? _)%nat; by eexists.
Qed.

Lemma flv_run_ok cb ins p : drops_errors cb -> exists r, flv_run cb ins p = Ok r.
Proof.
  intros Hcb. unfold flv_run. revert p. induction ins as [|i ins IH]; intros p; [by eexists|]. cbn [stream_run].
  assert (exists r, stream_step flv_notify_data flv_timer (flv_zerotimer_cb cb) i p = Ok r) as [[es [p1|]] ->]; cbn [mbind outcome_bind]; [|destruct (IH p1) as [[es' o] ->]|]; try by eexists.
  destruct i as [d|]; [by eexists|]. cbn [stream_step]. destruct (flv_timer p); [|by eexists]. unfold flv_zerotimer_cb, flv_parse_buffer. rewrite flv_loop_turns.
  cbn [flv_buffer]. change (flv_at (FlvParse _ _ _ _ _)) with (flv_at p). fold (drain_all (flv_turn cb) (flv_at p) (flv_buffer p)).
  destruct (drain_ok (flv_turn cb) (flv_at p) (flv_buffer p)) as [[es [[s b]|]] ->]; [intros; by apply flv_turn_ok| |by eexists].
  cbn [fmap option_fmap option_map mbind outcome_bind]. destruct (_ <? _); by eexists.
Qed.


(** The bits of an audio header. *)
Record audio_ok (a : flv_taghd_audio_t) : Prop := {
  au_type : 0 <= soundtype a < 2; au_size : 0 <= soundsize a < 2; au_rate : 0 <= soundrate a < 4; au_format : 0 <= soundformat a < 16
}.

(** The byte of an audio header. *)
Definition audio_byte (a : flv_taghd_audio_t) : Z := default 0 (head (put_audio a)).
Definition audio_bits (b : Z) : flv_taghd_audio_t :=
  TaghdAudio (Z.shiftr (Z.land b 0x01) 0) (Z.shiftr (Z.land b 0x02) 1) (Z.shiftr (Z.land b 0x0C) 2) (Z.shiftr (Z.land b 0xF0) 4).
Definition audio_back (t s r f : Z) : bool :=
  let b := audio_byte (TaghdAudio t s r f) in let a := audio_bits b in
  (soundtype a =? t) && (soundsize a =? s) && (soundrate a =? r) && (soundformat a =? f).

Lemma audio_backs t s r f : 0 <= t < 2 -> 0 <= s < 2 -> 0 <= r < 4 -> 0 <= f < 16 -> audio_back t s r f = true.
Proof.
  intros Ht Hs Hr Hf.
  assert (Hall : forallb (fun t => forallb (fun s => forallb (fun r => forallb (audio_back t s r) (seqZ 0 16)) (seqZ 0 4)) (seqZ 0 2)) (seqZ 0 2) = true) by (vm_compute; reflexivity).
  assert (Hin : forall x n, 0 <= x < n -> In x (seqZ 0 n)) by (intros x n H; apply list_elem_of_In, elem_of_seqZ; lia).
  rewrite forallb_forall in Hall. specialize (Hall t (Hin _ _ Ht)). rewrite forallb_forall in Hall. specialize (Hall s (Hin _ _ Hs)).
  rewrite forallb_forall in Hall. specialize (Hall r (Hin _ _ Hr)). rewrite forallb_forall in Hall. exact (Hall f (Hin _ _ Hf)).
Qed.

Lemma get_put_audio a rest : audio_ok a -> get_audio (put_audio a ++ rest) = Ok (a, rest).
Proof.
  intros [Ht Hs Hr Hf]. pose proof (audio_backs _ _ _ _ Ht Hs Hr Hf) as Hb. destruct a as [t s r f]. cbn [soundtype soundsize soundrate soundformat] in *.
  change (put_audio (TaghdAudio t s r f) ++ rest) with (audio_byte (TaghdAudio t s r f) :: rest). unfold audio_back in Hb.
  set (b := audio_byte (TaghdAudio t s r f)) in *. clearbody b. unfold get_audio. cbn [length Nat.ltb Nat.leb]. rewrite u8_cons. cbn [mbind outcome_bind]. fold (audio_bits b).
  assert (audio_bits b = TaghdAudio t s r f) as ->.
  { destruct (audio_bits b) as [t' s' r' f']. cbn [soundtype soundsize soundrate soundformat] in Hb. apply andb_true_iff in Hb as [[[Hb1%Z.eqb_eq Hb2%Z.eqb_eq]%andb_true_iff Hb3%Z.eqb_eq]%andb_true_iff Hb4%Z.eqb_eq]. by subst. }
  unfold audio_is_null, FLV_TYPE_NONE. cbn [soundtype soundsize soundrate soundformat].
  by rewrite (proj2 (Z.eqb_neq t _)), (proj2 (Z.eqb_neq s _)), (proj2 (Z.eqb_neq r _)), (proj2 (Z.eqb_neq f _)) by lia.
Qed.

Lemma put_video_byte c f : 0 <= f -> put_video (TaghdVideo c f) = [16 * (f mod 16) + c mod 16].
Proof.
  intros Hf. unfold put_video. cbn [codecid frametype]. change 15 with (Z.ones 4). rewrite !Z.land_ones, Z.shiftl_0_r by lia. change (2 ^ 4) with 16.
  rewrite !Z.shiftl_mul_pow2 by lia. change (2 ^ 4) with 16. cbn [wire_put u8_codec be_bytes app]. f_equal.
  assert (H16 : forall z, wrap 8 z mod 16 = z mod 16).
  { intros z. unfold wrap. change (2 ^ 8) with (16 * 16). rewrite Z.rem_mul_r by lia. rewrite (Z.mul_comm 16 (_ mod 16)), Z.mod_add, Zmod_mod by lia. done. }
  rewrite !H16. pose proof (Z.mod_pos_bound c 16 ltac:(lia)). pose proof (Z.mod_pos_bound f 16 ltac:(lia)).
  rewrite (wrap_small 8 (c mod 16)) by (unfold in_range; change (2 ^ 8) with 256; lia). rewrite (wrap_small 8) by (unfold in_range; change (2 ^ 8) with 256; lia).
  rewrite Z.mod_small by lia. lia.
Qed.

(** The four headers are read back from what is written, whatever follows, when
    their fields are in range; a number of codec out of its range is read as its
    remainder. *)
Theorem flv_headers_roundtrip h hd a v rest :
  tophd_ok h -> taghd_ok hd -> audio_ok a -> 0 <= frametype v < 16 ->
  get_tophd (put_tophd h ++ rest) = Ok (h, rest) /\
  (exists bs, put_taghd hd = Ok bs /\ length bs = TAGHD_LENGTH /\ get_taghd (bs ++ rest) = Ok (hd, rest)) /\
  get_audio (put_audio a ++ rest) = Ok (a, rest) /\
  get_video (put_video v ++ rest) = Ok (TaghdVideo (codecid v mod 16) (frametype v), rest).
Proof.
  intros Hh Hhd Ha Hf. split; [by apply get_tophd_bytes|]. split; [|split].
  - exists (taghd_bytes hd). split; [by apply put_taghd_bytes|]. split; [done|by apply get_taghd_bytes].
  - by apply get_put_audio.
  - destruct v as [c f]. cbn [codecid frametype] in *. rewrite put_video_byte by lia. cbn [app]. pose proof (Z.mod_pos_bound c 16 ltac:(lia)). rewrite (Z.mod_small f) by lia.
    rewrite get_video_byte by (unfold is_byte, in_range; change (2 ^ 8) with 256; lia). rewrite Z.mul_comm, Z.add_comm, Z.mod_add, Z.div_add, Zmod_mod, Z.div_small by lia. done.
Qed.

(* ------------------------------------------------------------------ *)
(** * Witnesses *)
(* ------------------------------------------------------------------ *)

Definition ex_tophd : flv_tophd_t := Tophd 1 5.
Definition ex_tag : flv_taghd_t * list Z := (Taghd 0 TAG_VIDEO 3 40 0, [0x12; 1; 2]).
Definition ex_tag2 : flv_taghd_t * list Z := (Taghd 18 TAG_AUDIO 1 60 0, [0x2E]).

Lemma ex_tags_ok : tophd_ok ex_tophd /\ Forall tag_ok [ex_tag; ex_tag2].
Proof. split; [by repeat split|]. repeat constructor; by cbn. Qed.

Lemma flv_delivers_witness : exists p,
  flv_run keeps ([Data (put_tophd ex_tophd ++ [0; 0]); Expire; Data ([0; 0] ++ drop 4 (tag_bytes ex_tag)); Data (tag_bytes ex_tag2 ++ [0; 0; 0; 16])] ++ [Expire]) (flv_parse_ctor FLV_BUFFER_MAXLEN) =
    Ok ([(0, FlvTophd ex_tophd); (9, FlvTag ex_tag.1 ex_tag.2); (27, FlvTag ex_tag2.1 ex_tag2.2)], Some p) /\ flv_buffer p = [0; 0; 0; 16].
Proof.
  destruct ex_tags_ok as [Hh Ht].
  destruct (flv_delivers ex_tophd [ex_tag; ex_tag2] [0; 0; 0; 16] FLV_BUFFER_MAXLEN
    [Data (put_tophd ex_tophd ++ [0; 0]); Expire; Data ([0; 0] ++ drop 4 (tag_bytes ex_tag)); Data (tag_bytes ex_tag2 ++ [0; 0; 0; 16])] Hh Ht) as (bss & E & H).
  - repeat constructor; by vm_compute.
  - unfold TAGHD_LENGTH; cbn; lia.
  - by vm_compute.
  - vm_compute in E. injection E as <-. destruct H as (p & H & Hb & _); [reflexivity|by vm_compute|]. exists p. split; [exact H|exact Hb].
Defined.

Lemma flv_kframes_witness :
  kframe_boffset_from true (9, FlvTag ex_tag.1 ex_tag.2) = Ok (Some 13) /\
  (put_tophd ex_tophd ++ concat (tag_bytes <$> [ex_tag; ex_tag2]) ++ []) !! 13%nat = Some TAG_VIDEO.
Proof.
  destruct (flv_kframes true ex_tophd [ex_tag; ex_tag2] [] 9 ex_tag.1 0x12 [1; 2]) as (H1 & _ & H2).
  - by vm_compute.
  - by vm_compute.
  - by vm_compute.
  - apply elem_of_cons. left. reflexivity.
  - split; [exact H2|exact H1].
Defined.


Lemma flv_headers_roundtrip_witness : get_audio (put_audio (TaghdAudio 1 1 3 2) ++ [7]) = Ok (TaghdAudio 1 1 3 2, [7]).
Proof.
  destruct ex_tags_ok as [Hh [[Ht _] _]%Forall_cons].
  apply (flv_headers_roundtrip ex_tophd ex_tag.1 (TaghdAudio 1 1 3 2) (TaghdVideo 2 1) [7] Hh Ht); [split; by cbn|by cbn].
Defined.
