(* ===== verification/FileRange.v ===== *)
(** Sizes and ranges of files: [file_size_t] and [file_range_t]
    (src/src/neoip_file/base/).  A size is a [uint64_t] with two reserved values
    below the top of the type; a range has its first and its last byte, both
    included, and can not be empty: it is null instead. *)
From S2P Require Import Prelude.

(* ------------------------------------------------------------------ *)
(** * file_size_t *)
(* ------------------------------------------------------------------ *)

Definition FS_MAX : Z := 0xFFFFFFFFFFFFFFE.
Definition FS_NONE : Z := 0xFFFFFFFFFFFFFFF.
Definition fs_is_null (v : Z) : bool := v =? FS_NONE.

Definition fs_add (a b : Z) : Z := wrap 64 (a + b).
Definition fs_sub (a b : Z) : Z := wrap 64 (a - b).
Definition fs_mul (a b : Z) : Z := wrap 64 (a * b).
(** Division by zero traps. *)
Definition fs_div (a b : Z) : outcome Z := if b =? 0 then Fault else Ok (a / b).
Definition fs_mod (a b : Z) : outcome Z := if b =? 0 then Fault else Ok (a mod b).

Definition fs_to_size_t (v : Z) : outcome Z := assert! v <=? max_unsigned 64 in Ok v.

(** [ceil_div], on file sizes. *)
Definition fs_ceil_div (num div : Z) : outcome Z := fs_div (fs_add num (fs_sub div 1)) div.

(* ------------------------------------------------------------------ *)
(** * file_range_t *)
(* ------------------------------------------------------------------ *)

Record file_range_t := FileRange { m_beg : Z; m_end : Z }.
#[export] Instance file_range_eq_dec : EqDecision file_range_t.
Proof. solve_decision. Defined.

Definition null_range : file_range_t := FileRange FS_NONE FS_NONE.
Definition range_is_null (r : file_range_t) : bool := fs_is_null (m_beg r) || fs_is_null (m_end r).
Definition is_sane (r : file_range_t) : bool :=
  if range_is_null r then true
  else if fs_is_null (m_beg r) || fs_is_null (m_end r) then false
  else if m_beg r =? FS_MAX then false
  else if m_end r <? m_beg r then false
  else true.

Definition file_range (beg end' : Z) : outcome file_range_t :=
  let r := FileRange beg end' in assert! is_sane r in Ok r.
Definition from_offlen (off length : Z) : outcome file_range_t :=
  assert! 0 <? length in file_range off (fs_sub (fs_add off length) 1).
Definition set_beg (value : Z) (r : file_range_t) : outcome file_range_t := file_range value (m_end r).
Definition set_end (value : Z) (r : file_range_t) : outcome file_range_t := file_range (m_beg r) value.

Definition range_len (r : file_range_t) : Z := fs_add (fs_sub (m_end r) (m_beg r)) 1.
Definition range_contain (r : file_range_t) (v : Z) : bool := (m_beg r <=? v) && (v <=? m_end r).

Definition both_set (r other : file_range_t) : bool := negb (range_is_null r) && negb (range_is_null other).
Definition range_is_distinct (r other : file_range_t) : outcome bool :=
  assert! both_set r other in
  Ok (if m_end other <? m_beg r then true else if m_end r <? m_beg other then true else false).
Definition fully_include (r other : file_range_t) : outcome bool :=
  assert! both_set r other in
  Ok (if m_beg other <? m_beg r then false else if m_end r <? m_end other then false else true).
Definition range_is_contiguous (r other : file_range_t) : outcome bool :=
  assert! both_set r other in
  Ok (if m_beg r =? fs_add (m_end other) 1 then true else if fs_add (m_end r) 1 =? m_beg other then true else false).

Definition clamped_by (other r : file_range_t) : outcome file_range_t :=
  assert! both_set r other in
  let* distinct := range_is_distinct r other in
  if (distinct : bool) then Ok null_range
  else
    let* r1 := if m_beg r <? m_beg other then set_beg (m_beg other) r else Ok r in
    let* r2 := if m_end other <? m_end r1 then set_end (m_end other) r1 else Ok r1 in
    assert! is_sane r2 in Ok r2.

(** Null ranges first. *)
Definition range_compare (r other : file_range_t) : Z :=
  if range_is_null r && negb (range_is_null other) then -1
  else if negb (range_is_null r) && range_is_null other then 1
  else if range_is_null r && range_is_null other then 0
  else if m_beg r <? m_beg other then -1
  else if m_beg other <? m_beg r then 1
  else if m_end r <? m_end other then -1
  else if m_end other <? m_end r then 1
  else 0.

(* ------------------------------------------------------------------ *)
(** * Lemmas *)
(* ------------------------------------------------------------------ *)

(** The offsets of bytes that can be stored: below the reserved values. *)
Definition offset_ok (v : Z) : Prop := 0 <= v < FS_MAX.
Definition range_ok (r : file_range_t) : Prop := 0 <= m_beg r <= m_end r /\ m_end r < FS_MAX.

Lemma fs_small v : 0 <= v < 2 ^ 64 -> wrap 64 v = v.
Proof. apply wrap_small. Qed.

(** Arithmetic that does not wrap, with the constants unfolded for [lia]. *)
Ltac fs_lia := unfold offset_ok, range_ok, FS_MAX, FS_NONE, max_unsigned, fs_add, fs_sub, fs_mul in *; cbn [m_beg m_end] in *;
  change (2 ^ 64) with 18446744073709551616 in *;
  repeat match goal with
  | |- context [wrap 64 ?x] => lazymatch x with context [wrap] => fail | _ => rewrite (fs_small x) by (change (2 ^ 64) with 18446744073709551616; lia) end
  end; lia.

Lemma range_ok_not_null r : range_ok r -> range_is_null r = false.
Proof. intros [? ?]. unfold range_is_null, fs_is_null. rewrite !(proj2 (Z.eqb_neq _ _)) by fs_lia. done. Qed.

Lemma range_ok_sane r : range_ok r -> is_sane r = true.
Proof.
  intros Hr. unfold is_sane. rewrite range_ok_not_null by done. destruct Hr as [? ?]. unfold fs_is_null.
  rewrite !(proj2 (Z.eqb_neq _ _)) by fs_lia. cbn. by rewrite (proj2 (Z.ltb_ge _ _)) by fs_lia.
Qed.

Lemma file_range_ok b e : 0 <= b <= e -> e < FS_MAX -> file_range b e = Ok (FileRange b e).
Proof. intros ? ?. unfold file_range. by rewrite range_ok_sane by done. Qed.

Lemma both_set_ok r other : range_ok r -> range_ok other -> both_set r other = true.
Proof. intros. unfold both_set. by rewrite !range_ok_not_null by done. Qed.

Lemma range_len_ok r : range_ok r -> range_len r = m_end r - m_beg r + 1.
Proof. intros [? ?]. unfold range_len. fs_lia. Qed.

Lemma from_offlen_ok off len : 0 <= off -> 0 < len -> off + len <= FS_MAX -> from_offlen off len = Ok (FileRange off (off + len - 1)).
Proof.
  intros. unfold from_offlen. rewrite (proj2 (Z.ltb_lt _ _)) by done. cbn [dbg_assert].
  replace (fs_sub (fs_add off len) 1) with (off + len - 1) by fs_lia. apply file_range_ok; fs_lia.
Qed.

Lemma distinct_ok r other : range_ok r -> range_ok other ->
  range_is_distinct r other = Ok ((m_end other <? m_beg r) || (m_end r <? m_beg other)).
Proof. intros. unfold range_is_distinct. rewrite both_set_ok by done. cbn. by repeat split_if. Qed.

(** Two ranges that meet are clamped to their intersection, others to the null range. *)
Lemma clamped_by_ok r other : range_ok r -> range_ok other ->
  clamped_by other r =
    Ok (if (m_end other <? m_beg r) || (m_end r <? m_beg other) then null_range
        else FileRange (Z.max (m_beg r) (m_beg other)) (Z.min (m_end r) (m_end other))).
Proof.
  intros Hr Ho. unfold clamped_by. rewrite both_set_ok, distinct_ok by done. cbn [dbg_assert mbind outcome_bind].
  destruct ((m_end other <? m_beg r) || (m_end r <? m_beg other)) eqn:Hd; [done|]. bool_to_prop. destruct r as [b e], other as [ob oe]. unfold set_beg, set_end.
  destruct Hr, Ho. cbn [m_beg m_end] in *.
  destruct (Z.ltb_spec b ob); rewrite ?file_range_ok by lia; cbn [mbind outcome_bind m_beg m_end];
    (destruct (Z.ltb_spec oe e); rewrite ?file_range_ok by lia; cbn [mbind outcome_bind m_beg m_end]);
    rewrite range_ok_sane by (split; cbn; lia); cbn [dbg_assert]; f_equal; f_equal; lia.
Qed.

Lemma range_compare_ok r other : range_ok r -> range_ok other -> range_compare r other = 0 <-> r = other.
Proof.
  intros Hr Ho. unfold range_compare. rewrite !range_ok_not_null by done. cbn. destruct r as [b e], other as [ob oe]. cbn.
  repeat (match goal with |- context [?a <? ?b] => destruct (Z.ltb_spec a b) end); split; try done; intros [= -> ->] || intros _; try lia.
  f_equal; lia.
Qed.
