(* ===== verification/BtMfile.v ===== *)
(** The files of a torrent: [bt_mfile_t] with its [bt_mfile_subfile_t] and
    [bt_iov_t], the pieces [bt_prange_t] and [bt_unit_t]
    (src/src/neoip_bt_core/base/), and the reads and writes of [bt_io_sfile_t]
    (src/src/neoip_bt_plugin/io/impl/sfile/).

    The data of a torrent are one sequence of bytes, the totfile: its files one
    after the other, cut into pieces of [piecelen] bytes.  A range of it is
    converted to ranges of the files ([get_iov_arr]) to be read or written, and to
    ranges of the pieces ([totfile_range_to_prange_arr]) to be exchanged. *)
From S2P Require Import Prelude Serial Codec GenId Omap Bitfield ItemArr FileRange.

(* ------------------------------------------------------------------ *)
(** * bt_mfile_subfile_t *)
(* ------------------------------------------------------------------ *)

(** The names of the levels, and the drive letter of Windows. *)
Record file_path_t := FilePath { name_db : list string; drvletter : string }.
#[export] Instance file_path_eq_dec : EqDecision file_path_t.
Proof. solve_decision. Defined.
Definition path_is_null (p : file_path_t) : bool :=
  if negb (String.eqb (drvletter p) "") then false else if negb (bool_decide (name_db p = [])) then false else true.

(** [uri_arr] is not used here. *)
Record bt_mfile_subfile_t := Subfile {
  totfile_range_precpu : file_range_t;
  mfile_path : file_path_t;
  sub_len : Z;
  local_path : file_path_t
}.

Definition subfile_is_null (s : bt_mfile_subfile_t) : bool := fs_is_null (sub_len s) || path_is_null (mfile_path s).
Definition totfile_range (s : bt_mfile_subfile_t) : outcome file_range_t :=
  assert! negb (range_is_null (totfile_range_precpu s)) in Ok (totfile_range_precpu s).
Definition subfile_is_fully_init (s : bt_mfile_subfile_t) : outcome bool :=
  if subfile_is_null s then Ok false
  else if 0 <? sub_len s then let* r := totfile_range s in Ok (negb (range_is_null r))
  else Ok true.
Definition subfile_is_sfile_ok (s : bt_mfile_subfile_t) : outcome bool :=
  let* b := subfile_is_fully_init s in
  if (b : bool) then Ok false else if path_is_null (local_path s) then Ok false else Ok true.
Definition subfile_is_pfile_ok (s : bt_mfile_subfile_t) : outcome bool :=
  let* b := subfile_is_fully_init s in if (b : bool) then Ok false else Ok true.

(* ------------------------------------------------------------------ *)
(** * bt_mfile_t *)
(* ------------------------------------------------------------------ *)

(** [announce_uri], [name] and [no_external_peersrc] are not used here. *)
Record bt_mfile_t := Mfile {
  infohash : list Z;
  piecelen : Z;
  subfile_arr : list bt_mfile_subfile_t;
  piecehash_arr : list (list Z);
  do_piecehash : bool;
  totfile_size_precpu : Z;
  nb_piece_precpu : Z;
  subfile_db : list (Z * nat)                             (* the files with data, by their offset *)
}.

Definition mfile_is_null (m : bt_mfile_t) : bool :=
  (piecelen m =? 0) || id_is_null 20 (infohash m) || bool_decide (length (subfile_arr m) = 0%nat) ||
  existsb subfile_is_null (subfile_arr m).

Definition totfile_size (m : bt_mfile_t) : outcome Z :=
  assert! negb (fs_is_null (totfile_size_precpu m)) in Ok (totfile_size_precpu m).
Definition nb_piece (m : bt_mfile_t) : outcome Z :=
  assert! negb (nb_piece_precpu m =? max_unsigned 64) in Ok (nb_piece_precpu m).

(** The loop of the tests on every file: it leaves at the first one whose test
    gives [stop], and tells whether there is one. *)
Fixpoint any_subfile (test : bt_mfile_subfile_t -> outcome bool) (stop : bool) (l : list bt_mfile_subfile_t) : outcome bool :=
  match l with
  | [] => Ok false
  | s :: l' => let* b := test s in if Bool.eqb b stop then Ok true else any_subfile test stop l'
  end.

Definition is_fully_init (m : bt_mfile_t) : outcome bool :=
  if mfile_is_null m then Ok false
  else if id_is_null 20 (infohash m) then Ok false
  else if fs_is_null (totfile_size_precpu m) then Ok false
  else if nb_piece_precpu m =? max_unsigned 64 then Ok false
  else
    let* stopped := any_subfile subfile_is_fully_init false (subfile_arr m) in
    if (stopped : bool) then Ok false
    else if do_piecehash m then
      let* nb := nb_piece m in if negb (Z.of_nat (length (piecehash_arr m)) =? nb) then Ok false else Ok true
    else Ok true.

Definition mfile_ok_with (test : bt_mfile_subfile_t -> outcome bool) (m : bt_mfile_t) : outcome bool :=
  let* b := is_fully_init m in
  if negb b then Ok false
  else let* stopped := any_subfile test true (subfile_arr m) in if (stopped : bool) then Ok false else Ok true.
Definition is_sfile_ok (m : bt_mfile_t) : outcome bool := mfile_ok_with subfile_is_sfile_ok m.
Definition is_pfile_ok (m : bt_mfile_t) : outcome bool := mfile_ok_with subfile_is_pfile_ok m.

(** The offset of each file with data, put in it and in [subfile_db]. *)
Fixpoint lay_out (l : list bt_mfile_subfile_t) (subfile_idx : nat) (totfile_beg_cur : Z) (db : list (Z * nat))
    : outcome (list bt_mfile_subfile_t * list (Z * nat)) :=
  match l with
  | [] => Ok ([], db)
  | s :: l' =>
    if sub_len s =? 0 then
      let* (l2, db2) := lay_out l' (S subfile_idx) totfile_beg_cur db in Ok (s :: l2, db2)
    else
      let* r := from_offlen totfile_beg_cur (sub_len s) in
      let s1 := Subfile r (mfile_path s) (sub_len s) (local_path s) in
      let (db1, succeed) := om_insert Z.ltb totfile_beg_cur subfile_idx db in
      assert! succeed in
      let* (l2, db2) := lay_out l' (S subfile_idx) (fs_add totfile_beg_cur (sub_len s)) db1 in
      Ok (s1 :: l2, db2)
  end.

(** With a null infohash the code would compute it from [to_bencode()], which
    asserts [is_fully_init()]. *)
Definition complete_init (m : bt_mfile_t) : outcome bt_mfile_t :=
  assert! negb (mfile_is_null m) in
  let m1 := Mfile (infohash m) (piecelen m) (subfile_arr m) (piecehash_arr m) (do_piecehash m)
              (fold_left (fun size s => fs_add size (sub_len s)) (subfile_arr m) 0) (nb_piece_precpu m) (subfile_db m) in
  let* size := totfile_size m1 in
  let* nb := fs_ceil_div size (piecelen m) in
  let* nb := fs_to_size_t nb in
  if id_is_null 20 (infohash m) then AssertFail
  else
    let* (arr, db) := lay_out (subfile_arr m) 0 0 [] in
    let m2 := Mfile (infohash m) (piecelen m) arr (piecehash_arr m) (do_piecehash m) (totfile_size_precpu m1) nb db in
    let* init := is_fully_init m2 in
    assert! init in Ok m2.

(* ------------------------------------------------------------------ *)
(** * bt_iov_t *)
(* ------------------------------------------------------------------ *)

Record bt_iov_t := Iov { subfile_idx : nat; subfile_range : file_range_t }.

Definition iov_is_null (v : bt_iov_t) : bool := range_is_null (subfile_range v).
Definition iov_compare (v other : bt_iov_t) : Z :=
  if iov_is_null v && negb (iov_is_null other) then -1
  else if negb (iov_is_null v) && iov_is_null other then 1
  else if iov_is_null v && iov_is_null other then 0
  else if (subfile_idx v <? subfile_idx other)%nat then -1
  else if (subfile_idx other <? subfile_idx v)%nat then 1
  else if range_compare (subfile_range v) (subfile_range other) <? 0 then -1
  else if 0 <? range_compare (subfile_range v) (subfile_range other) then 1
  else 0.
Definition iov_ltb (v other : bt_iov_t) : bool := iov_compare v other <? 0.
(** [bt_iov_arr_t::operator==]. *)
Definition iov_arr_eqb (l other : list bt_iov_t) : bool := item_compare iov_ltb l other =? 0.

Definition iov_is_distinct (v other : bt_iov_t) : outcome bool :=
  if negb (subfile_idx v =? subfile_idx other)%nat then Ok true
  else range_is_distinct (subfile_range v) (subfile_range other).
Definition iov_is_contiguous (v other : bt_iov_t) : outcome bool :=
  let* d := iov_is_distinct v other in
  assert! d in
  if negb (subfile_idx v =? subfile_idx other)%nat then Ok false
  else range_is_contiguous (subfile_range v) (subfile_range other).

(** [curr] is the element at the index of the loop, [l] the ones after it. *)
Fixpoint reduce_from (curr : bt_iov_t) (l : list bt_iov_t) : outcome (list bt_iov_t) :=
  match l with
  | [] => Ok [curr]
  | next :: l' =>
    let* c := iov_is_contiguous curr next in
    if (c : bool) then
      let* r := file_range (m_beg (subfile_range curr)) (m_end (subfile_range next)) in
      reduce_from (Iov (subfile_idx curr) r) l'
    else let* l2 := reduce_from next l' in Ok (curr :: l2)
  end.
Definition iov_reduce (l : list bt_iov_t) : outcome (list bt_iov_t) :=
  match l with [] => Ok [] | v :: l' => reduce_from v l' end.

(* ------------------------------------------------------------------ *)
(** * get_iov_arr *)
(* ------------------------------------------------------------------ *)

(** The position of the first key that is not below [k]. *)
Fixpoint lower_bound (k : Z) (db : list (Z * nat)) : nat :=
  match db with [] => 0 | (k', _) :: db' => if k' <? k then S (lower_bound k db') else 0 end.

Fixpoint iov_loop (arr : list bt_mfile_subfile_t) (r : file_range_t) (db : list (Z * nat)) (iov_arr : list bt_iov_t)
    : outcome (list bt_iov_t) :=
  match db with
  | [] => Ok iov_arr
  | (_, idx) :: db' =>
    let* s := item_get idx arr in
    let* sr := totfile_range s in
    if m_end r <? m_beg sr then Ok iov_arr
    else if m_end sr <? m_beg r then iov_loop arr r db' iov_arr
    else
      let* c := clamped_by r sr in
      assert! negb (range_is_null c) in
      assert! m_beg sr <=? m_beg c in
      assert! m_beg sr <=? m_end c in
      let* c1 := set_beg (fs_sub (m_beg c) (m_beg sr)) c in
      let* c2 := set_end (fs_sub (m_end c1) (m_beg sr)) c1 in
      iov_loop arr r db' (item_append (Iov idx c2) iov_arr)
  end.

Definition get_iov_arr (r : file_range_t) (m : bt_mfile_t) : outcome (list bt_iov_t) :=
  let* init := is_fully_init m in
  assert! init in
  if bool_decide (subfile_db m = []) then Ok []
  else
    let iter := lower_bound (m_beg r) (subfile_db m) in
    let iter := if (iter =? 0)%nat then iter else (iter - 1)%nat in
    let* iov_arr := iov_loop (subfile_arr m) r (drop iter (subfile_db m)) [] in
    assert! iov_arr_eqb (std_sort iov_ltb iov_arr) iov_arr in
    let* reduced := iov_reduce iov_arr in
    assert! iov_arr_eqb reduced iov_arr in
    Ok iov_arr.

(* ------------------------------------------------------------------ *)
(** * bt_unit_t and bt_prange_t *)
(* ------------------------------------------------------------------ *)

Definition totfile_to_pieceidx (off : Z) (m : bt_mfile_t) : outcome Z :=
  let* q := fs_div off (piecelen m) in fs_to_size_t q.
Definition totfile_to_pieceoff (off : Z) (m : bt_mfile_t) : outcome Z :=
  let* q := fs_mod off (piecelen m) in fs_to_size_t q.

(** [DBG_ASSERT( piece_idx < nb_piece() ); DBG_ASSERT( nb_piece() > 0 )]. *)
Definition check_idx {A} (idx : Z) (m : bt_mfile_t) (k : Z -> outcome A) : outcome A :=
  let* nb := nb_piece m in assert! idx <? nb in assert! 0 <? nb in k nb.

Definition pieceidx_to_piecelen (idx : Z) (m : bt_mfile_t) : outcome Z :=
  check_idx idx m (fun nb =>
    let* size := totfile_size m in
    let* rest := fs_mod size (piecelen m) in
    if (idx =? wrap 64 (nb - 1)) && negb (rest =? 0) then fs_to_size_t rest else Ok (piecelen m)).
Definition pieceidx_to_piecebeg (idx : Z) (m : bt_mfile_t) : outcome Z :=
  check_idx idx m (fun nb => Ok (fs_mul (piecelen m) idx)).
Definition pieceidx_to_pieceend (idx : Z) (m : bt_mfile_t) : outcome Z :=
  check_idx idx m (fun nb =>
    let* size := totfile_size m in
    if idx =? wrap 64 (nb - 1) then Ok (fs_sub size 1) else Ok (fs_sub (fs_mul (piecelen m) (wrap 64 (idx + 1))) 1)).
Definition pieceidx_to_totfile_range (idx : Z) (m : bt_mfile_t) : outcome file_range_t :=
  let* b := pieceidx_to_piecebeg idx m in
  let* r := set_beg b null_range in
  let* e := pieceidx_to_pieceend idx m in
  set_end e r.

Record bt_prange_t := Prange { piece_idx : Z; pr_offset : Z; pr_length : Z }.
#[export] Instance bt_prange_eq_dec : EqDecision bt_prange_t.
Proof. solve_decision. Defined.

Definition prange_is_null (p : bt_prange_t) : bool := pr_offset p =? max_unsigned 64.
Definition prange_compare (p other : bt_prange_t) : Z :=
  if prange_is_null p && negb (prange_is_null other) then -1
  else if negb (prange_is_null p) && prange_is_null other then 1
  else if prange_is_null p && prange_is_null other then 0
  else if piece_idx p <? piece_idx other then -1 else if piece_idx other <? piece_idx p then 1
  else if pr_offset p <? pr_offset other then -1 else if pr_offset other <? pr_offset p then 1
  else if pr_length p <? pr_length other then -1 else if pr_length other <? pr_length p then 1
  else 0.

Definition prange_totfile_beg (p : bt_prange_t) (m : bt_mfile_t) : outcome Z :=
  assert! 0 <? pr_length p in Ok (fs_add (fs_mul (piece_idx p) (piecelen m)) (pr_offset p)).
Definition prange_totfile_end (p : bt_prange_t) (m : bt_mfile_t) : outcome Z :=
  assert! 0 <? pr_length p in
  let* b := prange_totfile_beg p m in Ok (fs_sub (fs_add b (pr_length p)) 1).
Definition to_totfile_range (p : bt_prange_t) (m : bt_mfile_t) : outcome file_range_t :=
  let* r := set_beg (fs_add (fs_mul (piece_idx p) (piecelen m)) (pr_offset p)) null_range in
  set_end (fs_sub (fs_add (m_beg r) (pr_length p)) 1) r.
Definition from_totfile_range (r : file_range_t) (m : bt_mfile_t) : outcome bt_prange_t :=
  let* q1 := fs_div (m_beg r) (piecelen m) in
  let* q2 := fs_div (m_end r) (piecelen m) in
  assert! q1 =? q2 in
  let* idx := fs_to_size_t q1 in
  let* o := fs_mod (m_beg r) (piecelen m) in
  let* off := fs_to_size_t o in
  let* len := fs_to_size_t (range_len r) in
  Ok (Prange idx off len).

(** A turn per piece of the range. *)
Fixpoint prange_loop (fuel : nat) (r : file_range_t) (m : bt_mfile_t) (prange_arr : list bt_prange_t) : outcome (list bt_prange_t) :=
  match fuel with
  | O => Fault
  | S fuel' =>
    let* idx := totfile_to_pieceidx (m_beg r) m in
    let* pr := pieceidx_to_totfile_range idx m in
    let* pr := clamped_by r pr in
    let* p := from_totfile_range pr m in
    let prange_arr := item_append p prange_arr in
    if m_end pr =? m_end r then Ok prange_arr
    else let* r1 := set_beg (fs_add (m_end pr) 1) r in prange_loop fuel' r1 m prange_arr
  end.
Definition totfile_range_to_prange_arr (r : file_range_t) (m : bt_mfile_t) : outcome (list bt_prange_t) :=
  let* size := totfile_size m in
  assert! m_end r <? size in
  prange_loop (S (Z.to_nat (nb_piece_precpu m))) r m [].

(** The pieces from [i], all but the last. *)
Fixpoint avail_loop (pieceavail : list bool) (m : bt_mfile_t) (n i : nat) (avl_size : Z) : outcome Z :=
  match n with
  | O => Ok avl_size
  | S n' =>
    let* x := bf_get pieceavail i in
    avail_loop pieceavail m n' (S i) (if (x : bool) then fs_add avl_size (piecelen m) else avl_size)
  end.
Definition totfile_avail (pieceavail : list bool) (m : bt_mfile_t) : outcome Z :=
  let nb := length pieceavail in
  let* init := is_fully_init m in
  assert! init in
  let* nb_m := nb_piece m in
  assert! Z.of_nat nb =? nb_m in
  assert! negb (nb =? 0)%nat in
  let* avl_size := avail_loop pieceavail m (nb - 1) 0 0 in
  let* last := bf_get pieceavail (nb - 1) in
  if (last : bool) then
    let last_piece_off := fs_mul (Z.of_nat (nb - 1)) (piecelen m) in
    let* size := totfile_size m in
    Ok (fs_add avl_size (fs_sub size last_piece_off))
  else Ok avl_size.

(* ------------------------------------------------------------------ *)
(** * bt_io_sfile_t *)
(* ------------------------------------------------------------------ *)

(** What an operation asks of the files ([file_aread_t], [file_awrite_t]) or
    tells its caller. *)
Inductive io_out :=
| ReadAt (path : file_path_t) (beg len : Z)
| WriteAt (path : file_path_t) (beg : Z) (data : list Z)
| NotifyRead (failed : bool) (readv_data : list Z)
| NotifyWrite (failed : bool).

(** What happens to an operation: its file operation ended, or its zerotimer
    expired. *)
Inductive io_in := IoDone (failed : bool) (data : list Z) | IoZerotimer.

Section sfile.
(** Whether [file_aio_t::start] opens the file. *)
Context (opens : file_path_t -> bool).

Record bt_io_sfile_read_t := SfileRead {
  rd_mfile : bt_mfile_t;
  rd_iov_arr : list bt_iov_t;
  rd_iov_idx : nat;
  rd_data_queue : list Z;
  rd_file : bool;                                         (* [file_aio], [file_aread] *)
  rd_zerotimer : bool
}.

(** The path of the file of an iov. *)
Definition iov_path (m : bt_mfile_t) (v : bt_iov_t) : outcome file_path_t :=
  let* s := item_get (subfile_idx v) (subfile_arr m) in Ok (local_path s).

(** The request, if the file opens. *)
Definition read_launch_next_iov (st : bt_io_sfile_read_t) : outcome (option io_out) :=
  let* v := item_get (rd_iov_idx st) (rd_iov_arr st) in
  let* path := iov_path (rd_mfile st) v in
  assert! negb (rd_file st) in
  Ok (if opens path then Some (ReadAt path (m_beg (subfile_range v)) (range_len (subfile_range v))) else None).

Definition sfile_read_ctor (m : bt_mfile_t) (r : file_range_t) : outcome (bt_io_sfile_read_t * list io_out) :=
  let* arr := get_iov_arr r m in
  let* o := read_launch_next_iov (SfileRead m arr 0 [] false false) in
  match o with
  | Some o => Ok (SfileRead m arr 0 [] true false, [o])
  | None => Ok (SfileRead m arr 0 [] true true, [])
  end.

(** The caller deletes the operation when it is notified. *)
Definition sfile_read_cb (failed : bool) (aread_data : list Z) (st : bt_io_sfile_read_t)
    : outcome (option bt_io_sfile_read_t * list io_out) :=
  if failed then Ok (None, [NotifyRead true []])
  else
    let st1 := SfileRead (rd_mfile st) (rd_iov_arr st) (S (rd_iov_idx st)) (rd_data_queue st ++ aread_data) false (rd_zerotimer st) in
    if bool_decide (rd_iov_idx st1 = length (rd_iov_arr st1)) then Ok (None, [NotifyRead false (rd_data_queue st1)])
    else
      let* o := read_launch_next_iov st1 in
      match o with
      | Some o => Ok (Some (SfileRead (rd_mfile st1) (rd_iov_arr st1) (rd_iov_idx st1) (rd_data_queue st1) true (rd_zerotimer st1)), [o])
      | None => Ok (None, [NotifyRead true []])
      end.

Definition sfile_read_in (i : io_in) (st : bt_io_sfile_read_t) : outcome (option bt_io_sfile_read_t * list io_out) :=
  match i with
  | IoDone failed data => sfile_read_cb failed data st
  | IoZerotimer => if rd_zerotimer st then Ok (None, [NotifyRead true []]) else Ok (Some st, [])
  end.

Record bt_io_sfile_write_t := SfileWrite {
  wr_mfile : bt_mfile_t;
  wr_iov_arr : list bt_iov_t;
  wr_iov_idx : nat;
  data2write : list Z;
  m_written_len : Z;
  wr_file : bool;
  wr_zerotimer : bool
}.

Definition write_launch_next_iov (st : bt_io_sfile_write_t) : outcome (option io_out) :=
  let* v := item_get (wr_iov_idx st) (wr_iov_arr st) in
  let* path := iov_path (wr_mfile st) v in
  assert! negb (wr_file st) in
  if opens path then
    let* off := fs_to_size_t (m_written_len st) in
    let* len := fs_to_size_t (range_len (subfile_range v)) in
    let* tmp := datum_range (Z.to_nat off) (Z.to_nat len) (data2write st) in
    Ok (Some (WriteAt path (m_beg (subfile_range v)) tmp))
  else Ok None.

Definition sfile_write_ctor (m : bt_mfile_t) (r : file_range_t) (data : list Z) : outcome (bt_io_sfile_write_t * list io_out) :=
  assert! range_len r =? Z.of_nat (length data) in
  let* arr := get_iov_arr r m in
  let* o := write_launch_next_iov (SfileWrite m arr 0 data 0 false false) in
  match o with
  | Some o => Ok (SfileWrite m arr 0 data 0 true false, [o])
  | None => Ok (SfileWrite m arr 0 data 0 true true, [])
  end.

Definition sfile_write_cb (failed : bool) (st : bt_io_sfile_write_t) : outcome (option bt_io_sfile_write_t * list io_out) :=
  if failed then Ok (None, [NotifyWrite true])
  else
    let* v := item_get (wr_iov_idx st) (wr_iov_arr st) in
    let st1 := SfileWrite (wr_mfile st) (wr_iov_arr st) (S (wr_iov_idx st)) (data2write st)
                 (fs_add (m_written_len st) (range_len (subfile_range v))) false (wr_zerotimer st) in
    if bool_decide (wr_iov_idx st1 = length (wr_iov_arr st1)) then Ok (None, [NotifyWrite false])
    else
      let* o := write_launch_next_iov st1 in
      match o with
      | Some o => Ok (Some (SfileWrite (wr_mfile st1) (wr_iov_arr st1) (wr_iov_idx st1) (data2write st1) (m_written_len st1) true (wr_zerotimer st1)), [o])
      | None => Ok (None, [NotifyWrite true])
      end.

Definition sfile_write_in (i : io_in) (st : bt_io_sfile_write_t) : outcome (option bt_io_sfile_write_t * list io_out) :=
  match i with
  | IoDone failed _ => sfile_write_cb failed st
  | IoZerotimer => if wr_zerotimer st then Ok (None, [NotifyWrite true]) else Ok (Some st, [])
  end.
End sfile.

(* ------------------------------------------------------------------ *)
(** * The layout of the files *)
(* ------------------------------------------------------------------ *)

Definition total (l : list bt_mfile_subfile_t) : Z := foldr (fun s n => sub_len s + n) 0 l.
Definition lens_ok (l : list bt_mfile_subfile_t) : Prop := Forall (fun s => 0 <= sub_len s) l.

(** The files from the offset [off], each at the end of the one before. *)
Fixpoint placed (off : Z) (l : list bt_mfile_subfile_t) : Prop :=
  match l with
  | [] => True
  | s :: l' => 0 <= sub_len s /\ (0 < sub_len s -> totfile_range_precpu s = FileRange off (off + sub_len s - 1)) /\ placed (off + sub_len s) l'
  end.
Fixpoint db_of (l : list bt_mfile_subfile_t) (idx : nat) (off : Z) : list (Z * nat) :=
  match l with
  | [] => []
  | s :: l' => (if sub_len s =? 0 then [] else [(off, idx)]) ++ db_of l' (S idx) (off + sub_len s)
  end.

(** What [complete_init] gives. *)
Record mfile_wf (m : bt_mfile_t) : Prop := {
  wf_init : is_fully_init m = Ok true;
  wf_placed : placed 0 (subfile_arr m);
  wf_db : subfile_db m = db_of (subfile_arr m) 0 0;
  wf_size : totfile_size_precpu m = total (subfile_arr m) /\ total (subfile_arr m) < FS_MAX;
  wf_piece : 0 < piecelen m /\ total (subfile_arr m) + piecelen m <= 2 ^ 64;
  wf_nb : nb_piece_precpu m = (total (subfile_arr m) + (piecelen m - 1)) / piecelen m
}.

(** The fields a torrent gives for a file. *)
Definition given (s : bt_mfile_subfile_t) : file_path_t * Z * file_path_t := (mfile_path s, sub_len s, local_path s).

Lemma total_nonneg l : lens_ok l -> 0 <= total l.
Proof. induction 1; simpl; lia. Qed.

Lemma total_app l l2 : total (l ++ l2) = total l + total l2.
Proof. unfold total. induction l as [|s l IH]; simpl in *; lia. Qed.

Lemma total_given l l2 : map given l = map given l2 -> total l = total l2.
Proof.
  unfold total. revert l2. induction l as [|s l IH]; intros [|s2 l2]; try done. cbn [map foldr]. intros [= _ Hl _ H]. rewrite Hl, (IH l2) by done. done.
Qed.

Lemma placed_lens off l : placed off l -> lens_ok l.
Proof. revert off. induction l as [|s l IH]; intros off; [constructor|]. intros (H & _ & Hl). constructor; [done|by apply (IH (off + sub_len s))]. Qed.

Lemma om_insert_last {V} k (v : V) l : Forall (fun p => p.1 < k) l -> om_insert Z.ltb k v l = (l ++ [(k, v)], true).
Proof.
  induction 1 as [|[k' v'] l Hk Hl IH]; [done|]. cbn in *. rewrite (proj2 (Z.ltb_lt _ _)) by done. by rewrite IH.
Qed.

Lemma lay_out_ok l idx off db :
  lens_ok l -> 0 <= off -> off + total l <= FS_MAX -> Forall (fun p => p.1 < off) db ->
  exists l2, lay_out l idx off db = Ok (l2, db ++ db_of l idx off) /\ placed off l2 /\ map given l2 = map given l.
Proof.
  intros Hl. revert idx off db. induction Hl as [|s l Hs Hl IH]; intros idx off db Ho Ht Hdb.
  { exists []. by rewrite app_nil_r. }
  cbn [lay_out db_of total foldr] in *. pose proof (total_nonneg l Hl). fold (total l) in Ht. destruct (Z.eqb_spec (sub_len s) 0) as [E|E].
  - destruct (IH (S idx) off db) as (l2 & -> & Hp & Hg); [lia..|done|]. exists (s :: l2). cbn. rewrite E, Z.add_0_r. split; [done|].
    split; [|by rewrite <- Hg]. split; [lia|]. split; [lia|done].
  - rewrite from_offlen_ok by lia. cbn [mbind outcome_bind]. rewrite om_insert_last by done. cbn [dbg_assert].
    replace (fs_add off (sub_len s)) with (off + sub_len s) by fs_lia.
    destruct (IH (S idx) (off + sub_len s) (db ++ [(off, idx)])) as (l2 & -> & Hp & Hg); [lia..| |].
    { apply Forall_app. split; [|by repeat constructor; simpl; lia]. eapply Forall_impl; [exact Hdb|]. simpl. lia. }
    eexists. cbn [mbind outcome_bind]. split; [by rewrite <- app_assoc|]. split; [by cbn|]. cbn. by rewrite <- Hg.
Qed.

Lemma fold_size l acc : lens_ok l -> 0 <= acc -> acc + total l < FS_MAX -> fold_left (fun size s => fs_add size (sub_len s)) l acc = acc + total l.
Proof.
  intros Hl. revert acc. induction Hl as [|s l Hs Hl IH]; intros acc Ha Ht; cbn [fold_left total foldr] in *; [lia|]. fold (total l) in *.
  pose proof (total_nonneg l Hl). replace (fs_add acc (sub_len s)) with (acc + sub_len s) by fs_lia. rewrite IH by lia. lia.
Qed.

(** The tests [is_null] does not depend on what [complete_init] computes. *)
Lemma existsb_null_given l l2 : map given l = map given l2 -> existsb subfile_is_null l = existsb subfile_is_null l2.
Proof.
  revert l2. induction l as [|s l IH]; intros [|s2 l2]; try done. cbn [map existsb]. intros [= H1 H2 H3 H]. unfold subfile_is_null. rewrite H1, H2.
  f_equal. by apply IH.
Qed.

Lemma placed_all_init off l : 0 <= off -> off + total l <= FS_MAX -> placed off l -> existsb subfile_is_null l = false ->
  any_subfile subfile_is_fully_init false l = Ok false.
Proof.
  revert off. induction l as [|s l IH]; intros off Ho Ht Hp Hn; [done|]. cbn [placed existsb any_subfile total foldr] in *. fold (total l) in Ht.
  destruct Hp as (Hs & Hr & Hp). apply orb_false_iff in Hn as [Hn Hns]. pose proof (total_nonneg l (placed_lens _ _ Hp)).
  assert (Hi : subfile_is_fully_init s = Ok true).
  { unfold subfile_is_fully_init. rewrite Hn. destruct (Z.ltb_spec 0 (sub_len s)) as [Hlt|]; [|done]. unfold totfile_range. rewrite Hr by done.
    rewrite range_ok_not_null by (split; cbn; lia). cbn [negb dbg_assert mbind outcome_bind]. by rewrite range_ok_not_null by (split; cbn; lia). }
  rewrite Hi. cbn [mbind outcome_bind eqb]. by apply (IH (off + sub_len s)); [lia..| |].
Qed.

Lemma db_of_given l l2 idx off : map given l = map given l2 -> db_of l idx off = db_of l2 idx off.
Proof.
  revert l2 idx off. induction l as [|s l IH]; intros [|s2 l2] idx off; try done. cbn [map db_of]. intros [= _ -> _ H]. f_equal. by apply IH.
Qed.

(** A torrent with ordinary lengths. *)
Lemma complete_init_wf m :
  mfile_is_null m = false -> lens_ok (subfile_arr m) -> total (subfile_arr m) < FS_MAX ->
  0 < piecelen m -> total (subfile_arr m) + piecelen m <= 2 ^ 64 ->
  (do_piecehash m = true -> Z.of_nat (length (piecehash_arr m)) = (total (subfile_arr m) + (piecelen m - 1)) / piecelen m) ->
  exists m', complete_init m = Ok m' /\ mfile_wf m' /\ map given (subfile_arr m') = map given (subfile_arr m) /\ piecelen m' = piecelen m.
Proof.
  intros Hn Hl Ht HL HT Hh. pose proof (total_nonneg _ Hl) as Ht0. unfold complete_init. rewrite Hn. cbn [negb dbg_assert].
  rewrite fold_size by (done || lia). rewrite Z.add_0_l. unfold totfile_size, fs_is_null. cbn [totfile_size_precpu].
  rewrite (proj2 (Z.eqb_neq _ _)) by fs_lia. cbn [negb dbg_assert mbind outcome_bind]. unfold fs_ceil_div, fs_div.
  rewrite (proj2 (Z.eqb_neq (piecelen m) 0)) by lia.
  assert (Hc : fs_add (total (subfile_arr m)) (fs_sub (piecelen m) 1) = total (subfile_arr m) + (piecelen m - 1)) by fs_lia.
  rewrite Hc. cbn [mbind outcome_bind]. set (nb := (total (subfile_arr m) + (piecelen m - 1)) / piecelen m) in *.
  assert (Hnb : 0 <= nb <= total (subfile_arr m)).
  { unfold nb. split; [apply Z.div_pos; lia|].
    destruct (Z.eq_dec (total (subfile_arr m)) 0) as [->|E]; [rewrite Z.div_small; lia|].
    apply Z.div_le_upper_bound; nia. }
  unfold fs_to_size_t. rewrite (proj2 (Z.leb_le _ _)) by fs_lia. cbn [dbg_assert mbind outcome_bind].
  assert (Hid : id_is_null 20 (infohash m) = false).
  { unfold mfile_is_null in Hn. destruct (id_is_null 20 (infohash m)); [|done]. by rewrite orb_true_r in Hn. }
  rewrite Hid. destruct (lay_out_ok (subfile_arr m) 0 0 []) as (l2 & -> & Hp & Hg); [done|lia|lia|constructor|].
  cbn [mbind outcome_bind app]. pose proof (total_given _ _ Hg) as Htg. pose proof (f_equal length Hg) as Hlen. rewrite !length_map in Hlen.
  match goal with |- context [is_fully_init ?x] => assert (Hi : is_fully_init x = Ok true) end.
  { unfold is_fully_init, mfile_is_null. cbn [piecelen infohash subfile_arr totfile_size_precpu nb_piece_precpu do_piecehash piecehash_arr].
    rewrite Hlen, (existsb_null_given _ _ Hg). unfold mfile_is_null in Hn. rewrite Hn, Hid. unfold fs_is_null.
    rewrite (proj2 (Z.eqb_neq (total (subfile_arr m)) FS_NONE)) by fs_lia. rewrite (proj2 (Z.eqb_neq nb _)) by fs_lia.
    erewrite placed_all_init; [|reflexivity|lia|exact Hp|rewrite (existsb_null_given _ _ Hg); apply orb_false_iff in Hn as [_ ?]; done].
    cbn [mbind outcome_bind]. destruct (do_piecehash m); [|done]. unfold nb_piece. cbn [nb_piece_precpu]. rewrite (proj2 (Z.eqb_neq nb _)) by fs_lia.
    cbn [negb dbg_assert mbind outcome_bind]. by rewrite (proj2 (Z.eqb_eq _ _)) by by apply Hh. }
  rewrite Hi. cbn [mbind outcome_bind dbg_assert]. eexists. split; [done|]. split; [|by cbn].
  constructor; cbn [subfile_arr subfile_db totfile_size_precpu piecelen nb_piece_precpu]; rewrite ?Htg; try done.
  by apply db_of_given.
Qed.

(* ------------------------------------------------------------------ *)
(** * get_iov_arr *)
(* ------------------------------------------------------------------ *)

(** The part of each file that the offsets [b] to [e] meet. *)
Fixpoint iovs (b e : Z) (l : list bt_mfile_subfile_t) (idx : nat) (off : Z) : list bt_iov_t :=
  match l with
  | [] => []
  | s :: l' =>
    (if (0 <? sub_len s) && (off <=? e) && (b <? off + sub_len s)
     then [Iov idx (FileRange (Z.max off b - off) (Z.min (off + sub_len s - 1) e - off))] else []) ++
    iovs b e l' (S idx) (off + sub_len s)
  end.

Lemma iovs_after b e l idx off : lens_ok l -> e < off -> iovs b e l idx off = [].
Proof.
  intros Hl. revert idx off. induction Hl as [|s l Hs Hl IH]; intros idx off He; [done|]. cbn [iovs].
  rewrite (proj2 (Z.leb_gt _ _)) by lia. rewrite andb_false_r. cbn. apply IH. lia.
Qed.

Lemma db_of_nil b e l idx off : lens_ok l -> db_of l idx off = [] -> iovs b e l idx off = [].
Proof.
  intros Hl. revert idx off. induction Hl as [|s l Hs Hl IH]; intros idx off; [done|]. cbn [iovs db_of].
  destruct (Z.eqb_spec (sub_len s) 0) as [E|E]; [|done]. rewrite E. cbn. apply IH.
Qed.

Lemma iov_loop_spec r pre l idx off acc :
  range_ok r -> idx = length pre -> 0 <= off -> off + total l <= FS_MAX -> placed off l ->
  iov_loop (pre ++ l) r (db_of l idx off) acc = Ok (acc ++ iovs (m_beg r) (m_end r) l idx off).
Proof.
  intros Hr. revert pre idx off acc. induction l as [|s l IH]; intros pre idx off acc Hi Ho Ht Hp; cbn [iovs]; [by rewrite !app_nil_r|].
  pose proof (placed_lens _ _ Hp) as Hl. apply Forall_cons in Hl as [_ Hl]. pose proof (total_nonneg l Hl).
  cbn [placed total foldr db_of] in *. fold (total l) in Ht. destruct Hp as (Hs & Hsr & Hp).
  assert (Hnext : forall acc, iov_loop (pre ++ s :: l) r (db_of l (S idx) (off + sub_len s)) acc =
    Ok (acc ++ iovs (m_beg r) (m_end r) l (S idx) (off + sub_len s))).
  { intros acc'. specialize (IH (pre ++ [s]) (S idx) (off + sub_len s) acc'). rewrite <- app_assoc in IH. apply IH; [|lia..|done].
    rewrite length_app. simpl. lia. }
  destruct (Z.eqb_spec (sub_len s) 0) as [E|E].
  { rewrite E at 2. rewrite Z.ltb_irrefl. cbn [andb app]. apply Hnext. }
  rewrite (proj2 (Z.ltb_lt 0 _)) by lia. cbn [andb app iov_loop]. specialize (Hsr ltac:(lia)).
  assert (Hok : range_ok (FileRange off (off + sub_len s - 1))) by (split; cbn; lia).
  unfold item_get. rewrite Hi, lookup_app_r, Nat.sub_diag by lia. cbn [lookup list_lookup mbind outcome_bind]. rewrite <- Hi.
  unfold totfile_range. rewrite Hsr, range_ok_not_null by done. cbn [negb dbg_assert mbind outcome_bind m_beg m_end].
  destruct (Z.ltb_spec (m_end r) off) as [Ha|Ha].
  { rewrite (proj2 (Z.leb_gt _ _)) by lia. cbn [andb app]. by rewrite iovs_after, app_nil_r by (done || lia). }
  rewrite (proj2 (Z.leb_le _ _)) by lia. cbn [andb]. destruct (Z.ltb_spec (off + sub_len s - 1) (m_beg r)) as [Hb|Hb].
  { rewrite (proj2 (Z.ltb_ge _ _)) by lia. apply Hnext. }
  rewrite (proj2 (Z.ltb_lt (m_beg r) _)) by lia. rewrite clamped_by_ok by done. cbn [m_beg m_end].
  rewrite !(proj2 (Z.ltb_ge _ _)) by lia. cbn [orb mbind outcome_bind]. destruct Hr as [Hr1 Hr2]. destruct r as [b e]. cbn [m_beg m_end] in *.
  rewrite range_ok_not_null by (split; cbn; lia). cbn [negb dbg_assert m_beg m_end].
  rewrite !(proj2 (Z.leb_le _ _)) by lia. cbn [dbg_assert]. unfold set_beg, set_end. cbn [m_beg m_end].
  replace (fs_sub (Z.max off b) off) with (Z.max off b - off) by fs_lia. rewrite file_range_ok by lia. cbn [mbind outcome_bind m_beg m_end].
  replace (fs_sub (Z.min (off + sub_len s - 1) e) off) with (Z.min (off + sub_len s - 1) e - off) by fs_lia.
  rewrite file_range_ok by lia. cbn [mbind outcome_bind]. rewrite Hnext. unfold item_append. by rewrite <- app_assoc.
Qed.

(** The first key is the offset of the first file, since files without data have none. *)
Lemma db_of_head l idx off k v db : db_of l idx off = (k, v) :: db -> k = off.
Proof.
  revert idx off. induction l as [|s l IH]; intros idx off; [done|]. cbn [db_of]. destruct (Z.eqb_spec (sub_len s) 0) as [E|E].
  - cbn [app]. intros H. rewrite (IH _ _ H). lia.
  - by intros [= <- _ _].
Qed.

Lemma placed_drop k off l : placed off l -> placed (off + total (take k l)) (drop k l).
Proof.
  revert off l. induction k as [|k IH]; intros off l; [by rewrite Z.add_0_r|]. destruct l as [|s l]; [done|].
  cbn [placed take drop total foldr]. intros (_ & _ & Hl). rewrite Z.add_assoc. by apply IH.
Qed.

(** The files before the one found by [lower_bound] do not meet the range. *)
Lemma lower_bound_skips b e l idx off :
  lens_ok l -> exists k, (k <= length l)%nat /\
    drop (Nat.pred (lower_bound b (db_of l idx off))) (db_of l idx off) = db_of (drop k l) (idx + k)%nat (off + total (take k l)) /\
    iovs b e l idx off = iovs b e (drop k l) (idx + k)%nat (off + total (take k l)).
Proof.
  intros Hl. revert idx off. induction Hl as [|s l Hs Hl IH]; intros idx off.
  { by exists 0%nat. }
  cbn [db_of iovs]. destruct (IH (S idx) (off + sub_len s)) as (k & Hk & Hd & Hv).
  assert (Hstep : forall z, off + total (take (S k) (s :: l)) = off + sub_len s + total (take k l) /\ (idx + S k = S idx + k)%nat /\ z = z :> Z).
  { intros z. cbn. unfold total. lia. }
  destruct (Hstep 0) as (Ht & Hi & _). clear Hstep. destruct (Z.eqb_spec (sub_len s) 0) as [E|E].
  { exists (S k). split; [simpl; lia|]. rewrite Ht, Hi. cbn [app drop]. split; [done|]. rewrite E, Z.ltb_irrefl. cbn [andb app]. by rewrite <- E. }
  cbn [app lower_bound]. destruct (Z.ltb_spec off b) as [Hob|Hob].
  2: { exists 0%nat. cbn [Nat.pred drop take total foldr]. rewrite Nat.add_0_r, Z.add_0_r. split; [lia|]. split; [|done].
       cbn [db_of]. rewrite (proj2 (Z.eqb_neq _ _)) by done. done. }
  cbn [Nat.pred]. destruct (lower_bound b (db_of l (S idx) (off + sub_len s))) as [|j] eqn:El.
  { exists 0%nat. cbn [drop take total foldr]. rewrite Nat.add_0_r, Z.add_0_r. split; [lia|]. split; [|done].
    cbn [db_of]. rewrite (proj2 (Z.eqb_neq _ _)) by done. done. }
  exists (S k). split; [simpl; lia|]. rewrite Ht, Hi. cbn [drop]. split; [exact Hd|].
  enough (Hlt : off + sub_len s < b) by (rewrite (proj2 (Z.ltb_ge b _)) by lia; rewrite andb_false_r; exact Hv).
  destruct (db_of l (S idx) (off + sub_len s)) as [|[k' v] db] eqn:Edb; [done|]. cbn [lower_bound] in El.
  destruct (Z.ltb_spec k' b) as [Hk'|]; [|done]. by rewrite (db_of_head _ _ _ _ _ _ Edb) in Hk'.
Qed.

Lemma iovs_idx b e l idx off : Forall (fun v => (idx <= subfile_idx v)%nat) (iovs b e l idx off).
Proof.
  revert idx off. induction l as [|s l IH]; intros idx off; [constructor|]. cbn [iovs]. apply Forall_app. split.
  - destruct (_ && _); by repeat constructor.
  - eapply Forall_impl; [apply IH|]. simpl. lia.
Qed.

Definition idx_lt (v w : bt_iov_t) : Prop := (subfile_idx v < subfile_idx w)%nat.

Lemma iovs_sorted b e l idx off : StronglySorted idx_lt (iovs b e l idx off).
Proof.
  revert idx off. induction l as [|s l IH]; intros idx off; [constructor|]. cbn [iovs].
  destruct (_ && _); [|apply IH]. cbn [app]. constructor; [apply IH|]. eapply Forall_impl; [apply iovs_idx|]. unfold idx_lt. simpl. lia.
Qed.

Lemma iovs_ok b e l idx off : 0 <= b <= e -> e < FS_MAX -> 0 <= off -> off + total l <= FS_MAX -> lens_ok l ->
  Forall (fun v => range_ok (subfile_range v)) (iovs b e l idx off).
Proof.
  intros Hb He Ho Ht Hl. revert idx off Ho Ht. induction Hl as [|s l Hs Hl IH]; intros idx off Ho Ht; [constructor|].
  cbn [iovs total foldr] in *. fold (total l) in Ht. pose proof (total_nonneg l Hl). apply Forall_app. split; [|apply IH; lia].
  destruct (0 <? sub_len s) eqn:E1; [|constructor]. destruct (off <=? e) eqn:E2; [|constructor]. destruct (b <? off + sub_len s) eqn:E3; [|constructor].
  bool_to_prop. cbn. repeat constructor; cbn; lia.
Qed.

Lemma range_compare_refl r : range_compare r r = 0.
Proof. unfold range_compare. destruct (range_is_null r); cbn; [done|]. by rewrite !Z.ltb_irrefl. Qed.

Lemma iov_ltb_irrefl v : iov_ltb v v = false.
Proof. unfold iov_ltb, iov_compare. destruct (iov_is_null v); cbn [andb negb]; [done|]. by rewrite !Nat.ltb_irrefl, range_compare_refl. Qed.

Lemma iov_arr_eqb_refl l : iov_arr_eqb l l = true.
Proof.
  unfold iov_arr_eqb, item_compare. rewrite !bool_decide_eq_false_2 by lia. apply Z.eqb_eq.
  induction l as [|v l IH]; [done|]. cbn [compare_loop]. by rewrite iov_ltb_irrefl.
Qed.

(** A list in order, on distinct files, is sorted and reduced. *)
Lemma iov_sort_id l : StronglySorted idx_lt l -> Forall (fun v => range_ok (subfile_range v)) l -> std_sort iov_ltb l = l.
Proof.
  induction 1 as [|v l Hs IH Hv]; intros Hok; [done|]. apply Forall_cons in Hok as [Hr Hok]. cbn [std_sort foldr]. fold (std_sort iov_ltb l).
  rewrite IH by done. destruct l as [|w l]; [done|]. cbn [sort_insert]. apply Forall_cons in Hv as [Hv _]. apply Forall_cons in Hok as [Hw _].
  unfold iov_ltb, iov_compare, iov_is_null. rewrite !range_ok_not_null by done. cbn [andb negb]. unfold idx_lt in Hv. by rewrite (proj2 (Nat.ltb_lt _ _)).
Qed.

Lemma iov_reduce_id l : StronglySorted idx_lt l -> iov_reduce l = Ok l.
Proof.
  destruct l as [|v l]; [done|]. cbn [iov_reduce]. revert v. induction l as [|w l IH]; intros v Hs; [done|].
  apply StronglySorted_inv in Hs as [Hs Hv]. apply Forall_cons in Hv as [Hv _]. unfold idx_lt in Hv. cbn [reduce_from].
  unfold iov_is_contiguous, iov_is_distinct. rewrite (proj2 (Nat.eqb_neq _ _)) by lia. cbn. by rewrite IH.
Qed.

Lemma get_iov_arr_spec m r : mfile_wf m -> range_ok r -> get_iov_arr r m = Ok (iovs (m_beg r) (m_end r) (subfile_arr m) 0 0).
Proof.
  intros [Hi Hp Hdb [_ Ht] _ _] Hr. unfold get_iov_arr. rewrite Hi. cbn [mbind outcome_bind dbg_assert].
  pose proof (placed_lens _ _ Hp) as Hl. destruct (subfile_db m) eqn:Edb.
  { rewrite bool_decide_eq_true_2 by done. by rewrite (db_of_nil _ _ _ _ _ Hl) by done. }
  rewrite bool_decide_eq_false_2 by done. rewrite Hdb. clear Edb.
  destruct (lower_bound_skips (m_beg r) (m_end r) (subfile_arr m) 0 0 Hl) as (k & Hk & Hd & Hv).
  replace (if (lower_bound (m_beg r) (db_of (subfile_arr m) 0 0) =? 0)%nat then _ else _)
    with (Nat.pred (lower_bound (m_beg r) (db_of (subfile_arr m) 0 0))) by by destruct (lower_bound _ _); cbn; lia.
  rewrite Hd. pose proof (total_app (take k (subfile_arr m)) (drop k (subfile_arr m))) as Htk. rewrite take_drop in Htk.
  assert (0 <= total (take k (subfile_arr m))) by (apply total_nonneg; by apply Forall_take).
  pose proof (iov_loop_spec r (take k (subfile_arr m)) (drop k (subfile_arr m)) (0 + k) (0 + total (take k (subfile_arr m))) [] Hr) as Hloop.
  rewrite take_drop in Hloop. rewrite Hloop; [|rewrite length_take; lia|lia|lia|].
  2: by apply (placed_drop k 0).
  cbn [app mbind outcome_bind]. rewrite <- Hv. destruct Hr as [Hr1 Hr2].
  rewrite iov_sort_id, iov_arr_eqb_refl; [|apply iovs_sorted|by apply iovs_ok; lia || done]. cbn [dbg_assert].
  rewrite iov_reduce_id by apply iovs_sorted. cbn [mbind outcome_bind]. by rewrite iov_arr_eqb_refl.
Qed.

(* ------------------------------------------------------------------ *)
(** * Reading and writing the totfile *)
(* ------------------------------------------------------------------ *)

(** The contents of the files, and of the totfile. *)
Definition disk : Type := file_path_t -> list Z.
Definition totfile (d : disk) (l : list bt_mfile_subfile_t) : list Z := concat (map (fun s => d (local_path s)) l).
Definition disk_fits (d : disk) (l : list bt_mfile_subfile_t) : Prop :=
  Forall (fun s => Z.of_nat (length (d (local_path s))) = sub_len s) l.

(** The bytes at the offsets [b] to [e] of a content whose first byte is at [off]. *)
Definition slice (off : Z) (c : list Z) (b e : Z) : list Z := drop (Z.to_nat (b - off)) (take (Z.to_nat (e + 1 - off)) c).
(** The content with [data] at the offset [b]. *)
Definition patch (off : Z) (c : list Z) (b : Z) (data : list Z) : list Z :=
  take (Z.to_nat (b - off)) c ++ data ++ drop (Z.to_nat (b - off) + length data) c.

(** [file_aread_t] and [file_awrite_t] on an open file. *)
Definition file_read (c : list Z) (beg len : Z) : list Z := take (Z.to_nat len) (drop (Z.to_nat beg) c).
Definition disk_write (p : file_path_t) (beg : Z) (data : list Z) (d : disk) : disk :=
  fun q => if decide (q = p) then patch 0 (d p) beg data else d q.

(** An operation whose requests the files answer. *)
Fixpoint read_served (d : disk) (n : nat) (st : bt_io_sfile_read_t) (o : io_out) : outcome (list io_out) :=
  match n, o with
  | S n', ReadAt p b len =>
    let* (st', os) := sfile_read_in (fun _ => true) (IoDone false (file_read (d p) b len)) st in
    match st', os with Some st', [o'] => read_served d n' st' o' | _, _ => Ok os end
  | _, _ => Fault
  end.
Fixpoint write_served (d : disk) (n : nat) (st : bt_io_sfile_write_t) (o : io_out) : outcome (disk * list io_out) :=
  match n, o with
  | S n', WriteAt p b data =>
    let d' := disk_write p b data d in
    let* (st', os) := sfile_write_in (fun _ => true) (IoDone false []) st in
    match st', os with Some st', [o'] => write_served d' n' st' o' | _, _ => Ok (d', os) end
  | _, _ => Fault
  end.

Lemma slice_app off c1 c2 b e : slice off (c1 ++ c2) b e = slice off c1 b e ++ slice (off + Z.of_nat (length c1)) c2 b e.
Proof.
  unfold slice. rewrite take_app, drop_app, length_take. f_equal.
  replace (Z.to_nat (e + 1 - (off + Z.of_nat (length c1)))) with (Z.to_nat (e + 1 - off) - length c1)%nat by lia.
  destruct (decide (Z.to_nat (e + 1 - off) < length c1)%nat).
  - replace (Z.to_nat (e + 1 - off) - length c1)%nat with 0%nat by lia. by rewrite take_0, !drop_nil.
  - f_equal. lia.
Qed.

Lemma slice_none off c b e : e < off \/ off + Z.of_nat (length c) <= b -> slice off c b e = [].
Proof.
  intros H. unfold slice. apply nil_length_inv. rewrite length_drop, length_take. lia.
Qed.

Lemma slice_iov off c b e : 0 <= off <= e -> 0 <= b <= e -> (0 < length c)%nat -> b < off + Z.of_nat (length c) -> off + Z.of_nat (length c) <= FS_MAX -> e < FS_MAX ->
  file_read c (Z.max off b - off) (range_len (FileRange (Z.max off b - off) (Z.min (off + Z.of_nat (length c) - 1) e - off))) = slice off c b e.
Proof.
  intros. rewrite range_len_ok by (split; cbn; lia). cbn [m_beg m_end]. unfold file_read, slice. rewrite take_drop_commute.
  replace (Z.to_nat (Z.max off b - off)) with (Z.to_nat (b - off)) by lia. f_equal.
  destruct (decide (off + Z.of_nat (length c) - 1 <= e)).
  - rewrite !take_ge by lia. done.
  - f_equal. lia.
Qed.

(** What an iov designates. *)
Definition iov_data (d : disk) (arr : list bt_mfile_subfile_t) (v : bt_iov_t) : list Z :=
  match arr !! subfile_idx v with
  | Some s => file_read (d (local_path s)) (m_beg (subfile_range v)) (range_len (subfile_range v))
  | None => []
  end.

Lemma iovs_content d pre l b e idx off :
  disk_fits d l -> idx = length pre -> 0 <= b <= e -> e < FS_MAX -> 0 <= off -> off + total l <= FS_MAX ->
  concat (map (iov_data d (pre ++ l)) (iovs b e l idx off)) = slice off (totfile d l) b e.
Proof.
  revert pre idx off. induction l as [|s l IH]; intros pre idx off Hfit Hidx Hb He Ho Ht.
  { cbn. unfold slice. by rewrite take_nil, drop_nil. }
  apply Forall_cons in Hfit as [Hs Hfit]. cbn [iovs total foldr] in *. fold (total l) in Ht. unfold totfile. cbn [map concat]. fold (totfile d l).
  assert (0 <= total l) by (apply total_nonneg; eapply Forall_impl; [exact Hfit|]; simpl; lia).
  specialize (IH (pre ++ [s]) (S idx) (off + sub_len s)). rewrite <- app_assoc in IH. cbn [app] in IH.
  rewrite map_app, concat_app, slice_app, IH by (done || rewrite ?length_app; simpl; lia). rewrite <- Hs. f_equal.
  destruct (Z.ltb_spec 0 (Z.of_nat (length (d (local_path s))))) as [H0|H0]; cbn [andb].
  2: { assert (d (local_path s) = []) as -> by (apply nil_length_inv; lia). cbn. unfold slice. by rewrite take_nil, drop_nil. }
  destruct (Z.leb_spec off e); cbn [andb]; [|by rewrite slice_none by lia].
  destruct (Z.ltb_spec b (off + Z.of_nat (length (d (local_path s))))); [|by rewrite slice_none by lia].
  cbn [map concat]. rewrite app_nil_r. unfold iov_data. cbn [subfile_idx subfile_range]. rewrite Hidx, lookup_app_r, Nat.sub_diag by lia.
  cbn. rewrite <- slice_iov by lia. done.
Qed.

(** The iovs of a range inside the totfile are on existing files. *)
Definition iov_in (arr : list bt_mfile_subfile_t) (v : bt_iov_t) : Prop := is_Some (arr !! subfile_idx v).

Lemma iovs_in b e pre l idx off : idx = length pre -> Forall (iov_in (pre ++ l)) (iovs b e l idx off).
Proof.
  revert pre idx off. induction l as [|s l IH]; intros pre idx off Hi; [constructor|]. cbn [iovs]. apply Forall_app. split.
  - destruct (_ && _); [|constructor]. repeat constructor. unfold iov_in. cbn. rewrite Hi, lookup_app_r, Nat.sub_diag by lia. by eexists.
  - specialize (IH (pre ++ [s]) (S idx) (off + sub_len s)). rewrite <- app_assoc in IH. apply IH. rewrite length_app. simpl. lia.
Qed.

(** There is one, if the range begins inside. *)
Lemma iovs_not_nil b e l idx off : lens_ok l -> off <= b <= e -> b < off + total l -> iovs b e l idx off <> [].
Proof.
  intros Hl. revert idx off. induction Hl as [|s l Hs Hl IH]; intros idx off Hb Ht; cbn [iovs total foldr] in *; [lia|]. fold (total l) in Ht.
  destruct (Z.ltb_spec b (off + sub_len s)).
  - rewrite (proj2 (Z.ltb_lt 0 _)), (proj2 (Z.leb_le off e)) by lia. done.
  - rewrite andb_false_r. cbn [app]. apply IH; lia.
Qed.

Definition read_request (arr : list bt_mfile_subfile_t) (v : bt_iov_t) : io_out :=
  match arr !! subfile_idx v with
  | Some s => ReadAt (local_path s) (m_beg (subfile_range v)) (range_len (subfile_range v))
  | None => NotifyRead true []
  end.

Lemma read_launch_ok m vs1 v vs2 q z : iov_in (subfile_arr m) v ->
  read_launch_next_iov (fun _ => true) (SfileRead m (vs1 ++ v :: vs2) (length vs1) q false z) = Ok (Some (read_request (subfile_arr m) v)).
Proof.
  intros [s Hs]. unfold read_launch_next_iov, item_get, iov_path, read_request. cbn [rd_iov_idx rd_iov_arr rd_mfile rd_file].
  rewrite lookup_app_r, Nat.sub_diag by lia. cbn [lookup list_lookup mbind outcome_bind]. unfold item_get. by rewrite Hs.
Qed.

Lemma read_served_S d n st p b len : read_served d (S n) st (ReadAt p b len) =
  (let* (st', os) := sfile_read_in (fun _ => true) (IoDone false (file_read (d p) b len)) st in
   match st', os with Some st', [o'] => read_served d n st' o' | _, _ => Ok os end).
Proof. done. Qed.

Lemma read_served_spec d m vs1 v vs2 q z : Forall (iov_in (subfile_arr m)) (v :: vs2) ->
  read_served d (S (length vs2)) (SfileRead m (vs1 ++ v :: vs2) (length vs1) q true z) (read_request (subfile_arr m) v) =
    Ok [NotifyRead false (q ++ concat (map (iov_data d (subfile_arr m)) (v :: vs2)))].
Proof.
  revert vs1 v q. induction vs2 as [|w vs2 IH]; intros vs1 v q [[s Hs] Hin]%Forall_cons.
  - cbn [length]. unfold read_request at 1. rewrite Hs, read_served_S. cbn [sfile_read_in]. unfold sfile_read_cb.
    cbn [rd_iov_idx rd_iov_arr rd_data_queue]. rewrite bool_decide_eq_true_2 by (rewrite length_app; simpl; lia).
    cbn. unfold iov_data. by rewrite Hs, app_nil_r.
  - cbn [length]. unfold read_request at 1. rewrite Hs, read_served_S. cbn [sfile_read_in]. unfold sfile_read_cb.
    cbn [rd_iov_idx rd_iov_arr rd_data_queue rd_mfile rd_zerotimer]. rewrite bool_decide_eq_false_2 by (rewrite length_app; simpl; lia).
    apply Forall_cons in Hin as [Hw Hin]. replace (vs1 ++ v :: w :: vs2) with ((vs1 ++ [v]) ++ w :: vs2) by by rewrite <- app_assoc.
    replace (S (length vs1)) with (length (vs1 ++ [v])) by (rewrite length_app; simpl; lia). rewrite read_launch_ok by done.
    cbn [mbind outcome_bind rd_iov_idx rd_iov_arr rd_data_queue rd_mfile rd_zerotimer]. rewrite IH by (by constructor).
    cbn [map concat]. rewrite <- app_assoc. do 4 f_equal. unfold iov_data. by rewrite Hs.
Qed.

(** A read of a range of the totfile, whatever files it crosses, gives its bytes. *)
Lemma sfile_read_spec m d r : mfile_wf m -> disk_fits d (subfile_arr m) -> range_ok r -> m_end r < total (subfile_arr m) ->
  exists st o n, sfile_read_ctor (fun _ => true) m r = Ok (st, [o]) /\ rd_iov_arr st = iovs (m_beg r) (m_end r) (subfile_arr m) 0 0 /\
    read_served d n st o = Ok [NotifyRead false (slice 0 (totfile d (subfile_arr m)) (m_beg r) (m_end r))].
Proof.
  intros Hwf Hd Hr He. pose proof (placed_lens _ _ (wf_placed m Hwf)) as Hl. destruct (wf_size m Hwf) as [_ Ht]. destruct Hr as [Hb HM].
  unfold sfile_read_ctor. rewrite get_iov_arr_spec by done. cbn [mbind outcome_bind].
  pose proof (iovs_in (m_beg r) (m_end r) [] (subfile_arr m) 0 0 eq_refl) as Hin. cbn [app] in Hin.
  pose proof (iovs_content d [] (subfile_arr m) (m_beg r) (m_end r) 0 0 Hd eq_refl Hb HM ltac:(lia) ltac:(lia)) as Hc. cbn [app] in Hc.
  pose proof (iovs_not_nil (m_beg r) (m_end r) (subfile_arr m) 0 0 Hl ltac:(lia) ltac:(lia)) as Hnn.
  destruct (iovs (m_beg r) (m_end r) (subfile_arr m) 0 0) as [|v vs] eqn:Ev; [done|].
  pose proof (read_launch_ok m [] v vs [] false) as HL. cbn [app length] in HL. rewrite HL by (by apply Forall_cons in Hin as [? _]).
  cbn [mbind outcome_bind]. do 3 eexists. split; [done|]. split; [done|].
  pose proof (read_served_spec d m [] v vs [] false Hin) as HS. cbn [app length] in HS. rewrite HS. by rewrite Hc.
Qed.

Definition iov_len (v : bt_iov_t) : nat := Z.to_nat (range_len (subfile_range v)).

(** The files after the data have been written through the iovs. *)
Fixpoint write_iovs (d : disk) (arr : list bt_mfile_subfile_t) (vs : list bt_iov_t) (data : list Z) : disk :=
  match vs with
  | [] => d
  | v :: vs' =>
    match arr !! subfile_idx v with
    | Some s => write_iovs (disk_write (local_path s) (m_beg (subfile_range v)) (take (iov_len v) data) d) arr vs' (drop (iov_len v) data)
    | None => d
    end
  end.

Lemma slice_length off c b e : length (slice off c b e) = (Z.to_nat (e + 1 - off) `min` length c - Z.to_nat (b - off))%nat.
Proof. unfold slice. by rewrite length_drop, length_take. Qed.

Lemma patch_nil off c b : patch off c b [] = c.
Proof. unfold patch. cbn. by rewrite Nat.add_0_r, take_drop. Qed.

Lemma patch_length off c b e D : length D = length (slice off c b e) -> length (patch off c b D) = length c.
Proof. rewrite slice_length. intros HD. unfold patch. rewrite !length_app, length_take, length_drop. lia. Qed.

Lemma patch_app off c1 c2 b e D : length D = length (slice off (c1 ++ c2) b e) ->
  patch off (c1 ++ c2) b D =
    patch off c1 b (take (length (slice off c1 b e)) D) ++ patch (off + Z.of_nat (length c1)) c2 b (drop (length (slice off c1 b e)) D).
Proof.
  rewrite slice_app, length_app, !slice_length. intros HD.
  replace (Z.to_nat (e + 1 - (off + Z.of_nat (length c1)))) with (Z.to_nat (e + 1 - off) - length c1)%nat in HD by lia.
  unfold patch. replace (Z.to_nat (b - (off + Z.of_nat (length c1)))) with (Z.to_nat (b - off) - length c1)%nat in * by lia.
  generalize dependent (Z.to_nat (b - off)). generalize dependent (Z.to_nat (e + 1 - off)). intros n k HD.
  rewrite take_app, drop_app, length_take, length_drop. destruct (decide (length c1 <= k)%nat).
  { replace (n `min` length c1 - k)%nat with 0%nat in * by lia. rewrite take_0, drop_0, !(take_ge c1), (drop_ge c1) by lia. cbn [length app].
    rewrite Nat.min_0_l, Nat.add_0_r, (drop_ge c1), app_nil_r, <- app_assoc by lia. do 4 f_equal. lia. }
  replace (k - length c1)%nat with 0%nat in * by lia. rewrite !take_0, Nat.add_0_l, app_nil_r. cbn [app].
  destruct (decide (n <= length c1)%nat).
  - rewrite (take_ge D), (drop_ge D) by lia. cbn [app]. replace (k + length D - length c1)%nat with 0%nat by lia.
    replace (length D - _)%nat with 0%nat by lia. rewrite drop_0, <- !app_assoc. do 4 f_equal. lia.
  - rewrite (drop_ge c1), (drop_ge c1) by lia. cbn [app]. rewrite app_nil_r, <- !app_assoc. f_equal.
    rewrite (app_assoc (take _ D)), take_drop. do 2 f_equal. lia.
Qed.

Lemma totfile_ext d1 d l p : p ∉ map local_path l -> (forall q, q <> p -> d1 q = d q) -> totfile d1 l = totfile d l /\ (disk_fits d l -> disk_fits d1 l).
Proof.
  induction l as [|s l IH]; [split; [done|constructor]|]. cbn [map]. intros Hp Hq. apply not_elem_of_cons in Hp as [Hp Hps]. destruct (IH Hps Hq) as [IH1 IH2].
  unfold totfile in *. cbn [map concat]. rewrite IH1, Hq by done. split; [done|]. intros [Hs Hl]%Forall_cons. constructor; [by rewrite Hq|by apply IH2].
Qed.

(** The part of the data for the first file. *)
Lemma write_head d pre s l b e idx off D :
  Z.of_nat (length (d (local_path s))) = sub_len s -> idx = length pre -> 0 <= b <= e -> e < FS_MAX -> 0 <= off -> off + sub_len s <= FS_MAX ->
  let n1 := length (slice off (d (local_path s)) b e) in
  exists d1, write_iovs d (pre ++ s :: l) (iovs b e (s :: l) idx off) D =
      write_iovs d1 (pre ++ s :: l) (iovs b e l (S idx) (off + sub_len s)) (drop n1 D) /\
    d1 (local_path s) = patch off (d (local_path s)) b (take n1 D) /\ (forall q, q <> local_path s -> d1 q = d q).
Proof.
  intros Hs Hidx Hb He Ho Ht. cbn zeta. rewrite slice_length. cbn [iovs].
  destruct ((0 <? sub_len s) && (off <=? e) && (b <? off + sub_len s)) eqn:Ec.
  - bool_to_prop. cbn [app write_iovs subfile_idx subfile_range m_beg]. rewrite Hidx, lookup_app_r, Nat.sub_diag by lia. cbn [lookup list_lookup].
    unfold iov_len. cbn [subfile_range]. rewrite range_len_ok by (split; cbn; lia). cbn [m_beg m_end].
    replace (Z.to_nat (Z.min (off + sub_len s - 1) e - off - (Z.max off b - off) + 1))
      with (Z.to_nat (e + 1 - off) `min` length (d (local_path s)) - Z.to_nat (b - off))%nat by lia.
    eexists. split; [done|]. unfold disk_write. split; [|intros q Hq; by rewrite decide_False]. rewrite decide_True by done.
    unfold patch. by replace (Z.to_nat (Z.max off b - off - 0)) with (Z.to_nat (b - off)) by lia.
  - assert (Z.to_nat (e + 1 - off) `min` length (d (local_path s)) - Z.to_nat (b - off) = 0)%nat as ->.
    { destruct (Z.ltb_spec 0 (sub_len s)), (Z.leb_spec off e), (Z.ltb_spec b (off + sub_len s)); try done; lia. }
    exists d. rewrite take_0, drop_0, patch_nil. done.
Qed.

Lemma write_iovs_content d pre l b e idx off D :
  disk_fits d l -> NoDup (map local_path l) -> idx = length pre -> 0 <= b <= e -> e < FS_MAX -> 0 <= off -> off + total l <= FS_MAX ->
  length D = length (slice off (totfile d l) b e) ->
  let d' := write_iovs d (pre ++ l) (iovs b e l idx off) D in
  totfile d' l = patch off (totfile d l) b D /\ (forall q, q ∉ map local_path l -> d' q = d q) /\ disk_fits d' l.
Proof.
  revert d pre idx off D. induction l as [|s l IH]; intros d pre idx off D Hfit Hnd Hidx Hb He Ho Ht HD; cbn zeta.
  { cbn. split; [|split; [done|constructor]]. unfold totfile, slice in HD. cbn in HD. rewrite take_nil, drop_nil in HD. apply nil_length_inv in HD as ->. by rewrite patch_nil. }
  apply Forall_cons in Hfit as [Hs Hfit]. cbn [map] in Hnd. apply NoDup_cons in Hnd as [Hp Hnd]. cbn [total foldr] in *. fold (total l) in Ht.
  assert (0 <= total l) by (apply total_nonneg; eapply Forall_impl; [exact Hfit|]; simpl; lia).
  destruct (write_head d pre s l b e idx off D) as (d1 & -> & H1 & Hq); try done || lia.
  destruct (totfile_ext d1 d l _ Hp Hq) as [Ht1 Hf1]. unfold totfile in HD. cbn [map concat] in HD. fold (totfile d l) in HD.
  pose proof HD as HD2. rewrite slice_app, length_app, Hs in HD2.
  destruct (IH d1 (pre ++ [s]) (S idx) (off + sub_len s) (drop (length (slice off (d (local_path s)) b e)) D)) as (Ht2 & Hq2 & Hf2).
  1-7: try done || lia || by apply Hf1. 1: rewrite length_app; simpl; lia.
  1: rewrite length_drop, Ht1; lia.
  rewrite <- app_assoc in Ht2, Hq2, Hf2. cbn [app] in Ht2, Hq2, Hf2. split_and!.
  - unfold totfile. cbn [map concat]. fold (totfile d l). fold (totfile (write_iovs d1 (pre ++ s :: l) (iovs b e l (S idx) (off + sub_len s)) (drop (length (slice off (d (local_path s)) b e)) D)) l).
    rewrite Ht2, Hq2, H1, Ht1 by done. rewrite (patch_app off _ _ b e) by done. by rewrite Hs.
  - intros q [Hq3 Hq4]%not_elem_of_cons. rewrite Hq2 by done. by apply Hq.
  - constructor; [|done]. rewrite Hq2, H1, (patch_length _ _ _ e) by (done || rewrite length_take; lia). done.
Qed.

Definition write_request (arr : list bt_mfile_subfile_t) (data : list Z) (v : bt_iov_t) : io_out :=
  match arr !! subfile_idx v with
  | Some s => WriteAt (local_path s) (m_beg (subfile_range v)) (take (iov_len v) data)
  | None => NotifyWrite true
  end.
Definition iovs_len (vs : list bt_iov_t) : nat := foldr (fun v n => iov_len v + n)%nat 0%nat vs.

(** The iovs of a write: on existing files, and as long as the data. *)
Definition iovs_fit (arr : list bt_mfile_subfile_t) (vs : list bt_iov_t) (data : list Z) : Prop :=
  Forall (iov_in arr) vs /\ Forall (fun v => range_ok (subfile_range v)) vs /\ iovs_len vs = length data /\ Z.of_nat (length data) <= FS_MAX.

Lemma iov_len_z v : range_ok (subfile_range v) -> Z.of_nat (iov_len v) = range_len (subfile_range v) /\ 0 < range_len (subfile_range v) <= FS_MAX.
Proof. intros Hr. unfold iov_len. rewrite range_len_ok by done. destruct Hr. lia. Qed.

Lemma write_launch_ok m vs1 v vs2 D w z : iov_in (subfile_arr m) v -> range_ok (subfile_range v) ->
  (w + iov_len v <= length D)%nat -> Z.of_nat (length D) <= FS_MAX ->
  write_launch_next_iov (fun _ => true) (SfileWrite m (vs1 ++ v :: vs2) (length vs1) D (Z.of_nat w) false z) =
    Ok (Some (write_request (subfile_arr m) (drop w D) v)).
Proof.
  intros [s Hs] Hr Hw HD. destruct (iov_len_z v Hr) as [Hl Hl2]. unfold write_launch_next_iov, item_get, iov_path, write_request.
  cbn [wr_iov_idx wr_iov_arr wr_mfile wr_file data2write m_written_len].
  rewrite lookup_app_r, Nat.sub_diag by lia. cbn [lookup list_lookup mbind outcome_bind]. unfold item_get. rewrite Hs.
  cbn [mbind outcome_bind negb dbg_assert]. unfold fs_to_size_t, datum_range. rewrite !(proj2 (Z.leb_le _ _)) by fs_lia. cbn [dbg_assert mbind outcome_bind].
  rewrite <- Hl, !Nat2Z.id. by rewrite bool_decide_eq_true_2 by lia.
Qed.

Lemma write_served_S d n st p b data : write_served d (S n) st (WriteAt p b data) =
  (let d' := disk_write p b data d in
   let* (st', os) := sfile_write_in (fun _ => true) (IoDone false []) st in
   match st', os with Some st', [o'] => write_served d' n st' o' | _, _ => Ok (d', os) end).
Proof. done. Qed.

Lemma write_served_spec d m vs1 v vs2 D w z : iovs_fit (subfile_arr m) (v :: vs2) (drop w D) -> Z.of_nat (length D) <= FS_MAX -> (w <= length D)%nat ->
  write_served d (S (length vs2)) (SfileWrite m (vs1 ++ v :: vs2) (length vs1) D (Z.of_nat w) true z) (write_request (subfile_arr m) (drop w D) v) =
    Ok (write_iovs d (subfile_arr m) (v :: vs2) (drop w D), [NotifyWrite false]).
Proof.
  revert d vs1 v w. induction vs2 as [|v2 vs2 IH]; intros d vs1 v w (Hin & Hok & Hlen & HD) HDD Hw.
  all: apply Forall_cons in Hin as [[s Hs] Hin]; apply Forall_cons in Hok as [Hr Hok]; cbn [iovs_len foldr] in Hlen; rewrite length_drop in Hlen;
    destruct (iov_len_z v Hr) as [Hl Hl2]; cbn [length]; unfold write_request at 1; rewrite Hs, write_served_S; cbn [sfile_write_in]; unfold sfile_write_cb, item_get;
    cbn [wr_iov_idx wr_iov_arr wr_mfile data2write m_written_len wr_zerotimer]; rewrite lookup_app_r, Nat.sub_diag by lia; cbn [lookup list_lookup mbind outcome_bind].
  - rewrite bool_decide_eq_true_2 by (rewrite length_app; simpl; lia). cbn [write_iovs]. by rewrite Hs.
  - rewrite bool_decide_eq_false_2 by (rewrite length_app; simpl; lia).
    replace (fs_add (Z.of_nat w) (range_len (subfile_range v))) with (Z.of_nat (w + iov_len v)) by fs_lia.
    replace (vs1 ++ v :: v2 :: vs2) with ((vs1 ++ [v]) ++ v2 :: vs2) by by rewrite <- app_assoc.
    replace (S (length vs1)) with (length (vs1 ++ [v])) by (rewrite length_app; simpl; lia).
    pose proof Hin as [Hin2 _]%Forall_cons. pose proof Hok as [Hok2 _]%Forall_cons. cbn [foldr] in Hlen.
    rewrite write_launch_ok by (done || lia). cbn [mbind outcome_bind wr_iov_idx wr_iov_arr wr_mfile data2write m_written_len wr_zerotimer].
    rewrite IH; [|split_and!; try done; rewrite ?length_drop; cbn [iovs_len foldr]; lia|done|lia].
    change (write_iovs d (subfile_arr m) (v :: v2 :: vs2) (drop w D)) with
      (match subfile_arr m !! subfile_idx v with
       | Some s => write_iovs (disk_write (local_path s) (m_beg (subfile_range v)) (take (iov_len v) (drop w D)) d) (subfile_arr m) (v2 :: vs2) (drop (iov_len v) (drop w D))
       | None => d end).
    rewrite Hs, drop_drop. done.
Qed.

Lemma iovs_len_app vs ws : iovs_len (vs ++ ws) = (iovs_len vs + iovs_len ws)%nat.
Proof. induction vs as [|v vs IH]; simpl; lia. Qed.

Lemma iovs_len_slice d b e l idx off :
  disk_fits d l -> 0 <= b <= e -> e < FS_MAX -> 0 <= off -> off + total l <= FS_MAX ->
  iovs_len (iovs b e l idx off) = length (slice off (totfile d l) b e).
Proof.
  revert idx off. induction l as [|s l IH]; intros idx off Hfit Hb He Ho Ht.
  { cbn. unfold slice. by rewrite take_nil, drop_nil. }
  apply Forall_cons in Hfit as [Hs Hfit]. cbn [iovs total foldr] in *. fold (total l) in Ht. unfold totfile. cbn [map concat]. fold (totfile d l).
  assert (0 <= total l) by (apply total_nonneg; eapply Forall_impl; [exact Hfit|]; simpl; lia).
  rewrite iovs_len_app, slice_app, length_app, (IH (S idx) (off + sub_len s)), Hs by (done || lia). f_equal. rewrite slice_length.
  destruct (Z.ltb_spec 0 (sub_len s)), (Z.leb_spec off e), (Z.ltb_spec b (off + sub_len s)); cbn [andb iovs_len foldr]; try lia.
  unfold iov_len. cbn [subfile_range]. rewrite range_len_ok by (split; cbn; lia). cbn [m_beg m_end]. lia.
Qed.

(** Inside the totfile, the slice of a range has its length. *)
Lemma totfile_length d l : disk_fits d l -> Z.of_nat (length (totfile d l)) = total l.
Proof. induction 1 as [|s l Hs Hl IH]; [done|]. unfold totfile in *. cbn [map concat total foldr]. fold (total l). rewrite length_app. lia. Qed.

Lemma sfile_write_spec m d r D : mfile_wf m -> disk_fits d (subfile_arr m) -> NoDup (map local_path (subfile_arr m)) ->
  range_ok r -> m_end r < total (subfile_arr m) -> Z.of_nat (length D) = range_len r ->
  exists st o n d', sfile_write_ctor (fun _ => true) m r D = Ok (st, [o]) /\ write_served d n st o = Ok (d', [NotifyWrite false]) /\
    totfile d' (subfile_arr m) = patch 0 (totfile d (subfile_arr m)) (m_beg r) D /\ disk_fits d' (subfile_arr m) /\
    (forall q, q ∉ map local_path (subfile_arr m) -> d' q = d q).
Proof.
  intros Hwf Hd Hnd Hr He HD. pose proof (placed_lens _ _ (wf_placed m Hwf)) as Hl. destruct (wf_size m Hwf) as [_ Ht]. pose proof Hr as [Hb HM].
  pose proof (range_len_ok r Hr) as Hrl. unfold sfile_write_ctor. rewrite (proj2 (Z.eqb_eq _ _)) by done. cbn [dbg_assert].
  rewrite get_iov_arr_spec by done. cbn [mbind outcome_bind]. pose proof (totfile_length d _ Hd) as Htl.
  assert (HDs : length D = length (slice 0 (totfile d (subfile_arr m)) (m_beg r) (m_end r))) by (rewrite slice_length; lia).
  pose proof (iovs_in (m_beg r) (m_end r) [] (subfile_arr m) 0 0 eq_refl) as Hin. cbn [app] in Hin.
  pose proof (iovs_ok (m_beg r) (m_end r) (subfile_arr m) 0 0 Hb HM ltac:(lia) ltac:(lia) Hl) as Hok.
  pose proof (iovs_len_slice d (m_beg r) (m_end r) (subfile_arr m) 0 0 Hd Hb HM ltac:(lia) ltac:(lia)) as Hlen. rewrite <- HDs in Hlen.
  destruct (write_iovs_content d [] (subfile_arr m) (m_beg r) (m_end r) 0 0 D Hd Hnd eq_refl Hb HM ltac:(lia) ltac:(lia) HDs) as (Hc & Hq & Hf).
  cbn [app] in Hc, Hq, Hf. pose proof (iovs_not_nil (m_beg r) (m_end r) (subfile_arr m) 0 0 Hl ltac:(lia) ltac:(lia)) as Hnn.
  destruct (iovs (m_beg r) (m_end r) (subfile_arr m) 0 0) as [|v vs] eqn:Ev; [done|].
  pose proof Hin as [Hin1 _]%Forall_cons. pose proof Hok as [Hok1 _]%Forall_cons. cbn [iovs_len foldr] in Hlen. fold (iovs_len vs) in Hlen.
  pose proof (write_launch_ok m [] v vs D 0 false Hin1 Hok1 ltac:(lia) ltac:(lia)) as HL. cbn [app length drop] in HL. change (Z.of_nat 0) with 0 in HL. rewrite HL.
  cbn [mbind outcome_bind]. do 4 eexists. split; [done|].
  pose proof (write_served_spec d m [] v vs D 0 false) as HS. cbn [app length drop] in HS. change (Z.of_nat 0) with 0 in HS. rewrite HS; [by split_and!| |lia|lia].
  split_and!; try done; cbn [iovs_len foldr]; fold (iovs_len vs); rewrite ?drop_0; lia.
Qed.

(* ------------------------------------------------------------------ *)
(** * Pieces *)
(* ------------------------------------------------------------------ *)

Section pieces.
Context (m : bt_mfile_t) (Hwf : mfile_wf m).
#[local] Abbreviation L := (piecelen m).
#[local] Abbreviation T := (total (subfile_arr m)).
#[local] Abbreviation nb := (nb_piece_precpu m).

Lemma piece_bounds : 0 <= T < FS_MAX /\ 0 < L /\ T + L <= 2 ^ 64 /\ T <= nb * L < T + L /\ 0 <= nb <= T.
Proof using Hwf.
  destruct (wf_size m Hwf) as [_ Ht]. destruct (wf_piece m Hwf) as [HL HT]. pose proof (wf_nb m Hwf) as Hn.
  pose proof (total_nonneg _ (placed_lens _ _ (wf_placed m Hwf))). pose proof (Z.div_mod (T + (L - 1)) L ltac:(lia)) as Hd.
  pose proof (Z.mod_pos_bound (T + (L - 1)) L HL). rewrite <- Hn in Hd. assert (T <= nb * L < T + L) by nia.
  split_and!; try lia; nia.
Qed.

Lemma totfile_size_ok : totfile_size m = Ok T.
Proof using Hwf.
  unfold totfile_size. destruct (wf_size m Hwf) as [-> Ht]. pose proof piece_bounds. unfold fs_is_null. by rewrite (proj2 (Z.eqb_neq _ _)) by fs_lia.
Qed.

Lemma nb_piece_ok : nb_piece m = Ok nb.
Proof using Hwf. unfold nb_piece. pose proof piece_bounds. by rewrite (proj2 (Z.eqb_neq _ _)) by fs_lia. Qed.

Lemma check_idx_ok {A} idx (k : Z -> outcome A) : 0 <= idx < nb -> check_idx idx m k = k nb.
Proof using Hwf.
  intros Hi. unfold check_idx. rewrite nb_piece_ok. cbn [mbind outcome_bind]. by rewrite !(proj2 (Z.ltb_lt _ _)) by lia.
Qed.

(** The length of a piece: [piecelen], or what is left for the last one. *)
Definition piece_bytes (idx : Z) : Z := Z.min L (T - idx * L).

Lemma last_piece idx : 0 <= idx < nb -> wrap 64 (nb - 1) = nb - 1 /\ 0 < piece_bytes idx <= L /\ 0 <= idx * L < T /\ (idx <> nb - 1 -> (idx + 1) * L < T).
Proof using Hwf.
  intros Hi. destruct piece_bounds as (? & ? & ? & ? & ?). split; [apply fs_small; fs_lia|]. unfold piece_bytes.
  assert (idx * L <= (nb - 1) * L) by nia. split_and!; try nia.
Qed.

Lemma pieceidx_to_piecelen_ok idx : 0 <= idx < nb -> pieceidx_to_piecelen idx m = Ok (piece_bytes idx).
Proof using Hwf.
  intros Hi. destruct piece_bounds as (? & ? & ? & ? & ?). destruct (last_piece idx Hi) as (Hw & Hp & Hx & Hl). unfold pieceidx_to_piecelen.
  rewrite check_idx_ok, totfile_size_ok by done. cbn [mbind outcome_bind]. unfold fs_mod. rewrite (proj2 (Z.eqb_neq L 0)) by lia.
  cbn [mbind outcome_bind]. rewrite Hw. unfold piece_bytes in *. destruct (Z.eqb_spec idx (nb - 1)) as [->|Hne]; cbn [andb].
  - destruct (Z.eqb_spec (T mod L) 0) as [E|E]; cbn [negb].
    + apply Z.mod_divide in E as [q Hq]; [|lia]. assert (q = nb) by nia. f_equal. nia.
    + assert (T <> nb * L) by (intros HT; apply E; rewrite HT; apply Z.mod_mul; lia).
      rewrite <- (Z.mod_unique_pos T L (nb - 1) (T - (nb - 1) * L)) by nia. unfold fs_to_size_t. rewrite (proj2 (Z.leb_le _ _)) by (unfold max_unsigned; nia).
      cbn [dbg_assert]. f_equal. nia.
  - f_equal. specialize (Hl Hne). lia.
Qed.

Lemma piece_range_ok idx : 0 <= idx < nb -> pieceidx_to_totfile_range idx m = Ok (FileRange (idx * L) (idx * L + piece_bytes idx - 1)).
Proof using Hwf.
  intros Hi. destruct piece_bounds as (? & ? & ? & ? & ?). destruct (last_piece idx Hi) as (Hw & Hp & Hx & Hl).
  unfold pieceidx_to_totfile_range, pieceidx_to_piecebeg, pieceidx_to_pieceend. rewrite !check_idx_ok, totfile_size_ok by done.
  cbn [mbind outcome_bind]. replace (fs_mul L idx) with (idx * L) by fs_lia.
  assert (Hb : set_beg (idx * L) null_range = Ok (FileRange (idx * L) FS_NONE)).
  { unfold set_beg, file_range, is_sane, range_is_null. cbn [m_end null_range]. unfold fs_is_null at 2. rewrite Z.eqb_refl, orb_true_r. done. }
  rewrite Hb, Hw. cbn [mbind outcome_bind]. unfold piece_bytes in *. destruct (Z.eqb_spec idx (nb - 1)) as [->|Hne]; unfold set_end; cbn [m_beg mbind outcome_bind].
  - replace (fs_sub T 1) with (T - 1) by fs_lia. rewrite file_range_ok by lia. f_equal. f_equal. nia.
  - specialize (Hl Hne). rewrite (fs_small (idx + 1)) by fs_lia. replace (fs_sub (fs_mul L (idx + 1)) 1) with ((idx + 1) * L - 1).
    2: { assert (fs_mul L (idx + 1) = (idx + 1) * L) as -> by (unfold fs_mul; rewrite fs_small by fs_lia; lia). fs_lia. }
    rewrite file_range_ok by lia. f_equal. f_equal. lia.
Qed.

Lemma from_totfile_range_ok idx b e : 0 <= idx -> idx * L <= b <= e -> e < (idx + 1) * L -> e < FS_MAX ->
  from_totfile_range (FileRange b e) m = Ok (Prange idx (b - idx * L) (e - b + 1)).
Proof using Hwf.
  intros Hi Hb He HM. destruct piece_bounds as (? & ? & ? & ? & ?). unfold from_totfile_range, fs_div, fs_mod. cbn [m_beg m_end].
  rewrite (proj2 (Z.eqb_neq L 0)) by lia. cbn [mbind outcome_bind].
  rewrite <- (Z.div_unique_pos b L idx (b - idx * L)), <- (Z.div_unique_pos e L idx (e - idx * L)) by nia.
  rewrite Z.eqb_refl, <- (Z.mod_unique_pos b L idx (b - idx * L)) by nia. assert (idx <= idx * L) by nia.
  rewrite range_len_ok by (split; cbn; lia). unfold fs_to_size_t. cbn [dbg_assert m_beg m_end].
  rewrite !(proj2 (Z.leb_le _ _)) by fs_lia. done.
Qed.

Lemma to_totfile_range_ok idx off len : 0 <= idx -> 0 <= off -> 0 < len -> idx * L + off + len <= FS_MAX ->
  to_totfile_range (Prange idx off len) m = Ok (FileRange (idx * L + off) (idx * L + off + len - 1)).
Proof using Hwf.
  intros. destruct piece_bounds as (? & ? & ? & ? & ?). unfold to_totfile_range. cbn [piece_idx pr_offset pr_length].
  assert (0 <= idx * L) by nia. assert (Hm : fs_mul idx L = idx * L) by fs_lia. rewrite Hm. replace (fs_add (idx * L) off) with (idx * L + off) by fs_lia.
  assert (Hb : set_beg (idx * L + off) null_range = Ok (FileRange (idx * L + off) FS_NONE)).
  { unfold set_beg, file_range, is_sane, range_is_null. cbn [m_end null_range]. unfold fs_is_null at 2. rewrite Z.eqb_refl, orb_true_r. done. }
  rewrite Hb. cbn [mbind outcome_bind m_beg]. replace (fs_sub (fs_add (idx * L + off) len) 1) with (idx * L + off + len - 1) by fs_lia.
  unfold set_end. cbn [m_beg]. apply file_range_ok; lia.
Qed.

(** A list of parts of pieces that follow each other from [b] to [e], each in
    one piece, in the order of the pieces. *)
Fixpoint covers (b e : Z) (ps : list bt_prange_t) : Prop :=
  match ps with
  | [] => b = e + 1
  | p :: ps' =>
    0 < pr_length p /\ 0 <= piece_idx p < nb /\ 0 <= pr_offset p /\ pr_offset p + pr_length p <= piece_bytes (piece_idx p) /\
    to_totfile_range p m = Ok (FileRange b (b + pr_length p - 1)) /\ from_totfile_range (FileRange b (b + pr_length p - 1)) m = Ok p /\
    covers (b + pr_length p) e ps'
  end.

Lemma prange_loop_ok fuel b e acc : 0 <= b <= e -> e < T -> (Z.to_nat (nb - b / L) < fuel)%nat ->
  exists ps, prange_loop fuel (FileRange b e) m acc = Ok (acc ++ ps) /\ covers b e ps.
Proof using Hwf.
  destruct piece_bounds as (? & ? & ? & ? & ?). revert b acc. induction fuel as [|fuel IH]; intros b acc Hb He Hf; [lia|]. cbn [prange_loop].
  pose proof (Z.div_mod b L ltac:(lia)) as Hd. pose proof (Z.mod_pos_bound b L ltac:(lia)) as Hm. set (q := b / L) in *.
  assert (Hq : 0 <= q < nb) by (unfold q in *; split; [apply Z.div_pos; lia|nia]). destruct (last_piece q Hq) as (_ & Hp & Hx & Hl).
  assert (HqL : (q + 1) * L = q * L + L) by ring. rewrite (Z.mul_comm L q) in Hd.
  unfold totfile_to_pieceidx, fs_div. cbn [m_beg]. rewrite (proj2 (Z.eqb_neq L 0)) by lia. fold q. cbn [mbind outcome_bind].
  unfold fs_to_size_t. rewrite (proj2 (Z.leb_le q _)) by (unfold max_unsigned, FS_MAX in *; lia). cbn [dbg_assert mbind outcome_bind].
  rewrite piece_range_ok by done. cbn [mbind outcome_bind]. unfold piece_bytes in *.
  rewrite clamped_by_ok by (split; cbn; lia). cbn [m_beg m_end]. rewrite !(proj2 (Z.ltb_ge _ _)) by lia. cbn [orb mbind outcome_bind].
  set (e1 := Z.min (q * L + Z.min L (T - q * L) - 1) e). replace (Z.max (q * L) b) with b by lia.
  assert (He1 : b <= e1 <= e /\ e1 < (q + 1) * L /\ e1 < T) by (unfold e1; lia).
  pose proof (from_totfile_range_ok q b e1 ltac:(lia) ltac:(lia) ltac:(lia) ltac:(lia)) as Hfrom. rewrite Hfrom. cbn [mbind outcome_bind m_end].
  assert (Hc : forall ps, covers (e1 + 1) e ps -> covers b e (Prange q (b - q * L) (e1 - b + 1) :: ps)).
  { intros ps Hps. cbn [covers piece_idx pr_offset pr_length]. replace (b + (e1 - b + 1)) with (e1 + 1) by lia. replace (e1 + 1 - 1) with e1 by lia.
    rewrite to_totfile_range_ok by lia. split_and!; try done; try lia; [unfold piece_bytes; lia|f_equal; f_equal; lia]. }
  destruct (Z.eqb_spec e1 e) as [Ee|Ee].
  - exists [Prange q (b - q * L) (e1 - b + 1)]. split; [done|]. apply Hc. cbn. lia.
  - assert (Hnext : e1 + 1 = (q + 1) * L) by (unfold e1 in *; lia). unfold set_beg. cbn [m_end]. replace (fs_add e1 1) with (e1 + 1) by fs_lia.
    rewrite file_range_ok by lia. cbn [mbind outcome_bind]. destruct (IH (e1 + 1) (item_append (Prange q (b - q * L) (e1 - b + 1)) acc)) as (ps & -> & Hps); [lia..| |].
    { rewrite Hnext, Z.div_mul by lia. lia. }
    eexists. split; [unfold item_append; by rewrite <- app_assoc|]. by apply Hc.
Qed.

Lemma range_to_pranges_ok r : range_ok r -> m_end r < T -> exists ps, totfile_range_to_prange_arr r m = Ok ps /\ covers (m_beg r) (m_end r) ps.
Proof using Hwf.
  intros [Hb _] He. destruct r as [b e]. cbn [m_beg m_end] in *. unfold totfile_range_to_prange_arr. rewrite totfile_size_ok. cbn [mbind outcome_bind m_end].
  rewrite (proj2 (Z.ltb_lt _ _)) by done. cbn [dbg_assert]. pose proof piece_bounds. pose proof (Z.div_pos b L ltac:(lia) ltac:(lia)).
  destruct (prange_loop_ok (S (Z.to_nat nb)) b e []) as (ps & H1 & H2); [lia..|]. by exists ps.
Qed.

(** The bytes of the pieces from [i] that are available. *)
Fixpoint avail_bytes (pieceavail : list bool) (i : Z) : Z :=
  match pieceavail with
  | [] => 0
  | x :: l => (if (x : bool) then piece_bytes i else 0) + avail_bytes l (i + 1)
  end.

Lemma avail_loop_ok pa suf n acc :
  (length pa + n < length (pa ++ suf))%nat -> Z.of_nat (length (pa ++ suf)) = nb -> 0 <= acc <= Z.of_nat (length pa) * L ->
  avail_loop (pa ++ suf) m n (length pa) acc = Ok (acc + avail_bytes (take n suf) (Z.of_nat (length pa))) /\
  0 <= acc + avail_bytes (take n suf) (Z.of_nat (length pa)) <= Z.of_nat (length pa + n) * L.
Proof using Hwf.
  destruct piece_bounds as (? & ? & ? & ? & ?). revert pa suf acc. induction n as [|n IH]; intros pa suf acc Hn Hl Ha; cbn [avail_loop].
  { rewrite take_0. cbn [avail_bytes]. rewrite Z.add_0_r, Nat.add_0_r. done. }
  destruct suf as [|x suf]; [rewrite app_nil_r in Hn; lia|].
  rewrite (bf_get_ok _ _ x) by (by rewrite lookup_app_r, Nat.sub_diag by lia). cbn [mbind outcome_bind take avail_bytes].
  rewrite length_app in Hn, Hl. cbn [length] in Hn, Hl.
  assert (Hfull : (Z.of_nat (length pa) + 1) * L < T) by nia.
  replace (piece_bytes (Z.of_nat (length pa))) with L by (unfold piece_bytes; nia).
  set (acc1 := if (x : bool) then fs_add acc L else acc).
  assert (Hacc : acc1 = acc + (if x then L else 0) /\ 0 <= acc1 <= Z.of_nat (length (pa ++ [x])) * L).
  { unfold acc1. rewrite length_app. cbn [length]. destruct x; [|nia]. replace (fs_add acc L) with (acc + L); [nia|].
    unfold fs_add. rewrite fs_small; [done|]. unfold FS_MAX in *. change (2 ^ 64) with 18446744073709551616. nia. }
  destruct Hacc as [Hacc Hb]. specialize (IH (pa ++ [x]) suf acc1). rewrite <- app_assoc in IH. cbn [app] in IH.
  rewrite !length_app in *. cbn [length] in *. replace (S (length pa)) with (length pa + 1)%nat by lia.
  destruct IH as [-> IH]; [lia..|]. replace (Z.of_nat (length pa + 1)) with (Z.of_nat (length pa) + 1) in * by lia.
  rewrite Hacc in *. split; [f_equal; lia|]. rewrite <- Nat.add_assoc in IH. cbn [Nat.add] in IH. lia.
Qed.

Lemma avail_bytes_app l1 l2 i : avail_bytes (l1 ++ l2) i = avail_bytes l1 i + avail_bytes l2 (i + Z.of_nat (length l1)).
Proof using. clear Hwf. revert i. induction l1 as [|x l1 IH]; intros i; cbn [app avail_bytes length]; [by rewrite Z.add_0_r|].
  replace (i + Z.of_nat (S (length l1))) with (i + 1 + Z.of_nat (length l1)) by lia. rewrite IH. lia. Qed.

Lemma totfile_avail_ok pa : Z.of_nat (length pa) = nb -> pa <> [] -> totfile_avail pa m = Ok (avail_bytes pa 0) /\ 0 <= avail_bytes pa 0 <= T.
Proof using Hwf.
  intros Hl Hne. destruct piece_bounds as (? & ? & ? & ? & ?). destruct (exists_last Hne) as (l & x & ->). clear Hne.
  unfold totfile_avail. rewrite (wf_init m Hwf), nb_piece_ok, totfile_size_ok. cbn [mbind outcome_bind dbg_assert].
  rewrite (proj2 (Z.eqb_eq _ _)) by done. cbn [dbg_assert]. rewrite length_app in Hl |- *. cbn [length] in *.
  rewrite (proj2 (Nat.eqb_neq _ _)) by lia. cbn [negb dbg_assert]. replace (length l + 1 - 1)%nat with (length l) by lia.
  destruct (avail_loop_ok [] (l ++ [x]) (length l) 0) as [Hloop Hb]; [cbn; rewrite length_app; cbn; lia|cbn; rewrite length_app; cbn; lia|cbn; lia|].
  cbn [app length] in Hloop, Hb. rewrite take_app_length in Hloop, Hb. rewrite Hloop. cbn [mbind outcome_bind].
  rewrite (bf_get_ok _ _ x) by (by rewrite lookup_app_r, Nat.sub_diag by lia). cbn [mbind outcome_bind].
  rewrite avail_bytes_app. cbn [avail_bytes]. rewrite !Z.add_0_l in *. change (Z.of_nat 0) with 0 in *. cbn [Nat.add] in Hb.
  assert (Hi : Z.of_nat (length l) = nb - 1) by lia. rewrite Hi in *. assert ((nb - 1) * L < T) by nia.
  unfold piece_bytes. rewrite Z.add_0_r. assert (Hmin : Z.min L (T - (nb - 1) * L) = T - (nb - 1) * L) by nia.
  destruct x; [|rewrite Z.add_0_r; split; [done|lia]]. rewrite Hmin. assert (0 <= (nb - 1) * L) by nia.
  replace (fs_mul (nb - 1) L) with ((nb - 1) * L) by fs_lia. split; [|lia]. f_equal. fs_lia.
Qed.
End pieces.

(* ------------------------------------------------------------------ *)
(** * Theorems *)
(* ------------------------------------------------------------------ *)

(** A torrent that can be completed: an infohash, lengths whose sum is a size,
    a piece length, and as many hashes as pieces. *)
Record torrent_ok (m : bt_mfile_t) : Prop := {
  t_set : mfile_is_null m = false;
  t_lens : lens_ok (subfile_arr m);
  t_total : total (subfile_arr m) < FS_MAX;
  t_piecelen : 0 < piecelen m /\ total (subfile_arr m) + piecelen m <= 2 ^ 64;
  t_hashes : do_piecehash m = true -> Z.of_nat (length (piecehash_arr m)) = (total (subfile_arr m) + (piecelen m - 1)) / piecelen m
}.

Lemma torrent_complete m0 : torrent_ok m0 ->
  exists m, complete_init m0 = Ok m /\ mfile_wf m /\ map given (subfile_arr m) = map given (subfile_arr m0) /\ piecelen m = piecelen m0.
Proof. intros [? ? ? [? ?] ?]. by apply complete_init_wf. Qed.

Lemma given_paths l l2 : map given l = map given l2 -> map local_path l = map local_path l2.
Proof. revert l2. induction l as [|s l IH]; intros [|s2 l2]; try done. cbn [map]. intros [= _ _ Hp H]. rewrite Hp. f_equal. by apply IH. Qed.

Lemma given_fits d l l2 : map given l = map given l2 -> disk_fits d l2 -> disk_fits d l /\ totfile d l = totfile d l2.
Proof.
  revert l2. induction l as [|s l IH]; intros [|s2 l2]; try done. cbn [map]. intros [= _ Hl Hp H] [Hs Hf]%Forall_cons.
  destruct (IH l2 H Hf) as [IH1 IH2]. split; [constructor; [by rewrite Hp, Hl|done]|]. unfold totfile in *. cbn [map concat]. by rewrite Hp, IH2.
Qed.

(** C0. The files of a torrent behave as one sequence of bytes.  A torrent with ordinary lengths can be
    completed, and then, on files of these lengths at distinct paths, for every
    range inside: a read, which opens the files the range meets and asks each for
    its part, notifies exactly the bytes of the range in the concatenation of the
    files; a write changes the files so that their concatenation has the data at
    the range and nothing else changed, keeps their lengths, and touches no other
    file.  No assertion of either fails, and both end. *)
Theorem sfile_refines (m0 : bt_mfile_t) (d : disk) (r : file_range_t) (data : list Z)
    (Hm : torrent_ok m0) (Hd : disk_fits d (subfile_arr m0)) (Hpaths : NoDup (map local_path (subfile_arr m0)))
    (Hr : range_ok r) (Hin : m_end r < total (subfile_arr m0)) (Hdata : Z.of_nat (length data) = range_len r) :
  exists m, complete_init m0 = Ok m /\
    (exists st o n, sfile_read_ctor (fun _ => true) m r = Ok (st, [o]) /\
       read_served d n st o = Ok [NotifyRead false (slice 0 (totfile d (subfile_arr m0)) (m_beg r) (m_end r))]) /\
    (exists st o n d', sfile_write_ctor (fun _ => true) m r data = Ok (st, [o]) /\ write_served d n st o = Ok (d', [NotifyWrite false]) /\
       totfile d' (subfile_arr m0) = patch 0 (totfile d (subfile_arr m0)) (m_beg r) data /\ disk_fits d' (subfile_arr m0) /\
       (forall q, q ∉ map local_path (subfile_arr m0) -> d' q = d q)).
Proof.
  destruct (torrent_complete m0 Hm) as (m & Hc & Hwf & Hg & _). exists m. split; [done|].
  destruct (given_fits d _ _ Hg Hd) as [Hd2 Ht]. rewrite <- (total_given _ _ Hg) in Hin. rewrite <- (given_paths _ _ Hg) in Hpaths. split.
  - destruct (sfile_read_spec m d r Hwf Hd2 Hr Hin) as (st & o & n & H1 & _ & H2). exists st, o, n. by rewrite <- Ht.
  - destruct (sfile_write_spec m d r data Hwf Hd2 Hpaths Hr Hin Hdata) as (st & o & n & d' & H1 & H2 & H3 & H4 & H5).
    exists st, o, n, d'. destruct (given_fits d' _ _ (eq_sym Hg) H4) as [H6 H7]. rewrite H7, <- Ht, <- (given_paths _ _ Hg). done.
Qed.

(** C0. Pieces.  In a completed torrent, a range inside is cut by [totfile_range_to_prange_arr], which
    ends, into non-empty parts that follow each other from its first to its last byte, each in one
    piece and not beyond its end, and each converted back to the same part;
    [pieceidx_to_piecelen] gives every piece its length, the last one what is
    left; and [totfile_avail] is the sum of the lengths of the available
    pieces, never more than the size. *)
Theorem pieces_partition (m0 m : bt_mfile_t) (r : file_range_t) (pa : list bool)
    (Hm : torrent_ok m0) (Hc : complete_init m0 = Ok m) (Hr : range_ok r) (Hin : m_end r < total (subfile_arr m))
    (Hpa : Z.of_nat (length pa) = nb_piece_precpu m) :
  (exists ps, totfile_range_to_prange_arr r m = Ok ps /\ covers m (m_beg r) (m_end r) ps) /\
  (forall idx, 0 <= idx < nb_piece_precpu m -> pieceidx_to_piecelen idx m = Ok (piece_bytes m idx)) /\
  totfile_avail pa m = Ok (avail_bytes m pa 0) /\ 0 <= avail_bytes m pa 0 <= total (subfile_arr m).
Proof.
  destruct (torrent_complete m0 Hm) as (m2 & Hc2 & Hwf & _). rewrite Hc in Hc2. injection Hc2 as <-.
  split; [by apply range_to_pranges_ok|]. split; [intros idx Hi; by apply pieceidx_to_piecelen_ok|]. apply totfile_avail_ok; [done..|].
  intros ->. cbn in Hpa. pose proof (piece_bounds m Hwf). destruct Hr. nia.
Qed.

Lemma total_zero l idx off : lens_ok l -> total l = 0 -> db_of l idx off = [].
Proof.
  intros Hl. revert idx off. induction Hl as [|s l Hs Hl IH]; intros idx off Ht; [done|]. cbn [total foldr db_of] in *. fold (total l) in Ht.
  pose proof (total_nonneg l Hl). assert (sub_len s = 0) as -> by lia. apply IH. lia.
Qed.

(** A sequence of files of the lengths [lens], as a torrent gives them. *)
Definition torrent_of (piecelen : Z) (paths : list string) (lens : list Z) : bt_mfile_t :=
  Mfile (replicate 20 1) piecelen
    (zip_with (fun p n => Subfile null_range (FilePath [p] "") n (FilePath ["dir"; p] "")) paths lens) [] false FS_NONE (max_unsigned 64) [].

(** C0. What is not checked.  [is_sfile_ok] and [is_pfile_ok] of a completed torrent are
    true whatever its files, a file without a local path included: the test of each
    file is inverted twice.  A torrent whose infohash is not set can not be
    completed, though [complete_init] has the code that computes it.  Reading a range of a torrent whose files are all
    empty stops at an assertion.  The lengths of a torrent, signed
    numbers in the file, are not checked: with two of them negative
    [complete_init] stops at an assertion, and with one of [-1] it gives a torrent of
    2^64 - 1 bytes without any piece. *)
Theorem mfile_failures (m m1 : bt_mfile_t) (r : file_range_t) :
  (is_fully_init m = Ok true -> is_sfile_ok m = Ok true /\ is_pfile_ok m = Ok true) /\
  (id_is_null 20 (infohash m) = true -> complete_init m = AssertFail) /\
  (torrent_ok m1 -> total (subfile_arr m1) = 0 -> range_ok r ->
     exists m2, complete_init m1 = Ok m2 /\ sfile_read_ctor (fun _ => true) m2 r = AssertFail) /\
  complete_init (torrent_of 4 ["a"; "b"] [wrap 64 (-2 ^ 63); wrap 64 (-2 ^ 63 + 5)])%string = AssertFail /\
  (exists m2, complete_init (torrent_of 4 ["a"] [wrap 64 (-1)])%string = Ok m2 /\ nb_piece m2 = Ok 0 /\ totfile_size m2 = Ok (2 ^ 64 - 1)).
Proof.
  split_and!.
  - intros Hi. assert (Hall : forall test l, (forall s, subfile_is_fully_init s = Ok true -> test s = Ok false) ->
      any_subfile subfile_is_fully_init false l = Ok false -> any_subfile test true l = Ok false).
    { intros test l Ht. induction l as [|s l IH]; [done|]. cbn [any_subfile].
      destruct (subfile_is_fully_init s) as [[|]| | |] eqn:Es; try done. rewrite (Ht s Es). cbn. apply IH. }
    assert (Hsub : any_subfile subfile_is_fully_init false (subfile_arr m) = Ok false).
    { clear Hall. unfold is_fully_init in Hi. do 4 (destruct (_ : bool) in Hi; [done|]).
      by destruct (any_subfile subfile_is_fully_init false (subfile_arr m)) as [[|]| | |]. }
    unfold is_sfile_ok, is_pfile_ok, mfile_ok_with. rewrite Hi. cbn [mbind outcome_bind negb].
    rewrite !Hall; [done|intros s Hs; unfold subfile_is_pfile_ok; by rewrite Hs|done|intros s Hs; unfold subfile_is_sfile_ok; by rewrite Hs|done].
  - intros Hi. unfold complete_init, mfile_is_null. by rewrite Hi, orb_true_r.
  - intros Hm Ht Hr. destruct (torrent_complete m1 Hm) as (m2 & Hc & Hwf & Hg & _). exists m2. split; [done|].
    unfold sfile_read_ctor. rewrite get_iov_arr_spec by done. cbn [mbind outcome_bind].
    rewrite <- (total_given _ _ Hg) in Ht. pose proof (placed_lens _ _ (wf_placed m2 Hwf)) as Hl.
    by rewrite (db_of_nil _ _ _ _ _ Hl) by by apply total_zero.
  - by vm_compute.
  - eexists. split; [by vm_compute|]. by vm_compute.
Qed.

(* ------------------------------------------------------------------ *)
(** * Witnesses *)
(* ------------------------------------------------------------------ *)

Definition torrent_sample : bt_mfile_t := torrent_of 4 ["a"; "empty"; "b"]%string [5; 0; 7].
Definition disk_sample : disk := fun p =>
  if decide (p = FilePath ["dir"; "a"]%string "") then [1; 2; 3; 4; 5]
  else if decide (p = FilePath ["dir"; "b"]%string "") then [6; 7; 8; 9; 10; 11; 12] else [].

Lemma sample_ok : torrent_ok torrent_sample.
Proof. constructor; try done. repeat constructor; cbn; lia. Qed.

Lemma sfile_refines_witness : exists m, complete_init torrent_sample = Ok m /\
  exists st o n, sfile_read_ctor (fun _ => true) m (FileRange 3 6) = Ok (st, [o]) /\ read_served disk_sample n st o = Ok [NotifyRead false [4; 5; 6; 7]].
Proof.
  destruct (sfile_refines torrent_sample disk_sample (FileRange 3 6) [20; 21; 22; 23]) as (m & Hc & Hr & _).
  - apply sample_ok.
  - repeat constructor.
  - apply (bool_decide_unpack _). by vm_compute.
  - vm_compute. intuition discriminate.
  - by vm_compute.
  - by vm_compute.
  - exists m. split; [exact Hc|exact Hr].
Defined.

Lemma pieces_partition_witness : exists m, complete_init torrent_sample = Ok m /\
  totfile_range_to_prange_arr (FileRange 3 9) m = Ok [Prange 0 3 1; Prange 1 0 4; Prange 2 0 2] /\ totfile_avail [true; false; true] m = Ok 8 /\
  exists ps, totfile_range_to_prange_arr (FileRange 3 9) m = Ok ps /\ covers m 3 9 ps.
Proof.
  eexists. split; [by vm_compute|]. split; [by vm_compute|]. split; [by vm_compute|].
  eapply (pieces_partition torrent_sample _ (FileRange 3 9) [true; false; true]).
  - apply sample_ok.
  - by vm_compute.
  - vm_compute. intuition discriminate.
  - by vm_compute.
  - by vm_compute.
Defined.
