(* ===== verification/BtCmd.v ===== *)
(** The commands between bittorrent peers: [bt_cmd_t], [bt_cmdtype_t] and the
    packed form of [bt_pieceavail_t] (src/src/neoip_bt_core/base/).

    On the wire a command is the length of its payload, 4 bytes, and the payload: a
    type and parameters, or nothing for KEEPALIVE. *)
From S2P Require Import Prelude Serial Codec Bitfield FileRange BtMfile.

(* ------------------------------------------------------------------ *)
(** * Data *)
(* ------------------------------------------------------------------ *)

Definition CMD_NONE : Z := -1.
Definition UNAUTH_REQ : Z := 0x0.
Definition DOAUTH_REQ : Z := 0x1.
Definition DOWANT_REQ : Z := 0x2.
Definition UNWANT_REQ : Z := 0x3.
Definition PIECE_ISAVAIL : Z := 0x4.
Definition PIECE_BFIELD : Z := 0x5.
Definition BLOCK_REQ : Z := 0x6.
Definition BLOCK_REP : Z := 0x7.
Definition BLOCK_DEL : Z := 0x8.
Definition UTMSG_PAYL : Z := 0x14.
Definition KEEPALIVE : Z := 254.

Record bt_cmd_t := Cmd {
  cmdtype : Z;
  piece_idx_val : Z;
  prange_val : bt_prange_t;
  utmsg_datum_val : list Z
}.
#[export] Instance bt_cmd_eq_dec : EqDecision bt_cmd_t.
Proof. solve_decision. Defined.

(** The fields the constructor leaves unset are zero here. *)
Definition null_prange : bt_prange_t := Prange 0 (max_unsigned 64) 0.
Definition cmd_is_null (c : bt_cmd_t) : bool := cmdtype c =? CMD_NONE.
Definition is_block_cmd (c : bt_cmd_t) : bool :=
  (cmdtype c =? BLOCK_REQ) || (cmdtype c =? BLOCK_REP) || (cmdtype c =? BLOCK_DEL).

Definition cmd_piece_idx (c : bt_cmd_t) : outcome Z := assert! cmdtype c =? PIECE_ISAVAIL in Ok (piece_idx_val c).
Definition cmd_prange (c : bt_cmd_t) : outcome bt_prange_t := assert! is_block_cmd c in Ok (prange_val c).
Definition utmsg_datum (c : bt_cmd_t) : outcome (list Z) := assert! cmdtype c =? UTMSG_PAYL in Ok (utmsg_datum_val c).

Definition build_plain (type : Z) : bt_cmd_t := Cmd type 0 null_prange [].
Definition build_keepalive : bt_cmd_t := build_plain KEEPALIVE.
Definition build_unauth_req : bt_cmd_t := build_plain UNAUTH_REQ.
Definition build_doauth_req : bt_cmd_t := build_plain DOAUTH_REQ.
Definition build_dowant_req : bt_cmd_t := build_plain DOWANT_REQ.
Definition build_unwant_req : bt_cmd_t := build_plain UNWANT_REQ.
Definition build_piece_isavail (idx : Z) : bt_cmd_t := Cmd PIECE_ISAVAIL idx null_prange [].
Definition build_piece_bfield : bt_cmd_t := build_plain PIECE_BFIELD.
Definition build_block_req (p : bt_prange_t) : bt_cmd_t := Cmd BLOCK_REQ 0 p [].
Definition build_block_rep (p : bt_prange_t) : bt_cmd_t := Cmd BLOCK_REP 0 p [].
Definition build_block_del (p : bt_prange_t) : bt_cmd_t := Cmd BLOCK_DEL 0 p [].
Definition build_utmsg_payl (payload : list Z) : bt_cmd_t := Cmd UTMSG_PAYL 0 null_prange payload.

(** The type, then the parameters of the type. *)
Definition cmd_compare (c other : bt_cmd_t) : Z :=
  if cmdtype c <? cmdtype other then -1 else if cmdtype other <? cmdtype c then 1
  else if (cmdtype c =? PIECE_ISAVAIL) && (piece_idx_val c <? piece_idx_val other) then -1
  else if (cmdtype c =? PIECE_ISAVAIL) && (piece_idx_val other <? piece_idx_val c) then 1
  else if is_block_cmd c && (prange_compare (prange_val c) (prange_val other) <? 0) then -1
  else if is_block_cmd c && (0 <? prange_compare (prange_val c) (prange_val other)) then 1
  else if (cmdtype c =? UTMSG_PAYL) && datum_lt (utmsg_datum_val c) (utmsg_datum_val other) then -1
  else if (cmdtype c =? UTMSG_PAYL) && datum_gt (utmsg_datum_val c) (utmsg_datum_val other) then 1
  else 0.
Definition cmd_ne (c other : bt_cmd_t) : bool := negb (cmd_compare c other =? 0).

(* ------------------------------------------------------------------ *)
(** * bt_pieceavail_t *)
(* ------------------------------------------------------------------ *)

(** [ceil_div(size(), 8)]. *)
Definition nb_byte_needed (pa : list bool) : nat := ((length pa + 7) / 8)%nat.
Definition btformat_to_pkt (pa : list bool) (pkt : list Z) : outcome (list Z) :=
  let* p := pack_loop pa (length pa) 0 (replicate (nb_byte_needed pa) 0) in Ok (pkt ++ p).
(** [head_consume], with its [DBGNET_ASSERT], then bit after bit. *)
Definition btformat_from_pkt (nb_piece : nat) (pkt : list Z) : outcome (list bool * list Z) :=
  let nb := nb_byte_needed (bf_ctor nb_piece) in
  assert! bool_decide (nb <= length pkt)%nat in
  let* pa := unpack (take nb pkt) nb_piece in Ok (pa, drop nb pkt).

(* ------------------------------------------------------------------ *)
(** * Wire form *)
(* ------------------------------------------------------------------ *)

Definition put_type (c : bt_cmd_t) : list Z := wire_put u8_codec (wrap 8 (cmdtype c)).
Definition put_u32_of (v : Z) : list Z := wire_put u32_codec (wrap 32 v).
Definition put_prange32 (p : bt_prange_t) : list Z := put_u32_of (piece_idx p) ++ put_u32_of (pr_offset p) ++ put_u32_of (pr_length p).

(** The length of [to_datum()], or of the reply that will be built for BLOCK_REP. *)
Definition get_datum_len (local_pavail : list bool) (c : bt_cmd_t) : outcome Z :=
  assert! negb (cmd_is_null c) in
  if cmdtype c =? KEEPALIVE then Ok 4
  else if (cmdtype c =? UNAUTH_REQ) || (cmdtype c =? DOAUTH_REQ) || (cmdtype c =? DOWANT_REQ) || (cmdtype c =? UNWANT_REQ) then Ok (4 + 1)
  else if cmdtype c =? PIECE_ISAVAIL then Ok (4 + 1 + 4)
  else if cmdtype c =? PIECE_BFIELD then Ok (4 + 1 + Z.of_nat (nb_byte_needed local_pavail))
  else if cmdtype c =? BLOCK_REQ then Ok (4 + 1 + 4 + 4 + 4)
  else if cmdtype c =? BLOCK_REP then let* p := cmd_prange c in Ok (wrap 64 (4 + 1 + 4 + 4 + pr_length p))
  else if cmdtype c =? BLOCK_DEL then Ok (4 + 1 + 4 + 4 + 4)
  else if cmdtype c =? UTMSG_PAYL then let* d := utmsg_datum c in Ok (4 + 1 + Z.of_nat (length d))
  else AssertFail.

(** BLOCK_REP is built elsewhere, with its data. *)
Definition cmd_to_datum (local_pavail : list bool) (c : bt_cmd_t) : outcome (list Z) :=
  assert! negb (cmd_is_null c) in
  if cmdtype c =? KEEPALIVE then Ok (put_u32_of 0)
  else if (cmdtype c =? UNAUTH_REQ) || (cmdtype c =? DOAUTH_REQ) || (cmdtype c =? DOWANT_REQ) || (cmdtype c =? UNWANT_REQ) then
    Ok (put_u32_of 1 ++ put_type c)
  else if cmdtype c =? PIECE_ISAVAIL then let* idx := cmd_piece_idx c in Ok (put_u32_of 5 ++ put_type c ++ put_u32_of idx)
  else if cmdtype c =? PIECE_BFIELD then
    btformat_to_pkt local_pavail (put_u32_of (1 + Z.of_nat (nb_byte_needed local_pavail)) ++ put_type c)
  else if (cmdtype c =? BLOCK_REQ) || (cmdtype c =? BLOCK_DEL) then
    let* p := cmd_prange c in Ok (put_u32_of 13 ++ put_type c ++ put_prange32 p)
  else if cmdtype c =? UTMSG_PAYL then
    let* d := utmsg_datum c in Ok (put_u32_of (1 + Z.of_nat (length d)) ++ put_type c ++ d)
  else AssertFail.

(** What [neoip_bt_io_read_cb] sends for a BLOCK_REP before its data.  The
    index and the offset go out as [size_t], of [sz] bytes. *)
Definition block_rep_header (sz : nat) (c : bt_cmd_t) (data_len : Z) : outcome (list Z) :=
  let* p := cmd_prange c in
  Ok (put_u32_of (9 + data_len) ++ put_type c ++ be_bytes sz (piece_idx p) ++ be_bytes sz (pr_offset p)).

(* ------------------------------------------------------------------ *)
(** * Lemmas *)
(* ------------------------------------------------------------------ *)

(** The bitfield as it goes on the wire. *)
Definition packed (pa : list bool) : list Z := match btformat_to_pkt pa [] with Ok p => p | _ => [] end.

Lemma nb_byte_needed_size pa : nb_byte_needed pa = to_datum_size pa.
Proof. done. Qed.

Lemma packed_ok pa pkt rest :
  btformat_to_pkt pa pkt = Ok (pkt ++ packed pa) /\ length (packed pa) = nb_byte_needed pa /\ bytes_ok (packed pa) /\
  btformat_from_pkt (length pa) (packed pa ++ rest) = Ok (pa, rest).
Proof.
  destruct (to_datum_spec pa) as (p & Hp & Hk). pose proof Hk as (Hlen & Hok & _). unfold to_datum in Hp. unfold packed, btformat_to_pkt.
  rewrite nb_byte_needed_size, Hp. cbn [mbind outcome_bind app]. split_and!; [done..|].
  unfold btformat_from_pkt, bf_ctor. replace (nb_byte_needed (replicate (length pa) false)) with (length p); [|by unfold nb_byte_needed; rewrite length_replicate].
  rewrite bool_decide_eq_true_2 by (rewrite length_app; lia). cbn [dbg_assert]. by rewrite take_app_length, drop_app_length, unpack_spec.
Qed.

(** The fields fit in 32 bits. *)
Definition prange32 (p : bt_prange_t) : Prop := in_range 32 (piece_idx p) /\ in_range 32 (pr_offset p) /\ in_range 32 (pr_length p).

(** The commands that are sent: fields that fit in theirs, and for a block its
    bytes in the totfile. *)
Inductive cmd_wf (m : bt_mfile_t) : bt_cmd_t -> Prop :=
| WfPlain t : t ∈ [KEEPALIVE; UNAUTH_REQ; DOAUTH_REQ; DOWANT_REQ; UNWANT_REQ; PIECE_BFIELD] -> cmd_wf m (build_plain t)
| WfIsavail idx : in_range 32 idx -> cmd_wf m (build_piece_isavail idx)
| WfReq p : prange32 p -> cmd_wf m (build_block_req p)
| WfRep p : prange32 p -> 0 < pr_length p < 2 ^ 31 -> piece_idx p * piecelen m + pr_offset p + pr_length p <= total (subfile_arr m) -> cmd_wf m (build_block_rep p)
| WfDel p : prange32 p -> cmd_wf m (build_block_del p)
| WfUtmsg d : Z.of_nat (length d) < 2 ^ 31 -> bytes_ok d -> cmd_wf m (build_utmsg_payl d).

(** The bytes of the totfile a block has. *)
Definition block_data (m : bt_mfile_t) (content : list Z) (p : bt_prange_t) : list Z :=
  let b := piece_idx p * piecelen m + pr_offset p in slice 0 content b (b + pr_length p - 1).

(** A command on the wire: its length, then type and parameters. *)
Definition params (m : bt_mfile_t) (content : list Z) (pa : list bool) (c : bt_cmd_t) : list Z :=
  if cmdtype c =? PIECE_ISAVAIL then be_bytes 4 (piece_idx_val c)
  else if cmdtype c =? PIECE_BFIELD then packed pa
  else if cmdtype c =? BLOCK_REP then be_bytes 4 (piece_idx (prange_val c)) ++ be_bytes 4 (pr_offset (prange_val c)) ++ block_data m content (prange_val c)
  else if is_block_cmd c then be_bytes 4 (piece_idx (prange_val c)) ++ be_bytes 4 (pr_offset (prange_val c)) ++ be_bytes 4 (pr_length (prange_val c))
  else if cmdtype c =? UTMSG_PAYL then utmsg_datum_val c
  else [].
Definition payload m content pa (c : bt_cmd_t) : list Z := if cmdtype c =? KEEPALIVE then [] else cmdtype c :: params m content pa c.
Definition enc m content pa (c : bt_cmd_t) : list Z := be_bytes 4 (Z.of_nat (length (payload m content pa c))) ++ payload m content pa c.

Lemma rep_wf m c : cmd_wf m c -> cmdtype c = BLOCK_REP -> let p := prange_val c in
  c = build_block_rep p /\ prange32 p /\ 0 < pr_length p < 2 ^ 31 /\ piece_idx p * piecelen m + pr_offset p + pr_length p <= total (subfile_arr m).
Proof.
  intros [t Ht|idx Hi|p Hr|p Hr Hl Hin|p Hr|d Hd _] E; try discriminate; [|done].
  rewrite !elem_of_cons, elem_of_nil in Ht. cbn in E. destruct Ht as [->|[->|[->|[->|[->|[->|[]]]]]]]; discriminate.
Qed.

Lemma wf_not_null m c : cmd_wf m c -> cmd_is_null c = false.
Proof.
  intros [t Ht| | | | |]; try done. rewrite !elem_of_cons, elem_of_nil in Ht. destruct Ht as [->|[->|[->|[->|[->|[->|[]]]]]]]; done.
Qed.

Section wire.
Context (m : bt_mfile_t) (content : list Z) (pa : list bool).
Hypothesis (Hwf : mfile_wf m) (Hcontent : Z.of_nat (length content) = total (subfile_arr m)) (Hpa : Z.of_nat (length pa) < 2 ^ 31).

Lemma block_data_length p : prange32 p -> 0 < pr_length p -> piece_idx p * piecelen m + pr_offset p + pr_length p <= total (subfile_arr m) ->
  Z.of_nat (length (block_data m content p)) = pr_length p.
Proof using Hwf Hcontent.
  clear Hpa. intros (Hi & Ho & _) ? ?. destruct (piece_bounds m Hwf) as (_ & ? & _). unfold in_range in *. assert (0 <= piece_idx p * piecelen m) by nia.
  unfold block_data. rewrite slice_length. lia.
Qed.

Lemma u32_of v : in_range 32 v -> put_u32_of v = be_bytes 4 v.
Proof. intros H. unfold put_u32_of. by rewrite wrap_small. Qed.

Lemma prange32_of p : prange32 p -> put_prange32 p = be_bytes 4 (piece_idx p) ++ be_bytes 4 (pr_offset p) ++ be_bytes 4 (pr_length p).
Proof. intros (? & ? & ?). unfold put_prange32. by rewrite !u32_of. Qed.

Lemma datum_len_ok c : cmd_wf m c -> get_datum_len pa c = Ok (Z.of_nat (length (enc m content pa c))) /\ 0 < Z.of_nat (length (enc m content pa c)) < 0xFFFFFFFF.
Proof using Hwf Hcontent Hpa.
  destruct (packed_ok pa [] []) as (_ & Hp & _). assert (Hn : (nb_byte_needed pa <= length pa)%nat \/ pa = []) .
  { destruct pa; [by right|left]. unfold nb_byte_needed. cbn [length]. apply Nat.Div0.div_le_upper_bound. lia. }
  intros [t Ht|idx Hi|p Hr|p Hr Hl Hin|p Hr|d Hd _]; unfold enc; rewrite length_app, be_bytes_length.
  - assert (Hb : (nb_byte_needed pa <= length pa)%nat) by (destruct Hn as [Hn| ->]; [done|by cbn]).
    rewrite !elem_of_cons, elem_of_nil in Ht. destruct Ht as [->|[->|[->|[->|[->|[->|[]]]]]]]; (split; [|cbn -[packed]; rewrite ?Hp; lia]); unfold get_datum_len; cbn -[packed]; rewrite ?Hp; f_equal; lia.
  - split; [done|]. cbn. lia.
  - split; [done|]. cbn. lia.
  - pose proof (block_data_length p Hr ltac:(lia) Hin) as Hdl. unfold get_datum_len, payload, params. cbn -[block_data be_bytes wrap]. rewrite !length_app, !be_bytes_length.
    rewrite wrap_small by (unfold in_range; lia). split; [f_equal|]; lia.
  - split; [done|]. cbn. lia.
  - unfold get_datum_len, payload, params. cbn. split; [f_equal|]; lia.
Qed.

Lemma to_datum_ok c : cmd_wf m c -> cmdtype c <> BLOCK_REP -> cmd_to_datum pa c = Ok (enc m content pa c).
Proof using Hwf Hcontent Hpa.
  intros Hc Hn. pose proof (datum_len_ok c Hc) as [_ Hlen]. revert Hc Hn Hlen. destruct (packed_ok pa [] []) as (_ & Hp & _). unfold enc. rewrite length_app, be_bytes_length.
  intros [t Ht|idx Hi|p Hr|p Hr Hl Hin|p Hr|d Hd _] Hn Hlen; [| | |by destruct Hn| |].
  - rewrite !elem_of_cons in Ht. destruct Ht as [->|[->|[->|[->|[->|[->|Ht]]]]]]; [done..| |by apply elem_of_nil in Ht].
    unfold cmd_to_datum. cbn -[btformat_to_pkt put_u32_of]. edestruct (fun pkt => packed_ok pa pkt []) as (-> & _). rewrite u32_of by (cbn -[packed] in Hlen; unfold in_range; lia).
    unfold payload, params. cbn -[packed be_bytes]. rewrite Hp, <- app_assoc. by rewrite (Z.add_comm 1), Z.add_1_r, <- Nat2Z.inj_succ.
  - unfold cmd_to_datum. cbn -[be_bytes put_u32_of]. by rewrite (u32_of idx).
  - unfold cmd_to_datum. cbn -[be_bytes put_u32_of put_prange32]. by rewrite prange32_of.
  - unfold cmd_to_datum. cbn -[be_bytes put_u32_of put_prange32]. by rewrite prange32_of.
  - unfold cmd_to_datum. cbn -[be_bytes put_u32_of]. rewrite u32_of by (cbn in Hlen; unfold in_range; lia).
    unfold payload, params. cbn -[be_bytes]. by rewrite (Z.add_comm 1), Z.add_1_r, <- Nat2Z.inj_succ.
Qed.

(** On a 32-bit host the header of a block and its data make the command. *)
Lemma block_rep_ok p : cmd_wf m (build_block_rep p) ->
  exists header, block_rep_header 4 (build_block_rep p) (pr_length p) = Ok header /\ header ++ block_data m content p = enc m content pa (build_block_rep p).
Proof using Hwf Hcontent.
  clear Hpa. intros Hc. destruct (rep_wf m _ Hc eq_refl) as (_ & Hr & Hl & Hin). cbn [build_block_rep prange_val] in *.
  pose proof (block_data_length p Hr ltac:(lia) Hin) as Hdl. eexists. split; [done|]. cbn [prange_val]. rewrite u32_of by (unfold in_range; lia).
  unfold enc, payload, params. cbn -[block_data be_bytes]. rewrite !length_app, !be_bytes_length, <- !app_assoc. replace (9 + pr_length p) with (Z.of_nat (S (4 + (4 + length (block_data m content p))))) by lia. done.
Qed.
End wire.
