(* ===== verification/BtSendq.v ===== *)
(** The commands waiting to be sent to a bittorrent peer: [bt_swarm_full_sendq_t]
    (src/src/neoip_bt_core/swarm/full/sendq/), with the send buffer of the
    connection, [tcp_full_t] (src/src/neoip_inet/tcp/full/).

    A command leaves the queue when the buffer has room for the whole of it; a
    BLOCK_REP also needs its data to be read from the files first, and can be
    removed until then. *)
From S2P Require Import Prelude Serial Codec Bitfield ItemArr FileRange BtMfile BtCmd.

(* ------------------------------------------------------------------ *)
(** * The send buffer of tcp_full_t *)
(* ------------------------------------------------------------------ *)

Definition UNLIMITED : Z := 0xFFFFFFFF.

(** [written] is what the system has taken.  Rate limits and errors of the
    system are not modelled. *)
Record tcp_xmit_t := TcpXmit {
  xmitbuf_maxlen : Z;
  xmitbuf : list Z;
  maysend_tshold : Z;
  written : list Z
}.

Definition xmitbuf_usedlen (t : tcp_xmit_t) : outcome Z :=
  let len := Z.of_nat (length (xmitbuf t)) in
  if negb (xmitbuf_maxlen t =? UNLIMITED) then assert! len <=? xmitbuf_maxlen t in Ok len else Ok len.
Definition xmitbuf_freelen (t : tcp_xmit_t) : outcome Z :=
  if xmitbuf_maxlen t =? UNLIMITED then Ok UNLIMITED
  else let* used := xmitbuf_usedlen t in Ok (wrap 64 (xmitbuf_maxlen t - used)).
Definition set_maysend_tshold (v : Z) (t : tcp_xmit_t) : tcp_xmit_t := TcpXmit (xmitbuf_maxlen t) (xmitbuf t) v (written t).

(** What does not fit is dropped. *)
Definition tcp_send (data : list Z) (t : tcp_xmit_t) : outcome tcp_xmit_t :=
  let data_len := Z.of_nat (length data) in
  let* sendlen :=
    if negb (xmitbuf_maxlen t =? UNLIMITED) then
      let* used := xmitbuf_usedlen t in Ok (Z.min data_len (wrap 64 (xmitbuf_maxlen t - used)))
    else Ok data_len in
  if sendlen =? 0 then Ok t
  else Ok (TcpXmit (xmitbuf_maxlen t) (xmitbuf t ++ take (Z.to_nat sendlen) data) (maysend_tshold t) (written t)).

(** The system takes [written_len] bytes; whether MAYSEND_ON is notified. *)
Definition try_to_xmit (written_len : nat) (t : tcp_xmit_t) : outcome (bool * tcp_xmit_t) :=
  let* old_freelen := xmitbuf_freelen t in
  let t1 := TcpXmit (xmitbuf_maxlen t) (drop written_len (xmitbuf t)) (maysend_tshold t) (written t ++ take written_len (xmitbuf t)) in
  if negb (maysend_tshold t =? UNLIMITED) && (old_freelen <? maysend_tshold t) then
    let* freelen := xmitbuf_freelen t1 in Ok (maysend_tshold t <=? freelen, t1)
  else Ok (false, t1).

(* ------------------------------------------------------------------ *)
(** * bt_swarm_full_sendq_t *)
(* ------------------------------------------------------------------ *)

Record bt_swarm_full_sendq_t := Sendq {
  cmd_queue : list bt_cmd_t;
  bt_io_read : option file_range_t;                       (* the range it reads *)
  socket : tcp_xmit_t
}.

Section sendq.
(** [sizeof(size_t)], and the torrent. *)
Context (sz : nat) (m : bt_mfile_t).
Implicit Types (st : bt_swarm_full_sendq_t) (local_pavail : list bool).

(** Whether the front command has NOT been sent.  The statistics and the
    keepalive timer, started again, are not modelled. *)
Definition send_front_cmd local_pavail st : outcome (bool * bt_swarm_full_sendq_t) :=
  match cmd_queue st with
  | [] => AssertFail
  | next_cmd :: queue =>
    let* cmd_len := get_datum_len local_pavail next_cmd in
    let* freelen := xmitbuf_freelen (socket st) in
    if freelen <? cmd_len then Ok (true, Sendq (cmd_queue st) (bt_io_read st) (set_maysend_tshold cmd_len (socket st)))
    else if cmdtype next_cmd =? BLOCK_REP then
      let* p := cmd_prange next_cmd in
      match bt_io_read st with
      | Some _ => Ok (true, st)
      | None => let* r := to_totfile_range p m in Ok (true, Sendq (cmd_queue st) (Some r) (socket st))
      end
    else
      let* cmd_datum := cmd_to_datum local_pavail next_cmd in
      assert! Z.of_nat (length cmd_datum) =? cmd_len in
      let* sock := tcp_send cmd_datum (socket st) in
      Ok (false, Sendq queue (bt_io_read st) sock)
  end.

(** A turn per command. *)
Fixpoint fill_loop (fuel : nat) local_pavail st : outcome bt_swarm_full_sendq_t :=
  if bool_decide (cmd_queue st = []) then Ok st
  else
    match fuel with
    | O => Fault
    | S fuel' => let* (not_sent, st1) := send_front_cmd local_pavail st in if (not_sent : bool) then Ok st1 else fill_loop fuel' local_pavail st1
    end.
Definition fill_socket_xmitbuf local_pavail st : outcome bt_swarm_full_sendq_t := fill_loop (length (cmd_queue st)) local_pavail st.

Definition queue_cmd local_pavail (c : bt_cmd_t) st : outcome bt_swarm_full_sendq_t :=
  assert! negb (cmd_is_null c) in
  fill_socket_xmitbuf local_pavail (Sendq (cmd_queue st ++ [c]) (bt_io_read st) (socket st)).
Definition notify_maysend local_pavail st : outcome bt_swarm_full_sendq_t := fill_socket_xmitbuf local_pavail st.

(** The position of the first command equal to [c]. *)
Fixpoint find_cmd (c : bt_cmd_t) (queue : list bt_cmd_t) : option nat :=
  match queue with
  | [] => None
  | c' :: queue' => if cmd_ne c' c then S <$> find_cmd c queue' else Some 0%nat
  end.
Definition remove_one_block_rep local_pavail (c : bt_cmd_t) st : outcome bt_swarm_full_sendq_t :=
  assert! cmdtype c =? BLOCK_REP in
  match find_cmd c (cmd_queue st) with
  | None => Ok st
  | Some i =>
    fill_socket_xmitbuf local_pavail
      (Sendq (delete i (cmd_queue st)) (if (i =? 0)%nat then None else bt_io_read st) (socket st))
  end.

Definition is_block_rep (c : bt_cmd_t) : bool := cmdtype c =? BLOCK_REP.
(** The inner loop removes the first BLOCK_REP; the outer one ends when there is none. *)
Fixpoint erase_first_rep (queue : list bt_cmd_t) : option (list bt_cmd_t) :=
  match queue with
  | [] => None
  | c :: queue' => if negb (is_block_rep c) then cons c <$> erase_first_rep queue' else Some queue'
  end.
Fixpoint erase_all_rep (fuel : nat) (queue : list bt_cmd_t) : outcome (list bt_cmd_t) :=
  match erase_first_rep queue with
  | None => Ok queue
  | Some queue1 => match fuel with O => Fault | S fuel' => erase_all_rep fuel' queue1 end
  end.
Definition remove_all_block_rep local_pavail st : outcome bt_swarm_full_sendq_t :=
  let* queue := erase_all_rep (length (cmd_queue st)) (cmd_queue st) in
  fill_socket_xmitbuf local_pavail (Sendq queue None (socket st)).

(** The data have been read.  The front of an empty list is undefined. *)
Definition neoip_bt_io_read_cb local_pavail (read_data : list Z) st : outcome bt_swarm_full_sendq_t :=
  match cmd_queue st with
  | [] => Fault
  | next_cmd :: queue =>
    assert! cmdtype next_cmd =? BLOCK_REP in
    let* p := cmd_prange next_cmd in
    assert! pr_length p =? Z.of_nat (length read_data) in
    let* header := block_rep_header sz next_cmd (Z.of_nat (length read_data)) in
    let* freelen := xmitbuf_freelen (socket st) in
    assert! Z.of_nat (length header) + Z.of_nat (length read_data) <=? freelen in
    let* sock := tcp_send header (socket st) in
    let* sock := tcp_send read_data sock in
    fill_socket_xmitbuf local_pavail (Sendq queue None sock)
  end.

(** What happens to the queue: commands queued, the keepalive timer, the
    buffer sent in part, a BLOCK_REP removed, all of them removed, the read
    ended. *)
Inductive sendq_in :=
| QueueCmd (c : bt_cmd_t)
| KaliveExpire
| Xmit (written_len : nat)
| RemoveOne (p : bt_prange_t)
| RemoveAll
| ReadDone (read_data : list Z).

Definition sendq_step local_pavail (i : sendq_in) st : outcome bt_swarm_full_sendq_t :=
  match i with
  | QueueCmd c => queue_cmd local_pavail c st
  | KaliveExpire => queue_cmd local_pavail build_keepalive st
  | Xmit n =>
    let* (maysend, sock) := try_to_xmit n (socket st) in
    let st1 := Sendq (cmd_queue st) (bt_io_read st) sock in
    if (maysend : bool) then notify_maysend local_pavail st1 else Ok st1
  | RemoveOne p => remove_one_block_rep local_pavail (build_block_rep p) st
  | RemoveAll => remove_all_block_rep local_pavail st
  | ReadDone data => match bt_io_read st with None => Ok st | Some _ => neoip_bt_io_read_cb local_pavail data st end
  end.
End sendq.
